(* ===== verification/_CoqProject ===== *)
-Q . S2P
Prelude.v
Limbs.v
Pack.v
Scalar.v
ScalarCorrect.v
Primes.v
Group.v
GroupSolve.v
GroupSum.v
Fe.v
FeCorrect.v
FePow.v
FeBytes.v
Curve.v
GeData.v
Ge.v
GeCorrect.v
GeEncode.v
FeTheorems.v
GeMult.v
Recode.v
GeMultCorrect.v
GeTables.v
GeScalarmult.v
GeFromFe.v
GeTheorems.v
CurveOrder.v
Keccak.v
KeccakCorrect.v
Random.v
Hmac.v
IntUtil.v
Difficulty.v
Varint.v
Archive.v
Base58.v
Encoding.v
Crypto.v
CryptoCorrect.v
CryptoTheorems.v
TreeHash.v
RctData.v
Exc.v
HardFork.v
HardForkCorrect.v
HardForkTheorems.v
RctTables.v
RctOps.v
RctOpsCorrect.v
RingLoop.v
Clsag.v
ClsagCorrect.v
ClsagTheorems.v
Borromean.v
BorromeanCorrect.v
Mlsag.v
MlsagCorrect.v
MlsagTheorems.v
Multiexp.v
MultiexpCorrect.v
Bulletproofs.v
RctTypes.v
RctSerial.v
RctCanon.v
Transaction.v
TransactionCorrect.v
TransactionTheorems.v
TxWeight.v
RctSigs.v
BulletproofScalars.v
BulletproofPoints.v
BulletproofSpec.v
BulletproofComplete.v
BulletproofVerify.v
BulletproofProve.v
BulletproofTheorems.v
RctSigsCorrect.v
RctSigsTheorems.v
