(* ===== verification/Prelude.v ===== *)
(** * Sumokoin core: a verification library

    Sumokoin (sources under src/) is a CryptoNote currency.  This library models
    its cryptographic core and the parts of consensus that are built directly on
    it, and proves them correct.

    ** The program and the files

    - Field, scalar and curve arithmetic: src/crypto/crypto-ops.c, crypto-ops.h and
      crypto-ops-data.c, translated limb by limb.  [Limbs] and [Pack] hold the
      straight-line programs over limbs and the byte packing, with their interval
      analysis; [Scalar] and [ScalarCorrect] the sc_* routines modulo the group
      order [ell]; [Fe], [FeCorrect], [FePow], [FeBytes] and [FeTheorems] the fe_*
      routines modulo 2^255-19; [Primes] proves the moduli prime; [Group] is the
      interface of an abelian group with its multiples; [Curve] proves that the
      twisted Edwards curve is one; [GeData], [Ge], [GeMult], [Recode], [GeFromFe]
      are the ge_* routines and tables, [GeCorrect], [GeEncode], [GeMultCorrect],
      [GeTables], [GeScalarmult] and [GeTheorems] what they compute; [CurveOrder]
      counts the points of the curve: 8 [ell].
    - Hashing: [Keccak] and [KeccakCorrect] (keccak.c, cn_fast_hash of hash.c),
      [Hmac] (hmac-keccak.c), [TreeHash] (tree-hash.c), [Random] (random.c).
    - Keys and signatures: [Encoding] gives every call above its meaning on points
      and scalars as 32-byte strings; [Crypto] translates all of crypto.cpp,
      [CryptoCorrect] computes it and [CryptoTheorems] states the results.
    - Encodings: [Varint] (common/varint.h), [Base58] (common/base58.cpp).
    - Consensus arithmetic: [IntUtil] (epee's int-util.h), [Difficulty]
      (cryptonote_basic/difficulty.cpp).
    - RingCT: [RctData], [RctTables] the constants and tables, [RctOps] and
      [RctOpsCorrect] rctOps.cpp with the conversions of rctTypes.cpp.

    ** How code is modelled

    An unsigned word is a [Z] with its wrap-around written out ([wrap]); a signed
    operation is [chk w], which fails outside its range, so that every theorem that
    a routine returns a result also shows that no signed operation overflows.
    Arrays and strings are lists; an index out of range is a failure.  A routine
    that can fail, abort or read out of range returns an [option]; [None] is never
    a regular result.  A routine that returns an error code or false and a result
    returns an [option] inside, and one that throws has the type [exc].  Loops are
    structural on the data they consume, or carry fuel and fail when it runs out;
    each such loop has a theorem that the fuel given is enough.

    Assumptions: memory is little-endian, [char] is signed, allocation succeeds.
    Assertions are modelled where the code has them: [NDEBUG] is a parameter of
    Crypto, and the theorems hold for both values.  The 32-byte blocks that the
    random generator yields are an argument (a tape); a function that loops until
    a block is good fails only on a tape that has no good block left.

    ** What the theorems show

    - crypto-ops.c computes the operations of the field, the scalars and the group
      for every input in the range that its callers keep, with no overflow; the
      tables hold what they stand for; decoding accepts exactly the canonical
      encodings.
    - Keccak refines the sponge over the reference permutation, whole or in pieces;
      the tree hash refines the tree and is binding up to collisions.
    - Signatures, transaction proofs and ring signatures that are generated are
      accepted; what is accepted satisfies the verification equation; key images
      are equal exactly for equal keys; one-time addresses match their secrets.
    - Varints, Base58 strings, addresses and masked amounts decode to what was
      encoded, and what is accepted is canonical.
    - The proof-of-work test is the exact product test; the difficulty algorithms
      never fail an assertion on growing work and stay within their bounds.

    ** Not modelled

    Bulk proof-of-work hashes (CryptoNight and its AES, BLAKE, Groestl, JH and
    Skein), whose only contract is their bit pattern; the third difficulty
    algorithm, which computes in floating point; ring signatures and range proofs over
    the RingCT layer; serialisation; transactions, blocks and hard forks; the block database,
    networking, RPC, wallet, daemon and device code, which are input and output
    over third-party libraries; vendored libraries. *)
From Stdlib Require Export ZArith Lia.
From stdpp Require Export base option list numbers.

#[global] Open Scope Z_scope.

(** * Machine integers

    A C integer of width [w] is a [Z].  Unsigned arithmetic wraps ([wrap]);
    signed arithmetic has no defined result outside its range, so a signed
    operation is modelled by [chk w], which fails instead. *)

Definition wrap (w z : Z) : Z := z mod 2 ^ w.

Definition fits (w z : Z) : bool := (- 2 ^ (w - 1) <=? z) && (z <? 2 ^ (w - 1)).

Definition chk (w z : Z) : option Z := if fits w z then Some z else None.

Abbreviation u8 := (wrap 8).
Abbreviation u32 := (wrap 32).
Abbreviation u64 := (wrap 64).
Abbreviation i32 := (chk 32).
Abbreviation i64 := (chk 64).

Lemma fits_spec w z : fits w z = true <-> - 2 ^ (w - 1) <= z < 2 ^ (w - 1).
Proof. unfold fits. rewrite andb_true_iff, Z.leb_le, Z.ltb_lt. tauto. Qed.

Lemma chk_ok w z : - 2 ^ (w - 1) <= z < 2 ^ (w - 1) -> chk w z = Some z.
Proof. intros H. unfold chk. rewrite (proj2 (fits_spec w z) H). reflexivity. Qed.

Lemma chk_Some w z r : chk w z = Some r -> r = z /\ - 2 ^ (w - 1) <= z < 2 ^ (w - 1).
Proof.
  unfold chk. destruct (fits w z) eqn:E; intros [= <-].
  split; [done | by apply fits_spec].
Qed.

Lemma fits_between w lo hi z :
  fits w lo = true -> fits w hi = true -> lo <= z <= hi -> chk w z = Some z.
Proof. rewrite !fits_spec. intros. apply chk_ok. lia. Qed.

Lemma wrap_small w z : 0 <= z < 2 ^ w -> wrap w z = z.
Proof. apply Z.mod_small. Qed.

Lemma wrap_range w z : 0 <= w -> 0 <= wrap w z < 2 ^ w.
Proof. intros. apply Z.mod_pos_bound, Z.pow_pos_nonneg; lia. Qed.

(** * Congruence modulo an integer

    [eqm m a b] also makes sense for [m = 0], where it is equality; the limb
    machine uses this to state exact preservation of a value. *)

Definition eqm (m a b : Z) : Prop := (m | a - b).

Declare Scope eqm_scope.
Delimit Scope eqm_scope with eqm.
Notation "a ≡⟨ m ⟩ b" := (eqm m a b) (at level 70, m at level 60) : eqm_scope.
#[global] Open Scope eqm_scope.

#[global] Instance eqm_equivalence m : Equivalence (eqm m).
Proof.
  unfold eqm. split.
  - intros x. exists 0. lia.
  - intros x y [k Hk]. exists (- k). lia.
  - intros x y z [k Hk] [j Hj]. exists (k + j). lia.
Qed.

#[global] Instance eqm_add m : Proper (eqm m ==> eqm m ==> eqm m) Z.add.
Proof. intros a b [k Hk] c d [j Hj]. exists (k + j). lia. Qed.

#[global] Instance eqm_sub m : Proper (eqm m ==> eqm m ==> eqm m) Z.sub.
Proof. intros a b [k Hk] c d [j Hj]. exists (k - j). lia. Qed.

#[global] Instance eqm_opp m : Proper (eqm m ==> eqm m) Z.opp.
Proof. intros a b [k Hk]. exists (- k). lia. Qed.

#[global] Instance eqm_mul m : Proper (eqm m ==> eqm m ==> eqm m) Z.mul.
Proof.
  intros a b [k Hk] c d [j Hj]. exists (k * c + b * j).
  replace (a * c - b * d) with ((a - b) * c + b * (c - d)) by ring.
  rewrite Hk, Hj. ring.
Qed.

Lemma eqm_0 a b : a ≡⟨ 0 ⟩ b <-> a = b.
Proof.
  split; [| intros ->; reflexivity].
  intros [k Hk]. lia.
Qed.

Lemma eqm_of_mod m a b : (a - b) mod m = 0 -> a ≡⟨ m ⟩ b.
Proof.
  intros H. unfold eqm. destruct (Z.eq_dec m 0) as [-> | Hm].
  - rewrite Z.mod_0_r in H. rewrite H. apply Z.divide_0_r.
  - by apply Z.mod_divide.
Qed.

Lemma eqm_mod m a b : m <> 0 -> a ≡⟨ m ⟩ b <-> a mod m = b mod m.
Proof.
  intros Hm. unfold eqm. rewrite <- Z.mod_divide by done. split; intros H.
  - rewrite (Z.div_mod (a - b) m) in H by done.
    replace a with (b + (a - b) / m * m).
    + apply Z_mod_plus_full.
    + pose proof (Z.div_mod (a - b) m Hm). rewrite <- Z.div_mod in H by done. lia.
  - rewrite Zminus_mod, H, Z.sub_diag. apply Zmod_0_l.
Qed.

Lemma eqm_mod_r m a : m <> 0 -> a mod m ≡⟨ m ⟩ a.
Proof. intros. apply eqm_mod; [done |]. apply Zmod_mod. Qed.

Lemma eqm_unique m a b : a ≡⟨ m ⟩ b -> 0 <= a < m -> a = b mod m.
Proof.
  intros H Ha. rewrite <- (Z.mod_small a m) by done. apply eqm_mod; [lia | done].
Qed.

Lemma eqm_add_mul m a k : a + k * m ≡⟨ m ⟩ a.
Proof. exists k. lia. Qed.

#[global] Instance eqm_pow m : Proper (eqm m ==> eq ==> eqm m) Z.pow.
Proof.
  intros a b H n n' <-. destruct (Z.le_gt_cases 0 n) as [Hn | Hn].
  - revert Hn. generalize n. apply natlike_ind; [reflexivity |].
    intros x Hx IH. rewrite !Z.pow_succ_r by done. by rewrite IH, H.
  - by rewrite !Z.pow_neg_r by done.
Qed.

(** * Bits as arithmetic *)

Ltac zlia := Z.to_euclidean_division_equations; lia.

Lemma land_ones_l n x : 0 <= n -> Z.land (Z.ones n) x = x mod 2 ^ n.
Proof. intros. rewrite Z.land_comm. by apply Z.land_ones. Qed.

Lemma lor_shiftl_add a b n : 0 <= n -> 0 <= a < 2 ^ n -> Z.lor a (Z.shiftl b n) = a + b * 2 ^ n.
Proof.
  intros Hn Ha. rewrite <- Z.shiftl_mul_pow2 by done.
  rewrite <- Z.lxor_lor, Z.add_nocarry_lxor; try done.
  all: apply Z.bits_inj'; intros i Hi; rewrite Z.land_spec, Z.bits_0.
  all: destruct (Z.lt_ge_cases i n) as [Hin | Hin].
  all: try (rewrite (Z.shiftl_spec_low b n i) by done; apply andb_false_r).
  all: rewrite <- (Z.mod_small a (2 ^ n)), Z.mod_pow2_bits_high by lia; done.
Qed.

Lemma lxor_range w a b : 0 <= w -> 0 <= a < 2 ^ w -> 0 <= b < 2 ^ w -> 0 <= Z.lxor a b < 2 ^ w.
Proof.
  intros Hw Ha Hb. split; [apply Z.lxor_nonneg; lia |].
  destruct (Z.eq_dec (Z.lxor a b) 0) as [-> | N]; [by apply Z.pow_pos_nonneg |].
  assert (0 <= Z.lxor a b) by (apply Z.lxor_nonneg; lia). apply Z.log2_lt_pow2; [lia |].
  assert (L : forall c, 0 <= c < 2 ^ w -> c = 0 \/ Z.log2 c < w).
  { intros c Hc. destruct (Z.eq_dec c 0); [by left |]. right. apply Z.log2_lt_pow2; lia. }
  pose proof (Z.log2_lxor a b ltac:(lia) ltac:(lia)).
  destruct (L a Ha) as [-> | La], (L b Hb) as [-> | Lb]; rewrite ?Z.lxor_0_l, ?Z.lxor_0_r in *; (done || lia).
Qed.

(** * Bytes and little-endian integers *)

Definition is_byte (b : Z) : Prop := 0 <= b < 256.

Definition is_bytes (n : nat) (l : list Z) : Prop := length l = n /\ Forall is_byte l.

Fixpoint le_combine (l : list Z) : Z :=
  match l with
  | [] => 0
  | b :: l => b + 256 * le_combine l
  end.

Fixpoint le_split (n : nat) (z : Z) : list Z :=
  match n with
  | O => []
  | S n => z mod 256 :: le_split n (z / 256)
  end.

Lemma le_combine_bounds l : Forall is_byte l -> 0 <= le_combine l < 256 ^ Z.of_nat (length l).
Proof.
  induction 1 as [| b l Hb Hl IH]; simpl le_combine; [simpl; lia |].
  rewrite length_cons, Nat2Z.inj_succ, Z.pow_succ_r by lia. unfold is_byte in Hb. lia.
Qed.

Lemma le_combine_split n z : 0 <= z < 256 ^ Z.of_nat n -> le_combine (le_split n z) = z.
Proof.
  revert z. induction n as [| n IH]; intros z Hz; cbn [le_split le_combine]; [simpl in Hz; lia |].
  rewrite Nat2Z.inj_succ, Z.pow_succ_r in Hz by lia. rewrite IH; zlia.
Qed.

Lemma le_split_bytes n z : is_bytes n (le_split n z).
Proof.
  unfold is_bytes. revert z. induction n as [| n IH]; intros z; simpl; [done |].
  destruct (IH (z / 256)) as [IH1 IH2]. split; [by f_equal |].
  constructor; [| done]. unfold is_byte. apply Z.mod_pos_bound. lia.
Qed.

Lemma le_combine_inj l1 l2 :
  length l1 = length l2 -> Forall is_byte l1 -> Forall is_byte l2 ->
  le_combine l1 = le_combine l2 -> l1 = l2.
Proof.
  revert l2. induction l1 as [| b1 l1 IH]; intros [| b2 l2] Hlen H1 H2 E; simplify_eq/=; [done |].
  inversion H1; inversion H2; subst. unfold is_byte in *.
  assert (b1 = b2) by lia. subst. f_equal. apply IH; try done. lia.
Qed.

Lemma le_combine_app l1 l2 : le_combine (l1 ++ l2) = le_combine l1 + 256 ^ Z.of_nat (length l1) * le_combine l2.
Proof.
  induction l1 as [| x l1 IH]; cbn [app le_combine length]; [lia |].
  rewrite IH, Nat2Z.inj_succ, Z.pow_succ_r by lia. lia.
Qed.

Lemma le_combine_zeros n : le_combine (replicate n 0) = 0.
Proof. induction n as [| n IH]; cbn [replicate le_combine]; lia. Qed.

Lemma map_u8_bytes l : is_bytes (length l) (map u8 l).
Proof.
  split; [apply length_map |].
  induction l as [| z l IH]; simpl; constructor; [by apply (wrap_range 8) | done].
Qed.

(** * Sequencing

    A routine is a sequence of fallible calls; each lemma below consumes the
    first call and hands the value it computes to the rest. *)

Definition yields {A} (r : option A) (P : A -> Prop) : Prop := exists x, r = Some x /\ P x.

Lemma yields_ret {A} (x : A) (P : A -> Prop) : P x -> yields (Some x) P.
Proof. intros. by exists x. Qed.

Lemma yields_bind {A B} (r : option A) (K : A -> option B) (Q : A -> Prop) (P : B -> Prop) :
  yields r Q -> (forall x, Q x -> yields (K x) P) -> yields (r ≫= K) P.
Proof. intros (x & -> & HQ) HK. by apply HK. Qed.

Lemma yields_impl {A} (r : option A) (P Q : A -> Prop) :
  yields r P -> (forall x, P x -> Q x) -> yields r Q.
Proof. intros (x & -> & H) HPQ. exists x. auto. Qed.

Lemma yields_assoc {A B C} (m : option A) (f : A -> option B) (k : B -> option C) P Q :
  yields (x ← m; f x) P -> (forall y, P y -> yields (k y) Q) -> yields (x ← m; y ← f x; k y) Q.
Proof. destruct m as [x |]; intros H Hk; [exact (yields_bind _ _ _ _ H Hk) | by destruct H as (? & [=] & _)]. Qed.

(** The steps of a run, taken by rewriting, so that checking the proof never evaluates
    a call. *)
Lemma bind_ret {A B} (x : A) (f : A -> option B) : (Some x ≫= f) = f x.
Proof. reflexivity. Qed.

Ltac bind := rewrite bind_ret; cbv beta iota.

(** Runs one call whose result a lemma describes. *)
Tactic Notation "run" open_constr(lem) "as" simple_intropattern(x) simple_intropattern(H) :=
  destruct lem as (x & -> & H); bind.
