(* ===== verification/Limbs.v ===== *)
(** Limb vectors: the carry and reduction steps shared by the field and the
    scalar arithmetic of src/crypto/crypto-ops.c.

    The C code keeps a big integer in signed limbs ([h0..h9] or [s0..s23])
    and repeats three groups of statements on them:
    - a carry, [carry = (x_i + half) >> w; x_d += carry * m; x_i -= carry << w];
    - a fold, [x_d += x_s * k] for a fixed list of targets [d];
    - a reset, [x_i = 0].
    A routine is a sequence of such groups, executed in order by [run].  Every
    C operation is checked against its integer width, so [run] returns [None]
    exactly when the C code would overflow a signed integer.

    The second half of the file gives two decidable analyses of a sequence,
    interval bounds ([abs_run]) and weights ([wt_run]), and the theorem
    [run_sound] that a sequence accepted by both runs without overflow,
    respects the bounds and preserves the represented integer. *)
From S2P Require Import Prelude.

Local Open Scope Z_scope.

Module Limbs.

(** ** The steps *)

Inductive instr : Set :=
| Carry (half : bool) (w : Z) (i d : nat) (m : Z)
| Fold (s : nat) (targets : list (nat * Z))
| Reset (i : nat).

(** [x_d += x_s * k], or [x_d -= x_s * -k] for a negative [k]. *)
Definition mul_acc (W : Z) (x : list Z) (s d : nat) (k : Z) : option (list Z) :=
  xs ← x !! s;
  xd ← x !! d;
  p ← chk W (xs * Z.abs k);
  r ← chk W (if k <? 0 then xd - p else xd + p);
  Some (<[d := r]> x).

Fixpoint fold_into (W : Z) (s : nat) (ts : list (nat * Z)) (x : list Z) : option (list Z) :=
  match ts with
  | [] => Some x
  | (d, k) :: ts => x' ← mul_acc W x s d k; fold_into W s ts x'
  end.

Definition half_of (half : bool) (w : Z) : Z := if half then 2 ^ (w - 1) else 0.

Definition carry (W : Z) (half : bool) (w : Z) (i d : nat) (m : Z) (x : list Z) : option (list Z) :=
  xi ← x !! i;
  t ← chk W (xi + half_of half w);
  let c := Z.shiftr t w in
  xd ← x !! d;
  cm ← chk W (c * m);
  xd' ← chk W (xd + cm);
  cw ← chk W (Z.shiftl c w);
  xi' ← chk W (xi - cw);
  Some (<[i := xi']> (<[d := xd']> x)).

Definition exec (W : Z) (op : instr) (x : list Z) : option (list Z) :=
  match op with
  | Carry half w i d m => carry W half w i d m x
  | Fold s ts => fold_into W s ts x
  | Reset i => if decide (i < length x)%nat then Some (<[i := 0]> x) else None
  end.

Fixpoint run (W : Z) (prog : list instr) (x : list Z) : option (list Z) :=
  match prog with
  | [] => Some x
  | op :: prog => x' ← exec W op x; run W prog x'
  end.

(** A sum of products, each product and each partial sum checked. *)
Fixpoint mac (W acc : Z) (ps : list (Z * Z)) : option Z :=
  match ps with
  | [] => Some acc
  | (a, b) :: ps => p ← chk W (a * b); acc' ← chk W (acc + p); mac W acc' ps
  end.

(** The integer a limb vector represents under a list of weights. *)
Fixpoint dot (ws x : list Z) : Z :=
  match ws, x with
  | w :: ws, a :: x => w * a + dot ws x
  | _, _ => 0
  end.

(** ** Interval analysis *)

Definition itv : Set := Z * Z.

Definition in_itv (z : Z) (b : itv) : Prop := b.1 <= z <= b.2.

Definition chk_itv (W : Z) (b : itv) : option itv :=
  if fits W b.1 && fits W b.2 then Some b else None.

Definition abs_mul_acc (W : Z) (b : list itv) (s d : nat) (k : Z) : option (list itv) :=
  bs ← b !! s;
  bd ← b !! d;
  p ← chk_itv W (bs.1 * Z.abs k, bs.2 * Z.abs k);
  r ← chk_itv W (if k <? 0 then (bd.1 - p.2, bd.2 - p.1) else (bd.1 + p.1, bd.2 + p.2));
  Some (<[d := r]> b).

Fixpoint abs_fold (W : Z) (s : nat) (ts : list (nat * Z)) (b : list itv) : option (list itv) :=
  match ts with
  | [] => Some b
  | (d, k) :: ts => b' ← abs_mul_acc W b s d k; abs_fold W s ts b'
  end.

Definition abs_carry (W : Z) (half : bool) (w : Z) (i d : nat) (m : Z) (b : list itv) : option (list itv) :=
  if (0 <=? w) && (0 <=? m) then
    bi ← b !! i;
    t ← chk_itv W (bi.1 + half_of half w, bi.2 + half_of half w);
    let c := (Z.shiftr t.1 w, Z.shiftr t.2 w) in
    bd ← b !! d;
    cm ← chk_itv W (c.1 * m, c.2 * m);
    bd' ← chk_itv W (bd.1 + cm.1, bd.2 + cm.2);
    cw ← chk_itv W (Z.shiftl c.1 w, Z.shiftl c.2 w);
    bi' ← chk_itv W (- half_of half w, 2 ^ w - 1 - half_of half w);
    Some (<[i := bi']> (<[d := bd']> b))
  else None.

Definition abs_exec (W : Z) (op : instr) (b : list itv) : option (list itv) :=
  match op with
  | Carry half w i d m => abs_carry W half w i d m b
  | Fold s ts => abs_fold W s ts b
  | Reset i => if decide (i < length b)%nat then Some (<[i := (0, 0)]> b) else None
  end.

Fixpoint abs_run (W : Z) (prog : list instr) (b : list itv) : option (list itv) :=
  match prog with
  | [] => Some b
  | op :: prog => b' ← abs_exec W op b; abs_run W prog b'
  end.

(** ** Weight analysis

    A limb is dead while its weight is [0]: a fold spreads its source over
    its targets and kills it, a reset revives a dead limb. *)

Fixpoint fold_weight (ws : list Z) (s : nat) (ts : list (nat * Z)) : option Z :=
  match ts with
  | [] => Some 0
  | (d, k) :: ts =>
      if decide (d = s) then None
      else wd ← ws !! d; r ← fold_weight ws s ts; Some (wd * k + r)
  end.

Definition wt_exec (M : Z) (std : list Z) (op : instr) (ws : list Z) : option (list Z) :=
  match op with
  | Carry half w i d m =>
      wi ← ws !! i; wd ← ws !! d;
      if (0 <=? w) && negb (i =? d)%nat && ((wd * m - wi * 2 ^ w) mod M =? 0)
      then Some ws else None
  | Fold s ts =>
      w ← ws !! s; r ← fold_weight ws s ts;
      if (r - w) mod M =? 0 then Some (<[s := 0]> ws) else None
  | Reset i =>
      w ← ws !! i; w' ← std !! i;
      if w =? 0 then Some (<[i := w']> ws) else None
  end.

Fixpoint wt_run (M : Z) (std : list Z) (prog : list instr) (ws : list Z) : option (list Z) :=
  match prog with
  | [] => Some ws
  | op :: prog => ws' ← wt_exec M std op ws; wt_run M std prog ws'
  end.

(** ** Soundness of the interval analysis *)

Lemma chk_itv_Some W b r :
  chk_itv W b = Some r -> r = b /\ forall z, in_itv z b -> chk W z = Some z.
Proof.
  unfold chk_itv. destruct (fits W b.1) eqn:E1, (fits W b.2) eqn:E2; intros [= <-].
  split; [done |]. intros z Hz. by apply (fits_between W b.1 b.2).
Qed.

Ltac chk_itv_inv H r :=
  let E := fresh "E" in let F := fresh "F" in
  apply bind_Some in H as (r & E & H);
  apply chk_itv_Some in E; destruct E as [-> F].

Lemma in_itv_lookup x b i bi :
  Forall2 in_itv x b -> b !! i = Some bi -> exists xi, x !! i = Some xi /\ in_itv xi bi.
Proof. intros H E. by eapply Forall2_lookup_r in H. Qed.

Lemma abs_mul_acc_sound W x b s d k b' :
  Forall2 in_itv x b -> abs_mul_acc W b s d k = Some b' ->
  exists x', mul_acc W x s d k = Some x' /\ Forall2 in_itv x' b'.
Proof.
  intros Hx H. unfold abs_mul_acc in H. unfold mul_acc.
  destruct (b !! s) as [bs |] eqn:Es; [| discriminate H]. simpl in H.
  destruct (b !! d) as [bd |] eqn:Ed; [| discriminate H]. simpl in H.
  chk_itv_inv H p. chk_itv_inv H r. injection H as <-.
  destruct (in_itv_lookup _ _ _ _ Hx Es) as (xs & -> & Hs). simpl.
  destruct (in_itv_lookup _ _ _ _ Hx Ed) as (xd & -> & Hd). simpl.
  assert (Hp : in_itv (xs * Z.abs k) (bs.1 * Z.abs k, bs.2 * Z.abs k)).
  { unfold in_itv in *; simpl; nia. }
  rewrite (F _ Hp). simpl.
  assert (Hr : in_itv (if k <? 0 then xd - xs * Z.abs k else xd + xs * Z.abs k)
     (if k <? 0 then (bd.1 - bs.2 * Z.abs k, bd.2 - bs.1 * Z.abs k)
      else (bd.1 + bs.1 * Z.abs k, bd.2 + bs.2 * Z.abs k))).
  { unfold in_itv in *; simpl in *. destruct (k <? 0); simpl; lia. }
  rewrite (F0 _ Hr). simpl. eexists; split; [reflexivity |]. by apply Forall2_insert.
Qed.

Lemma abs_fold_sound W s ts x b b' :
  Forall2 in_itv x b -> abs_fold W s ts b = Some b' ->
  exists x', fold_into W s ts x = Some x' /\ Forall2 in_itv x' b'.
Proof.
  revert x b. induction ts as [| [d k] ts IH]; intros x b Hx H; simpl in *.
  - injection H as <-. eauto.
  - destruct (abs_mul_acc W b s d k) as [b1 |] eqn:E; [| discriminate H]. simpl in H.
    destruct (abs_mul_acc_sound _ _ _ _ _ _ _ Hx E) as (x1 & -> & Hx1). simpl. eauto.
Qed.

Lemma shiftr_mono a b w : 0 <= w -> a <= b -> Z.shiftr a w <= Z.shiftr b w.
Proof.
  intros Hw Hab. rewrite !Z.shiftr_div_pow2 by done.
  apply Z.div_le_mono; [apply Z.pow_pos_nonneg; lia | done].
Qed.

Lemma carry_remainder t w : 0 <= w -> 0 <= t - Z.shiftl (Z.shiftr t w) w < 2 ^ w.
Proof.
  intros Hw. rewrite Z.shiftl_mul_pow2, Z.shiftr_div_pow2 by done.
  pose proof (Z.pow_pos_nonneg 2 w ltac:(lia) Hw).
  pose proof (Z.div_mod t (2 ^ w) ltac:(lia)). pose proof (Z.mod_pos_bound t (2 ^ w)). lia.
Qed.

Lemma abs_carry_sound W half w i d m x b b' :
  Forall2 in_itv x b -> abs_carry W half w i d m b = Some b' ->
  exists x', carry W half w i d m x = Some x' /\ Forall2 in_itv x' b'.
Proof.
  intros Hx H. unfold abs_carry in H. unfold carry.
  destruct (Z.leb_spec 0 w) as [Hw |]; [| discriminate H].
  destruct (Z.leb_spec 0 m) as [Hm |]; [| discriminate H]. simpl in H.
  destruct (b !! i) as [bi |] eqn:Ei; [| discriminate H]. simpl in H.
  chk_itv_inv H t. simpl in H.
  destruct (b !! d) as [bd |] eqn:Ed; [| discriminate H]. simpl in H.
  chk_itv_inv H cm. chk_itv_inv H bd'. chk_itv_inv H cw. chk_itv_inv H bi'.
  injection H as <-. simpl in *.
  destruct (in_itv_lookup _ _ _ _ Hx Ei) as (xi & -> & Hi).
  destruct (in_itv_lookup _ _ _ _ Hx Ed) as (xd & -> & Hd). simpl.
  unfold in_itv in Hi, Hd, F, F0, F1, F2, F3; simpl in *.
  set (h := half_of half w) in *.
  rewrite (F (xi + h)) by lia. simpl. set (c := Z.shiftr (xi + h) w) in *.
  assert (Hc : Z.shiftr (bi.1 + h) w <= c <= Z.shiftr (bi.2 + h) w).
  { split; apply shiftr_mono; lia. }
  assert (Hcm : Z.shiftr (bi.1 + h) w * m <= c * m <= Z.shiftr (bi.2 + h) w * m) by nia.
  rewrite (F0 (c * m)) by lia. simpl. rewrite (F1 (xd + c * m)) by lia. simpl.
  assert (Hcw : Z.shiftl (Z.shiftr (bi.1 + h) w) w <= Z.shiftl c w
                <= Z.shiftl (Z.shiftr (bi.2 + h) w) w).
  { pose proof (Z.pow_pos_nonneg 2 w ltac:(lia) Hw).
    rewrite !Z.shiftl_mul_pow2 by done. nia. }
  rewrite (F2 (Z.shiftl c w)) by lia. simpl.
  pose proof (carry_remainder (xi + h) w Hw). fold c in H.
  rewrite (F3 (xi - Z.shiftl c w)) by lia. simpl. eexists; split; [reflexivity |].
  apply Forall2_insert; [apply Forall2_insert |]; unfold in_itv; simpl; [done | lia | lia].
Qed.

Lemma abs_exec_sound W op x b b' :
  Forall2 in_itv x b -> abs_exec W op b = Some b' ->
  exists x', exec W op x = Some x' /\ Forall2 in_itv x' b'.
Proof.
  destruct op as [half w i d m | s ts | i]; simpl; intros Hx H.
  - by eapply abs_carry_sound.
  - by eapply abs_fold_sound.
  - rewrite (Forall2_length Hx). case_decide; [| done]. injection H as <-.
    eexists; split; [reflexivity |]. apply Forall2_insert; [done | unfold in_itv; simpl; lia].
Qed.

Lemma abs_run_sound W prog x b b' :
  Forall2 in_itv x b -> abs_run W prog b = Some b' ->
  exists x', run W prog x = Some x' /\ Forall2 in_itv x' b'.
Proof.
  revert x b. induction prog as [| op prog IH]; intros x b Hx H; simpl in *.
  - injection H as <-. eauto.
  - destruct (abs_exec W op b) as [b1 |] eqn:E; [| discriminate H]. simpl in H.
    destruct (abs_exec_sound _ _ _ _ _ Hx E) as (x1 & -> & Hx1). simpl. eauto.
Qed.

(** ** Soundness of the weight analysis *)

Lemma dot_insert ws x i w a r :
  ws !! i = Some w -> x !! i = Some a -> dot ws (<[i := r]> x) = dot ws x + w * (r - a).
Proof.
  revert x i. induction ws as [| w0 ws IH]; intros [| a0 x] [| i] Hw Ha; simplify_eq/=; [lia |].
  rewrite (IH x i) by done. lia.
Qed.

Lemma dot_insert_w ws x i w a r :
  ws !! i = Some w -> x !! i = Some a -> dot (<[i := r]> ws) x = dot ws x + (r - w) * a.
Proof.
  revert x i. induction ws as [| w0 ws IH]; intros [| a0 x] [| i] Hw Ha; simplify_eq/=; [lia |].
  rewrite (IH x i) by done. lia.
Qed.

Ltac chk_inv H r :=
  let E := fresh "E" in
  apply bind_Some in H as (r & E & H);
  apply chk_Some in E; destruct E as [-> E].

Lemma mul_acc_inv W x s d k x' :
  mul_acc W x s d k = Some x' ->
  exists xs xd, x !! s = Some xs /\ x !! d = Some xd /\ x' = <[d := xd + xs * k]> x.
Proof.
  unfold mul_acc. intros H.
  destruct (x !! s) as [xs |] eqn:Es; [| discriminate H]. simpl in H.
  destruct (x !! d) as [xd |] eqn:Ed; [| discriminate H]. simpl in H.
  chk_inv H p. chk_inv H r. injection H as <-.
  exists xs, xd. split; [done | split; [done |]]. f_equal.
  destruct (Z.ltb_spec k 0); nia.
Qed.

Lemma fold_weight_sound W ws s ts x x' r a :
  fold_weight ws s ts = Some r -> fold_into W s ts x = Some x' -> x !! s = Some a ->
  dot ws x' = dot ws x + r * a /\ x' !! s = Some a.
Proof.
  revert x r. induction ts as [| [d k] ts IH]; intros x r Hr Hf Ha; simpl in *.
  - simplify_eq. split; [lia | done].
  - case_decide as Hds; [done |].
    destruct (ws !! d) as [wd |] eqn:Ewd; [| done]. simpl in Hr.
    destruct (fold_weight ws s ts) as [r1 |] eqn:Er; [| done]. simplify_eq/=.
    destruct (mul_acc W x s d k) as [x1 |] eqn:E; [| done]. simpl in Hf.
    destruct (mul_acc_inv _ _ _ _ _ _ E) as (xs & xd & Hs & Hd & ->). simplify_eq.
    destruct (IH _ _ eq_refl Hf) as [IH1 IH2].
    { by rewrite list_lookup_insert_ne. }
    split; [| done]. rewrite IH1. erewrite dot_insert by done. lia.
Qed.

Lemma carry_inv W half w i d m x x' :
  carry W half w i d m x = Some x' -> i <> d -> 0 <= w ->
  exists xi xd c, x !! i = Some xi /\ x !! d = Some xd /\
    x' = <[i := xi - c * 2 ^ w]> (<[d := xd + c * m]> x).
Proof.
  unfold carry. intros H Hid Hw.
  destruct (x !! i) as [xi |] eqn:Ei; [| discriminate H]. simpl in H.
  chk_inv H t.
  destruct (x !! d) as [xd |] eqn:Ed; [| discriminate H]. simpl in H.
  chk_inv H cm. chk_inv H xd'. chk_inv H cw. chk_inv H xi'. injection H as <-.
  exists xi, xd, (Z.shiftr (xi + half_of half w) w).
  by rewrite Z.shiftl_mul_pow2 by done.
Qed.

Lemma wt_exec_sound W M std op x x' ws ws' :
  exec W op x = Some x' -> wt_exec M std op ws = Some ws' ->
  dot ws' x' ≡⟨ M ⟩ dot ws x.
Proof.
  destruct op as [half w i d m | s ts | i]; simpl; intros Hx H.
  - destruct (ws !! i) as [wi |] eqn:Ewi; [| done]. simpl in H.
    destruct (ws !! d) as [wd |] eqn:Ewd; [| done]. simpl in H.
    destruct (Z.leb_spec 0 w) as [Hw |]; [| done].
    destruct (Nat.eqb_spec i d) as [| Hid]; [done |]. simpl in H.
    destruct (Z.eqb_spec ((wd * m - wi * 2 ^ w) mod M) 0) as [Hm |]; [| done].
    simplify_eq. destruct (carry_inv _ _ _ _ _ _ _ _ Hx Hid Hw) as (xi & xd & c & Hi & Hd & ->).
    erewrite dot_insert; [| done | by rewrite list_lookup_insert_ne].
    erewrite dot_insert by done. apply eqm_of_mod in Hm as [q Hq].
    exists (q * c). transitivity ((wd * m - wi * 2 ^ w) * c); [ring | rewrite Hq; ring].
  - destruct (ws !! s) as [w |] eqn:Ews; [| done]. simpl in H.
    destruct (fold_weight ws s ts) as [r |] eqn:Er; [| done]. simpl in H.
    destruct (Z.eqb_spec ((r - w) mod M) 0) as [Hm |]; [| done]. simplify_eq.
    destruct (x !! s) as [a |] eqn:Ea.
    + destruct (fold_weight_sound _ _ _ _ _ _ _ _ Er Hx Ea) as [E1 E2].
      erewrite dot_insert_w by done. rewrite E1.
      apply eqm_of_mod in Hm as [q Hq]. exists (q * a). transitivity ((r - w) * a); [ring | rewrite Hq; ring].
    + destruct ts as [| [d k] ts]; simpl in *.
      * simplify_eq. replace (dot (<[s := 0]> ws) x') with (dot ws x'); [reflexivity |].
        clear - Ea. revert x' s Ea. induction ws as [| w0 ws IH]; intros [| a0 x] [| s] Ea; simplify_eq/=; try done.
        by rewrite <- (IH x s Ea).
      * unfold mul_acc in Hx. by rewrite Ea in Hx.
  - destruct (ws !! i) as [w |] eqn:Ew; [| done]. simpl in H.
    destruct (std !! i) as [w' |] eqn:Ew'; [| done]. simpl in H.
    destruct (Z.eqb_spec w 0) as [-> |]; [| done]. case_decide as Hi; [| done]. simplify_eq.
    destruct (lookup_lt_is_Some_2 x i Hi) as [a Ha].
    erewrite dot_insert_w; [| done | by apply list_lookup_insert_eq].
    erewrite dot_insert by done. apply eqm_of_mod. by replace (_ - dot ws x) with 0 by lia.
Qed.

Lemma wt_run_sound W M std prog x x' ws ws' :
  run W prog x = Some x' -> wt_run M std prog ws = Some ws' ->
  dot ws' x' ≡⟨ M ⟩ dot ws x.
Proof.
  revert x ws. induction prog as [| op prog IH]; intros x ws Hx Hw; simpl in *.
  - by simplify_eq.
  - destruct (exec W op x) as [x1 |] eqn:E1; [| done].
    destruct (wt_exec M std op ws) as [ws1 |] eqn:E2; [| done]. simpl in *.
    rewrite (IH _ _ Hx Hw). by eapply wt_exec_sound.
Qed.

Lemma run_sound W M std prog x b b' ws ws' :
  Forall2 in_itv x b -> abs_run W prog b = Some b' -> wt_run M std prog ws = Some ws' ->
  exists x', run W prog x = Some x' /\ Forall2 in_itv x' b' /\ dot ws' x' ≡⟨ M ⟩ dot ws x.
Proof.
  intros Hx Hb Hw. destruct (abs_run_sound _ _ _ _ _ Hx Hb) as (x' & Hr & Hx').
  exists x'. split; [done | split; [done |]]. by eapply wt_run_sound.
Qed.

(** Bounds on the represented integer from bounds on the limbs. *)
Lemma dot_bounds ws x b :
  Forall (fun w => 0 <= w) ws -> Forall2 in_itv x b ->
  dot ws (b.*1) <= dot ws x <= dot ws (b.*2).
Proof.
  intros Hw Hx. revert ws Hw. induction Hx as [| a bi x b Ha _ IH]; intros [| w ws] Hw; csimpl; try lia.
  inversion Hw as [| ? ? Hw0 Hws]; subst. specialize (IH ws Hws).
  unfold in_itv in Ha.
  assert (w * bi.1 <= w * a <= w * bi.2) by nia. lia.
Qed.

Lemma dot_app ws zs x :
  dot (ws ++ zs) x = dot ws (take (length ws) x) + dot zs (drop (length ws) x).
Proof.
  revert x. induction ws as [| w ws IH]; intros x; simpl; [rewrite ?drop_0; lia |].
  destruct x as [| a x]; simpl; [by destruct zs |]. rewrite IH. lia.
Qed.

Lemma dot_zeros m x : dot (repeat 0 m) x = 0.
Proof. revert x. induction m as [| m IH]; intros [| a x]; simpl; rewrite ?IH; lia. Qed.

Lemma run_app W p q x : run W (p ++ q) x = (y ← run W p x; run W q y).
Proof.
  revert x. induction p as [| op p IH]; intros x; simpl; [done |].
  destruct (exec W op x); simpl; [apply IH | done].
Qed.

(** ** Sums of products *)

Fixpoint psum (ps : list (Z * Z)) : Z :=
  match ps with
  | [] => 0
  | (a, b) :: ps => a * b + psum ps
  end.

Definition mag_le (p b : Z * Z) : Prop := Z.abs p.1 <= b.1 /\ Z.abs p.2 <= b.2.

Lemma psum_mag ps bs : Forall2 mag_le ps bs -> Z.abs (psum ps) <= psum bs.
Proof.
  induction 1 as [| [a b] [A B] ps bs [H1 H2] _ IH]; simpl in *; [lia |].
  assert (Z.abs (a * b) <= A * B) by (rewrite Z.abs_mul; nia). lia.
Qed.

Lemma mac_ok W acc ps bs :
  Forall2 mag_le ps bs -> Z.abs acc + psum bs < 2 ^ (W - 1) ->
  mac W acc ps = Some (acc + psum ps).
Proof.
  intros H. revert acc. induction H as [| [a b] [A B] ps bs [H1 H2] Hr IH]; intros acc Hs; simpl in *.
  - f_equal. lia.
  - assert (Z.abs (a * b) <= A * B) by (rewrite Z.abs_mul; nia).
    pose proof (psum_mag _ _ Hr).
    rewrite chk_ok by lia. simpl. rewrite chk_ok by lia. simpl.
    rewrite IH by lia. f_equal. lia.
Qed.

Lemma mapM_total {A B} (f : A -> option B) (g : A -> B) l :
  (forall a, a ∈ l -> f a = Some (g a)) -> mapM f l = Some (map g l).
Proof.
  induction l as [| a l IH]; intros H; [done |].
  simpl. rewrite (H a) by left. simpl. rewrite IH; [done |]. intros; apply H; by right.
Qed.


(** Widening an abstract state. *)
Definition itvs_le (b c : list itv) : bool :=
  bool_decide (Forall2 (fun i j => j.1 <= i.1 /\ i.2 <= j.2) b c).

Lemma in_itvs_le x b c : itvs_le b c = true -> Forall2 in_itv x b -> Forall2 in_itv x c.
Proof.
  intros H%bool_decide_eq_true Hx. revert c H.
  induction Hx as [| a i x b Ha Hx IH]; intros c H; inversion H; subst; constructor; [| auto].
  unfold in_itv in *. lia.
Qed.
End Limbs.
