(* ===== verification/Pack.v ===== *)
(** Byte arrays of src/crypto/crypto-ops.c: indexing, the little-endian loads
    [load_3] and [load_4], and the arithmetic of packing signed limbs into
    bytes, shared by the scalar and the field routines. *)
From S2P Require Import Prelude Limbs.

Local Open Scope Z_scope.

Module Pack.
Import Limbs.

(** The arrays have a fixed size in the C code; a read outside it is not
    meaningful and the theorems fix the lengths. *)
Definition at_ (s : list Z) (i : nat) : Z := default 0 (s !! i).

Definition load_3 (s : list Z) (o : nat) : Z :=
  Z.lor (Z.lor (at_ s o) (Z.shiftl (at_ s (o + 1)) 8)) (Z.shiftl (at_ s (o + 2)) 16).

Definition load_4 (s : list Z) (o : nat) : Z :=
  Z.lor (Z.lor (Z.lor (at_ s o) (Z.shiftl (at_ s (o + 1)) 8)) (Z.shiftl (at_ s (o + 2)) 16))
        (Z.shiftl (at_ s (o + 3)) 24).

(** [((s[0] | ... | s[31]) - 1 >> 8) + 1]. *)
Definition bytes_isnonzero (s : list Z) : Z :=
  Z.shiftr (foldl Z.lor 0 (map (at_ s) (seq 0 32)) - 1) 8 + 1.

Lemma at_byte s i : Forall is_byte s -> is_byte (at_ s i).
Proof.
  intros H. unfold at_. destruct (s !! i) as [b |] eqn:E; simpl.
  - by eapply Forall_lookup_1 in H.
  - unfold is_byte; lia.
Qed.

Lemma le_combine_at s :
  le_combine s = foldr (fun i acc => at_ s i + 256 * acc) 0 (seq 0 (length s)).
Proof.
  induction s as [| b s IH]; [done |]. cbn [le_combine length seq foldr]. rewrite IH.
  change (at_ (b :: s) 0) with b. do 2 f_equal. rewrite <- fmap_S_seq.
  generalize (seq 0 (length s)). intros l.
  induction l as [| i l IHl]; csimpl; [done |]. by rewrite IHl.
Qed.

Lemma load_3_val s o : Forall is_byte s ->
  load_3 s o = at_ s o + 256 * at_ s (o + 1) + 65536 * at_ s (o + 2).
Proof.
  intros H. unfold load_3.
  pose proof (at_byte s o H). pose proof (at_byte s (o + 1) H). unfold is_byte in *.
  rewrite (lor_shiftl_add _ _ 8) by lia. rewrite lor_shiftl_add by lia. lia.
Qed.

Lemma load_4_val s o : Forall is_byte s ->
  load_4 s o = at_ s o + 256 * at_ s (o + 1) + 65536 * at_ s (o + 2) + 16777216 * at_ s (o + 3).
Proof.
  intros H. change (load_4 s o) with (Z.lor (load_3 s o) (Z.shiftl (at_ s (o + 3)) 24)).
  rewrite load_3_val by done.
  pose proof (at_byte s o H). pose proof (at_byte s (o + 1) H). pose proof (at_byte s (o + 2) H).
  unfold is_byte in *. rewrite lor_shiftl_add by lia. lia.
Qed.

Lemma load_4_range s o k :
  Forall is_byte s -> 0 <= k -> in_itv (Z.shiftr (load_4 s o) k) (0, 4294967295 / 2 ^ k).
Proof.
  intros H Hk. rewrite load_4_val, Z.shiftr_div_pow2 by done.
  pose proof (at_byte s o H). pose proof (at_byte s (o + 1) H).
  pose proof (at_byte s (o + 2) H). pose proof (at_byte s (o + 3) H). unfold is_byte in *.
  assert (0 < 2 ^ k) by (apply Z.pow_pos_nonneg; lia).
  split; simpl; [apply Z.div_pos | apply Z.div_le_mono]; lia.
Qed.

Lemma store_mid a b r k :
  0 <= r -> 0 <= k <= 8 -> 0 <= a < 2 ^ (r + k) ->
  u8 (Z.lor (Z.shiftr a r) (Z.shiftl b k)) = a / 2 ^ r + 2 ^ k * (b mod 2 ^ (8 - k)).
Proof.
  intros Hr Hk Ha. unfold wrap.
  assert (Hpr : 0 < 2 ^ r) by (apply Z.pow_pos_nonneg; lia).
  assert (Hpk : 0 < 2 ^ k) by (apply Z.pow_pos_nonneg; lia).
  assert (Hp8 : 0 < 2 ^ (8 - k)) by (apply Z.pow_pos_nonneg; lia).
  rewrite Z.pow_add_r in Ha by lia.
  rewrite Z.shiftr_div_pow2 by done.
  assert (0 <= a / 2 ^ r < 2 ^ k).
  { split; [apply Z.div_pos; lia | apply Z.div_lt_upper_bound; lia]. }
  rewrite lor_shiftl_add by lia.
  replace (2 ^ 8) with (2 ^ k * 2 ^ (8 - k)) by (rewrite <- Z.pow_add_r by lia; f_equal; lia).
  rewrite Z.rem_mul_r by lia. rewrite Z_mod_plus_full, Z.div_add by lia.
  rewrite Z.mod_small, (Z.div_small (a / 2 ^ r)) by lia. done.
Qed.

Lemma store_low a r : 0 <= r -> u8 (Z.shiftr a r) = (a / 2 ^ r) mod 256.
Proof. intros. unfold wrap. by rewrite Z.shiftr_div_pow2. Qed.

Lemma at_in_itv x b i bi : Forall2 in_itv x b -> b !! i = Some bi -> in_itv (at_ x i) bi.
Proof. intros Hx Hb. destruct (in_itv_lookup _ _ _ _ Hx Hb) as (a & E & Ha). unfold at_. by rewrite E. Qed.

Lemma dot_at ws x : (length ws <= length x)%nat ->
  dot ws x = foldr (fun i acc => at_ ws i * at_ x i + acc) 0 (seq 0 (length ws)).
Proof.
  revert x. induction ws as [| w ws IH]; intros [| a x] Hl; simpl in Hl; [done | done | lia |].
  cbn [dot length seq foldr]. rewrite IH by lia. change (at_ (w :: ws) 0) with w.
  change (at_ (a :: x) 0) with a. f_equal. rewrite <- fmap_S_seq.
  generalize (seq 0 (length ws)). intros l.
  induction l as [| i l IHl]; csimpl; [done |]. by rewrite IHl.
Qed.

Lemma lor_bytes l acc : Forall is_byte l -> is_byte acc ->
  is_byte (foldl Z.lor acc l) /\ (foldl Z.lor acc l = 0 <-> acc = 0 /\ Forall (eq 0) l).
Proof.
  intros H. revert acc. induction H as [| b l Hb _ IH]; intros acc Ha; simpl; [naive_solver |].
  assert (Hn : is_byte (Z.lor acc b)).
  { unfold is_byte in *. split; [apply Z.lor_nonneg; lia |].
    destruct (Z.eq_dec (Z.lor acc b) 0) as [-> | Hz]; [lia |].
    apply (Z.log2_lt_pow2 _ 8); [pose proof (Z.lor_nonneg acc b); lia |].
    rewrite Z.log2_lor by lia. pose proof (Z.log2_le_mono acc 255). pose proof (Z.log2_le_mono b 255).
    change (Z.log2 255) with 7 in *. lia. }
  destruct (IH _ Hn) as [I1 I2]. split; [done |]. rewrite I2, Z.lor_eq_0_iff, Forall_cons_iff. naive_solver.
Qed.

Lemma le_combine_zero l : Forall is_byte l -> (le_combine l = 0 <-> Forall (eq 0) l).
Proof.
  induction 1 as [| b l Hb H IH]; simpl; [naive_solver |]. rewrite Forall_cons_iff, <- IH.
  pose proof (le_combine_bounds l H). unfold is_byte in *. lia.
Qed.

Lemma shiftr_8_sign z : -256 <= z < 256 -> Z.shiftr z 8 = if z <? 0 then -1 else 0.
Proof.
  intros. rewrite Z.shiftr_div_pow2 by lia. change (2 ^ 8) with 256.
  destruct (z <? 0) eqn:E; zlia.
Qed.

Lemma bytes_isnonzero_ok s : is_bytes 32 s ->
  bytes_isnonzero s = if le_combine s =? 0 then 0 else 1.
Proof.
  intros [Hl H]. unfold bytes_isnonzero.
  replace (map (at_ s) (seq 0 32)) with s.
  2: { do 32 (destruct s as [| ? s]; [discriminate Hl |]). destruct s; [| discriminate Hl]. reflexivity. }
  destruct (lor_bytes s 0 H ltac:(unfold is_byte; lia)) as [B Z0]. unfold is_byte in B.
  rewrite shiftr_8_sign by lia. pose proof (le_combine_zero s H) as Zv.
  destruct (Z.ltb_spec (foldl Z.lor 0 s - 1) 0), (Z.eqb_spec (le_combine s) 0); [done | | | done].
  - exfalso. assert (foldl Z.lor 0 s = 0) by lia. naive_solver.
  - exfalso. assert (foldl Z.lor 0 s = 0) by naive_solver. lia.
Qed.

(** Replaces the bytes of [s] in the goal by variables in range. *)
Ltac gen_bytes s H :=
  repeat match goal with
  | |- context [at_ s ?i] =>
      let b := fresh "b" in let Hb := fresh "Hb" in
      pose proof (at_byte s i H) as Hb; generalize dependent (at_ s i); intros b Hb
  end.

End Pack.
