(* ===== verification/Scalar.v ===== *)
(** Scalars modulo the group order [l = 2^252 + 27742317777372353535851937790883648493]:
    the [sc_*] functions of src/crypto/crypto-ops.c.

    A scalar is a little-endian array of 32 bytes (64 for [sc_reduce]).  Each
    routine unpacks its arguments into signed limbs of 21 bits, combines them,
    reduces the result with the steps of [Limbs] and packs 32 bytes.  A routine
    returns [None] where a signed 64-bit operation of the C code would
    overflow; the theorems show that it never does and that the bytes returned
    are the canonical representative of the result modulo [l]. *)
From S2P Require Import Prelude Limbs Pack.

Local Open Scope Z_scope.

Module Scalar.
Import Limbs Pack.

Definition ell : Z := 2 ^ 252 + 27742317777372353535851937790883648493.

(** ** Unpacking and packing *)

Definition mask21 (z : Z) : Z := Z.land 2097151 z.

(** The limbs [a0..a11] of a 32-byte scalar. *)
Definition sc_load (a : list Z) : list Z :=
  [ mask21 (load_3 a 0);
    mask21 (Z.shiftr (load_4 a 2) 5);
    mask21 (Z.shiftr (load_3 a 5) 2);
    mask21 (Z.shiftr (load_4 a 7) 7);
    mask21 (Z.shiftr (load_4 a 10) 4);
    mask21 (Z.shiftr (load_3 a 13) 1);
    mask21 (Z.shiftr (load_4 a 15) 6);
    mask21 (Z.shiftr (load_3 a 18) 3);
    mask21 (load_3 a 21);
    mask21 (Z.shiftr (load_4 a 23) 5);
    mask21 (Z.shiftr (load_3 a 26) 2);
    Z.shiftr (load_4 a 28) 7 ].

(** The limbs [s0..s23] of a 64-byte input. *)
Definition sc_load_wide (s : list Z) : list Z :=
  [ mask21 (load_3 s 0);
    mask21 (Z.shiftr (load_4 s 2) 5);
    mask21 (Z.shiftr (load_3 s 5) 2);
    mask21 (Z.shiftr (load_4 s 7) 7);
    mask21 (Z.shiftr (load_4 s 10) 4);
    mask21 (Z.shiftr (load_3 s 13) 1);
    mask21 (Z.shiftr (load_4 s 15) 6);
    mask21 (Z.shiftr (load_3 s 18) 3);
    mask21 (load_3 s 21);
    mask21 (Z.shiftr (load_4 s 23) 5);
    mask21 (Z.shiftr (load_3 s 26) 2);
    mask21 (Z.shiftr (load_4 s 28) 7);
    mask21 (Z.shiftr (load_4 s 31) 4);
    mask21 (Z.shiftr (load_3 s 34) 1);
    mask21 (Z.shiftr (load_4 s 36) 6);
    mask21 (Z.shiftr (load_3 s 39) 3);
    mask21 (load_3 s 42);
    mask21 (Z.shiftr (load_4 s 44) 5);
    mask21 (Z.shiftr (load_3 s 47) 2);
    mask21 (Z.shiftr (load_4 s 49) 7);
    mask21 (Z.shiftr (load_4 s 52) 4);
    mask21 (Z.shiftr (load_3 s 55) 1);
    mask21 (Z.shiftr (load_4 s 57) 6);
    Z.shiftr (load_4 s 60) 3 ].

(** The stores [s[0] = s0 >> 0; ...; s[31] = s11 >> 17]; assigning to an
    [unsigned char] keeps the low eight bits. *)
Definition sc_store (x : list Z) : list Z :=
  let s := at_ x in
  map u8
  [ Z.shiftr (s 0%nat) 0;
    Z.shiftr (s 0%nat) 8;
    Z.lor (Z.shiftr (s 0%nat) 16) (Z.shiftl (s 1%nat) 5);
    Z.shiftr (s 1%nat) 3;
    Z.shiftr (s 1%nat) 11;
    Z.lor (Z.shiftr (s 1%nat) 19) (Z.shiftl (s 2%nat) 2);
    Z.shiftr (s 2%nat) 6;
    Z.lor (Z.shiftr (s 2%nat) 14) (Z.shiftl (s 3%nat) 7);
    Z.shiftr (s 3%nat) 1;
    Z.shiftr (s 3%nat) 9;
    Z.lor (Z.shiftr (s 3%nat) 17) (Z.shiftl (s 4%nat) 4);
    Z.shiftr (s 4%nat) 4;
    Z.shiftr (s 4%nat) 12;
    Z.lor (Z.shiftr (s 4%nat) 20) (Z.shiftl (s 5%nat) 1);
    Z.shiftr (s 5%nat) 7;
    Z.lor (Z.shiftr (s 5%nat) 15) (Z.shiftl (s 6%nat) 6);
    Z.shiftr (s 6%nat) 2;
    Z.shiftr (s 6%nat) 10;
    Z.lor (Z.shiftr (s 6%nat) 18) (Z.shiftl (s 7%nat) 3);
    Z.shiftr (s 7%nat) 5;
    Z.shiftr (s 7%nat) 13;
    Z.shiftr (s 8%nat) 0;
    Z.shiftr (s 8%nat) 8;
    Z.lor (Z.shiftr (s 8%nat) 16) (Z.shiftl (s 9%nat) 5);
    Z.shiftr (s 9%nat) 3;
    Z.shiftr (s 9%nat) 11;
    Z.lor (Z.shiftr (s 9%nat) 19) (Z.shiftl (s 10%nat) 2);
    Z.shiftr (s 10%nat) 6;
    Z.lor (Z.shiftr (s 10%nat) 14) (Z.shiftl (s 11%nat) 7);
    Z.shiftr (s 11%nat) 1;
    Z.shiftr (s 11%nat) 9;
    Z.shiftr (s 11%nat) 17 ].

(** ** Reduction steps *)

(** [carry_i = (s_i + (1<<20)) >> 21; s_{i+1} += carry_i; s_i -= carry_i << 21]. *)
Definition cround (i : nat) : instr := Carry true 21 i (i + 1) 1.

(** [carry_i = s_i >> 21; s_{i+1} += carry_i; s_i -= carry_i << 21]. *)
Definition cfloor (i : nat) : instr := Carry false 21 i (i + 1) 1.

(** The six lines that spread [s_i] over [s_{i-12}..s_{i-7}]. *)
Definition reduce_limb (i : nat) : instr :=
  Fold i [ ((i - 12)%nat, 666643); ((i - 11)%nat, 470296); ((i - 10)%nat, 654183);
           ((i - 9)%nat, -997805); ((i - 8)%nat, 136657); ((i - 7)%nat, -683901) ].

(** From the folding of [s23..s18] to the resetting of [s12]. *)
Definition fold_high : list instr :=
  map reduce_limb [23; 22; 21; 20; 19; 18]%nat ++
  map cround [6; 8; 10; 12; 14; 16; 7; 9; 11; 13; 15]%nat ++
  map reduce_limb [17; 16; 15; 14; 13; 12]%nat ++
  [Reset 12].

(** The rounding carries of the low limbs and the first folding of [s12]. *)
Definition round_low : list instr :=
  map cround [0; 2; 4; 6; 8; 10; 1; 3; 5; 7; 9; 11]%nat ++
  [reduce_limb 12; Reset 12].

(** The two final passes of exact carries. *)
Definition final_carries : list instr :=
  map cfloor [0; 1; 2; 3; 4; 5; 6; 7; 8; 9; 10; 11]%nat ++
  [reduce_limb 12] ++
  map cfloor [0; 1; 2; 3; 4; 5; 6; 7; 8; 9; 10]%nat.

(** The carries that precede the reduction of a product. *)
Definition round_product : list instr :=
  map cround [0; 2; 4; 6; 8; 10; 12; 14; 16; 18; 20; 22]%nat ++
  map cround [1; 3; 5; 7; 9; 11; 13; 15; 17; 19; 21]%nat.

Definition reduce_wide_steps : list instr := fold_high ++ round_low ++ final_carries.
Definition reduce_short_steps : list instr := round_low ++ final_carries.
Definition reduce_product_steps : list instr :=
  round_product ++ fold_high ++ round_low ++ final_carries.

(** ** Products of limbs *)

(** The terms [a_i * b_{k-i}] in the order the C code adds them. *)
Definition row_terms (a b : list Z) (k : nat) : list (Z * Z) :=
  map (fun i => (at_ a i, at_ b (k - i))) (seq (k - 11) (Nat.min k 11 - (k - 11) + 1)).

Definition prod_row (a b : list Z) (k : nat) : option Z := mac 64 0 (row_terms a b k).

Definition sc_mul_limbs (a b : list Z) : option (list Z) :=
  s ← mapM (prod_row a b) (seq 0 23);
  Some (s ++ [0]).

Definition sc_muladd_limbs (a b c : list Z) : option (list Z) :=
  lo ← mapM (fun k => r ← prod_row a b k; i64 (at_ c k + r)) (seq 0 12);
  hi ← mapM (prod_row a b) (seq 12 11);
  Some (lo ++ hi ++ [0]).

(** The last product is written [-a11*b11]: the negation comes first. *)
Definition sc_mulsub_limbs (a b c : list Z) : option (list Z) :=
  lo ← mapM (fun k => r ← prod_row a b k; i64 (at_ c k - r)) (seq 0 12);
  hi ← mapM (fun k => r ← prod_row a b k; i64 (- r)) (seq 12 10);
  n11 ← i64 (- at_ a 11);
  s22 ← i64 (n11 * at_ b 11);
  Some (lo ++ hi ++ [s22; 0]).

(** ** The routines *)

Definition sc_0 : list Z := repeat 0 32.

Definition sc_reduce (s : list Z) : option (list Z) :=
  x ← run 64 reduce_wide_steps (sc_load_wide s);
  Some (sc_store x).

Definition sc_reduce32 (s : list Z) : option (list Z) :=
  x ← run 64 reduce_short_steps (sc_load s ++ [0]);
  Some (sc_store x).

Definition limbwise (f : Z -> Z -> Z) (a b : list Z) : option (list Z) :=
  mapM (fun p => i64 (f p.1 p.2)) (zip a b).

Definition sc_add (a b : list Z) : option (list Z) :=
  s ← limbwise Z.add (sc_load a) (sc_load b);
  x ← run 64 reduce_short_steps (s ++ [0]);
  Some (sc_store x).

Definition sc_sub (a b : list Z) : option (list Z) :=
  s ← limbwise Z.sub (sc_load a) (sc_load b);
  x ← run 64 reduce_short_steps (s ++ [0]);
  Some (sc_store x).

Definition sc_mul (a b : list Z) : option (list Z) :=
  s ← sc_mul_limbs (sc_load a) (sc_load b);
  x ← run 64 reduce_product_steps s;
  Some (sc_store x).

Definition sc_muladd (a b c : list Z) : option (list Z) :=
  s ← sc_muladd_limbs (sc_load a) (sc_load b) (sc_load c);
  x ← run 64 reduce_product_steps s;
  Some (sc_store x).

Definition sc_mulsub (a b c : list Z) : option (list Z) :=
  s ← sc_mulsub_limbs (sc_load a) (sc_load b) (sc_load c);
  x ← run 64 reduce_product_steps s;
  Some (sc_store x).

(** ** Range and zero tests *)

Definition signum (a : Z) : Z := if 0 <? a then 1 else if a <? 0 then -1 else 0.

Definition sc_check (s : list Z) : Z :=
  Z.shiftr (signum (1559614444 - load_4 s 0) + Z.shiftl (signum (1477600026 - load_4 s 4)) 1
    + Z.shiftl (signum (2734136534 - load_4 s 8)) 2 + Z.shiftl (signum (350157278 - load_4 s 12)) 3
    + Z.shiftl (signum (- load_4 s 16)) 4 + Z.shiftl (signum (- load_4 s 20)) 5
    + Z.shiftl (signum (- load_4 s 24)) 6 + Z.shiftl (signum (268435456 - load_4 s 28)) 7) 8.

Definition sc_isnonzero (s : list Z) : Z := bytes_isnonzero s.

(** ** Unpacking computes the value *)

(** The weights of [n] limbs of 21 bits. *)
Definition radix (n : nat) : list Z := map (fun i => 2 ^ (21 * Z.of_nat i)) (seq 0 n).

Lemma mask21_mod z : mask21 z = z mod 2097152.
Proof. unfold mask21. change 2097151 with (Z.ones 21). by rewrite land_ones_l. Qed.

(** One limb in terms of the bytes it spans, for the eight positions of a
    limb inside a 21-byte period. *)
Ltac limb_shape :=
  unfold is_byte; intros; rewrite ?mask21_mod, ?Z.shiftr_div_pow2 by lia;
  repeat match goal with |- context [2 ^ ?k] => let v := eval vm_compute in (2 ^ k) in change (2 ^ k) with v end;
  zlia.

Lemma shape3_0 b0 b1 b2 : is_byte b0 -> is_byte b1 -> is_byte b2 ->
  mask21 (b0 + 256 * b1 + 65536 * b2) = b0 + 256 * b1 + 65536 * (b2 mod 32).
Proof. limb_shape. Qed.
Lemma shape4_5 b0 b1 b2 b3 : is_byte b0 -> is_byte b1 -> is_byte b2 -> is_byte b3 ->
  mask21 (Z.shiftr (b0 + 256 * b1 + 65536 * b2 + 16777216 * b3) 5) = b0 / 32 + 8 * b1 + 2048 * b2 + 524288 * (b3 mod 4).
Proof. limb_shape. Qed.
Lemma shape3_2 b0 b1 b2 : is_byte b0 -> is_byte b1 -> is_byte b2 ->
  mask21 (Z.shiftr (b0 + 256 * b1 + 65536 * b2) 2) = b0 / 4 + 64 * b1 + 16384 * (b2 mod 128).
Proof. limb_shape. Qed.
Lemma shape4_7 b0 b1 b2 b3 : is_byte b0 -> is_byte b1 -> is_byte b2 -> is_byte b3 ->
  mask21 (Z.shiftr (b0 + 256 * b1 + 65536 * b2 + 16777216 * b3) 7) = b0 / 128 + 2 * b1 + 512 * b2 + 131072 * (b3 mod 16).
Proof. limb_shape. Qed.
Lemma shape4_4 b0 b1 b2 b3 : is_byte b0 -> is_byte b1 -> is_byte b2 -> is_byte b3 ->
  mask21 (Z.shiftr (b0 + 256 * b1 + 65536 * b2 + 16777216 * b3) 4) = b0 / 16 + 16 * b1 + 4096 * b2 + 1048576 * (b3 mod 2).
Proof. limb_shape. Qed.
Lemma shape3_1 b0 b1 b2 : is_byte b0 -> is_byte b1 -> is_byte b2 ->
  mask21 (Z.shiftr (b0 + 256 * b1 + 65536 * b2) 1) = b0 / 2 + 128 * b1 + 32768 * (b2 mod 64).
Proof. limb_shape. Qed.
Lemma shape4_6 b0 b1 b2 b3 : is_byte b0 -> is_byte b1 -> is_byte b2 -> is_byte b3 ->
  mask21 (Z.shiftr (b0 + 256 * b1 + 65536 * b2 + 16777216 * b3) 6) = b0 / 64 + 4 * b1 + 1024 * b2 + 262144 * (b3 mod 8).
Proof. limb_shape. Qed.
Lemma shape3_3 b0 b1 b2 : is_byte b0 -> is_byte b1 -> is_byte b2 ->
  mask21 (Z.shiftr (b0 + 256 * b1 + 65536 * b2) 3) = b0 / 8 + 32 * b1 + 8192 * b2.
Proof. limb_shape. Qed.
Lemma shape_top7 b0 b1 b2 b3 : is_byte b0 -> is_byte b1 -> is_byte b2 -> is_byte b3 ->
  Z.shiftr (b0 + 256 * b1 + 65536 * b2 + 16777216 * b3) 7 = b0 / 128 + 2 * b1 + 512 * b2 + 131072 * b3.
Proof. limb_shape. Qed.
Lemma shape_top3 b0 b1 b2 b3 : is_byte b0 -> is_byte b1 -> is_byte b2 -> is_byte b3 ->
  Z.shiftr (b0 + 256 * b1 + 65536 * b2 + 16777216 * b3) 3 = b0 / 8 + 32 * b1 + 8192 * b2 + 2097152 * b3.
Proof. limb_shape. Qed.


Create HintDb sc_shape.
#[export] Hint Rewrite load_3_val load_4_val using done : sc_shape.
#[export] Hint Rewrite shape3_0 shape4_5 shape3_2 shape4_7 shape4_4 shape3_1 shape4_6 shape3_3
  using (by apply at_byte) : sc_shape.
Create HintDb sc_top.
#[export] Hint Rewrite shape_top7 shape_top3 using (by apply at_byte) : sc_top.

Ltac eval_radix :=
  repeat match goal with
  | |- context [radix ?n] => let r := eval vm_compute in (radix n) in change (radix n) with r
  end; cbn [dot].

Lemma sc_load_value a :
  is_bytes 32 a -> dot (radix 12) (sc_load a) = le_combine a.
Proof.
  intros [Hl H]. rewrite le_combine_at, Hl. unfold sc_load. autorewrite with sc_shape sc_top.
  eval_radix. cbn [Nat.add seq foldr]. gen_bytes a H. unfold is_byte in *. 
  zlia.
Qed.

Lemma sc_load_wide_value s :
  is_bytes 64 s -> dot (radix 24) (sc_load_wide s) = le_combine s.
Proof.
  intros [Hl H]. rewrite le_combine_at, Hl. unfold sc_load_wide. autorewrite with sc_shape sc_top.
  eval_radix. cbn [Nat.add seq foldr]. gen_bytes s H. unfold is_byte in *. zlia.
Qed.

Definition limb_itv : itv := (0, 2097151).
Definition sc_load_itv : list itv := repeat limb_itv 11 ++ [(0, 33554431)].
Definition sc_load_wide_itv : list itv := repeat limb_itv 23 ++ [(0, 536870911)].

Lemma mask21_range z : in_itv (mask21 z) limb_itv.
Proof. rewrite mask21_mod. unfold in_itv; simpl. pose proof (Z.mod_pos_bound z 2097152). lia. Qed.

Lemma sc_load_bounds a : is_bytes 32 a -> Forall2 in_itv (sc_load a) sc_load_itv.
Proof.
  intros [Hl H]. unfold sc_load, sc_load_itv; simpl.
  repeat (apply Forall2_cons_2; [apply mask21_range |]).
  apply Forall2_cons_2; [exact (load_4_range a 28 7 H ltac:(lia)) | apply Forall2_nil_2].
Qed.

Lemma sc_load_wide_bounds s : is_bytes 64 s -> Forall2 in_itv (sc_load_wide s) sc_load_wide_itv.
Proof.
  intros [Hl H]. unfold sc_load_wide, sc_load_wide_itv; simpl.
  repeat (apply Forall2_cons_2; [apply mask21_range |]).
  apply Forall2_cons_2; [exact (load_4_range s 60 3 H ltac:(lia)) | apply Forall2_nil_2].
Qed.

(** ** Packing preserves the value *)

Lemma sc_store_bytes x : is_bytes 32 (sc_store x).
Proof.
  apply map_u8_bytes.
Qed.

Definition packed_itv : list itv := repeat limb_itv 11 ++ [(0, 33554431)].

(** How a limb splits over the bytes that hold it. *)
Lemma split_0_16 s : 0 <= s <= 2097151 ->
  s = (s / 1) mod 256 + 256 * ((s / 256) mod 256) + 65536 * (s / 65536).
Proof. zlia. Qed.
Lemma split_3_19 s : 0 <= s <= 2097151 ->
  s = s mod 8 + 8 * ((s / 8) mod 256) + 2048 * ((s / 2048) mod 256) + 524288 * (s / 524288).
Proof. zlia. Qed.
Lemma split_6_14 s : 0 <= s <= 2097151 ->
  s = s mod 64 + 64 * ((s / 64) mod 256) + 16384 * (s / 16384).
Proof. zlia. Qed.
Lemma split_1_17 s : 0 <= s <= 33554431 ->
  s = s mod 2 + 2 * ((s / 2) mod 256) + 512 * ((s / 512) mod 256) + 131072 * (s / 131072).
Proof. zlia. Qed.
Lemma split_4_20 s : 0 <= s <= 2097151 ->
  s = s mod 16 + 16 * ((s / 16) mod 256) + 4096 * ((s / 4096) mod 256) + 1048576 * (s / 1048576).
Proof. zlia. Qed.
Lemma split_7_15 s : 0 <= s <= 2097151 ->
  s = s mod 128 + 128 * ((s / 128) mod 256) + 32768 * (s / 32768).
Proof. zlia. Qed.
Lemma split_2_18 s : 0 <= s <= 2097151 ->
  s = s mod 4 + 4 * ((s / 4) mod 256) + 1024 * ((s / 1024) mod 256) + 262144 * (s / 262144).
Proof. zlia. Qed.
Lemma split_5_13 s : 0 <= s <= 2097151 ->
  s = s mod 32 + 32 * ((s / 32) mod 256) + 8192 * ((s / 8192) mod 256).
Proof. zlia. Qed.

Lemma sc_store_value x :
  Forall2 in_itv (take 12 x) packed_itv ->
  le_combine (sc_store x) = dot (radix 12) (take 12 x).
Proof.
  intros H.
  destruct x as [|s0 [|s1 [|s2 [|s3 [|s4 [|s5 [|s6 [|s7 [|s8 [|s9 [|s10 [|s11 x]]]]]]]]]]]];
    try (apply Forall2_length in H; discriminate H).
  cbn [take] in *. eval_radix. unfold packed_itv in H; simpl in H.
  repeat (apply Forall2_cons_1 in H as [? H]). clear H. unfold in_itv in *; cbn [fst snd limb_itv] in *.
  cbn [sc_store at_ lookup list_lookup default from_option id map le_combine].
  rewrite !store_mid by (cbn; lia). rewrite !store_low by lia.
  repeat match goal with |- context [2 ^ ?k] => let v := eval vm_compute in (2 ^ k) in change (2 ^ k) with v end.
  pose proof (split_0_16 s0 H0). pose proof (split_3_19 s1 H1). pose proof (split_6_14 s2 H2).
  pose proof (split_1_17 s3 ltac:(lia)). pose proof (split_4_20 s4 H4). pose proof (split_7_15 s5 H5).
  pose proof (split_2_18 s6 H6). pose proof (split_5_13 s7 H7). pose proof (split_0_16 s8 H8).
  pose proof (split_3_19 s9 H9). pose proof (split_6_14 s10 H10). pose proof (split_1_17 s11 H11).
  assert (s11 / 131072 = (s11 / 131072) mod 256) by zlia.
  lia.
Qed.
End Scalar.
