(* ===== verification/ScalarCorrect.v ===== *)
(** Correctness of the scalar routines of [Scalar]: no signed overflow, and
    the bytes returned are the canonical residue modulo the group order. *)
From S2P Require Import Prelude Limbs Pack Scalar.

Local Open Scope Z_scope.

Module ScalarCorrect.
Import Limbs Pack Scalar.

(** ** The final carries *)

(** Weights of a vector of [n] limbs of which the first [k] are live. *)
Definition live (k n : nat) : list Z := radix k ++ repeat 0 (n - k).

Definition floors (k : nat) : list instr := map cfloor (seq 0 k).

Definition s12_spread : Z := 2 ^ 252 - ell.

Lemma length_radix k : length (radix k) = k.
Proof. unfold radix. by rewrite length_map, length_seq. Qed.

Lemma radix_S k : radix (S k) = radix k ++ [2 ^ (21 * Z.of_nat k)].
Proof. unfold radix. by rewrite seq_S, map_app. Qed.

Lemma dot_live k n x : dot (live k n) x = dot (radix k) (take k x).
Proof. unfold live. rewrite dot_app, length_radix, dot_zeros. lia. Qed.

Lemma dot_radix_S k x a :
  x !! k = Some a -> dot (radix (S k)) (take (S k) x) = dot (radix k) (take k x) + 2 ^ (21 * Z.of_nat k) * a.
Proof.
  intros Ha. rewrite (take_S_r _ _ _ Ha), radix_S, dot_app, length_radix.
  assert (Hk : length (take k x) = k).
  { rewrite length_take. apply lookup_lt_Some in Ha. lia. }
  rewrite take_app_length', drop_app_length' by done. simpl. lia.
Qed.

Lemma radix_bounds k x :
  Forall2 in_itv x (repeat limb_itv k) -> 0 <= dot (radix k) x < 2 ^ (21 * Z.of_nat k).
Proof.
  revert x. induction k as [| k IH]; intros x H.
  - apply Forall2_nil_inv_r in H as ->. simpl. lia.
  - change (repeat limb_itv (S k)) with (limb_itv :: repeat limb_itv k) in H. rewrite repeat_cons in H.
    apply Forall2_app_inv_r in H as (l & m & H1 & H2 & ->).
    apply Forall2_cons_inv_r in H2 as (a & m' & Ha & H2 & ->). apply Forall2_nil_inv_r in H2 as ->.
    specialize (IH l H1). rewrite radix_S, dot_app, length_radix.
    pose proof (Forall2_length H1) as Hl. rewrite repeat_length in Hl.
    rewrite take_app_length', drop_app_length' by done. cbn [dot].
    rewrite Nat2Z.inj_succ, Z.mul_succ_r, Z.pow_add_r by lia.
    unfold in_itv, limb_itv in Ha. simpl in Ha. change (2 ^ 21) with 2097152. nia.
Qed.

(** What the analyses must report for a vector of [n] limbs with bounds [b]
    for the final carries to be correct. *)
Definition final_check (n : nat) (b : list itv) : bool :=
  match abs_run 64 (floors 12) b, wt_run 0 [] (floors 12) (live 13 n),
        fold_weight (live 12 n) 12 [ (0%nat, 666643); (1%nat, 470296); (2%nat, 654183);
           (3%nat, -997805); (4%nat, 136657); (5%nat, -683901) ],
        wt_run 0 [] (floors 11) (live 12 n) with
  | Some b1, Some w1, Some r, Some w2 =>
      bool_decide (take 13 b1 = repeat limb_itv 12 ++ [(-1, 0)]) &&
      bool_decide (w1 = live 13 n) && (r =? s12_spread) && bool_decide (w2 = live 12 n) &&
      match abs_run 64 (reduce_limb 12 :: floors 11) b1 with
      | Some b2 => bool_decide (take 11 b2 = repeat limb_itv 11) &&
                   bool_decide (b2 !! 11%nat = Some (-1, 2097152))
      | None => false
      end
  | _, _, _, _ => false
  end.

Lemma take_take_ge_12 (x : list Z) : take 12 (take 13 x) = take 12 x.
Proof. by rewrite take_take. Qed.

Lemma final_sound n b x :
  Forall2 in_itv x b -> final_check n b = true ->
  exists x', run 64 final_carries x = Some x' /\
    le_combine (sc_store x') = dot (live 13 n) x mod ell.
Proof.
  intros Hx Hc. unfold final_check in Hc.
  destruct (abs_run 64 (floors 12) b) as [b1 |] eqn:E1; [| done].
  destruct (wt_run 0 [] (floors 12) (live 13 n)) as [w1 |] eqn:E2; [| done].
  destruct (fold_weight _ _ _) as [r |] eqn:E3; [| done].
  destruct (wt_run 0 [] (floors 11) (live 12 n)) as [w2 |] eqn:E4; [| done].
  destruct (abs_run 64 (reduce_limb 12 :: floors 11) b1) as [b2 |] eqn:E5; [| by rewrite andb_false_r in Hc].
  rewrite !andb_true_iff, !bool_decide_eq_true, Z.eqb_eq in Hc.
  destruct Hc as [[[[Hb1 ->] ->] ->] [Hb2 Hb2']].
  destruct (run_sound _ _ _ _ _ _ _ _ _ Hx E1 E2) as (x1 & R1 & B1 & V1). apply eqm_0 in V1.
  destruct (abs_run_sound _ _ _ _ _ B1 E5) as (x3 & R3 & B3).
  pose proof R3 as R3'. cbn [run] in R3'. apply bind_Some in R3' as (x2 & X2 & R2).
  pose proof (wt_run_sound _ _ _ _ _ _ _ _ R2 E4) as V3. apply eqm_0 in V3.
  exists x3. split.
  { change final_carries with (floors 12 ++ reduce_limb 12 :: floors 11).
    rewrite run_app, R1. exact R3. }
  assert (L1 : Forall2 in_itv (take 13 x1) (repeat limb_itv 12 ++ [(-1, 0)])).
  { rewrite <- Hb1. by apply Forall2_take. }
  assert (L1' : Forall2 in_itv (take 12 x1) (repeat limb_itv 12)).
  { rewrite <- (take_take_ge_12 x1). exact (Forall2_take _ _ _ 12%nat L1). }
  apply radix_bounds in L1'.
  destruct (in_itv_lookup (take 13 x1) _ 12%nat (-1, 0) L1 eq_refl) as (s12 & Es12 & Hs12).
  rewrite lookup_take_lt in Es12 by lia.
  destruct (fold_weight_sound _ _ _ _ _ _ _ _ E3 X2 Es12) as [V2 _].
  assert (L3 : Forall2 in_itv (take 11 x3) (repeat limb_itv 11)).
  { rewrite <- Hb2. by apply Forall2_take. }
  destruct (in_itv_lookup _ _ _ _ B3 Hb2') as (s11 & Es11 & Hs11).
  pose proof (radix_bounds _ _ L3) as L3'.
  rewrite !dot_live in *.
  pose proof (dot_radix_S 12 x1 s12 Es12) as D1. pose proof (dot_radix_S 11 x3 s11 Es11) as D3.
  unfold in_itv in Hs12, Hs11. cbn [fst snd] in *.
  unfold s12_spread, ell in *.
  repeat match goal with H : context [2 ^ ?k] |- _ => let v := eval vm_compute in (2 ^ k) in change (2 ^ k) with v in H end.
  rewrite sc_store_value.
  - apply eqm_unique; [exists (- s12) |]; lia.
  - rewrite (take_S_r _ _ _ Es11). apply Forall2_app; [done |].
    constructor; [| done]. unfold in_itv; cbn [fst snd]. lia.
Qed.

(** ** Reduction of a limb vector *)

Definition reduce_check (n : nat) (pre : list instr) (b : list itv) : bool :=
  match abs_run 64 pre b, wt_run ell (radix n) pre (radix n) with
  | Some b', Some w => bool_decide (w = live 13 n) && final_check n b'
  | _, _ => false
  end.

Lemma reduce_sound n pre b x :
  Forall2 in_itv x b -> reduce_check n pre b = true ->
  exists x', run 64 (pre ++ final_carries) x = Some x' /\
    le_combine (sc_store x') = dot (radix n) x mod ell.
Proof.
  intros Hx H. unfold reduce_check in H.
  destruct (abs_run 64 pre b) as [b' |] eqn:E1; [| done].
  destruct (wt_run _ _ pre _) as [w |] eqn:E2; [| done].
  apply andb_true_iff in H as [Hw Hf]. apply bool_decide_eq_true in Hw as ->.
  destruct (run_sound _ _ _ _ _ _ _ _ _ Hx E1 E2) as (x1 & R1 & B1 & V1).
  destruct (final_sound n b' x1 B1 Hf) as (x2 & R2 & V2).
  exists x2. rewrite run_app, R1. split; [exact R2 |].
  rewrite V2. by apply eqm_mod.
Qed.

(** The reductions of the C code are accepted by the analyses. *)
Lemma wide_check : reduce_check 24 (fold_high ++ round_low) sc_load_wide_itv = true.
Proof. vm_compute. reflexivity. Qed.

(** Bounds that hold for a sum or a difference of two unpacked scalars. *)
Definition short_itv : list itv := repeat (-2097151, 4194302) 11 ++ [(-33554431, 67108862); (0, 0)].

Lemma short_check : reduce_check 13 round_low short_itv = true.
Proof. vm_compute. reflexivity. Qed.

(** ** Products *)

Definition limb_mag : list Z := repeat 2097151 11 ++ [33554431].

Definition prod_itv (k : nat) : itv :=
  let m := psum (row_terms limb_mag limb_mag k) + 33554431 in (- m, m).

Definition product_itv : list itv := map prod_itv (seq 0 23) ++ [(0, 0)].

Lemma product_check :
  reduce_check 24 (round_product ++ fold_high ++ round_low) product_itv = true.
Proof. vm_compute. reflexivity. Qed.

Lemma at_mag a i : Forall2 in_itv a sc_load_itv -> Z.abs (at_ a i) <= at_ limb_mag i.
Proof.
  intros H. destruct (decide (i < 12)%nat) as [Hi |].
  - assert (E : sc_load_itv !! i = Some (0, at_ limb_mag i)).
    { do 12 (destruct i as [| i]; [reflexivity |]). lia. }
    pose proof (at_in_itv _ _ _ _ H E) as Ha. unfold in_itv in Ha. simpl in Ha. lia.
  - pose proof (Forall2_length H) as Hl. unfold at_.
    rewrite !lookup_ge_None_2; [simpl; lia | |]; rewrite ?Hl; simpl; lia.
Qed.

Lemma row_terms_mag a b k :
  Forall2 in_itv a sc_load_itv -> Forall2 in_itv b sc_load_itv ->
  Forall2 mag_le (row_terms a b k) (row_terms limb_mag limb_mag k).
Proof.
  intros Ha Hb. unfold row_terms. generalize (seq (k - 11) (Nat.min k 11 - (k - 11) + 1)). intros l.
  induction l as [| i l IH]; simpl; constructor; [| done].
  split; simpl; by apply at_mag.
Qed.

Definition row_value (a b : list Z) (k : nat) : Z := psum (row_terms a b k).

Lemma row_mag k : (k < 23)%nat -> psum (row_terms limb_mag limb_mag k) < 2 ^ 62.
Proof.
  intros Hk. assert (H : forallb (fun k => psum (row_terms limb_mag limb_mag k) <? 2 ^ 62) (seq 0 23) = true)
    by (vm_compute; reflexivity).
  rewrite forallb_forall in H. apply Z.ltb_lt, H, in_seq. lia.
Qed.

Lemma prod_row_ok a b k :
  Forall2 in_itv a sc_load_itv -> Forall2 in_itv b sc_load_itv -> (k < 23)%nat ->
  prod_row a b k = Some (row_value a b k) /\
  Z.abs (row_value a b k) <= psum (row_terms limb_mag limb_mag k) < 2 ^ 62.
Proof.
  intros Ha Hb Hk. pose proof (row_terms_mag a b k Ha Hb) as H. pose proof (row_mag k Hk).
  unfold prod_row. rewrite (mac_ok 64 0 _ _ H) by lia.
  split; [f_equal; unfold row_value; lia |]. split; [by apply psum_mag | done].
Qed.

(** Schoolbook multiplication of the two limb vectors. *)
Lemma product_value a b :
  length a = 12%nat -> length b = 12%nat ->
  dot (radix 23) (map (row_value a b) (seq 0 23)) = dot (radix 12) a * dot (radix 12) b.
Proof.
  intros Ha Hb.
  destruct a as [|a0 [|a1 [|a2 [|a3 [|a4 [|a5 [|a6 [|a7 [|a8 [|a9 [|a10 [|a11 [|]]]]]]]]]]]]]; try discriminate Ha.
  destruct b as [|b0 [|b1 [|b2 [|b3 [|b4 [|b5 [|b6 [|b7 [|b8 [|b9 [|b10 [|b11 [|]]]]]]]]]]]]]; try discriminate Hb.
  eval_radix.
  cbn [map seq row_value row_terms Nat.min Nat.sub Nat.add psum at_ lookup list_lookup default from_option id].
  ring.
Qed.

Lemma product_itv_intro (g : nat -> Z) :
  (forall k, (k < 23)%nat -> Z.abs (g k) <= psum (row_terms limb_mag limb_mag k) + 33554431) ->
  Forall2 in_itv (map g (seq 0 23) ++ [0]) product_itv.
Proof.
  intros H. unfold product_itv. apply Forall2_app; [| constructor; [unfold in_itv; simpl; lia | done]].
  assert (Hs : Forall (fun k => (k < 23)%nat) (seq 0 23)).
  { apply Forall_forall. intros k Hk. apply in_seq in Hk. lia. }
  revert Hs. generalize (seq 0 23). intros l Hs.
  induction Hs as [| k l Hk _ IH]; simpl; constructor; [| done].
  unfold in_itv, prod_itv; cbn [fst snd]. specialize (H k Hk). lia.
Qed.

Lemma in_seq_lt k a n : k ∈ seq a n -> (k < a + n)%nat.
Proof. intros Hk. apply elem_of_seq in Hk. lia. Qed.

Lemma sc_load_length a : length (sc_load a) = 12%nat.
Proof. done. Qed.

Lemma at_load_mag c k : is_bytes 32 c -> Z.abs (at_ (sc_load c) k) <= 33554431.
Proof.
  intros H. etransitivity; [apply at_mag, sc_load_bounds, H |].
  do 12 (destruct k as [| k]; [vm_compute; congruence |]).
  unfold at_. rewrite lookup_ge_None_2; [simpl; lia | simpl; lia].
Qed.

Section Products.
Context (a b : list Z) (Ha : is_bytes 32 a) (Hb : is_bytes 32 b).

Let row := row_value (sc_load a) (sc_load b).

Lemma load_row k : (k < 23)%nat ->
  prod_row (sc_load a) (sc_load b) k = Some (row k) /\
  Z.abs (row k) <= psum (row_terms limb_mag limb_mag k) < 2 ^ 62.
Proof. apply prod_row_ok; by apply sc_load_bounds. Qed.

Lemma load_rows_value :
  dot (radix 23) (map row (seq 0 23)) = le_combine a * le_combine b.
Proof. rewrite <- !sc_load_value by done. by apply product_value. Qed.

Lemma sc_mul_limbs_ok :
  exists x, sc_mul_limbs (sc_load a) (sc_load b) = Some x /\
    Forall2 in_itv x product_itv /\ dot (radix 24) x = le_combine a * le_combine b.
Proof.
  eexists. split; [| split].
  - unfold sc_mul_limbs. rewrite (mapM_total _ row); [reflexivity |].
    intros k Hk. apply load_row, (in_seq_lt _ 0 23), Hk.
  - apply product_itv_intro. intros k Hk. pose proof (load_row k Hk). lia.
  - rewrite <- load_rows_value. eval_radix. cbn [map seq app dot]. lia.
Qed.

Lemma sc_muladd_limbs_ok c : is_bytes 32 c ->
  exists x, sc_muladd_limbs (sc_load a) (sc_load b) (sc_load c) = Some x /\
    Forall2 in_itv x product_itv /\
    dot (radix 24) x = le_combine c + le_combine a * le_combine b.
Proof.
  intros Hc.
  set (g := fun k => if (k <? 12)%nat then at_ (sc_load c) k + row k else row k).
  exists (map g (seq 0 23) ++ [0]). split; [| split].
  - unfold sc_muladd_limbs.
    rewrite (mapM_total _ (fun k => at_ (sc_load c) k + row k) (seq 0 12)).
    + rewrite (mapM_total _ row (seq 12 11)); [reflexivity |].
      intros k Hk. apply load_row, (in_seq_lt _ 12 11), Hk.
    + intros k Hk. apply (in_seq_lt _ 0 12) in Hk. destruct (load_row k ltac:(lia)) as [E1 E2].
      rewrite E1. simpl. pose proof (at_load_mag c k Hc). apply chk_ok. lia.
  - apply product_itv_intro. intros k Hk. pose proof (load_row k Hk). pose proof (at_load_mag c k Hc).
    unfold g. destruct (k <? 12)%nat; lia.
  - rewrite <- load_rows_value, <- (sc_load_value c) by done.
    rewrite (dot_at (radix 12)) by done. rewrite length_radix.
    eval_radix. cbn [map seq app dot g Nat.ltb Nat.leb foldr at_ lookup list_lookup default from_option id]. lia.
Qed.

Lemma sc_mulsub_limbs_ok c : is_bytes 32 c ->
  exists x, sc_mulsub_limbs (sc_load a) (sc_load b) (sc_load c) = Some x /\
    Forall2 in_itv x product_itv /\
    dot (radix 24) x = le_combine c - le_combine a * le_combine b.
Proof.
  intros Hc.
  set (g := fun k => if (k <? 12)%nat then at_ (sc_load c) k - row k else - row k).
  exists (map g (seq 0 23) ++ [0]). split; [| split].
  - unfold sc_mulsub_limbs.
    rewrite (mapM_total _ (fun k => at_ (sc_load c) k - row k) (seq 0 12)).
    + rewrite (mapM_total _ (fun k => - row k) (seq 12 10)).
      * pose proof (at_mag (sc_load a) 11 (sc_load_bounds a Ha)) as Ma.
        pose proof (at_mag (sc_load b) 11 (sc_load_bounds b Hb)) as Mb.
        change (at_ limb_mag 11) with 33554431 in Ma, Mb. cbn [mbind option_bind].
        assert (Er : row 22 = at_ (sc_load a) 11 * at_ (sc_load b) 11 + 0) by reflexivity.
        rewrite (chk_ok 64 (- _)) by lia. cbn [mbind option_bind].
        rewrite chk_ok by nia. cbn [mbind option_bind].
        f_equal. unfold g. cbn [map seq app Nat.ltb Nat.leb]. do 22 f_equal.
        rewrite Er. f_equal. ring.
      * intros k Hk. apply (in_seq_lt _ 12 10) in Hk. destruct (load_row k ltac:(lia)) as [E1 E2].
        rewrite E1. apply chk_ok. lia.
    + intros k Hk. apply (in_seq_lt _ 0 12) in Hk. destruct (load_row k ltac:(lia)) as [E1 E2].
      rewrite E1. simpl. pose proof (at_load_mag c k Hc). apply chk_ok. lia.
  - apply product_itv_intro. intros k Hk. pose proof (load_row k Hk). pose proof (at_load_mag c k Hc).
    unfold g. destruct (k <? 12)%nat; lia.
  - rewrite <- load_rows_value, <- (sc_load_value c) by done.
    rewrite (dot_at (radix 12)) by done. rewrite length_radix.
    eval_radix. cbn [map seq app dot g Nat.ltb Nat.leb foldr at_ lookup list_lookup default from_option id]. lia.
Qed.
End Products.

(** ** The routines *)

(** What a routine promises: it runs without signed overflow and writes the
    canonical little-endian representative of [v] modulo [ell]. *)
Definition computes (r : option (list Z)) (v : Z) : Prop :=
  exists s, r = Some s /\ is_bytes 32 s /\ le_combine s = v mod ell.

Lemma computes_intro n pre b x v :
  Forall2 in_itv x b -> reduce_check n pre b = true -> dot (radix n) x = v ->
  computes (y ← run 64 (pre ++ final_carries) x; Some (sc_store y)) v.
Proof.
  intros Hx Hc Hv. destruct (reduce_sound _ _ _ _ Hx Hc) as (x' & -> & V).
  exists (sc_store x'). split; [done |]. split; [apply sc_store_bytes |].
  by rewrite V, Hv.
Qed.

Lemma dot_radix_snoc n x : length x = n -> dot (radix (S n)) (x ++ [0]) = dot (radix n) x.
Proof.
  intros Hl. unfold radix. rewrite seq_S, map_app, dot_app, length_map, length_seq, <- Hl.
  rewrite take_app_length, drop_app_length. simpl. lia.
Qed.

Definition product_steps : list instr := round_product ++ fold_high ++ round_low.

Lemma product_steps_eq : reduce_product_steps = product_steps ++ final_carries.
Proof. reflexivity. Qed.

Lemma product_computes x v :
  Forall2 in_itv x product_itv -> dot (radix 24) x = v ->
  computes (y ← run 64 reduce_product_steps x; Some (sc_store y)) v.
Proof.
  intros Hx Hv. rewrite product_steps_eq.
  exact (computes_intro 24 product_steps product_itv x v Hx product_check Hv).
Qed.

(** Sums and differences of limbs, uniformly. *)
Lemma sc_limbwise_ok (f : Z -> Z -> Z) sg a b :
  (forall x y, f x y = x + sg * y) -> (sg = 1 \/ sg = -1) ->
  is_bytes 32 a -> is_bytes 32 b ->
  exists s, limbwise f (sc_load a) (sc_load b) = Some s /\
    Forall2 in_itv (s ++ [0]) short_itv /\
    dot (radix 13) (s ++ [0]) = le_combine a + sg * le_combine b.
Proof.
  intros Hf Hsg Ha Hb.
  pose proof (sc_load_bounds a Ha) as Ba. pose proof (sc_load_bounds b Hb) as Bb.
  rewrite <- (sc_load_value a), <- (sc_load_value b) by done.
  destruct (sc_load a) as [|a0 [|a1 [|a2 [|a3 [|a4 [|a5 [|a6 [|a7 [|a8 [|a9 [|a10 [|a11 [|]]]]]]]]]]]]];
    try (apply Forall2_length in Ba; discriminate Ba).
  destruct (sc_load b) as [|b0 [|b1 [|b2 [|b3 [|b4 [|b5 [|b6 [|b7 [|b8 [|b9 [|b10 [|b11 [|]]]]]]]]]]]]];
    try (apply Forall2_length in Bb; discriminate Bb).
  unfold sc_load_itv in *; simpl in Ba, Bb.
  repeat (apply Forall2_cons_1 in Ba as [? Ba]). repeat (apply Forall2_cons_1 in Bb as [? Bb]).
  unfold in_itv, limb_itv in *. cbn [fst snd] in *.
  unfold limbwise. rewrite (mapM_total _ (fun p => f p.1 p.2)).
  2: { intros p Hp. apply chk_ok. rewrite Hf. apply list_elem_of_In in Hp. simpl in Hp.
       repeat (destruct Hp as [<- | Hp]; [cbn [fst snd]; destruct Hsg as [-> | ->]; lia |]). done. }
  eexists. split; [reflexivity |]. split.
  - cbn [zip map app fst snd]. unfold short_itv; simpl. unfold zip; simpl. rewrite !Hf.
    repeat (apply Forall2_cons_2; [unfold in_itv; cbn [fst snd]; destruct Hsg as [-> | ->]; lia |]). constructor.
  - eval_radix. unfold zip; simpl. rewrite !Hf. lia.
Qed.

(** [sc_reduce] reduces a 64-byte value modulo the group order. *)
Lemma sc_reduce_ok s : is_bytes 64 s -> computes (sc_reduce s) (le_combine s).
Proof.
  intros Hs.
  exact (computes_intro 24 (fold_high ++ round_low) _ _ _ (sc_load_wide_bounds s Hs) wide_check
           (sc_load_wide_value s Hs)).
Qed.

Lemma widen_short x : Forall2 in_itv x sc_load_itv ->
  Forall2 in_itv x (take 12 short_itv).
Proof.
  by apply in_itvs_le.
Qed.

Lemma sc_reduce32_ok s : is_bytes 32 s -> computes (sc_reduce32 s) (le_combine s).
Proof.
  intros Hs. apply (computes_intro 13 round_low short_itv); [| exact short_check |].
  - change short_itv with (take 12 short_itv ++ drop 12 short_itv).
    apply Forall2_app; [| repeat constructor; done].
    exact (widen_short _ (sc_load_bounds s Hs)).
  - rewrite (dot_radix_snoc 12) by done. by apply sc_load_value.
Qed.

Lemma sc_add_ok a b : is_bytes 32 a -> is_bytes 32 b ->
  computes (sc_add a b) (le_combine a + le_combine b).
Proof.
  intros Ha Hb. unfold sc_add.
  destruct (sc_limbwise_ok Z.add 1 a b) as (s & -> & B & V); [lia | lia | done | done |].
  cbn [mbind option_bind]. apply (computes_intro 13 round_low short_itv _ _ B short_check). lia.
Qed.

Lemma sc_sub_ok a b : is_bytes 32 a -> is_bytes 32 b ->
  computes (sc_sub a b) (le_combine a - le_combine b).
Proof.
  intros Ha Hb. unfold sc_sub.
  destruct (sc_limbwise_ok Z.sub (-1) a b) as (s & -> & B & V); [lia | lia | done | done |].
  cbn [mbind option_bind]. apply (computes_intro 13 round_low short_itv _ _ B short_check). lia.
Qed.

Lemma sc_mul_ok a b : is_bytes 32 a -> is_bytes 32 b ->
  computes (sc_mul a b) (le_combine a * le_combine b).
Proof.
  intros Ha Hb. unfold sc_mul.
  destruct (sc_mul_limbs_ok a b Ha Hb) as (x & -> & B & V). by apply product_computes.
Qed.

Lemma sc_muladd_ok a b c : is_bytes 32 a -> is_bytes 32 b -> is_bytes 32 c ->
  computes (sc_muladd a b c) (le_combine c + le_combine a * le_combine b).
Proof.
  intros Ha Hb Hc. unfold sc_muladd.
  destruct (sc_muladd_limbs_ok a b Ha Hb c Hc) as (x & -> & B & V). by apply product_computes.
Qed.

Lemma sc_mulsub_ok a b c : is_bytes 32 a -> is_bytes 32 b -> is_bytes 32 c ->
  computes (sc_mulsub a b c) (le_combine c - le_combine a * le_combine b).
Proof.
  intros Ha Hb Hc. unfold sc_mulsub.
  destruct (sc_mulsub_limbs_ok a b Ha Hb c Hc) as (x & -> & B & V). by apply product_computes.
Qed.

(** ** Range and zero tests *)

(** The sign of a weighted sum of signs is decided by the highest nonzero one. *)
Lemma signum_step B t D T d :
  Z.abs D < B -> Z.abs T < t -> signum D = signum T ->
  signum (D + B * d) = signum (T + t * signum d).
Proof.
  intros HD HT E. destruct (Z.lt_total d 0) as [Hd | [-> | Hd]].
  - assert (E1 : signum d = -1) by (unfold signum; destruct (0 <? d) eqn:?, (d <? 0) eqn:?; lia).
    rewrite E1. transitivity (-1); [| symmetry];
      unfold signum; repeat case_match; nia.
  - change (signum 0) with 0. by rewrite !Z.mul_0_r, !Z.add_0_r.
  - assert (E1 : signum d = 1) by (unfold signum; destruct (0 <? d) eqn:?, (d <? 0) eqn:?; lia).
    rewrite E1. transitivity 1; [| symmetry]; unfold signum; repeat case_match; nia.
Qed.

Lemma signum_abs d : Z.abs (signum d) <= 1.
Proof. unfold signum. repeat case_match; lia. Qed.

Lemma signum_neg z : (signum z =? -1) = (z <? 0).
Proof. unfold signum. destruct (0 <? z) eqn:?, (z <? 0) eqn:?; lia. Qed.

Lemma le_combine_words s : is_bytes 32 s ->
  le_combine s = load_4 s 0 + 2 ^ 32 * load_4 s 4 + 2 ^ 64 * load_4 s 8 + 2 ^ 96 * load_4 s 12
    + 2 ^ 128 * load_4 s 16 + 2 ^ 160 * load_4 s 20 + 2 ^ 192 * load_4 s 24 + 2 ^ 224 * load_4 s 28.
Proof.
  intros [Hl H]. rewrite !load_4_val by done.
  do 32 (destruct s as [| ? s]; [discriminate Hl |]). destruct s; [| discriminate Hl].
  cbn [Nat.add at_ lookup list_lookup default from_option id le_combine]. lia.
Qed.

Lemma sc_check_ok s : is_bytes 32 s ->
  sc_check s = if le_combine s <? ell then 0 else -1.
Proof.
  intros Hs. pose proof (le_combine_words s Hs) as V. destruct Hs as [Hl H].
  assert (R : forall o, 0 <= load_4 s o < 2 ^ 32).
  { intros o. pose proof (load_4_range s o 0 H ltac:(lia)) as [? ?]. simpl in *.
    rewrite Z.shiftr_0_r in *. rewrite Z.div_1_r in *. lia. }
  unfold sc_check. rewrite !Z.shiftl_mul_pow2 by lia.
  set (d0 := 1559614444 - _). set (d1 := 1477600026 - _). set (d2 := 2734136534 - _).
  set (d3 := 350157278 - _). set (d4 := - load_4 s 16). set (d5 := - load_4 s 20).
  set (d6 := - load_4 s 24). set (d7 := 268435456 - _).
  pose proof (R 0%nat). pose proof (R 4%nat). pose proof (R 8%nat). pose proof (R 12%nat).
  pose proof (R 16%nat). pose proof (R 20%nat). pose proof (R 24%nat). pose proof (R 28%nat).
  pose proof (signum_abs d0). pose proof (signum_abs d1). pose proof (signum_abs d2).
  pose proof (signum_abs d3). pose proof (signum_abs d4). pose proof (signum_abs d5).
  pose proof (signum_abs d6). pose proof (signum_abs d7).
  assert (E0 : signum d0 = signum (signum d0)) by (unfold signum; by repeat case_match).
  apply (signum_step (2 ^ 32) 2 _ _ d1) in E0; [| lia | lia].
  apply (signum_step (2 ^ 64) 4 _ _ d2) in E0; [| lia | lia].
  apply (signum_step (2 ^ 96) 8 _ _ d3) in E0; [| lia | lia].
  apply (signum_step (2 ^ 128) 16 _ _ d4) in E0; [| lia | lia].
  apply (signum_step (2 ^ 160) 32 _ _ d5) in E0; [| lia | lia].
  apply (signum_step (2 ^ 192) 64 _ _ d6) in E0; [| lia | lia].
  apply (signum_step (2 ^ 224) 128 _ _ d7) in E0; [| lia | lia].
  rewrite shiftr_8_sign by lia. rewrite <- signum_neg.
  match goal with |- context [signum ?t =? -1] =>
    replace (signum t) with (signum (ell - 1 - le_combine s)) end.
  - rewrite signum_neg. destruct (Z.ltb_spec (ell - 1 - le_combine s) 0), (Z.ltb_spec (le_combine s) ell); lia.
  - etransitivity; [| etransitivity; [exact E0 |]]; f_equal; unfold ell; lia.
Qed.

Lemma sc_isnonzero_ok s : is_bytes 32 s ->
  sc_isnonzero s = if le_combine s =? 0 then 0 else 1.
Proof. apply bytes_isnonzero_ok. Qed.

Lemma computes_mod r v w : computes r v -> v mod ell = w mod ell -> computes r w.
Proof. intros (s & E & B & V) H. exists s. split; [done |]. split; [done |]. congruence. Qed.

(** ** The routines against each other and against arithmetic *)

Lemma computes_eq r1 r2 v1 v2 : computes r1 v1 -> computes r2 v2 -> v1 mod ell = v2 mod ell -> r1 = r2.
Proof.
  intros (s1 & -> & [L1 B1] & V1) (s2 & -> & [L2 B2] & V2) E. f_equal.
  apply le_combine_inj; [congruence | done | done | congruence].
Qed.

Lemma computes_bind r v K w : computes r v ->
  (forall s, is_bytes 32 s -> le_combine s = v mod ell -> computes (K s) w) -> computes (r ≫= K) w.
Proof. intros (s & -> & B & V) H. by apply H. Qed.

(** [sc_reduce] maps any 64 bytes, and [sc_reduce32] any 32 bytes, to the 32
    little-endian bytes of the value modulo the group order, without a signed
    overflow; and the two agree when the upper 32 bytes are zero. *)
Theorem sc_reduce_correct s t : is_bytes 64 s -> is_bytes 32 t ->
  computes (sc_reduce s) (le_combine s) /\ computes (sc_reduce32 t) (le_combine t) /\
  sc_reduce (t ++ replicate 32 0) = sc_reduce32 t.
Proof.
  intros Hs Ht. split; [by apply sc_reduce_ok |]. split; [by apply sc_reduce32_ok |].
  assert (Hz : is_bytes 64 (t ++ replicate 32 0)).
  { destruct Ht as [L B]. split; [by rewrite length_app, length_replicate, L |].
    apply Forall_app; split; [done |]. by apply Forall_replicate. }
  eapply computes_eq; [by apply sc_reduce_ok | by apply sc_reduce32_ok |].
  by rewrite le_combine_app, le_combine_zeros, Z.mul_0_r, Z.add_0_r.
Qed.

(** C34: [sc_add], [sc_sub] and [sc_mul] take any 32-byte operands, reduced or
    not, and return the canonical bytes of the sum, the difference and the
    product modulo the group order, without a signed overflow. *)
Theorem sc_ring_correct a b : is_bytes 32 a -> is_bytes 32 b ->
  computes (sc_add a b) (le_combine a + le_combine b) /\
  computes (sc_sub a b) (le_combine a - le_combine b) /\
  computes (sc_mul a b) (le_combine a * le_combine b).
Proof. intros Ha Hb. split; [by apply sc_add_ok |]. split; [by apply sc_sub_ok | by apply sc_mul_ok]. Qed.

(** The fused routines [sc_muladd] and [sc_mulsub] return the bytes that
    [sc_mul] followed by [sc_add] and by [sc_sub] returns. *)
Theorem sc_fused_equiv a b c : is_bytes 32 a -> is_bytes 32 b -> is_bytes 32 c ->
  sc_muladd a b c = (t ← sc_mul a b; sc_add c t) /\ sc_mulsub a b c = (t ← sc_mul a b; sc_sub c t).
Proof.
  intros Ha Hb Hc. split.
  - eapply computes_eq; [by apply sc_muladd_ok | | reflexivity].
    eapply computes_bind; [by apply sc_mul_ok |]. intros s Hs Vs.
    eapply computes_mod; [by apply sc_add_ok |]. by rewrite Vs, Zplus_mod_idemp_r.
  - eapply computes_eq; [by apply sc_mulsub_ok | | reflexivity].
    eapply computes_bind; [by apply sc_mul_ok |]. intros s Hs Vs.
    eapply computes_mod; [by apply sc_sub_ok |]. by rewrite Vs, Zminus_mod_idemp_r.
Qed.

(** [sc_check] accepts exactly the canonical scalars, the values below the
    group order, and [sc_isnonzero] is zero exactly on the value zero; a result
    of [sc_reduce32] always passes [sc_check]. *)
Theorem sc_check_correct s : is_bytes 32 s ->
  sc_check s = (if le_combine s <? ell then 0 else -1) /\
  sc_isnonzero s = (if le_combine s =? 0 then 0 else 1) /\
  yields (sc_reduce32 s) (fun t => sc_check t = 0).
Proof.
  intros Hs. split; [by apply sc_check_ok |]. split; [by apply sc_isnonzero_ok |].
  destruct (sc_reduce32_ok s Hs) as (t & -> & Ht & Vt). apply yields_ret.
  rewrite sc_check_ok, Vt by done.
  destruct (Z.ltb_spec (le_combine s mod ell) ell) as [| H]; [done |].
  pose proof (Z.mod_pos_bound (le_combine s) ell ltac:(done)). lia.
Qed.

(** The operands of the witnesses: [2^255 - 1] and [ell]. *)
Definition big_scalar : list Z := replicate 31 255 ++ [127].
Definition ell_bytes : list Z := le_split 32 ell.

Lemma big_scalar_bytes : is_bytes 32 big_scalar.
Proof. split; [done |]. repeat constructor; done. Qed.

Lemma ell_bytes_bytes : is_bytes 32 ell_bytes.
Proof. apply le_split_bytes. Qed.

Lemma sc_reduce_witness :
  computes (sc_reduce (big_scalar ++ ell_bytes)) (le_combine (big_scalar ++ ell_bytes)) /\
  sc_reduce32 big_scalar = Some (le_split 32 ((2 ^ 255 - 1) mod ell)).
Proof.
  assert (H64 : is_bytes 64 (big_scalar ++ ell_bytes)).
  { split; [done |]. apply Forall_app. split; [apply big_scalar_bytes | apply ell_bytes_bytes]. }
  destruct (sc_reduce_correct _ _ H64 big_scalar_bytes) as (E & _ & F).
  split; [exact E |]. rewrite <- F. vm_compute. reflexivity.
Defined.

Lemma sc_ring_witness : computes (sc_add big_scalar ell_bytes) (2 ^ 255 - 1) /\ sc_mul big_scalar ell_bytes = Some (replicate 32 0).
Proof.
  destruct (sc_ring_correct _ _ big_scalar_bytes ell_bytes_bytes) as ((s & E & B & V) & _ & _).
  split; [exists s; split; [exact E |]; split; [exact B |]; rewrite V; vm_compute; reflexivity | vm_compute; reflexivity].
Defined.

Lemma sc_fused_witness : sc_muladd big_scalar ell_bytes big_scalar = sc_reduce32 big_scalar.
Proof.
  destruct (sc_fused_equiv _ _ _ big_scalar_bytes ell_bytes_bytes big_scalar_bytes) as [E _].
  rewrite E. vm_compute. reflexivity.
Defined.

Lemma sc_check_witness : sc_check big_scalar = -1 /\ sc_check ell_bytes = -1 /\ sc_check (le_split 32 (ell - 1)) = 0.
Proof.
  destruct (sc_check_correct _ big_scalar_bytes) as [E _]. destruct (sc_check_correct _ ell_bytes_bytes) as [F _].
  split; [rewrite E; reflexivity |]. split; [rewrite F; reflexivity | reflexivity].
Defined.
End ScalarCorrect.
