(* ===== verification/Primes.v ===== *)
(** Primality of [2^255 - 19] by Pocklington certificates.

    The group and field routines of src/crypto/crypto-ops.c take inverses and
    square roots by exponentiation, which is correct because the modulus is
    prime.  The certificates are checked by computation. *)
From Stdlib Require Import Znumtheory Zpow_facts.
From Stdlib Require ZmodInv.
From S2P Require Import Prelude.

Local Open Scope Z_scope.

Module Primes.

(** ** Trial division *)

Fixpoint no_divisor (fuel : nat) (d n : Z) : bool :=
  match fuel with
  | O => false
  | S fuel => if n <? d * d then true else negb (n mod d =? 0) && no_divisor fuel (d + 1) n
  end.

Lemma no_divisor_ok fuel d n :
  1 < d -> no_divisor fuel d n = true -> forall k, d <= k -> k * k <= n -> ~ (k | n).
Proof.
  revert d. induction fuel as [| fuel IH]; intros d Hd H k Hk Hkn; [done |]. simpl in H.
  destruct (Z.ltb_spec n (d * d)); [nia |].
  apply andb_true_iff in H as [H1 H2]. destruct (Z.eq_dec k d) as [-> |].
  - intros Hdiv. apply Z.mod_divide in Hdiv; [| lia]. rewrite Hdiv in H1. done.
  - apply (IH (d + 1)); [lia | done | lia | done].
Qed.

(** A composite number has a divisor up to its square root. *)
Lemma prime_of_small n : 1 < n -> (forall k, 1 < k -> k * k <= n -> ~ (k | n)) -> Z.prime n.
Proof.
  intros Hn H. split; [done |]. intros k Hk [m Hm].
  assert (1 < m < n) by nia.
  destruct (Z.le_gt_cases (k * k) n).
  - apply (H k); [lia | done | by exists m].
  - apply (H m); [lia | nia | exists k; lia].
Qed.

Definition small_prime (n : Z) : bool := (1 <? n) && no_divisor 300 2 n.

Lemma small_prime_ok n : small_prime n = true -> Z.prime n.
Proof.
  intros [H1%Z.ltb_lt H2]%andb_true_iff. apply prime_of_small; [done |].
  intros k Hk. apply (no_divisor_ok 300 2); [lia | done | lia].
Qed.

Lemma prime_divisor n : 1 < n -> exists d, Z.prime d /\ (d | n).
Proof.
  intros Hn. assert (H0 : 0 <= n) by lia. revert n H0 Hn.
  apply (Z_lt_induction (fun n => 1 < n -> exists d, Z.prime d /\ (d | n))).
  intros x IH Hx. destruct (prime_dec x) as [Hp | Hp].
  - exists x. split; [by apply prime_alt in Hp | reflexivity].
  - destruct (not_prime_divide x Hx Hp) as (m & Hm & Hd).
    destruct (IH m) as (d & Pd & Dd); [lia | lia |].
    exists d. split; [done |]. by transitivity m.
Qed.

(** ** Pocklington's criterion *)

Section Pocklington.
Context (n a : Z) (Hn : 1 < n) (Ha : a ^ (n - 1) mod n = 1).

Lemma pock_order d q :
  Z.prime d -> (d | n) -> Z.prime q -> (q | n - 1) ->
  Z.gcd (a ^ ((n - 1) / q) - 1) n = 1 -> (q | d - 1).
Proof.
  intros Pd Dd Pq Dq Hg.
  assert (Hd : 1 < d) by apply Pd. assert (Hq : 1 < q) by apply Pq.
  destruct (Zdivide_dec q (d - 1)) as [| Hnd]; [done | exfalso].
  set (b := a ^ ((n - 1) / q)) in *.
  destruct Dq as [m Hm]. assert (Hmq : (n - 1) / q = m) by (rewrite Hm; apply Z.div_mul; lia).
  assert (Hbq : b ^ q ≡⟨ d ⟩ 1).
  { unfold b. rewrite Hmq, <- Z.pow_mul_r by nia. rewrite <- Hm.
    destruct Dd as [c Hc]. assert (a ^ (n - 1) ≡⟨ n ⟩ 1) as [e He].
    { apply eqm_mod; [lia |]. rewrite Ha. symmetry. apply Z.mod_small. lia. }
    exists (e * c). rewrite He, Hc at 1. ring. }
  assert (Hb0 : b mod d <> 0).
  { intros E. assert (b ≡⟨ d ⟩ 0) as Eb by (apply eqm_mod; [lia |]; by rewrite E, Zmod_0_l).
    rewrite Eb, Z.pow_0_l in Hbq by lia. apply eqm_mod in Hbq; [| lia].
    rewrite Zmod_0_l, Z.mod_small in Hbq; lia. }
  assert (Hfer : b ^ (d - 1) ≡⟨ d ⟩ 1).
  { apply eqm_mod; [lia |]. rewrite (ZmodInv.Z.fermat_nz d b Pd Hb0), Z.mod_small; lia. }
  assert (Hrel : rel_prime q (d - 1)).
  { apply prime_rel_prime; [by apply prime_alt | done]. }
  destruct (rel_prime_bezout _ _ Hrel) as [u v Huv].
  set (u' := u mod (d - 1) + (d - 1)).
  assert (exists w, 0 <= w /\ u' * q = 1 + w * (d - 1)) as (w & Hw & E).
  { pose proof (Z.mod_pos_bound u (d - 1) ltac:(lia)).
    pose proof (Z.div_mod u (d - 1) ltac:(lia)).
    exists (- v - (u / (d - 1)) * q + q). unfold u'. split; nia. }
  assert (b ≡⟨ d ⟩ 1) as Hb1.
  { transitivity (b ^ (u' * q)).
    - rewrite E, Z.pow_add_r, Z.pow_1_r, (Z.mul_comm w), Z.pow_mul_r, Hfer, Z.pow_1_l by nia.
      by rewrite Z.mul_1_r.
    - rewrite (Z.mul_comm u'), Z.pow_mul_r, Hbq, Z.pow_1_l; [done | ..]; unfold u';
        pose proof (Z.mod_pos_bound u (d - 1) ltac:(lia)); lia. }
  assert (d | 1) as D1 by (rewrite <- Hg; apply Z.gcd_greatest; [exact Hb1 | exact Dd]).
  apply Z.divide_1_r_nonneg in D1; lia.
Qed.

Definition product (qs : list Z) : Z := foldr Z.mul 1 qs.

Lemma product_divides qs x :
  Forall Z.prime qs -> NoDup qs -> Forall (fun q => (q | x)) qs -> (product qs | x).
Proof.
  induction 1 as [| q qs Pq Pqs IH]; simpl; intros Hnd Hx; [apply Z.divide_1_l |].
  inversion Hnd; inversion Hx; subst.
  assert (Hrel : forall l, Forall Z.prime l -> q ∉ l -> rel_prime q (product l)).
  { induction 1 as [| r l Pr Pl IHl]; simpl; intros Hin; [apply rel_prime_sym, rel_prime_1 |].
    apply rel_prime_mult; [| apply IHl; by intros ?; apply Hin; right].
    apply prime_rel_prime; [by apply prime_alt |]. intros D.
    apply prime_divisors in D; [| by apply prime_alt].
    assert (1 < q) by apply Pq. assert (1 < r) by apply Pr.
    assert (r <> q) by (intros ->; apply Hin; left). lia. }
  destruct (IH ltac:(done) ltac:(done)) as [c Hc].
  assert (Dq : (q | c)).
  { apply (Gauss q (product qs) c); [| by apply Hrel]. rewrite Z.mul_comm, <- Hc. done. }
  destruct Dq as [e He]. exists e. rewrite Hc, He. ring.
Qed.

Lemma pocklington qs :
  Forall Z.prime qs -> NoDup qs ->
  Forall (fun q => (q | n - 1) /\ Z.gcd (a ^ ((n - 1) / q) - 1) n = 1) qs ->
  n < (product qs + 1) * (product qs + 1) -> Z.prime n.
Proof.
  intros Pqs Hnd Hqs HF. apply prime_of_small; [done |]. intros k Hk Hkk Hkn.
  destruct (prime_divisor k Hk) as (d & Pd & Dd).
  assert (D : (product qs | d - 1)).
  { apply product_divides; [done | done |]. apply Forall_forall. intros q Hq.
    rewrite Forall_forall in Hqs, Pqs. destruct (Hqs q Hq).
    apply pock_order; auto. by transitivity k. }
  assert (1 < d) by apply Pd. apply Z.divide_pos_le in D; [| lia]. apply Z.divide_pos_le in Dd; [| lia].
  assert (0 < product qs); [| nia]. clear -Pqs. induction Pqs as [| q qs Pq _ IH]; simpl; [lia |].
  assert (1 < q) by apply Pq. nia.
Qed.
End Pocklington.

Definition pock_check (n a : Z) (qs : list Z) : bool :=
  (1 <? n) && (Zpow_mod a (n - 1) n =? 1) && bool_decide (NoDup qs) &&
  forallb (fun q => ((n - 1) mod q =? 0) && (Z.gcd (Zpow_mod a ((n - 1) / q) n - 1) n =? 1)) qs &&
  (n <? (product qs + 1) * (product qs + 1)).

Lemma pock_check_ok n a qs : Forall Z.prime qs -> pock_check n a qs = true -> Z.prime n.
Proof.
  intros Pqs H. unfold pock_check in H. rewrite !andb_true_iff in H.
  destruct H as [[[[H1%Z.ltb_lt H2%Z.eqb_eq] H3%bool_decide_eq_true] H4] H5%Z.ltb_lt].
  rewrite Zpow_mod_correct in H2 by lia.
  apply (pocklington n a H1 H2 qs Pqs H3); [| done].
  rewrite forallb_forall in H4. apply Forall_forall. intros q Hq.
  assert (Hq0 : 1 < q) by (rewrite Forall_forall in Pqs; apply (Pqs q Hq)).
  apply H4, andb_true_iff in Hq as [D%Z.eqb_eq G%Z.eqb_eq].
  split; [apply Z.mod_divide; lia |]. rewrite Zpow_mod_correct in G by lia.
  etransitivity; [| exact G]. generalize (a ^ ((n - 1) / q)). intros x.
  rewrite (Z.gcd_comm (x - 1)), (Z.gcd_comm (x mod n - 1)).
  rewrite <- (Z.gcd_mod (x - 1)), <- (Z.gcd_mod (x mod n - 1)) by lia. by rewrite Zminus_mod_idemp_l.
Qed.

(** ** The certificates *)

Ltac small := apply small_prime_ok; vm_compute; reflexivity.
Ltac pock a qs := apply (pock_check_ok _ a qs); [repeat (constructor; [first [assumption | small] |]); constructor | vm_compute; reflexivity].

Lemma prime_25519 : Z.prime (2 ^ 255 - 19).
Proof.
  assert (Z.prime 8574133) by (pock 2 [991; 103]).
  assert (Z.prime 1919519569386763) by (pock 2 [8574133; 127]).
  assert (Z.prime 569003) by (pock 2 [419; 97]).
  assert (Z.prime 2773320623) by (pock 2 [569003]).
  assert (Z.prime 72106336199) by (pock 2 [2773320623]).
  assert (Z.prime 75445702479781427272750846543864801) by (pock 2 [1919519569386763; 72106336199]).
  assert (Z.prime 430751) by (pock 2 [1723]).
  assert (Z.prime 31757755568855353) by (pock 2 [430751; 4153]).
  assert (Z.prime 74058212732561358302231226437062788676166966415465897661863160754340907)
    by (pock 2 [75445702479781427272750846543864801; 31757755568855353]).
  pock 2 [74058212732561358302231226437062788676166966415465897661863160754340907].
Qed.
End Primes.
