(* ===== verification/Group.v ===== *)
(** Abelian groups up to an equivalence, as an interface: the curve provides an
    instance, the scalar multiplications of src/crypto/crypto-ops.c are proved
    against it.  [smul] is multiplication by an integer. *)
From S2P Require Import Prelude.

Local Open Scope Z_scope.

Module Group.

Class AbGroup (A : Type) := {
  geq : A -> A -> Prop;
  gadd : A -> A -> A;
  gzero : A;
  gopp : A -> A;
  geq_equivalence :: Equivalence geq;
  gadd_proper :: Proper (geq ==> geq ==> geq) gadd;
  gopp_proper :: Proper (geq ==> geq) gopp;
  gadd_assoc a b c : geq (gadd a (gadd b c)) (gadd (gadd a b) c);
  gadd_comm a b : geq (gadd a b) (gadd b a);
  gadd_0_r a : geq (gadd a gzero) a;
  gadd_opp_r a : geq (gadd a (gopp a)) gzero
}.

Declare Scope group_scope.
Delimit Scope group_scope with grp.
Infix "≃" := geq (at level 70) : group_scope.
Infix "⊕" := gadd (at level 50, left associativity) : group_scope.

Section Multiples.
Context {A : Type} `{AbGroup A}.
Local Open Scope group_scope.

Lemma gadd_0_l a : gzero ⊕ a ≃ a.
Proof. by rewrite gadd_comm, gadd_0_r. Qed.

Lemma gadd_opp_l a : gopp a ⊕ a ≃ gzero.
Proof. by rewrite gadd_comm, gadd_opp_r. Qed.

Lemma gadd_cancel_r a b c : a ⊕ c ≃ b ⊕ c -> a ≃ b.
Proof.
  intros E. rewrite <- (gadd_0_r a), <- (gadd_0_r b), <- (gadd_opp_r c).
  by rewrite !gadd_assoc, E.
Qed.

Lemma gopp_unique a b : a ⊕ b ≃ gzero -> a ≃ gopp b.
Proof. intros E. apply (gadd_cancel_r _ _ b). by rewrite E, gadd_opp_l. Qed.

Lemma gadd_swap a b c d : (a ⊕ b) ⊕ (c ⊕ d) ≃ (a ⊕ c) ⊕ (b ⊕ d).
Proof. by rewrite !gadd_assoc, <- (gadd_assoc a b c), (gadd_comm b c), gadd_assoc. Qed.

Lemma gopp_add a b : gopp (a ⊕ b) ≃ gopp a ⊕ gopp b.
Proof. symmetry. apply gopp_unique. by rewrite gadd_swap, !gadd_opp_l, gadd_0_r. Qed.

Lemma gopp_0 : gopp gzero ≃ gzero.
Proof. symmetry. apply gopp_unique. apply gadd_0_r. Qed.

Lemma gopp_opp a : gopp (gopp a) ≃ a.
Proof. symmetry. apply gopp_unique, gadd_opp_r. Qed.

Lemma geq_sub a b : a ≃ b <-> a ⊕ gopp b ≃ gzero.
Proof.
  split; [intros ->; apply gadd_opp_r |]. intros E. apply gopp_unique in E. by rewrite gopp_opp in E.
Qed.

(** ** Integer multiples *)

Fixpoint pmul (n : positive) (a : A) : A :=
  match n with
  | xH => a
  | xO n => pmul n a ⊕ pmul n a
  | xI n => (pmul n a ⊕ pmul n a) ⊕ a
  end.

Definition smul (n : Z) (a : A) : A :=
  match n with
  | Z0 => gzero
  | Zpos n => pmul n a
  | Zneg n => gopp (pmul n a)
  end.

#[global] Instance pmul_proper n : Proper (geq ==> geq) (pmul n).
Proof. intros a b E. induction n as [n IH | n IH |]; simpl; by rewrite ?IH, ?E. Qed.

#[global] Instance smul_proper n : Proper (geq ==> geq) (smul n).
Proof. intros a b E. destruct n; simpl; by rewrite ?E. Qed.

Lemma pmul_succ n a : pmul (Pos.succ n) a ≃ pmul n a ⊕ a.
Proof.
  induction n as [n IH | n IH |]; simpl; [| done | done].
  rewrite IH. rewrite gadd_swap. by rewrite gadd_assoc.
Qed.

Lemma smul_succ n a : smul (Z.succ n) a ≃ smul n a ⊕ a.
Proof.
  destruct n as [| n | n]; simpl.
  - by rewrite gadd_0_l.
  - rewrite Pos.add_1_r. apply pmul_succ.
  - destruct (Pos.eq_dec n 1%positive) as [-> | Hn]; simpl; [by rewrite gadd_opp_l |].
    rewrite <- (Pos.succ_pred n Hn). generalize (Pos.pred n). intros m.
    replace (Z.succ (Zneg (Pos.succ m))) with (Zneg m) by lia. simpl.
    by rewrite pmul_succ, gopp_add, <- gadd_assoc, gadd_opp_l, gadd_0_r.
Qed.

Lemma smul_pred n a : smul (Z.pred n) a ≃ smul n a ⊕ gopp a.
Proof.
  apply (gadd_cancel_r _ _ a).
  by rewrite <- smul_succ, Z.succ_pred, <- gadd_assoc, gadd_opp_l, gadd_0_r.
Qed.

Lemma smul_add n m a : smul (n + m) a ≃ smul n a ⊕ smul m a.
Proof.
  revert n. apply Z.bi_induction.
  - by intros x y ->.
  - simpl. by rewrite gadd_0_l.
  - intros n. rewrite Z.add_succ_l, !smul_succ. split; intros E.
    + by rewrite E, <- !gadd_assoc, (gadd_comm a).
    + apply (gadd_cancel_r _ _ a). by rewrite E, <- !gadd_assoc, (gadd_comm a).
Qed.

Lemma smul_opp n a : smul (- n) a ≃ gopp (smul n a).
Proof. apply gopp_unique. by rewrite <- smul_add, Z.add_opp_diag_l. Qed.

Lemma smul_1 a : smul 1 a ≃ a.
Proof. done. Qed.

Lemma smul_double n a : smul (2 * n) a ≃ smul n a ⊕ smul n a.
Proof. replace (2 * n) with (n + n) by lia. apply smul_add. Qed.

Lemma smul_mul n m a : smul (n * m) a ≃ smul n (smul m a).
Proof.
  revert n. apply Z.bi_induction.
  - by intros x y ->.
  - done.
  - intros n. rewrite Z.mul_succ_l, smul_add, smul_succ. split; intros E.
    + by rewrite E.
    + by apply (gadd_cancel_r _ _ (smul m a)).
Qed.

Lemma smul_gadd n a b : smul n (a ⊕ b) ≃ smul n a ⊕ smul n b.
Proof.
  revert n. apply Z.bi_induction.
  - by intros x y ->.
  - simpl. by rewrite gadd_0_r.
  - intros n. rewrite !smul_succ. split; intros E.
    + by rewrite E, gadd_swap.
    + apply (gadd_cancel_r _ _ (a ⊕ b)). by rewrite E, gadd_swap.
Qed.

Lemma smul_0 n : smul n gzero ≃ gzero.
Proof.
  apply (gadd_cancel_r _ _ (smul n gzero)). by rewrite <- smul_gadd, gadd_0_l, gadd_0_l.
Qed.

(** ** Sums of weighted terms, as a loop from the top digit down computes them *)

Fixpoint wsum (B : Z) (n : nat) (D : nat -> A) : A :=
  match n with
  | O => gzero
  | S n => wsum B n D ⊕ smul (B ^ Z.of_nat n) (D n)
  end.

Lemma wsum_horner B n (D : nat -> A) Q : 
  smul (B ^ Z.of_nat n) (smul B Q ⊕ D n) ⊕ wsum B n D ≃ smul (B ^ Z.of_nat (S n)) Q ⊕ wsum B (S n) D.
Proof.
  simpl wsum. rewrite Nat2Z.inj_succ, Z.pow_succ_r, (Z.mul_comm B) by lia.
  rewrite smul_gadd, <- smul_mul, <- gadd_assoc. by rewrite (gadd_comm (smul _ (D n))).
Qed.

Lemma wsum_proper B n (D E : nat -> A) :
  (forall i, (i < n)%nat -> D i ≃ E i) -> wsum B n D ≃ wsum B n E.
Proof.
  induction n as [| n IH]; intros H0; simpl; [done |].
  rewrite IH by (intros; apply H0; lia). by rewrite (H0 n) by lia.
Qed.

Lemma wsum_add B n (D E : nat -> A) : wsum B n (fun i => D i ⊕ E i) ≃ wsum B n D ⊕ wsum B n E.
Proof.
  induction n as [| n IH]; simpl; [by rewrite gadd_0_r |]. by rewrite IH, smul_gadd, gadd_swap.
Qed.
End Multiples.

End Group.
