(* ===== verification/GroupSolve.v ===== *)
(** A tactic for equations in an abelian group: both sides are combinations of the same
    points with integer coefficients. [glin] leaves the equations of the coefficients to
    [ring]; [glin_mod] leaves them, up to a multiple of the order of the points. *)
From S2P Require Import Prelude Group.

Local Open Scope Z_scope.

Module GroupSolve.
Import Group.
Local Open Scope group_scope.

Inductive gexp :=
  | GAtom (i : nat)
  | GZero
  | GAdd (a b : gexp)
  | GOpp (a : gexp)
  | GSmul (n : Z) (a : gexp).

(** The coefficient of the point [i]. *)
Fixpoint coef (e : gexp) (i : nat) : Z :=
  match e with
  | GAtom j => if (i =? j)%nat then 1 else 0
  | GZero => 0
  | GAdd a b => coef a i + coef b i
  | GOpp a => - coef a i
  | GSmul n a => n * coef a i
  end.

Section Denote.
Context {A : Type} `{AbGroup A}.

Fixpoint den (env : list A) (e : gexp) : A :=
  match e with
  | GAtom i => nth i env gzero
  | GZero => gzero
  | GAdd a b => den env a ⊕ den env b
  | GOpp a => gopp (den env a)
  | GSmul n a => smul n (den env a)
  end.

(** The combination of the points with the coefficients from the index [j] on. *)
Fixpoint comb_from (f : nat -> Z) (j : nat) (env : list A) : A :=
  match env with [] => gzero | P :: env => smul (f j) P ⊕ comb_from f (S j) env end.

Lemma comb_add f g j env : comb_from f j env ⊕ comb_from g j env ≃ comb_from (fun i => f i + g i) j env.
Proof.
  revert j. induction env as [| P env IH]; intros j; cbn [comb_from]; [apply gadd_0_l |].
  by rewrite <- IH, smul_add, gadd_swap.
Qed.

Lemma comb_scale n f j env : smul n (comb_from f j env) ≃ comb_from (fun i => n * f i) j env.
Proof.
  revert j. induction env as [| P env IH]; intros j; cbn [comb_from]; [apply smul_0 |].
  by rewrite smul_gadd, IH, smul_mul.
Qed.

Lemma comb_zero f j env : (forall i, (j <= i)%nat -> f i = 0) -> comb_from f j env ≃ gzero.
Proof.
  revert j. induction env as [| P env IH]; intros j E; cbn [comb_from]; [done |].
  rewrite IH by (intros; apply E; lia). rewrite E by lia. apply gadd_0_l.
Qed.

Lemma comb_single i j env : (j <= i)%nat -> comb_from (fun k => if (k =? i)%nat then 1 else 0) j env ≃ nth (i - j) env gzero.
Proof.
  revert j. induction env as [| P env IH]; intros j Hj; cbn [comb_from]; [by destruct (i - j)%nat |].
  destruct (Nat.eqb_spec j i) as [-> | N].
  - rewrite Nat.sub_diag, smul_1. cbn [nth]. rewrite comb_zero; [apply gadd_0_r |].
    intros k Hk. by rewrite (proj2 (Nat.eqb_neq _ _)) by lia.
  - rewrite IH by lia. replace (i - j)%nat with (S (i - S j)) by lia. cbn [nth]. apply gadd_0_l.
Qed.

Lemma comb_ext f g j env : map f (seq j (length env)) = map g (seq j (length env)) -> comb_from f j env ≃ comb_from g j env.
Proof.
  revert j. induction env as [| P env IH]; intros j E; cbn [comb_from]; [done |]. cbn [length seq map] in E. injection E as E1 E2.
  by rewrite E1, (IH _ E2).
Qed.

Lemma den_comb env e : den env e ≃ comb_from (coef e) 0 env.
Proof.
  induction e as [i | | a IHa b IHb | a IHa | n a IHa]; cbn [den coef].
  - rewrite comb_single by lia. by rewrite Nat.sub_0_r.
  - symmetry. by apply comb_zero.
  - rewrite IHa, IHb. apply comb_add.
  - rewrite IHa, <- (smul_1 (comb_from _ _ _)), <- smul_opp, comb_scale. apply comb_ext, map_ext. intros i. lia.
  - rewrite IHa. apply comb_scale.
Qed.

Lemma glin_eq env e1 e2 : map (coef e1) (seq 0 (length env)) = map (coef e2) (seq 0 (length env)) -> den env e1 ≃ den env e2.
Proof. intros E. rewrite !den_comb. by apply comb_ext. Qed.

Lemma comb_ext_mod m f g j env : Forall (fun P => smul m P ≃ gzero) env ->
  Forall2 (fun x y => x mod m = y mod m) (map f (seq j (length env))) (map g (seq j (length env))) -> comb_from f j env ≃ comb_from g j env.
Proof.
  intros Hm. revert j. induction Hm as [| P env HP _ IH]; intros j E; cbn [comb_from]; [done |]. cbn [length seq map] in E.
  inversion E as [| ? ? ? ? E1 E2]; subst. rewrite (IH _ E2). apply gadd_proper; [| done].
  assert (M : forall x, smul x P ≃ smul (x mod m) P).
  { intros x. rewrite (Z_div_mod_eq_full x m) at 1. rewrite smul_add, Z.mul_comm, smul_mul, HP, smul_0. apply gadd_0_l. }
  by rewrite (M (f j)), (M (g j)), E1.
Qed.

Lemma glin_mod_eq m env e1 e2 : Forall (fun P => smul m P ≃ gzero) env ->
  Forall2 (fun x y => x mod m = y mod m) (map (coef e1) (seq 0 (length env))) (map (coef e2) (seq 0 (length env))) -> den env e1 ≃ den env e2.
Proof. intros Hm E. rewrite !den_comb. by apply (comb_ext_mod m). Qed.
End Denote.

Ltac position x l :=
  lazymatch l with
  | x :: _ => constr:(O)
  | _ :: ?l => let n := position x l in constr:(S n)
  end.

Ltac add_atom x l :=
  match l with
  | _ => let n := position x l in l
  | _ => let r := eval cbv [app] in (l ++ [x]) in r
  end.

Ltac atoms e l :=
  lazymatch e with
  | gadd ?a ?b => let l := atoms a l in atoms b l
  | gopp ?a => atoms a l
  | smul ?n ?a => atoms a l
  | gzero => l
  | _ => add_atom e l
  end.

Ltac reify e l :=
  lazymatch e with
  | gadd ?a ?b => let x := reify a l in let y := reify b l in constr:(GAdd x y)
  | gopp ?a => let x := reify a l in constr:(GOpp x)
  | smul ?n ?a => let x := reify a l in constr:(GSmul n x)
  | gzero => constr:(GZero)
  | _ => let n := position e l in constr:(GAtom n)
  end.

Ltac glin_with lem :=
  lazymatch goal with
  | |- @geq ?A ?G ?a ?b =>
      let l := atoms a (@nil A) in let l := atoms b l in
      let x := reify a l in let y := reify b l in
      change (den l x ≃ den l y)%grp; lem l x y; cbn [coef length seq map Nat.eqb]
  end.

Ltac glin := glin_with ltac:(fun l x y => apply (glin_eq l x y)); repeat (apply f_equal2; [ring |]); try reflexivity.

(** The points are of the order [m]: the equations of the coefficients are left, up to [m]. *)
Ltac glin_mod m := glin_with ltac:(fun l x y => apply (glin_mod_eq m l x y)).
End GroupSolve.
