(* ===== verification/GroupSum.v ===== *)
(** Sums of families of points, indexed by the naturals below a bound. *)
From S2P Require Import Prelude Group GroupSolve.

Local Open Scope Z_scope.

Module GroupSum.
Import Group GroupSolve.
Local Open Scope group_scope.

Section Sum.
Context {A : Type} `{AbGroup A}.

Fixpoint sumg (n : nat) (F : nat -> A) : A := match n with O => gzero | S n => sumg n F ⊕ F n end.

Lemma sumg_ext n F G : (forall i, (i < n)%nat -> F i ≃ G i) -> sumg n F ≃ sumg n G.
Proof. induction n as [| n IH]; intros E; cbn [sumg]; [done |]. by rewrite IH, E by auto. Qed.

Lemma sumg_add n F G : sumg n (fun i => F i ⊕ G i) ≃ sumg n F ⊕ sumg n G.
Proof. induction n as [| n IH]; cbn [sumg]; [by rewrite gadd_0_l |]. rewrite IH. apply gadd_swap. Qed.

Lemma sumg_smul n c F : sumg n (fun i => smul c (F i)) ≃ smul c (sumg n F).
Proof. induction n as [| n IH]; cbn [sumg]; [by rewrite smul_0 |]. by rewrite IH, smul_gadd. Qed.

Lemma sumg_zero n F : (forall i, (i < n)%nat -> F i ≃ gzero) -> sumg n F ≃ gzero.
Proof. induction n as [| n IH]; intros E; cbn [sumg]; [done |]. rewrite IH, E by auto. apply gadd_0_l. Qed.

Lemma sumg_first n F : sumg (S n) F ≃ F 0%nat ⊕ sumg n (fun i => F (S i)).
Proof. induction n as [| n IH]; [cbn [sumg]; glin |]. cbn [sumg] in *. rewrite IH. glin. Qed.

Lemma sumg_split n m F : sumg (n + m) F ≃ sumg n F ⊕ sumg m (fun i => F (n + i)%nat).
Proof.
  induction m as [| m IH]; cbn [sumg]; [rewrite Nat.add_0_r; glin |]. rewrite Nat.add_succ_r. cbn [sumg]. rewrite IH. glin.
Qed.

(** A sum that stops early, as one over a longer range. *)
Lemma sumg_restrict n m F : (n <= m)%nat -> sumg m (fun i => if (i <? n)%nat then F i else gzero) ≃ sumg n F.
Proof.
  intros Hn. replace m with (n + (m - n))%nat by lia. rewrite sumg_split, (sumg_ext n _ F), (sumg_zero (m - n)).
  - apply gadd_0_r.
  - intros i Hi. by rewrite (proj2 (Nat.ltb_ge _ _)) by lia.
  - intros i Hi. by rewrite (proj2 (Nat.ltb_lt _ _)) by lia.
Qed.
End Sum.
End GroupSum.
