(* ===== verification/Fe.v ===== *)
(** Field elements modulo [p = 2^255 - 19]: the [fe_*] functions of
    src/crypto/crypto-ops.c.

    An element is an array of ten signed 32-bit limbs, the limb [i] with weight
    [2^ceil(25.5 i)].  Additions are limbwise; products are tables of 64-bit
    products of limbs, some of them multiplied by 2, 19 or 38 beforehand in
    32 bits, followed by a chain of carries.  A function returns [None] where a
    signed operation of the C code would overflow its 32 or 64 bits. *)
From S2P Require Import Prelude Limbs Pack.

Local Open Scope Z_scope.

Module Fe.
Import Limbs Pack.

Definition p25519 : Z := 2 ^ 255 - 19.

(** ** Constants, copies and limbwise operations *)

Definition fe_0 : list Z := [0; 0; 0; 0; 0; 0; 0; 0; 0; 0].
Definition fe_1 : list Z := [1; 0; 0; 0; 0; 0; 0; 0; 0; 0].

Definition fe_add (f g : list Z) : option (list Z) :=
  mapM (fun i => i32 (at_ f i + at_ g i)) (seq 0 10).

Definition fe_sub (f g : list Z) : option (list Z) :=
  mapM (fun i => i32 (at_ f i - at_ g i)) (seq 0 10).

Definition fe_neg (f : list Z) : option (list Z) :=
  mapM (fun i => i32 (- at_ f i)) (seq 0 10).

Definition fe_copy (f : list Z) : list Z := map (at_ f) (seq 0 10).

(** The conversion of an [unsigned int] to [int32_t]. *)
Definition to_i32 (z : Z) : Z := if z <? 2 ^ 31 then z else z - 2 ^ 32.

(** The assertion on [b] holds for 0 and 1 only; with [b] an unsigned integer,
    the mask [-b] is 0 or all ones. *)
Definition fe_cmov (f g : list Z) (b : Z) : option (list Z) :=
  if Z.lor (Z.land (u32 (b - 1)) (u32 (Z.lnot b)))
           (Z.land (u32 (b - 2)) (u32 (Z.lnot (u32 (b - 1))))) =? 2 ^ 32 - 1
  then
    let m := to_i32 (u32 (- b)) in
    Some (map (fun i => Z.lxor (at_ f i) (Z.land (Z.lxor (at_ f i) (at_ g i)) m)) (seq 0 10))
  else None.

(** ** Tables of products

    An operand [(c, i)] is [c] times the variable [i], read from the list of
    the values computed beforehand unless [c = 1]. *)

Definition operand : Set := Z * nat.

Definition precompute (v : list Z) (ops : list operand) : option (list (operand * Z)) :=
  mapM (fun o : operand => x ← i32 (o.1 * at_ v o.2); Some (o, x)) ops.

Definition operand_eqb (o o' : operand) : bool := (o.1 =? o'.1) && (o.2 =? o'.2)%nat.

Fixpoint find_operand (env : list (operand * Z)) (o : operand) : option Z :=
  match env with
  | [] => None
  | (o', x) :: env => if operand_eqb o o' then Some x else find_operand env o
  end.

Definition read (v : list Z) (env : list (operand * Z)) (o : operand) : option Z :=
  if o.1 =? 1 then v !! o.2 else find_operand env o.

Definition read_pair (v : list Z) (env : list (operand * Z)) (t : operand * operand) : option (Z * Z) :=
  a ← read v env t.1; b ← read v env t.2; Some (a, b).

Definition row_sum (v : list Z) (env : list (operand * Z)) (row : list (operand * operand)) : option Z :=
  ps ← mapM (read_pair v env) row; mac 64 0 ps.

Definition product_rows (ops : list operand) (tbl : list (list (operand * operand))) (v : list Z)
  : option (list Z) :=
  env ← precompute v ops; mapM (row_sum v env) tbl.

(** The twelve carries that end [fe_mul], [fe_sq] and [fe_sq2]. *)
Definition fe_carries : list instr :=
  [ Carry true 26 0 1 1; Carry true 26 4 5 1;
    Carry true 25 1 2 1; Carry true 25 5 6 1;
    Carry true 26 2 3 1; Carry true 26 6 7 1;
    Carry true 25 3 4 1; Carry true 25 7 8 1;
    Carry true 26 4 5 1; Carry true 26 8 9 1;
    Carry true 25 9 0 19;
    Carry true 26 0 1 1 ].

(** The stores [h[i] = h_i] convert to 32 bits; a value that does not fit is an
    error here, since the theorems exclude it. *)
Definition store_i32 (h : list Z) : option (list Z) := mapM i32 h.

(** ** Multiplication: the variables are [f0..f9] and [g0..g9], at 10 and up. *)

Definition g_ (c : Z) (j : nat) : operand := (c, (10 + j)%nat).

Definition fe_mul_ops : list operand :=
  map (g_ 19) [1; 2; 3; 4; 5; 6; 7; 8; 9]%nat ++ map (fun i => (2, i)) [1; 3; 5; 7; 9]%nat.

(** The term of [f_i] in the sum [h_k]: [f_i] is doubled when [i] and [j] are
    both odd, [g_j] is multiplied by 19 when [i + j] exceeds 9. *)
Definition fe_mul_term (k i : nat) : operand * operand :=
  let j := ((10 + k - i) mod 10)%nat in
  ((if Nat.odd i && Nat.odd j then 2 else 1, i), g_ (if (k <? i)%nat then 19 else 1) j).

Definition fe_mul_table : list (list (operand * operand)) :=
  map (fun k => map (fe_mul_term k) (seq 0 10)) (seq 0 10).

Definition fe_mul (f g : list Z) : option (list Z) :=
  h ← product_rows fe_mul_ops fe_mul_table (f ++ g);
  h ← run 64 fe_carries h;
  store_i32 h.

(** ** Squaring *)

Definition fe_sq_ops : list operand :=
  [ (2, 0%nat); (2, 1%nat); (2, 2%nat); (2, 3%nat); (2, 4%nat); (2, 5%nat); (2, 6%nat); (2, 7%nat);
    (38, 5%nat); (19, 6%nat); (38, 7%nat); (19, 8%nat); (38, 9%nat) ].

(** [x c i * y] is written as in the C code, [f1_2] for [(2, 1)]. *)
Definition fe_sq_table : list (list (operand * operand)) :=
  let f0 := (1, 0%nat) in let f1 := (1, 1%nat) in let f2 := (1, 2%nat) in
  let f3 := (1, 3%nat) in let f4 := (1, 4%nat) in let f5 := (1, 5%nat) in
  let f6 := (1, 6%nat) in let f7 := (1, 7%nat) in let f8 := (1, 8%nat) in
  let f9 := (1, 9%nat) in
  let f0_2 := (2, 0%nat) in let f1_2 := (2, 1%nat) in let f2_2 := (2, 2%nat) in
  let f3_2 := (2, 3%nat) in let f4_2 := (2, 4%nat) in let f5_2 := (2, 5%nat) in
  let f6_2 := (2, 6%nat) in let f7_2 := (2, 7%nat) in
  let f5_38 := (38, 5%nat) in let f6_19 := (19, 6%nat) in let f7_38 := (38, 7%nat) in
  let f8_19 := (19, 8%nat) in let f9_38 := (38, 9%nat) in
  [ [(f0, f0); (f1_2, f9_38); (f2_2, f8_19); (f3_2, f7_38); (f4_2, f6_19); (f5, f5_38)];
    [(f0_2, f1); (f2, f9_38); (f3_2, f8_19); (f4, f7_38); (f5_2, f6_19)];
    [(f0_2, f2); (f1_2, f1); (f3_2, f9_38); (f4_2, f8_19); (f5_2, f7_38); (f6, f6_19)];
    [(f0_2, f3); (f1_2, f2); (f4, f9_38); (f5_2, f8_19); (f6, f7_38)];
    [(f0_2, f4); (f1_2, f3_2); (f2, f2); (f5_2, f9_38); (f6_2, f8_19); (f7, f7_38)];
    [(f0_2, f5); (f1_2, f4); (f2_2, f3); (f6, f9_38); (f7_2, f8_19)];
    [(f0_2, f6); (f1_2, f5_2); (f2_2, f4); (f3_2, f3); (f7_2, f9_38); (f8, f8_19)];
    [(f0_2, f7); (f1_2, f6); (f2_2, f5); (f3_2, f4); (f8, f9_38)];
    [(f0_2, f8); (f1_2, f7_2); (f2_2, f6); (f3_2, f5_2); (f4, f4); (f9, f9_38)];
    [(f0_2, f9); (f1_2, f8); (f2_2, f7); (f3_2, f6); (f4_2, f5)] ].

Definition fe_sq (f : list Z) : option (list Z) :=
  h ← product_rows fe_sq_ops fe_sq_table f;
  h ← run 64 fe_carries h;
  store_i32 h.

Definition fe_sq2 (f : list Z) : option (list Z) :=
  h ← product_rows fe_sq_ops fe_sq_table f;
  h ← mapM (fun x => i64 (x + x)) h;
  h ← run 64 fe_carries h;
  store_i32 h.

(** [fe_sq] repeated: the loops of [fe_invert] and [fe_divpowm1]. *)
Fixpoint fe_sq_loop (n : nat) (t : list Z) : option (list Z) :=
  match n with
  | O => Some t
  | S n => t ← fe_sq t; fe_sq_loop n t
  end.

Definition fe_invert (z : list Z) : option (list Z) :=
  t0 ← fe_sq z;
  t1 ← fe_sq t0;
  t1 ← fe_sq t1;
  t1 ← fe_mul z t1;
  t0 ← fe_mul t0 t1;
  t2 ← fe_sq t0;
  t1 ← fe_mul t1 t2;
  t2 ← fe_sq t1;
  t2 ← fe_sq_loop 4 t2;
  t1 ← fe_mul t2 t1;
  t2 ← fe_sq t1;
  t2 ← fe_sq_loop 9 t2;
  t2 ← fe_mul t2 t1;
  t3 ← fe_sq t2;
  t3 ← fe_sq_loop 19 t3;
  t2 ← fe_mul t3 t2;
  t2 ← fe_sq t2;
  t2 ← fe_sq_loop 9 t2;
  t1 ← fe_mul t2 t1;
  t2 ← fe_sq t1;
  t2 ← fe_sq_loop 49 t2;
  t2 ← fe_mul t2 t1;
  t3 ← fe_sq t2;
  t3 ← fe_sq_loop 99 t3;
  t2 ← fe_mul t3 t2;
  t2 ← fe_sq t2;
  t2 ← fe_sq_loop 49 t2;
  t1 ← fe_mul t2 t1;
  t1 ← fe_sq t1;
  t1 ← fe_sq_loop 4 t1;
  fe_mul t1 t0.

(** [r = u * v^3 * (u * v^7)^((p-5)/8)]. *)
Definition fe_divpowm1 (u v : list Z) : option (list Z) :=
  v3 ← fe_sq v;
  v3 ← fe_mul v3 v;
  uv7 ← fe_sq v3;
  uv7 ← fe_mul uv7 v;
  uv7 ← fe_mul uv7 u;
  t0 ← fe_sq uv7;
  t1 ← fe_sq t0;
  t1 ← fe_sq t1;
  t1 ← fe_mul uv7 t1;
  t0 ← fe_mul t0 t1;
  t0 ← fe_sq t0;
  t0 ← fe_mul t1 t0;
  t1 ← fe_sq t0;
  t1 ← fe_sq_loop 4 t1;
  t0 ← fe_mul t1 t0;
  t1 ← fe_sq t0;
  t1 ← fe_sq_loop 9 t1;
  t1 ← fe_mul t1 t0;
  t2 ← fe_sq t1;
  t2 ← fe_sq_loop 19 t2;
  t1 ← fe_mul t2 t1;
  t1 ← fe_sq_loop 10 t1;
  t0 ← fe_mul t1 t0;
  t1 ← fe_sq t0;
  t1 ← fe_sq_loop 49 t1;
  t1 ← fe_mul t1 t0;
  t2 ← fe_sq t1;
  t2 ← fe_sq_loop 99 t2;
  t1 ← fe_mul t2 t1;
  t1 ← fe_sq_loop 50 t1;
  t0 ← fe_mul t1 t0;
  t0 ← fe_sq t0;
  t0 ← fe_sq t0;
  t0 ← fe_mul t0 uv7;
  t0 ← fe_mul t0 v3;
  fe_mul t0 u.

(** ** Bytes to limbs: the first half of [ge_frombytes_vartime] *)

Definition fe_load (s : list Z) : list Z :=
  [ load_4 s 0;
    Z.shiftl (load_3 s 4) 6;
    Z.shiftl (load_3 s 7) 5;
    Z.shiftl (load_3 s 10) 3;
    Z.shiftl (load_3 s 13) 2;
    load_4 s 16;
    Z.shiftl (load_3 s 20) 7;
    Z.shiftl (load_3 s 23) 5;
    Z.shiftl (load_3 s 26) 4;
    Z.shiftl (Z.land (load_3 s 29) 8388607) 2 ].

(** The test that rejects the encodings of [p .. 2^255 - 1]. *)
Definition fe_noncanonical (h : list Z) : bool :=
  (at_ h 9 =? 33554428) && (at_ h 8 =? 268435440) && (at_ h 7 =? 536870880) &&
  (at_ h 6 =? 2147483520) && (at_ h 5 =? 4294967295) && (at_ h 4 =? 67108860) &&
  (at_ h 3 =? 134217720) && (at_ h 2 =? 536870880) && (at_ h 1 =? 1073741760) &&
  (4294967277 <=? at_ h 0).

Definition fe_load_carries : list instr :=
  [ Carry true 25 9 0 19; Carry true 25 1 2 1; Carry true 25 3 4 1;
    Carry true 25 5 6 1; Carry true 25 7 8 1;
    Carry true 26 0 1 1; Carry true 26 2 3 1; Carry true 26 4 5 1;
    Carry true 26 6 7 1; Carry true 26 8 9 1 ].

Definition fe_frombytes (s : list Z) : option (list Z) :=
  h ← run 64 fe_load_carries (fe_load s); store_i32 h.

(** ** Limbs to bytes *)

(** [q = (h_i + q) >> w], from the limb 0 to the limb 9. *)
Fixpoint fe_quotient (h : list Z) (ws : list Z) (q : Z) : option Z :=
  match h, ws with
  | x :: h, w :: ws => t ← i32 (x + q); fe_quotient h ws (Z.shiftr t w)
  | _, _ => Some q
  end.

Definition limb_widths : list Z := [26; 25; 26; 25; 26; 25; 26; 25; 26; 25].

(** The carries; the last one leaves [carry9] in an eleventh limb, which the
    code computes and drops. *)
Definition fe_tobytes_carries : list instr :=
  [ Carry false 26 0 1 1; Carry false 25 1 2 1; Carry false 26 2 3 1; Carry false 25 3 4 1;
    Carry false 26 4 5 1; Carry false 25 5 6 1; Carry false 26 6 7 1; Carry false 25 7 8 1;
    Carry false 26 8 9 1; Carry false 25 9 10 1 ].

Definition fe_store (x : list Z) : list Z :=
  let h i := at_ x i in
  map u8
  [ Z.shiftr (h 0%nat) 0;
    Z.shiftr (h 0%nat) 8;
    Z.shiftr (h 0%nat) 16;
    Z.lor (Z.shiftr (h 0%nat) 24) (Z.shiftl (h 1%nat) 2);
    Z.shiftr (h 1%nat) 6;
    Z.shiftr (h 1%nat) 14;
    Z.lor (Z.shiftr (h 1%nat) 22) (Z.shiftl (h 2%nat) 3);
    Z.shiftr (h 2%nat) 5;
    Z.shiftr (h 2%nat) 13;
    Z.lor (Z.shiftr (h 2%nat) 21) (Z.shiftl (h 3%nat) 5);
    Z.shiftr (h 3%nat) 3;
    Z.shiftr (h 3%nat) 11;
    Z.lor (Z.shiftr (h 3%nat) 19) (Z.shiftl (h 4%nat) 6);
    Z.shiftr (h 4%nat) 2;
    Z.shiftr (h 4%nat) 10;
    Z.shiftr (h 4%nat) 18;
    Z.shiftr (h 5%nat) 0;
    Z.shiftr (h 5%nat) 8;
    Z.shiftr (h 5%nat) 16;
    Z.lor (Z.shiftr (h 5%nat) 24) (Z.shiftl (h 6%nat) 1);
    Z.shiftr (h 6%nat) 7;
    Z.shiftr (h 6%nat) 15;
    Z.lor (Z.shiftr (h 6%nat) 23) (Z.shiftl (h 7%nat) 3);
    Z.shiftr (h 7%nat) 5;
    Z.shiftr (h 7%nat) 13;
    Z.lor (Z.shiftr (h 7%nat) 21) (Z.shiftl (h 8%nat) 4);
    Z.shiftr (h 8%nat) 4;
    Z.shiftr (h 8%nat) 12;
    Z.lor (Z.shiftr (h 8%nat) 20) (Z.shiftl (h 9%nat) 6);
    Z.shiftr (h 9%nat) 2;
    Z.shiftr (h 9%nat) 10;
    Z.shiftr (h 9%nat) 18 ].

Definition fe_tobytes (h : list Z) : option (list Z) :=
  m ← i32 (19 * at_ h 9);
  t ← i32 (m + Z.shiftl 1 24);
  q ← fe_quotient h limb_widths (Z.shiftr t 25);
  d ← i32 (19 * q);
  h0 ← i32 (at_ h 0 + d);
  x ← run 32 fe_tobytes_carries (<[0%nat := h0]> h ++ [0]);
  Some (fe_store x).

Definition fe_isnegative (f : list Z) : option Z :=
  s ← fe_tobytes f; Some (Z.land (at_ s 0) 1).

Definition fe_isnonzero (f : list Z) : option Z :=
  s ← fe_tobytes f; Some (bytes_isnonzero s).

End Fe.
