(* ===== verification/FeCorrect.v ===== *)
(** The field routines compute in [Z / (2^255 - 19)].

    [rep k f v] says that the limbs of [f] are bounded by [k] hundredths of
    [2^25] and [2^24] and that [f] represents [v] modulo [p].  Additions add the
    bounds, products accept up to 330 hundredths and return 101. *)
From S2P Require Import Prelude Limbs Pack Fe.

Local Open Scope Z_scope.

Module FeCorrect.
Import Limbs Pack Fe.

(** ** Tables of products *)

Definition op_value (v : list Z) (o : operand) : Z := o.1 * at_ v o.2.

Definition term_value (v : list Z) (t : operand * operand) : Z * Z :=
  (op_value v t.1, op_value v t.2).

Definition row_value (v : list Z) (row : list (operand * operand)) : Z :=
  psum (map (term_value v) row).

Definition op_known (n : nat) (ops : list operand) (o : operand) : bool :=
  if o.1 =? 1 then (o.2 <? n)%nat else existsb (operand_eqb o) ops.

Definition table_check (ops : list operand) (tbl : list (list (operand * operand))) (mags : list Z) : bool :=
  forallb (fun o : operand => (0 <=? o.1) && (op_value mags o <? 2 ^ 31)) ops &&
  forallb (fun row => forallb (fun t : operand * operand =>
    op_known (length mags) ops t.1 && op_known (length mags) ops t.2 &&
    (0 <=? t.1.1) && (0 <=? t.2.1)) row && (row_value mags row <? 2 ^ 63)) tbl.

Lemma op_value_mag v mags o :
  Forall2 (fun x m => Z.abs x <= m) v mags -> 0 <= o.1 -> Z.abs (op_value v o) <= op_value mags o.
Proof.
  intros H Ho. unfold op_value, at_. rewrite Z.abs_mul, (Z.abs_eq o.1) by done.
  apply Z.mul_le_mono_nonneg_l; [done |].
  destruct (v !! o.2) as [x |] eqn:E.
  - destruct (Forall2_lookup_l _ _ _ _ _ H E) as (m & -> & ?). done.
  - rewrite (proj2 (lookup_ge_None mags o.2)); [simpl; lia |].
    rewrite <- (Forall2_length H). by apply lookup_ge_None.
Qed.

Lemma operand_eqb_true o o' : operand_eqb o o' = true -> o = o'.
Proof.
  destruct o, o'. unfold operand_eqb; simpl. rewrite andb_true_iff, Z.eqb_eq, Nat.eqb_eq.
  by intros [-> ->].
Qed.

Lemma find_operand_ok v ops o :
  existsb (operand_eqb o) ops = true ->
  find_operand (map (fun o => (o, op_value v o)) ops) o = Some (op_value v o).
Proof.
  induction ops as [| o' ops IH]; simpl; [done |].
  destruct (operand_eqb o o') eqn:E; simpl; [| apply IH].
  by apply operand_eqb_true in E as ->.
Qed.

Lemma read_ok v n ops o :
  length v = n -> op_known n ops o = true ->
  read v (map (fun o => (o, op_value v o)) ops) o = Some (op_value v o).
Proof.
  intros Hl H. unfold read, op_known in *. destruct (Z.eqb_spec o.1 1) as [E |].
  - apply Nat.ltb_lt in H. destruct (lookup_lt_is_Some_2 v o.2) as [x Hx]; [lia |].
    unfold op_value, at_. rewrite Hx, E. f_equal. simpl. lia.
  - by apply find_operand_ok.
Qed.

Lemma row_sum_ok v mags ops row :
  Forall2 (fun x m => Z.abs x <= m) v mags ->
  forallb (fun t : operand * operand =>
    op_known (length mags) ops t.1 && op_known (length mags) ops t.2 &&
    (0 <=? t.1.1) && (0 <=? t.2.1)) row = true ->
  row_value mags row < 2 ^ 63 ->
  row_sum v (map (fun o => (o, op_value v o)) ops) row = Some (row_value v row) /\
  Z.abs (row_value v row) <= row_value mags row.
Proof.
  intros Hv H Hs. rewrite forallb_forall in H. unfold row_sum.
  rewrite (mapM_total _ (term_value v) row).
  2: { intros t Ht%list_elem_of_In. apply H in Ht. rewrite !andb_true_iff in Ht.
       destruct Ht as [[[H1 H2] _] _]. unfold read_pair. pose proof (Forall2_length Hv) as Hl.
       rewrite (read_ok v _ ops t.1 Hl H1), (read_ok v _ ops t.2 Hl H2). done. }
  assert (HF : Forall2 mag_le (map (term_value v) row) (map (term_value mags) row)).
  { clear Hs. induction row as [| t row IH]; simpl; constructor.
    - specialize (H t ltac:(left; done)). rewrite !andb_true_iff, !Z.leb_le in H.
      split; apply op_value_mag; tauto.
    - apply IH. intros x Hx. apply H. by right. }
  split; [| by apply psum_mag]. cbn [mbind option_bind].
  rewrite (mac_ok 64 0 _ _ HF); [by rewrite Z.add_0_l |]. unfold row_value in Hs. lia.
Qed.

Lemma product_rows_ok ops tbl v mags :
  Forall2 (fun x m => Z.abs x <= m) v mags -> table_check ops tbl mags = true ->
  product_rows ops tbl v = Some (map (row_value v) tbl) /\
  Forall2 in_itv (map (row_value v) tbl)
    (map (fun row => (- row_value mags row, row_value mags row)) tbl).
Proof.
  intros Hv [H1 H2]%andb_true_iff. rewrite forallb_forall in H1, H2.
  unfold product_rows, precompute.
  rewrite (mapM_total _ (fun o => (o, op_value v o)) ops).
  2: { intros o Ho%list_elem_of_In. apply H1 in Ho. rewrite andb_true_iff, Z.leb_le, Z.ltb_lt in Ho.
       pose proof (op_value_mag v mags o Hv ltac:(tauto)). change (o.1 * at_ v o.2) with (op_value v o).
       rewrite chk_ok; [done | lia]. }
  assert (HR : forall row, In row tbl -> row_sum v (map (fun o => (o, op_value v o)) ops) row = Some (row_value v row) /\
    Z.abs (row_value v row) <= row_value mags row).
  { intros row Hr. apply H2, andb_true_iff in Hr as [Hk Hs%Z.ltb_lt]. by apply row_sum_ok. }
  split.
  - cbn [mbind option_bind]. apply mapM_total. intros row Hr%list_elem_of_In. by apply HR.
  - clear H2. induction tbl as [| row tbl IH]; simpl; constructor.
    + destruct (HR row) as [_ B]; [by left |]. unfold in_itv; simpl. lia.
    + apply IH. intros r Hr. apply HR. by right.
Qed.

(** ** Values *)

Definition fe_weights : list Z :=
  [2 ^ 0; 2 ^ 26; 2 ^ 51; 2 ^ 77; 2 ^ 102; 2 ^ 128; 2 ^ 153; 2 ^ 179; 2 ^ 204; 2 ^ 230].

Definition fe_val (f : list Z) : Z := dot fe_weights f.

(** The multiple of [p] by which a table of products differs from the product. *)
Definition term_quot (mult : nat -> nat -> Z) (n : nat) (v : list Z) (k : nat) (t : operand * operand) : Z :=
  let i := t.1.2 in let j := t.2.2 in
  (at_ fe_weights k * t.1.1 * t.2.1 - mult i j * at_ fe_weights i * at_ fe_weights (j - n)) / p25519
    * (at_ v i * at_ v j).

Definition table_quot (mult : nat -> nat -> Z) (n : nat) (v : list Z) (tbl : list (list (operand * operand))) : Z :=
  foldr (fun kr acc => foldr (fun t acc => term_quot mult n v kr.1 t + acc) acc kr.2) 0
    (zip (seq 0 10) tbl).

Ltac eval_weights :=
  let w := eval vm_compute in fe_weights in change fe_weights with w in *.

Ltac ten f H :=
  do 10 (destruct f as [| ? f]; [discriminate H |]); destruct f; [| discriminate H].

Lemma fe_mul_value f g : length f = 10%nat -> length g = 10%nat ->
  fe_val (map (row_value (f ++ g)) fe_mul_table) ≡⟨ p25519 ⟩ fe_val f * fe_val g.
Proof.
  intros Hf Hg. exists (table_quot (fun _ _ => 1) 10 (f ++ g) fe_mul_table).
  ten f Hf. ten g Hg. unfold fe_val.
  let t := eval vm_compute in fe_mul_table in change fe_mul_table with t.
  cbv [map row_value psum term_value op_value at_ app lookup list_lookup default from_option id
       fst snd dot table_quot foldr zip zip_with seq term_quot Nat.sub fe_weights].
  repeat match goal with |- context [?a / p25519] => let x := eval vm_compute in (a / p25519) in change (a / p25519) with x end.
  unfold p25519. ring.
Qed.

Lemma fe_sq_value f : length f = 10%nat ->
  fe_val (map (row_value f) fe_sq_table) ≡⟨ p25519 ⟩ fe_val f * fe_val f.
Proof.
  intros Hf. exists (table_quot (fun i j => if (i =? j)%nat then 1 else 2) 0 f fe_sq_table).
  ten f Hf. unfold fe_val.
  cbv [map row_value psum term_value op_value at_ app lookup list_lookup default from_option id fe_sq_table
       fst snd dot table_quot foldr zip zip_with seq term_quot Nat.sub Nat.eqb fe_weights].
  repeat match goal with |- context [?a / p25519] => let x := eval vm_compute in (a / p25519) in change (a / p25519) with x end.
  unfold p25519. ring.
Qed.

(** ** Representations *)

(** [k] hundredths of [2^25] and [2^24], in alternation: a product ensures 101,
    and accepts 330, the [1.65 * 2^26] and [1.65 * 2^25] of the code's comments. *)
Definition fe_bound (k : Z) : list Z :=
  [k * 335544; k * 167772; k * 335544; k * 167772; k * 335544;
   k * 167772; k * 335544; k * 167772; k * 335544; k * 167772].

Definition bounded (k : Z) (f : list Z) : Prop :=
  Forall2 (fun x m => Z.abs x <= m) f (fe_bound k).

Definition rep (k : Z) (f : list Z) (v : Z) : Prop :=
  bounded k f /\ fe_val f ≡⟨ p25519 ⟩ v.

#[global] Instance rep_proper k f : Proper (eqm p25519 ==> iff) (rep k f).
Proof. intros v w H. unfold rep. by rewrite H. Qed.

Lemma bounded_length k f : bounded k f -> length f = 10%nat.
Proof. intros H. by rewrite (Forall2_length H). Qed.

Lemma bounded_weaken j k f : j <= k -> bounded j f -> bounded k f.
Proof.
  intros Hjk H. pose proof (bounded_length _ _ H) as Hl. ten f Hl. unfold bounded, fe_bound in *.
  repeat (apply Forall2_cons_1 in H as [? H]).
  repeat (apply Forall2_cons_2; [lia |]). constructor.
Qed.

Lemma rep_weaken j k f v : j <= k -> rep j f v -> rep k f v.
Proof. intros ? [? ?]. split; [by apply (bounded_weaken j) | done]. Qed.

Lemma bounded_itv f m :
  Forall2 (fun x m => Z.abs x <= m) f m <-> Forall2 in_itv f (map (fun m => (- m, m)) m).
Proof.
  split; revert m; induction f as [| x f IH]; intros [| y m] H; simpl in *;
    try (by inversion H); try constructor; inversion H; subst; unfold in_itv in *; simpl in *;
    try apply IH; done || lia.
Qed.

(** Closing a product: carries and stores. *)
Definition close_check (prog : list instr) (b : list itv) : bool :=
  match abs_run 64 prog b, wt_run p25519 fe_weights prog fe_weights with
  | Some b', Some w => itvs_le b' (map (fun m => (- m, m)) (fe_bound 101)) && bool_decide (w = fe_weights)
  | _, _ => false
  end.

Lemma store_i32_ok f k : k <= 6300 -> bounded k f -> store_i32 f = Some f.
Proof.
  intros Hk H. apply (bounded_weaken _ 6300) in H; [| done].
  unfold store_i32. rewrite (mapM_total _ id); [by rewrite map_id |].
  intros x [i Hi]%list_elem_of_lookup. unfold id. apply chk_ok.
  destruct (Forall2_lookup_l _ _ _ _ _ H Hi) as (m & Hm & B).
  assert (m <= 6300 * 335544).
  { apply list_elem_of_lookup_2, list_elem_of_In in Hm. simpl in Hm.
    repeat destruct Hm as [<- | Hm]; done || lia. }
  lia.
Qed.

Lemma close_ok prog b h v :
  Forall2 in_itv h b -> close_check prog b = true -> fe_val h ≡⟨ p25519 ⟩ v ->
  yields (h ← run 64 prog h; store_i32 h) (fun r => rep 101 r v).
Proof.
  intros Hh H Hv. unfold close_check in H.
  destruct (abs_run 64 prog b) as [b' |] eqn:E1; [| done].
  destruct (wt_run _ _ prog _) as [w |] eqn:E2; [| done].
  apply andb_true_iff in H as [Hb Hw%bool_decide_eq_true]. subst w.
  destruct (run_sound _ _ _ _ _ _ _ _ _ Hh E1 E2) as (x & R & B & V).
  apply (in_itvs_le _ _ _ Hb), bounded_itv in B.
  exists x. rewrite R. split; [by apply (store_i32_ok _ 101) |]. split; [done |].
  unfold fe_val in *. by rewrite V.
Qed.

Lemma fe_mul_ok j k f g a b :
  rep j f a -> rep k g b -> j <= 330 -> k <= 330 ->
  yields (fe_mul f g) (fun h => rep 101 h (a * b)).
Proof.
  intros [Bf Vf] [Bg Vg] Hj Hk. apply (bounded_weaken _ 330) in Bf, Bg; [| done | done].
  destruct (product_rows_ok fe_mul_ops fe_mul_table (f ++ g) (fe_bound 330 ++ fe_bound 330))
    as [E B]; [by apply Forall2_app | vm_compute; reflexivity |].
  unfold fe_mul. rewrite E. apply (close_ok fe_carries _ _ _ B); [vm_compute; reflexivity |].
  rewrite fe_mul_value by by eapply bounded_length. by rewrite Vf, Vg.
Qed.

Lemma fe_sq_ok k f a : rep k f a -> k <= 330 -> yields (fe_sq f) (fun h => rep 101 h (a * a)).
Proof.
  intros [Bf Vf] Hk. apply (bounded_weaken _ 330) in Bf; [| done].
  destruct (product_rows_ok fe_sq_ops fe_sq_table f (fe_bound 330))
    as [E B]; [done | vm_compute; reflexivity |].
  unfold fe_sq. rewrite E. apply (close_ok fe_carries _ _ _ B); [vm_compute; reflexivity |].
  rewrite fe_sq_value by by eapply bounded_length. by rewrite Vf.
Qed.

Lemma double_ok h b : Forall2 in_itv h b ->
  forallb (fun i : itv => (- 2 ^ 62 <=? i.1) && (i.2 <? 2 ^ 62)) b = true ->
  mapM (fun x => i64 (x + x)) h = Some (map (fun x => x + x) h) /\
  Forall2 in_itv (map (fun x => x + x) h) (map (fun i : itv => (i.1 + i.1, i.2 + i.2)) b).
Proof.
  intros H Hb. rewrite forallb_forall in Hb. split.
  - apply mapM_total. intros x [i Hi]%list_elem_of_lookup.
    destruct (Forall2_lookup_l _ _ _ _ _ H Hi) as (m & Hm & B).
    apply list_elem_of_lookup_2, list_elem_of_In, Hb in Hm.
    rewrite andb_true_iff, Z.leb_le, Z.ltb_lt in Hm. unfold in_itv in B. apply chk_ok. lia.
  - clear Hb. induction H; simpl; constructor; [unfold in_itv in *; simpl; lia | done].
Qed.

Lemma fe_sq2_ok k f a : rep k f a -> k <= 330 -> yields (fe_sq2 f) (fun h => rep 101 h (2 * (a * a))).
Proof.
  intros [Bf Vf] Hk. apply (bounded_weaken _ 330) in Bf; [| done].
  destruct (product_rows_ok fe_sq_ops fe_sq_table f (fe_bound 330))
    as [E B]; [done | vm_compute; reflexivity |].
  destruct (double_ok _ _ B) as [E2 B2]; [vm_compute; reflexivity |].
  unfold fe_sq2. rewrite E. cbn [mbind option_bind]. unfold mbind in E2. rewrite E2.
  apply (close_ok fe_carries _ _ _ B2); [vm_compute; reflexivity |].
  assert (D : forall h, fe_val (map (fun x => x + x) h) = 2 * fe_val h).
  { unfold fe_val. generalize fe_weights. intros ws. induction ws as [| w ws IH]; intros [| x h]; simpl; try lia.
    rewrite IH. lia. }
  rewrite D, fe_sq_value by by eapply bounded_length. by rewrite Vf.
Qed.

(** ** Limbwise operations *)

Lemma fe_bound_le i m : fe_bound 1 !! i = Some m -> 0 <= m <= 335544.
Proof. intros H. do 10 (destruct i as [| i]; [injection H as <-; lia |]). discriminate H. Qed.

Lemma bounded_at k f i m : bounded k f -> fe_bound 1 !! i = Some m -> Z.abs (at_ f i) <= k * m.
Proof.
  intros H Hm. assert (E : fe_bound k = map (Z.mul k) (fe_bound 1)) by reflexivity.
  unfold bounded in H. rewrite E in H.
  assert (Hm' : map (Z.mul k) (fe_bound 1) !! i = Some (k * m)) by (rewrite list_lookup_fmap, Hm; done).
  destruct (Forall2_lookup_r _ _ _ _ _ H Hm') as (x & Hx & B). unfold at_. by rewrite Hx.
Qed.

Lemma abs_combine sf sg x y X Y : Z.abs x <= X -> Z.abs y <= Y ->
  Z.abs (sf * x + sg * y) <= Z.abs sf * X + Z.abs sg * Y.
Proof.
  intros Hx Hy. rewrite Z.abs_triangle, !Z.abs_mul.
  apply Z.add_le_mono; apply Z.mul_le_mono_nonneg_l; lia.
Qed.

Lemma limbwise_ok (op : Z -> Z -> Z) sf sg j k f g a b :
  (forall x y, op x y = sf * x + sg * y) -> -1 <= sf <= 1 -> -1 <= sg <= 1 ->
  rep j f a -> rep k g b -> 0 <= j -> 0 <= k -> Z.abs sf * j + Z.abs sg * k <= 6300 ->
  exists h, mapM (fun i => i32 (op (at_ f i) (at_ g i))) (seq 0 10) = Some h /\
    rep (Z.abs sf * j + Z.abs sg * k) h (sf * a + sg * b).
Proof.
  intros Hop Hsf Hsg [Bf Vf] [Bg Vg] Hj Hk Hjk.
  assert (Lf := bounded_length _ _ Bf). assert (Lg := bounded_length _ _ Bg).
  exists (map (fun i => op (at_ f i) (at_ g i)) (seq 0 10)).
  assert (B : forall i m, fe_bound 1 !! i = Some m ->
            Z.abs (op (at_ f i) (at_ g i)) <= (Z.abs sf * j + Z.abs sg * k) * m).
  { intros i m Hm. rewrite Hop. pose proof (bounded_at j f i m Bf Hm). pose proof (bounded_at k g i m Bg Hm).
    rewrite Z.mul_add_distr_r, <- !Z.mul_assoc. by apply abs_combine. }
  split; [| split].
  - apply mapM_total. intros i Hi%elem_of_seq. apply chk_ok.
    destruct (lookup_lt_is_Some_2 (fe_bound 1) i) as [m Hm]; [simpl; lia |].
    pose proof (B i m Hm). pose proof (fe_bound_le i m Hm).
    pose proof (Z.mul_le_mono_nonneg_r (Z.abs sf * j + Z.abs sg * k) 6300 m ltac:(lia) Hjk). lia.
  - unfold bounded, fe_bound. cbn [map seq].
    repeat (apply Forall2_cons_2; [apply B; reflexivity |]). constructor.
  - rewrite <- Vf, <- Vg. clear B Bf Bg. ten f Lf. ten g Lg. unfold fe_val.
    cbn [dot fe_weights map seq at_ lookup list_lookup default from_option id]. rewrite !Hop.
    match goal with |- ?x ≡⟨ _ ⟩ ?y => replace x with y by ring end. reflexivity.
Qed.

Lemma fe_add_ok j k f g a b :
  rep j f a -> rep k g b -> 0 <= j -> 0 <= k -> j + k <= 6300 ->
  yields (fe_add f g) (fun h => rep (j + k) h (a + b)).
Proof.
  intros Hf Hg ? ? ?. destruct (limbwise_ok Z.add 1 1 j k f g a b) as (h & E & R); try done; try lia.
  exists h. split; [exact E |].
  replace (j + k) with (Z.abs 1 * j + Z.abs 1 * k) by lia. by replace (a + b) with (1 * a + 1 * b) by lia.
Qed.

Lemma fe_sub_ok j k f g a b :
  rep j f a -> rep k g b -> 0 <= j -> 0 <= k -> j + k <= 6300 ->
  yields (fe_sub f g) (fun h => rep (j + k) h (a - b)).
Proof.
  intros Hf Hg ? ? ?. destruct (limbwise_ok Z.sub 1 (-1) j k f g a b) as (h & E & R); try done; try lia.
  exists h. split; [exact E |].
  replace (j + k) with (Z.abs 1 * j + Z.abs (-1) * k) by lia. by replace (a - b) with (1 * a + -1 * b) by lia.
Qed.

Lemma fe_neg_ok k f a : rep k f a -> 0 <= k <= 6300 -> yields (fe_neg f) (fun h => rep k h (- a)).
Proof.
  intros Hf ?. destruct (limbwise_ok (fun x _ => - x) (-1) 0 k k f f a a) as (h & E & R); try done; try lia.
  exists h. split; [exact E |].
  replace k with (Z.abs (-1) * k + Z.abs 0 * k) by lia. by replace (- a) with (-1 * a + 0 * a) by lia.
Qed.

(** ** Stepping through a routine *)

Ltac norm_level H :=
  lazymatch type of H with
  | rep ?k ?f ?v => let m := eval vm_compute in k in change (rep m f v) in H
  | _ => idtac
  end.

(** Finds the levels of the arguments among the hypotheses. *)
Ltac rep_call :=
  lazymatch goal with
  | |- yields (fe_mul _ _) _ => eapply fe_mul_ok; [eassumption | eassumption | done | done]
  | |- yields (fe_sq2 _) _ => eapply fe_sq2_ok; [eassumption | done]
  | |- yields (fe_sq _) _ => eapply fe_sq_ok; [eassumption | done]
  | |- yields (fe_add _ _) _ => eapply fe_add_ok; [eassumption | eassumption | done | done | done]
  | |- yields (fe_sub _ _) _ => eapply fe_sub_ok; [eassumption | eassumption | done | done | done]
  | |- yields (fe_neg _) _ => eapply fe_neg_ok; [eassumption | done]
  end.

Ltac rep_step :=
  lazymatch goal with
  | |- yields (_ ≫= _) _ =>
      let x := fresh "t" in let H := fresh "H" in
      eapply yields_bind; [rep_call | cbv beta; intros x H; norm_level H]
  | |- yields (Some _) _ => apply yields_ret
  end.
End FeCorrect.
