(* ===== verification/FePow.v ===== *)
(** Powers in the field: [fe_invert] computes [z^(p-2)] and [fe_divpowm1]
    computes [u * v^3 * (u * v^7)^((p-5)/8)]. *)
From S2P Require Import Prelude Limbs Pack Fe FeCorrect.

Local Open Scope Z_scope.

Module FePow.
Import Limbs Pack Fe FeCorrect.

(** [t] holds [z^n], within the bounds products accept. *)
Definition pow_rep (z n : Z) (t : list Z) : Prop := rep 330 t (z ^ n).

Lemma pow_weaken z n t : rep 101 t (z ^ n) -> pow_rep z n t.
Proof. by apply rep_weaken. Qed.

Lemma pow_sq z n t : 0 <= n -> pow_rep z n t -> yields (fe_sq t) (fun h => rep 101 h (z ^ (2 * n))).
Proof.
  intros Hn H. destruct (fe_sq_ok 330 t _ H) as (h & E & R); [lia |].
  exists h. split; [done |]. replace (2 * n) with (n + n) by lia. by rewrite Z.pow_add_r.
Qed.

Lemma pow_mul z n m f g : 0 <= n -> 0 <= m -> pow_rep z n f -> pow_rep z m g ->
  yields (fe_mul f g) (fun h => rep 101 h (z ^ (n + m))).
Proof.
  intros Hn Hm Hf Hg. destruct (fe_mul_ok 330 330 f g _ _ Hf Hg) as (h & E & R); [lia | lia |].
  exists h. split; [done |]. by rewrite Z.pow_add_r.
Qed.

Lemma pow_sq_loop z n k t : 0 <= n -> pow_rep z n t ->
  yields (fe_sq_loop k t) (pow_rep z (2 ^ Z.of_nat k * n)).
Proof.
  revert n t. induction k as [| k IH]; intros n t Hn H.
  - apply yields_ret. by replace (2 ^ Z.of_nat 0 * n) with n by (simpl; lia).
  - simpl fe_sq_loop. eapply yields_bind; [by apply (pow_sq z n) |]. cbv beta; intros t' H'%pow_weaken.
    eapply yields_impl; [apply (IH (2 * n)); [lia | done] |]. intros x.
    rewrite Nat2Z.inj_succ, Z.pow_succ_r by lia. by replace (2 ^ Z.of_nat k * (2 * n)) with (2 * 2 ^ Z.of_nat k * n) by lia.
Qed.

(** Evaluates the exponent of a result and widens its bound. *)
Ltac norm_pow H :=
  lazymatch type of H with
  | rep 101 ?t (?z ^ ?n) => apply pow_weaken in H; norm_pow H
  | pow_rep ?z ?n ?t => let m := eval vm_compute in n in change (pow_rep z m t) in H
  end.

Ltac pow_call :=
  lazymatch goal with
  | |- yields (fe_sq _) _ => eapply pow_sq; [| eassumption]; done
  | |- yields (fe_mul _ _) _ => eapply pow_mul; [| | eassumption | eassumption]; done
  | |- yields (fe_sq_loop _ _) _ => eapply pow_sq_loop; [| eassumption]; done
  end.

Ltac pow_step :=
  lazymatch goal with
  | |- yields (_ ≫= _) _ =>
      let x := fresh "t" in let H := fresh "H" in
      eapply yields_bind; [pow_call | cbv beta; intros x H; norm_pow H]
  | |- _ => eapply yields_impl; [pow_call | cbv beta]
  end.

Lemma fe_invert_pow k z a : rep k z a -> k <= 330 ->
  yields (fe_invert z) (fun r => rep 101 r (a ^ (p25519 - 2))).
Proof.
  intros Hz Hk. assert (H : pow_rep a 1 z) by (unfold pow_rep; rewrite Z.pow_1_r; by apply (rep_weaken k)).
  unfold fe_invert. repeat pow_step. intros x Hx. exact Hx.
Qed.

Lemma fe_divpowm1_pow j k u v a b : rep j u a -> rep k v b -> j <= 330 -> k <= 330 ->
  yields (fe_divpowm1 u v)
    (fun r => rep 101 r ((b ^ 7 * a) ^ ((p25519 - 5) / 8) * b ^ 3 * a)).
Proof.
  intros Hu Hv Hj Hk. apply (rep_weaken _ 330) in Hu, Hv; [| done | done].
  unfold fe_divpowm1. do 5 rep_step.
  match goal with H : rep 101 ?w ?e |- _ =>
    lazymatch goal with |- yields (fe_sq w ≫= _) _ =>
      assert (Hw : pow_rep (b ^ 7 * a) 1 w) by
        (apply pow_weaken; rewrite Z.pow_1_r; by replace (b ^ 7 * a) with e by ring); clear H end end.
  match goal with H : rep 101 ?w (b * b * b) |- _ =>
    assert (H3 : rep 101 w (b ^ 3)) by (by replace (b ^ 3) with (b * b * b) by ring); clear H end.
  do 29 pow_step.
  match goal with H : pow_rep ?z ?n ?t |- yields (fe_mul ?t _ ≫= _) _ =>
    change (rep 330 t (z ^ ((p25519 - 5) / 8))) in H end.
  rep_step. eapply yields_impl; [rep_call |]. done.
Qed.
End FePow.
