(* ===== verification/FeBytes.v ===== *)
(** Field elements and bytes: [fe_tobytes] writes the canonical representative,
    the loading half of [ge_frombytes_vartime] reads a value below [2^255] and
    its canonicity test rejects exactly the values from [p] up. *)
From S2P Require Import Prelude Limbs Pack Fe FeCorrect.

Local Open Scope Z_scope.

Module FeBytes.
Import Limbs Pack Fe FeCorrect.

(** ** Loading *)

Lemma land_2_23 z : Z.land z 8388607 = z mod 8388608.
Proof. exact (Z.land_ones z 23 ltac:(lia)). Qed.

Lemma top_limb b0 b1 b2 : is_byte b0 -> is_byte b1 -> is_byte b2 ->
  (b0 + 256 * b1 + 65536 * b2) mod 8388608 = b0 + 256 * b1 + 65536 * (b2 mod 128).
Proof. unfold is_byte. intros. zlia. Qed.

(** The value of the 32 bytes without the sign bit. *)
Lemma fe_load_value s : is_bytes 32 s -> fe_val (fe_load s) = le_combine s mod 2 ^ 255.
Proof.
  intros [Hl H]. rewrite le_combine_at, Hl. unfold fe_load, fe_val.
  rewrite land_2_23, !load_4_val, !load_3_val by done.
  rewrite top_limb by by apply at_byte. rewrite !Z.shiftl_mul_pow2 by lia.
  cbn [dot fe_weights Nat.add seq foldr].
  apply Z.mod_unique_pos with (q := at_ s 31 / 128); gen_bytes s H; unfold is_byte in *; zlia.
Qed.

Definition fe_load_itv : list itv :=
  [ (0, 4294967295); (0, 1073741760); (0, 536870880); (0, 134217720); (0, 67108860);
    (0, 4294967295); (0, 2147483520); (0, 536870880); (0, 268435440); (0, 33554428) ].

Lemma load_3_range s o : Forall is_byte s -> 0 <= load_3 s o <= 16777215.
Proof.
  intros H. rewrite load_3_val by done.
  pose proof (at_byte s o H). pose proof (at_byte s (o + 1) H). pose proof (at_byte s (o + 2) H).
  unfold is_byte in *. lia.
Qed.

Lemma load_4_range0 s o : Forall is_byte s -> 0 <= load_4 s o <= 4294967295.
Proof.
  intros H. rewrite load_4_val by done.
  pose proof (at_byte s o H). pose proof (at_byte s (o + 1) H). pose proof (at_byte s (o + 2) H).
  pose proof (at_byte s (o + 3) H). unfold is_byte in *. lia.
Qed.

Lemma fe_load_bounds s : is_bytes 32 s -> Forall2 in_itv (fe_load s) fe_load_itv.
Proof.
  intros [_ H]. unfold fe_load, fe_load_itv. rewrite !Z.shiftl_mul_pow2 by lia. rewrite land_2_23.
  repeat (apply Forall2_cons_2; [unfold in_itv; cbn [fst snd] |]); [.. | constructor].
  all: lazymatch goal with
       | |- context [load_3 ?s ?o] => pose proof (load_3_range s o H); zlia
       | |- context [load_4 ?s ?o] => exact (load_4_range0 s o H)
       end.
Qed.

(** [fe_frombytes]: the limbs are reduced and represent the 255-bit value. *)
Lemma fe_frombytes_ok s : is_bytes 32 s ->
  yields (fe_frombytes s) (fun h => rep 101 h (le_combine s mod 2 ^ 255)).
Proof.
  intros Hs. apply (close_ok fe_load_carries fe_load_itv); [by apply fe_load_bounds | vm_compute; reflexivity |].
  by rewrite fe_load_value.
Qed.

Lemma fe_noncanonical_ok s : is_bytes 32 s ->
  fe_noncanonical (fe_load s) = (p25519 <=? le_combine s mod 2 ^ 255).
Proof.
  intros Hs. rewrite <- fe_load_value by done.
  unfold fe_noncanonical, fe_load, fe_val.
  cbn [at_ lookup list_lookup default from_option id dot fe_weights].
  destruct Hs as [_ H]. rewrite !Z.shiftl_mul_pow2 by lia. rewrite land_2_23.
  pose proof (load_4_range0 s 0 H). pose proof (load_3_range s 4 H). pose proof (load_3_range s 7 H).
  pose proof (load_3_range s 10 H). pose proof (load_3_range s 13 H). pose proof (load_4_range0 s 16 H).
  pose proof (load_3_range s 20 H). pose proof (load_3_range s 23 H). pose proof (load_3_range s 26 H).
  pose proof (Z.mod_pos_bound (load_3 s 29) 8388608 ltac:(lia)).
  apply eq_true_iff_eq. rewrite !andb_true_iff, !Z.eqb_eq, !Z.leb_le. unfold p25519.
  split; [lia |]. intros Hv. repeat split; lia.
Qed.

(** ** Storing *)

Lemma split_byte B B1 B2 s : 0 < B -> B1 = B * 256 -> B2 = B * 65536 ->
  s = s mod B + B * ((s / B) mod 256) + B1 * ((s / B1) mod 256) + B2 * (s / B2).
Proof.
  intros HB -> ->.
  replace (B * 65536) with (B * 256 * 256) by lia. rewrite <- !Z.div_div by lia.
  pose proof (Z.div_mod s B ltac:(lia)). pose proof (Z.div_mod (s / B) 256 ltac:(lia)).
  pose proof (Z.div_mod (s / B / 256) 256 ltac:(lia)). nia.
Qed.

Lemma top_byte s k : 0 < k -> 0 <= s < k * 256 -> s / k = (s / k) mod 256.
Proof.
  intros. symmetry. apply Z.mod_small. split; [apply Z.div_pos; lia | apply Z.div_lt_upper_bound; lia].
Qed.

Lemma split_24 s : s / 65536 = (s / 65536) mod 256 + 256 * (s / 16777216).
Proof. zlia. Qed.

(** The limbs after the exact carries. *)
Definition exact_itv : list itv :=
  [ (0, 67108863); (0, 33554431); (0, 67108863); (0, 33554431); (0, 67108863);
    (0, 33554431); (0, 67108863); (0, 33554431); (0, 67108863); (0, 33554431) ].

Lemma fe_store_value x : Forall2 in_itv (take 10 x) exact_itv ->
  le_combine (fe_store x) = fe_val (take 10 x).
Proof.
  intros H.
  destruct x as [| h0 [| h1 [| h2 [| h3 [| h4 [| h5 [| h6 [| h7 [| h8 [| h9 x]]]]]]]]]];
    try (apply Forall2_length in H; discriminate H).
  cbn [take] in *. unfold exact_itv in H.
  repeat (apply Forall2_cons_1 in H as [? H]). clear H. unfold in_itv in *; cbn [fst snd] in *.
  unfold fe_val. cbn [fe_store at_ lookup list_lookup default from_option id map le_combine dot fe_weights].
  rewrite !store_mid by (cbn; lia). rewrite !store_low by lia.
  repeat match goal with |- context [2 ^ ?k] => let v := eval vm_compute in (2 ^ k) in change (2 ^ k) with v end.
  pose proof (split_byte 1 256 65536 h0 ltac:(lia) eq_refl eq_refl). pose proof (split_byte 64 16384 4194304 h1 ltac:(lia) eq_refl eq_refl).
  pose proof (split_byte 32 8192 2097152 h2 ltac:(lia) eq_refl eq_refl). pose proof (split_byte 8 2048 524288 h3 ltac:(lia) eq_refl eq_refl).
  pose proof (split_byte 4 1024 262144 h4 ltac:(lia) eq_refl eq_refl). pose proof (split_byte 1 256 65536 h5 ltac:(lia) eq_refl eq_refl).
  pose proof (split_byte 128 32768 8388608 h6 ltac:(lia) eq_refl eq_refl). pose proof (split_byte 32 8192 2097152 h7 ltac:(lia) eq_refl eq_refl).
  pose proof (split_byte 16 4096 1048576 h8 ltac:(lia) eq_refl eq_refl). pose proof (split_byte 4 1024 262144 h9 ltac:(lia) eq_refl eq_refl).
  pose proof (split_24 h0). pose proof (split_24 h5).
  pose proof (top_byte h4 262144 ltac:(lia) ltac:(lia)). pose proof (top_byte h9 262144 ltac:(lia) ltac:(lia)).
  rewrite !Z.mod_1_r in *. lia.
Qed.

(** ** The quotient by p *)

Fixpoint cumulative (ws : list Z) : list Z :=
  match ws with
  | [] => []
  | w :: ws => 1 :: map (Z.mul (2 ^ w)) (cumulative ws)
  end.

Fixpoint total (ws : list Z) : Z :=
  match ws with [] => 0 | w :: ws => w + total ws end.

Lemma dot_scale c ws x : dot (map (Z.mul c) ws) x = c * dot ws x.
Proof. revert x. induction ws as [| w ws IH]; intros [| a x]; simpl; try lia. rewrite IH. lia. Qed.

Lemma total_nonneg ws : Forall (fun w => 1 <= w) ws -> 0 <= total ws.
Proof. induction 1; simpl; lia. Qed.

(** Nested floors are one floor. *)
Lemma fe_quotient_ok h ws q :
  Forall (fun x => Z.abs x <= 2 ^ 29) h -> Forall (fun w => 1 <= w) ws -> length h = length ws ->
  Z.abs q <= 2 ^ 29 ->
  fe_quotient h ws q = Some ((dot (cumulative ws) h + q) / 2 ^ total ws).
Proof.
  intros Hh. revert ws q. induction Hh as [| x h Hx Hh IH]; intros [| w ws] q Hw Hl Hq; try discriminate Hl.
  - simpl. f_equal. by rewrite Z.div_1_r.
  - inversion Hw as [| ? ? Hw0 Hws]; subst. simpl fe_quotient. rewrite chk_ok by lia. simpl mbind.
    assert (Hp : 2 <= 2 ^ w) by (apply (Z.pow_le_mono_r 2 1 w); lia).
    rewrite Z.shiftr_div_pow2 by lia. rewrite IH; [| done | by injection Hl |].
    2: { apply Z.abs_le. split; [apply Z.div_le_lower_bound | apply Z.div_le_upper_bound]; lia. }
    simpl. rewrite dot_scale. f_equal.
    pose proof (total_nonneg ws Hws).
    rewrite Z.pow_add_r by lia. rewrite <- Z.div_div; [| lia | apply Z.pow_pos_nonneg; lia].
    f_equal. rewrite <- Z.div_add_l by lia. f_equal. lia.
Qed.

(** With [h9] the top limb of [H] and [q0] the first estimate, the final
    quotient is the floor of [H / p]. *)
Lemma quotient_exact H h9 e q0 :
  H = 2 ^ 230 * h9 + e -> Z.abs e <= 2 ^ 232 -> Z.abs h9 <= 2 ^ 26 ->
  q0 = (19 * h9 + 2 ^ 24) / 2 ^ 25 -> (H + q0) / 2 ^ 255 = H / p25519.
Proof.
  intros HH He H9 Hq.
  assert (Q : H = p25519 * (H / p25519) + H mod p25519) by (apply Z.div_mod; done).
  pose proof (Z.mod_pos_bound H p25519 ltac:(done)) as R. set (Q0 := H / p25519) in *. set (r := H mod p25519) in *.
  pose proof (Z.div_mod (19 * h9 + 2 ^ 24) (2 ^ 25) ltac:(done)).
  pose proof (Z.mod_pos_bound (19 * h9 + 2 ^ 24) (2 ^ 25) ltac:(done)). rewrite <- Hq in *.
  clearbody Q0 r. symmetry. apply Z.div_unique_pos with (r := r + q0 - 19 * Q0); unfold p25519 in *; [| lia].
  assert (-3 <= Q0 <= 3) by lia. lia.
Qed.

(** ** [fe_tobytes] *)

Definition tobytes_itv : list itv :=
  (-110729577, 110729577) :: tail (map (fun m => (- m, m)) (fe_bound 330)) ++ [(0, 0)].

Definition weights11 : list Z := fe_weights ++ [2 ^ 255].

Definition tobytes_out : list itv := exact_itv ++ [(-2, 1)].

Lemma tobytes_abs : abs_run 32 fe_tobytes_carries tobytes_itv = Some tobytes_out.
Proof. vm_compute. reflexivity. Qed.

Lemma tobytes_wt : wt_run 0 weights11 fe_tobytes_carries weights11 = Some weights11.
Proof. vm_compute. reflexivity. Qed.

Lemma exact_value x : Forall2 in_itv x exact_itv -> 0 <= fe_val x < 2 ^ 255.
Proof.
  intros H. assert (P : Forall (fun w => 0 <= w) fe_weights) by (repeat constructor; lia).
  pose proof (dot_bounds fe_weights x exact_itv P H) as B. unfold fe_val.
  let v := eval vm_compute in (dot fe_weights (exact_itv.*1)) in change (dot fe_weights (exact_itv.*1)) with v in B.
  let v := eval vm_compute in (dot fe_weights (exact_itv.*2)) in change (dot fe_weights (exact_itv.*2)) with v in B.
  lia.
Qed.

(** The carries and the stores, from the limbs with the multiple of 19 added. *)
Lemma tobytes_tail h V :
  Forall2 in_itv (h ++ [0]) tobytes_itv -> length h = 10%nat -> 0 <= V < 2 ^ 255 ->
  fe_val h ≡⟨ 2 ^ 255 ⟩ V ->
  yields (x ← run 32 fe_tobytes_carries (h ++ [0]); Some (fe_store x))
    (fun s => is_bytes 32 s /\ le_combine s = V).
Proof.
  intros Hh Hl HV Hc.
  destruct (run_sound _ _ _ _ _ _ _ _ _ Hh tobytes_abs tobytes_wt) as (x & -> & B & E).
  exists (fe_store x). split; [done |]. split; [apply map_u8_bytes |].
  assert (Bx : Forall2 in_itv (take 10 x) exact_itv) by exact (Forall2_take _ _ _ 10 B).
  rewrite fe_store_value by done. pose proof (exact_value _ Bx).
  apply eqm_0 in E. unfold weights11 in E. rewrite !dot_app in E.
  change (length fe_weights) with 10%nat in E.
  rewrite (take_app_length' h), (drop_app_length' h) in E by done. fold (fe_val (take 10 x)) (fe_val h) in E.
  rewrite <- (Z.mod_small V (2 ^ 255)) by done. apply eqm_unique; [| done].
  rewrite <- Hc. exists (- dot [1] (drop 10 x)).
  destruct (drop 10 x); simpl dot in *; lia.
Qed.

Lemma tobytes_head f d : bounded 330 f -> Z.abs d <= 57 ->
  Forall2 in_itv (<[0%nat := at_ f 0 + d]> f ++ [0]) tobytes_itv /\
  fe_val (<[0%nat := at_ f 0 + d]> f) = fe_val f + d /\
  Z.abs (fe_val f - 2 ^ 230 * at_ f 9) <= 2 ^ 232.
Proof.
  intros Bf Hd. assert (Hl := bounded_length _ _ Bf). ten f Hl.
  unfold bounded, fe_bound in Bf. repeat (apply Forall2_cons_1 in Bf as [? Bf]).
  unfold fe_val, tobytes_itv.
  cbn [dot fe_weights at_ lookup list_lookup default from_option id insert list_insert app tail map fe_bound].
  rewrite Z.abs_le in *. split; [| split; [ring | lia]].
  repeat (apply Forall2_cons_2; [unfold in_itv; cbn [fst snd]; lia |]). constructor.
Qed.

Lemma bounded_small f : bounded 330 f -> Forall (fun x => Z.abs x <= 2 ^ 29) f.
Proof.
  intros Bf. assert (Hl := bounded_length _ _ Bf). ten f Hl.
  unfold bounded, fe_bound in Bf. repeat (apply Forall2_cons_1 in Bf as [? Bf]).
  repeat (constructor; [lia |]). constructor.
Qed.

Lemma fe_tobytes_ok k f v : rep k f v -> k <= 330 ->
  yields (fe_tobytes f) (fun s => is_bytes 32 s /\ le_combine s = v mod p25519).
Proof.
  intros [Bf Vf] Hk. apply (bounded_weaken _ 330) in Bf; [| done].
  assert (Hl := bounded_length _ _ Bf).
  assert (B9 := bounded_at 330 f 9 _ Bf eq_refl). assert (B0 := bounded_at 330 f 0 _ Bf eq_refl).
  destruct (tobytes_head f 0 Bf ltac:(lia)) as (_ & _ & Hlow).
  pose proof (quotient_exact (fe_val f) (at_ f 9) _ _ ltac:(by rewrite Zplus_minus) Hlow ltac:(lia) eq_refl) as Q.
  pose proof (Z.div_mod (fe_val f) p25519 ltac:(done)) as D. pose proof (Z.mod_pos_bound (fe_val f) p25519 ltac:(done)).
  assert (HQ : -3 <= fe_val f / p25519 <= 3) by (unfold p25519 in *; lia).
  unfold fe_tobytes. rewrite chk_ok by lia. cbn [mbind option_bind].
  change (Z.shiftl 1 24) with (2 ^ 24). rewrite chk_ok by lia. cbn [mbind option_bind].
  rewrite Z.shiftr_div_pow2 by lia.
  rewrite fe_quotient_ok; [| by apply bounded_small | repeat constructor; lia | by rewrite Hl | zlia].
  change (dot (cumulative limb_widths) f) with (fe_val f). change (total limb_widths) with 255. rewrite Q.
  cbn [mbind option_bind]. rewrite chk_ok by lia. cbn [mbind option_bind].
  rewrite chk_ok by lia. cbn [mbind option_bind].
  destruct (tobytes_head f (19 * (fe_val f / p25519)) Bf ltac:(lia)) as (Hi & Hval & _).
  rewrite <- (proj1 (eqm_mod p25519 _ _ ltac:(done)) Vf).
  apply tobytes_tail; [exact Hi | by rewrite length_insert | unfold p25519 in *; lia |].
  rewrite Hval. exists (fe_val f / p25519). unfold p25519 in *. lia.
Qed.

(** ** Sign, zero test and conditional move *)

Lemma fe_isnegative_ok k f v : rep k f v -> k <= 330 ->
  fe_isnegative f = Some ((v mod p25519) mod 2).
Proof.
  intros Hf Hk. destruct (fe_tobytes_ok k f v Hf Hk) as (s & E & [Hl Hs] & V).
  unfold fe_isnegative. rewrite E. cbn [mbind option_bind]. f_equal. rewrite <- V.
  rewrite (Z.land_ones _ 1) by lia. change (2 ^ 1) with 2.
  destruct s as [| b s]; [done |]. cbn [at_ lookup list_lookup default from_option id le_combine]. zlia.
Qed.

Lemma fe_isnonzero_ok k f v : rep k f v -> k <= 330 ->
  fe_isnonzero f = Some (if v mod p25519 =? 0 then 0 else 1).
Proof.
  intros Hf Hk. destruct (fe_tobytes_ok k f v Hf Hk) as (s & E & Hs & V).
  unfold fe_isnonzero. rewrite E. cbn [mbind option_bind].
  by rewrite bytes_isnonzero_ok, V.
Qed.

(** The test of [fe_cmov] accepts 0 and 1 and the result is the chosen element. *)
Lemma fe_cmov_ok f g b : length f = 10%nat -> length g = 10%nat ->
  (b = 0 \/ b = 1) -> fe_cmov f g b = Some (if b =? 1 then g else f).
Proof.
  intros Hf Hg [-> | ->]; unfold fe_cmov.
  - change (to_i32 (u32 (- 0))) with 0. cbn -[Z.lxor Z.land map seq]. f_equal.
    ten f Hf. cbn [map seq at_ lookup list_lookup default from_option id].
    by rewrite !Z.land_0_r, !Z.lxor_0_r.
  - change (to_i32 (u32 (- 1))) with (-1). cbn -[Z.lxor Z.land map seq]. f_equal.
    ten f Hf. ten g Hg. cbn [map seq at_ lookup list_lookup default from_option id].
    by rewrite !Z.land_m1_r, <- !Z.lxor_assoc, !Z.lxor_nilpotent, !Z.lxor_0_l.
Qed.
End FeBytes.
