(* ===== verification/Curve.v ===== *)
(** The twisted Edwards curve [-x^2 + y^2 = 1 + d x^2 y^2] over the integers
    modulo [p = 2^255 - 19]: the group the [ge_*] functions of
    src/crypto/crypto-ops.c compute in.

    Points are affine; the addition law has no exception because [-1] is a
    square and [d] is not.  The polynomial identities behind closure and
    associativity are checked with explicit cofactors of the curve equations. *)
From Stdlib Require Import Znumtheory Zpow_facts.
From S2P Require Import Prelude Primes Group Fe.

Local Open Scope Z_scope.

Module Curve.
Import Fe Group.

Local Notation "a == b" := (eqm p25519 a b) (at level 70).

(** ** The field *)

Lemma p_prime : Z.prime p25519.
Proof. exact Primes.prime_25519. Qed.

Lemma p_pos : 1 < p25519.
Proof. done. Qed.

Definition nonzero (a : Z) : Prop := ~ a == 0.

#[global] Instance nonzero_proper : Proper (eqm p25519 ==> iff) nonzero.
Proof. intros a b E. unfold nonzero. by rewrite E. Qed.

Lemma eqm_0_divide a : a == 0 <-> (p25519 | a).
Proof. unfold eqm. by rewrite Z.sub_0_r. Qed.

Lemma eqm_sub_0 a b : a == b <-> a - b == 0.
Proof. unfold eqm. by rewrite Z.sub_0_r. Qed.

Lemma mul_eq_0 a b : a * b == 0 -> a == 0 \/ b == 0.
Proof. rewrite !eqm_0_divide. intros D. by apply Z.divide_prime_mul in D; [| exact p_prime]. Qed.

Lemma nonzero_mul a b : nonzero a -> nonzero b -> nonzero (a * b).
Proof. intros Ha Hb E. by destruct (mul_eq_0 _ _ E). Qed.

Lemma nonzero_mul_inv a b : nonzero (a * b) -> nonzero a /\ nonzero b.
Proof.
  intros H. split; intros E; apply H; rewrite E; [by rewrite Z.mul_0_l | by rewrite Z.mul_0_r].
Qed.

Lemma nonzero_const a : a mod p25519 <> 0 -> nonzero a.
Proof. intros H E. apply H. by apply eqm_mod in E. Qed.

Lemma nonzero_pow a n : nonzero a -> 0 <= n -> nonzero (a ^ n).
Proof.
  intros Ha Hn. revert n Hn. apply natlike_ind.
  - by apply nonzero_const.
  - intros x Hx IH. rewrite Z.pow_succ_r by done. by apply nonzero_mul.
Qed.

Lemma cancel_l c a b : nonzero c -> c * a == c * b -> a == b.
Proof.
  intros Hc E. apply eqm_sub_0. apply eqm_sub_0 in E.
  replace (c * a - c * b) with (c * (a - b)) in E by ring. by destruct (mul_eq_0 _ _ E).
Qed.

Lemma fermat a : nonzero a -> a ^ (p25519 - 1) == 1.
Proof.
  intros H. apply eqm_mod; [done |]. change (1 mod p25519) with 1.
  apply ZmodInv.Z.fermat_nz; [exact p_prime |]. intros E. apply H. by apply eqm_mod.
Qed.

Definition inv (a : Z) : Z := Zpow_mod a (p25519 - 2) p25519.

Lemma inv_pow a : inv a == a ^ (p25519 - 2).
Proof. unfold inv. rewrite Zpow_mod_correct by done. by apply eqm_mod_r. Qed.

Lemma inv_r a : nonzero a -> a * inv a == 1.
Proof.
  intros H. rewrite inv_pow, <- (fermat a H).
  replace (p25519 - 1) with (Z.succ (p25519 - 2)) by lia. by rewrite Z.pow_succ_r.
Qed.

#[global] Instance inv_proper : Proper (eqm p25519 ==> eqm p25519) inv.
Proof. intros a b E. by rewrite !inv_pow, E. Qed.

#[global] Opaque inv.

(** [a / b] is determined by [b * (a / b) = a]. *)
Lemma div_r a b : nonzero b -> b * (a * inv b) == a.
Proof. intros H. replace (b * (a * inv b)) with (a * (b * inv b)) by ring. by rewrite inv_r, Z.mul_1_r. Qed.

Lemma div_unique a b x : nonzero b -> b * x == a -> x == a * inv b.
Proof. intros H E. apply (cancel_l b); [done |]. by rewrite E, div_r. Qed.

(** A goal that holds as an identity of integers. *)
Ltac eqm_ring :=
  match goal with |- eqm _ ?a ?b => replace a with b by ring; reflexivity end.

(** ** The constants *)

(** [d = -121665 / 121666] and a square root of [-1]. *)
Definition edwards_d : Z :=
  37095705934669439343138083508754565189542113879843219016388785533085940283555.
Definition sqrtm1 : Z :=
  19681161376707505956807079304988542015446066515923890162744021073123829784752.

Lemma edwards_d_ratio : 121666 * edwards_d == -121665.
Proof. apply eqm_of_mod. vm_compute. reflexivity. Qed.

Lemma sqrtm1_sq : sqrtm1 * sqrtm1 == -1.
Proof. apply eqm_of_mod. vm_compute. reflexivity. Qed.

Lemma d_nonzero : nonzero edwards_d.
Proof. apply nonzero_const. vm_compute. discriminate. Qed.

Definition nonsquare (a : Z) : Prop := forall z, ~ z * z == a.

(** Euler's criterion, in the direction used. *)
Lemma euler_nonsquare a :
  a mod p25519 <> 0 -> Zpow_mod a ((p25519 - 1) / 2) p25519 = p25519 - 1 -> nonsquare a.
Proof.
  intros Na%nonzero_const D z E. assert (Hz : nonzero z).
  { intros Hz. rewrite Hz, Z.mul_0_l in E. by apply Na. }
  pose proof (fermat z Hz) as F.
  replace (p25519 - 1) with (2 * ((p25519 - 1) / 2)) in F by (vm_compute; reflexivity).
  rewrite Z.pow_mul_r, Z.pow_2_r, E in F by (vm_compute; discriminate).
  rewrite Zpow_mod_correct in D by done.
  apply eqm_mod in F; [| done]. rewrite D in F. discriminate F.
Qed.

Lemma d_nonsquare : nonsquare edwards_d.
Proof. apply euler_nonsquare; vm_compute; [discriminate | reflexivity]. Qed.

(** A square that is a non-square times a square is zero. *)
Lemma ratio_zero c a b : nonsquare c -> a * a == c * (b * b) -> b == 0.
Proof.
  intros Nc E. destruct (decide (b mod p25519 = 0)) as [| Hb]; [by apply eqm_mod |].
  exfalso. assert (Hn : nonzero b) by by apply nonzero_const.
  apply (Nc (a * inv b)).
  replace (a * inv b * (a * inv b)) with (a * a * (inv b * inv b)) by ring. rewrite E.
  replace (c * (b * b) * (inv b * inv b)) with (c * ((b * inv b) * (b * inv b))) by ring.
  rewrite inv_r by done. eqm_ring.
Qed.

Lemma no_ratio a b : a * a == edwards_d * (b * b) -> b == 0.
Proof. apply ratio_zero, d_nonsquare. Qed.

(** ** Polynomial identities *)

Definition curve_poly (d x y : Z) : Z := y * y - x * x - 1 - d * x * x * y * y.

Section Identities.
Context (d x1 y1 x2 y2 x3 y3 : Z).

(** Numerators and denominators of the sum of two points. *)
Let N1 := x1 * y2 + x2 * y1.
Let N2 := y1 * y2 + x1 * x2.
Let D1 := 1 + d * x1 * x2 * y1 * y2.
Let D2 := 1 - d * x1 * x2 * y1 * y2.
Let M1 := x2 * y3 + x3 * y2.
Let M2 := y2 * y3 + x2 * x3.
Let F1 := 1 + d * x2 * x3 * y2 * y3.
Let F2 := 1 - d * x2 * x3 * y2 * y3.

Lemma closure_identity :
  N2 * N2 * D1 * D1 - N1 * N1 * D2 * D2 - D1 * D1 * D2 * D2 - d * N1 * N1 * N2 * N2 =
  (y2^4 + (-4)*x2^2*y2^2 + (-2)*x2^2*y2^2*d + 2*x2^2*y2^4 + x2^4
      + (-2)*x2^4*y2^2 + (-2)*x2^4*y2^4*d - x2^4*y2^4*d^2
      - y1^2*x2^2*y2^4*d + y1^2*x2^4*y2^2*d + y1^2*x2^4*y2^4*d^2
      + x1^2*x2^2*y2^4*d - x1^2*x2^4*y2^2*d - x1^2*x2^4*y2^4*d^2
      + x1^2*y1^2*x2^4*y2^4*d^3) * curve_poly d x1 y1 +
  (1 + y2^2 - x2^2 + 2*x2^2*y2^2 + x2^2*y2^2*d - y1^2*y2^2 + y1^2*x2^2
      + (-2)*y1^2*x2^2*y2^2 + (-2)*y1^2*x2^2*y2^2*d + y1^4*x2^2*y2^2*d + x1^2*y2^2
      - x1^2*x2^2 + 2*x1^2*x2^2*y2^2 + 2*x1^2*x2^2*y2^2*d + x1^4*x2^2*y2^2*d) * curve_poly d x2 y2.
Proof. unfold N1, N2, D1, D2, curve_poly. ring. Qed.

Lemma assoc_x_identity :
  (N1 * D2 * y3 + x3 * N2 * D1) * (F1 * F2 + d * M1 * M2 * x1 * y1)
  - (x1 * M2 * F1 + M1 * F2 * y1) * (D1 * D2 + d * N1 * N2 * x3 * y3) =
  (-y1*x2*y2^4*x3^2*y3*d - y1*x2^2*y2^3*x3*d - y1*x2^2*y2^3*x3^3*d
      - y1*x2^3*y2^2*y3*d + y1*x2^3*y2^2*y3^3*d + y1*x2^3*y2^4*x3^2*y3*d^2
      + y1*x2^4*y2*x3*y3^2*d + y1*x2^4*y2^3*x3*y3^2*d^2
      + x1*x2*y2^4*x3*y3^2*d - x1*x2^2*y2^3*y3*d + x1*x2^2*y2^3*y3^3*d
      - x1*x2^3*y2^2*x3*d - x1*x2^3*y2^2*x3^3*d - x1*x2^3*y2^4*x3*y3^2*d^2
      - x1*x2^4*y2*x3^2*y3*d - x1*x2^4*y2^3*x3^2*y3*d^2) * curve_poly d x1 y1 +
  (y1*y2*x3 - y1*y2*x3*y3^2 + y1*y2*x3^3 + y1*y2*x3^3*y3^2*d + y1*x2*y3 - y1*x2*y3^3
      + y1*x2*x3^2*y3 + y1*x2*x3^2*y3^3*d - y1*x2*y2^2*x3^2*y3*d - y1*x2^2*y2*x3*y3^2*d
      - y1^3*y2*x3 + y1^3*y2*x3*y3^2 - y1^3*y2*x3^3 - y1^3*y2*x3^3*y3^2*d
      - y1^3*x2*y3 + y1^3*x2*y3^3 - y1^3*x2*x3^2*y3 - y1^3*x2*x3^2*y3^3*d
      + y1^3*x2*y2^2*x3^2*y3*d + y1^3*x2^2*y2*x3*y3^2*d + x1*y2*y3 - x1*y2*y3^3
      + x1*y2*x3^2*y3 + x1*y2*x3^2*y3^3*d + x1*x2*x3 - x1*x2*x3*y3^2 + x1*x2*x3^3
      + x1*x2*x3^3*y3^2*d + x1*x2*y2^2*x3*y3^2*d + x1*x2^2*y2*x3^2*y3*d - x1*y1^2*y2*y3
      + x1*y1^2*y2*y3^3 - x1*y1^2*y2*x3^2*y3 - x1*y1^2*y2*x3^2*y3^3*d - x1*y1^2*x2*x3
      + x1*y1^2*x2*x3*y3^2 - x1*y1^2*x2*x3^3 - x1*y1^2*x2*x3^3*y3^2*d
      - x1*y1^2*x2*y2^2*x3*y3^2*d + x1*y1^2*x2*y2^2*x3^3*y3^2*d^2
      - x1*y1^2*x2^2*y2*x3^2*y3*d - x1*y1^2*x2^2*y2*x3^2*y3^3*d^2 + x1^2*y1*y2*x3
      - x1^2*y1*y2*x3*y3^2 + x1^2*y1*y2*x3^3 + x1^2*y1*y2*x3^3*y3^2*d + x1^2*y1*x2*y3
      - x1^2*y1*x2*y3^3 + x1^2*y1*x2*x3^2*y3 + x1^2*y1*x2*x3^2*y3^3*d
      - x1^2*y1*x2*y2^2*x3^2*y3*d - x1^2*y1*x2*y2^2*x3^2*y3^3*d^2
      - x1^2*y1*x2^2*y2*x3*y3^2*d + x1^2*y1*x2^2*y2*x3^3*y3^2*d^2 + x1^3*y2*y3
      - x1^3*y2*y3^3 + x1^3*y2*x3^2*y3 + x1^3*y2*x3^2*y3^3*d + x1^3*x2*x3
      - x1^3*x2*x3*y3^2 + x1^3*x2*x3^3 + x1^3*x2*x3^3*y3^2*d
      + x1^3*x2*y2^2*x3*y3^2*d + x1^3*x2^2*y2*x3^2*y3*d) * curve_poly d x2 y2 +
  (-y1*y2*x3 + y1*y2^3*x3 - y1*x2*y3 + y1*x2*y2^2*y3 - y1*x2^2*y2*x3 - y1*x2^3*y3
      + y1^3*y2*x3 - y1^3*y2^3*x3 + y1^3*x2*y3 - y1^3*x2*y2^2*y3
      + y1^3*x2^2*y2*x3 + y1^3*x2^3*y3 - x1*y2*y3 + x1*y2^3*y3 - x1*x2*x3
      + x1*x2*y2^2*x3 - x1*x2^2*y2*y3 - x1*x2^3*x3 + x1*y1^2*y2*y3 - x1*y1^2*y2^3*y3
      + x1*y1^2*x2*x3 - x1*y1^2*x2*y2^2*x3 - x1*y1^2*x2*y2^2*x3*d + x1*y1^2*x2^2*y2*y3
      + x1*y1^2*x2^2*y2*y3*d + x1*y1^2*x2^3*x3 - x1^2*y1*y2*x3 + x1^2*y1*y2^3*x3
      - x1^2*y1*x2*y3 + x1^2*y1*x2*y2^2*y3 + x1^2*y1*x2*y2^2*y3*d - x1^2*y1*x2^2*y2*x3
      - x1^2*y1*x2^2*y2*x3*d - x1^2*y1*x2^3*y3 - x1^3*y2*y3 + x1^3*y2^3*y3
      - x1^3*x2*x3 + x1^3*x2*y2^2*x3 - x1^3*x2^2*y2*y3 - x1^3*x2^3*x3) * curve_poly d x3 y3.
Proof. unfold N1, N2, D1, D2, M1, M2, F1, F2, curve_poly. ring. Qed.

Lemma assoc_y_identity :
  (N2 * y3 * D1 + x3 * N1 * D2) * (F1 * F2 - d * M1 * M2 * x1 * y1)
  - (y1 * M2 * F1 + x1 * M1 * F2) * (D1 * D2 - d * N1 * N2 * x3 * y3) =
  (y1*x2*y2^4*x3*y3^2*d - y1*x2^2*y2^3*y3*d + y1*x2^2*y2^3*y3^3*d
      - y1*x2^3*y2^2*x3*d - y1*x2^3*y2^2*x3^3*d - y1*x2^3*y2^4*x3*y3^2*d^2
      - y1*x2^4*y2*x3^2*y3*d - y1*x2^4*y2^3*x3^2*y3*d^2
      - x1*x2*y2^4*x3^2*y3*d - x1*x2^2*y2^3*x3*d - x1*x2^2*y2^3*x3^3*d
      - x1*x2^3*y2^2*y3*d + x1*x2^3*y2^2*y3^3*d + x1*x2^3*y2^4*x3^2*y3*d^2
      + x1*x2^4*y2*x3*y3^2*d + x1*x2^4*y2^3*x3*y3^2*d^2) * curve_poly d x1 y1 +
  (y1*y2*y3 - y1*y2*y3^3 + y1*y2*x3^2*y3 + y1*y2*x3^2*y3^3*d + y1*x2*x3 - y1*x2*x3*y3^2
      + y1*x2*x3^3 + y1*x2*x3^3*y3^2*d + y1*x2*y2^2*x3*y3^2*d + y1*x2^2*y2*x3^2*y3*d
      - y1^3*y2*y3 + y1^3*y2*y3^3 - y1^3*y2*x3^2*y3 - y1^3*y2*x3^2*y3^3*d
      - y1^3*x2*x3 + y1^3*x2*x3*y3^2 - y1^3*x2*x3^3 - y1^3*x2*x3^3*y3^2*d
      - y1^3*x2*y2^2*x3*y3^2*d - y1^3*x2^2*y2*x3^2*y3*d + x1*y2*x3 - x1*y2*x3*y3^2
      + x1*y2*x3^3 + x1*y2*x3^3*y3^2*d + x1*x2*y3 - x1*x2*y3^3 + x1*x2*x3^2*y3
      + x1*x2*x3^2*y3^3*d - x1*x2*y2^2*x3^2*y3*d - x1*x2^2*y2*x3*y3^2*d - x1*y1^2*y2*x3
      + x1*y1^2*y2*x3*y3^2 - x1*y1^2*y2*x3^3 - x1*y1^2*y2*x3^3*y3^2*d - x1*y1^2*x2*y3
      + x1*y1^2*x2*y3^3 - x1*y1^2*x2*x3^2*y3 - x1*y1^2*x2*x3^2*y3^3*d
      + x1*y1^2*x2*y2^2*x3^2*y3*d + x1*y1^2*x2*y2^2*x3^2*y3^3*d^2
      + x1*y1^2*x2^2*y2*x3*y3^2*d - x1*y1^2*x2^2*y2*x3^3*y3^2*d^2 + x1^2*y1*y2*y3
      - x1^2*y1*y2*y3^3 + x1^2*y1*y2*x3^2*y3 + x1^2*y1*y2*x3^2*y3^3*d + x1^2*y1*x2*x3
      - x1^2*y1*x2*x3*y3^2 + x1^2*y1*x2*x3^3 + x1^2*y1*x2*x3^3*y3^2*d
      + x1^2*y1*x2*y2^2*x3*y3^2*d - x1^2*y1*x2*y2^2*x3^3*y3^2*d^2
      + x1^2*y1*x2^2*y2*x3^2*y3*d + x1^2*y1*x2^2*y2*x3^2*y3^3*d^2 + x1^3*y2*x3
      - x1^3*y2*x3*y3^2 + x1^3*y2*x3^3 + x1^3*y2*x3^3*y3^2*d + x1^3*x2*y3
      - x1^3*x2*y3^3 + x1^3*x2*x3^2*y3 + x1^3*x2*x3^2*y3^3*d
      - x1^3*x2*y2^2*x3^2*y3*d - x1^3*x2^2*y2*x3*y3^2*d) * curve_poly d x2 y2 +
  (-y1*y2*y3 + y1*y2^3*y3 - y1*x2*x3 + y1*x2*y2^2*x3 - y1*x2^2*y2*y3 - y1*x2^3*x3
      + y1^3*y2*y3 - y1^3*y2^3*y3 + y1^3*x2*x3 - y1^3*x2*y2^2*x3
      + y1^3*x2^2*y2*y3 + y1^3*x2^3*x3 - x1*y2*x3 + x1*y2^3*x3 - x1*x2*y3
      + x1*x2*y2^2*y3 - x1*x2^2*y2*x3 - x1*x2^3*y3 + x1*y1^2*y2*x3 - x1*y1^2*y2^3*x3
      + x1*y1^2*x2*y3 - x1*y1^2*x2*y2^2*y3 - x1*y1^2*x2*y2^2*y3*d + x1*y1^2*x2^2*y2*x3
      + x1*y1^2*x2^2*y2*x3*d + x1*y1^2*x2^3*y3 - x1^2*y1*y2*y3 + x1^2*y1*y2^3*y3
      - x1^2*y1*x2*x3 + x1^2*y1*x2*y2^2*x3 + x1^2*y1*x2*y2^2*x3*d - x1^2*y1*x2^2*y2*y3
      - x1^2*y1*x2^2*y2*y3*d - x1^2*y1*x2^3*x3 - x1^3*y2*x3 + x1^3*y2^3*x3
      - x1^3*x2*y3 + x1^3*x2*y2^2*y3 - x1^3*x2^2*y2*x3 - x1^3*x2^3*y3) * curve_poly d x3 y3.
Proof. unfold N1, N2, D1, D2, M1, M2, F1, F2, curve_poly. ring. Qed.
End Identities.

(** ** Completeness of the addition law *)

Definition on_curve (x y : Z) : Prop := curve_poly edwards_d x y == 0.

#[global] Instance on_curve_proper : Proper (eqm p25519 ==> eqm p25519 ==> iff) on_curve.
Proof. intros x x' Ex y y' Ey. unfold on_curve, curve_poly. by rewrite Ex, Ey. Qed.

Section Complete.
Context (x1 y1 x2 y2 : Z) (H1 : on_curve x1 y1) (H2 : on_curve x2 y2).
Let e := edwards_d * x1 * x2 * y1 * y2.

Lemma ratio_identity i : i * i == -1 -> e * e == 1 ->
  (i * x1 + e * y1) * (i * x1 + e * y1) ==
  edwards_d * (x1 * y1 * (i * x2 + y2) * (x1 * y1 * (i * x2 + y2))).
Proof.
  intros Hi He. apply eqm_sub_0 in Hi, He. apply eqm_sub_0. unfold on_curve in *.
  match goal with |- ?g == 0 => replace g with
    ((x1 * x1 - edwards_d * x1 * x1 * y1 * y1 * x2 * x2) * (i * i - -1) + (y1 * y1 - 1) * (e * e - 1)
     + curve_poly edwards_d x1 y1 - edwards_d * x1 * x1 * y1 * y1 * curve_poly edwards_d x2 y2)
    by (unfold curve_poly, e; ring) end.
  rewrite Hi, He, H1, H2. eqm_ring.
Qed.

Lemma e_square : ~ e * e == 1.
Proof.
  intros He. assert (Hne : nonzero e).
  { intros E. rewrite E in He. by apply eqm_mod in He. }
  pose proof (no_ratio _ _ (ratio_identity sqrtm1 sqrtm1_sq He)) as R1.
  assert (Hm : (- sqrtm1) * (- sqrtm1) == -1) by (rewrite <- sqrtm1_sq; eqm_ring).
  pose proof (no_ratio _ _ (ratio_identity (- sqrtm1) Hm He)) as R2.
  unfold e in Hne.
  replace (edwards_d * x1 * x2 * y1 * y2) with (edwards_d * x2 * (x1 * y1 * y2)) in Hne by ring.
  apply nonzero_mul_inv in Hne as [_ [Hxy Hy2]%nonzero_mul_inv].
  destruct (mul_eq_0 _ _ R1) as [| S1]; [done |]. destruct (mul_eq_0 _ _ R2) as [| S2]; [done |].
  apply Hy2. apply (cancel_l 2); [by apply nonzero_const |].
  replace (2 * y2) with ((sqrtm1 * x2 + y2) + (- sqrtm1 * x2 + y2)) by ring.
  rewrite S1, S2. eqm_ring.
Qed.

Lemma denominators : nonzero (1 + e) /\ nonzero (1 - e).
Proof.
  split; intros E; apply e_square.
  - replace (e * e) with ((1 + e) * (e - 1) + 1) by ring. rewrite E. eqm_ring.
  - replace (e * e) with (1 - (1 - e) * (1 + e)) by ring. rewrite E. eqm_ring.
Qed.
End Complete.

(** ** Points *)

Record point := mkpoint { px : Z; py : Z; p_on : on_curve px py }.

Definition sum_x (x1 y1 x2 y2 : Z) : Z :=
  ((x1 * y2 + x2 * y1) * inv (1 + edwards_d * x1 * x2 * y1 * y2)) mod p25519.
Definition sum_y (x1 y1 x2 y2 : Z) : Z :=
  ((y1 * y2 + x1 * x2) * inv (1 - edwards_d * x1 * x2 * y1 * y2)) mod p25519.

Lemma sum_x_eq x1 y1 x2 y2 : on_curve x1 y1 -> on_curve x2 y2 ->
  (1 + edwards_d * x1 * x2 * y1 * y2) * sum_x x1 y1 x2 y2 == x1 * y2 + x2 * y1.
Proof.
  intros H1 H2. unfold sum_x. rewrite eqm_mod_r by done. apply div_r, (denominators _ _ _ _ H1 H2).
Qed.

Lemma sum_y_eq x1 y1 x2 y2 : on_curve x1 y1 -> on_curve x2 y2 ->
  (1 - edwards_d * x1 * x2 * y1 * y2) * sum_y x1 y1 x2 y2 == y1 * y2 + x1 * x2.
Proof.
  intros H1 H2. unfold sum_y. rewrite eqm_mod_r by done. apply div_r, (denominators _ _ _ _ H1 H2).
Qed.

Lemma sum_on x1 y1 x2 y2 : on_curve x1 y1 -> on_curve x2 y2 ->
  on_curve (sum_x x1 y1 x2 y2) (sum_y x1 y1 x2 y2).
Proof.
  intros H1 H2. destruct (denominators _ _ _ _ H1 H2) as [Hp Hm].
  pose proof (sum_x_eq _ _ _ _ H1 H2) as Ex. pose proof (sum_y_eq _ _ _ _ H1 H2) as Ey.
  generalize dependent (sum_x x1 y1 x2 y2). generalize dependent (sum_y x1 y1 x2 y2). intros y Ey x Ex.
  set (D1 := 1 + edwards_d * x1 * x2 * y1 * y2) in *. set (D2 := 1 - edwards_d * x1 * x2 * y1 * y2) in *.
  apply (cancel_l (D1 * D1 * (D2 * D2))); [by repeat apply nonzero_mul |].
  rewrite Z.mul_0_r. unfold curve_poly.
  replace (D1 * D1 * (D2 * D2) * (y * y - x * x - 1 - edwards_d * x * x * y * y)) with
    ((D2 * y) * (D2 * y) * D1 * D1 - (D1 * x) * (D1 * x) * D2 * D2 - D1 * D1 * D2 * D2
     - edwards_d * (D1 * x) * (D1 * x) * (D2 * y) * (D2 * y)) by ring.
  rewrite Ex, Ey. unfold D1, D2. rewrite closure_identity.
  unfold on_curve in *. rewrite H1, H2, !Z.mul_0_r. done.
Qed.

Definition peq (P Q : point) : Prop := px P == px Q /\ py P == py Q.

Definition padd (P Q : point) : point :=
  mkpoint (sum_x (px P) (py P) (px Q) (py Q)) (sum_y (px P) (py P) (px Q) (py Q))
    (sum_on _ _ _ _ (p_on P) (p_on Q)).

Lemma zero_on : on_curve 0 1.
Proof. by apply eqm_of_mod. Qed.

Definition pzero : point := mkpoint 0 1 zero_on.

Lemma opp_on x y : on_curve x y -> on_curve (- x) y.
Proof. unfold on_curve. intros <-. unfold curve_poly. eqm_ring. Qed.

Definition popp (P : point) : point := mkpoint (- px P) (py P) (opp_on _ _ (p_on P)).

(** ** The group laws *)

#[global] Instance peq_equivalence : Equivalence peq.
Proof.
  unfold peq. split.
  - intros P. by split.
  - intros P Q [-> ->]. by split.
  - intros P Q R [-> ->] [-> ->]. by split.
Qed.

#[global] Instance padd_proper : Proper (peq ==> peq ==> peq) padd.
Proof.
  intros P P' [Ex Ey] Q Q' [Fx Fy]. unfold peq, padd, sum_x, sum_y; simpl.
  by rewrite !eqm_mod_r, Ex, Ey, Fx, Fy by done.
Qed.

#[global] Instance popp_proper : Proper (peq ==> peq) popp.
Proof. intros P Q [Ex Ey]. unfold peq; simpl. by rewrite Ex, Ey. Qed.

Definition cross (P Q : point) : Z := edwards_d * px P * px Q * py P * py Q.

Lemma cross_nonzero P Q : nonzero (1 + cross P Q) /\ nonzero (1 - cross P Q).
Proof. apply denominators; apply p_on. Qed.

Lemma padd_x P Q : (1 + cross P Q) * px (padd P Q) == px P * py Q + px Q * py P.
Proof. apply sum_x_eq; apply p_on. Qed.

Lemma padd_y P Q : (1 - cross P Q) * py (padd P Q) == py P * py Q + px P * px Q.
Proof. apply sum_y_eq; apply p_on. Qed.

(** The sum is the only pair that satisfies its two equations. *)
Lemma padd_unique P Q R :
  (1 + cross P Q) * px R == px P * py Q + px Q * py P ->
  (1 - cross P Q) * py R == py P * py Q + px P * px Q -> peq R (padd P Q).
Proof.
  intros Hx Hy. destruct (cross_nonzero P Q) as [H1 H2]. split.
  - apply (cancel_l (1 + cross P Q)); [done |]. by rewrite Hx, padd_x.
  - apply (cancel_l (1 - cross P Q)); [done |]. by rewrite Hy, padd_y.
Qed.

Lemma padd_comm P Q : peq (padd P Q) (padd Q P).
Proof.
  apply padd_unique.
  - replace (cross Q P) with (cross P Q) by (unfold cross; ring). rewrite padd_x. eqm_ring.
  - replace (cross Q P) with (cross P Q) by (unfold cross; ring). rewrite padd_y. eqm_ring.
Qed.

Lemma padd_0_r P : peq (padd P pzero) P.
Proof. symmetry. apply padd_unique; unfold cross; simpl; eqm_ring. Qed.

Lemma padd_opp_r P : peq (padd P (popp P)) pzero.
Proof.
  symmetry. apply padd_unique; unfold cross; simpl; [eqm_ring |].
  apply eqm_sub_0. pose proof (p_on P) as H. unfold on_curve in H.
  match goal with |- ?g == 0 =>
    replace g with (- curve_poly edwards_d (px P) (py P)) by (unfold curve_poly; ring) end.
  by rewrite H.
Qed.

(** The coordinates of a double sum, with the inner denominators cleared. *)
Section DoubleSum.
Context (P Q R : point).
Let d := edwards_d.
Let N1 := px P * py Q + px Q * py P.
Let N2 := py P * py Q + px P * px Q.
Let D1 := 1 + cross P Q.
Let D2 := 1 - cross P Q.

Lemma double_x :
  (D1 * D2 + d * N1 * N2 * px R * py R) * px (padd (padd P Q) R) == N1 * D2 * py R + px R * N2 * D1 /\
  nonzero (D1 * D2 + d * N1 * N2 * px R * py R).
Proof.
  pose proof (padd_x P Q) as Ex. pose proof (padd_y P Q) as Ey.
  pose proof (padd_x (padd P Q) R) as E. destruct (cross_nonzero (padd P Q) R) as [H _].
  destruct (cross_nonzero P Q) as [H1 H2]. fold D1 in Ex, H1. fold D2 in Ey, H2. unfold cross in E, H.
  generalize dependent (px (padd (padd P Q) R)). generalize dependent (px (padd P Q)).
  generalize dependent (py (padd P Q)). intros b Ey a Ex H x E. fold N1 in Ex. fold N2 in Ey.
  assert (K : D1 * D2 + d * N1 * N2 * px R * py R == D1 * D2 * (1 + edwards_d * a * px R * b * py R)).
  { transitivity (D1 * D2 + d * (D1 * a) * (D2 * b) * px R * py R); [by rewrite Ex, Ey |].
    unfold d. clearbody D1 D2. eqm_ring. }
  rewrite K. split; [| by repeat apply nonzero_mul].
  rewrite <- Z.mul_assoc, E, <- Ex, <- Ey. clearbody D1 D2. eqm_ring.
Qed.

Lemma double_y :
  (D1 * D2 - d * N1 * N2 * px R * py R) * py (padd (padd P Q) R) == N2 * py R * D1 + px R * N1 * D2 /\
  nonzero (D1 * D2 - d * N1 * N2 * px R * py R).
Proof.
  pose proof (padd_x P Q) as Ex. pose proof (padd_y P Q) as Ey.
  pose proof (padd_y (padd P Q) R) as E. destruct (cross_nonzero (padd P Q) R) as [_ H].
  destruct (cross_nonzero P Q) as [H1 H2]. fold D1 in Ex, H1. fold D2 in Ey, H2. unfold cross in E, H.
  generalize dependent (py (padd (padd P Q) R)). generalize dependent (px (padd P Q)).
  generalize dependent (py (padd P Q)). intros b Ey a Ex H x E. fold N1 in Ex. fold N2 in Ey.
  assert (K : D1 * D2 - d * N1 * N2 * px R * py R == D1 * D2 * (1 - edwards_d * a * px R * b * py R)).
  { transitivity (D1 * D2 - d * (D1 * a) * (D2 * b) * px R * py R); [by rewrite Ex, Ey |].
    unfold d. clearbody D1 D2. eqm_ring. }
  rewrite K. split; [| by repeat apply nonzero_mul].
  rewrite <- Z.mul_assoc, E, <- Ex, <- Ey. clearbody D1 D2. eqm_ring.
Qed.
End DoubleSum.

Lemma cross_cancel k1 k2 n1 n2 x1 x2 :
  k1 * x1 == n1 -> k2 * x2 == n2 -> nonzero k1 -> nonzero k2 -> n1 * k2 == n2 * k1 -> x1 == x2.
Proof.
  intros E1 E2 H1 H2 E. apply (cancel_l (k1 * k2)); [by apply nonzero_mul |].
  replace (k1 * k2 * x1) with (k1 * x1 * k2) by ring. rewrite E1, E, <- E2. eqm_ring.
Qed.

Lemma padd_assoc P Q R : peq (padd P (padd Q R)) (padd (padd P Q) R).
Proof.
  rewrite (padd_comm P (padd Q R)). symmetry.
  pose proof (p_on P) as H1. pose proof (p_on Q) as H2. pose proof (p_on R) as H3. unfold on_curve in *.
  destruct (double_x P Q R) as [X1 Z1]. destruct (double_x Q R P) as [X2 Z2].
  destruct (double_y P Q R) as [Y1 W1]. destruct (double_y Q R P) as [Y2 W2]. split.
  - apply (cross_cancel _ _ _ _ _ _ X1 X2 Z1 Z2), eqm_sub_0.
    pose proof (assoc_x_identity edwards_d (px P) (py P) (px Q) (py Q) (px R) (py R)) as I.
    match type of I with ?l = _ => transitivity l; [unfold cross; eqm_ring |] end.
    by rewrite I, H1, H2, H3, !Z.mul_0_r.
  - apply (cross_cancel _ _ _ _ _ _ Y1 Y2 W1 W2), eqm_sub_0.
    pose proof (assoc_y_identity edwards_d (px P) (py P) (px Q) (py Q) (px R) (py R)) as I.
    match type of I with ?l = _ => transitivity l; [unfold cross; eqm_ring |] end.
    by rewrite I, H1, H2, H3, !Z.mul_0_r.
Qed.

#[global] Instance curve_group : AbGroup point := {
  geq := peq; gadd := padd; gzero := pzero; gopp := popp;
  gadd_assoc := padd_assoc; gadd_comm := padd_comm;
  gadd_0_r := padd_0_r; gadd_opp_r := padd_opp_r
}.
End Curve.
