(* ===== verification/Ge.v ===== *)
(** Points of the curve in the representations of src/crypto/crypto-ops.c: the
    [ge_*] functions.

    - [ge_p2]: projective [(X:Y:Z)]; - [ge_p3]: extended, with [T = XY/Z];
    - [ge_p1p1]: completed [((X:Z), (Y:T))]; - [ge_cached] and [ge_precomp]:
      a second operand of an addition, prepared.
    The fields are arrays of ten limbs; an operation fails where one of its
    field operations would overflow. *)
From S2P Require Import Prelude Limbs Pack Fe GeData.

Local Open Scope Z_scope.

Module Ge.
Import Limbs Pack Fe GeData.

Record ge_p2 := mk_p2 { p2_X : list Z; p2_Y : list Z; p2_Z : list Z }.
Record ge_p3 := mk_p3 { p3_X : list Z; p3_Y : list Z; p3_Z : list Z; p3_T : list Z }.
Record ge_p1p1 := mk_p1p1 { p1_X : list Z; p1_Y : list Z; p1_Z : list Z; p1_T : list Z }.
Record ge_cached := mk_cached { YplusX : list Z; YminusX : list Z; c_Z : list Z; T2d : list Z }.

(** ** Addition and doubling *)

Definition ge_add (p : ge_p3) (q : ge_cached) : option ge_p1p1 :=
  rX ← fe_add (p3_Y p) (p3_X p);
  rY ← fe_sub (p3_Y p) (p3_X p);
  rZ ← fe_mul rX (YplusX q);
  rY ← fe_mul rY (YminusX q);
  rT ← fe_mul (T2d q) (p3_T p);
  rX ← fe_mul (p3_Z p) (c_Z q);
  t0 ← fe_add rX rX;
  rX ← fe_sub rZ rY;
  rY ← fe_add rZ rY;
  rZ ← fe_add t0 rT;
  rT ← fe_sub t0 rT;
  Some (mk_p1p1 rX rY rZ rT).

Definition ge_sub (p : ge_p3) (q : ge_cached) : option ge_p1p1 :=
  rX ← fe_add (p3_Y p) (p3_X p);
  rY ← fe_sub (p3_Y p) (p3_X p);
  rZ ← fe_mul rX (YminusX q);
  rY ← fe_mul rY (YplusX q);
  rT ← fe_mul (T2d q) (p3_T p);
  rX ← fe_mul (p3_Z p) (c_Z q);
  t0 ← fe_add rX rX;
  rX ← fe_sub rZ rY;
  rY ← fe_add rZ rY;
  rZ ← fe_sub t0 rT;
  rT ← fe_add t0 rT;
  Some (mk_p1p1 rX rY rZ rT).

Definition ge_madd (p : ge_p3) (q : ge_precomp) : option ge_p1p1 :=
  rX ← fe_add (p3_Y p) (p3_X p);
  rY ← fe_sub (p3_Y p) (p3_X p);
  rZ ← fe_mul rX (yplusx q);
  rY ← fe_mul rY (yminusx q);
  rT ← fe_mul (xy2d q) (p3_T p);
  t0 ← fe_add (p3_Z p) (p3_Z p);
  rX ← fe_sub rZ rY;
  rY ← fe_add rZ rY;
  rZ ← fe_add t0 rT;
  rT ← fe_sub t0 rT;
  Some (mk_p1p1 rX rY rZ rT).

Definition ge_msub (p : ge_p3) (q : ge_precomp) : option ge_p1p1 :=
  rX ← fe_add (p3_Y p) (p3_X p);
  rY ← fe_sub (p3_Y p) (p3_X p);
  rZ ← fe_mul rX (yminusx q);
  rY ← fe_mul rY (yplusx q);
  rT ← fe_mul (xy2d q) (p3_T p);
  t0 ← fe_add (p3_Z p) (p3_Z p);
  rX ← fe_sub rZ rY;
  rY ← fe_add rZ rY;
  rZ ← fe_sub t0 rT;
  rT ← fe_add t0 rT;
  Some (mk_p1p1 rX rY rZ rT).

Definition ge_p2_dbl (p : ge_p2) : option ge_p1p1 :=
  rX ← fe_sq (p2_X p);
  rZ ← fe_sq (p2_Y p);
  rT ← fe_sq2 (p2_Z p);
  rY ← fe_add (p2_X p) (p2_Y p);
  t0 ← fe_sq rY;
  rY ← fe_add rZ rX;
  rZ ← fe_sub rZ rX;
  rX ← fe_sub t0 rY;
  rT ← fe_sub rT rZ;
  Some (mk_p1p1 rX rY rZ rT).

(** ** Conversions *)

Definition ge_p1p1_to_p2 (p : ge_p1p1) : option ge_p2 :=
  rX ← fe_mul (p1_X p) (p1_T p);
  rY ← fe_mul (p1_Y p) (p1_Z p);
  rZ ← fe_mul (p1_Z p) (p1_T p);
  Some (mk_p2 rX rY rZ).

Definition ge_p1p1_to_p3 (p : ge_p1p1) : option ge_p3 :=
  rX ← fe_mul (p1_X p) (p1_T p);
  rY ← fe_mul (p1_Y p) (p1_Z p);
  rZ ← fe_mul (p1_Z p) (p1_T p);
  rT ← fe_mul (p1_X p) (p1_Y p);
  Some (mk_p3 rX rY rZ rT).

Definition ge_p3_to_p2 (p : ge_p3) : ge_p2 :=
  mk_p2 (fe_copy (p3_X p)) (fe_copy (p3_Y p)) (fe_copy (p3_Z p)).

Definition ge_p3_dbl (p : ge_p3) : option ge_p1p1 := ge_p2_dbl (ge_p3_to_p2 p).

Definition ge_p3_to_cached (p : ge_p3) : option ge_cached :=
  yp ← fe_add (p3_Y p) (p3_X p);
  ym ← fe_sub (p3_Y p) (p3_X p);
  t ← fe_mul (p3_T p) fe_d2;
  Some (mk_cached yp ym (fe_copy (p3_Z p)) t).

(** ** Constants *)

Definition ge_p2_0 : ge_p2 := mk_p2 fe_0 fe_1 fe_1.
Definition ge_p3_0 : ge_p3 := mk_p3 fe_0 fe_1 fe_1 fe_0.
Definition ge_precomp_0 : ge_precomp := mk_precomp fe_1 fe_1 fe_0.
Definition ge_cached_0 : ge_cached := mk_cached fe_1 fe_1 fe_1 fe_0.

Definition ge_mul8 (t : ge_p2) : option ge_p1p1 :=
  r ← ge_p2_dbl t;
  u ← ge_p1p1_to_p2 r;
  r ← ge_p2_dbl u;
  u ← ge_p1p1_to_p2 r;
  ge_p2_dbl u.

(** ** Encodings *)

(** [s[31] ^= sign << 7], the body shared by the two functions. *)
Definition ge_encode (X Y W : list Z) : option (list Z) :=
  recip ← fe_invert W;
  x ← fe_mul X recip;
  y ← fe_mul Y recip;
  s ← fe_tobytes y;
  n ← fe_isnegative x;
  b ← s !! 31%nat;
  Some (<[31%nat := Z.lxor b (u8 (Z.shiftl n 7))]> s).

Definition ge_tobytes (h : ge_p2) : option (list Z) := ge_encode (p2_X h) (p2_Y h) (p2_Z h).
Definition ge_p3_tobytes (h : ge_p3) : option (list Z) := ge_encode (p3_X h) (p3_Y h) (p3_Z h).

(** The outcome of a decoding step: [None] where a field operation overflows,
    [Some None] where the function returns -1. *)
Abbreviation decoded A := (option (option A)).

(** Selects the root of [v x^2 = u] among [X] and [X sqrt(-1)], if there is one. *)
Definition ge_select_root (X u v : list Z) : decoded (list Z) :=
  vxx ← fe_sq X;
  vxx ← fe_mul vxx v;
  check ← fe_sub vxx u;
  c ← fe_isnonzero check;
  if c =? 0 then Some (Some X) else
  check ← fe_add vxx u;
  c ← fe_isnonzero check;
  if c =? 0 then X ← fe_mul X fe_sqrtm1; Some (Some X) else Some None.

(** Gives [X] the sign [sign]; zero has no negative. *)
Definition ge_set_sign (X : list Z) (sign : Z) : decoded (list Z) :=
  n ← fe_isnegative X;
  if n =? sign then Some (Some X) else
  nz ← fe_isnonzero X;
  if nz =? 0 then Some None else X ← fe_neg X; Some (Some X).

Definition ge_frombytes_vartime (s : list Z) : decoded ge_p3 :=
  if fe_noncanonical (fe_load s) then Some None else
  hY ← fe_frombytes s;
  let hZ := fe_1 in
  u ← fe_sq hY;
  v ← fe_mul u fe_d;
  u ← fe_sub u hZ;
  v ← fe_add v hZ;
  hX ← fe_divpowm1 u v;
  r ← ge_select_root hX u v;
  match r with
  | None => Some None
  | Some hX =>
      r ← ge_set_sign hX (Z.shiftr (at_ s 31) 7);
      match r with
      | None => Some None
      | Some hX => hT ← fe_mul hX hY; Some (Some (mk_p3 hX hY hZ hT))
      end
  end.

(** The test compares limbs, not the values they represent. *)
Definition ge_p3_is_point_at_infinity (p : ge_p3) : bool :=
  forallb (fun n => (Z.lor (at_ (p3_X p) n) (at_ (p3_T p) n) =? 0)
                    && (at_ (p3_Y p) n =? at_ (p3_Z p) n)) (seq 0 10).
End Ge.
