(* ===== verification/GeCorrect.v ===== *)
(** The [ge_*] operations compute the group law of the curve.

    [p3_rep h P] (and its variants for the other representations) says that the
    bounded limbs of [h] hold the point [P].  Each operation, applied to
    representations, does not overflow and returns a representation of the
    sum, difference, double or same point. *)
From S2P Require Import Prelude Limbs Pack Group Fe FeCorrect FePow FeBytes Curve GeData Ge.

Local Open Scope Z_scope.

Module GeCorrect.
Import Limbs Pack Group Fe FeCorrect FePow FeBytes Curve GeData Ge.

Local Notation "a == b" := (eqm p25519 a b) (at level 70).

(** ** Representations of a point *)

Definition p2_rep (h : ge_p2) (P : point) : Prop :=
  exists z, nonzero z /\ rep 101 (p2_X h) (px P * z) /\ rep 203 (p2_Y h) (py P * z) /\ rep 203 (p2_Z h) z.

Definition p3_rep (h : ge_p3) (P : point) : Prop :=
  exists z, nonzero z /\ rep 101 (p3_X h) (px P * z) /\ rep 101 (p3_Y h) (py P * z) /\ rep 101 (p3_Z h) z /\
    rep 101 (p3_T h) (px P * py P * z).

Definition p1p1_rep (h : ge_p1p1) (P : point) : Prop :=
  exists z t, nonzero z /\ nonzero t /\ rep 303 (p1_X h) (px P * z) /\ rep 303 (p1_Y h) (py P * t) /\
    rep 303 (p1_Z h) z /\ rep 303 (p1_T h) t.

Definition cached_rep (h : ge_cached) (P : point) : Prop :=
  exists z, nonzero z /\ rep 202 (YplusX h) ((py P + px P) * z) /\ rep 202 (YminusX h) ((py P - px P) * z) /\
    rep 101 (c_Z h) z /\ rep 101 (T2d h) (2 * edwards_d * px P * py P * z).

Definition precomp_rep (h : ge_precomp) (P : point) : Prop :=
  rep 101 (yplusx h) (py P + px P) /\ rep 101 (yminusx h) (py P - px P) /\
  rep 101 (xy2d h) (2 * edwards_d * px P * py P).

#[global] Instance p2_rep_proper h : Proper (peq ==> iff) (p2_rep h).
Proof. intros P Q [Ex Ey]. unfold p2_rep. by setoid_rewrite Ex; setoid_rewrite Ey. Qed.

#[global] Instance p3_rep_proper h : Proper (peq ==> iff) (p3_rep h).
Proof. intros P Q [Ex Ey]. unfold p3_rep. by setoid_rewrite Ex; setoid_rewrite Ey. Qed.

#[global] Instance p1p1_rep_proper h : Proper (peq ==> iff) (p1p1_rep h).
Proof. intros P Q [Ex Ey]. unfold p1p1_rep. by setoid_rewrite Ex; setoid_rewrite Ey. Qed.

#[global] Instance cached_rep_proper h : Proper (peq ==> iff) (cached_rep h).
Proof. intros P Q [Ex Ey]. unfold cached_rep. by setoid_rewrite Ex; setoid_rewrite Ey. Qed.

#[global] Instance precomp_rep_proper h : Proper (peq ==> iff) (precomp_rep h).
Proof. intros P Q [Ex Ey]. unfold precomp_rep. by rewrite Ex, Ey. Qed.

Lemma rep_eq j k f v w : rep j f v -> j <= k -> v == w -> rep k f w.
Proof. intros H Hk E. rewrite <- E. by apply (rep_weaken j). Qed.

Lemma two_nonzero : nonzero 2.
Proof. apply nonzero_const. vm_compute. discriminate. Qed.

(** A completed point from the numerators and denominators of a sum. *)
Lemma p1p1_intro r P Q k :
  nonzero k ->
  rep 303 (p1_X r) (k * (px P * py Q + px Q * py P)) -> rep 303 (p1_Z r) (k * (1 + cross P Q)) ->
  rep 303 (p1_Y r) (k * (py P * py Q + px P * px Q)) -> rep 303 (p1_T r) (k * (1 - cross P Q)) ->
  p1p1_rep r (padd P Q).
Proof.
  intros Hk HX HZ HY HT. destruct (cross_nonzero P Q) as [N1 N2].
  exists (k * (1 + cross P Q)), (k * (1 - cross P Q)).
  split; [by apply nonzero_mul |]. split; [by apply nonzero_mul |].
  split; [| split; [| by split]].
  - rewrite <- padd_x in HX. apply (rep_eq _ _ _ _ _ HX); [done | eqm_ring].
  - rewrite <- padd_y in HY. apply (rep_eq _ _ _ _ _ HY); [done | eqm_ring].
Qed.

(** Closes [rep k f w] from the only hypothesis about [f]. *)
Ltac rep_close :=
  match goal with H : rep _ ?f _ |- rep _ ?f _ => apply (rep_eq _ _ _ _ _ H); [done | unfold cross; simpl; eqm_ring] end.

Lemma ge_add_ok p q P Q : p3_rep p P -> cached_rep q Q ->
  yields (ge_add p q) (fun r => p1p1_rep r (padd P Q)).
Proof.
  intros (z1 & N1 & HX & HY & HZ & HT) (z2 & N2 & HP & HM & HZ' & HT2).
  unfold ge_add. repeat rep_step.
  apply (p1p1_intro _ _ _ (2 * z1 * z2)); simpl; [| rep_close ..].
  repeat apply nonzero_mul; [apply two_nonzero | done | done].
Qed.

Lemma ge_sub_ok p q P Q : p3_rep p P -> cached_rep q Q ->
  yields (ge_sub p q) (fun r => p1p1_rep r (padd P (popp Q))).
Proof.
  intros (z1 & N1 & HX & HY & HZ & HT) (z2 & N2 & HP & HM & HZ' & HT2).
  unfold ge_sub. repeat rep_step.
  apply (p1p1_intro _ _ _ (2 * z1 * z2)); simpl; [| rep_close ..].
  repeat apply nonzero_mul; [apply two_nonzero | done | done].
Qed.

Lemma ge_madd_ok p q P Q : p3_rep p P -> precomp_rep q Q ->
  yields (ge_madd p q) (fun r => p1p1_rep r (padd P Q)).
Proof.
  intros (z1 & N1 & HX & HY & HZ & HT) (HP & HM & HT2).
  unfold ge_madd. repeat rep_step.
  apply (p1p1_intro _ _ _ (2 * z1)); simpl; [| rep_close ..].
  apply nonzero_mul; [apply two_nonzero | done].
Qed.

Lemma ge_msub_ok p q P Q : p3_rep p P -> precomp_rep q Q ->
  yields (ge_msub p q) (fun r => p1p1_rep r (padd P (popp Q))).
Proof.
  intros (z1 & N1 & HX & HY & HZ & HT) (HP & HM & HT2).
  unfold ge_msub. repeat rep_step.
  apply (p1p1_intro _ _ _ (2 * z1)); simpl; [| rep_close ..].
  apply nonzero_mul; [apply two_nonzero | done].
Qed.

(** Doubling uses the curve equation in the place of the constant [d]. *)
Lemma curve_double P : py P * py P - px P * px P == 1 + cross P P.
Proof.
  apply eqm_sub_0. etransitivity; [| exact (p_on P)]. unfold curve_poly, cross. eqm_ring.
Qed.

Lemma ge_p2_dbl_ok p P : p2_rep p P -> yields (ge_p2_dbl p) (fun r => p1p1_rep r (padd P P)).
Proof.
  intros (z & N & HX & HY & HZ). unfold ge_p2_dbl. repeat rep_step.
  assert (E1 : py P * z * (py P * z) - px P * z * (px P * z) == z * z * (1 + cross P P)).
  { rewrite <- curve_double. eqm_ring. }
  apply (p1p1_intro _ _ _ (z * z)); simpl; [by apply nonzero_mul | rep_close | | rep_close |].
  - match goal with H : rep _ ?f _ |- rep _ ?f _ => apply (rep_eq _ _ _ _ _ H); [done | exact E1] end.
  - match goal with H : rep _ ?f _ |- rep _ ?f _ => apply (rep_eq _ _ _ _ _ H); [done |] end.
    rewrite E1. eqm_ring.
Qed.

(** ** Conversions and constants *)

Lemma ge_p1p1_to_p2_ok p P : p1p1_rep p P -> yields (ge_p1p1_to_p2 p) (fun r => p2_rep r P).
Proof.
  intros (z & t & Nz & Nt & HX & HY & HZ & HT). unfold ge_p1p1_to_p2. repeat rep_step.
  exists (z * t); simpl. split; [by apply nonzero_mul |]. split; [rep_close |]. split; rep_close.
Qed.

Lemma ge_p1p1_to_p3_ok p P : p1p1_rep p P -> yields (ge_p1p1_to_p3 p) (fun r => p3_rep r P).
Proof.
  intros (z & t & Nz & Nt & HX & HY & HZ & HT). unfold ge_p1p1_to_p3. repeat rep_step.
  exists (z * t); simpl. split; [by apply nonzero_mul |].
  split; [rep_close |]. split; [rep_close |]. split; rep_close.
Qed.

Lemma fe_copy_id k f v : rep k f v -> fe_copy f = f.
Proof. intros [B _]. apply bounded_length in B. ten f B. reflexivity. Qed.

Lemma p3_p2 p P : p3_rep p P -> p2_rep (ge_p3_to_p2 p) P.
Proof.
  intros (z & N & HX & HY & HZ & HT). exists z. unfold ge_p3_to_p2; simpl.
  rewrite (fe_copy_id _ _ _ HX), (fe_copy_id _ _ _ HY), (fe_copy_id _ _ _ HZ).
  split; [done |]. split; [done |]. by split; apply (rep_weaken 101).
Qed.

Lemma ge_p3_dbl_ok p P : p3_rep p P -> yields (ge_p3_dbl p) (fun r => p1p1_rep r (padd P P)).
Proof. intros H. by apply ge_p2_dbl_ok, p3_p2. Qed.

Lemma bounded_check k f :
  forallb (fun xm => Z.abs xm.1 <=? xm.2) (zip f (fe_bound k)) = true -> length f = 10%nat -> bounded k f.
Proof.
  intros H Hl. unfold bounded. apply Forall2_same_length_lookup_2; [by rewrite Hl |].
  intros i x m Hx Hm. rewrite forallb_forall in H. apply Z.leb_le, (H (x, m)).
  apply list_elem_of_In, list_elem_of_lookup. exists i.
  by rewrite lookup_zip_with, Hx, Hm.
Qed.

(** A constant array of limbs holds the value given. *)
Lemma rep_const k f v :
  forallb (fun xm => Z.abs xm.1 <=? xm.2) (zip f (fe_bound k)) = true -> length f = 10%nat ->
  (fe_val f - v) mod p25519 = 0 -> rep k f v.
Proof. intros H Hl Hv. split; [by apply bounded_check | by apply eqm_of_mod]. Qed.

Ltac const := apply rep_const; vm_compute; reflexivity.

Lemma fe_d_rep : rep 101 fe_d edwards_d. Proof. const. Qed.
Lemma fe_d2_rep : rep 101 fe_d2 (2 * edwards_d). Proof. const. Qed.
Lemma fe_sqrtm1_rep : rep 101 fe_sqrtm1 sqrtm1. Proof. const. Qed.
Lemma fe_0_rep : rep 1 fe_0 0. Proof. const. Qed.
Lemma fe_1_rep : rep 1 fe_1 1. Proof. const. Qed.

Ltac const_level := by apply (rep_weaken 1); [| apply fe_0_rep || apply fe_1_rep].

Lemma ge_p3_to_cached_ok p P : p3_rep p P -> yields (ge_p3_to_cached p) (fun r => cached_rep r P).
Proof.
  intros (z & N & HX & HY & HZ & HT). unfold ge_p3_to_cached. pose proof fe_d2_rep. repeat rep_step.
  rewrite (fe_copy_id _ _ _ HZ). exists z; simpl. split; [done |].
  split; [rep_close |]. split; [rep_close |]. split; [rep_close |]. rep_close.
Qed.

Lemma one_nonzero : nonzero 1.
Proof. apply nonzero_const. vm_compute. discriminate. Qed.

Lemma p2_0_rep : p2_rep ge_p2_0 pzero.
Proof. exists 1. simpl. split; [apply one_nonzero |]. split_and!; const_level. Qed.

Lemma p3_0_rep : p3_rep ge_p3_0 pzero.
Proof. exists 1. simpl. split; [apply one_nonzero |]. split_and!; const_level. Qed.

Lemma cached_0_rep : cached_rep ge_cached_0 pzero.
Proof.
  exists 1. simpl. split; [apply one_nonzero |]. split; [| split; [| split]].
  - const_level.
  - const_level.
  - const_level.
  - apply (rep_eq _ _ _ _ _ fe_0_rep); [done | eqm_ring].
Qed.

Lemma precomp_0_rep : precomp_rep ge_precomp_0 pzero.
Proof.
  split; [const_level | split; [const_level |]].
  apply (rep_eq _ _ _ _ _ fe_0_rep); [done | simpl; eqm_ring].
Qed.

(** Steps through a sequence of [ge_*] calls. *)
Ltac ge_call :=
  lazymatch goal with
  | |- yields (ge_add _ _) _ => eapply ge_add_ok; eassumption
  | |- yields (ge_sub _ _) _ => eapply ge_sub_ok; eassumption
  | |- yields (ge_madd _ _) _ => eapply ge_madd_ok; eassumption
  | |- yields (ge_msub _ _) _ => eapply ge_msub_ok; eassumption
  | |- yields (ge_p2_dbl _) _ => eapply ge_p2_dbl_ok; eassumption
  | |- yields (ge_p3_dbl _) _ => eapply ge_p3_dbl_ok; eassumption
  | |- yields (ge_p1p1_to_p2 _) _ => eapply ge_p1p1_to_p2_ok; eassumption
  | |- yields (ge_p1p1_to_p3 _) _ => eapply ge_p1p1_to_p3_ok; eassumption
  | |- yields (ge_p3_to_cached _) _ => eapply ge_p3_to_cached_ok; eassumption
  end.

Ltac ge_step :=
  lazymatch goal with
  | |- yields (_ ≫= _) _ =>
      let x := fresh "g" in let H := fresh "G" in
      eapply yields_bind; [ge_call | cbv beta; intros x H]
  | |- yields (Some _) _ => apply yields_ret
  | |- yields _ _ => eapply yields_impl; [ge_call | cbv beta]
  end.

Lemma ge_mul8_ok t P : p2_rep t P -> yields (ge_mul8 t) (fun r => p1p1_rep r (smul 8 P)).
Proof. intros H. unfold ge_mul8. repeat ge_step. done. Qed.

(** ** Encoding *)

(** The 32-byte encoding of a point, as an integer: [y] and the parity of [x]. *)
Definition encode_point (P : point) : Z :=
  py P mod p25519 + 2 ^ 255 * ((px P mod p25519) mod 2).

Lemma encode_split P :
  encode_point P mod 2 ^ 255 = py P mod p25519 /\ encode_point P / 2 ^ 255 = (px P mod p25519) mod 2.
Proof.
  unfold encode_point. pose proof (Z.mod_pos_bound (py P) p25519 ltac:(done)) as B.
  assert (B' : 0 <= py P mod p25519 < 2 ^ 255) by (unfold p25519 in *; lia).
  rewrite Z.mul_comm. split; [rewrite Z_mod_plus_full; by apply Z.mod_small |].
  rewrite Z.div_add by done. by rewrite Z.div_small.
Qed.

Lemma set_sign_bit s n : is_bytes 32 s -> le_combine s < 2 ^ 255 -> (n = 0 \/ n = 1) ->
  yields (b ← s !! 31%nat; Some (<[31%nat := Z.lxor b (u8 (Z.shiftl n 7))]> s))
    (fun r => is_bytes 32 r /\ le_combine r = le_combine s + 2 ^ 255 * n).
Proof.
  intros [Hl H] Hs Hn.
  do 32 (destruct s as [| ? s]; [discriminate Hl |]). destruct s; [| discriminate Hl].
  assert (Hb : 0 <= z30 < 128).
  { repeat match goal with H : Forall is_byte (_ :: _) |- _ => apply Forall_cons_iff in H as [? H] end.
    unfold is_byte in *. cbn [le_combine] in Hs. lia. }
  assert (Ex : Z.lxor z30 (u8 (Z.shiftl n 7)) = z30 + 128 * n).
  { destruct Hn as [-> | ->]; simpl; [rewrite Z.lxor_0_r; lia |].
    change (u8 (Z.shiftl 1 7)) with (Z.shiftl 1 7).
    replace (z30 + 128 * 1) with (z30 + 1 * 2 ^ 7) by lia.
    rewrite <- (lor_shiftl_add z30 1 7) by lia. apply Z.lxor_lor.
    apply Z.bits_inj'. intros i Hi. rewrite Z.land_spec, Z.bits_0, Z.shiftl_1_l, Z.pow2_bits_eqb by lia.
    destruct (Z.eqb_spec 7 i) as [<- |]; [| apply andb_false_r].
    rewrite andb_true_r, <- (Z.mod_small z30 (2 ^ 7)) by lia. apply Z.mod_pow2_bits_high; lia. }
  cbn [lookup list_lookup mbind option_bind]. eexists. split; [reflexivity |].
  cbn [insert list_insert]. rewrite Ex. split.
  - split; [done |]. repeat match goal with H : Forall is_byte (_ :: _) |- _ => apply Forall_cons_iff in H as [? H] end.
    repeat (apply Forall_cons; [done || (unfold is_byte; destruct Hn as [-> | ->]; lia) |]). done.
  - cbn [le_combine]. lia.
Qed.
End GeCorrect.
