(* ===== verification/GeEncode.v ===== *)
(** Encoding and decoding of points: [ge_tobytes] and [ge_p3_tobytes] write
    [encode_point], and [ge_frombytes_vartime] accepts exactly the encodings of
    points of the curve. *)
From S2P Require Import Prelude Limbs Pack Group Fe FeCorrect FePow FeBytes Curve GeData Ge GeCorrect.

Local Open Scope Z_scope.

Module GeEncode.
Import Limbs Pack Group Fe FeCorrect FePow FeBytes Curve GeData Ge GeCorrect.

Local Notation "a == b" := (eqm p25519 a b) (at level 70).

(** ** Encoding *)

Lemma eqm_mod_eq a b : a == b -> a mod p25519 = b mod p25519.
Proof. by apply eqm_mod. Qed.

Lemma fe_invert_ok k z a : rep k z a -> k <= 330 -> nonzero a -> yields (fe_invert z) (fun r => rep 101 r (inv a)).
Proof.
  intros Hz Hk Ha. eapply yields_impl; [by apply (fe_invert_pow k) |]. intros x Hx.
  by rewrite inv_pow.
Qed.

Lemma ge_encode_ok X Y W P z :
  nonzero z -> rep 101 X (px P * z) -> rep 203 Y (py P * z) -> rep 203 W z ->
  yields (ge_encode X Y W) (fun s => is_bytes 32 s /\ le_combine s = encode_point P).
Proof.
  intros Nz HX HY HZ. unfold ge_encode.
  eapply yields_bind; [by apply (fe_invert_ok 203) |]. cbv beta; intros r Hr. do 2 rep_step.
  assert (Ex : px P * z * inv z == px P).
  { replace (px P * z * inv z) with (px P * (z * inv z)) by ring. by rewrite inv_r, Z.mul_1_r. }
  assert (Ey : py P * z * inv z == py P).
  { replace (py P * z * inv z) with (py P * (z * inv z)) by ring. by rewrite inv_r, Z.mul_1_r. }
  rewrite Ex in H. rewrite Ey in H0.
  eapply yields_bind; [by apply (fe_tobytes_ok 101) |]. cbv beta; intros s [Hs Vs].
  rewrite (fe_isnegative_ok 101 t _ H) by done. cbn [mbind option_bind].
  eapply yields_impl; [apply set_sign_bit; [done | |] |].
  - rewrite Vs. pose proof (Z.mod_pos_bound (py P) p25519 ltac:(done)). unfold p25519 in *. lia.
  - pose proof (Z.mod_pos_bound (px P mod p25519) 2 ltac:(lia)). lia.
  - intros r' [Hr' Vr']. split; [done |]. by rewrite Vr', Vs.
Qed.

Lemma ge_tobytes_ok h P : p2_rep h P ->
  yields (ge_tobytes h) (fun s => is_bytes 32 s /\ le_combine s = encode_point P).
Proof. intros (z & N & HX & HY & HZ). by apply (ge_encode_ok _ _ _ P z). Qed.

Lemma ge_p3_tobytes_ok h P : p3_rep h P ->
  yields (ge_p3_tobytes h) (fun s => is_bytes 32 s /\ le_combine s = encode_point P).
Proof.
  intros (z & N & HX & HY & HZ & HT). by apply (ge_encode_ok _ _ _ P z); [| | apply (rep_weaken 101) ..].
Qed.

(** ** Square roots *)

Lemma square_root_1 a : a * a == 1 -> a == 1 \/ a == -1.
Proof.
  intros E. assert (P0 : (a - 1) * (a + 1) == 0).
  { replace ((a - 1) * (a + 1)) with (a * a - 1) by ring. by rewrite E. }
  destruct (mul_eq_0 _ _ P0) as [F | F]; [left | right]; apply eqm_sub_0; rewrite <- F; eqm_ring.
Qed.

Lemma pow_square a n : 0 <= n -> (a * a) ^ n = a ^ n * a ^ n.
Proof. intros. apply Z.pow_mul_l. Qed.

(** [v x^2 = u (u v^7)^((p-1)/4)] for the [x] that [fe_divpowm1] computes. *)
Lemma candidate u v :
  let x := (v ^ 7 * u) ^ ((p25519 - 5) / 8) * v ^ 3 * u in
  x * x * v == u * (v ^ 7 * u) ^ ((p25519 - 1) / 4).
Proof.
  intros x. assert (E : (p25519 - 1) / 4 = 2 * ((p25519 - 5) / 8) + 1) by (vm_compute; reflexivity).
  rewrite E. set (n := (p25519 - 5) / 8) in *. assert (Hn : 0 <= n) by (vm_compute; discriminate).
  clearbody n. rewrite Z.pow_add_r, Z.pow_1_r, Z.pow_mul_r, Z.pow_2_r, pow_square by lia.
  unfold x. eqm_ring.
Qed.

Lemma candidate_root u v x0 :
  v * (x0 * x0) == u -> u == 0 \/ (v ^ 7 * u) ^ ((p25519 - 1) / 4) == 1 \/ (v ^ 7 * u) ^ ((p25519 - 1) / 4) == -1.
Proof.
  intros E. destruct (decide (u mod p25519 = 0)) as [Hu | Hu]; [left; by apply eqm_mod | right].
  assert (Nu : nonzero u) by by apply nonzero_const.
  assert (Nw : nonzero (x0 * v ^ 4)).
  { rewrite <- E in Nu. apply nonzero_mul_inv in Nu as [Nv [Nx _]%nonzero_mul_inv].
    apply nonzero_mul; [done | by apply nonzero_pow]. }
  assert (Ew : v ^ 7 * u == x0 * v ^ 4 * (x0 * v ^ 4)) by (rewrite <- E; eqm_ring).
  apply square_root_1. rewrite Ew. generalize dependent (x0 * v ^ 4). intros w Nw Ew.
  rewrite pow_square by (vm_compute; discriminate).
  rewrite <- !Z.pow_add_r by (vm_compute; discriminate).
  replace ((p25519 - 1) / 4 + (p25519 - 1) / 4 + ((p25519 - 1) / 4 + (p25519 - 1) / 4)) with (p25519 - 1)
    by (vm_compute; reflexivity).
  by apply fermat.
Qed.

(** ** Decoding *)

Lemma zero_test a : (a mod p25519 =? 0) = true <-> a == 0.
Proof. rewrite Z.eqb_eq. rewrite eqm_mod by done. by rewrite Zmod_0_l. Qed.

Lemma isnonzero_bind {A} k f v (K : Z -> option A) (Q : A -> Prop) :
  rep k f v -> k <= 330 -> (v == 0 -> yields (K 0) Q) -> (nonzero v -> yields (K 1) Q) ->
  yields (c ← fe_isnonzero f; K c) Q.
Proof.
  intros Hf Hk H0 H1. rewrite (fe_isnonzero_ok k f v Hf Hk). cbn [mbind option_bind].
  destruct (v mod p25519 =? 0) eqn:E.
  - apply H0. by apply zero_test.
  - apply H1. intros E'. apply zero_test in E'. congruence.
Qed.

(** What decoding a coordinate promises: a root of [v x^2 = u], or that there is none. *)
Definition root_spec (u v : Z) (r : option (list Z)) : Prop :=
  match r with
  | Some X => exists x, rep 101 X x /\ v * (x * x) == u
  | None => forall x, ~ v * (x * x) == u
  end.

Lemma ge_select_root_ok U V u v :
  rep 102 U u -> rep 102 V v ->
  yields (fe_divpowm1 U V) (fun X => yields (ge_select_root X U V) (root_spec u v)).
Proof.
  intros HU HV. eapply yields_impl; [by apply (fe_divpowm1_pow 102 102) |]. cbv beta; intros X HX.
  pose proof (candidate u v) as C. cbv zeta in C. set (x := _ ^ _ * v ^ 3 * u) in *.
  assert (Hroot := candidate_root u v). set (w := _ ^ ((p25519 - 1) / 4)) in *. clearbody w x.
  unfold ge_select_root. apply (rep_weaken _ 330) in HV; [| done]. do 3 rep_step.
  assert (Ev : x * x * v == v * (x * x)) by eqm_ring.
  apply (isnonzero_bind _ _ _ _ _ H1); [done | |]; intros E1.
  - apply yields_ret. exists x. split; [done |]. apply eqm_sub_0. by rewrite <- Ev.
  - change (1 =? 0) with false. cbv iota. rep_step.
    apply (isnonzero_bind _ _ _ _ _ H2); [done | |]; intros E2.
    + change (0 =? 0) with true. cbv iota. pose proof fe_sqrtm1_rep. rep_step. apply yields_ret.
      exists (x * sqrtm1). split; [done |].
      replace (v * (x * sqrtm1 * (x * sqrtm1))) with (x * x * v * (sqrtm1 * sqrtm1)) by ring.
      rewrite sqrtm1_sq. apply eqm_sub_0. replace (x * x * v * -1 - u) with (- (x * x * v + u)) by ring.
      by rewrite E2.
    + change (1 =? 0) with false. cbv iota. apply yields_ret. intros x0 Hx0.
      destruct (Hroot x0 Hx0) as [R | [R | R]].
      * apply E1. rewrite C, R. eqm_ring.
      * apply E1. rewrite C, R. eqm_ring.
      * apply E2. rewrite C, R. eqm_ring.
Qed.

Definition sign_spec (u v sign : Z) (r : option (list Z)) : Prop :=
  match r with
  | Some X => exists x, rep 101 X x /\ v * (x * x) == u /\ (x mod p25519) mod 2 = sign
  | None => forall x, v * (x * x) == u -> (x mod p25519) mod 2 <> sign
  end.

(** The two roots of a nonzero square have opposite parities. *)
Lemma parity_opp x : nonzero x -> (- x mod p25519) mod 2 = 1 - (x mod p25519) mod 2.
Proof.
  intros H. assert (x mod p25519 <> 0) by (intros E; apply H; by apply eqm_mod).
  rewrite Z_mod_nz_opp_full by done.
  pose proof (Z.mod_pos_bound x p25519 ltac:(done)). unfold p25519 in *. zlia.
Qed.

Lemma roots v x y : nonzero v -> v * (x * x) == v * (y * y) -> x == y \/ x == - y.
Proof.
  intros Nv E. apply (cancel_l v) in E; [| done].
  assert (P0 : (x - y) * (x + y) == 0).
  { replace ((x - y) * (x + y)) with (x * x - y * y) by ring. by rewrite E, Z.sub_diag. }
  destruct (mul_eq_0 _ _ P0) as [F | F]; [left | right]; apply eqm_sub_0; rewrite <- F; eqm_ring.
Qed.

Lemma ge_set_sign_ok X x u v sign :
  rep 101 X x -> v * (x * x) == u -> nonzero v -> (sign = 0 \/ sign = 1) ->
  yields (ge_set_sign X sign) (sign_spec u v sign).
Proof.
  intros HX Hx Nv Hs. unfold ge_set_sign. rewrite (fe_isnegative_ok 101 X x HX) by done.
  cbn [mbind option_bind]. pose proof (Z.mod_pos_bound (x mod p25519) 2 ltac:(lia)).
  destruct (Z.eqb_spec ((x mod p25519) mod 2) sign) as [E | E]; [apply yields_ret; by exists x |].
  apply (isnonzero_bind 101 _ _ _ _ HX); [done | |]; intros E1.
  - change (0 =? 0) with true. cbv iota. apply yields_ret. intros y Hy Ey.
    rewrite <- Hy in Hx. apply roots in Hx; [| done].
    assert (y == 0) as Y0 by (destruct Hx as [F | F]; [by rewrite <- F |];
      apply eqm_sub_0; replace (y - 0) with (- - y) by ring; rewrite <- F, E1; done).
    rewrite (eqm_mod_eq _ _ Y0) in Ey. rewrite (eqm_mod_eq _ _ E1) in E. done.
  - change (1 =? 0) with false. cbv iota. rep_step. apply yields_ret.
    exists (- x). split; [done |]. split; [by rewrite Z.mul_opp_opp |]. rewrite parity_opp by done. lia.
Qed.

Lemma sign_bit s : is_bytes 32 s ->
  Z.shiftr (at_ s 31) 7 = le_combine s / 2 ^ 255 /\ 0 <= le_combine s / 2 ^ 255 <= 1.
Proof.
  intros [Hl H]. pose proof (le_combine_bounds s H) as B. rewrite Hl in B. simpl in B.
  rewrite Z.shiftr_div_pow2 by lia.
  do 32 (destruct s as [| ? s]; [discriminate Hl |]). destruct s; [| discriminate Hl].
  cbn [le_combine at_ lookup list_lookup default from_option id] in *.
  repeat match goal with H : Forall is_byte (_ :: _) |- _ => apply Forall_cons_iff in H as [? H] end.
  unfold is_byte in *. split; [| zlia].
  assert (E : z30 = 128 * (z30 / 128) + z30 mod 128) by (apply Z.div_mod; lia).
  pose proof (Z.mod_pos_bound z30 128 ltac:(lia)). change (2 ^ 7) with 128.
  apply Z.div_unique_pos with
    (r := z + 256 * (z0 + 256 * (z1 + 256 * (z2 + 256 * (z3 + 256 * (z4 + 256 * (z5 + 256 * (z6 + 256 * (z7
      + 256 * (z8 + 256 * (z9 + 256 * (z10 + 256 * (z11 + 256 * (z12 + 256 * (z13 + 256 * (z14 + 256 * (z15
      + 256 * (z16 + 256 * (z17 + 256 * (z18 + 256 * (z19 + 256 * (z20 + 256 * (z21 + 256 * (z22 + 256 * (z23
      + 256 * (z24 + 256 * (z25 + 256 * (z26 + 256 * (z27 + 256 * (z28 + 256 * (z29
      + 256 * (z30 mod 128)))))))))))))))))))))))))))))))); lia.
Qed.

(** [d y^2 + 1] is never zero, and the curve equation is [(d y^2 + 1) x^2 = y^2 - 1]. *)
Lemma v_nonzero y : nonzero (y * y * edwards_d + 1).
Proof.
  intros E. assert (R : sqrtm1 * sqrtm1 == edwards_d * (y * y)).
  { rewrite sqrtm1_sq. apply eqm_sub_0. replace (-1 - edwards_d * (y * y)) with (- (y * y * edwards_d + 1)) by ring.
    by rewrite E. }
  apply no_ratio in R. rewrite R in E. by apply one_nonzero.
Qed.

Lemma curve_root x y : on_curve x y <-> (y * y * edwards_d + 1) * (x * x) == y * y - 1.
Proof.
  unfold on_curve, curve_poly. rewrite (eqm_sub_0 (_ * _)). split; intros E.
  - replace (_ - _) with (- (y * y - x * x - 1 - edwards_d * x * x * y * y)) by ring. by rewrite E.
  - replace (_ - _) with (- ((y * y * edwards_d + 1) * (x * x) - (y * y - 1))) by ring. by rewrite E.
Qed.

Lemma encode_inv P n y sign :
  y = n mod 2 ^ 255 -> sign = n / 2 ^ 255 -> encode_point P = n ->
  py P mod p25519 = y /\ (px P mod p25519) mod 2 = sign.
Proof. intros -> -> <-. destruct (encode_split P) as [-> ->]. done. Qed.

Definition decode_spec (n : Z) (r : option ge_p3) : Prop :=
  match r with
  | Some h => exists P, p3_rep h P /\ encode_point P = n
  | None => forall P, encode_point P <> n
  end.

Lemma ge_frombytes_ok s : is_bytes 32 s ->
  yields (ge_frombytes_vartime s) (decode_spec (le_combine s)).
Proof.
  intros Hs. destruct (sign_bit s Hs) as [Sb Sr].
  set (n := le_combine s) in *. unfold ge_frombytes_vartime. rewrite (fe_noncanonical_ok s Hs), Sb. fold n.
  pose proof (fun P => encode_inv P n _ _ eq_refl eq_refl) as Inv.
  destruct (Z.leb_spec p25519 (n mod 2 ^ 255)) as [Hc | Hc].
  { apply yields_ret. intros P [E _]%Inv. pose proof (Z.mod_pos_bound (py P) p25519 ltac:(done)). lia. }
  eapply yields_bind; [by apply fe_frombytes_ok |]. cbv beta; intros hY HY. fold n in HY.
  pose proof (Z.div_mod n (2 ^ 255) ltac:(done)) as Dn.
  pose proof (Z.mod_pos_bound n (2 ^ 255) ltac:(done)) as By.
  generalize dependent (n mod 2 ^ 255). intros y Inv Hc HY Dn By.
  pose proof fe_1_rep. pose proof fe_d_rep. cbv zeta. do 4 rep_step.
  assert (Hcurve : forall P, py P mod p25519 = y -> (y * y * edwards_d + 1) * (px P * px P) == y * y - 1).
  { intros P <-. apply curve_root. rewrite eqm_mod_r by done. apply p_on. }
  eapply yields_bind; [by apply ge_select_root_ok |]. cbv beta; intros hX R.
  eapply yields_bind; [exact R |]. intros [X |] HR; [| apply yields_ret].
  - destruct HR as (x & HX & Hx).
    eapply yields_bind; [apply (ge_set_sign_ok _ _ _ _ _ HX Hx (v_nonzero y)); lia |].
    intros [X' |] HS; [| apply yields_ret].
    + destruct HS as (x' & HX' & Hx' & Sx'). rep_step. apply yields_ret.
      apply curve_root in Hx' as Hon.
      exists (mkpoint x' y Hon). split.
      * exists 1. simpl. rewrite !Z.mul_1_r. split; [apply one_nonzero |]. split_and!; done || const_level.
      * unfold encode_point; simpl. rewrite Sx', (Z.mod_small y) by lia. lia.
    + intros P [Ey Es]%Inv. by apply (HS (px P) (Hcurve P Ey)).
  - intros P [Ey _]%Inv. by apply (HR (px P)), Hcurve.
Qed.

(** ** Encodings determine points *)

Lemma encode_inj P Q : encode_point P = encode_point Q -> peq P Q.
Proof.
  intros E. destruct (encode_split P) as [Py Px], (encode_split Q) as [Qy Qx].
  rewrite E in Py, Px. rewrite Py in Qy. rewrite Px in Qx.
  assert (Ey : py P == py Q) by by apply eqm_mod. split; [| done].
  pose proof (proj1 (curve_root _ _) (p_on P)) as HP. pose proof (proj1 (curve_root _ _) (p_on Q)) as HQ.
  rewrite Ey in HP. rewrite <- HQ in HP. apply roots in HP; [| apply v_nonzero].
  destruct HP as [| HP]; [done |].
  destruct (decide (px Q mod p25519 = 0)) as [Z0 | NZ].
  - assert (px Q == 0) as Q0 by by apply eqm_mod. by rewrite HP, Q0.
  - exfalso. assert (NQ : nonzero (px Q)) by by apply nonzero_const.
    rewrite (eqm_mod_eq _ _ HP), parity_opp in Qx by done. lia.
Qed.
End GeEncode.
