(* ===== verification/FeTheorems.v ===== *)
(** What the field arithmetic of src/crypto/crypto-ops.c promises: bounds and
    values of the products, squaring as multiplication, inversion, canonical
    bytes and their round trips. *)
From S2P Require Import Prelude Limbs Pack Group Fe FeCorrect FePow FeBytes Curve GeData Ge GeCorrect GeEncode.

Local Open Scope Z_scope.

Module FeTheorems.
Import Limbs Pack Fe FeCorrect FePow FeBytes Curve GeData Ge GeCorrect GeEncode.

Lemma rep_self k f : bounded k f -> rep k f (fe_val f).
Proof. intros H. by split. Qed.

(** A bounded element for the witnesses: all limbs at the limit of a product. *)
Definition fe_limit : list Z := fe_bound 330.
Definition fe_low : list Z := map Z.opp (fe_bound 330).

Lemma fe_limit_bounded : bounded 330 fe_limit.
Proof. by apply bounded_check. Qed.

Lemma fe_low_bounded : bounded 330 fe_low.
Proof. by apply bounded_check. Qed.

(** C35: on operands within the bounds of its comment (limbs up to [1.65 * 2^26]
    and [1.65 * 2^25]) [fe_mul] never overflows the 32-bit and 64-bit
    intermediates, returns limbs within [1.01 * 2^25] and [1.01 * 2^24], and the
    value is the product modulo [2^255 - 19]. *)
Theorem fe_mul_correct f g : bounded 330 f -> bounded 330 g ->
  yields (fe_mul f g) (fun h => bounded 101 h /\ fe_val h ≡⟨ p25519 ⟩ fe_val f * fe_val g).
Proof. intros Hf Hg. by apply (fe_mul_ok 330 330); [apply rep_self | apply rep_self | |]. Qed.

Lemma fe_mul_witness : yields (fe_mul fe_limit fe_low)
  (fun h => bounded 101 h /\ fe_val h ≡⟨ p25519 ⟩ fe_val fe_limit * fe_val fe_low).
Proof. apply (fe_mul_correct fe_limit fe_low); [exact fe_limit_bounded | exact fe_low_bounded]. Defined.

(** The dedicated squaring sums the same products. *)
Lemma square_rows f : length f = 10%nat ->
  map (row_value f) fe_sq_table = map (row_value (f ++ f)) fe_mul_table.
Proof.
  intros Hf. ten f Hf.
  let t := eval vm_compute in fe_mul_table in change fe_mul_table with t.
  cbv [map row_value psum term_value op_value at_ app lookup list_lookup default from_option id fe_sq_table fst snd].
  repeat (apply (f_equal2 cons); [ring |]). reflexivity.
Qed.

(** The optimised [fe_sq] returns exactly the limbs of [fe_mul f f], and
    [fe_sq2] an element of value [2 f^2] within the bounds of a product. *)
Theorem fe_sq_equiv f : bounded 330 f ->
  fe_sq f = fe_mul f f /\
  yields (fe_sq2 f) (fun h => bounded 101 h /\ fe_val h ≡⟨ p25519 ⟩ 2 * (fe_val f * fe_val f)).
Proof.
  intros Hf. split; [| by apply (fe_sq2_ok 330); [apply rep_self |]].
  unfold fe_sq, fe_mul.
  destruct (product_rows_ok fe_sq_ops fe_sq_table f (fe_bound 330) Hf) as [-> _]; [vm_compute; reflexivity |].
  destruct (product_rows_ok fe_mul_ops fe_mul_table (f ++ f) (fe_bound 330 ++ fe_bound 330)) as [-> _];
    [by apply Forall2_app | vm_compute; reflexivity |].
  by rewrite square_rows by by apply (bounded_length 330).
Qed.

Lemma fe_sq_witness : fe_sq fe_limit = fe_mul fe_limit fe_limit.
Proof. exact (proj1 (fe_sq_equiv fe_limit fe_limit_bounded)). Defined.

(** [fe_add], [fe_sub] and [fe_neg] do not overflow 32 bits while the sum
    of the bounds stays below [63 * 2^25], add the bounds, and compute the sum,
    the difference and the opposite modulo [2^255 - 19]. *)
Theorem fe_linear_correct j k f g : bounded j f -> bounded k g -> 0 <= j -> 0 <= k -> j + k <= 6300 ->
  yields (fe_add f g) (fun h => bounded (j + k) h /\ fe_val h ≡⟨ p25519 ⟩ fe_val f + fe_val g) /\
  yields (fe_sub f g) (fun h => bounded (j + k) h /\ fe_val h ≡⟨ p25519 ⟩ fe_val f - fe_val g) /\
  yields (fe_neg f) (fun h => bounded j h /\ fe_val h ≡⟨ p25519 ⟩ - fe_val f).
Proof.
  intros Hf%rep_self Hg%rep_self Hj Hk Hjk.
  split; [by apply fe_add_ok |]. split; [by apply fe_sub_ok |]. apply fe_neg_ok; [done | lia].
Qed.

Lemma fe_linear_witness : yields (fe_sub fe_limit fe_low)
  (fun h => bounded 660 h /\ fe_val h ≡⟨ p25519 ⟩ fe_val fe_limit - fe_val fe_low).
Proof. apply (fe_linear_correct 330 330 fe_limit fe_low fe_limit_bounded fe_low_bounded); lia. Defined.



(** [fe_tobytes] writes the canonical representative, the value modulo
    [2^255 - 19] in little-endian order, whatever representation it is given;
    [fe_isnegative] is its parity and [fe_isnonzero] its test for zero. *)
Theorem fe_tobytes_correct f : bounded 330 f ->
  fe_tobytes f = Some (le_split 32 (fe_val f mod p25519)) /\
  fe_isnegative f = Some ((fe_val f mod p25519) mod 2) /\
  fe_isnonzero f = Some (if fe_val f mod p25519 =? 0 then 0 else 1).
Proof.
  intros Hf%rep_self. destruct (fe_tobytes_ok 330 f _ Hf) as (s & -> & [L B] & V); [done |].
  split; [| split; [by apply (fe_isnegative_ok 330) | by apply (fe_isnonzero_ok 330)]].
  f_equal. apply le_combine_inj; [exact L | done | apply le_split_bytes |].
  rewrite V, le_combine_split; [done |].
  pose proof (Z.mod_pos_bound (fe_val f) p25519 ltac:(done)) as [H1 H2]. split; [done |].
  apply (Z.lt_trans _ _ _ H2). reflexivity.
Qed.

Lemma fe_tobytes_witness : fe_tobytes fe_low = Some (le_split 32 (fe_val fe_low mod p25519)).
Proof. exact (proj1 (fe_tobytes_correct fe_low fe_low_bounded)). Defined.

(** Reading 32 bytes below [2^255 - 19] and writing them back returns the
    same bytes, and writing a bounded element and reading it back preserves its
    value; the loading code flags exactly the non-canonical encodings. *)
Theorem fe_bytes_roundtrip s f : is_bytes 32 s -> le_combine s < p25519 -> bounded 330 f ->
  (h ← fe_frombytes s; fe_tobytes h) = Some s /\
  yields (s ← fe_tobytes f; fe_frombytes s) (fun h => bounded 101 h /\ fe_val h ≡⟨ p25519 ⟩ fe_val f) /\
  fe_noncanonical (fe_load s) = false.
Proof.
  intros Hs Hp Hf%rep_self. pose proof (le_combine_bounds s (proj2 Hs)) as B.
  assert (P : le_combine s mod 2 ^ 255 = le_combine s) by (apply Z.mod_small; unfold p25519 in Hp; lia).
  split; [| split].
  - destruct (fe_frombytes_ok s Hs) as (h & -> & H). cbn [mbind option_bind]. rewrite P in H.
    destruct (fe_tobytes_ok 101 h _ H) as (t & -> & [L Bt] & V); [done |]. f_equal.
    apply le_combine_inj; [rewrite L; symmetry; apply Hs | done | apply Hs |]. rewrite V. apply Z.mod_small. lia.
  - eapply yields_bind; [by apply (fe_tobytes_ok 330) |]. cbv beta; intros t [Ht V].
    eapply yields_impl; [by apply fe_frombytes_ok |]. cbv beta; intros h Hh.
    rewrite V, Z.mod_small in Hh.
    2: { pose proof (Z.mod_pos_bound (fe_val f) p25519 ltac:(done)). unfold p25519 in *. lia. }
    by rewrite eqm_mod_r in Hh.
  - rewrite fe_noncanonical_ok, P by done. apply Z.leb_gt. lia.
Qed.

Lemma fe_bytes_witness :
  (h ← fe_frombytes (le_split 32 (p25519 - 1)); fe_tobytes h) = Some (le_split 32 (p25519 - 1)).
Proof.
  apply (fe_bytes_roundtrip (le_split 32 (p25519 - 1)) fe_low);
    [apply le_split_bytes | vm_compute; reflexivity | exact fe_low_bounded].
Defined.
End FeTheorems.
