(* ===== verification/GeMult.v ===== *)
(** Scalar multiplication in src/crypto/crypto-ops.c: the recodings of scalars
    into signed digits, the tables of multiples and the loops that combine
    them. *)
From S2P Require Import Prelude Limbs Pack Fe GeData Ge.

Local Open Scope Z_scope.

Module GeMult.
Import Limbs Pack Fe GeData Ge.

(** ** Sliding windows *)

(** [r[i] = 1 & (a[i >> 3] >> (i & 7))]. *)
Definition slide_bits (a : list Z) : list Z :=
  map (fun i => Z.land 1 (Z.shiftr (at_ a (i / 8)) (Z.of_nat (i mod 8)))) (seq 0 256).

(** [for (k = ...; k < 256; ++k)]: adds one to the bits from [k] up. *)
Fixpoint slide_carry (n : nat) (r : list Z) (k : nat) : list Z :=
  match n with
  | O => r
  | S n => if at_ r k =? 0 then <[k := 1]> r else slide_carry n (<[k := 0]> r) (k + 1)
  end.

(** [for (b = 1; b <= 6 && i + b < 256; ++b)]. *)
Fixpoint slide_inner (bs : list nat) (i : nat) (r : list Z) : list Z :=
  match bs with
  | [] => r
  | b :: bs =>
      if (i + b <? 256)%nat then
        if at_ r (i + b) =? 0 then slide_inner bs i r else
        let s := Z.shiftl (at_ r (i + b)) (Z.of_nat b) in
        if at_ r i + s <=? 15 then
          slide_inner bs i (<[(i + b)%nat := 0]> (<[i := at_ r i + s]> r))
        else if -15 <=? at_ r i - s then
          slide_inner bs i (slide_carry (256 - (i + b)) (<[i := at_ r i - s]> r) (i + b))
        else r
      else r
  end.

Definition slide_step (r : list Z) (i : nat) : list Z :=
  if at_ r i =? 0 then r else slide_inner [1; 2; 3; 4; 5; 6]%nat i r.

Definition slide (a : list Z) : list Z := foldl slide_step (slide_bits a) (seq 0 256).

(** ** Odd multiples of a point *)

(** [u = s2 + prev], cached. *)
Definition dsm_next (s2 : ge_p3) (prev : ge_cached) : option ge_cached :=
  t ← ge_add s2 prev; u ← ge_p1p1_to_p3 t; ge_p3_to_cached u.

Definition ge_dsm_precomp (s : ge_p3) : option (list ge_cached) :=
  r0 ← ge_p3_to_cached s;
  t ← ge_p3_dbl s;
  s2 ← ge_p1p1_to_p3 t;
  r1 ← dsm_next s2 r0;
  r2 ← dsm_next s2 r1;
  r3 ← dsm_next s2 r2;
  r4 ← dsm_next s2 r3;
  r5 ← dsm_next s2 r4;
  r6 ← dsm_next s2 r5;
  r7 ← dsm_next s2 r6;
  Some [r0; r1; r2; r3; r4; r5; r6; r7].

(** ** Interleaved loops *)

(** One digit of a scalar whose point has the table [Ai]. *)
Definition add_digit (Ai : list ge_cached) (d : Z) (t : ge_p1p1) : option ge_p1p1 :=
  if 0 <? d then
    u ← ge_p1p1_to_p3 t; q ← Ai !! Z.to_nat (d / 2); ge_add u q
  else if d <? 0 then
    u ← ge_p1p1_to_p3 t; q ← Ai !! Z.to_nat (- d / 2); ge_sub u q
  else Some t.

(** One digit of a scalar of the base point. *)
Definition madd_digit (Bi : list ge_precomp) (d : Z) (t : ge_p1p1) : option ge_p1p1 :=
  if 0 <? d then
    u ← ge_p1p1_to_p3 t; q ← Bi !! Z.to_nat (d / 2); ge_madd u q
  else if d <? 0 then
    u ← ge_p1p1_to_p3 t; q ← Bi !! Z.to_nat (- d / 2); ge_msub u q
  else Some t.

(** [for (i = 255; i >= 0; --i) if (...) break;]: the number of steps left. *)
Fixpoint skip_zeros (n : nat) (slides : list (list Z)) : nat :=
  match n with
  | O => O
  | S i => if forallb (fun r => at_ r i =? 0) slides then skip_zeros i slides else S i
  end.

Fixpoint dsm_loop (n : nat) (step : nat -> ge_p1p1 -> option ge_p1p1) (r : ge_p2) : option ge_p2 :=
  match n with
  | O => Some r
  | S i =>
      t ← ge_p2_dbl r;
      t ← step i t;
      r ← ge_p1p1_to_p2 t;
      dsm_loop i step r
  end.

(** The variant that leaves its result in [r3], written in the last step only. *)
Fixpoint dsm_loop_p3 (n : nat) (step : nat -> ge_p1p1 -> option ge_p1p1) (r : ge_p2) (r3 : ge_p3)
  : option ge_p3 :=
  match n with
  | O => Some r3
  | S i =>
      t ← ge_p2_dbl r;
      t ← step i t;
      if (i =? 0)%nat then ge_p1p1_to_p3 t
      else r ← ge_p1p1_to_p2 t; dsm_loop_p3 i step r r3
  end.

Definition ge_double_scalarmult_base_vartime (a : list Z) (A : ge_p3) (b : list Z) : option ge_p2 :=
  let aslide := slide a in
  let bslide := slide b in
  Ai ← ge_dsm_precomp A;
  dsm_loop (skip_zeros 256 [aslide; bslide])
    (fun i t => t ← add_digit Ai (at_ aslide i) t; madd_digit ge_Bi (at_ bslide i) t) ge_p2_0.

Definition ge_triple_scalarmult_base_vartime (a b : list Z) (Bi : list ge_cached) (c : list Z) (Ci : list ge_cached)
  : option ge_p2 :=
  let aslide := slide a in
  let bslide := slide b in
  let cslide := slide c in
  dsm_loop (skip_zeros 256 [aslide; bslide; cslide])
    (fun i t =>
      t ← madd_digit ge_Bi (at_ aslide i) t;
      t ← add_digit Bi (at_ bslide i) t;
      add_digit Ci (at_ cslide i) t) ge_p2_0.

Definition ge_double_scalarmult_base_vartime_p3 (r3 : ge_p3) (a : list Z) (A : ge_p3) (b : list Z) : option ge_p3 :=
  let aslide := slide a in
  let bslide := slide b in
  Ai ← ge_dsm_precomp A;
  dsm_loop_p3 (skip_zeros 256 [aslide; bslide])
    (fun i t => t ← add_digit Ai (at_ aslide i) t; madd_digit ge_Bi (at_ bslide i) t) ge_p2_0 r3.

Definition ge_double_scalarmult_precomp_vartime2 (a : list Z) (Ai : list ge_cached) (b : list Z) (Bi : list ge_cached)
  : option ge_p2 :=
  let aslide := slide a in
  let bslide := slide b in
  dsm_loop (skip_zeros 256 [aslide; bslide])
    (fun i t => t ← add_digit Ai (at_ aslide i) t; add_digit Bi (at_ bslide i) t) ge_p2_0.

Definition ge_triple_scalarmult_precomp_vartime (a : list Z) (Ai : list ge_cached) (b : list Z) (Bi : list ge_cached)
    (c : list Z) (Ci : list ge_cached) : option ge_p2 :=
  let aslide := slide a in
  let bslide := slide b in
  let cslide := slide c in
  dsm_loop (skip_zeros 256 [aslide; bslide; cslide])
    (fun i t =>
      t ← add_digit Ai (at_ aslide i) t;
      t ← add_digit Bi (at_ bslide i) t;
      add_digit Ci (at_ cslide i) t) ge_p2_0.

Definition ge_double_scalarmult_precomp_vartime2_p3 (r3 : ge_p3) (a : list Z) (Ai : list ge_cached)
    (b : list Z) (Bi : list ge_cached) : option ge_p3 :=
  let aslide := slide a in
  let bslide := slide b in
  dsm_loop_p3 (skip_zeros 256 [aslide; bslide])
    (fun i t => t ← add_digit Ai (at_ aslide i) t; add_digit Bi (at_ bslide i) t) ge_p2_0 r3.

Definition ge_double_scalarmult_precomp_vartime (a : list Z) (A : ge_p3) (b : list Z) (Bi : list ge_cached)
  : option ge_p2 :=
  Ai ← ge_dsm_precomp A;
  ge_double_scalarmult_precomp_vartime2 a Ai b Bi.

(** ** Radix 16 *)

Definition equal (b c : Z) : Z := Z.shiftr (u32 (Z.lxor (u8 b) (u8 c) - 1)) 31.

Definition negative (b : Z) : Z := Z.shiftr (u64 b) 63.

(** [babs = b - (((-bnegative) & b) << 1)]. *)
Definition digit_abs (b : Z) : Z := u8 (b - Z.shiftl (Z.land (- negative b) b) 1).

(** The digits [e[0..63]] of [ge_scalarmult], from the low byte up. *)
Fixpoint scalarmult_digits (carry : Z) (a : list Z) : list Z :=
  match a with
  | [] => []
  | [x] =>
      let carry := carry + x in
      let carry2 := Z.shiftr (carry + 8) 4 in
      [carry - Z.shiftl carry2 4; carry2]
  | x :: a =>
      let carry := carry + x in
      let carry2 := Z.shiftr (carry + 8) 4 in
      let carry' := Z.shiftr (carry2 + 8) 4 in
      (carry - Z.shiftl carry2 4) :: (carry2 - Z.shiftl carry' 4) :: scalarmult_digits carry' a
  end.

Definition ge_cached_cmov (t u : ge_cached) (b : Z) : option ge_cached :=
  yp ← fe_cmov (YplusX t) (YplusX u) b;
  ym ← fe_cmov (YminusX t) (YminusX u) b;
  z ← fe_cmov (c_Z t) (c_Z u) b;
  t2 ← fe_cmov (T2d t) (T2d u) b;
  Some (mk_cached yp ym z t2).

(** [cmov(&cur, &Ai[j], equal(babs, j + 1))] for [j = 0..7]. *)
Fixpoint cached_scan (cur : ge_cached) (Ai : list ge_cached) (babs j : Z) : option ge_cached :=
  match Ai with
  | [] => Some cur
  | q :: Ai => cur ← ge_cached_cmov cur q (equal babs j); cached_scan cur Ai babs (j + 1)
  end.

(** The entry of the table for the digit [b]. *)
Definition select_cached (Ai : list ge_cached) (b : Z) : option ge_cached :=
  cur ← cached_scan ge_cached_0 Ai (digit_abs b) 1;
  m ← fe_neg (T2d cur);
  ge_cached_cmov cur (mk_cached (fe_copy (YminusX cur)) (fe_copy (YplusX cur)) (fe_copy (c_Z cur)) m)
    (negative b).

(** [Ai[i + 1] = A + Ai[i]]. *)
Fixpoint multiples (n : nat) (A : ge_p3) (q : ge_cached) : option (list ge_cached) :=
  match n with
  | O => Some [q]
  | S n =>
      t ← ge_add A q; u ← ge_p1p1_to_p3 t; q' ← ge_p3_to_cached u;
      l ← multiples n A q'; Some (q :: l)
  end.

(** The four doublings and the addition of one digit. *)
Definition scalarmult_step (Ai : list ge_cached) (b : Z) (r : ge_p2) : option ge_p1p1 :=
  t ← ge_p2_dbl r;
  r ← ge_p1p1_to_p2 t;
  t ← ge_p2_dbl r;
  r ← ge_p1p1_to_p2 t;
  t ← ge_p2_dbl r;
  r ← ge_p1p1_to_p2 t;
  t ← ge_p2_dbl r;
  u ← ge_p1p1_to_p3 t;
  cur ← select_cached Ai b;
  ge_add u cur.

Fixpoint scalarmult_loop (n : nat) (e : list Z) (Ai : list ge_cached) (r : ge_p2) : option ge_p2 :=
  match n with
  | O => Some r
  | S i => t ← scalarmult_step Ai (at_ e i) r; r ← ge_p1p1_to_p2 t; scalarmult_loop i e Ai r
  end.

Definition ge_scalarmult (a : list Z) (A : ge_p3) : option ge_p2 :=
  let e := scalarmult_digits 0 a in
  q ← ge_p3_to_cached A;
  Ai ← multiples 7 A q;
  scalarmult_loop 64 e Ai ge_p2_0.

(** The same loop, whose last step ([i == 0]) converts to [ge_p3]; the loop runs
    64 times, so that step is always reached. *)
Fixpoint scalarmult_loop_p3 (n : nat) (e : list Z) (Ai : list ge_cached) (r : ge_p2) : option ge_p3 :=
  match n with
  | O => None
  | S i =>
      t ← scalarmult_step Ai (at_ e i) r;
      if (i =? 0)%nat then ge_p1p1_to_p3 t
      else r ← ge_p1p1_to_p2 t; scalarmult_loop_p3 i e Ai r
  end.

Definition ge_scalarmult_p3 (a : list Z) (A : ge_p3) : option ge_p3 :=
  let e := scalarmult_digits 0 a in
  q ← ge_p3_to_cached A;
  Ai ← multiples 7 A q;
  scalarmult_loop_p3 64 e Ai ge_p2_0.

(** ** Multiples of the base point *)

Definition ge_precomp_cmov (t u : ge_precomp) (b : Z) : option ge_precomp :=
  yp ← fe_cmov (yplusx t) (yplusx u) b;
  ym ← fe_cmov (yminusx t) (yminusx u) b;
  xy ← fe_cmov (xy2d t) (xy2d u) b;
  Some (mk_precomp yp ym xy).

Fixpoint precomp_scan (t : ge_precomp) (row : list ge_precomp) (babs j : Z) : option ge_precomp :=
  match row with
  | [] => Some t
  | q :: row => t ← ge_precomp_cmov t q (equal babs j); precomp_scan t row babs (j + 1)
  end.

Definition select (pos : nat) (b : Z) : option ge_precomp :=
  row ← ge_base !! pos;
  t ← precomp_scan ge_precomp_0 row (digit_abs b) 1;
  m ← fe_neg (xy2d t);
  ge_precomp_cmov t (mk_precomp (fe_copy (yminusx t)) (fe_copy (yplusx t)) m) (negative b).

(** The nibbles of the scalar, low one first. *)
Definition nibbles (a : list Z) : list Z :=
  flat_map (fun x => [Z.land (Z.shiftr x 0) 15; Z.land (Z.shiftr x 4) 15]) a.

(** [e[i] += carry; carry = (e[i] + 8) >> 4; e[i] -= carry << 4], the last one
    only [e[63] += carry]. *)
Fixpoint base_digits (carry : Z) (e : list Z) : list Z :=
  match e with
  | [] => []
  | [x] => [x + carry]
  | x :: e =>
      let x := x + carry in
      let carry := Z.shiftr (x + 8) 4 in
      (x - Z.shiftl carry 4) :: base_digits carry e
  end.

(** [for (i = ...; i < 64; i += 2) { select(&t, i / 2, e[i]); h += t }]. *)
Fixpoint base_loop (idx : list nat) (e : list Z) (h : ge_p3) : option ge_p3 :=
  match idx with
  | [] => Some h
  | i :: idx =>
      t ← select (i / 2) (at_ e i);
      r ← ge_madd h t;
      h ← ge_p1p1_to_p3 r;
      base_loop idx e h
  end.

Definition ge_scalarmult_base (a : list Z) : option ge_p3 :=
  let e := base_digits 0 (nibbles a) in
  h ← base_loop (map (fun i => 2 * i + 1)%nat (seq 0 32)) e ge_p3_0;
  r ← ge_p3_dbl h;
  s ← ge_p1p1_to_p2 r;
  r ← ge_p2_dbl s;
  s ← ge_p1p1_to_p2 r;
  r ← ge_p2_dbl s;
  s ← ge_p1p1_to_p2 r;
  r ← ge_p2_dbl s;
  h ← ge_p1p1_to_p3 r;
  base_loop (map (fun i => 2 * i)%nat (seq 0 32)) e h.
End GeMult.
