(* ===== verification/Recode.v ===== *)
(** The signed-digit recodings of scalars: the digits that [slide], the loop of
    [ge_scalarmult] and the loop of [ge_scalarmult_base] compute represent the
    scalar and stay within the ranges the tables of multiples cover. *)
From S2P Require Import Prelude Limbs Pack GeMult.

Local Open Scope Z_scope.

Module Recode.
Import Limbs Pack GeMult.

(** ** Digits in base [B] *)

Fixpoint digits_val (B : Z) (r : list Z) : Z :=
  match r with
  | [] => 0
  | x :: r => x + B * digits_val B r
  end.

Lemma digits_val_app B r s :
  digits_val B (r ++ s) = digits_val B r + B ^ Z.of_nat (length r) * digits_val B s.
Proof.
  induction r as [| x r IH]; simpl app; cbn [digits_val length]; [simpl; lia |].
  rewrite IH, Nat2Z.inj_succ, Z.pow_succ_r by lia. ring.
Qed.

Lemma digits_val_take_S B r i x : r !! i = Some x ->
  digits_val B (take (S i) r) = digits_val B (take i r) + B ^ Z.of_nat i * x.
Proof.
  intros E. rewrite (take_S_r _ _ _ E), digits_val_app, length_take. simpl.
  apply lookup_lt_Some in E. rewrite Nat.min_l by lia. lia.
Qed.

(** The value of the digits from [j] up, and its behaviour under updates. *)
Definition hi (j : nat) (r : list Z) : Z := 2 ^ Z.of_nat j * digits_val 2 (drop j r).

Lemma at_insert (r : list Z) i j v : (i < length r)%nat ->
  at_ (<[i := v]> r) j = if (i =? j)%nat then v else at_ r j.
Proof.
  intros H. unfold at_. destruct (Nat.eqb_spec i j) as [-> | Hn].
  - by rewrite list_lookup_insert_eq.
  - by rewrite list_lookup_insert_ne.
Qed.

Lemma at_lookup (r : list Z) i : (i < length r)%nat -> r !! i = Some (at_ r i).
Proof. intros H. destruct (lookup_lt_is_Some_2 r i H) as [x E]. unfold at_. by rewrite E. Qed.

Lemma hi_S j r : (j < length r)%nat -> hi j r = 2 ^ Z.of_nat j * at_ r j + hi (S j) r.
Proof.
  intros H. unfold hi. rewrite (drop_S _ _ _ (at_lookup r j H)). cbn [digits_val].
  rewrite Nat2Z.inj_succ, Z.pow_succ_r by lia. ring.
Qed.

Lemma digits_val_insert (r : list Z) k v : (k < length r)%nat ->
  digits_val 2 (<[k := v]> r) = digits_val 2 r + 2 ^ Z.of_nat k * (v - at_ r k).
Proof.
  revert k. induction r as [| x r IH]; intros [| k] H; simpl in H; try lia.
  - change (at_ (x :: r) 0) with x. cbn [insert list_insert digits_val]. simpl (2 ^ _). lia.
  - change (at_ (x :: r) (S k)) with (at_ r k). cbn [insert list_insert digits_val].
    change (list_insert k v r) with (<[k := v]> r). rewrite IH by lia.
    rewrite Nat2Z.inj_succ, Z.pow_succ_r by lia. ring.
Qed.

Lemma hi_insert_lt j k v r : (k < j)%nat -> hi j (<[k := v]> r) = hi j r.
Proof. intros H. unfold hi. by rewrite drop_insert_lt. Qed.

Lemma hi_insert_ge j k v r : (j <= k < length r)%nat ->
  hi j (<[k := v]> r) = hi j r + 2 ^ Z.of_nat k * (v - at_ r k).
Proof.
  intros [H1 H2]. unfold hi. rewrite drop_insert_ge by done.
  rewrite digits_val_insert by (rewrite length_drop; lia).
  assert (E : at_ (drop j r) (k - j) = at_ r k).
  { unfold at_. rewrite lookup_drop. by replace (j + (k - j))%nat with k by lia. }
  rewrite E. replace (Z.of_nat k) with (Z.of_nat j + Z.of_nat (k - j)) by lia.
  rewrite Z.pow_add_r by lia. ring.
Qed.

Lemma hi_0 r : hi 0 r = digits_val 2 r.
Proof. unfold hi. rewrite drop_0. simpl (2 ^ _). lia. Qed.

Lemma hi_zero j k r : (j <= k <= length r)%nat -> (forall m, (j <= m < k)%nat -> at_ r m = 0) -> hi j r = hi k r.
Proof.
  intros [H1 H2] Hz. replace k with (j + (k - j))%nat in * by lia. revert H2 Hz.
  generalize (k - j)%nat. intros n. induction n as [| n IH]; intros H2 Hz; [by rewrite Nat.add_0_r |].
  rewrite IH by (intros; try apply Hz; lia). rewrite (hi_S (j + n)) by lia. rewrite Hz by lia.
  replace (j + S n)%nat with (S (j + n)) by lia. lia.
Qed.

(** ** The carry loop of [slide] *)

Definition bits_from (k : nat) (r : list Z) : Prop := forall m, (k <= m)%nat -> 0 <= at_ r m <= 1.

Lemma bits_from_max r n k : length r = (k + n)%nat -> bits_from k r -> 0 <= hi k r < 2 ^ Z.of_nat (k + n).
Proof.
  intros Hl Hb. unfold hi. rewrite Nat2Z.inj_add, Z.pow_add_r by lia.
  assert (B : 0 <= digits_val 2 (drop k r) < 2 ^ Z.of_nat n).
  { assert (Hd : length (drop k r) = n) by (rewrite length_drop; lia).
    assert (Hf : Forall (fun x => 0 <= x <= 1) (drop k r)).
    { apply Forall_lookup. intros i x Hx. rewrite lookup_drop in Hx. specialize (Hb (k + i)%nat ltac:(lia)).
      unfold at_ in Hb. by rewrite Hx in Hb. }
    rewrite <- Hd. clear -Hf. induction Hf as [| x l Hx _ IH]; cbn [digits_val length]; [simpl; lia |].
    rewrite Nat2Z.inj_succ, Z.pow_succ_r by lia. lia. }
  assert (0 < 2 ^ Z.of_nat k) by (apply Z.pow_pos_nonneg; lia). nia.
Qed.

Lemma slide_carry_ok n r k :
  length r = (k + n)%nat -> bits_from k r -> hi k r + 2 ^ Z.of_nat k < 2 ^ Z.of_nat (k + n) ->
  let r' := slide_carry n r k in
  length r' = length r /\ bits_from k r' /\ (forall m, (m < k)%nat -> at_ r' m = at_ r m) /\
  (forall j, (j <= k)%nat -> hi j r' = hi j r + 2 ^ Z.of_nat k) /\ (at_ r k = 1 -> at_ r' k = 0).
Proof.
  revert r k. induction n as [| n IH]; intros r k Hl Hb Ho; simpl.
  - exfalso. pose proof (bits_from_max r 0 k Hl Hb). rewrite Nat.add_0_r in *. lia.
  - assert (Hk : (k < length r)%nat) by lia. pose proof (Hb k ltac:(lia)) as Bk.
    destruct (Z.eqb_spec (at_ r k) 0) as [E0 | E0].
    + rewrite length_insert. split; [done |]. split; [| split; [| split]].
      * intros m Hm. rewrite at_insert by done. destruct (k =? m)%nat; [lia | by apply Hb].
      * intros m Hm. rewrite at_insert by done. destruct (Nat.eqb_spec k m); [lia | done].
      * intros j Hj. rewrite hi_insert_ge, E0 by lia. lia.
      * lia.
    + assert (E1 : at_ r k = 1) by lia.
      assert (Hb' : bits_from (k + 1) (<[k := 0]> r)).
      { intros m Hm. rewrite at_insert by done. destruct (k =? m)%nat; [lia | apply Hb; lia]. }
      destruct (IH (<[k := 0]> r) (k + 1)%nat) as (L & B & Lo & Hi & _);
        [rewrite length_insert; lia | done | |].
      { rewrite hi_insert_lt by lia. rewrite (hi_S k), E1 in Ho by done.
        replace (k + S n)%nat with (k + 1 + n)%nat in Ho by lia. rewrite Nat.add_1_r in *.
        rewrite Nat2Z.inj_succ, Z.pow_succ_r by lia. lia. }
      rewrite length_insert in L. split; [done |]. split; [| split; [| split]].
      * intros m Hm. destruct (decide (m = k)) as [-> |]; [| apply B; lia].
        rewrite Lo, at_insert, Nat.eqb_refl by lia. lia.
      * intros m Hm. rewrite Lo, at_insert by lia. by destruct (Nat.eqb_spec k m); [lia |].
      * intros j Hj. rewrite Hi, hi_insert_ge, E1 by lia.
        rewrite Nat.add_1_r, Nat2Z.inj_succ, Z.pow_succ_r by lia. lia.
      * intros _. rewrite Lo, at_insert, Nat.eqb_refl by lia. done.
Qed.

(** ** One window of [slide] *)

Record window (i b : nat) (V : Z) (r0 r : list Z) : Prop := {
  w_len : length r = 256%nat;
  w_val : digits_val 2 r = V;
  w_odd : Z.odd (at_ r i) = true;
  w_abs : -15 <= at_ r i <= 15;
  w_bits : bits_from (S i) r;
  w_zero : forall m, (i < m < i + b)%nat -> at_ r m = 0;
  w_hi : hi i r <= 2 ^ 255;
  w_hi' : hi (S i) r <= 2 ^ 255;
  w_low : forall m, (m < i)%nat -> at_ r m = at_ r0 m
}.

Lemma odd_pow2 x b : (1 <= b)%nat -> Z.odd (x + 2 ^ Z.of_nat b) = Z.odd x /\ Z.odd (x - 2 ^ Z.of_nat b) = Z.odd x.
Proof.
  intros Hb. destruct b as [| b]; [lia |]. rewrite Nat2Z.inj_succ, Z.pow_succ_r by lia.
  rewrite Z.odd_add, Z.odd_sub, Z.odd_mul. simpl. by rewrite !xorb_false_r.
Qed.

(** Absorbing the bit [i + b] into the digit. *)
Lemma window_absorb i b V r0 r :
  (i + b < 256)%nat -> (1 <= b)%nat -> window i b V r0 r -> at_ r (i + b) = 1 ->
  at_ r i + 2 ^ Z.of_nat b <= 15 ->
  window i (S b) V r0 (<[(i + b)%nat := 0]> (<[i := at_ r i + 2 ^ Z.of_nat b]> r)).
Proof.
  intros Hib Hb W E1 Hle. destruct W. set (x := at_ r i + 2 ^ Z.of_nat b) in *.
  assert (P : 0 < 2 ^ Z.of_nat b) by (apply Z.pow_pos_nonneg; lia).
  assert (Ei : forall m, at_ (<[(i + b)%nat := 0]> (<[i := x]> r)) m =
    if (i + b =? m)%nat then 0 else if (i =? m)%nat then x else at_ r m).
  { intros m. rewrite !at_insert by (rewrite ?length_insert; lia). done. }
  assert (Ev : forall j, (j <= i)%nat -> hi j (<[(i + b)%nat := 0]> (<[i := x]> r)) = hi j r).
  { intros j Hj. rewrite !hi_insert_ge by (rewrite ?length_insert; lia).
    rewrite at_insert by lia. destruct (Nat.eqb_spec i (i + b)); [lia |].
    rewrite E1, Nat2Z.inj_add, Z.pow_add_r by lia. unfold x. ring. }
  split; try (rewrite Ei, Nat.eqb_refl; destruct (Nat.eqb_spec (i + b) i); [lia |]).
  - by rewrite !length_insert.
  - rewrite <- hi_0, Ev, hi_0 by lia. done.
  - unfold x. by destruct (odd_pow2 (at_ r i) b Hb) as [-> _].
  - lia.
  - intros m Hm. rewrite Ei. destruct (Nat.eqb_spec (i + b) m); [lia |].
    destruct (Nat.eqb_spec i m); [lia | by apply w_bits0].
  - intros m Hm. rewrite Ei. destruct (Nat.eqb_spec (i + b) m); [done |].
    destruct (Nat.eqb_spec i m); [lia |]. apply w_zero0; lia.
  - rewrite Ev by lia. done.
  - rewrite hi_insert_ge by (rewrite length_insert; lia). rewrite hi_insert_lt by lia.
    rewrite at_insert by lia. destruct (Nat.eqb_spec i (i + b)); [lia |].
    assert (0 < 2 ^ Z.of_nat (i + b)) by (apply Z.pow_pos_nonneg; lia). lia.
  - intros m Hm. rewrite Ei. destruct (Nat.eqb_spec (i + b) m); [lia |].
    destruct (Nat.eqb_spec i m); [lia | by apply w_low0].
Qed.

Lemma multiple_below M U c : 0 < M -> U < M * c -> (M | U) -> U + M <= M * c.
Proof.
  intros HM H [k ->]. rewrite (Z.mul_comm k) in *. apply Z.mul_lt_mono_pos_l in H; [| done]. nia.
Qed.

(** Borrowing from the bits above. *)
Lemma window_borrow i b V r0 r :
  (i + b < 256)%nat -> (1 <= b)%nat -> window i b V r0 r -> at_ r (i + b) = 1 ->
  15 < at_ r i + 2 ^ Z.of_nat b -> -15 <= at_ r i - 2 ^ Z.of_nat b ->
  window i (S b) V r0 (slide_carry (256 - (i + b)) (<[i := at_ r i - 2 ^ Z.of_nat b]> r) (i + b)).
Proof.
  intros Hib Hb W E1 H1 H2. destruct W. set (x := at_ r i - 2 ^ Z.of_nat b) in *.
  assert (P : 0 < 2 ^ Z.of_nat b) by (apply Z.pow_pos_nonneg; lia).
  assert (Pi : 0 < 2 ^ Z.of_nat i) by (apply Z.pow_pos_nonneg; lia).
  assert (U : hi (S i) r + 2 ^ Z.of_nat (i + b) <= 2 ^ 255).
  { rewrite (hi_zero (S i) (i + b)) in * by (intros; try apply w_zero0; lia).
    replace (2 ^ 255) with (2 ^ Z.of_nat (i + b) * 2 ^ (255 - Z.of_nat (i + b))) by (rewrite <- Z.pow_add_r by lia; f_equal; lia).
    apply multiple_below; [apply Z.pow_pos_nonneg; lia | | unfold hi; apply Z.divide_factor_l].
    rewrite <- Z.pow_add_r by lia. replace (Z.of_nat (i + b) + (255 - Z.of_nat (i + b))) with 255 by lia.
    rewrite (hi_S i), (hi_zero (S i) (i + b)) in w_hi0 by (intros; try apply w_zero0; lia). nia. }
  destruct (slide_carry_ok (256 - (i + b)) (<[i := x]> r) (i + b)) as (L & B & Lo & Hi & Hz).
  { rewrite length_insert. lia. }
  { intros m Hm. rewrite at_insert by lia. destruct (Nat.eqb_spec i m); [lia |]. apply w_bits0. lia. }
  { rewrite hi_insert_lt by lia. rewrite (hi_zero (S i) (i + b)) in U by (intros; try apply w_zero0; lia).
    replace (i + b + (256 - (i + b)))%nat with 256%nat by lia. change (Z.of_nat 256) with 256. lia. }
  rewrite length_insert in L.
  assert (Ei : forall m, (m < i + b)%nat -> at_ (slide_carry (256 - (i + b)) (<[i := x]> r) (i + b)) m =
    if (i =? m)%nat then x else at_ r m).
  { intros m Hm. rewrite Lo, at_insert by lia. done. }
  assert (Ev : forall j, (j <= i)%nat -> hi j (slide_carry (256 - (i + b)) (<[i := x]> r) (i + b)) = hi j r).
  { intros j Hj. rewrite Hi, hi_insert_ge, Nat2Z.inj_add, Z.pow_add_r by lia. unfold x. ring. }
  split; try (rewrite Ei, Nat.eqb_refl by lia).
  - lia.
  - rewrite <- hi_0, Ev, hi_0 by lia. done.
  - unfold x. by destruct (odd_pow2 (at_ r i) b Hb) as [_ ->].
  - lia.
  - intros m Hm. destruct (decide (m < i + b)%nat); [| apply B; lia].
    rewrite Ei by lia. destruct (Nat.eqb_spec i m); [lia | by apply w_bits0].
  - intros m Hm. destruct (decide (m = i + b)%nat) as [-> |].
    + apply Hz. rewrite at_insert by lia. by destruct (Nat.eqb_spec i (i + b)); [lia |].
    + rewrite Ei by lia. destruct (Nat.eqb_spec i m); [lia |]. apply w_zero0; lia.
  - rewrite Ev by lia. done.
  - rewrite Hi, hi_insert_lt by lia. done.
  - intros m Hm. rewrite Ei by lia. destruct (Nat.eqb_spec i m); [lia | by apply w_low0].
Qed.

Lemma window_skip i b V r0 r : window i b V r0 r -> at_ r (i + b) = 0 -> window i (S b) V r0 r.
Proof.
  intros [] E. split; try done. intros m Hm.
  destruct (decide (m = i + b)%nat) as [-> |]; [done | apply w_zero0; lia].
Qed.

Lemma slide_inner_ok n i b V r0 r : (1 <= b)%nat -> window i b V r0 r ->
  exists b', window i b' V r0 (slide_inner (seq b n) i r).
Proof.
  revert b r. induction n as [| n IH]; intros b r Hb W; simpl; [by exists b |].
  destruct (Nat.ltb_spec (i + b) 256) as [Hib |]; [| by exists b].
  destruct (Z.eqb_spec (at_ r (i + b)) 0) as [E0 | E0].
  { apply IH; [lia |]. by apply window_skip. }
  assert (E1 : at_ r (i + b) = 1) by (pose proof (w_bits _ _ _ _ _ W (i + b)%nat ltac:(lia)); lia).
  rewrite E1, Z.shiftl_1_l.
  destruct (Z.leb_spec (at_ r i + 2 ^ Z.of_nat b) 15); [apply IH; [lia |]; by apply window_absorb |].
  destruct (Z.leb_spec (-15) (at_ r i - 2 ^ Z.of_nat b)); [| by exists b].
  apply IH; [lia |]. by apply window_borrow.
Qed.

(** ** [slide] *)

Definition digit_ok (d : Z) : Prop := d = 0 \/ (Z.odd d = true /\ -15 <= d <= 15).

Record slid (i : nat) (V : Z) (r : list Z) : Prop := {
  s_len : length r = 256%nat;
  s_val : digits_val 2 r = V;
  s_done : forall m, (m < i)%nat -> digit_ok (at_ r m);
  s_bits : bits_from i r;
  s_hi : hi i r <= 2 ^ 255
}.

Lemma slide_step_ok i V r : (i < 256)%nat -> slid i V r -> slid (S i) V (slide_step r i).
Proof.
  intros Hi S0. pose proof S0 as []. unfold slide_step. pose proof (s_bits0 i ltac:(lia)) as Bi.
  rewrite (hi_S i) in s_hi0 by lia.
  assert (Pi : 0 < 2 ^ Z.of_nat i) by (apply Z.pow_pos_nonneg; lia).
  destruct (Z.eqb_spec (at_ r i) 0) as [E | E].
  - split; try done.
    + intros m Hm. destruct (decide (m = i)) as [-> |]; [by left | apply s_done0; lia].
    + intros m Hm. apply s_bits0. lia.
    + rewrite E in s_hi0. lia.
  - assert (E1 : at_ r i = 1) by lia. rewrite E1 in s_hi0.
    assert (W0 : window i 1 V r r).
    { split; try done; try (rewrite E1; done || lia).
      - intros m Hm. apply s_bits0. lia.
      - intros m Hm. lia.
      - rewrite (hi_S i), E1 by lia. lia.
      - lia. }
    destruct (slide_inner_ok 6 i 1 V r r ltac:(lia) W0) as (b' & []).
    change [1; 2; 3; 4; 5; 6]%nat with (seq 1 6).
    split; try done. intros m Hm. destruct (decide (m = i)) as [-> |]; [right; done |].
    rewrite w_low0 by lia. apply s_done0. lia.
Qed.

Definition byte_bits (x : Z) : list Z := map (fun k => Z.land 1 (Z.shiftr x (Z.of_nat k))) (seq 0 8).

Lemma byte_bits_ok x : is_byte x -> digits_val 2 (byte_bits x) = x /\ Forall (fun b => 0 <= b <= 1) (byte_bits x).
Proof.
  assert (C : forallb (fun n => let x := Z.of_nat n in (digits_val 2 (byte_bits x) =? x) &&
    forallb (fun b => (0 <=? b) && (b <=? 1)) (byte_bits x)) (seq 0 256) = true) by (vm_compute; reflexivity).
  intros Hx. unfold is_byte in Hx. rewrite forallb_forall in C.
  specialize (C (Z.to_nat x)). cbv zeta in C. rewrite Z2Nat.id in C by lia.
  assert (Hin : In (Z.to_nat x) (seq 0 256)) by (apply in_seq; lia).
  apply C, andb_true_iff in Hin as [V%Z.eqb_eq B]. split; [done |].
  rewrite forallb_forall in B. apply Forall_forall. intros b Hb.
  apply B, andb_true_iff in Hb as [?%Z.leb_le ?%Z.leb_le]. lia.
Qed.

Lemma slide_bits_ok a : is_bytes 32 a ->
  length (slide_bits a) = 256%nat /\ digits_val 2 (slide_bits a) = le_combine a /\
  Forall (fun b => 0 <= b <= 1) (slide_bits a).
Proof.
  intros [Hl H]. split; [by unfold slide_bits; rewrite length_map, length_seq |].
  assert (E : slide_bits a = flat_map byte_bits a).
  { do 32 (destruct a as [| ? a]; [discriminate Hl |]). destruct a; [reflexivity | discriminate Hl]. }
  rewrite E. clear E Hl. induction H as [| x a Hx H IH]; [done |].
  destruct IH as [V B], (byte_bits_ok x Hx) as [Vx Bx]. cbn [flat_map le_combine]. split.
  - rewrite digits_val_app, V, Vx. done.
  - by apply Forall_app.
Qed.

Lemma slide_ok a : is_bytes 32 a -> le_combine a < 2 ^ 255 ->
  length (slide a) = 256%nat /\ digits_val 2 (slide a) = le_combine a /\ (forall m, digit_ok (at_ (slide a) m)).
Proof.
  intros Ha Hv. destruct (slide_bits_ok a Ha) as (L & V & B).
  assert (S0 : slid 0 (le_combine a) (slide_bits a)).
  { split; [done | done | lia | | by rewrite hi_0, V; lia].
    intros m _. unfold at_. destruct (slide_bits a !! m) as [x |] eqn:E; simpl; [| lia].
    by apply (proj1 (Forall_lookup _ _) B m x). }
  assert (Sn : forall n, (n <= 256)%nat -> slid n (le_combine a) (foldl slide_step (slide_bits a) (seq 0 n))).
  { induction n as [| n IH]; intros Hn; [done |]. rewrite seq_S, foldl_app. simpl.
    apply slide_step_ok; [lia |]. apply IH. lia. }
  destruct (Sn 256%nat ltac:(lia)) as []. split; [done |]. split; [done |]. intros m.
  destruct (decide (m < 256)%nat) as [Hm | Hm]; [by apply s_done0 |]. left.
  unfold slide, at_. rewrite (proj2 (lookup_ge_None _ _)); [done |]. rewrite s_len0. lia.
Qed.

(** ** Radix 16 *)

Lemma scalarmult_digits_ok n c a :
  length a = S n -> Forall is_byte a -> 0 <= c <= 1 -> at_ a n <= 127 ->
  let e := scalarmult_digits c a in
  length e = (2 * S n)%nat /\ digits_val 16 e = c + le_combine a /\ Forall (fun d => -8 <= d <= 8) e.
Proof.
  revert c a. induction n as [| n IH]; intros c a Hl H Hc Hlast.
  - destruct a as [| x [| y a]]; try discriminate Hl. apply Forall_cons_iff in H as [Hx _]. unfold is_byte in Hx.
    change (at_ [x] 0) with x in Hlast. simpl. rewrite Z.shiftr_div_pow2, Z.shiftl_mul_pow2 by lia.
    change (2 ^ 4) with 16. split; [done |]. split; [lia |].
    repeat (apply Forall_cons; [zlia |]). constructor.
  - destruct a as [| x [| y a]]; try discriminate Hl. apply Forall_cons_iff in H as [Hx H]. unfold is_byte in Hx.
    set (c2 := Z.shiftr (c + x + 8) 4). set (c' := Z.shiftr (c2 + 8) 4).
    assert (E : scalarmult_digits c (x :: y :: a) =
      (c + x - Z.shiftl c2 4) :: (c2 - Z.shiftl c' 4) :: scalarmult_digits c' (y :: a)) by reflexivity.
    cbv zeta. rewrite E. clear E.
    assert (Hc2 : 0 <= c2 <= 16 /\ 0 <= c' <= 1 /\ -8 <= c + x - 16 * c2 <= 7 /\ -8 <= c2 - 16 * c' <= 7).
    { unfold c', c2. rewrite !Z.shiftr_div_pow2 by lia. change (2 ^ 4) with 16. zlia. }
    destruct (IH c' (y :: a)) as (L & V & D); [simpl in *; lia | done | lia | exact Hlast |].
    rewrite !Z.shiftl_mul_pow2 by lia. change (2 ^ 4) with 16. split; [cbn [length]; lia |]. split.
    + cbn [digits_val le_combine] in *. rewrite V. lia.
    + repeat (apply Forall_cons; [lia |]). done.
Qed.

Lemma nibble_split x : is_byte x ->
  Z.land (Z.shiftr x 0) 15 = x mod 16 /\ Z.land (Z.shiftr x 4) 15 = x / 16.
Proof.
  intros Hx. unfold is_byte in Hx. rewrite Z.shiftr_0_r, Z.shiftr_div_pow2 by lia.
  change 15 with (Z.ones 4). rewrite !Z.land_ones by lia. change (2 ^ 4) with 16.
  split; [done |]. apply Z.mod_small. zlia.
Qed.

Lemma nibbles_ok a : Forall is_byte a ->
  length (nibbles a) = (2 * length a)%nat /\ digits_val 16 (nibbles a) = le_combine a /\
  Forall (fun d => 0 <= d <= 15) (nibbles a).
Proof.
  induction 1 as [| x a Hx H IH]; [done |]. destruct IH as (L & V & D).
  destruct (nibble_split x Hx) as [E0 E4]. unfold is_byte in Hx.
  unfold nibbles in *. cbn [flat_map app]. rewrite E0, E4. split; [cbn [length]; lia |]. split.
  - cbn [digits_val le_combine]. rewrite V. zlia.
  - repeat (apply Forall_cons; [zlia |]). done.
Qed.

Lemma nibbles_top a n : length a = S n -> is_byte (at_ a n) -> at_ (nibbles a) (2 * n + 1) = at_ a n / 16.
Proof.
  revert a. induction n as [| n IH]; intros [| x a] Hl Hb; try discriminate Hl.
  - exact (proj2 (nibble_split x Hb)).
  - replace (2 * S n + 1)%nat with (S (S (2 * n + 1))) by lia. apply (IH a); [by injection Hl | done].
Qed.

Lemma base_digits_ok n c e :
  length e = S n -> Forall (fun d => 0 <= d <= 15) e -> 0 <= c <= 1 -> at_ e n <= 7 ->
  let e' := base_digits c e in
  length e' = S n /\ digits_val 16 e' = c + digits_val 16 e /\ Forall (fun d => -8 <= d <= 8) e'.
Proof.
  revert c e. induction n as [| n IH]; intros c e Hl H Hc Ht.
  - destruct e as [| x [| y e]]; try discriminate Hl. apply Forall_cons_iff in H as [Hx _].
    change (at_ [x] 0) with x in Ht. simpl. split; [done |]. split; [lia |].
    apply Forall_cons; [lia | constructor].
  - destruct e as [| x [| y e]]; try discriminate Hl. apply Forall_cons_iff in H as [Hx H].
    set (c' := Z.shiftr (x + c + 8) 4).
    assert (E : base_digits c (x :: y :: e) = (x + c - Z.shiftl c' 4) :: base_digits c' (y :: e)) by reflexivity.
    cbv zeta. rewrite E. clear E.
    assert (Hc' : 0 <= c' <= 1 /\ -8 <= x + c - 16 * c' <= 7).
    { unfold c'. rewrite Z.shiftr_div_pow2 by lia. change (2 ^ 4) with 16. zlia. }
    destruct (IH c' (y :: e)) as (L & V & D); [simpl in *; lia | done | lia | exact Ht |].
    rewrite Z.shiftl_mul_pow2 by lia. change (2 ^ 4) with 16. split; [cbn [length]; lia |]. split.
    + cbn [digits_val] in *. rewrite V. lia.
    + apply Forall_cons; [lia | done].
Qed.

(** A scalar below [2^255] has its top byte below 128. *)
Lemma top_byte_small a : is_bytes 32 a -> le_combine a < 2 ^ 255 -> at_ a 31 <= 127.
Proof.
  intros [Hl H] Hv.
  do 32 (destruct a as [| ? a]; [discriminate Hl |]). destruct a; [| discriminate Hl].
  cbn [le_combine at_ lookup list_lookup default from_option id] in *.
  repeat (apply Forall_cons_iff in H as [? H]). unfold is_byte in *. lia.
Qed.

Lemma scalar_digits a : is_bytes 32 a -> le_combine a < 2 ^ 255 ->
  length (scalarmult_digits 0 a) = 64%nat /\ digits_val 16 (scalarmult_digits 0 a) = le_combine a /\
  Forall (fun d => -8 <= d <= 8) (scalarmult_digits 0 a).
Proof.
  intros Ha Hv. pose proof (top_byte_small a Ha Hv) as Ht. destruct Ha as [Hl H].
  exact (scalarmult_digits_ok 31 0 a Hl H ltac:(lia) ltac:(done)).
Qed.

Lemma base_scalar_digits a : is_bytes 32 a -> le_combine a < 2 ^ 255 ->
  length (base_digits 0 (nibbles a)) = 64%nat /\ digits_val 16 (base_digits 0 (nibbles a)) = le_combine a /\
  Forall (fun d => -8 <= d <= 8) (base_digits 0 (nibbles a)).
Proof.
  intros Ha Hv. pose proof (top_byte_small a Ha Hv) as Ht. destruct Ha as [Hl H].
  destruct (nibbles_ok a H) as (L & V & D).
  assert (Hb : is_byte (at_ a 31)) by by apply at_byte.
  destruct (base_digits_ok 63 0 (nibbles a)) as (L' & V' & D'); [lia | done | lia | |].
  { change 63%nat with (2 * 31 + 1)%nat. rewrite (nibbles_top a 31 Hl Hb). unfold is_byte in Hb. zlia. }
  split; [done |]. split; [lia | done].
Qed.
End Recode.
