(* ===== verification/GeMultCorrect.v ===== *)
(** The scalar multiplications compute multiples in the group of the curve.

    The tables hold multiples of their point, every digit adds the multiple it
    stands for, and the loops are Horner schemes over the digits; with the
    recodings of [Recode] the result is the multiple by the scalar itself. *)
From S2P Require Import Prelude Limbs Pack Group Fe FeCorrect FePow FeBytes Curve GeData Ge GeCorrect GeMult Recode.

Local Open Scope Z_scope.

Module GeMultCorrect.
Import Limbs Pack Group Fe FeCorrect FePow FeBytes Curve GeData Ge GeCorrect GeMult Recode.

Local Open Scope group_scope.

Lemma digits_val_wsum B r n (P : point) : (n <= length r)%nat ->
  wsum B n (fun i => smul (at_ r i) P) ≃ smul (digits_val B (take n r)) P.
Proof.
  induction n as [| n IH]; intros Hn; [done |]. simpl wsum.
  rewrite IH by lia. rewrite (digits_val_take_S B r n _ (at_lookup r n ltac:(lia))).
  by rewrite smul_add, smul_mul.
Qed.

(** ** Tables of odd multiples *)

Definition table_ok (Ai : list ge_cached) (P : point) : Prop :=
  forall k, (k < 8)%nat -> exists q, Ai !! k = Some q /\ cached_rep q (smul (2 * Z.of_nat k + 1) P).

Definition ptable_ok (Bi : list ge_precomp) (P : point) : Prop :=
  forall k, (k < 8)%nat -> exists q, Bi !! k = Some q /\ precomp_rep q (smul (2 * Z.of_nat k + 1) P).

Lemma dsm_next_ok s2 prev P n :
  p3_rep s2 (smul 2 P) -> cached_rep prev (smul n P) ->
  yields (dsm_next s2 prev) (fun q => cached_rep q (smul (n + 2) P)).
Proof.
  intros H2 Hp. unfold dsm_next. repeat ge_step. intros q Hq.
  replace (n + 2)%Z with (2 + n)%Z by lia. rewrite smul_add. exact Hq.
Qed.

Lemma ge_dsm_precomp_ok s P : p3_rep s P -> yields (ge_dsm_precomp s) (fun Ai => table_ok Ai P).
Proof.
  intros Hs. unfold ge_dsm_precomp. do 3 ge_step.
  change (p3_rep g1 (smul 2 P)) in G1. change (cached_rep g (smul 1 P)) in G.
  do 7 (eapply yields_bind; [eapply dsm_next_ok; eassumption | cbv beta; intros ? ?]).
  apply yields_ret. intros k Hk.
  do 8 (destruct k as [| k]; [eexists; split; [reflexivity | assumption] |]). lia.
Qed.

(** ** Digits *)

Lemma digit_index d : digit_ok d -> 0 < d -> (Z.to_nat (d / 2) < 8)%nat /\ (2 * Z.of_nat (Z.to_nat (d / 2)) + 1 = d)%Z.
Proof.
  intros [-> | [Ho Hd]] H0; [lia |]. rewrite Zodd_mod in Ho. apply Zeq_bool_eq in Ho. zlia.
Qed.

Lemma digit_ok_opp d : digit_ok d -> digit_ok (- d).
Proof. intros [-> | [Ho Hd]]; [by left | right]. rewrite Z.odd_opp. split; [done | lia]. Qed.


Lemma add_digit_ok Ai P d t Q : table_ok Ai P -> digit_ok d -> p1p1_rep t Q ->
  yields (add_digit Ai d t) (fun r => p1p1_rep r (Q ⊕ smul d P)).
Proof.
  intros HA Hd Ht. unfold add_digit. destruct (Z.ltb_spec 0 d) as [Hp | Hp].
  - destruct (digit_index d Hd Hp) as [Hk Ek]. destruct (HA _ Hk) as (q & Eq & Hq). rewrite Ek in Hq.
    ge_step. rewrite Eq. cbn [mbind option_bind]. ge_call.
  - destruct (Z.ltb_spec d 0) as [Hn | Hn].
    + destruct (digit_index (- d) (digit_ok_opp d Hd)) as [Hk Ek]; [lia |].
      destruct (HA _ Hk) as (q & Eq & Hq). rewrite Ek in Hq.
      ge_step. rewrite Eq. cbn [mbind option_bind]. ge_step. intros r Hr.
      rewrite <- (Z.opp_involutive d), smul_opp. exact Hr.
    + apply yields_ret. replace d with 0%Z by lia. by rewrite gadd_0_r.
Qed.

Lemma madd_digit_ok Bi P d t Q : ptable_ok Bi P -> digit_ok d -> p1p1_rep t Q ->
  yields (madd_digit Bi d t) (fun r => p1p1_rep r (Q ⊕ smul d P)).
Proof.
  intros HA Hd Ht. unfold madd_digit. destruct (Z.ltb_spec 0 d) as [Hp | Hp].
  - destruct (digit_index d Hd Hp) as [Hk Ek]. destruct (HA _ Hk) as (q & Eq & Hq). rewrite Ek in Hq.
    ge_step. rewrite Eq. cbn [mbind option_bind]. ge_call.
  - destruct (Z.ltb_spec d 0) as [Hn | Hn].
    + destruct (digit_index (- d) (digit_ok_opp d Hd)) as [Hk Ek]; [lia |].
      destruct (HA _ Hk) as (q & Eq & Hq). rewrite Ek in Hq.
      ge_step. rewrite Eq. cbn [mbind option_bind]. ge_step. intros r Hr.
      rewrite <- (Z.opp_involutive d), smul_opp. exact Hr.
    + apply yields_ret. replace d with 0%Z by lia. by rewrite gadd_0_r.
Qed.

(** ** The interleaved loops *)

(** What a step promises: it adds the term of its index. *)
Definition step_ok (step : nat -> ge_p1p1 -> option ge_p1p1) (D : nat -> point) : Prop :=
  forall i t R, p1p1_rep t R -> yields (step i t) (fun t' => p1p1_rep t' (R ⊕ D i)).

Lemma dsm_loop_ok n step D r Q : step_ok step D -> p2_rep r Q ->
  yields (dsm_loop n step r) (fun r' => p2_rep r' (smul (2 ^ Z.of_nat n) Q ⊕ wsum 2 n D)).
Proof.
  intros Hs. revert r Q. induction n as [| n IH]; intros r Q Hr; cbn [dsm_loop].
  - apply yields_ret. cbn [wsum]. rewrite gadd_0_r. exact Hr.
  - ge_step. eapply yields_bind; [by apply Hs |]. cbv beta; intros t' Ht'. ge_step.
    eapply yields_impl; [by apply IH |]. intros r' Hr'.
    rewrite <- wsum_horner. exact Hr'.
Qed.

Lemma dsm_loop_p3_ok n step D r Q r3 : step_ok step D -> p2_rep r Q ->
  yields (dsm_loop_p3 (S n) step r r3)
    (fun r' => p3_rep r' (smul (2 ^ Z.of_nat (S n)) Q ⊕ wsum 2 (S n) D)).
Proof.
  intros Hs. revert r Q. induction n as [| n IH]; intros r Q Hr.
  - simpl dsm_loop_p3. ge_step. eapply yields_bind; [by apply Hs |]. cbv beta; intros t' Ht'. ge_step.
    intros r' Hr'. rewrite <- wsum_horner. cbn [wsum]. rewrite gadd_0_r. exact Hr'.
  - simpl dsm_loop_p3. ge_step. eapply yields_bind; [by apply Hs |]. cbv beta; intros t' Ht'. ge_step.
    eapply yields_impl; [by apply IH |]. intros r' Hr'.
    rewrite <- wsum_horner. exact Hr'.
Qed.

(** Skipping leading zero digits loses nothing. *)
Lemma skip_zeros_ok n slides : (skip_zeros n slides <= n)%nat /\
  forall r i, r ∈ slides -> (skip_zeros n slides <= i < n)%nat -> at_ r i = 0%Z.
Proof.
  induction n as [| n [IH1 IH2]]; simpl; [split; [done | lia] |].
  destruct (forallb _ slides) eqn:E; [| split; [done | lia]].
  split; [lia |]. intros r i Hr Hi. destruct (decide (i = n)) as [-> |]; [| apply IH2; [done | lia]].
  rewrite forallb_forall in E. by apply Z.eqb_eq, E, list_elem_of_In.
Qed.

Lemma digits_skip r m n : (m <= n <= length r)%nat -> (forall i, (m <= i < n)%nat -> at_ r i = 0%Z) ->
  digits_val 2 (take n r) = digits_val 2 (take m r).
Proof.
  intros [H1 H2] Hz. induction n as [| n IH]; [by replace m with 0%nat by lia |].
  destruct (decide (m = S n)) as [-> |]; [done |].
  rewrite (digits_val_take_S 2 r n _ (at_lookup r n ltac:(lia))), Hz by lia.
  rewrite IH by (intros; try apply Hz; lia). lia.
Qed.

(** The sum a loop computes for one scalar, from the digits of its slide. *)
Lemma slide_term a (P : point) slides : is_bytes 32 a -> (le_combine a < 2 ^ 255)%Z -> slide a ∈ slides ->
  wsum 2 (skip_zeros 256 slides) (fun i => smul (at_ (slide a) i) P) ≃ smul (le_combine a) P.
Proof.
  intros Ha Hv Hin. destruct (slide_ok a Ha Hv) as (L & V & _). destruct (skip_zeros_ok 256 slides) as [H1 H2].
  rewrite digits_val_wsum by lia.
  rewrite <- (digits_skip _ _ 256); [| lia | intros i Hi; by apply H2].
  rewrite take_ge by lia. by rewrite V.
Qed.

(** ** Multi-scalar multiplication *)

(** A scalar argument: 32 bytes, below [2^255]. *)
Definition scalar_ok (a : list Z) : Prop := is_bytes 32 a /\ (le_combine a < 2 ^ 255)%Z.

Lemma step_comp s1 D1 s2 D2 : step_ok s1 D1 -> step_ok s2 D2 ->
  step_ok (fun i t => t ← s1 i t; s2 i t) (fun i => D1 i ⊕ D2 i).
Proof.
  intros H1 H2 i t R Ht. eapply yields_bind; [by apply H1 |]. cbv beta; intros t' Ht'.
  eapply yields_impl; [by apply H2 |]. cbv beta; intros r Hr. rewrite gadd_assoc. exact Hr.
Qed.

Lemma add_step Ai P a : table_ok Ai P -> scalar_ok a ->
  step_ok (fun i => add_digit Ai (at_ (slide a) i)) (fun i => smul (at_ (slide a) i) P).
Proof. intros HA [Ha Hv] i t R Ht. apply add_digit_ok; [done | | done]. apply (slide_ok a Ha Hv). Qed.

Lemma madd_step Bi P a : ptable_ok Bi P -> scalar_ok a ->
  step_ok (fun i => madd_digit Bi (at_ (slide a) i)) (fun i => smul (at_ (slide a) i) P).
Proof. intros HA [Ha Hv] i t R Ht. apply madd_digit_ok; [done | | done]. apply (slide_ok a Ha Hv). Qed.

(** The loops from the neutral element, for two and three scalars. *)
Lemma double_sum a b (P Q : point) slides : scalar_ok a -> scalar_ok b -> slide a ∈ slides -> slide b ∈ slides ->
  let n := skip_zeros 256 slides in
  smul (2 ^ Z.of_nat n) gzero ⊕ wsum 2 n (fun i => smul (at_ (slide a) i) P ⊕ smul (at_ (slide b) i) Q)
  ≃ smul (le_combine a) P ⊕ smul (le_combine b) Q.
Proof.
  intros [Ha Va] [Hb Vb] Ia Ib. cbv zeta. by rewrite smul_0, gadd_0_l, wsum_add, !slide_term.
Qed.

Lemma triple_sum a b c (P Q R : point) slides :
  scalar_ok a -> scalar_ok b -> scalar_ok c -> slide a ∈ slides -> slide b ∈ slides -> slide c ∈ slides ->
  let n := skip_zeros 256 slides in
  smul (2 ^ Z.of_nat n) gzero ⊕
    wsum 2 n (fun i => smul (at_ (slide a) i) P ⊕ (smul (at_ (slide b) i) Q ⊕ smul (at_ (slide c) i) R))
  ≃ smul (le_combine a) P ⊕ (smul (le_combine b) Q ⊕ smul (le_combine c) R).
Proof.
  intros [Ha Va] [Hb Vb] [Hc Vc] Ia Ib Ic. cbv zeta. by rewrite smul_0, gadd_0_l, !wsum_add, !slide_term.
Qed.

Section Loops.
Context (a b c : list Z) (Ha : scalar_ok a) (Hb : scalar_ok b) (Hc : scalar_ok c).
Context (P Q R : point).

Lemma ge_double_precomp2_ok Ai Bi : table_ok Ai P -> table_ok Bi Q ->
  yields (ge_double_scalarmult_precomp_vartime2 a Ai b Bi)
    (fun r => p2_rep r (smul (le_combine a) P ⊕ smul (le_combine b) Q)).
Proof.
  intros HA HB. eapply yields_impl.
  - apply (dsm_loop_ok _ _ _ _ _ (step_comp _ _ _ _ (add_step _ _ a HA Ha) (add_step _ _ b HB Hb)) p2_0_rep).
  - cbv beta; intros r Hr. by rewrite double_sum in Hr by (done || (apply list_elem_of_In; simpl; tauto)).
Qed.

Lemma ge_triple_precomp_ok Ai Bi Ci : table_ok Ai P -> table_ok Bi Q -> table_ok Ci R ->
  yields (ge_triple_scalarmult_precomp_vartime a Ai b Bi c Ci)
    (fun r => p2_rep r (smul (le_combine a) P ⊕ (smul (le_combine b) Q ⊕ smul (le_combine c) R))).
Proof.
  intros HA HB HC. eapply yields_impl.
  - apply (dsm_loop_ok _ _ _ _ _ (step_comp _ _ _ _ (add_step _ _ a HA Ha)
      (step_comp _ _ _ _ (add_step _ _ b HB Hb) (add_step _ _ c HC Hc))) p2_0_rep).
  - cbv beta; intros r Hr. by rewrite triple_sum in Hr by (done || (apply list_elem_of_In; simpl; tauto)).
Qed.

Lemma ge_double_precomp_ok A Bi : p3_rep A P -> table_ok Bi Q ->
  yields (ge_double_scalarmult_precomp_vartime a A b Bi)
    (fun r => p2_rep r (smul (le_combine a) P ⊕ smul (le_combine b) Q)).
Proof.
  intros HA HB. eapply yields_bind; [by apply ge_dsm_precomp_ok |]. cbv beta; intros Ai HAi.
  by apply ge_double_precomp2_ok.
Qed.
End Loops.
End GeMultCorrect.
