(* ===== verification/GeTables.v ===== *)
(** The tables of src/crypto/crypto-ops-data.c hold what their comments say:
    [ge_base[i][j]] is [(j+1) 256^i B] and [ge_Bi[k]] is [(2k+1) B], for the
    base point [B = (x, 4/5)].

    The entries are checked one by one by computation.  Affine coordinates of
    the points of a chain of additions are given as hints, so that the check
    needs no inversion. *)
From S2P Require Import Prelude Limbs Pack Group Fe FeCorrect Curve GeData Ge GeCorrect.

Local Open Scope Z_scope.

Module GeTables.
Import Limbs Pack Group Fe FeCorrect Curve GeData Ge GeCorrect.

Local Notation "a == b" := (eqm p25519 a b) (at level 70).

(** ** Fast reduction *)

(** One folding of the bits above [2^255]. *)
Definition redp (x : Z) : Z := Z.land x (Z.ones 255) + 19 * Z.shiftr x 255.

Lemma redp_ok x : redp x == x.
Proof.
  unfold redp. rewrite Z.land_ones, Z.shiftr_div_pow2 by lia.
  exists (- (x / 2 ^ 255)). pose proof (Z.div_mod x (2 ^ 255) ltac:(done)). unfold p25519. lia.
Qed.

Definition is_zero (x : Z) : bool :=
  let z := redp (redp (redp x)) in (z =? 0) || (z =? p25519).

Lemma is_zero_ok x : is_zero x = true -> x == 0.
Proof.
  unfold is_zero. intros [E%Z.eqb_eq | E%Z.eqb_eq]%orb_true_iff;
    rewrite <- (redp_ok x), <- (redp_ok (redp x)), <- (redp_ok (redp (redp x))), E; [done |].
  by apply eqm_of_mod.
Qed.

Lemma is_zero_sub a b : is_zero (a - b) = true -> a == b.
Proof. intros H. by apply eqm_sub_0, is_zero_ok. Qed.

(** ** Checking sums and table entries *)

Definition check_add (P Q R : Z * Z) : bool :=
  let '(x1, y1) := P in let '(x2, y2) := Q in let '(x3, y3) := R in
  let xx := redp (x1 * x2) in
  let yy := redp (y1 * y2) in
  let e := redp (edwards_d * redp (redp (xx * yy))) in
  is_zero ((1 + e) * x3 - (x1 * y2 + x2 * y1)) && is_zero ((1 - e) * y3 - (yy + xx)).

(** The coordinates given are those of a point. *)
Definition holds (P : point) (xy : Z * Z) : Prop := px P == xy.1 /\ py P == xy.2.

Lemma check_add_ok P Q p q r : holds P p -> holds Q q -> check_add p q r = true -> holds (padd P Q) r.
Proof.
  destruct p as [x1 y1], q as [x2 y2], r as [x3 y3]. intros [X1 Y1] [X2 Y2]. cbn [fst snd] in X1, Y1, X2, Y2. unfold check_add.
  intros [Hx%is_zero_sub Hy%is_zero_sub]%andb_true_iff. rewrite !redp_ok in Hx, Hy.
  assert (E : edwards_d * (x1 * x2 * (y1 * y2)) == cross P Q).
  { unfold cross. rewrite X1, X2, Y1, Y2. eqm_ring. }
  rewrite E, <- X1, <- X2, <- Y1, <- Y2 in Hx, Hy.
  destruct (cross_nonzero P Q) as [N1 N2]. split; simpl.
  - apply (cancel_l (1 + cross P Q)); [done |]. by rewrite Hx, <- padd_x.
  - apply (cancel_l (1 - cross P Q)); [done |]. by rewrite Hy, <- padd_y.
Qed.

Definition small_limbs (f : list Z) : bool :=
  (length f =? 10)%nat && forallb (fun xm => Z.abs xm.1 <=? xm.2) (zip f (fe_bound 101)).

Definition check_entry (q : ge_precomp) (xy : Z * Z) : bool :=
  let '(x, y) := xy in
  small_limbs (yplusx q) && small_limbs (yminusx q) && small_limbs (xy2d q) &&
  is_zero (fe_val (yplusx q) - (y + x)) && is_zero (fe_val (yminusx q) - (y - x)) &&
  is_zero (fe_val (xy2d q) - 2 * edwards_d * redp (x * y)).

Lemma check_entry_ok P q xy : holds P xy -> check_entry q xy = true -> precomp_rep q P.
Proof.
  destruct xy as [x y]. intros [X Y] H. simpl in X, Y. unfold check_entry, small_limbs in H.
  rewrite !andb_true_iff in H. destruct H as [[[[[[L1 S1] [L2 S2]] [L3 S3]] V1] V2] V3].
  apply Nat.eqb_eq in L1, L2, L3. apply is_zero_sub in V1, V2, V3. rewrite redp_ok in V3.
  unfold precomp_rep. rewrite X, Y. repeat split; try (by apply bounded_check); try done.
  rewrite V3. eqm_ring.
Qed.
Definition hints_0 : list (Z * Z) :=
  [ (24727413235106541002554574571675588834622768167397638456726423682521233608206,
     15549675580280190176352668710449542251549572066445060580507079593062643049417);
    (46896733464454938657123544595386787789046198280132665686241321779790909858396,
     8324843778533443976490377120369201138301417226297555316741202210403726505172);
    (14582954232372986451776170844943001818709880559417862259286374126315108956272,
     32483318716863467900234833297694612235682047836132991208333042722294373421359);
    (33467004535436536005251147249499675200073690106659565782908757308821616914995,
     43097193783671926753355113395909008640284023746042808659097434958891230611693);
    (34643617590234865996699167120328052565261792237873803846102513686264813449789,
     2399184961499513294557607325187831088545696902880432827228757905043131825908);
    (9199134265559022971505535402808359556995554859516252602543778295037484220679,
     22512087849695599276028560866629687720820254811233262850576678203618951717560);
    (46706390780465557264338673484185971070529246228527338942042475661633188627656,
     15299170165656271974649334809062094114079726227711063015095704409550798436788);
    (16121637619009607773439840283436156467545443443832420589584197780484295031288,
     50925107901044861941301590032293890690813323578124472818968980802518735333355);
    (26148317933504540005443173402042326458672162458767831815669826413036406984486,
     30850316547316149219369061290562558254923949145644564178378051444253659681385);
    (2703967047724422927942795606844806438471095130334849099131707700624039388171,
     27636351750987415494008535949645960827550590090960186204735008729987540453670);
    (25155917782814837260398069725241853231864729763246304429004555936282046356871,
     18508826420441071939750277538143617204571229748311242415842946762595677996796);
    (42740085206947573681423002599456489563927820004573071834350074001818321593686,
     6935684722522267618220753829624209639984359598320562595061366101608187623111) ].
Definition hints_1 : list (Z * Z) :=
  [ (21224688672439988911666787158810613738323773477623112347883957939967013762058,
     38366836778969845606589656703794235990595431744668605526092433715493688021992);
    (50973793734927410147071993054404429506997514707423231857784709000255352116155,
     16413131815607581661646167769888544224046642958087183058350580913769959758850);
    (48427913736837608266186835246980452511660467837864105011084951035203551898472,
     12175353081024358281744367214419414005476983323671937693306148471852937756989);
    (46184426097803860368008501464774728662594474599483318436229483844883085614034,
     2646922433580073539121703714989814566149550331044196012537188063422514399678);
    (43527414011853740718207284924384303730723195143425434015992280287685303141909,
     14409846810646113153797114215459321616862846885033782422816123565643250686140);
    (27791720233873433091652461716557178838005662466315479765353152387942540975513,
     22638648476773057485090840023493979065120026957594809032291226155287617863929);
    (27186305465236551749842573802124445331552679641832078930108365447931276498935,
     2312041997451586708872587523550236508157965803316305389071105927566014363214);
    (56574002287690562566387008107654176112985293065528815433473093068153251878634,
     40555259698712479228142211631679471073561232444601298047972603499607234388181);
    (10780707225527799223727042055056551995903319194379151477081117380874163309022,
     52019749602470059668344983068026172384793681144736228079710257376320252456841);
    (3464320599267112696879288753247079893959896359625474425290602150960671705994,
     51694133746787581571724731688211103718833232899104586370422228323317173487873);
    (41301554414245700419639718923570458390119154231634759147665520927567584100098,
     29364674778601018936997556626806786174514088488710242926018946766714482756934);
    (42474966419402231471674152001358115696747244471432888578155981280875302200677,
     20182938281251249849712136486927848134532420155649429100890386875073412000822) ].
Definition hints_2 : list (Z * Z) :=
  [ (52869748631960986034856376238747990075784338722812323924650009680084842073895,
     3796174517710171698598804855217198428321733657889201949428151222167600506353);
    (52380781664662764370959756758949417615035468195895491498816628478206304305808,
     23409749761754498726665092104140238868249051171056219215692925822640774230730);
    (48142588613070057936665739918694510016346910601601381787709232357287830656052,
     10385474060292222039643213821294435966838835008701008210657350549376377214577);
    (31374899750659937037450856398453504892756756066837901729106739148519770295464,
     1466035504784894870586237109876124842922035912425023310961311159915853031605);
    (39942222410405710613846605548715319798860856380616468084424872017053836395418,
     20953312611669500112098251487133626495970751623193757362820187947140145484673);
    (54058163620432619261007889609050901122465193999705378521149522613477127917518,
     55874352053014901353166275201545700558737580012181932521564922101459562814541);
    (16394032366096881154453202042718985456910765089875944486157716261812202804788,
     25091281840661552205135748393579341584120703124592003105179293019326456324854);
    (3030652980257820293954590240644581873411659236202283991563565950415750739437,
     3449896845806921515373747351251070124616437120332303971385432452490848855288);
    (32641263228758150355667687431806095122956256108730064648049172982697192869757,
     52273704419139405159775014317290835933664475552332708366394330415164319248459);
    (26993053454492735757774095526931594398941435313067218024451801426996192317244,
     20756573878643363325793821026438350840612369149764266371668034898098235986297);
    (31520167665919384194696730538735098277674977480128774019718915946563876798036,
     48871947419602552330465379555019735272161840172752412330071639916632071437120);
    (4953187230743962930662113245944254306680232166954327932822645132912059759223,
     14955570584878506545981286824704959560776362796341363640094685063311756888261) ].
Definition hints_3 : list (Z * Z) :=
  [ (19657949635683093185289569710211585343964433529222332533539288290160154185011,
     56892661656082980073316383795158683496393820909924608301927348333889896713218);
    (31304613760938504760582672467914663278822692157180368478417398855134746884568,
     47883697631619232113968705988495834546462535128285694215750466493264011081313);
    (46976510156322507137269201780554059652401452413839958562844701649608332008299,
     25448670393978825583576233442397517457541692536451699283561630611656102572950);
    (47918151996430953205299676746389129711498278894412353323055730831339548381201,
     5955224504549288857581420600034742627137016040572359429290189842300485921238);
    (23904464896333608991295732748996988828164620261932216985968862997657500711147,
     46107523827474150565775982788770309404087932091461514986676419581157816039857);
    (17688596151635222349324213639813592960789359150627334255763281722003281628748,
     49767265718117026158193301732615241365293700217962571068230880168170334574553);
    (18958742773298937073755619970621164217249748928981220693078384958060703810681,
     49060669014889618634034845030820105181036997350936347239322049348217814945797);
    (13692443628628542482398138298848103782249043847728748207160598387591474036267,
     6535661448952062909216951562535374120699607245381865810845630213621355776630);
    (44073126145632928819502260833325828264688543470827754699842109261297194996573,
     25708642289863751966302024225237904726630733908921048717331198880892436709901);
    (32998196372564612992359818786763423324015994136376432300157753889179321890705,
     22310901527710631603180993315816672899331474004376446475717230095796374000992);
    (54882909907635354958311263340029521311980981711637644057731212095996500430552,
     42932185445836734984879765196158360688663229692937278561535355964359997581186);
    (34881215023217925273427507880129132732978197777830040111026122875038460546235,
     49417579777138232809020590461442191010157021293872759678974198530760482863386) ].
Definition hints_4 : list (Z * Z) :=
  [ (34085450069500794510152409520807677869950508039913904939590977699961040436501,
     52278291416665193925925829527972181593462278765769350530558236265859287513035);
    (18488499022746055163872245557291569739875705170513690095816469389715453036793,
     23809914591520344032642961017103405458690975015723957426748186626882854873281);
    (23406589806172960174851795884335653806454241620752476244917220156478142938335,
     37854925133430588252830311134599570623631025784885083249593544768206604501465);
    (46746611402572912007602391311307157768156089528706237955186680096634201754777,
     57183095455544506669910536860380505601454569015188813853076475494278909964085);
    (39235979450616431568584470375617041099138895518046533127971242992408759632487,
     48261191633292948936869172744987459320920074650430094271633034405690439301938);
    (34260902860247632416664697601557078362215868007837830785086314189737776939708,
     50080153573165491190568719303241486458388572988015542395393854372187567522055);
    (30886537925985998524254955874096819652783119677955825045199375216769416949702,
     54037904725904619508111005987774813902206702994070596763696498304265167397445);
    (19639451821147740670698624700272734820894813909735291580470206199768700605392,
     57494903421850047051437277431621495081848935660098712752929417894600320224466);
    (12469452200683121609960440379957844757586634886744101850068664139886892025012,
     10489147278187110362134995111963226564141046001348941075622680658741593532648);
    (549689331659327561605194692422602825769416452111816234011461274565005995655,
     51469744701391552480837245041655791053255331145812797331218148961728035441779);
    (45113617814944202352153583642261178502360614596484279216729123193977391993714,
     1980278042691965713981149139930452264163076071667628639090250557504770174587);
    (6975916580616431138430993573433071747917420592434172169347774209021880766693,
     27729946105412964655112236315850267932468036882545041507320998583854342562650) ].
Definition hints_5 : list (Z * Z) :=
  [ (26721402367527682574942110461580517411213448744716771766358148163877301105728,
     9288387344892172799170744310978976179910527092723579902952158489343272868948);
    (54963056372161567893377544435736002562363728332386822033880374829153683072043,
     27166693465051931478180628457191481819179375994284390853808326061634135222357);
    (10988524301762373242246727351929902921498129982664316002800509126742121162784,
     28440719635374571293396157229875541269413226941353902928329788578666889313331);
    (42107033242403816929914858786264525642792695777389598268193718900875626922259,
     37928303814505886406947356577381229247850253777866238309537883231964352586301);
    (20592390056300107960862250191507484939525127135573939248487287843879429306062,
     5041203799155760369501752367479807223657485176117900324814217473160265307378);
    (37259659877656971759273699805462046629839486429658383653663015355645536201169,
     27833687810669843820165956907821830134714057233603747676885043209498540668605);
    (40716425138725944745186331899970009610267626729218118393270956274853491203124,
     46769152930682528968583401401235025295039214644177585564512426226384755878073);
    (37510741031459341378829814964903502667912927266993467424549080808057139144766,
     57303500313920857781889356400330248464357243021787478340933447880777082073539);
    (36241354563762173459705108462830400635564419268406145900966660417613821977637,
     21485101354679558701669270959816344644464678765615788190638683578533731429966);
    (20584796599643323532861987265526248228488799407283500188808238372131189701480,
     26478740800733269288198131365468684670960535144929794027484143547518195267108);
    (39134758420864184254969116302644788663556954029588642642423917089530226989597,
     5124259569483350729196958378822907526496602783247669422492733697864938451662);
    (37386868568128681599499830859763869162133292900805977973436494315455022169426,
     36563616321823734465666870349235432940379598201907262626645125270466793116054) ].
Definition hints_6 : list (Z * Z) :=
  [ (28582163575878071020286779611073458927627633926762077980797377317166201949523,
     29517287490576008752010229265386725675942288741512148107897703457428460766064);
    (36071698920086746112166822845254747156717446428879055439355086173224584150218,
     47492361386564160898139850383313216797154638341741029980735629781389703257235);
    (6664938945656958224937745274414537263586471401885907820916253978327430063844,
     2126634075982654318590492885153132310981526013601685661016577258450272533730);
    (9386069204832276100165517633266276430172753285224673965338492703661950609068,
     57343798412003913792252502758642451420734231748095989676290104032076116186048);
    (45727292177295306413966080005773449597648964923842018071723442171471990488459,
     3266123485712394335270968155860154518072166567062921842076065006531464153670);
    (54583541070021138202884579640233149354539529514564220786273283478616282463571,
     43469789974487156316309407643596188851097040399013701578627023379031945452077);
    (26893906638378427820269402226975745300041457754729633179574373243303786072539,
     23888113636819035429926907107258444263090323522691660954731306854220582218409);
    (189355175404241672738129259114556965478340615081311091777345303360588540836,
     51767299105794865359908754261640899704919154549996018629901376258684159289317);
    (14160459449409432346176007562822108240728702992215244509282193488000767962072,
     40953833938605278231697173707354259912669188943485919940833211413684494670284);
    (4068261697406638961935849621742963533803537470089883744480903389537982658853,
     17740693327176817854801454122587194558819032432129012706849247534385017891832);
    (11823766772564295466429875255239566661981081448176083546584427805840615152756,
     54040755356101629851791062456974045253014690287858169301317937866514626344693);
    (51502639449004291622700088031154688719483163480862436225495097465744471100900,
     25964330211653062987717188781243886463821901684982951650673786718455132103697) ].
Definition hints_7 : list (Z * Z) :=
  [ (21734724549841690193090842476809076716419456331211857741265759957945129922704,
     29304975373538996048835671269729647815982116853415896625128567603603329907841);
    (5843582063935592337632194040932789533937605372922915451040035846805699711538,
     11972345020499489872406592055102180129353682342366829225291971826785066244741);
    (30001687184291412988809724842551122044758922095287536204847335704949115767033,
     50835770704986724242436677611718431048705647431520755367710246538243619075335);
    (43866618986390434686016995101934850089516357370165420144464451421111130222578,
     36635387664828665286675424539055281868611750712637062002479245016847391939887);
    (57259028782949987200788258198366520887519292550906864302209040218244084726337,
     6568618045493889384521725646700637332106487979654862646506422022261952963095);
    (919437982141481641041847648116570885474652493761564118577518432517059136696,
     9170717050754847961382685742720225207844203235850815184444956538795231111669);
    (48882273411393669122044540803817352985557027118982854238955416614908556491266,
     11407218847596422755991434262659321162615585973279975075808294900032260014207);
    (39468567782001629845469931291703114351231301360810771182933666088696363117813,
     48520602033621835552297087477366344329736087438136796734023135166735240273716);
    (14634154268926673608900308779686697918188551795673908169701089186353020356853,
     22635139240448021868201029866848773426210620100937671088354264929878430660010);
    (40334547811194980222132355507048888492367411465942395326465999366654848330295,
     30141215867806221944935945054462736214036523470954538064480540475644488758752);
    (1858744241653336215343795677286102722518125133862047495966642301222759149346,
     51688159461706094879304629140765766764511202268320054417312410136779795003785);
    (44388040078108422381599858079345000847427885062711346041771517276226329616898,
     1423604317745427322790381226394774763053130405907994130724317794966956167955) ].
Definition hints_8 : list (Z * Z) :=
  [ (1010247752756362260881243234901448331704228065985397871388404881884689704343,
     34905110436806704375115117043721051740842418404017689336019589974414716422638);
    (8668195667617162713602608175515147103660941879429511114053709036044027311207,
     37681485510013466138918998841666858165213744209089186872109760116369856650799);
    (49444157831517844751255683186086055092391671187830014667142777982061391761769,
     38325651754372413483217343763106935496036760575967773049932675282070249514007);
    (24424117292259436307685934938063848544019468200375892548716527440009604940493,
     36583979248234726752743779762394860626104356418177578515410668973021968894858);
    (49025407799462363586681626888639698365893077756861158880615624267162821984787,
     12818500738744348816718749150692681836882431285482295854460275860287501158274);
    (47365806204061385358548986132911778319470339734863904634944103996966447908817,
     13815220452364022765430582649306621386616680709785487953250526715757190547494);
    (48577842308630573365019333121847151099247213871386595032531930153824808034985,
     11698818496297094926714371527533498792080572905846263409223249541482347665093);
    (51416308261230323791972553180748498853602467457543596950952167188234310296102,
     26500516396956780220658887122604521806411632574870530108424521362596479422245);
    (15426476579153824640063748107939638128818377676814173710932605230473017653035,
     54874201845107823946446372651255629171375058352614330916365376676602781150596);
    (12712558393922043510311116546282894497829799292545297912541506421626765270056,
     39685799954857566999031473139583267673043941812564928655249869908845569230293);
    (35966709613487039836771455641568151899303686490727459701589928757130906345287,
     4590715909301946484670322652103488894781039724476604802293138388114824244525);
    (14209203893922473311723595664823042609383238336090280855951284872268697714335,
     54096248485646036580969450637608332943982160324686939405543494070853926149657) ].
Definition hints_9 : list (Z * Z) :=
  [ (50225331128728478106780859889537807505048902429356838599409066831481056211564,
     48567226733225781276449566422287543329128010889111409895804967816670485558982);
    (26030160992208868185340226704082261302292967804008066484719132829234957719028,
     57793405576878186415495485207823547976675071452793778494338480564258198542794);
    (14277504181738407774235093378032955288190316525985673811547794837958257411428,
     44871378086723879356737413210653521226866440740474535279860816276104559603579);
    (27652409565030648065768547406545117516544566866761272819218126627187357400840,
     51678122657466451333620545630326085433338414845793810299706114545084352106162);
    (49945300859731238352375040412286346199708651712656809104373477970543641626120,
     39013242103148759311269299813493822536582186757521061743729628217118423084807);
    (4761935105956298490968961254561111282712008121274176741512969844118675478342,
     57421793354958567450448159224024314626289017282178307086364822156642197213384);
    (32418571708367977452352489589045334204504079160877254915429124079150328663559,
     18387148233383658620287056230463085911877635595024572348568551271925735393572);
    (15779270961168218795229828090701533240215204226023372799860239005869904877004,
     44830166261951740603279398495576682241725607809926503424472229723689170610363);
    (11934888751358376585367388605542262864084187912753477682625882954803615290685,
     14214449243666306908341928066213895894989764915988732118960193112150360243653);
    (24745401508182352002952447462187517145313719592095512250459315231990663674346,
     12605203304109359736839575646170095420028150170075032505021828813425976392506);
    (7139742008745815782467698207918707217570867389629573492211592981809669859250,
     10391024330052931068916219853641704524060189883573610974407450960946334497572);
    (43672721813094808158322153823698981319419680095264823938511427045013292716276,
     26774469600843634339468622105851699981555180542412972644232493480876266571002) ].
Definition hints_10 : list (Z * Z) :=
  [ (3989370560455708984633793475698444523747174347184717690382157232120584787329,
     32505703979076959151485506556792486289027941138272760644562679672175933443866);
    (34075187035283134114836009330449308303610313265125377516809623267476194043966,
     21567450682332207607186056702833894684140379027303949368985042891530277624141);
    (5059886806144239654386250234132239322534981646959530787642810205204823263599,
     44781990901350621119000479168942884261150661419375333506507720470732519651804);
    (49345374921905927761664789785766219513360581344901877176015389372358677415790,
     24437438019619276828966675151826923400165154932389666147813117480889988474693);
    (35146574295675499465483816771658053945736855145317641068156504280625396750879,
     36751699384410893173943820952358790705087283855480951256817808017229242083347);
    (49801426059315568425576011618943032879828983416441546780393496425243330630662,
     22586508639915485928751563958265688671554685878213793609795289205355659035624);
    (5034499113101539419171195675489016129397586213000300161297322761474792468007,
     38984291250628169793609367006953049629309747617110716218706415095166866209475);
    (28701589195663402661877848408121388944364705228705833837290335451947214372354,
     7204387230095814289155112784314167486479491389461677700039482462117900149790);
    (4043104448796842162745666493312998641829351915822871392692138036596732345587,
     25583947464430871653586840964872231498494354583644780039898113211018348195426);
    (16967413801548701797242886843680090165318588349974756792262810250234279035069,
     44697289841450513164033704384247986028022748316827147885385602092788632953231);
    (2579649274306548849837733000395332723289589758529702916422942026934274000925,
     15903853772550703579537912563242422228297542773675645660330868481778530607407);
    (47877216812782924174466763867175181383956969618415943364604849026510454529253,
     28112003636980376946454994616205437214785284325558286572284790568403397987982) ].
Definition hints_11 : list (Z * Z) :=
  [ (44624650523877827989751820302168351134993681066479444271153806569668535957209,
     27714478525736819310693039843449131161995095049081766735341612278922679271227);
    (43394106677292198658640763566648866668194264840025293127326676403460605096775,
     46941248820420750469614221571869555546358520316711509967413888274235364828153);
    (35329897255136253373431638007078284535646557446689786639069168126562061520510,
     48102472413184753722918898271017592259334671993463580839736558443832467501512);
    (21151376809488097879774921986589111501461796438722076977004503690589855889075,
     21165221968339758323072110317819190432914474753213444234005370525898000480832);
    (8181962060732452580383784291236328618656955708837443016356976112720051787507,
     24992401954777505154913816552357157186653105246435342350109972049636955771348);
    (27475117007495083772892576123881014218318747799049685248436746752982076207138,
     19298189428216548021834147742252253067920836501695919566058512132099579322420);
    (57854637032597121065424460477283781507211162156907553379809587845807142677871,
     8595708305423838218427337239184970131694134488607489845436010670114592093907);
    (13661732206155304631473207485375887840040863051006406460921523783662717752866,
     18702667302471406267943646186561629076477578914690077859029294500205891615865);
    (34678801872141263131717568048919688293891458498596049038512335591958388269398,
     14051700864432503195603174423174243178139259455397278969489826247036072519711);
    (56271287709999114249430521279143619599708294450613804315340758418615759138947,
     26709183970593361440546052460951843372876673094798344582055628577437062451);
    (4941794609987678981879188000114348043986995390085707309908914207158224370220,
     11393072468401385903230649060352828887982933982104030268046685519118680025095);
    (37070215148198071430799085968753265750032279687669442199535644547659159008720,
     24277510719184982406390712670096807578634110983235809048632298767886642985665) ].
Definition hints_12 : list (Z * Z) :=
  [ (39149621700212626749621435400351405351231184907008598760301451381081013983041,
     34503224398479003962600496102980592214075457369331528461237883842917276072424);
    (35816276408674208138357107412040618786223352444998783214907265818651302778757,
     8624639834949446674839517769377972254305260457187895767811683357457571768628);
    (23185922985978961765525879604265755828711139395011139482900477285540574790618,
     36367764535089816925445391884049081669258296710246889978535540710889807755205);
    (18167163486642972927408931089990469852835533790385927556330226959460416146635,
     40953015472773089915540302582596485562298169788316949519905298671571281921670);
    (55491869311172224115196347105470389093095921906312072667150161200839285791699,
     17819939247552900161739522344021332822595259425340299652709900145194143419758);
    (1452855989925341535426825031444710964900017279977137605352878065742774479284,
     45774098314052482743588310333755976420956376268744534942713230606805180468184);
    (23334028275166191184164139591657077754376896079733520656064186218287653342618,
     41978652946500496924928875394389872458253357230394695728294241695963720135571);
    (28796363583862847668812044605178507244825877227342242014774155208318462834757,
     55234959353662462202983325031925176159492936554011128458548182362800408727260);
    (22152377815713073885123024134220181662013025517934765653685593051807730951109,
     20210740406512502967027943336656788111164148198915921899551468572151061000341);
    (43620949520144324161844112921540314179791160756548604822571317354672290688656,
     55960850383955117084497078728968100220583635988916106362750056582565381170825);
    (13910242112313529748247338058346265735204793031963188360415155111564876935229,
     28026033346964984143781324810989054090462624756509060308165423548333335784666);
    (11371879162373812903597632893053130771100210169456679508604354695621139343631,
     5678923034335803499854193512949185707312411812586470592763075824256665264606) ].
Definition hints_13 : list (Z * Z) :=
  [ (18362839244894279592215249911553963787851060777743113998886545263569847927955,
     4210807820446419651105742493190316853815492326276504789502512130186582234685);
    (40648602147481366404230964208084607936291524021905498943010659929710864738154,
     29161262313833698781875629035490362447412735883096315966554673246769944192213);
    (23921107455925441612550629086478938150848187330668405596858230151041390475098,
     12599238266398634998434556842240768274292438963378237556139324609460374067494);
    (38861732135373215919235043953716315256663931604522272456239697908052033035013,
     45371411466261587678854225972591575580762496581823951857057733237243655384450);
    (39419922494774704705190034809932711274512553486715856263729810133043890809526,
     54933698333180584196379405897957482182243833429209440878928059808247314311375);
    (21561645820845874778416685935901963963878576887828212860069360398226320857443,
     17963549877915917711103784496563065564462906379179450896555302543558827309441);
    (34696320127735655402512265767697602636168153659137920083789137692959599647944,
     42120638134327975966011272240411516459099234670144041314385743337890494036069);
    (33227521516354605999830589514515865710822327852925376114255137871690735587244,
     22681039011760707337500602565057111277108423406256855863837270100715275112616);
    (45816511225176877996140255040609219587091107439457578341038316968132283752617,
     36549853415134963004198791385929027950142848447981419764990803009399724054934);
    (4109725613230504426324669336546893204699348150375590650961079986402263006479,
     13548220015390787328262599706228652778399536104956932282542935971617933593799);
    (31674252996734707212481088088643240141425643801543286253248344469973004656554,
     6786196619175573608309283443380719738877074976577908471831120085453336700494);
    (30407400204072033917609480172618297228059702465168718418817308450301417256315,
     49315877793598952090227901245738270288685983126601288875006392048674637302542) ].
Definition hints_14 : list (Z * Z) :=
  [ (44417092014879103586055534704850737242542372632022894149816268053224964424171,
     28092835439062208164608941398448814112137896638247692330991965419364853280613);
    (23139490686232335519119394259782877347546240069053257024253368814698863069033,
     51089947797712314887792047436925648818761031234432217926951058567353150676190);
    (55913645708648454082380885333952414587415523972517829512720425474171989429039,
     4170341877731070479064719941590894238873155105706772330803492495594024043916);
    (12863657592835512097589454641611578433821798207501845828448188839964413453659,
     20872860230748892301469647034667974184263944980291474764336387981047917462768);
    (13631176154466254296410030774656329407863122029983719092958768165132584121068,
     8197880427633189119291962646948905586579271345240818508197811312188473776259);
    (44425445320030589302245504069429846683804417928809104435227952492529793431834,
     30552738281900096527731459075323140707277691299552065462069213503981815706363);
    (57358306754892087581061482960601343272150180511706384027111409727530014615872,
     7501227636099754662821696917164574092234190941956901631865902241653090361542);
    (48782782515836871628938299209492917508321674529612667649282153140637733656059,
     20014236295691833912353873433172840618145541540180033958100959161035845143094);
    (11618050754323719385443732951567856244563825728122233676622712000620990083402,
     42578444816027188744577909552774348432010679314070739170427174452067063733643);
    (31547400550276104307900899036819671847265416450370273588479799778844560833009,
     37367989165521616201930780541222369146292023138676617257266389707008216833638);
    (25956985989161136316235961527236916457717926829394295299028523314216733689351,
     50364565591067077996626372578228644798066456462962263809084137884269951378152);
    (35118750000941396177384144572236461584765045922296921590426241445782749078564,
     22276559719444846469370701617737789620267379936674566170770241509797286014565) ].
Definition hints_15 : list (Z * Z) :=
  [ (15495667847963519095070902975254013254054297059438951355864834066532640060236,
     44548947909159043917403409442457288878516759169055680620236387754235369409972);
    (22952591816260144837422944844625020742547573303797955280470639547237686598546,
     30012037515872591342985336843132823276280335055363382674475119351580142344070);
    (1871107102280547590065037923261765627391729441701934941391723968422325914548,
     2197280331012323570322413448915527766660864684378650497684553118254920260348);
    (46120129725777000860262416690141761445267907089239430850845714903932363317071,
     2910837747736631106217498194311086782962436957583270370920944855478653510522);
    (7850332680771880085254092004185975551221521630139196096777609722516256446106,
     6075351610890980967056720781534807816926537950005787620912557772501047287578);
    (13824609298834947356217226884073400702534029107730269023491857080920049822122,
     30378489235789906581978806498183118776022304319967645704523487571879791134364);
    (45090698995977474290632961691477301097024747374015152515190560720018468165568,
     12254579022675596810231884862276069575540423112673550018377525848277481401878);
    (5054797618327281071443738716493596768237980643463800357794684862056619267462,
     32528688704343641313631911710448027152095479374942741660511292005602282822378);
    (3116396207800974126741352651042756943303008617071878591507809562704911510205,
     51997965663228500457050430249387147003714475761347555819390336249670266088570);
    (14055490458127722535889980752338964994832593866234835702288268286656839412260,
     46226773486422651493508693434203867574287052738705572908570241545752789081928);
    (13255665929656146281080449887007641909509999304849491744738638209813853897619,
     55705207129829464869897097349416518624188726193119147708421062336186161442401);
    (34445898214599204196824587830670445739267303633182408050117152659121903233060,
     43048524062920118298805915568484795959327268000798232147099016825120495085163) ].
Definition hints_16 : list (Z * Z) :=
  [ (54468161356533199495368251232949756902362822455729558615345521844455465083013,
     45786733715774964106052639328220628713810319567465451448853998335128869152566);
    (4412746692151443821523268063185684387212441150931176163599595845239453239239,
     43972740745976811175176257864391345069695511571436714679879334460061323560495);
    (15376680214472594388297076775801069075796453668683777673974256464718742858259,
     36205286238381305703459570197756276983310200040700818089343846617668540962560);
    (33552643783428748950402828607752795289608997377287090122096841711038568943383,
     48961350984589746204023233509239121202812045655202442846113442238752062992324);
    (42399442938455531623261734790075802706903319205440937767137281092036923765860,
     39333490461136029727899638725695807748678920801781508139753544244281903045495);
    (34020654150955289924352052102572547756238841423233570276978675036237125736069,
     38084804761088375484846448810418007531017181516754376621904739824085009807392);
    (54274963091825622044577791478482498515145581213046587691569496957317047301087,
     27285522798141530128504086038099622016723351071236115824010547114802360418886);
    (37942412147879734959686621287259586646044807806439978247498433186416958076212,
     40770361754437038489696745253329122740022398239053503446707608099886984844633);
    (17231006463279304495808406004880729304960913826842545830265243222417068568757,
     19280465835015707631588249295317898303942493984599822014052743382308408738123);
    (39092909358370372654020524663752406591495431486669946290258989674569902550026,
     37050683729065266636842675039950838965254845010575540488076761681884382474469);
    (15070675337805841565478348519275854649061840390095812435576448332196826360456,
     18999462048279945575457515766054075398079717893385245098240709885855065273590);
    (55883912999791610874099966987147290610183948615152237875979579790630856352726,
     12787813360355090873089222731288484058890848842071756283908784376987452902533) ].
Definition hints_17 : list (Z * Z) :=
  [ (43257177485963219795473619209211102129326623172848454308219645778053046059400,
     28725362628639569638299750482386987410574500918275340685442582601975227050030);
    (25104480012283384794122617066267477351136663399061616348811184563607033648424,
     26532494424347655020757306391851298890881886080628047709429741376429963617790);
    (14261193102427984812343991013294505465111572298989384813880738230123360681467,
     40382347136863815895035877978461159372599765612083907993477560360597463517013);
    (39926347492462236539229475660998485629917803489723337994035379335677049849855,
     17013676445343910141824914826515680784673059355588886017582549155364570513454);
    (23180253138777485114772102616698097681353112686034004355368373435907497680048,
     8637258431326896641072663274969855823140890140948098081048707512796911008602);
    (55664308494835775856185723610105448595645239271756121800441185356283518381113,
     24605501900736357215531973953896516549194826234386747871225908472723599889737);
    (4024908508817066770060371964586666357271338932233580630221226449897808710343,
     12289168685784047824301370807824389053540767440464242302468222694281755949638);
    (54516917620078961420673783705678923776679613142755615251754788107435261001726,
     1473028836296644744766105767035670826571860886865560306098170332602170407925);
    (10643053031046901577316915265991009723287046285403078869509160086835661246719,
     5266756857958965790207505951030385887811027434194432324856656452622884706038);
    (885653457851086759173454333350358470114919007890473533171075804016312509788,
     5173873731015455898843145409981988213048728441860738710127269478567836908624);
    (21621513170862521099530913770180462793295136851291509893158492413150529922623,
     11869068989273831198675046236996322457470416332996814632944901924274302665087);
    (19600378045657556875289925355351315605889147312093060723319760395067636662161,
     55917308400816340940408390548223513438205960913829150880571547126642528177519) ].
Definition hints_18 : list (Z * Z) :=
  [ (28658754282729672882100872941658788065524989174348966960536451895469243658010,
     37762667404419404728133635288193148665768828242655041491126540255911857634224);
    (13645562336188220894142267268813765882905214067731667310383708058132943056560,
     29750974929275675451459270101115647797441628033861298062386645364229017090049);
    (43989363110060799496526592551177644111553271892145685238033036627888703862877,
     45195762653922475880384045212304509155155597033569070505522741599100348519449);
    (15923635207242447283651154733203122851582241821046171908856292618991427861642,
     25288602186993390659352637898119140901542996921902325321249844823428407931528);
    (22408481768422265362339970600335405760652849018111726963546637612611151234124,
     48831474560618903999831625155328489652709331475404229119141303167554858132130);
    (12422256006737380527558731321173705463447924358937633009394026486929508609174,
     36268785219956563235629337438422198510127143007390415188287146863381543926088);
    (8902490268397843803802527325209899535197727256334443541236481446389959573425,
     3852752280237905117009160546534950954901072829321467116969506308368943816516);
    (6986702789447486299255325584840115837692128257688346505060373904960228934887,
     10292962987431499209806177702562716293400171669371976579676428374942177156958);
    (17044116135596505028737179346678509469911041975350358568755082202036985870107,
     42455180672755106883951150046299420740744375609364441069727100382315725009513);
    (35699121746649840704418034923098908337241927255079104052577773022334802256857,
     42797427239513741210424919482406830061459306844682386746523008648281197056610);
    (18325906839195889578789899993068057797851367534956078601965911799634346506748,
     22616100759195716946399271549482498388221224000801885013458519667084159593279);
    (13048931295659041501322229995873503013594860839855087692129062737859493222938,
     55356056475575935623708835593923975823491973524220303008437518991732678646755) ].
Definition hints_19 : list (Z * Z) :=
  [ (17804552021948501003473808784482696744755975256217624996860777200020497779224,
     39742389178857970929201271717901335006610649140129837785033274071125207857467);
    (42406938888586312473675833907047050136884689249372563307486214715428954114501,
     47188165948159537758280531396210243679756058217979616039328425235565490027896);
    (27243750438325626901394393635433659784763126423439206380432702465090275200900,
     8334724468222977727927796857102326960164746806583065065856770832763465282107);
    (33192226700597567129190270688857890962967838402886539717180919662914653529398,
     5072660758771087497504482738866921197967216200981954427535927106382746936911);
    (15381728401920917507382068687991809230545606058129028849690567983221372885245,
     19429967153894018201925109237895058574269096609454797625528866734728059964324);
    (8998064247025388548715156834976237360380561803307427515066653227914324130739,
     55095913371587289695109490714598414350709591539874218004648399969336475386840);
    (27531835895280592308108478914989633679052609083143703025386917874092532392021,
     55158672890636899211646078797224456321544010509658114982139571230287299483895);
    (22459022010406441880071998423128997707946874444377105141084471424789185546822,
     53825991541922386254752026760877422413415158982488042561091950744726508263312);
    (36410947714736514685678444986951589358749307344893388745013989729585202274689,
     43412077953637696023084925327019822207496974679371988611880127736118415232905);
    (16500068492966065029940089035493110962818486883169745913799238267083281214115,
     23428262921037128435634015506312194949743083014841069563773867982356615469356);
    (52017698461574473160794941667109584858545935730947521527680867047974376073376,
     7882353656296193450631397862206626290365575517687412797407255073835670659135);
    (38102973455857383083217578484408556833622354043481013391311736024976869900337,
     1514172559578212496981391342935391411386520649276975744812625577312668741408) ].
Definition hints_20 : list (Z * Z) :=
  [ (1209048020089982719844495683819082001893607537849579268870283236895088467617,
     741055009305076071530405773629080554579552753436343301823658144874985568375);
    (20435066071842063146581378892165353039114165203708236392170133643699333118441,
     25096032457057142297061087371320999442435016091559114550411900694249942109649);
    (18133098019564239788358310742451132832366151394479185274106963769960092714259,
     38140518344246930107172351602243012658971871703492240663739840305739181883166);
    (12973477867676315183581683991993526073084267881552928053738313760486206455539,
     46130362034173035494937117665738112752894228577694162115209680882119673218488);
    (2735364458744813899678337886244712115058663555408219053594731632399008245191,
     7659925863515501254832282438154604046097133744009920864278620849342968397659);
    (42180668358120156446046343742696650872071216840898338570664304803599232207872,
     20612874968357379263464684071580356302840841783277039462674117483350640344081);
    (5775091426336568960469984583760878007322866689994151809052428061204174118889,
     29887201476225371519323678298160551248870109346391839268198088354406816094603);
    (4593974641413661360409473136007336083343073546391870079652410347676384305242,
     11075416245848335612131624437244363233020121445069123431277843426699655125974);
    (25600645950501492469870665030046909514665779049338234751618227042770293855482,
     35018367549547244218384047246739589026720743680585178228367900785248202044204);
    (47381093868014146716290594308379387603422995808043370349152197064808697732503,
     33942614215534729019562244640587123042155197238234388559054699708318491129837);
    (24906052884562782063951679699354048255575956337820807662059523674932368870434,
     56568276242266121408027385930302597564871675885758994270648969197209785960531);
    (57435379460912946376016399473592937666208110907957819293947071147026428093578,
     7182409611272236782881027545209618023531837096266053376665803045542815763674) ].
Definition hints_21 : list (Z * Z) :=
  [ (42210236214376757400012817433438249353764277058741656671329805883396582814232,
     57348137657919450798024470676996840870809450785193425110629834980129468035513);
    (49619696907153841524267758309928571919377314316806237937566172168272548178977,
     3485284761037338677898612804143106287484112216833241606337681061595457802082);
    (50600021921010654639393042398421493487175029585569794013338947997757371996000,
     47754901932658832944755602250322713204028621750591692777499867217041679199371);
    (52392053468481918215988186546895350820660735166831544383784348841508738741461,
     16930072187796827281556450701960887458435200744669793811845050302764268774678);
    (41703669482801241018094405308949407506910002556815944269038866994818236655785,
     18619606186702279657002950819798663206966455524659784662986350503823852359806);
    (7063805793738720620216139553284159940750985676931005421484535425679681428633,
     30244448808638391943961946594484801763161736956115445952965983675607097796400);
    (50821319870416465254009388267125334163559310625584087921444311551619938114722,
     9088620056811087677562838423666372834336956655193749318058251486947572448962);
    (32196522848847565735856334276318051124252886737458105769209166262725053033083,
     7393130115855485575153821803620022305971326776213307269593337761874989725644);
    (24970461910561685087054410555168591907166478298815460063350897541212489434507,
     29592115857405817829899349542395762534440192398798334180602563381251866001145);
    (27245346486052156612556260664476378420790036658297676001899098524885355077359,
     48888870642372071672067603659241911365933576620840101126375508459414510565522);
    (19136258585028565136045765318475835467303635827791206963510287604802635715111,
     33344540989183453160057876432486571991820248849096960063935237253623116441578);
    (2051620019948060320139165007224790046062957563684725660075865905766801927018,
     26634626972702021852271593881089056221016381869788669620902290400855180194096) ].
Definition hints_22 : list (Z * Z) :=
  [ (43769380888977812413478673890986529989191732720426156771316652232317703571636,
     15820824354793376257897629437049119155765096347400266612126312061920858649044);
    (56740787906884532324729202644277150772078760477547278731127799193177820198296,
     45175078560717607846973195839567157523136381418487876530644813390761522101070);
    (32590387035373356349237944783725042971516324481435734036565592641529718964239,
     38526204566884529523403748198692080481503772366256898154955286496417003279230);
    (9290948270196782016552239358188180363623132037413100207517341412817700527528,
     35872372579788343653904692179861836918259031561521881134036057085120243861940);
    (8596047903275685753246580194150885726628605523950828844807866672216201451753,
     18887850357107750516795583682807763951579049355018802523141562814641819842303);
    (24769235594246884116675095451177409445249489830013577302337358622842509625243,
     5590804631373720641191779014802984499595292929546842536890222240310670100045);
    (25129151533353404139717554541472678604163033293344388344698639707261640377912,
     7806071603720859404100562229036778757080037506060353939615952230465254896782);
    (16286486140097290168902811228338717466195910788306539796964448105895915202654,
     45772195081924706455685187292739912601741495890583239795556426093338080240461);
    (51829224299071390883335050099115760084249950153969816694506997046362162191848,
     6651605539112656999127431679750059531742481947979094622174982403235321153992);
    (40991587245288082732481961079973618053627134133348505841086323543061099679442,
     54786666320687642240803361615502782680841653229296149388899422992008505743553);
    (6663732281608296555434424168258273947999213868485016269558252248117664606672,
     6501082717027354683185036463519938070371383290746362451621479643683527360462);
    (6619991358524042425167715374215849263046545656201214435076171013124526605093,
     26917309066133303918329708278348164207184189035529132635850906972016457089819) ].
Definition hints_23 : list (Z * Z) :=
  [ (38950448012588243946414608881956854172002510487947106773277630064696561000253,
     20658041943100844923121417719401408660730666510617263285533032361124278074110);
    (50721058380576106208981643267156252211388192842352961453479960149623609043702,
     13556771741525759122947963534399359201451763071267182316832615510147359680194);
    (9066459199990487057566783512866495384906433960448006028148553394308414641443,
     30896325601573386383760025638744259970194842073224766324073607004825531174417);
    (23854712464910574150049315770105149577566630877026350519326442228166350308197,
     52465934102188362604703087828435337649739245938337825227285648259408611986469);
    (51043438948474549865877490448917873070288494066668412870775693334625845006005,
     39211893249910416225972901205891555908370517133388663166785626120585646715577);
    (55776321050703236087338173385855949456324499034250698007870378306295564587428,
     16411827752557687192422762742173580550124257748881908451470588647754523358156);
    (4805487609028089188035435787062236463493697705595053320910102397573543327239,
     52100268478417557073660763168300267474345490988905135106510962443805890640349);
    (7102673334150108259178726547037373000787009374705025015842615748792126914856,
     7330345983442420568594491295455459520320216451616073053526714012768731256311);
    (55822355548589742572968034672029242082573405721138445160588022548204366508385,
     5752280606398123629287002606708976491085254470747366295725973811408999723219);
    (41079804648115120583834599536083991825194843599993026258504495042904843482206,
     46036014188062896365567660815856558088088452193850523146248322723406346107437);
    (28538487777225734781750022687361610666923096120871073386362359575201285846736,
     42058869948826943166496536455005522405465933040272726585026373998316642906109);
    (12565258097955692523285632157940150666933275725759344066053586092157591802509,
     44257820073692905562487031197842487206011716534849741297988353661581996935219) ].
Definition hints_24 : list (Z * Z) :=
  [ (3047606020786028284132832726733152544116871735530526064566846233255159694164,
     27659277246517583802849237030891922618695698372984029484026220602549726330981);
    (53552365276772365554195944740419579336567243280359406876316960824458060850735,
     35650629018577479097518351282106281449357234554211723107920870271722340764833);
    (4540268506733343188936218306036274493398883371137067909932234450545784837367,
     26524790429314500794899586613374338447541369717354753326410262160257197201702);
    (12865836731680429964870836876539877689269983855221154391518173579833909670750,
     54505106968788366538694296953949362645181563690709832428447247381558104164043);
    (27309233825399062195904921979329113981086661526986937618719936163677276457174,
     23664340815210348297365347644997035152878505257530141761514215389790732085864);
    (3893115083351436905873278555138652971300169012092045419646561460555609943456,
     46558973982744083198660515712826007542465058910371209402946353543638590221192);
    (3446437814019273288244656713869208063996426786897354522951255709425681080283,
     10094282458565215422345041182173095708589654183994461384883702800600720181143);
    (31939359117020197840802147548248613491855705164334866520018875597215644469837,
     5143524954389019660933003987155034079136925677085092596769778612924203694283);
    (40287080223966726636379405601042607244208169249453644315622817057698743805842,
     2817805398738675861775100282932373014831073238757293947729155265595857783030);
    (7553305694582539809762883705165465231023504042559318555394633901329085602098,
     8919006912349259804699804156249013133995630522635765796307871162848027888569);
    (12426881472312458653075942369925395774623352107372521499260018286178672901380,
     49090010569142864728247038097738436662825265898590795834497971162336534071909);
    (42790859572217979019765045101599520864945215556069219979855244263031107341291,
     36352885112432934246239472487536406048567025584781430504388550720719917751211) ].
Definition hints_25 : list (Z * Z) :=
  [ (20969485815323462495657636443776094956110890594908637836836433528529217248246,
     41653759202517735770752925280112261648826021528062044528162964546940673720459);
    (6399565792759237000123633535459959547067053156100958725118445163227673694027,
     20739723084628151488684997175307858419571991337085139498565670527187153275331);
    (34567659236266541664425571443203715175544625629026504005119274300287719777486,
     17565007401280625947634034803255215739402290558920251353754636626495256586789);
    (48149577081810524199352047876138340815927476283216311620256455397191098115573,
     50047356294632028239400779273397109875314202551709469799442323127172933025741);
    (51808273444697822950273932111070989007894234935185660766491578197924777258318,
     34788096125360300977988185011840369022780177980234696526522130816395781948556);
    (41896298508700746337849055730280699770748690623146940262252985195830235034380,
     22300281782611806144358762417114932045846655672745709826474787549535869334051);
    (40530823640519828920562877479558932586217792589610141719579413046844059582098,
     3600138672136364760753859297858104696578083065811637771482436480282220931554);
    (8052411590443323046063857505346512836591875031559018663112205767688612960753,
     30730945373776092329581923858915795181500895931833186559825761766308659256288);
    (2961593518592235479541660903798251731409879313709294688882094570300481008622,
     7326515770117864061036274403879279795380606332813631628549954406506753392075);
    (13873447291406652252520850563050388950183115206281801793080997331555935436935,
     1854536341069985929930670263463272452350782516792606069220708092094686818171);
    (35683870257730746803867720629304493664502060430583742471203159589065530443926,
     50775043548393519406558354306624403249930347495645611593884363718324007436892);
    (23139927176256150527684160377093795868379875726157297905712336211350061316827,
     19787356133392787962174279663620312865334398103860028544644614368198408192057) ].
Definition hints_26 : list (Z * Z) :=
  [ (24549719963007680681928692870584034485287122306592054951194445691864392705843,
     16673777245026167737749145194769093277297849195567740502938961632043379444908);
    (45968170259573972443056393329245574100803882139466088305791856455770116138566,
     24437270795736588119463404104079898413744832968735996990301879504171103178011);
    (27160183473041357485053081342659997600272991901793366107032838553396221948572,
     52878466045321014791225548726791844262209165286675200816611206489504571768111);
    (39624669900284178680504629988549412083219852843936168093588993478012457606263,
     44665405429268282736127369280543410322579913392564751538574027607183085676573);
    (44296425817054195200470761881275608649673426089175381586828046789438305214804,
     14097227924324443588978266249559516576527822995669141253291039701891586165041);
    (27623060321618881159481905517379337114817128186373270157861800370908080476268,
     31876388640096688570178119227525021180390303082820175562572942044843127733891);
    (37856120072487993103046293427528509747584933905590469886836303938310252816138,
     41907619650366185306472763840058597947456791674841048099205789966501368167173);
    (5271310448468760027556241606065118981650618947678734090383451681402688537496,
     38322921322667682108538724210518522316510401542007702908860411594861215552289);
    (49943610039541093206875981236688209328479426280387528019284490530711483831624,
     22141598509810852937354851269361079994039513123706616639082971256963153447234);
    (33196521229313941830249722482067475324360707345569650493452339927499268845388,
     57620529990923425496822897524864886162747522913277226656932336939082540812362);
    (3328635754068009989813757321380006922150153942181725940627502310721359276000,
     30633975421496655725188080288034459541252284555977590204375606926334249901953);
    (7443719846974079666748089904485291504428968724490373092275150647989319087692,
     18820240084665614733582602265075526958985974540311071192454258305129583587362) ].
Definition hints_27 : list (Z * Z) :=
  [ (28219671911848323914904753671285805609149653412232530035840302836498670222899,
     24243187521602053364399249404394453944851707379755522787610621440283236931192);
    (13876616536180315252062934415541468416695999842035678090587833763672189568159,
     49204648731726712861137082635255199757643959791036415487203817378523762991264);
    (22555568212557064866549123416795664464742575236779214520260833312041161149073,
     15429182496115485427702486987740166287248088253738720601278823588595062442038);
    (33905799299846950070222013096571373626917211039665183906850005617828568419702,
     13863758498454719775193589483526047359797630222321450260444849995280139228796);
    (13945280774007342484990530848827714487332555517410796055357734790096565811797,
     52400114697821094889502833785615240477661738660352387539121179338446990252639);
    (26367808423375471355298989699198640321197978197778781662228453712633667194929,
     30551608623224770765827459328595482656870175534843999483687175516101859392349);
    (48465201835125509424074824076110166267881717002834000111922161141573805234110,
     28720162598540223712866654973517910055504279124955858949566202107396512574256);
    (17155138369190359334006416480269544641767801292657570816851467463390508879157,
     10677716440341152328856367122445213787758363208297061562948094669842407700807);
    (51351673373636391428746479467253849059137450672094236128227382652557641038124,
     56040144155464555707113464745187811884759736467448172523777282885726278023285);
    (53760055897067400489665773195509833263050845969793673012618552403684336417767,
     16610320088175688937118739009887493209383246425369877012257924127314641028782);
    (27608649448189701505561374337332403029512581159506899308878650418609239647941,
     31641816612049524070661261539855825285184703523398187758179159823646441236948);
    (53304469795825273299854714085922658079948122322668647297293394441464881470527,
     47685002571541626611705376599527786833846649618814369018069081206399572486957) ].
Definition hints_28 : list (Z * Z) :=
  [ (49335455695109847646258506237776437624191255190322055555664492783643150757396,
     6043709471781543356542662397172180212912657197599678519394549586025696509326);
    (56546437836186952717791372901541241647000180716160705650835168368896232849431,
     49206596967405222725367763000751887956400255631520536387550598809321034807398);
    (10292473728683899298769518133712229514364978943006840381772620088710283646356,
     16232995973344971991076543188339090011424146332261920080126280100176095956790);
    (10466337542607393470198615694953823134210037061702965039179768857731061324021,
     42198757666437456370839114650810564743511244225634498886851751128647742960618);
    (31400180338798950554664784079488503332129750459432537561989523979552996948275,
     39618914229157278897666052301497804384081657378119818313800643876971415873943);
    (15565290615196916499638284899261455146334461273890978200392185358194915221907,
     32843833576030979192871475495412739874843729960808535979499898373782215872846);
    (46542636374233588321296274916805689752925781691802685838494319614443447893538,
     37680198816660712630720534333916497698396966988731367964888839919405670002820);
    (42325076515927651040298914234932319328284059328172947575825849578929982230570,
     7506189132626467707386906487041504130293433834887253170743372147700421840746);
    (27154124536272927234749177907867679325227932018272859810851002835563686910883,
     21998530783282445218036708920959790427168667723986204987927738276000765743914);
    (18022249884322496132170074528403534115797990185385762405600535577406879558578,
     19280785440095214674058131166453244763616334119623032868274931819902898716320);
    (31871847105500275871397921958755873819092277626548542473063580591271100812184,
     56782728861375183290724614156105625406297254819725485821455581178794943457780);
    (52950684007977523901779353208387991814777872260199194074012000906152749035015,
     43559760554699348651880759040523650653531354814484772470659734117943798594773) ].
Definition hints_29 : list (Z * Z) :=
  [ (46385652855500771636753260999836277747743406474930236011679867457017085007879,
     55364093025069781998473502036475343928137913399732237121888294231795325016835);
    (9744069879110347498190102434476242384816607592825364300954739398771656315492,
     44550143509806449494340271820076568443922443972739499968683831296412892927814);
    (36428449043541116458066247112177091498600998149203217850480907211937250140943,
     36543210237652193395623530047650568117985219229087354680478677640723853203595);
    (56707649843498128599552748243243782818141792924697422402448944338399101539830,
     27269125809391980934759494163099375710748820940969851754374455991618236261696);
    (42457772014670806036768479425138714616698491959249925312862244962750139230369,
     53184134648037187457471299927016605032981421274314118577561600721597256673224);
    (27751158401656517462323329129539877383289712763405283113685107729413884773812,
     50839946408498450211151488410397847752849744084501760082438748263843156558368);
    (3338788681088490089496706800856581168564865192186593791861246044426154499010,
     26426849265173531444151938502017026159660565627967432257550190620362096502448);
    (17002187804875921720304192466701158229705267117861257819695638400388686076966,
     47324389027998325546431648061001491781246524303560821215242721294216395326206);
    (16548854152124491271698308270104353564016661601189986921257073523187955141925,
     1158824557306950469098004232124593577743050445804659965063922149468212665445);
    (2412212813161792837133309851809793086149586158888041717660011275378501704125,
     39898564843279879327893182619708313073007005584244547895676433526578881074013);
    (6297418815011565153558491920390814990122628554969454185062332121561120551959,
     33009215285320020910422854434933968797698327064144614056402032867881452207213);
    (18426840258637972718670195488655680988537170743174575101534676457073619584903,
     38527585858109498490175714924437073855189699226237652996406428558470468189180) ].
Definition hints_30 : list (Z * Z) :=
  [ (6687503405520459644456484323979662585006247359499822807198278786053106819366,
     28001418022695693931926419495778063831494905019695761058838216407163187565011);
    (11328500669821647295802526198507115790133333986771312659769831684997148204029,
     40877989946789152260495651852036403295445939269827175327417418414058149274048);
    (25894384773347189353760429139709265821823299352385748702971207827242963601893,
     35338761534202014958694551669959368924781518118460059914713476833904461177038);
    (22084726119119111168333998559108245406089710656945934253118241303523130906887,
     36591876414229103330895627243931869540059183079142514172982493756902599907769);
    (11177200119308816248323748566679325485099878518079746649622512054782731387788,
     34117262184317765979709356612561079005470563689016324233376419599473710573759);
    (49988485739376471760092520637750369749962838895106092796955980119556878631108,
     24507289128744354404645095660690695805141892917013727275732585682955931230536);
    (13965057334485654557519631244966956429368157253782516918853568135695248094185,
     20924624872955149049223491465944811425899329735169397671855552630631338061304);
    (40318084854896432497838617212393601390110345789501606463225148147119291643003,
     27503331955131306839664085179093282365638126517858679041313254401675605642016);
    (34154780189500812416297672002800597523847747906621078471233781199647323187738,
     9144038063479072042481831443200573268429989309329561475007795234649748547628);
    (11839377252169370173458082485821503161688071731673988644807436218313351417281,
     29069456758134827294702768545306374262760185847646054083907829281116245110837);
    (16413100402534548574789275325187919332620685948991744534619801776946161276609,
     26914327229360814349254992450749418391547764873949295145255805215324042208053);
    (39889996776461429953017745748202868941628445010936749699607514235758480168479,
     46963357182225939507199438676569248839185976608832841466490839922106986386462) ].
Definition hints_31 : list (Z * Z) :=
  [ (11566782627862055775429313600993990688467921633183155960530716761312189810219,
     37430295727060303617524367747744652011782083356822721578098901730297238387561);
    (44866601048224592046794066870472516915443827796304152862320989703342331925903,
     3860408401002346751992716079215654164143528242335818078794905799010983545880);
    (3748876099198768087790678572316503350064730796356389551858545938907270449428,
     4503449783293907748412604001874743213137248331311866541393166470749118979561);
    (13532453479860272658220548462024641080152611403697338325761433523410853315007,
     33813627764053267874466388900523168099232179562658686769197843195543683399007);
    (13586286546522582890257626111677695835213228611742416577339749204642899943923,
     6631343233649813988777117093801178215546557728438157109357685872766146200989);
    (12989224986218314291053474156250775697928421871462185457454734172022407018819,
     18186167798008435381469021887535930575400156129302388434781609156387257907062);
    (1750506308444799747800933775664982980357785786584986040908968665256412979431,
     9761163806862067634610823247705647930479910055583866855164649084372695602453);
    (47967324138657855517820679197637950548356338916984505359296923382334386852844,
     43205910223094787497847345404613933344398071253256974202540261423648956236472);
    (23777695994937931970277599983343371174213181638621402760092189926568384103544,
     4312424053162116428327524954705839421069982376392060810108862845702987279404);
    (2429463388156782485959806084459342654505704780652802972241802018079577638429,
     36667850773860208174295251629551133715398979910456561926121193844993604140649);
    (8122638290800733895359546262309612691037449520948742710951030284817056587628,
     29646827574460030593281795080347883881840372422686874306571330951588313582446);
    (37859953388938157265098533552496254180895512989350010335770181009547163129497,
     29068845365647854761863975763592782743639502945772046496390468316998731926245) ].

Definition base_hints : list (list (Z * Z)) :=
  [hints_0; hints_1; hints_2; hints_3; hints_4; hints_5; hints_6; hints_7;
   hints_8; hints_9; hints_10; hints_11; hints_12; hints_13; hints_14; hints_15;
   hints_16; hints_17; hints_18; hints_19; hints_20; hints_21; hints_22; hints_23;
   hints_24; hints_25; hints_26; hints_27; hints_28; hints_29; hints_30; hints_31].

(** [2B] and then [3B, 5B, .., 15B]. *)
Definition odd_hints : list (Z * Z) :=
  [ (24727413235106541002554574571675588834622768167397638456726423682521233608206,
     15549675580280190176352668710449542251549572066445060580507079593062643049417);
    (46896733464454938657123544595386787789046198280132665686241321779790909858396,
     8324843778533443976490377120369201138301417226297555316741202210403726505172);
    (33467004535436536005251147249499675200073690106659565782908757308821616914995,
     43097193783671926753355113395909008640284023746042808659097434958891230611693);
    (9199134265559022971505535402808359556995554859516252602543778295037484220679,
     22512087849695599276028560866629687720820254811233262850576678203618951717560);
    (24193060302538010417230488029838514081720802923509845138863968807030823940444,
     57551756252899625001155759838357770487605224608455116862194664796369308545472);
    (9451145793506787353375160377761530931587019091193333050860601958827395183563,
     20609402718286069808115703540855311742885093522056241285814584245966805874451);
    (7442235066513780790779899786332475485840754593728627195931759107337804079085,
     8529785864514984411577036536286432879603480171865651918962709025066066124672);
    (35771902585589234259498423420223840099331465042459337605611172842168536632769,
     8502034780705657720897159939055122322178084209392286764802307224484658961631) ].

(** ** The chain of multiples *)

Definition base_xy : Z * Z :=
  (15112221349535400772501151409588531511454012693041857206046113283949847762202,
   46316835694926478169428394003475163141307993866256225615783033603165251855960).

Lemma base_on : on_curve base_xy.1 base_xy.2.
Proof. apply eqm_of_mod. vm_compute. reflexivity. Qed.

Definition base_point : point := mkpoint base_xy.1 base_xy.2 base_on.

(** [y = 4/5] and [x] is even. *)
Lemma base_point_y : 5 * py base_point == 4 /\ Z.even (px base_point) = true.
Proof. split; [apply eqm_of_mod; vm_compute; reflexivity | reflexivity]. Qed.

Lemma holds_smul_add (P : point) n m k p q r :
  holds (smul n P) p -> holds (smul m P) q -> check_add p q r = true -> k = n + m ->
  holds (smul k P) r.
Proof.
  intros Hp Hq Hc ->. pose proof (check_add_ok _ _ _ _ _ Hp Hq Hc) as [X Y].
  pose proof (smul_add n m P) as [X' Y']. split; [by rewrite X' | by rewrite Y'].
Qed.

(** From [acc]: adds [cur] while entries of the row remain; returns the hints
    left and the last sum. *)
Fixpoint check_row (row : list ge_precomp) (hints : list (Z * Z)) (cur acc : Z * Z)
  : option (list (Z * Z) * (Z * Z)) :=
  match row with
  | [] => None
  | [q] => if check_entry q acc then Some (hints, acc) else None
  | q :: row =>
      match hints with
      | [] => None
      | next :: hints =>
          if check_entry q acc && check_add acc cur next then check_row row hints cur next else None
      end
  end.

Lemma check_row_ok P m row hints cur n acc rest :
  holds (smul m P) cur -> holds (smul n P) acc -> check_row row hints cur acc = Some rest ->
  (forall k q, row !! k = Some q -> precomp_rep q (smul (n + Z.of_nat k * m) P)) /\
  holds (smul (n + (Z.of_nat (length row) - 1) * m) P) rest.2.
Proof.
  intros Hc. revert hints n acc. induction row as [| q0 row IH]; intros hints n acc Ha H; [done |].
  destruct row as [| q1 row].
  - simpl in H. destruct (check_entry q0 acc) eqn:E; [| done]. injection H as <-. split.
    + intros [| k] q Hk; [| done]. injection Hk as ->. rewrite Z.mul_0_l, Z.add_0_r.
      by apply (check_entry_ok _ _ acc).
    + simpl. by rewrite Z.add_0_r.
  - destruct hints as [| next hints]; [done |]. simpl in H.
    destruct (check_entry q0 acc) eqn:E0; [| done]. destruct (check_add acc cur next) eqn:E; [| done].
    destruct (IH hints (n + m) next) as [I1 I2]; [by apply (holds_smul_add P n m _ acc cur) | done |].
    split.
    + intros [| k] q Hk.
      * injection Hk as ->. rewrite Z.mul_0_l, Z.add_0_r. by apply (check_entry_ok _ _ acc).
      * replace (n + Z.of_nat (S k) * m) with ((n + m) + Z.of_nat k * m) by lia. by apply I1.
    + replace (n + (Z.of_nat (length (q0 :: q1 :: row)) - 1) * m)
        with (n + m + (Z.of_nat (length (q1 :: row)) - 1) * m) by (cbn [length]; lia). done.
Qed.

Fixpoint check_doubles (hints : list (Z * Z)) (acc : Z * Z) : option (Z * Z) :=
  match hints with
  | [] => Some acc
  | next :: hints => if check_add acc acc next then check_doubles hints next else None
  end.

Lemma check_doubles_ok P hints n acc r :
  holds (smul n P) acc -> check_doubles hints acc = Some r ->
  holds (smul (2 ^ Z.of_nat (length hints) * n) P) r.
Proof.
  revert n acc. induction hints as [| next hints IH]; intros n acc Ha H; simpl in H.
  - injection H as <-. by replace (2 ^ Z.of_nat (length (@nil (Z * Z))) * n) with n by (simpl; lia).
  - destruct (check_add acc acc next) eqn:E; [| done]. cbn [length].
    rewrite Nat2Z.inj_succ, Z.pow_succ_r by lia.
    replace (2 * 2 ^ Z.of_nat (length hints) * n) with (2 ^ Z.of_nat (length hints) * (n + n)) by lia.
    apply (IH (n + n) next); [| done]. by apply (holds_smul_add P n n _ acc acc).
Qed.

Fixpoint check_rows (rows : list (list ge_precomp)) (hints : list (list (Z * Z))) (cur : Z * Z) : bool :=
  match rows, hints with
  | [], _ => true
  | row :: rows, h :: hints =>
      match check_row row h cur cur with
      | Some (rest, acc) =>
          (length row =? 8)%nat && (length rest =? 5)%nat &&
          match check_doubles rest acc with
          | Some next => check_rows rows hints next
          | None => false
          end
      | None => false
      end
  | _, _ => false
  end.

Lemma check_rows_ok P rows hints m cur :
  holds (smul m P) cur -> check_rows rows hints cur = true ->
  forall i row k q, rows !! i = Some row -> row !! k = Some q ->
    precomp_rep q (smul ((Z.of_nat k + 1) * (256 ^ Z.of_nat i * m)) P).
Proof.
  revert hints m cur. induction rows as [| row0 rows IH]; intros hints m cur Hc H i row k q Hi Hk; [done |].
  destruct hints as [| h hints]; [done |]. simpl in H.
  destruct (check_row row0 h cur cur) as [[rest acc] |] eqn:E; [| done].
  destruct (check_row_ok P m row0 h cur m cur _ Hc Hc E) as [R1 R2].
  rewrite !andb_true_iff, !Nat.eqb_eq in H. destruct H as [[L1 L2] H].
  destruct (check_doubles rest acc) as [next |] eqn:E2; [| done].
  pose proof (check_doubles_ok P rest _ acc next R2 E2) as Hn. rewrite L1, L2 in Hn.
  destruct i as [| i].
  - injection Hi as ->. replace ((Z.of_nat k + 1) * (256 ^ Z.of_nat 0 * m)) with (m + Z.of_nat k * m) by (simpl; lia).
    by apply R1.
  - replace ((Z.of_nat k + 1) * (256 ^ Z.of_nat (S i) * m)) with ((Z.of_nat k + 1) * (256 ^ Z.of_nat i * (256 * m))).
    + apply (IH hints _ next) with (row := row); try done.
      by replace (256 * m) with (2 ^ Z.of_nat 5 * (m + (Z.of_nat 8 - 1) * m)) by lia.
    + rewrite Nat2Z.inj_succ, Z.pow_succ_r by lia. ring.
Qed.

Lemma base_holds : holds (smul 1 base_point) base_xy.
Proof. split; reflexivity. Qed.

Lemma ge_base_check : check_rows ge_base base_hints base_xy = true.
Proof. vm_compute. reflexivity. Qed.

Lemma ge_base_entry i row k q : ge_base !! i = Some row -> row !! k = Some q ->
  precomp_rep q (smul ((Z.of_nat k + 1) * 256 ^ Z.of_nat i) base_point).
Proof.
  intros Hi Hk. pose proof (check_rows_ok base_point _ _ 1 _ base_holds ge_base_check i row k q Hi Hk) as H.
  by rewrite Z.mul_1_r in H.
Qed.

Lemma ge_base_rows : forallb (fun row => (length row =? 8)%nat) ge_base = true.
Proof. vm_compute. reflexivity. Qed.

(** [ge_Bi]: the first hint is [2B], which is added from one entry to the next. *)
Definition check_odd : bool :=
  match odd_hints with
  | two :: hints =>
      check_add base_xy base_xy two &&
      match check_row ge_Bi hints two base_xy with Some _ => true | None => false end
  | [] => false
  end.

Lemma ge_Bi_check : check_odd = true.
Proof. vm_compute. reflexivity. Qed.

Lemma ge_Bi_entry k q : ge_Bi !! k = Some q -> precomp_rep q (smul (2 * Z.of_nat k + 1) base_point).
Proof.
  pose proof ge_Bi_check as H. unfold check_odd in H. destruct odd_hints as [| two hints]; [done |].
  apply andb_true_iff in H as [H2 H]. destruct (check_row ge_Bi hints two base_xy) as [rest |] eqn:E; [| done].
  pose proof (holds_smul_add base_point 1 1 2 _ _ _ base_holds base_holds H2 eq_refl) as Ht.
  destruct (check_row_ok base_point 2 ge_Bi hints two 1 base_xy rest Ht base_holds E) as [R _].
  intros Hk. replace (2 * Z.of_nat k + 1) with (1 + Z.of_nat k * 2) by lia. by apply R.
Qed.
End GeTables.
