(* ===== verification/GeScalarmult.v ===== *)
(** [ge_scalarmult], [ge_scalarmult_p3], [ge_scalarmult_base] and the loops that
    involve the base point. *)
From S2P Require Import Prelude Limbs Pack Group Fe FeCorrect FePow FeBytes Curve GeData Ge GeCorrect GeMult Recode GeMultCorrect GeTables.

Local Open Scope Z_scope.

Module GeScalarmult.
Import Limbs Pack Group Fe FeCorrect FePow FeBytes Curve GeData Ge GeCorrect GeMult Recode GeMultCorrect GeTables.

Local Open Scope group_scope.

(** ** Constant-time selection *)

Lemma digit_cases b : (-8 <= b <= 8)%Z ->
  negative b = (if b <? 0 then 1 else 0)%Z /\ digit_abs b = Z.abs b.
Proof.
  intros Hb. assert (C : forallb (fun n => let b := (Z.of_nat n - 8)%Z in
    (negative b =? (if b <? 0 then 1 else 0))%Z && (digit_abs b =? Z.abs b)%Z) (seq 0 17) = true) by reflexivity.
  rewrite forallb_forall in C. specialize (C (Z.to_nat (b + 8))).
  cbv zeta in C. rewrite Z2Nat.id in C by lia. replace (b + 8 - 8)%Z with b in C by lia.
  destruct (proj1 (andb_true_iff _ _) (C ltac:(apply in_seq; lia))) as [H1%Z.eqb_eq H2%Z.eqb_eq]. done.
Qed.

Lemma equal_ok a j : (0 <= a <= 8)%Z -> (1 <= j <= 8)%Z -> equal a j = (if a =? j then 1 else 0)%Z.
Proof.
  intros Ha Hj. assert (C : forallb (fun n => forallb (fun m => (equal (Z.of_nat n) (Z.of_nat m) =?
    (if Z.of_nat n =? Z.of_nat m then 1 else 0))%Z) (seq 0 9)) (seq 0 9) = true) by reflexivity.
  rewrite forallb_forall in C. specialize (C (Z.to_nat a) ltac:(apply in_seq; lia)).
  rewrite forallb_forall in C. specialize (C (Z.to_nat j) ltac:(apply in_seq; lia)).
  rewrite !Z2Nat.id in C by lia. by apply Z.eqb_eq.
Qed.

(** A [ge_cached] whose fields are arrays of ten limbs. *)
Definition cached_wf (q : ge_cached) : Prop :=
  length (YplusX q) = 10%nat /\ length (YminusX q) = 10%nat /\ length (c_Z q) = 10%nat /\ length (T2d q) = 10%nat.

Lemma rep_length k f v : rep k f v -> length f = 10%nat.
Proof. intros [B _]. by apply bounded_length in B. Qed.

Lemma cached_rep_wf q P : cached_rep q P -> cached_wf q.
Proof. intros (z & _ & H1 & H2 & H3 & H4). repeat split; by eapply rep_length. Qed.

Lemma ge_cached_cmov_ok t u b : cached_wf t -> cached_wf u -> (b = 0 \/ b = 1)%Z ->
  ge_cached_cmov t u b = Some (if (b =? 1)%Z then u else t).
Proof.
  intros (T1 & T2 & T3 & T4) (U1 & U2 & U3 & U4) Hb. unfold ge_cached_cmov.
  rewrite !fe_cmov_ok by done. destruct t, u. by destruct Hb as [-> | ->].
Qed.

Lemma cached_scan_ok Ai cur a j :
  Forall cached_wf Ai -> cached_wf cur -> (0 <= a <= 8)%Z -> (1 <= j)%Z -> (j + Z.of_nat (length Ai) <= 9)%Z ->
  cached_scan cur Ai a j =
    Some (if (j <=? a)%Z then default cur (Ai !! Z.to_nat (a - j)) else cur).
Proof.
  intros HA. revert cur j. induction HA as [| q Ai Hq HA IH]; intros cur j Hcur Ha Hj Hl; cbn [cached_scan].
  - by destruct (j <=? a)%Z.
  - cbn [length] in Hl. rewrite equal_ok by lia. rewrite ge_cached_cmov_ok; [| done | done | by destruct (a =? j)%Z; auto].
    cbn [mbind option_bind]. destruct (Z.eqb_spec a j) as [-> | Hn].
    + rewrite Z.leb_refl, Z.sub_diag. rewrite IH by (done || lia).
      destruct (Z.leb_spec (j + 1) j); [lia | done].
    + rewrite IH by (done || lia). destruct (Z.leb_spec j a), (Z.leb_spec (j + 1) a); try lia; [| done].
      by replace (Z.to_nat (a - j)) with (S (Z.to_nat (a - (j + 1)))) by lia.
Qed.

(** [Ai[k] = (k + 1) P]. *)
Definition mtable_ok (Ai : list ge_cached) (P : point) : Prop :=
  length Ai = 8%nat /\ forall k q, Ai !! k = Some q -> cached_rep q (smul (Z.of_nat k + 1) P).

(** Swapping the sums and negating the product negates the point. *)
Lemma cached_opp q P m : cached_rep q P -> fe_neg (T2d q) = Some m ->
  cached_rep (mk_cached (fe_copy (YminusX q)) (fe_copy (YplusX q)) (fe_copy (c_Z q)) m) (popp P).
Proof.
  intros (z & N & H1 & H2 & H3 & H4) E.
  destruct (fe_neg_ok 101 _ _ H4 ltac:(lia)) as (m' & E' & Hm). rewrite E in E'. injection E' as <-.
  rewrite (fe_copy_id _ _ _ H1), (fe_copy_id _ _ _ H2), (fe_copy_id _ _ _ H3).
  exists z. simpl. split; [done |]. split; [| split; [| split; [done |]]].
  - apply (rep_eq _ _ _ _ _ H2); [done | eqm_ring].
  - apply (rep_eq _ _ _ _ _ H1); [done | eqm_ring].
  - apply (rep_eq _ _ _ _ _ Hm); [done | eqm_ring].
Qed.

Lemma select_cached_ok Ai P b : mtable_ok Ai P -> (-8 <= b <= 8)%Z ->
  yields (select_cached Ai b) (fun q => cached_rep q (smul b P)).
Proof.
  intros [HL HA] Hb. destruct (digit_cases b Hb) as [Hn Ha]. unfold select_cached. rewrite Ha, Hn.
  assert (HW : Forall cached_wf Ai).
  { apply Forall_lookup. intros k q Hk. by eapply cached_rep_wf, HA. }
  rewrite cached_scan_ok by (done || apply (cached_rep_wf _ _ cached_0_rep) || lia). cbn [mbind option_bind].
  set (cur := if (1 <=? Z.abs b)%Z then _ else _).
  assert (Hcur : cached_rep cur (smul (Z.abs b) P)).
  { unfold cur. destruct (Z.leb_spec 1 (Z.abs b)) as [H1 | H1].
    - destruct (lookup_lt_is_Some_2 Ai (Z.to_nat (Z.abs b - 1))) as [q Hq]; [lia |]. rewrite Hq. simpl.
      replace (Z.abs b) with (Z.of_nat (Z.to_nat (Z.abs b - 1)) + 1)%Z at 1 by lia. by apply HA.
    - replace (Z.abs b) with 0%Z by lia. apply cached_0_rep. }
  clearbody cur. assert (exists z, rep 101 (T2d cur) z) as [z Hz] by (destruct Hcur as (z & _ & _ & _ & _ & ?); eauto).
  destruct (fe_neg_ok 101 _ _ Hz ltac:(lia)) as (m & Em & Hm). rewrite Em. cbn [mbind option_bind].
  pose proof (cached_opp cur _ m Hcur Em) as Hopp.
  rewrite ge_cached_cmov_ok; [| by eapply cached_rep_wf | by eapply cached_rep_wf | by destruct (b <? 0)%Z; auto].
  eexists. split; [reflexivity |]. destruct (Z.ltb_spec b 0) as [Hs | Hs]; simpl.
  - replace b with (- Z.abs b)%Z by lia. rewrite smul_opp. exact Hopp.
  - by replace b with (Z.abs b) by lia.
Qed.

(** ** Multiplication of a point *)

Lemma multiples_ok n A P q m : p3_rep A P -> cached_rep q (smul m P) ->
  yields (multiples n A q)
    (fun l => length l = S n /\ forall k q, l !! k = Some q -> cached_rep q (smul (Z.of_nat k + m) P)).
Proof.
  intros HA. revert q m. induction n as [| n IH]; intros q m Hq; cbn [multiples].
  - apply yields_ret. split; [done |]. intros [| k] q' Hk; [| done]. by injection Hk as <-.
  - do 3 ge_step. eapply yields_bind; [apply (IH _ (m + 1)%Z) |].
    + replace (m + 1)%Z with (1 + m)%Z by lia. rewrite smul_add. exact G1.
    + cbv beta; intros l [L Hl]. apply yields_ret. split; [by cbn [length]; rewrite L |].
      intros [| k] q' Hk; [by injection Hk as <- |].
      replace (Z.of_nat (S k) + m)%Z with (Z.of_nat k + (m + 1))%Z by lia. by apply Hl.
Qed.

Lemma scalarmult_step_ok Ai P b r Q : mtable_ok Ai P -> (-8 <= b <= 8)%Z -> p2_rep r Q ->
  yields (scalarmult_step Ai b r) (fun t => p1p1_rep t (smul 16 Q ⊕ smul b P)).
Proof.
  intros HA Hb Hr. unfold scalarmult_step. do 8 ge_step.
  eapply yields_bind; [by apply select_cached_ok |]. cbv beta; intros cur Hcur. ge_call.
Qed.

Lemma digits_at e i : Forall (fun d => -8 <= d <= 8)%Z e -> (-8 <= at_ e i <= 8)%Z.
Proof.
  intros H. unfold at_. destruct (e !! i) as [d |] eqn:E; simpl; [| lia].
  by apply (proj1 (Forall_lookup _ _) H i d).
Qed.

Section Scalarmult.
Context (Ai : list ge_cached) (P : point) (HA : mtable_ok Ai P).
Context (e : list Z) (He : Forall (fun d => -8 <= d <= 8)%Z e).

Lemma scalarmult_loop_ok n r Q : p2_rep r Q ->
  yields (scalarmult_loop n e Ai r)
    (fun r' => p2_rep r' (smul (16 ^ Z.of_nat n) Q ⊕ wsum 16 n (fun i => smul (at_ e i) P))).
Proof.
  revert r Q. induction n as [| n IH]; intros r Q Hr; cbn [scalarmult_loop].
  - apply yields_ret. cbn [wsum]. rewrite gadd_0_r. exact Hr.
  - eapply yields_bind; [apply (scalarmult_step_ok _ _ _ _ _ HA (digits_at e n He) Hr) |].
    cbv beta; intros t Ht. ge_step. eapply yields_impl; [by apply IH |].
    intros r' Hr'. rewrite <- wsum_horner. exact Hr'.
Qed.

Lemma scalarmult_loop_p3_ok n r Q : p2_rep r Q ->
  yields (scalarmult_loop_p3 (S n) e Ai r)
    (fun r' => p3_rep r' (smul (16 ^ Z.of_nat (S n)) Q ⊕ wsum 16 (S n) (fun i => smul (at_ e i) P))).
Proof.
  revert r Q. induction n as [| n IH]; intros r Q Hr; (eapply yields_bind;
    [apply (scalarmult_step_ok _ _ _ _ _ HA (digits_at e _ He) Hr) |]); cbv beta; intros t Ht.
  - cbn [Nat.eqb]. ge_step. intros r' Hr'. rewrite <- wsum_horner. cbn [wsum]. rewrite gadd_0_r. exact Hr'.
  - cbn [Nat.eqb]. ge_step. eapply yields_impl; [by apply IH |].
    intros r' Hr'. rewrite <- wsum_horner. exact Hr'.
Qed.
End Scalarmult.

Lemma digits_total (P : point) a e : length e = 64%nat -> digits_val 16 e = le_combine a ->
  smul (16 ^ Z.of_nat 64) gzero ⊕ wsum 16 64 (fun i => smul (at_ e i) P) ≃ smul (le_combine a) P.
Proof.
  intros L V. rewrite smul_0, gadd_0_l, digits_val_wsum by lia. rewrite take_ge by lia. by rewrite V.
Qed.

Lemma ge_scalarmult_ok a A P : scalar_ok a -> p3_rep A P ->
  yields (ge_scalarmult a A) (fun r => p2_rep r (smul (le_combine a) P)).
Proof.
  intros [Ha Hv] HA. destruct (scalar_digits a Ha Hv) as (L & V & D). unfold ge_scalarmult. ge_step.
  eapply yields_bind; [apply (multiples_ok 7 A P g 1 HA G) |]. cbv beta; intros Ai [HL HAi].
  eapply yields_impl; [apply (scalarmult_loop_ok Ai P (conj HL HAi) _ D 64 _ _ p2_0_rep) |].
  cbv beta; intros r Hr. rewrite <- (digits_total P a _ L V). exact Hr.
Qed.

Lemma ge_scalarmult_p3_ok a A P : scalar_ok a -> p3_rep A P ->
  yields (ge_scalarmult_p3 a A) (fun r => p3_rep r (smul (le_combine a) P)).
Proof.
  intros [Ha Hv] HA. destruct (scalar_digits a Ha Hv) as (L & V & D). unfold ge_scalarmult_p3. ge_step.
  eapply yields_bind; [apply (multiples_ok 7 A P g 1 HA G) |]. cbv beta; intros Ai [HL HAi].
  eapply yields_impl; [apply (scalarmult_loop_p3_ok Ai P (conj HL HAi) _ D 63 _ _ p2_0_rep) |].
  cbv beta; intros r Hr. rewrite <- (digits_total P a _ L V). exact Hr.
Qed.

(** ** Multiplication of the base point *)

Definition precomp_wf (q : ge_precomp) : Prop :=
  length (yplusx q) = 10%nat /\ length (yminusx q) = 10%nat /\ length (xy2d q) = 10%nat.

Lemma precomp_rep_wf q P : precomp_rep q P -> precomp_wf q.
Proof. intros (H1 & H2 & H3). repeat split; by eapply rep_length. Qed.

Lemma ge_precomp_cmov_ok t u b : precomp_wf t -> precomp_wf u -> (b = 0 \/ b = 1)%Z ->
  ge_precomp_cmov t u b = Some (if (b =? 1)%Z then u else t).
Proof.
  intros (T1 & T2 & T3) (U1 & U2 & U3) Hb. unfold ge_precomp_cmov.
  rewrite !fe_cmov_ok by done. destruct t, u. by destruct Hb as [-> | ->].
Qed.

Lemma precomp_scan_ok row t a j :
  Forall precomp_wf row -> precomp_wf t -> (0 <= a <= 8)%Z -> (1 <= j)%Z -> (j + Z.of_nat (length row) <= 9)%Z ->
  precomp_scan t row a j =
    Some (if (j <=? a)%Z then default t (row !! Z.to_nat (a - j)) else t).
Proof.
  intros HA. revert t j. induction HA as [| q row Hq HA IH]; intros t j Ht Ha Hj Hl; cbn [precomp_scan].
  - by destruct (j <=? a)%Z.
  - cbn [length] in Hl. rewrite equal_ok by lia. rewrite ge_precomp_cmov_ok; [| done | done | by destruct (a =? j)%Z; auto].
    cbn [mbind option_bind]. destruct (Z.eqb_spec a j) as [-> | Hn].
    + rewrite Z.leb_refl, Z.sub_diag. rewrite IH by (done || lia).
      destruct (Z.leb_spec (j + 1) j); [lia | done].
    + rewrite IH by (done || lia). destruct (Z.leb_spec j a), (Z.leb_spec (j + 1) a); try lia; [| done].
      by replace (Z.to_nat (a - j)) with (S (Z.to_nat (a - (j + 1)))) by lia.
Qed.

Lemma precomp_opp q P m : precomp_rep q P -> fe_neg (xy2d q) = Some m ->
  precomp_rep (mk_precomp (fe_copy (yminusx q)) (fe_copy (yplusx q)) m) (popp P).
Proof.
  intros (H1 & H2 & H3) E.
  destruct (fe_neg_ok 101 _ _ H3 ltac:(lia)) as (m' & E' & Hm). rewrite E in E'. injection E' as <-.
  rewrite (fe_copy_id _ _ _ H1), (fe_copy_id _ _ _ H2). split; [| split]; simpl.
  - apply (rep_eq _ _ _ _ _ H2); [done | eqm_ring].
  - apply (rep_eq _ _ _ _ _ H1); [done | eqm_ring].
  - apply (rep_eq _ _ _ _ _ Hm); [done | eqm_ring].
Qed.

Lemma select_ok pos b : (pos < 32)%nat -> (-8 <= b <= 8)%Z ->
  yields (select pos b) (fun q => precomp_rep q (smul (b * 256 ^ Z.of_nat pos) base_point)).
Proof.
  intros Hpos Hb. destruct (digit_cases b Hb) as [Hn Ha]. unfold select. rewrite Ha, Hn.
  destruct (lookup_lt_is_Some_2 ge_base pos Hpos) as [row Hrow]. rewrite Hrow. cbn [mbind option_bind].
  assert (HL : length row = 8%nat).
  { pose proof ge_base_rows as R. rewrite forallb_forall in R. apply Nat.eqb_eq, R, list_elem_of_In.
    by eapply list_elem_of_lookup_2. }
  assert (HR : forall k q, row !! k = Some q -> precomp_rep q (smul ((Z.of_nat k + 1) * 256 ^ Z.of_nat pos) base_point)).
  { intros k q Hk. by eapply ge_base_entry. }
  assert (HW : Forall precomp_wf row).
  { apply Forall_lookup. intros k q Hk. by eapply precomp_rep_wf, HR. }
  rewrite precomp_scan_ok by (done || apply (precomp_rep_wf _ _ precomp_0_rep) || lia). cbn [mbind option_bind].
  set (t := if (1 <=? Z.abs b)%Z then _ else _).
  assert (Ht : precomp_rep t (smul (Z.abs b * 256 ^ Z.of_nat pos) base_point)).
  { unfold t. destruct (Z.leb_spec 1 (Z.abs b)) as [H1 | H1].
    - destruct (lookup_lt_is_Some_2 row (Z.to_nat (Z.abs b - 1))) as [q Hq]; [lia |]. rewrite Hq. simpl.
      replace (Z.abs b) with (Z.of_nat (Z.to_nat (Z.abs b - 1)) + 1)%Z at 1 by lia. by apply HR.
    - replace (Z.abs b) with 0%Z by lia. apply precomp_0_rep. }
  clearbody t. assert (exists z, rep 101 (xy2d t) z) as [z Hz] by (destruct Ht as (_ & _ & ?); eauto).
  destruct (fe_neg_ok 101 _ _ Hz ltac:(lia)) as (m & Em & Hm). rewrite Em. cbn [mbind option_bind].
  pose proof (precomp_opp t _ m Ht Em) as Hopp.
  rewrite ge_precomp_cmov_ok; [| by eapply precomp_rep_wf | by eapply precomp_rep_wf | by destruct (b <? 0)%Z; auto].
  eexists. split; [reflexivity |]. destruct (Z.ltb_spec b 0) as [Hs | Hs]; cbn [Z.eqb Pos.eqb].
  - replace (b * 256 ^ Z.of_nat pos)%Z with (- (Z.abs b * 256 ^ Z.of_nat pos))%Z by lia. rewrite smul_opp. exact Hopp.
  - by replace b with (Z.abs b) by lia.
Qed.

Definition index_sum (e : list Z) (idx : list nat) : Z :=
  foldr (fun i acc => at_ e i * 256 ^ Z.of_nat (i / 2) + acc)%Z 0%Z idx.

Lemma base_loop_ok e idx h Q : Forall (fun d => -8 <= d <= 8)%Z e -> Forall (fun i => (i < 64)%nat) idx ->
  p3_rep h Q ->
  yields (base_loop idx e h) (fun h' => p3_rep h' (Q ⊕ smul (index_sum e idx) base_point)).
Proof.
  intros He Hi. revert h Q. induction Hi as [| i idx Hi _ IH]; intros h Q Hh; cbn [base_loop].
  - apply yields_ret. cbn [index_sum foldr]. change (smul 0 base_point) with (gzero : point).
    by rewrite gadd_0_r.
  - assert (Hp : (i / 2 < 32)%nat) by (apply Nat.Div0.div_lt_upper_bound; lia).
    eapply yields_bind; [apply (select_ok _ _ Hp (digits_at e i He)) |]. cbv beta; intros q Hq. do 2 ge_step.
    eapply yields_impl; [by apply IH |]. cbv beta; intros h' Hh'.
    cbn [index_sum foldr]. rewrite smul_add, gadd_assoc. exact Hh'.
Qed.

Lemma index_sum_total e : length e = 64%nat ->
  (16 * index_sum e (map (fun i => 2 * i + 1)%nat (seq 0 32)) +
   index_sum e (map (fun i => 2 * i)%nat (seq 0 32)) = digits_val 16 e)%Z.
Proof.
  intros Hl. do 64 (destruct e as [| ? e]; [discriminate Hl |]). destruct e; [| discriminate Hl].
  cbn -[Z.pow Z.mul Z.add]. repeat match goal with |- context [(256 ^ ?k)%Z] =>
    let v := eval vm_compute in (256 ^ k)%Z in change (256 ^ k)%Z with v end. ring.
Qed.

Lemma ge_scalarmult_base_ok a : scalar_ok a ->
  yields (ge_scalarmult_base a) (fun h => p3_rep h (smul (le_combine a) base_point)).
Proof.
  intros [Ha Hv]. destruct (base_scalar_digits a Ha Hv) as (L & V & D). unfold ge_scalarmult_base.
  set (e := base_digits 0 (nibbles a)) in *.
  eapply yields_bind; [eapply base_loop_ok; [exact D | | exact p3_0_rep] |].
  { apply Forall_forall. intros i Hi. apply in_map_iff in Hi as (k & <- & Hk%in_seq). lia. }
  cbv beta; intros h Hh. do 8 ge_step.
  eapply yields_impl; [eapply base_loop_ok; [exact D | | eassumption] |].
  { apply Forall_forall. intros i Hi. apply in_map_iff in Hi as (k & <- & Hk%in_seq). lia. }
  cbv beta; intros h' Hh'. rewrite <- V, <- (index_sum_total e L), smul_add, smul_mul.
  rewrite <- (gadd_0_l (smul (index_sum e (map (fun i => 2 * i + 1)%nat (seq 0 32))) base_point)). exact Hh'.
Qed.

(** ** Loops with the base point *)

Lemma ge_Bi_table : ptable_ok ge_Bi base_point.
Proof.
  intros k Hk. destruct (lookup_lt_is_Some_2 ge_Bi k Hk) as [q Hq]. exists q. split; [done |].
  by apply ge_Bi_entry.
Qed.

Section BaseLoops.
Context (a b c : list Z) (Ha : scalar_ok a) (Hb : scalar_ok b) (Hc : scalar_ok c).
Context (P Q : point).

Lemma ge_double_base_ok A : p3_rep A P ->
  yields (ge_double_scalarmult_base_vartime a A b)
    (fun r => p2_rep r (smul (le_combine a) P ⊕ smul (le_combine b) base_point)).
Proof.
  intros HA. eapply yields_bind; [by apply ge_dsm_precomp_ok |]. cbv beta; intros Ai HAi.
  eapply yields_impl.
  - apply (dsm_loop_ok _ _ _ _ _ (step_comp _ _ _ _ (add_step _ _ a HAi Ha) (madd_step _ _ b ge_Bi_table Hb)) p2_0_rep).
  - cbv beta; intros r Hr. by rewrite double_sum in Hr by (done || (apply list_elem_of_In; simpl; tauto)).
Qed.

Lemma ge_triple_base_ok Bi Ci : table_ok Bi P -> table_ok Ci Q ->
  yields (ge_triple_scalarmult_base_vartime a b Bi c Ci)
    (fun r => p2_rep r (smul (le_combine a) base_point ⊕ (smul (le_combine b) P ⊕ smul (le_combine c) Q))).
Proof.
  intros HB HC. eapply yields_impl.
  - apply (dsm_loop_ok _ _ _ _ _ (step_comp _ _ _ _ (madd_step _ _ a ge_Bi_table Ha)
      (step_comp _ _ _ _ (add_step _ _ b HB Hb) (add_step _ _ c HC Hc))) p2_0_rep).
  - cbv beta; intros r Hr. by rewrite triple_sum in Hr by (done || (apply list_elem_of_In; simpl; tauto)).
Qed.

(** The loops that write a [ge_p3] do so when one of the scalars is not zero. *)
Lemma skip_zeros_pos : (le_combine a <> 0 \/ le_combine b <> 0)%Z ->
  exists n, skip_zeros 256 [slide a; slide b] = S n.
Proof.
  intros H. destruct (skip_zeros 256 [slide a; slide b]) as [| n] eqn:E; [exfalso | by exists n].
  destruct (skip_zeros_ok 256 [slide a; slide b]) as [_ Z0]. rewrite E in Z0.
  assert (V0 : forall x, scalar_ok x -> slide x ∈ [slide a; slide b] -> le_combine x = 0%Z).
  { intros x [Hx Vx] Hin. destruct (slide_ok x Hx Vx) as (L & V & _). rewrite <- V.
    rewrite <- (take_ge (slide x) 256) by lia.
    rewrite (digits_skip _ 0 256); [done | lia |]. intros i Hi. by apply Z0. }
  destruct H as [H | H]; apply H, V0; try done; apply list_elem_of_In; simpl; tauto.
Qed.

Lemma ge_double_base_p3_ok A r3 : p3_rep A P -> (le_combine a <> 0 \/ le_combine b <> 0)%Z ->
  yields (ge_double_scalarmult_base_vartime_p3 r3 a A b)
    (fun r => p3_rep r (smul (le_combine a) P ⊕ smul (le_combine b) base_point)).
Proof.
  intros HA Hnz. destruct (skip_zeros_pos Hnz) as [n En].
  eapply yields_bind; [by apply ge_dsm_precomp_ok |]. cbv beta; intros Ai HAi. cbv zeta. rewrite En.
  eapply yields_impl.
  - apply (dsm_loop_p3_ok _ _ _ _ _ _ (step_comp _ _ _ _ (add_step _ _ a HAi Ha) (madd_step _ _ b ge_Bi_table Hb)) p2_0_rep).
  - cbv beta; intros r Hr. rewrite <- En in Hr.
    by rewrite double_sum in Hr by (done || (apply list_elem_of_In; simpl; tauto)).
Qed.

Lemma ge_double_precomp2_p3_ok Ai Bi r3 : table_ok Ai P -> table_ok Bi Q -> (le_combine a <> 0 \/ le_combine b <> 0)%Z ->
  yields (ge_double_scalarmult_precomp_vartime2_p3 r3 a Ai b Bi)
    (fun r => p3_rep r (smul (le_combine a) P ⊕ smul (le_combine b) Q)).
Proof.
  intros HA HB Hnz. destruct (skip_zeros_pos Hnz) as [n En].
  unfold ge_double_scalarmult_precomp_vartime2_p3. cbv zeta. rewrite En. eapply yields_impl.
  - apply (dsm_loop_p3_ok _ _ _ _ _ _ (step_comp _ _ _ _ (add_step _ _ a HA Ha) (add_step _ _ b HB Hb)) p2_0_rep).
  - cbv beta; intros r Hr. rewrite <- En in Hr.
    by rewrite double_sum in Hr by (done || (apply list_elem_of_In; simpl; tauto)).
Qed.
End BaseLoops.
End GeScalarmult.
