(* ===== verification/GeFromFe.v ===== *)
(** [ge_fromfe_frombytes_vartime], the map from 32 bytes to a point that key
    images and generators are derived with.

    The assertions of the code are modelled: a false assertion is a failure.
    The theorem is that no assertion fails, nothing overflows and the result is
    a point of the curve. *)
From Stdlib Require Import Zpow_facts.
From S2P Require Import Prelude Limbs Pack Group Fe FeCorrect FePow FeBytes Curve GeData Ge GeCorrect GeEncode.

Local Open Scope Z_scope.

Module GeFromFe.
Import Limbs Pack Group Fe FeCorrect FePow FeBytes Curve GeData Ge GeCorrect GeEncode.

Local Notation "a == b" := (eqm p25519 a b) (at level 70).

(** The limbs of the 32 bytes, the top bit included. *)
Definition fe_load_full (s : list Z) : list Z :=
  take 9 (fe_load s) ++ [Z.shiftl (load_3 s 29) 2].

Definition assert_that (b : bool) : option unit := if b then Some tt else None.

(** The two branches before [setsign]: the candidate [X], [z] and the sign. *)
Definition fromfe_branch (X u v w x : list Z) : option (list Z * list Z * Z) :=
  y ← fe_sq X;
  x ← fe_mul y x;
  y ← fe_sub w x;
  let z := fe_copy fe_ma in
  let positive (f : list Z) :=
    X ← fe_mul X f;
    X ← fe_mul X u;
    z ← fe_mul z v;
    Some (X, z, 0) in
  c ← fe_isnonzero y;
  if c =? 0 then positive fe_fffb2 else
  y ← fe_add w x;
  c ← fe_isnonzero y;
  if c =? 0 then positive fe_fffb1 else
  x ← fe_mul x fe_sqrtm1;
  y ← fe_sub w x;
  c ← fe_isnonzero y;
  if c =? 0 then X ← fe_mul X fe_fffb4; Some (X, z, 1) else
  y ← fe_add w x;
  c ← fe_isnonzero y;
  _ ← assert_that (c =? 0);
  X ← fe_mul X fe_fffb3;
  Some (X, z, 1).

(** The assertion at the end of the function. *)
Definition fromfe_check (X Y W : list Z) : option unit :=
  iz ← fe_invert W;
  cx ← fe_mul X iz;
  cy ← fe_mul Y iz;
  cx ← fe_sq cx;
  cy ← fe_sq cy;
  cv ← fe_mul cx cy;
  cv ← fe_mul fe_d cv;
  cv ← fe_add cv cx;
  cv ← fe_sub cv cy;
  cv ← fe_add cv fe_1;
  c ← fe_isnonzero cv;
  assert_that (c =? 0).

Definition ge_fromfe_frombytes_vartime (s : list Z) : option ge_p2 :=
  h ← run 64 fe_load_carries (fe_load_full s);
  u ← store_i32 h;
  v ← fe_sq2 u;
  w ← fe_add v fe_1;
  x ← fe_sq w;
  y ← fe_mul fe_ma2 v;
  x ← fe_add x y;
  rX ← fe_divpowm1 w x;
  b ← fromfe_branch rX u v w x;
  let '(rX, z, sign) := b in
  n ← fe_isnegative rX;
  rX ← (if n =? sign then Some rX
        else c ← fe_isnonzero rX; _ ← assert_that (negb (c =? 0)); fe_neg rX);
  rZ ← fe_add z w;
  rY ← fe_sub z w;
  rX ← fe_mul rX rZ;
  _ ← fromfe_check rX rY rZ;
  Some (mk_p2 rX rY rZ).

(** ** The map, mathematically *)

(** The Montgomery coefficient; the Edwards [d] is [(2 - A) / (A + 2)]. *)
Definition mont_a : Z := 486662.

Definition is_square (a : Z) : Prop := exists t, t * t == a.

(** [P] is the image of [u]: [y = (z - w) / (z + w)], where [z] and the parity
    of [x] depend on whether [w (w^2 - 2 A^2 u^2)] is a square. *)
Definition fromfe_image (u : Z) (P : point) : Prop :=
  let w := 2 * (u * u) + 1 in
  let x := w * w - 2 * (mont_a * mont_a) * (u * u) in
  let image z sign := nonzero (z + w) /\ py P * (z + w) == z - w /\ (px P mod p25519) mod 2 = sign in
  (is_square (w * x) /\ image (- mont_a * (2 * (u * u))) 0) \/
  (~ is_square (w * x) /\ image (- mont_a) 1).

Lemma d_mont : (mont_a + 2) * edwards_d == 2 - mont_a.
Proof. apply eqm_of_mod. vm_compute. reflexivity. Qed.

Lemma two_nonsquare : nonsquare 2.
Proof. apply euler_nonsquare; vm_compute; [discriminate | reflexivity]. Qed.

Lemma const_nonzero a : (a mod p25519 =? 0) = false -> nonzero a.
Proof. intros H. by apply nonzero_const, Z.eqb_neq. Qed.

Lemma fe_ma_rep : rep 101 fe_ma (- mont_a). Proof. const. Qed.
Lemma fe_ma2_rep : rep 101 fe_ma2 (- (mont_a * mont_a)). Proof. const. Qed.
Lemma fe_fffb1_rep : exists b, rep 101 fe_fffb1 b /\ b * b == - (2 * mont_a * (mont_a + 2)).
Proof. exists (fe_val fe_fffb1). split; [const | apply eqm_of_mod; vm_compute; reflexivity]. Qed.
Lemma fe_fffb2_rep : exists b, rep 101 fe_fffb2 b /\ b * b == 2 * mont_a * (mont_a + 2).
Proof. exists (fe_val fe_fffb2). split; [const | apply eqm_of_mod; vm_compute; reflexivity]. Qed.
Lemma fe_fffb3_rep : exists b, rep 101 fe_fffb3 b /\ b * b == - sqrtm1 * mont_a * (mont_a + 2).
Proof. exists (fe_val fe_fffb3). split; [const | apply eqm_of_mod; vm_compute; reflexivity]. Qed.
Lemma fe_fffb4_rep : exists b, rep 101 fe_fffb4 b /\ b * b == sqrtm1 * mont_a * (mont_a + 2).
Proof. exists (fe_val fe_fffb4). split; [const | apply eqm_of_mod; vm_compute; reflexivity]. Qed.

Section Map.
Context (u : Z).
Let w := 2 * (u * u) + 1.
Let x := w * w - 2 * (mont_a * mont_a) * (u * u).

Lemma w_nonzero : nonzero w.
Proof.
  intros E. apply (two_nonsquare (2 * u * sqrtm1)).
  replace (2 * u * sqrtm1 * (2 * u * sqrtm1)) with ((2 * w - 2) * (sqrtm1 * sqrtm1)) by (unfold w; ring).
  rewrite E, sqrtm1_sq. eqm_ring.
Qed.

Lemma x_nonzero : nonzero x.
Proof.
  intros E. assert (E' : w * w == 2 * (mont_a * u * (mont_a * u))).
  { apply eqm_sub_0. rewrite <- E. unfold x. eqm_ring. }
  apply ratio_zero in E' as Z0; [| exact two_nonsquare]. rewrite Z0 in E'.
  destruct (mul_eq_0 _ _ E') as [F | F]; by apply w_nonzero.
Qed.

(** The candidate [X0] satisfies [X0^2 x = k w] with [k^4 = 1]. *)
Lemma fourth_roots k : k * k * (k * k) == 1 -> k == 1 \/ k == -1 \/ k == sqrtm1 \/ k == - sqrtm1.
Proof.
  intros [E | E]%square_root_1; [apply square_root_1 in E as [? | ?]; tauto |].
  assert (P0 : (k - sqrtm1) * (k + sqrtm1) == 0).
  { replace ((k - sqrtm1) * (k + sqrtm1)) with (k * k - sqrtm1 * sqrtm1) by ring.
    by rewrite E, sqrtm1_sq. }
  destruct (mul_eq_0 _ _ P0) as [F | F]; do 2 right; [left | right]; apply eqm_sub_0; rewrite <- F; eqm_ring.
Qed.

Lemma quartic a : nonzero a -> let k := a ^ ((p25519 - 1) / 4) in k * k * (k * k) == 1.
Proof.
  intros Ha k. unfold k. rewrite <- !Z.pow_add_r by (vm_compute; discriminate).
  replace (_ + _) with (p25519 - 1) by (vm_compute; reflexivity). by apply fermat.
Qed.

(** The point of the image is on the curve, for both values of [z]. *)
Lemma image_on X Y z :
  x == z * z + w * w + mont_a * (z * w) -> X * X * x == - z * w * (mont_a + 2) ->
  nonzero (z + w) -> Y * (z + w) == z - w -> on_curve X Y.
Proof.
  intros Ex EX Nz EY. apply (cancel_l ((mont_a + 2) * ((z + w) * (z + w)))).
  { apply nonzero_mul; [by apply const_nonzero | by apply nonzero_mul]. }
  unfold curve_poly. rewrite Z.mul_0_r.
  replace (_ * _) with
    ((mont_a + 2) * ((Y * (z + w)) * (Y * (z + w)) - (1 + X * X) * ((z + w) * (z + w)))
     - ((mont_a + 2) * edwards_d) * (X * X) * ((Y * (z + w)) * (Y * (z + w)))) by ring.
  rewrite EY, d_mont.
  replace (_ - _) with (4 * (- z * w * (mont_a + 2)) - 4 * (X * X * (z * z + w * w + mont_a * (z * w)))) by ring.
  by rewrite <- Ex, EX, Z.sub_diag.
Qed.

Lemma image_denominator X z :
  x == z * z + w * w + mont_a * (z * w) -> X * X * x == - z * w * (mont_a + 2) -> nonzero (z + w).
Proof.
  intros Ex EX E. assert (Ez : z == - w) by (apply eqm_sub_0; rewrite <- E; eqm_ring).
  rewrite Ex, Ez in EX.
  assert (Hw : nonzero (w * w)) by (apply nonzero_mul; apply w_nonzero).
  assert (E2 : X * X * ((mont_a + 2) * edwards_d) == (mont_a + 2) * 1).
  { rewrite d_mont. apply (cancel_l (w * w)); [done |].
    replace (w * w * (X * X * (2 - mont_a))) with (X * X * (- w * - w + w * w + mont_a * (- w * w))) by ring.
    rewrite EX. eqm_ring. }
  apply (d_nonsquare (edwards_d * X)).
  replace (edwards_d * X * (edwards_d * X)) with (edwards_d * (X * X * edwards_d)) by ring.
  rewrite <- (Z.mul_1_r edwards_d) at 3. f_equiv.
  apply (cancel_l (mont_a + 2)); [by apply const_nonzero |]. rewrite <- E2. eqm_ring.
Qed.

(** What the branches before [setsign] establish of [X], [z] and the sign. *)
Definition branch_spec (r : list Z * list Z * Z) : Prop :=
  let '(X, z, sign) := r in
  exists a zv, rep 101 X a /\ rep 101 z zv /\ a * a * x == - zv * w * (mont_a + 2) /\
    ((sign = 0 /\ is_square (w * x) /\ zv == - mont_a * (2 * (u * u))) \/
     (sign = 1 /\ ~ is_square (w * x) /\ zv == - mont_a)).

(** [c] is the value of [fe_divpowm1] on [w] and [x]. *)
Let c := (x ^ 7 * w) ^ ((p25519 - 5) / 8) * x ^ 3 * w.

Lemma c_roots :
  c * c * x == w \/ c * c * x == - w \/ c * c * x == sqrtm1 * w \/ c * c * x == - sqrtm1 * w.
Proof.
  pose proof (candidate w x) as E. cbv zeta in E. fold c in E.
  assert (N : nonzero (x ^ 7 * w)) by (apply nonzero_mul; [by apply nonzero_pow; [apply x_nonzero |] | apply w_nonzero]).
  destruct (fourth_roots _ (quartic _ N)) as [F | [F | [F | F]]]; rewrite F in E.
  - left. rewrite E. eqm_ring.
  - right; left. rewrite E. eqm_ring.
  - do 2 right; left. rewrite E. eqm_ring.
  - do 3 right. rewrite E. eqm_ring.
Qed.

Lemma square_pos : c * c * x == w \/ c * c * x == - w -> is_square (w * x).
Proof.
  intros [E | E].
  - exists (c * x). rewrite <- E. eqm_ring.
  - exists (c * x * sqrtm1). replace (_ * _) with (c * c * x * x * (sqrtm1 * sqrtm1)) by ring.
    rewrite sqrtm1_sq, E. eqm_ring.
Qed.

Lemma square_neg : ~ c * c * x == w -> ~ c * c * x == - w -> ~ is_square (w * x).
Proof.
  intros N1 N2 [t Ht]. pose proof (candidate w x) as E. cbv zeta in E. fold c in E.
  destruct (candidate_root w x (t * inv x)) as [F | [F | F]].
  - replace (x * (t * inv x * (t * inv x))) with (t * t * inv x * (x * inv x)) by ring.
    rewrite inv_r, Ht by apply x_nonzero. replace (_ * _) with (w * (x * inv x)) by ring.
    rewrite inv_r by apply x_nonzero. eqm_ring.
  - by apply w_nonzero.
  - apply N1. rewrite E, F. eqm_ring.
  - apply N2. rewrite E, F. eqm_ring.
Qed.

Context (X U V W XX : list Z).
Hypothesis (HX : rep 101 X c) (HU : rep 101 U u) (HV : rep 101 V (2 * (u * u))).
Hypothesis (HW : rep 102 W w) (HXX : rep 202 XX x).

Lemma positive_ok f b : rep 101 f b -> c * c * x * (b * b) == w * (2 * mont_a * (mont_a + 2)) -> is_square (w * x) ->
  yields (X ← fe_mul X f; X ← fe_mul X U; z ← fe_mul fe_ma V; Some (X, z, 0)) branch_spec.
Proof.
  intros Hf E Sq. pose proof fe_ma_rep. repeat rep_step.
  eexists _, _. split; [eassumption |]. split; [eassumption |]. split; [| by left].
  replace (_ * x) with (c * c * x * (b * b) * (u * u)) by ring. rewrite E. eqm_ring.
Qed.

Lemma negative_ok f b : rep 101 f b -> c * c * x * (b * b) == w * (mont_a * (mont_a + 2)) -> ~ is_square (w * x) ->
  yields (X ← fe_mul X f; Some (X, fe_ma, 1)) branch_spec.
Proof.
  intros Hf E Sq. pose proof fe_ma_rep. repeat rep_step.
  eexists _, _. split; [eassumption |]. split; [eassumption |]. split; [| by right].
  replace (_ * x) with (c * c * x * (b * b)) by ring. rewrite E. eqm_ring.
Qed.

Lemma fromfe_branch_ok : yields (fromfe_branch X U V W XX) branch_spec.
Proof.
  pose proof c_roots as R. pose proof square_pos as Sp. pose proof square_neg as Sn.
  pose proof fe_sqrtm1_rep as Hi. unfold fromfe_branch. rewrite (fe_copy_id _ _ _ fe_ma_rep). cbv zeta.
  do 3 rep_step.
  eapply isnonzero_bind; [eassumption | done | |]; intros E1.
  { change (0 =? 0) with true. cbv iota. apply eqm_sub_0 in E1. symmetry in E1.
    destruct fe_fffb2_rep as (b & Hb & Eb). apply (positive_ok _ b Hb); [by rewrite E1, Eb | auto]. }
  change (1 =? 0) with false. cbv iota. rep_step.
  eapply isnonzero_bind; [eassumption | done | |]; intros E2.
  { change (0 =? 0) with true. cbv iota.
    assert (E2' : c * c * x == - w) by (apply eqm_sub_0; rewrite <- E2; eqm_ring).
    destruct fe_fffb1_rep as (b & Hb & Eb). apply (positive_ok _ b Hb); [rewrite E2', Eb; eqm_ring | auto]. }
  change (1 =? 0) with false. cbv iota. do 2 rep_step.
  assert (N1 : ~ c * c * x == w) by (intros F; apply E1; rewrite F; eqm_ring).
  assert (N2 : ~ c * c * x == - w) by (intros F; apply E2; rewrite F; eqm_ring).
  specialize (Sn N1 N2).
  destruct R as [R | [R | R]]; [done | done |].
  eapply isnonzero_bind; [eassumption | done | |]; intros E3.
  { change (0 =? 0) with true. cbv iota. apply eqm_sub_0 in E3.
    destruct fe_fffb4_rep as (b & Hb & Eb). apply (negative_ok _ b Hb); [rewrite Eb | done].
    rewrite E3. eqm_ring. }
  change (1 =? 0) with false. cbv iota. rep_step.
  destruct R as [R | R].
  2: { exfalso. apply E3. rewrite R. replace (_ - _) with (w + w * (sqrtm1 * sqrtm1)) by ring. rewrite sqrtm1_sq. eqm_ring. }
  eapply isnonzero_bind; [eassumption | done | |]; intros E4.
  - change (0 =? 0) with true. cbn [assert_that mbind option_bind].
    destruct fe_fffb3_rep as (b & Hb & Eb). apply (negative_ok _ b Hb); [rewrite R, Eb | done].
    replace (_ * _) with (w * (mont_a * (mont_a + 2)) * - (sqrtm1 * sqrtm1)) by ring. rewrite sqrtm1_sq. eqm_ring.
  - exfalso. apply E4. rewrite R. replace (_ + _) with (w + w * (sqrtm1 * sqrtm1)) by ring. rewrite sqrtm1_sq. eqm_ring.
Qed.
End Map.

(** ** The function *)

Lemma fe_load_full_value s : is_bytes 32 s -> fe_val (fe_load_full s) = le_combine s.
Proof.
  intros [Hl H]. rewrite le_combine_at, Hl. unfold fe_load_full, fe_load, fe_val.
  cbn [take app]. rewrite !load_4_val, !load_3_val by done. rewrite !Z.shiftl_mul_pow2 by lia.
  cbn [dot fe_weights Nat.add seq foldr]. lia.
Qed.

Definition fe_load_full_itv : list itv := take 9 fe_load_itv ++ [(0, 67108860)].

Lemma fe_load_full_bounds s : is_bytes 32 s -> Forall2 in_itv (fe_load_full s) fe_load_full_itv.
Proof.
  intros Hs. apply Forall2_app; [by apply Forall2_take, fe_load_bounds |]. constructor; [| constructor].
  destruct Hs as [_ H]. pose proof (load_3_range s 29 H). unfold in_itv.
  rewrite Z.shiftl_mul_pow2 by lia. simpl. lia.
Qed.

Lemma fe_load_full_ok s : is_bytes 32 s ->
  yields (h ← run 64 fe_load_carries (fe_load_full s); store_i32 h) (fun u => rep 101 u (le_combine s)).
Proof.
  intros Hs. apply (close_ok fe_load_carries fe_load_full_itv); [by apply fe_load_full_bounds | vm_compute; reflexivity |].
  by rewrite fe_load_full_value.
Qed.

(** [setsign]: the parity of the result is the sign asked for; a zero is only
    met where its parity is already right. *)
Lemma set_sign_ok X a sign : rep 101 X a -> (sign = 0 \/ (sign = 1 /\ nonzero a)) ->
  yields (n ← fe_isnegative X;
          if n =? sign then Some X
          else c ← fe_isnonzero X; _ ← assert_that (negb (c =? 0)); fe_neg X)
    (fun r => exists b, rep 101 r b /\ b * b == a * a /\ (b mod p25519) mod 2 = sign).
Proof.
  intros HX Hs. rewrite (fe_isnegative_ok 101 X a HX) by done. cbn [mbind option_bind].
  pose proof (Z.mod_pos_bound (a mod p25519) 2 ltac:(lia)) as B.
  destruct (Z.eqb_spec ((a mod p25519) mod 2) sign) as [E | E].
  { apply yields_ret. by exists a. }
  assert (Na : nonzero a).
  { destruct Hs as [-> | [_ ?]]; [| done]. intros F. apply E. by rewrite (eqm_mod_eq _ _ F). }
  eapply isnonzero_bind; [eassumption | done | done |]. intros _.
  change (negb (1 =? 0)) with true. cbn [assert_that mbind option_bind].
  eapply yields_impl; [rep_call |]. cbv beta. intros r Hr. exists (- a).
  split; [done |]. split; [eqm_ring |]. rewrite parity_opp by done. lia.
Qed.

(** The assertion at the end holds of a point of the curve. *)
Lemma fromfe_check_ok X Y W x y z : nonzero z -> on_curve x y ->
  rep 101 X (x * z) -> rep 203 Y (y * z) -> rep 203 W z -> fromfe_check X Y W = Some tt.
Proof.
  intros Nz On HX HY HW. cut (yields (fromfe_check X Y W) (fun r => r = tt)).
  { by intros (r & -> & ->). }
  unfold fromfe_check. pose proof fe_d_rep. pose proof fe_1_rep.
  eapply yields_bind; [by apply (fe_invert_ok 203) |]. cbv beta; intros iz Hiz.
  repeat rep_step.
  eapply isnonzero_bind; [eassumption | done | |]; intros E; [by apply yields_ret |].
  exfalso. apply E.
  replace (x * z * inv z) with (x * (z * inv z)) by ring. replace (y * z * inv z) with (y * (z * inv z)) by ring.
  rewrite inv_r by done. transitivity (- curve_poly edwards_d x y); [unfold curve_poly; eqm_ring |].
  unfold on_curve in On. by rewrite On.
Qed.

(** What follows the branches: the sign, the coordinates and the last assertion. *)
Lemma fromfe_finish_ok u rX z sign W : rep 102 W (2 * (u * u) + 1) -> branch_spec u (rX, z, sign) ->
  yields (n ← fe_isnegative rX;
          rX ← (if n =? sign then Some rX
                else c ← fe_isnonzero rX; _ ← assert_that (negb (c =? 0)); fe_neg rX);
          rZ ← fe_add z W; rY ← fe_sub z W; rX ← fe_mul rX rZ;
          _ ← fromfe_check rX rY rZ; Some (mk_p2 rX rY rZ))
    (fun r => exists P, p2_rep r P /\ fromfe_image u P).
Proof.
  intros HW (a & zv & HX & Hz & Ea & Hs).
  set (w := 2 * (u * u) + 1) in *. set (x := w * w - 2 * (mont_a * mont_a) * (u * u)) in *.
  assert (Ex : x == zv * zv + w * w + mont_a * (zv * w)).
  { destruct Hs as [(_ & _ & ->) | (_ & _ & ->)]; unfold x, w; eqm_ring. }
  assert (Nz : nonzero (zv + w)) by by apply (image_denominator u a).
  assert (Na : sign = 0 \/ (sign = 1 /\ nonzero a)).
  { destruct Hs as [(-> & _ & _) | (-> & _ & Ez)]; [by left | right; split; [done |]].
    intros F. rewrite F, Ez in Ea. revert Ea. change (~ 0 * 0 * x == - - mont_a * w * (mont_a + 2)).
    intros Ea. symmetry in Ea. revert Ea. change (nonzero (- - mont_a * w * (mont_a + 2))).
    repeat apply nonzero_mul; [by apply const_nonzero | apply w_nonzero | by apply const_nonzero]. }
  eapply yields_assoc; [by apply set_sign_ok |]. cbv beta; intros X (b & HX' & Eb & Sb).
  do 3 rep_step.
  set (y := (zv - w) * inv (zv + w)). assert (Ey : y * (zv + w) == zv - w).
  { unfold y. rewrite <- Z.mul_assoc, (Z.mul_comm (inv _)), inv_r by done. eqm_ring. }
  assert (On : on_curve b y) by (apply (image_on u _ _ zv); by rewrite ?Eb).
  rewrite <- Ey in H0. clearbody y.
  rewrite (fromfe_check_ok _ _ _ _ _ _ Nz On H1 H0 H). apply yields_ret.
  exists (mkpoint b y On). split; [by exists (zv + w) |].
  unfold fromfe_image; cbn [px py]. fold w x.
  destruct Hs as [(-> & Sq & Ez) | (-> & Sq & Ez)]; [left | right]; rewrite Ez in Nz, Ey; done.
Qed.

Lemma ge_fromfe_ok s : is_bytes 32 s ->
  yields (ge_fromfe_frombytes_vartime s) (fun r => exists P, p2_rep r P /\ fromfe_image (le_combine s) P).
Proof.
  intros Hs. unfold ge_fromfe_frombytes_vartime.
  eapply yields_assoc; [by apply fe_load_full_ok |]. cbv beta; intros U HU. set (u := le_combine s) in *. clearbody u.
  pose proof fe_1_rep. pose proof fe_ma2_rep. do 5 rep_step.
  match goal with H : rep 202 ?f ?e |- _ => assert (HX : rep 202 f ((2 * (u * u) + 1) * (2 * (u * u) + 1) - 2 * (mont_a * mont_a) * (u * u)))
    by (apply (rep_eq _ _ _ _ _ H); [done | eqm_ring]); clear H end.
  eapply yields_bind; [by eapply fe_divpowm1_pow |]. cbv beta; intros X0 HX0.
  eapply yields_bind; [by eapply fromfe_branch_ok |]. intros [[rX z] sign] Hb.
  by apply fromfe_finish_ok.
Qed.
End GeFromFe.
