(* ===== verification/GeTheorems.v ===== *)
(** What the group arithmetic of src/crypto/crypto-ops.c promises: the [ge_*]
    operations are the group law of the curve, encoding is a bijection between
    points and the accepted byte strings, and every scalar multiplication
    computes the multiple it is named after. *)
From S2P Require Import Prelude Limbs Pack Scalar ScalarCorrect Group Fe FeCorrect FePow FeBytes Curve GeData Ge.
From S2P Require Import GeCorrect GeEncode GeMult Recode GeMultCorrect GeTables GeScalarmult GeFromFe.

Local Open Scope Z_scope.

Module GeTheorems.
Import Limbs Pack Scalar ScalarCorrect Group Fe FeCorrect FePow FeBytes Curve GeData Ge.
Import GeCorrect GeEncode GeMult Recode GeMultCorrect GeTables GeScalarmult GeFromFe.

(** ** The base point, for the witnesses *)

Definition base_p3 : ge_p3 :=
  mk_p3 [-14297830; -7645148; 16144683; -16471763; 27570974; -2696100; -26142465; 8378389; 20764389; 8758491]
        [-26843541; -6710886; 13421773; -13421773; 26843546; 6710886; -13421773; 13421773; -26843546; -6710886]
        fe_1
        [28827062; -6116119; -27349572; 244363; 8635006; 11264893; 19351346; 13413597; 16611511; -6414980].

Lemma base_p3_rep : p3_rep base_p3 base_point.
Proof. exists 1. split; [apply one_nonzero |]. split_and!; const. Qed.

Definition scalar_bytes (n : Z) : list Z := le_split 32 n.

Lemma scalar_bytes_ok n : 0 <= n < 2 ^ 255 -> scalar_ok (scalar_bytes n).
Proof.
  intros Hn. split; [apply le_split_bytes |]. unfold scalar_bytes. rewrite le_combine_split; [lia |].
  change (256 ^ Z.of_nat 32) with (2 ^ 256). lia.
Qed.

Lemma scalar_bytes_val n : 0 <= n < 2 ^ 255 -> le_combine (scalar_bytes n) = n.
Proof. intros Hn. apply le_combine_split. change (256 ^ Z.of_nat 32) with (2 ^ 256). lia. Qed.

(** ** The group law *)

(** Applied to representations of points, with the bounds the code keeps,
    [ge_add], [ge_sub], [ge_madd] and [ge_msub] never overflow and represent the
    sum and the difference of the points, with no exceptional case. *)
Theorem ge_add_correct p q m P Q : p3_rep p P -> cached_rep q Q -> precomp_rep m Q ->
  yields (ge_add p q) (fun r => p1p1_rep r (padd P Q)) /\
  yields (ge_sub p q) (fun r => p1p1_rep r (padd P (popp Q))) /\
  yields (ge_madd p m) (fun r => p1p1_rep r (padd P Q)) /\
  yields (ge_msub p m) (fun r => p1p1_rep r (padd P (popp Q))).
Proof.
  intros HP HQ Hm. split; [by apply ge_add_ok |]. split; [by apply ge_sub_ok |].
  split; [by apply ge_madd_ok | by apply ge_msub_ok].
Qed.

Lemma ge_add_witness : yields (ge_add base_p3 ge_cached_0) (fun r => p1p1_rep r (padd base_point pzero)).
Proof.
  apply (ge_add_correct base_p3 ge_cached_0 ge_precomp_0 base_point pzero);
    [exact base_p3_rep | exact cached_0_rep | exact precomp_0_rep].
Defined.

(** Doubling and the conversions between the representations keep or
    double the point: [ge_p2_dbl], [ge_p3_dbl], [ge_mul8] and the conversions
    from and to [ge_p2], [ge_p3] and [ge_cached]. *)
Theorem ge_dbl_correct p2 p3 p1 P : p2_rep p2 P -> p3_rep p3 P -> p1p1_rep p1 P ->
  yields (ge_p2_dbl p2) (fun r => p1p1_rep r (padd P P)) /\
  yields (ge_p3_dbl p3) (fun r => p1p1_rep r (padd P P)) /\
  yields (ge_mul8 p2) (fun r => p1p1_rep r (smul 8 P)) /\
  yields (ge_p1p1_to_p2 p1) (fun r => p2_rep r P) /\
  yields (ge_p1p1_to_p3 p1) (fun r => p3_rep r P) /\
  yields (ge_p3_to_cached p3) (fun r => cached_rep r P) /\
  p2_rep (ge_p3_to_p2 p3) P.
Proof.
  intros H2 H3 H1. split_and!.
  - by apply ge_p2_dbl_ok.
  - by apply ge_p3_dbl_ok.
  - by apply ge_mul8_ok.
  - by apply ge_p1p1_to_p2_ok.
  - by apply ge_p1p1_to_p3_ok.
  - by apply ge_p3_to_cached_ok.
  - by apply p3_p2.
Qed.

Lemma ge_dbl_witness : exists p1, yields (ge_p1p1_to_p3 p1) (fun r => p3_rep r (padd base_point base_point)).
Proof.
  destruct (ge_p3_dbl_ok _ _ base_p3_rep) as (p1 & _ & H1). exists p1.
  destruct (ge_p1p1_to_p3_ok _ _ H1) as (p3 & _ & H3).
  destruct (ge_dbl_correct _ _ _ _ (p3_p2 _ _ H3) H3 H1) as (_ & _ & _ & _ & H & _). exact H.
Defined.

(** The addition of two [ge_p3], as the callers of [ge_add] write it. *)
Definition ge_plus (p q : ge_p3) : option ge_p3 :=
  c ← ge_p3_to_cached q; r ← ge_add p c; ge_p1p1_to_p3 r.

Lemma ge_plus_ok p q P Q : p3_rep p P -> p3_rep q Q -> yields (ge_plus p q) (fun r => p3_rep r (padd P Q)).
Proof. intros HP HQ. unfold ge_plus. repeat ge_step. done. Qed.

Lemma p3_bytes p P : p3_rep p P -> ge_p3_tobytes p = Some (le_split 32 (encode_point P)).
Proof.
  intros H. destruct (ge_p3_tobytes_ok p P H) as (s & -> & [L B] & V). f_equal.
  apply le_combine_inj; [exact L | done | apply le_split_bytes |]. rewrite <- V.
  pose proof (le_combine_bounds s B) as R. rewrite L in R. by rewrite le_combine_split.
Qed.

Lemma encode_proper P Q : peq P Q -> encode_point P = encode_point Q.
Proof. intros [X Y]. unfold encode_point. by rewrite (eqm_mod_eq _ _ X), (eqm_mod_eq _ _ Y). Qed.

(** The addition the code computes is associative and commutative up to
    the representation: both ways of adding three points, and of adding two,
    give the same bytes. *)
Theorem ge_plus_assoc p q r P Q R : p3_rep p P -> p3_rep q Q -> p3_rep r R ->
  yields (t ← ge_plus q r; t ← ge_plus p t; ge_p3_tobytes t) (fun s =>
    (t ← ge_plus p q; t ← ge_plus t r; ge_p3_tobytes t) = Some s) /\
  yields (t ← ge_plus p q; ge_p3_tobytes t) (fun s => (t ← ge_plus q p; ge_p3_tobytes t) = Some s).
Proof.
  intros HP HQ HR.
  destruct (ge_plus_ok _ _ _ _ HQ HR) as (t1 & -> & H1), (ge_plus_ok _ _ _ _ HP HQ) as (t2 & -> & H2).
  destruct (ge_plus_ok _ _ _ _ HQ HP) as (t3 & -> & H3). cbn [mbind option_bind].
  destruct (ge_plus_ok _ _ _ _ HP H1) as (t4 & -> & H4), (ge_plus_ok _ _ _ _ H2 HR) as (t5 & -> & H5).
  cbn [mbind option_bind]. rewrite (p3_bytes _ _ H2), (p3_bytes _ _ H3), (p3_bytes _ _ H4), (p3_bytes _ _ H5).
  split; (eexists; split; [reflexivity |]); do 2 f_equal; apply encode_proper; symmetry;
    [apply padd_assoc | apply padd_comm].
Qed.

Lemma ge_plus_witness :
  yields (t ← ge_plus base_p3 base_p3; t ← ge_plus base_p3 t; ge_p3_tobytes t) (fun s =>
    (t ← ge_plus base_p3 base_p3; t ← ge_plus t base_p3; ge_p3_tobytes t) = Some s).
Proof. exact (proj1 (ge_plus_assoc base_p3 base_p3 base_p3 _ _ _ base_p3_rep base_p3_rep base_p3_rep)). Defined.

(** ** Encoding *)

(** C13: [ge_frombytes_vartime] accepts exactly the 32-byte strings that encode a
    point of the curve, with the canonical [y] and the sign of [x], and returns
    a representation of that point; on every other string it fails. *)
Theorem ge_frombytes_exact s : is_bytes 32 s ->
  exists r, ge_frombytes_vartime s = Some r /\
  match r with
  | Some h => exists P, p3_rep h P /\ le_combine s = encode_point P
  | None => forall P, encode_point P <> le_combine s
  end.
Proof.
  intros Hs. destruct (ge_frombytes_ok s Hs) as ([h |] & E & D); [exists (Some h) | exists None]; (split; [done |]).
  - destruct D as (P & HP & EP). by exists P.
  - exact D.
Qed.

Lemma ge_frombytes_witness : exists r, ge_frombytes_vartime (scalar_bytes 2) = Some r /\
  match r with
  | Some h => exists P, p3_rep h P /\ le_combine (scalar_bytes 2) = encode_point P
  | None => forall P, encode_point P <> le_combine (scalar_bytes 2)
  end.
Proof. exact (ge_frombytes_exact (scalar_bytes 2) (le_split_bytes 32 2)). Defined.

(** C33: encoding and decoding are inverse: the bytes of a represented point
    decode to a representation of the same point, and the bytes that decode are
    the ones the decoded point is encoded to. *)
Theorem ge_encode_roundtrip h P s h' : p3_rep h P -> is_bytes 32 s -> ge_frombytes_vartime s = Some (Some h') ->
  yields (t ← ge_p3_tobytes h; ge_frombytes_vartime t) (fun r => exists h2, r = Some h2 /\ p3_rep h2 P) /\
  ge_p3_tobytes h' = Some s.
Proof.
  intros HP Hs Es. split.
  - eapply yields_bind; [by apply ge_p3_tobytes_ok |]. cbv beta; intros t [Ht Vt].
    eapply yields_impl; [by apply ge_frombytes_ok |]. intros [h2 |] D.
    + destruct D as (Q & HQ & EQ). exists h2. split; [done |].
      assert (E : peq Q P) by (apply encode_inj; congruence). by rewrite <- E.
    + by destruct (D P).
  - destruct (ge_frombytes_ok s Hs) as (r & E & D). rewrite Es in E. injection E as <-.
    destruct D as (Q & HQ & EQ). rewrite (p3_bytes _ _ HQ). f_equal.
    apply le_combine_inj; [symmetry; apply Hs | apply le_split_bytes | apply Hs |].
    rewrite EQ, le_combine_split; [done |]. pose proof (le_combine_bounds s (proj2 Hs)) as R. by rewrite (proj1 Hs) in R.
Qed.

(** The encoding of the neutral element. *)
Definition infinity_bytes : list Z := 1 :: replicate 31 0.

Lemma ge_encode_witness : exists h', ge_frombytes_vartime infinity_bytes = Some (Some h') /\
  ge_p3_tobytes h' = Some infinity_bytes.
Proof.
  assert (Hs : is_bytes 32 infinity_bytes) by (split; [done |]; repeat constructor; done).
  destruct (ge_frombytes_ok infinity_bytes Hs) as ([h' |] & E & D).
  - exists h'. split; [exact E |].
    exact (proj2 (ge_encode_roundtrip base_p3 base_point infinity_bytes h' base_p3_rep Hs E)).
  - exfalso. by apply (D pzero).
Defined.

(** The encodings of two represented points are equal exactly when the
    points are: different representations of a point have the same bytes, and
    the encoding is injective; [ge_tobytes] and [ge_p3_tobytes] agree. *)
Theorem ge_tobytes_injective h1 h2 P Q : p3_rep h1 P -> p3_rep h2 Q ->
  (ge_p3_tobytes h1 = ge_p3_tobytes h2 <-> peq P Q) /\
  ge_tobytes (ge_p3_to_p2 h1) = ge_p3_tobytes h1.
Proof.
  intros H1 H2. rewrite (p3_bytes _ _ H1), (p3_bytes _ _ H2). split; [split |].
  - intros E. apply encode_inj.
    destruct (ge_p3_tobytes_ok _ _ H1) as (s1 & E1 & [L1 B1] & V1), (ge_p3_tobytes_ok _ _ H2) as (s2 & E2 & [L2 B2] & V2).
    rewrite (p3_bytes _ _ H1) in E1. rewrite (p3_bytes _ _ H2) in E2. congruence.
  - intros E. by rewrite (encode_proper _ _ E).
  - destruct (ge_tobytes_ok _ _ (p3_p2 _ _ H1)) as (s & -> & [L B] & V). f_equal.
    apply le_combine_inj; [exact L | done | apply le_split_bytes |]. rewrite <- V.
    pose proof (le_combine_bounds s B) as R. rewrite L in R. by rewrite le_combine_split.
Qed.

Lemma ge_tobytes_witness : ge_p3_tobytes base_p3 <> ge_p3_tobytes ge_p3_0 /\
  ge_tobytes (ge_p3_to_p2 base_p3) = ge_p3_tobytes base_p3.
Proof.
  destruct (ge_tobytes_injective _ _ _ _ base_p3_rep p3_0_rep) as [I E]. split; [| exact E].
  intros [F _]%I. apply eqm_mod in F; [| done]. vm_compute in F. discriminate F.
Defined.

(** ** Scalar multiplication *)

(** C9: for every scalar below [2^255] and every represented point,
    [ge_scalarmult] and [ge_scalarmult_p3] do not overflow, never leave their
    tables, and return a representation of the scalar times the point. *)
Theorem ge_scalarmult_correct a A P : scalar_ok a -> p3_rep A P ->
  yields (ge_scalarmult a A) (fun r => p2_rep r (smul (le_combine a) P)) /\
  yields (ge_scalarmult_p3 a A) (fun r => p3_rep r (smul (le_combine a) P)).
Proof. intros Ha HA. split; [by apply ge_scalarmult_ok | by apply ge_scalarmult_p3_ok]. Qed.

Lemma ge_scalarmult_witness :
  yields (ge_scalarmult ell_bytes base_p3) (fun r => p2_rep r (smul (le_combine ell_bytes) base_point)).
Proof.
  assert (H : scalar_ok ell_bytes) by (apply scalar_bytes_ok; vm_compute; split; [discriminate | reflexivity]).
  exact (proj1 (ge_scalarmult_correct ell_bytes base_p3 base_point H base_p3_rep)).
Defined.

(** C30: [ge_scalarmult_base], with its signed radix-16 digits, its table of
    [32 * 8] precomputed points and its constant-time selection, returns a
    representation of the scalar times the base point, for every scalar below
    [2^255]. *)
Theorem ge_scalarmult_base_correct a : scalar_ok a ->
  yields (ge_scalarmult_base a) (fun h => p3_rep h (smul (le_combine a) base_point)).
Proof. apply ge_scalarmult_base_ok. Qed.

Lemma ge_scalarmult_base_witness :
  yields (ge_scalarmult_base big_scalar) (fun h => p3_rep h (smul (le_combine big_scalar) base_point)).
Proof. apply (ge_scalarmult_base_correct big_scalar). split; [exact big_scalar_bytes | vm_compute; reflexivity]. Defined.



(** The multiplications by three scalars return [a A + b B + c C], over
    tables of odd multiples, as [ge_dsm_precomp] computes them, or with the base
    point for the first. *)
Theorem ge_triple_scalarmult_correct a b c A B C P Q R : scalar_ok a -> scalar_ok b -> scalar_ok c ->
  p3_rep A P -> p3_rep B Q -> p3_rep C R ->
  yields (Ai ← ge_dsm_precomp A; Bi ← ge_dsm_precomp B; Ci ← ge_dsm_precomp C;
          ge_triple_scalarmult_precomp_vartime a Ai b Bi c Ci)
    (fun r => p2_rep r (gadd (smul (le_combine a) P) (gadd (smul (le_combine b) Q) (smul (le_combine c) R)))) /\
  yields (Bi ← ge_dsm_precomp B; Ci ← ge_dsm_precomp C; ge_triple_scalarmult_base_vartime a b Bi c Ci)
    (fun r => p2_rep r (gadd (smul (le_combine a) base_point) (gadd (smul (le_combine b) Q) (smul (le_combine c) R)))).
Proof.
  intros Ha Hb Hc HA HB HC.
  destruct (ge_dsm_precomp_ok _ _ HA) as (Ai & -> & HAi), (ge_dsm_precomp_ok _ _ HB) as (Bi & -> & HBi),
    (ge_dsm_precomp_ok _ _ HC) as (Ci & -> & HCi). cbn [mbind option_bind].
  split; [by apply ge_triple_precomp_ok | by apply ge_triple_base_ok].
Qed.

Lemma ge_triple_scalarmult_witness :
  yields (Bi ← ge_dsm_precomp base_p3; Ci ← ge_dsm_precomp base_p3; ge_triple_scalarmult_base_vartime big_scalar big_scalar Bi big_scalar Ci)
    (fun r => p2_rep r (gadd (smul (le_combine big_scalar) base_point)
      (gadd (smul (le_combine big_scalar) base_point) (smul (le_combine big_scalar) base_point)))).
Proof.
  assert (H1 : scalar_ok big_scalar) by (split; [exact big_scalar_bytes | vm_compute; reflexivity]).
  exact (proj2 (ge_triple_scalarmult_correct _ _ _ _ _ _ _ _ _ H1 H1 H1 base_p3_rep base_p3_rep base_p3_rep)).
Defined.

(** The sliding-window recoding of a scalar below [2^255] has 256 digits,
    each zero or odd and between -15 and 15, and [sum r[i] 2^i] is the scalar. *)
Theorem slide_correct a : scalar_ok a ->
  length (slide a) = 256%nat /\ digits_val 2 (slide a) = le_combine a /\
  forall i, at_ (slide a) i = 0 \/ (Z.odd (at_ (slide a) i) = true /\ -15 <= at_ (slide a) i <= 15).
Proof.
  intros [Ha Hv]. destruct (slide_ok a Ha Hv) as (L & V & D). split; [done |]. split; [done |].
  intros i. exact (D i).
Qed.

Lemma slide_witness : digits_val 2 (slide big_scalar) = 2 ^ 255 - 1.
Proof.
  destruct (slide_correct big_scalar) as (_ & V & _);
    [split; [exact big_scalar_bytes | vm_compute; reflexivity] | exact V].
Defined.

(** The 256 entries of [ge_base] and the 8 of [ge_Bi] are the multiples of
    the base point that [select] and the vartime loops take them for:
    [ge_base[i][k]] is [(k+1) 256^i B] and [ge_Bi[k]] is [(2k+1) B]. *)
Theorem ge_tables_correct :
  (forall i row k q, ge_base !! i = Some row -> row !! k = Some q ->
    precomp_rep q (smul ((Z.of_nat k + 1) * 256 ^ Z.of_nat i) base_point)) /\
  (forall k q, ge_Bi !! k = Some q -> precomp_rep q (smul (2 * Z.of_nat k + 1) base_point)) /\
  length ge_base = 32%nat /\ Forall (fun row => length row = 8%nat) ge_base /\ length ge_Bi = 8%nat.
Proof.
  split; [exact ge_base_entry |]. split; [exact ge_Bi_entry |].
  split; [reflexivity |]. split; [repeat constructor | reflexivity].
Qed.

(** ** The order of the base point *)

Definition is_neutral (h : ge_p3) : bool :=
  (fe_val (p3_X h) mod p25519 =? 0) && ((fe_val (p3_Y h) - fe_val (p3_Z h)) mod p25519 =? 0).

Lemma is_neutral_ok h P : p3_rep h P -> is_neutral h = true -> peq P pzero.
Proof.
  intros (z & N & [_ HX] & [_ HY] & [_ HZ] & _) [EX%Z.eqb_eq EY%Z.eqb_eq]%andb_true_iff.
  apply eqm_of_mod in EY. assert (EX' : eqm p25519 (fe_val (p3_X h)) 0) by by apply eqm_mod.
  rewrite EX' in HX. rewrite HY, HZ in EY. split; apply (cancel_l z); try done; simpl.
  - rewrite Z.mul_0_r, Z.mul_comm. by symmetry.
  - rewrite Z.mul_1_r, Z.mul_comm. exact EY.
Qed.

(** The group order annihilates the base point: the code, evaluated. *)
Lemma base_order : peq (smul ell base_point) pzero.
Proof.
  assert (H : scalar_ok ell_bytes) by (apply scalar_bytes_ok; vm_compute; split; [discriminate | reflexivity]).
  destruct (ge_scalarmult_base_ok ell_bytes H) as (h & E & HP).
  apply (is_neutral_ok h).
  - replace ell with (le_combine ell_bytes) by (vm_compute; reflexivity). done.
  - assert (C : from_option is_neutral false (ge_scalarmult_base ell_bytes) = true) by (vm_compute; reflexivity).
    rewrite E in C. exact C.
Qed.

(** ** The neutral element *)

(** A [ge_p3] that [ge_p3_is_point_at_infinity] accepts represents the
    neutral element; the test compares limbs, so it also rejects some
    representations of the neutral element (its callers only lose the
    optimisation of skipping such a point). *)
Theorem point_at_infinity_sound h P : p3_rep h P ->
  (ge_p3_is_point_at_infinity h = true -> peq P pzero) /\
  exists h', p3_rep h' pzero /\ ge_p3_is_point_at_infinity h' = false.
Proof.
  intros HP. split.
  - intros T. apply (is_neutral_ok h P HP). unfold ge_p3_is_point_at_infinity in T.
    rewrite forallb_forall in T.
    destruct HP as (z & _ & [BX _] & [BY _] & [BZ _] & _).
    pose proof (bounded_length _ _ BX) as LX. pose proof (bounded_length _ _ BY) as LY. pose proof (bounded_length _ _ BZ) as LZ.
    assert (EX : p3_X h = fe_0).
    { apply (list_eq_same_length _ _ 10); [done | done |]. intros i x y Hi Hx Hy.
      specialize (T i ltac:(apply in_seq; lia)). apply andb_true_iff in T as [T%Z.eqb_eq _].
      apply Z.lor_eq_0_iff in T as [T _]. unfold at_ in T. rewrite Hx in T. simpl in T. subst.
      do 10 (destruct i; [by injection Hy as <- |]). lia. }
    assert (EY : p3_Y h = p3_Z h).
    { apply (list_eq_same_length _ _ 10); [done | done |]. intros i x y Hi Hx Hy.
      specialize (T i ltac:(apply in_seq; lia)). apply andb_true_iff in T as [_ T%Z.eqb_eq].
      unfold at_ in T. by rewrite Hx, Hy in T. }
    unfold is_neutral. by rewrite EX, EY, Z.sub_diag.
  - exists (mk_p3 fe_0 (2 ^ 25 :: replicate 9 0) (- 2 ^ 25 :: 1 :: replicate 8 0) fe_0).
    split; [| reflexivity]. exists (2 ^ 25). split; [apply nonzero_const; vm_compute; discriminate |].
    split_and!; const.
Qed.

Lemma point_at_infinity_witness : ge_p3_is_point_at_infinity base_p3 = false /\
  (ge_p3_is_point_at_infinity ge_p3_0 = true -> peq pzero pzero).
Proof.
  split; [reflexivity |]. exact (proj1 (point_at_infinity_sound ge_p3_0 pzero p3_0_rep)).
Defined.



(** ** Hashing to a point *)

Lemma fromfe_image_unique u P Q : fromfe_image u P -> fromfe_image u Q -> peq P Q.
Proof.
  assert (K : forall z w sign, nonzero (z + w) ->
    eqm p25519 (py P * (z + w)) (z - w) -> (px P mod p25519) mod 2 = sign ->
    eqm p25519 (py Q * (z + w)) (z - w) -> (px Q mod p25519) mod 2 = sign -> peq P Q).
  { intros z w sign N EP SP EQ SQ. apply encode_inj. unfold encode_point. rewrite SP, SQ. f_equal.
    apply eqm_mod_eq, (cancel_l (z + w)); [done |]. by rewrite !(Z.mul_comm (z + w)), EP, EQ. }
  intros [(S1 & N1 & E1 & F1) | (S1 & N1 & E1 & F1)] [(S2 & N2 & E2 & F2) | (S2 & N2 & E2 & F2)];
    done || by eapply K.
Qed.

(** On every 32-byte input [ge_fromfe_frombytes_vartime] returns: none of
    its assertions fails and nothing overflows; the result represents the point
    of the curve that the Elligator-style map sends the input to, which is
    unique. *)
Theorem ge_fromfe_correct s : is_bytes 32 s ->
  yields (ge_fromfe_frombytes_vartime s) (fun r => exists P, p2_rep r P /\ fromfe_image (le_combine s) P /\
    forall Q, fromfe_image (le_combine s) Q -> peq P Q).
Proof.
  intros Hs. eapply yields_impl; [by apply ge_fromfe_ok |]. cbv beta. intros r (P & HP & IP).
  exists P. split; [done |]. split; [done |]. intros Q. by apply fromfe_image_unique.
Qed.

Lemma ge_fromfe_witness : yields (ge_fromfe_frombytes_vartime ell_bytes) (fun r => exists P, p2_rep r P /\
  fromfe_image (le_combine ell_bytes) P /\ forall Q, fromfe_image (le_combine ell_bytes) Q -> peq P Q).
Proof. exact (ge_fromfe_correct ell_bytes ell_bytes_bytes). Defined.
End GeTheorems.
