(* ===== verification/CurveOrder.v ===== *)
(** The order of the curve.  A finite abelian group is annihilated by its number
    of elements; the curve has points of order [ell] and of order 8, and at most
    [2 p] points, so it has exactly [8 ell] of them and [8 ell P] is the neutral
    element for every point [P].  The protocols of src/crypto/crypto.cpp and
    src/ringct rely on this for the points they multiply by 8. *)
From S2P Require Import Prelude Pack Scalar Primes Group Fe Curve GeCorrect GeEncode GeTables GeTheorems.

Local Open Scope Z_scope.

(** * Finite abelian groups *)

Module Finite.
Import Group.
Local Open Scope group_scope.

Section Sum.
Context {A : Type} `{AbGroup A}.

Definition gsum (l : list A) : A := foldr gadd gzero l.

Lemma gsum_permutation l1 l2 : l1 ≡ₚ l2 -> gsum l1 ≃ gsum l2.
Proof.
  unfold gsum. induction 1 as [| x l1 l2 _ IH | x y l | l1 l2 l3 _ IH1 _ IH2]; simpl; [done | by rewrite IH | | by rewrite IH1].
  by rewrite !gadd_assoc, (gadd_comm y).
Qed.

Lemma gsum_translate a l : gsum (map (gadd a) l) ≃ smul (Z.of_nat (length l)) a ⊕ gsum l.
Proof.
  induction l as [| x l IH]; [by rewrite gadd_0_l |]. cbn [length map gsum foldr].
  fold (gsum (map (gadd a) l)) (gsum l). rewrite IH, Nat2Z.inj_succ, smul_succ.
  by rewrite gadd_swap, (gadd_comm a), <- !gadd_assoc.
Qed.

(** [code] numbers the elements up to the equivalence; [l] lists them all, once. *)
Context (code : A -> Z) (code_eq : forall a b, code a = code b <-> a ≃ b).

Lemma gsum_code l1 l2 : map code l1 ≡ₚ map code l2 -> gsum l1 ≃ gsum l2.
Proof.
  intros (l3 & E & Hp)%Permutation.Permutation_map_inv. rewrite (gsum_permutation _ _ Hp). clear Hp.
  unfold gsum. revert l3 E. induction l1 as [| x l1 IH]; intros [| y l3] E; try done.
  injection E as E1%code_eq E2. simpl. by rewrite E1, (IH _ E2).
Qed.

Lemma NoDup_translate a l : NoDup (map code l) -> NoDup (map code (map (gadd a) l)).
Proof.
  induction l as [| x l IH]; [by intros; constructor |]. simpl. intros [Hx Hl]%list.NoDup_cons. apply list.NoDup_cons. split; [| auto].
  intros (y & Ey & (z & <- & Hz)%list_elem_of_In%in_map_iff)%list_elem_of_fmap. apply Hx.
  apply code_eq in Ey. rewrite (gadd_comm a), (gadd_comm a) in Ey. apply gadd_cancel_r, code_eq in Ey.
  apply list_elem_of_fmap. exists z. split; [done | by apply list_elem_of_In].
Qed.

Lemma finite_exponent l a : NoDup (map code l) -> (forall b, code b ∈ map code l) ->
  smul (Z.of_nat (length l)) a ≃ gzero.
Proof.
  intros N C. assert (E : gsum (map (gadd a) l) ≃ gsum l).
  { apply gsum_code. apply Permutation.NoDup_Permutation_bis.
    - apply NoDup_ListNoDup. by apply NoDup_translate.
    - by rewrite !length_map.
    - intros c (b & <- & _)%in_map_iff. apply list_elem_of_In, C. }
  rewrite gsum_translate in E. apply (gadd_cancel_r _ _ (gsum l)). by rewrite E, gadd_0_l.
Qed.

Lemma smul_gcd n m a : smul n a ≃ gzero -> smul m a ≃ gzero -> smul (Z.gcd n m) a ≃ gzero.
Proof.
  intros En Em. destruct (Z.gcd_bezout n m _ eq_refl) as (u & v & <-).
  by rewrite smul_add, !smul_mul, En, Em, !smul_0, gadd_0_r.
Qed.

Lemma smul_divide n m a : (n | m) -> smul n a ≃ gzero -> smul m a ≃ gzero.
Proof. intros [k ->] E. by rewrite smul_mul, E, smul_0. Qed.

(** A multiple of a point of prime order vanishes only if the order divides it. *)
Lemma order_divide q n a : Z.prime q -> smul q a ≃ gzero -> ~ a ≃ gzero -> smul n a ≃ gzero -> (q | n).
Proof.
  intros Hq Eq Na En. pose proof (smul_gcd _ _ _ En Eq) as E.
  destruct (Znumtheory.Zdivide_dec q n) as [Hd | Hd]; [done |].
  exfalso. apply Na. rewrite Z.gcd_comm in E. pose proof (Z.coprime_prime_l q n Hq Hd) as C.
  unfold Z.coprime in C. by rewrite C in E.
Qed.
End Sum.
End Finite.

(** * The points of the curve *)

Module CurveOrder.
Import Pack Scalar Primes Group Finite Fe Curve GeCorrect GeEncode GeTables GeTheorems.
Local Open Scope group_scope.

Lemma prime_ell : Z.prime ell.
Proof.
  assert (Z.prime 1224481) by (pock 2 [2551]).
  assert (Z.prime 531581) by (pock 2 [3797]).
  assert (Z.prime 1257559732178653) by (pock 2 [1224481; 531581]).
  assert (Z.prime 4434155615661930479) by (pock 2 [1257559732178653]).
  assert (Z.prime 172054593956031949258510691) by (pock 2 [4434155615661930479]).
  assert (Z.prime 19757330305831588566944191468367130476339) by (pock 2 [172054593956031949258510691]).
  assert (Z.prime 276602624281642239937218680557139826668747) by (pock 2 [19757330305831588566944191468367130476339]).
  pose (q := 276602624281642239937218680557139826668747).
  change (Z.prime 7237005577332262213973186563042994240857116359379907606001950938285454250989).
  pock 2 [276602624281642239937218680557139826668747].
Qed.

(** ** Listing the points *)

(** A number below [2 p] that determines the point. *)
Definition point_code (P : point) : Z := py P mod p25519 + p25519 * ((px P mod p25519) mod 2).

Lemma point_code_split P :
  point_code P mod p25519 = py P mod p25519 /\ point_code P / p25519 = (px P mod p25519) mod 2.
Proof.
  unfold point_code. pose proof (Z.mod_pos_bound (py P) p25519 ltac:(done)) as B.
  rewrite Z.mul_comm. split; [rewrite Z_mod_plus_full; by apply Z.mod_small |].
  rewrite Z.div_add by done. by rewrite Z.div_small.
Qed.

Lemma point_code_eq P Q : point_code P = point_code Q <-> P ≃ Q.
Proof.
  split.
  - intros E. destruct (point_code_split P) as [E1 E2], (point_code_split Q) as [F1 F2].
    rewrite E in E1, E2. apply encode_inj. unfold encode_point. congruence.
  - intros [X Y]. unfold point_code. by rewrite (eqm_mod_eq _ _ X), (eqm_mod_eq _ _ Y).
Qed.

Lemma point_code_range P : 0 <= point_code P < 2 * p25519.
Proof.
  unfold point_code. pose proof (Z.mod_pos_bound (py P) p25519 ltac:(done)).
  pose proof (Z.mod_pos_bound (px P mod p25519) 2 ltac:(done)). nia.
Qed.

Definition make_point (xy : Z * Z) : option point :=
  match decide (curve_poly edwards_d xy.1 xy.2 mod p25519 = 0) with
  | left H => Some (mkpoint xy.1 xy.2 (proj1 (zero_test _) (proj2 (Z.eqb_eq _ _) H)))
  | right _ => None
  end.

Lemma make_point_Some xy P : make_point xy = Some P -> px P = xy.1 /\ py P = xy.2.
Proof. unfold make_point. destruct (decide _); [by intros [= <-] | done]. Qed.

Lemma make_point_on P : exists Q, make_point (px P mod p25519, py P mod p25519) = Some Q /\ Q ≃ P.
Proof.
  unfold make_point. destruct (decide _) as [H | H]; simpl in *.
  - eexists. split; [done |]. split; simpl; by apply eqm_mod_r.
  - exfalso. apply H. apply Z.eqb_eq, zero_test. pose proof (p_on P) as E. unfold on_curve in E.
    rewrite <- E. unfold curve_poly. by rewrite !eqm_mod_r.
Qed.

Lemma NoDup_omap_code {X} (f : X -> option point) l : NoDup l ->
  (forall x y P Q, x ∈ l -> y ∈ l -> f x = Some P -> f y = Some Q -> point_code P = point_code Q -> x = y) ->
  NoDup (map point_code (omap f l)).
Proof.
  induction 1 as [| x l Hx Hl IH]; intros I; [constructor |].
  assert (IH' : NoDup (map point_code (omap f l))).
  { apply IH. intros y z P Q Hy Hz. apply I; by apply list_elem_of_further. }
  simpl. destruct (f x) as [P |] eqn:E; [| done]. apply list.NoDup_cons. split; [| done].
  intros (Q & EQ & (y & Hy & Ey)%list_elem_of_omap)%list_elem_of_fmap. apply Hx.
  rewrite (I x y P Q); [done | apply list_elem_of_here | by apply list_elem_of_further | done | done | done].
Qed.

Lemma count_bound (l : list Z) n : 0 <= n -> NoDup l -> Forall (fun c => 0 <= c < n) l -> Z.of_nat (length l) <= n.
Proof.
  intros Hn N F. assert (S : l ⊆+ seqZ 0 n).
  { apply NoDup_submseteq; [done |]. intros c Hc. rewrite list.Forall_forall in F. apply elem_of_seqZ. specialize (F c Hc). lia. }
  apply submseteq_length in S. rewrite length_seqZ in S. lia.
Qed.

Section Points.
Context (coords : list Z) (coords_NoDup : NoDup coords) (coords_spec : forall c, c ∈ coords <-> 0 <= c < p25519).

Definition points : list point := omap make_point (cprod coords coords).

Lemma points_NoDup : NoDup (map point_code points).
Proof.
  apply NoDup_omap_code.
  { apply NoDup_bind; [| | done].
    - intros x1 x2 y _ _ (? & -> & _)%list_elem_of_fmap (? & [= ->] & _)%list_elem_of_fmap. done.
    - intros x _. apply NoDup_fmap_2; [by intros ? ? [= ->] | done]. }
  intros [x y] [x' y'] P Q [Hx Hy]%list_elem_of_cprod [Hx' Hy']%list_elem_of_cprod EP EQ E.
  apply make_point_Some in EP as [EP1 EP2], EQ as [EQ1 EQ2]. apply point_code_eq in E as [X%eqm_mod_eq Y%eqm_mod_eq].
  cbn [fst snd] in *. apply coords_spec in Hx, Hy, Hx', Hy'. rewrite EP1, EQ1 in X. rewrite EP2, EQ2 in Y. rewrite !Z.mod_small in X, Y by done. congruence.
Qed.

Lemma points_complete P : point_code P ∈ map point_code points.
Proof.
  destruct (make_point_on P) as (Q & EQ & HQ). apply list_elem_of_fmap. exists Q.
  split; [symmetry; by apply point_code_eq |]. apply list_elem_of_omap. eexists. split; [| exact EQ].
  apply list_elem_of_cprod. simpl. rewrite !coords_spec. split; by apply Z.mod_pos_bound.
Qed.

Lemma points_exponent P : smul (Z.of_nat (length points)) P ≃ pzero.
Proof. exact (finite_exponent point_code point_code_eq points P points_NoDup points_complete). Qed.

Lemma points_count : 0 < Z.of_nat (length points) <= 2 * p25519.
Proof.
  split.
  - pose proof (points_complete pzero) as H. destruct points; [by apply elem_of_nil in H | simpl; lia].
  - rewrite <- (length_map point_code). apply count_bound; [done | exact points_NoDup |].
    apply list.Forall_forall. intros c (P & -> & _)%list_elem_of_fmap. apply point_code_range.
Qed.
End Points.

(** ** Points of order 8 and [ell] *)

Definition torsion_x : Z := 14399317868200118260347934320527232580618823971194345261214217575416788799818.
Definition torsion_y : Z := 55188659117513257062467267217118295137698188065244968500265048394206261417927.

Lemma torsion_on : on_curve torsion_x torsion_y.
Proof. apply eqm_mod; [done |]. vm_compute. reflexivity. Qed.

Definition torsion_point : point := mkpoint torsion_x torsion_y torsion_on.

Lemma quarter_on : on_curve (- sqrtm1) 0.
Proof. apply eqm_mod; [done |]. vm_compute. reflexivity. Qed.

Lemma half_on : on_curve 0 (-1).
Proof. apply eqm_mod; [done |]. vm_compute. reflexivity. Qed.

Definition quarter_point : point := mkpoint (- sqrtm1) 0 quarter_on.
Definition half_point : point := mkpoint 0 (-1) half_on.

(** Sums of concrete points, by their defining equations. *)
Lemma padd_check P Q R :
  ((1 + cross P Q) * px R - (px P * py Q + px Q * py P)) mod p25519 = 0 ->
  ((1 - cross P Q) * py R - (py P * py Q + px P * px Q)) mod p25519 = 0 -> P ⊕ Q ≃ R.
Proof. intros X Y. symmetry. apply padd_unique; apply eqm_sub_0, zero_test, Z.eqb_eq; assumption. Qed.

Lemma torsion_2 : smul 2 torsion_point ≃ quarter_point.
Proof. apply (padd_check torsion_point torsion_point); vm_compute; reflexivity. Qed.

Lemma torsion_4_half : smul 4 torsion_point ≃ half_point.
Proof.
  rewrite (smul_double 2 torsion_point), torsion_2.
  apply (padd_check quarter_point quarter_point); vm_compute; reflexivity.
Qed.

Lemma torsion_8 : smul 8 torsion_point ≃ pzero.
Proof.
  rewrite (smul_double 4 torsion_point), torsion_4_half.
  apply (padd_check half_point half_point); vm_compute; reflexivity.
Qed.

Lemma torsion_4 : ~ smul 4 torsion_point ≃ pzero.
Proof. rewrite torsion_4_half. intros E%point_code_eq. vm_compute in E. discriminate E. Qed.

Lemma base_nonzero : ~ base_point ≃ pzero.
Proof. intros E%point_code_eq. vm_compute in E. discriminate E. Qed.

Lemma torsion_divide n : smul n torsion_point ≃ pzero -> (8 | n).
Proof.
  intros E. pose proof (smul_gcd _ _ _ E torsion_8) as G.
  assert (D : (Z.gcd n 8 | 8)) by apply Z.gcd_divide_r.
  assert (R : 0 <= Z.gcd n 8 <= 8) by (split; [apply Z.gcd_nonneg | by apply Z.divide_pos_le]).
  destruct (Z.eq_dec (Z.gcd n 8) 8) as [E8 | N8]; [rewrite <- E8; apply Z.gcd_divide_l |].
  exfalso. apply torsion_4. refine (smul_divide (Z.gcd n 8) 4 torsion_point _ G).
  destruct D as [k Hk]. assert (K : exists j, 4 = j * Z.gcd n 8); [| exact K].
  assert (C : Z.gcd n 8 = 1 \/ Z.gcd n 8 = 2 \/ Z.gcd n 8 = 3 \/ Z.gcd n 8 = 4 \/ Z.gcd n 8 = 5 \/
    Z.gcd n 8 = 6 \/ Z.gcd n 8 = 7 \/ Z.gcd n 8 = 0) by lia.
  destruct C as [C | [C | [C | [C | [C | [C | [C | C]]]]]]]; rewrite C in *; try (exfalso; lia);
    [by exists 4 | by exists 2 | by exists 1].
Qed.

Lemma coprime_product a b n : Z.coprime a b -> (a | n) -> (b | n) -> (a * b | n).
Proof.
  intros C [k ->] H. rewrite Z.mul_comm in H. apply Z.gauss in H as [j ->]; [exists j; ring |].
  by rewrite Z.gcd_comm.
Qed.

(** The curve has [8 ell] points. *)
Lemma points_order coords : NoDup coords -> (forall c, c ∈ coords <-> 0 <= c < p25519) ->
  Z.of_nat (length (points coords)) = 8 * ell.
Proof.
  intros N C. pose proof (points_count coords N C) as R. pose proof (points_exponent coords N C) as X.
  set (n := Z.of_nat _) in *. clearbody n.
  assert (D : (8 * ell | n)).
  { apply coprime_product; [reflexivity | apply torsion_divide, X |].
    apply (order_divide (H := curve_group) ell n base_point prime_ell base_order base_nonzero), X. }
  destruct D as [k ->]. assert (B : 2 * p25519 < 2 * (8 * ell)) by reflexivity.
  assert (0 < k < 2); [| nia]. assert (0 < 8 * ell) by reflexivity. nia.
Qed.

Lemma curve_exponent P : smul (8 * ell) P ≃ pzero.
Proof.
  assert (N : NoDup (seqZ 0 p25519)) by apply NoDup_seqZ.
  assert (C : forall c, c ∈ seqZ 0 p25519 <-> 0 <= c < p25519) by (intros c; rewrite elem_of_seqZ; lia).
  rewrite <- (points_order _ N C). by apply points_exponent.
Qed.
End CurveOrder.
