(* ===== verification/Keccak.v ===== *)
(** Keccak: src/crypto/keccak.c and [cn_fast_hash] of src/crypto/hash.c.

    The state is a list of 25 words of 64 bits.  [keccakf] is the permutation as
    the loops of the code update it in place; [keccak] is the one-shot hash,
    [keccak_init], [keccak_update] and [keccak_finish] the incremental one.  A
    call of [local_abort] is [None].  Memory is little-endian, where [swap64le]
    is the identity. *)
From S2P Require Import Prelude Pack.

Local Open Scope Z_scope.

Module Keccak.
Import Pack.

(** ** The permutation *)

Definition keccakf_rndc : list Z :=
  [ 0x0000000000000001; 0x0000000000008082; 0x800000000000808a;
    0x8000000080008000; 0x000000000000808b; 0x0000000080000001;
    0x8000000080008081; 0x8000000000008009; 0x000000000000008a;
    0x0000000000000088; 0x0000000080008009; 0x000000008000000a;
    0x000000008000808b; 0x800000000000008b; 0x8000000000008089;
    0x8000000000008003; 0x8000000000008002; 0x8000000000000080;
    0x000000000000800a; 0x800000008000000a; 0x8000000080008081;
    0x8000000000008080; 0x0000000080000001; 0x8000000080008008 ].

Definition keccakf_rotc : list Z :=
  [ 1; 3; 6; 10; 15; 21; 28; 36; 45; 55; 2; 14;
    27; 41; 56; 8; 25; 43; 62; 18; 39; 61; 20; 44 ].

Definition keccakf_piln : list nat :=
  [ 10; 7; 11; 17; 18; 3; 5; 16; 8; 21; 24; 4;
    15; 23; 19; 13; 12; 2; 20; 14; 22; 9; 6; 1 ]%nat.

(** [ROTL64(x, y)] on [uint64_t]. *)
Definition rotl64 (x y : Z) : Z := Z.lor (u64 (Z.shiftl x y)) (Z.shiftr x (64 - y)).

(** [~x] on [uint64_t]. *)
Definition not64 (x : Z) : Z := Z.lxor x (Z.ones 64).

(** [st[i] ^= t]. *)
Definition xor_at (i : nat) (t : Z) (st : list Z) : list Z := <[i := Z.lxor (at_ st i) t]> st.

Definition theta_bc (st : list Z) : list Z :=
  map (fun i => Z.lxor (Z.lxor (Z.lxor (Z.lxor (at_ st i) (at_ st (i + 5))) (at_ st (i + 10)))
                               (at_ st (i + 15))) (at_ st (i + 20))) (seq 0 5).

Definition theta (st : list Z) : list Z :=
  let bc := theta_bc st in
  foldl (fun st i =>
    let t := Z.lxor (at_ bc ((i + 4) mod 5)) (rotl64 (at_ bc ((i + 1) mod 5)) 1) in
    foldl (fun st j => xor_at (j + i) t st) st [0; 5; 10; 15; 20]%nat) st (seq 0 5).

(** One step of the loop: [bc[0] = st[j]; st[j] = ROTL64(t, rotc[i]); t = bc[0]]. *)
Definition rho_pi_step (s : list Z * Z) (jr : nat * Z) : list Z * Z :=
  let '(st, t) := s in
  let '(j, r) := jr in
  (<[j := rotl64 t r]> st, at_ st j).

Definition rho_pi (st : list Z) : list Z :=
  fst (foldl rho_pi_step (st, at_ st 1) (zip keccakf_piln keccakf_rotc)).

Definition chi (st : list Z) : list Z :=
  foldl (fun st j =>
    let bc := map (fun i => at_ st (j + i)) (seq 0 5) in
    foldl (fun st i => xor_at (j + i) (Z.land (not64 (at_ bc ((i + 1) mod 5))) (at_ bc ((i + 2) mod 5))) st)
      st (seq 0 5)) st [0; 5; 10; 15; 20]%nat.

Definition keccak_round (st : list Z) (rc : Z) : list Z := xor_at 0 rc (chi (rho_pi (theta st))).

Definition keccakf (st : list Z) (rounds : nat) : list Z :=
  foldl keccak_round st (take rounds keccakf_rndc).

(** ** One-shot hashing *)

(** The words of a buffer, eight bytes each. *)
Fixpoint words_of (l : list Z) : list Z :=
  match l with
  | b0 :: b1 :: b2 :: b3 :: b4 :: b5 :: b6 :: b7 :: l =>
      le_combine [b0; b1; b2; b3; b4; b5; b6; b7] :: words_of l
  | _ => []
  end.

Definition bytes_of (st : list Z) : list Z := flat_map (le_split 8) st.

(** [st[i] ^= ws[i]] from the first word on. *)
Fixpoint xor_words (st ws : list Z) : list Z :=
  match st, ws with
  | x :: st, w :: ws => Z.lxor x w :: xor_words st ws
  | st, _ => st
  end.

Definition absorb_block (st : list Z) (block : list Z) : list Z :=
  keccakf (xor_words st (words_of block)) 24.

(** [for ( ; inlen >= rsiz; inlen -= rsiz, in += rsiz)]; [None] when the fuel
    does not suffice. *)
Fixpoint keccak_absorb (fuel rsiz : nat) (st inp : list Z) : option (list Z * list Z) :=
  if (rsiz <=? length inp)%nat then
    match fuel with
    | O => None
    | S fuel => keccak_absorb fuel rsiz (absorb_block st (take rsiz inp)) (drop rsiz inp)
    end
  else Some (st, inp).

(** [temp]: the rest of the input, [1], zeros, and the top bit of the last byte. *)
Definition last_block (rsiz : nat) (inp : list Z) : list Z :=
  let temp := inp ++ 1 :: replicate (rsiz - (length inp + 1)) 0 in
  <[(rsiz - 1)%nat := Z.lor (at_ temp (rsiz - 1)) 0x80]> temp.

Definition keccak (inp : list Z) (mdlen : Z) : option (list Z) :=
  if (mdlen <=? 0) || ((100 <? mdlen) && negb (mdlen =? 200)) then None else
  let rsiz := Z.to_nat (if mdlen =? 200 then 136 else 200 - 2 * mdlen) in
  let rsizw := (rsiz / 8)%nat in
  r ← keccak_absorb (length inp) rsiz (replicate 25 0) inp;
  let '(st, inp) := r in
  let inlen := length inp in
  if ((144 <=? inlen + 1) || (rsiz <? inlen) || (144 <=? rsiz - inlen + inlen + 1) || (rsiz =? 0)
      || (144 <=? rsiz - 1) || (144 <? rsizw * 8))%nat
  then None else
  let st := absorb_block st (last_block rsiz inp) in
  if negb (mdlen mod 8 =? 0) then None else
  Some (take (Z.to_nat mdlen) (bytes_of st)).

Definition keccak1600 (inp : list Z) : option (list Z) := keccak inp 200.

Definition cn_fast_hash (data : list Z) : option (list Z) :=
  state ← keccak1600 data; Some (take 32 state).

(** ** Incremental hashing *)

Record KECCAK_CTX := mk_ctx { hash : list Z; message : list Z; rest : Z }.

Definition KECCAK_FINALIZED : Z := 0x80000000.
Definition KECCAK_BLOCKLEN : nat := 136.

Definition keccak_init : KECCAK_CTX := mk_ctx (replicate 25 0) (replicate 136 0) 0.

(** [memcpy] of [data] to the offset [o] of a buffer. *)
Definition copy_at (o : nat) (data buf : list Z) : list Z :=
  take o buf ++ data ++ drop (o + length data) buf.

(** [while (inlen >= KECCAK_BLOCKLEN)]: an unaligned block goes through
    [message]. *)
Fixpoint update_blocks (fuel : nat) (aligned : bool) (st msg inp : list Z) : list Z * list Z * list Z :=
  match fuel with
  | O => (st, msg, inp)
  | S fuel =>
      if (KECCAK_BLOCKLEN <=? length inp)%nat then
        let block := take KECCAK_BLOCKLEN inp in
        let msg := if aligned then msg else copy_at 0 block msg in
        update_blocks fuel aligned (absorb_block st (if aligned then block else msg)) msg
          (drop KECCAK_BLOCKLEN inp)
      else (st, msg, inp)
  end.

(** The part of [keccak_update] after the partial block: [aligned] tells whether
    the remaining input is 8-byte aligned. *)
Definition update_tail (aligned : bool) (st msg inp : list Z) (rest : Z) : KECCAK_CTX :=
  let '(st, msg, inp) := update_blocks (length inp) aligned st msg inp in
  mk_ctx st (copy_at 0 inp msg) rest.

Definition keccak_update (aligned : bool) (ctx : KECCAK_CTX) (inp : list Z) : option KECCAK_CTX :=
  if negb (Z.land (rest ctx) KECCAK_FINALIZED =? 0) then None else
  let idx := Z.to_nat (rest ctx) in
  let rest' := u64 (rest ctx + Z.of_nat (length inp)) mod 136 in
  if (idx =? 0)%nat then Some (update_tail aligned (hash ctx) (message ctx) inp rest') else
  let left := (KECCAK_BLOCKLEN - idx)%nat in
  let msg := copy_at idx (take (Nat.min (length inp) left) inp) (message ctx) in
  if (length inp <? left)%nat then Some (mk_ctx (hash ctx) msg rest') else
  Some (update_tail aligned (absorb_block (hash ctx) msg) msg (drop left inp) rest').

Definition keccak_finish (ctx : KECCAK_CTX) : KECCAK_CTX * list Z :=
  let ctx :=
    if Z.land (rest ctx) KECCAK_FINALIZED =? 0 then
      let r := Z.to_nat (rest ctx) in
      let msg := copy_at r (replicate (KECCAK_BLOCKLEN - r) 0) (message ctx) in
      let msg := <[r := Z.lor (at_ msg r) 0x01]> msg in
      let msg := <[(KECCAK_BLOCKLEN - 1)%nat := Z.lor (at_ msg (KECCAK_BLOCKLEN - 1)) 0x80]> msg in
      mk_ctx (absorb_block (hash ctx) msg) msg KECCAK_FINALIZED
    else ctx in
  (ctx, take 32 (bytes_of (hash ctx))).
End Keccak.
