(* ===== verification/KeccakCorrect.v ===== *)
(** Correctness of [Keccak]: the permutation is the one of the Keccak reference
    (FIPS 202: theta, rho, pi, chi, iota on the state [A[x,y]], offsets and round
    constants by their definitions), the one-shot hash is the padded sponge and
    never aborts, and hashing in pieces gives the hash of the whole. *)
From S2P Require Import Prelude Pack Keccak.

Local Open Scope Z_scope.

Module KeccakCorrect.
Import Pack Keccak.

(** ** The reference permutation *)

(** The lane [A[x,y]]. *)
Definition lane (st : list Z) (x y : nat) : Z := at_ st (x mod 5 + 5 * (y mod 5)).

Definition of_lanes (f : nat -> nat -> Z) : list Z :=
  map (fun i => f (i mod 5)%nat (i / 5)%nat) (seq 0 25).

Definition ref_column (st : list Z) (x : nat) : Z :=
  Z.lxor (Z.lxor (Z.lxor (Z.lxor (lane st x 0) (lane st x 1)) (lane st x 2)) (lane st x 3)) (lane st x 4).

Definition ref_theta (st : list Z) : list Z :=
  of_lanes (fun x y => Z.lxor (lane st x y)
    (Z.lxor (ref_column st (x + 4)) (rotl64 (ref_column st (x + 1)) 1))).

(** The offsets of rho: [(t+1)(t+2)/2] along the orbit of [(1,0)] under
    [(x,y) -> (y, 2x+3y)]. *)
Fixpoint orbit (n : nat) (x y t : nat) : list (nat * nat * Z) :=
  match n with
  | O => []
  | S n => (x, y, Z.of_nat ((t + 1) * (t + 2) / 2 mod 64)) :: orbit n y ((2 * x + 3 * y) mod 5) (t + 1)
  end.

Definition ref_offset (x y : nat) : Z :=
  match find (fun p => (p.1.1 =? x)%nat && (p.1.2 =? y)%nat) (orbit 24 1 0 0) with
  | Some p => p.2
  | None => 0
  end.

Definition ref_rho (st : list Z) : list Z := of_lanes (fun x y => rotl64 (lane st x y) (ref_offset x y)).

Definition ref_pi (st : list Z) : list Z := of_lanes (fun x y => lane st (x + 3 * y) x).

Definition ref_chi (st : list Z) : list Z :=
  of_lanes (fun x y => Z.lxor (lane st x y) (Z.land (not64 (lane st (x + 1) y)) (lane st (x + 2) y))).

(** The linear feedback shift register of iota, [x^8 + x^6 + x^5 + x^4 + 1]. *)
Definition lfsr_step (r : Z) : Z := let s := Z.shiftl r 1 in if Z.testbit s 8 then Z.lxor s 0x171 else s.

Definition ref_rc (t : nat) : bool := Z.testbit (Nat.iter t lfsr_step 1) 0.

Definition ref_constant (round : nat) : Z :=
  foldr (fun j acc => (if ref_rc (j + 7 * round) then 2 ^ (2 ^ Z.of_nat j - 1) else 0) + acc) 0 (seq 0 7).

Definition ref_iota (round : nat) (st : list Z) : list Z :=
  of_lanes (fun x y => if ((x =? 0) && (y =? 0))%nat then Z.lxor (lane st 0 0) (ref_constant round) else lane st x y).

Definition ref_round (st : list Z) (round : nat) : list Z :=
  ref_iota round (ref_chi (ref_pi (ref_rho (ref_theta st)))).

(** ** Words *)

Definition word (w : Z) : Prop := 0 <= w < 2 ^ 64.

Definition state_ok (st : list Z) : Prop := length st = 25%nat /\ Forall word st.

Lemma word_bits w : word w <-> 0 <= w /\ forall i, 64 <= i -> Z.testbit w i = false.
Proof.
  split.
  - intros [H0 H]. split; [done |]. intros i Hi. rewrite <- (Z.mod_small w (2 ^ 64)) by done.
    apply Z.mod_pow2_bits_high. lia.
  - intros [H0 H]. split; [done |]. destruct (Z.eq_dec w 0) as [-> | N]; [done |].
    apply Z.log2_lt_pow2; [lia |]. destruct (Z.lt_ge_cases (Z.log2 w) 64) as [| G]; [done |].
    specialize (H _ G). rewrite Z.bit_log2 in H by lia. discriminate.
Qed.

Lemma word_lxor a b : word a -> word b -> word (Z.lxor a b).
Proof.
  rewrite !word_bits. intros [A0 A] [B0 B]. split; [by apply Z.lxor_nonneg |].
  intros i Hi. by rewrite Z.lxor_spec, A, B.
Qed.

Lemma word_land a b : word a -> word b -> word (Z.land a b).
Proof.
  rewrite !word_bits. intros [A0 A] [B0 B]. split; [apply Z.land_nonneg; by left |].
  intros i Hi. by rewrite Z.land_spec, A.
Qed.

Lemma word_lor a b : word a -> word b -> word (Z.lor a b).
Proof.
  rewrite !word_bits. intros [A0 A] [B0 B]. split; [by apply Z.lor_nonneg |].
  intros i Hi. by rewrite Z.lor_spec, A, B.
Qed.

Lemma word_not64 a : word a -> word (not64 a).
Proof. intros H. apply word_lxor; [done |]. done. Qed.

(** [rotl64] is the rotation: the high bits come in at the bottom. *)
Lemma rotl64_value x y : word x -> 0 <= y < 64 ->
  rotl64 x y = (x * 2 ^ y) mod 2 ^ 64 + x / 2 ^ (64 - y).
Proof.
  intros [X0 X] Hy. unfold rotl64, u64, wrap. rewrite Z.shiftl_mul_pow2, Z.shiftr_div_pow2 by lia.
  assert (P : 2 ^ 64 = 2 ^ (64 - y) * 2 ^ y) by (rewrite <- Z.pow_add_r by lia; f_equal; lia).
  assert (Q : 0 < 2 ^ (64 - y)) by (apply Z.pow_pos_nonneg; lia).
  rewrite P, Z.mul_mod_distr_r by lia. rewrite Z.lor_comm.
  rewrite <- (Z.shiftl_mul_pow2 _ y) by lia. rewrite lor_shiftl_add; [rewrite Z.shiftl_mul_pow2 by lia; lia | lia |].
  split; [apply Z.div_pos; lia | apply Z.div_lt_upper_bound; lia].
Qed.

Lemma word_rotl64 x y : word x -> 0 <= y < 64 -> word (rotl64 x y).
Proof.
  intros X Hy. unfold rotl64. apply word_lor.
  - unfold u64, wrap, word. apply Z.mod_pos_bound. done.
  - rewrite Z.shiftr_div_pow2 by lia. destruct X as [X0 X1].
    assert (Q : 0 < 2 ^ (64 - y)) by (apply Z.pow_pos_nonneg; lia).
    split; [apply Z.div_pos; lia |]. apply (Z.le_lt_trans _ x); [| done]. apply Z.div_le_upper_bound; [lia | nia].
Qed.

Lemma word_at st i : Forall word st -> word (at_ st i).
Proof.
  intros H. unfold at_. destruct (st !! i) as [w |] eqn:E; simpl; [| done].
  by apply (proj1 (Forall_lookup _ _) H i w).
Qed.

Create HintDb keccak.
#[export] Hint Resolve word_lxor word_land word_not64 word_rotl64 word_at : keccak.

Lemma state_ok_lanes f : (forall x y, word (f x y)) -> state_ok (of_lanes f).
Proof.
  intros H. split; [done |]. apply Forall_forall. intros w (i & <- & _)%in_map_iff. apply H.
Qed.

Lemma word_lane st x y : state_ok st -> word (lane st x y).
Proof. intros [_ H]. by apply word_at. Qed.
#[export] Hint Resolve word_lane : keccak.

Lemma ref_offset_range x y : 0 <= ref_offset x y < 64.
Proof.
  unfold ref_offset. destruct (find _ _) as [p |] eqn:E; [| lia].
  apply find_some in E as [Hin _]. revert Hin.
  assert (C : forallb (fun p => (0 <=? p.2) && (p.2 <? 64)) (orbit 24 1 0 0) = true) by reflexivity.
  rewrite forallb_forall in C. intros Hin%C. lia.
Qed.
#[export] Hint Resolve ref_offset_range : keccak.

Lemma ref_constant_word r : (r < 24)%nat -> word (ref_constant r).
Proof.
  intros Hr. assert (C : forallb (fun r => (0 <=? ref_constant r) && (ref_constant r <? 2 ^ 64)) (seq 0 24) = true)
    by (vm_compute; reflexivity).
  rewrite forallb_forall in C. specialize (C r ltac:(apply in_seq; lia)). unfold word. lia.
Qed.

Lemma ref_column_word st x : state_ok st -> word (ref_column st x).
Proof. intros H. unfold ref_column. repeat apply word_lxor; by apply word_lane. Qed.

Lemma ref_theta_ok st : state_ok st -> state_ok (ref_theta st).
Proof.
  intros H. apply state_ok_lanes. intros x y. apply word_lxor; [by apply word_lane |].
  apply word_lxor; [| apply word_rotl64; [| lia]]; by apply ref_column_word.
Qed.

Lemma ref_rho_ok st : state_ok st -> state_ok (ref_rho st).
Proof. intros H. apply state_ok_lanes. auto with keccak. Qed.

Lemma ref_pi_ok st : state_ok st -> state_ok (ref_pi st).
Proof. intros H. apply state_ok_lanes. auto with keccak. Qed.

Lemma ref_chi_ok st : state_ok st -> state_ok (ref_chi st).
Proof. intros H. apply state_ok_lanes. auto with keccak. Qed.

Lemma ref_round_ok st r : (r < 24)%nat -> state_ok st -> state_ok (ref_round st r).
Proof.
  intros Hr H. pose proof (ref_chi_ok _ (ref_pi_ok _ (ref_rho_ok _ (ref_theta_ok _ H)))) as C.
  unfold ref_round. set (s := ref_chi _) in *. clearbody s. apply state_ok_lanes. intros x y.
  destruct (_ && _); [apply word_lxor; [| by apply ref_constant_word] |]; by apply word_lane.
Qed.

(** ** The code computes the reference *)

Ltac state25 st H :=
  do 25 (destruct st as [| ? st]; [discriminate H |]); destruct st; [| discriminate H].

Ltac eval_state := cbv -[Z.lxor Z.land rotl64 not64].

Lemma theta_ref st : length st = 25%nat -> theta st = ref_theta st.
Proof. intros H. state25 st H. eval_state. reflexivity. Qed.

Lemma rotl64_0 x : word x -> rotl64 x 0 = x.
Proof. intros H. rewrite rotl64_value by done. rewrite Z.mul_1_r, Z.mod_small, Z.div_small by done. lia. Qed.

Lemma rho_pi_ref st : state_ok st -> rho_pi st = ref_pi (ref_rho st).
Proof.
  intros [H W]. state25 st H. apply Forall_cons_iff in W as [W _]. eval_state. by rewrite rotl64_0.
Qed.

Lemma chi_ref st : length st = 25%nat -> chi st = ref_chi st.
Proof. intros H. state25 st H. eval_state. reflexivity. Qed.

Lemma iota_ref st r : length st = 25%nat -> xor_at 0 (ref_constant r) st = ref_iota r st.
Proof. intros H. state25 st H. cbv -[Z.lxor ref_constant]. reflexivity. Qed.

Lemma keccak_round_ref st r : state_ok st -> keccak_round st (ref_constant r) = ref_round st r.
Proof.
  intros H. unfold keccak_round, ref_round. rewrite theta_ref by apply H.
  pose proof (ref_theta_ok _ H) as T. rewrite rho_pi_ref by done.
  pose proof (ref_pi_ok _ (ref_rho_ok _ T)) as Q. rewrite chi_ref by apply Q.
  by rewrite iota_ref by apply (ref_chi_ok _ Q).
Qed.

Lemma constants_ref : keccakf_rndc = map ref_constant (seq 0 24).
Proof. vm_compute. reflexivity. Qed.

Lemma keccakf_ref st : state_ok st ->
  keccakf st 24 = foldl ref_round st (seq 0 24) /\ state_ok (keccakf st 24).
Proof.
  intros H. unfold keccakf. change (take 24 keccakf_rndc) with keccakf_rndc. rewrite constants_ref.
  assert (G : Forall (fun r => r < 24)%nat (seq 0 24)) by (apply Forall_forall; intros r Hr%in_seq; lia).
  revert st H. induction G as [| r rs Hr _ IH]; intros st H; simpl; [done |].
  rewrite keccak_round_ref by done. by apply IH, ref_round_ok.
Qed.

(** ** The sponge *)

Lemma words_of_words l : Forall is_byte l -> Forall word (words_of l).
Proof.
  remember (length l) as n eqn:E. revert l E. induction (lt_wf n) as [n _ IH]. intros l -> H.
  do 8 (destruct l as [| ? l]; [constructor |]).
  do 8 (apply Forall_cons_iff in H as [? H]). constructor.
  - split; [| ]; unfold is_byte in *; cbn [le_combine]; lia.
  - eapply IH; [| reflexivity | done]. simpl. lia.
Qed.

Lemma xor_words_ok st ws : state_ok st -> Forall word ws -> state_ok (xor_words st ws).
Proof.
  intros [L W]. split.
  - rewrite <- L. clear L W H. revert ws. induction st as [| x st IH]; intros [| w ws]; simpl; auto.
  - clear L. revert ws H. induction W as [| x st Hx HW IH]; intros [| w ws] H; simpl; try by constructor.
    apply Forall_cons_iff in H as [? ?]. constructor; [by apply word_lxor | by apply IH].
Qed.

Lemma absorb_block_ok st b : state_ok st -> Forall is_byte b -> state_ok (absorb_block st b).
Proof. intros H B. by apply keccakf_ref, xor_words_ok, words_of_words. Qed.

(** The whole blocks of [n] bytes, and what is left. *)
Definition blocks (n : nat) (l : list Z) : list (list Z) :=
  map (fun i => take n (drop (n * i) l)) (seq 0 (length l / n)).

Definition tail_of (n : nat) (l : list Z) : list Z := drop (n * (length l / n)) l.

Lemma blocks_short n l : (length l < n)%nat -> blocks n l = [] /\ tail_of n l = l.
Proof.
  intros H. unfold blocks, tail_of. rewrite Nat.div_small by done. by rewrite Nat.mul_0_r.
Qed.

Lemma blocks_long n l : (0 < n <= length l)%nat ->
  blocks n l = take n l :: blocks n (drop n l) /\ tail_of n l = tail_of n (drop n l).
Proof.
  intros H. assert (E : (length l / n = S (length (drop n l) / n))%nat).
  { rewrite length_drop. replace (length l) with (1 * n + (length l - n))%nat at 1 by lia.
    rewrite Nat.div_add_l by lia. lia. }
  unfold blocks, tail_of. rewrite E. split.
  - cbn [seq map]. rewrite Nat.mul_0_r, drop_0. f_equal. rewrite <- seq_shift, map_map.
    apply map_ext. intros i. rewrite drop_drop. do 2 f_equal. lia.
  - rewrite drop_drop. f_equal. lia.
Qed.

Lemma blocks_ind (n : nat) (Hn : (0 < n)%nat) (P : list Z -> Prop) :
  (forall l, (length l < n)%nat -> P l) ->
  (forall l, (n <= length l)%nat -> P (drop n l) -> P l) -> forall l, P l.
Proof.
  intros Hs Hl l. remember (length l) as k eqn:E. revert l E.
  induction (lt_wf k) as [k _ IH]. intros l ->. destruct (decide (length l < n)%nat) as [|]; [by apply Hs |].
  apply Hl; [lia |]. eapply IH; [| reflexivity]. rewrite length_drop. lia.
Qed.

Lemma keccak_absorb_S fuel n st l : (n <= length l)%nat ->
  keccak_absorb (S fuel) n st l = keccak_absorb fuel n (absorb_block st (take n l)) (drop n l).
Proof. intros H. cbn [keccak_absorb]. by rewrite (proj2 (Nat.leb_le _ _)) by done. Qed.

Lemma keccak_absorb_ok n st l fuel : (0 < n)%nat -> (length l <= fuel)%nat ->
  keccak_absorb fuel n st l = Some (foldl absorb_block st (blocks n l), tail_of n l).
Proof.
  intros Hn. revert st fuel. induction l as [l Hl | l Hl IH] using (blocks_ind n Hn); intros st fuel Hf.
  - destruct (blocks_short n l Hl) as [-> ->]. destruct fuel; simpl;
      rewrite (proj2 (Nat.leb_gt _ _)) by done; done.
  - destruct (blocks_long n l) as [-> ->]; [lia |]. destruct fuel as [| fuel]; [lia |].
    rewrite keccak_absorb_S by done. apply IH. rewrite length_drop. lia.
Qed.

Lemma tail_of_length n l : (0 < n)%nat -> length (tail_of n l) = (length l mod n)%nat.
Proof. intros H. unfold tail_of. rewrite length_drop, Nat.Div0.mod_eq. done. Qed.

Lemma blocks_app n l b : (0 < n)%nat ->
  blocks n (l ++ b) = blocks n l ++ blocks n (tail_of n l ++ b) /\
  tail_of n (l ++ b) = tail_of n (tail_of n l ++ b).
Proof.
  intros Hn. induction l as [l Hl | l Hl [IH1 IH2]] using (blocks_ind n Hn).
  - by destruct (blocks_short n l Hl) as [-> ->].
  - destruct (blocks_long n (l ++ b)) as [-> ->]; [rewrite length_app; lia |].
    destruct (blocks_long n l) as [-> ->]; [lia |].
    rewrite take_app_le, drop_app_le by lia. rewrite IH1, IH2. done.
Qed.

Lemma blocks_one n b : (0 < n)%nat -> length b = n -> blocks n b = [b].
Proof.
  intros Hn Hb. destruct (blocks_long n b) as [-> _]; [lia |].
  rewrite take_ge, drop_ge by lia. by destruct (blocks_short n [] Hn) as [-> _].
Qed.

(** The multi-rate padding [1 0* 1] of Keccak, in bytes. *)
Definition padding (n k : nat) : list Z :=
  if (k + 1 =? n)%nat then [0x81] else 1 :: replicate (n - k - 2) 0 ++ [0x80].

Definition sponge (m : list Z) : list Z :=
  foldl absorb_block (replicate 25 0) (blocks 136 (m ++ padding 136 (length m mod 136))).

Definition keccak256 (m : list Z) : list Z := take 32 (bytes_of (sponge m)).

Lemma last_block_padding n t : (length t < n)%nat -> last_block n t = t ++ padding n (length t).
Proof.
  intros H. unfold last_block, padding. destruct (Nat.eqb_spec (length t + 1) n) as [<- | N].
  - rewrite Nat.sub_diag. replace (length t + 1 - 1)%nat with (length t + 0)%nat by lia.
    rewrite insert_app_r. unfold at_. rewrite lookup_app_r by lia.
    replace (length t + 0 - length t)%nat with O by lia. reflexivity.
  - replace (n - (length t + 1))%nat with (n - length t - 2 + 1)%nat by lia. rewrite replicate_add. simpl replicate at 2 4.
    set (z := replicate (n - length t - 2) 0).
    assert (Lz : length (t ++ 1 :: z) = (n - 1)%nat) by (unfold z; rewrite length_app, length_cons, length_replicate; lia).
    replace (t ++ 1 :: z ++ [0]) with ((t ++ 1 :: z) ++ [0]) by (by rewrite <- app_assoc).
    replace (t ++ 1 :: z ++ [128]) with ((t ++ 1 :: z) ++ [128]) by (by rewrite <- app_assoc).
    replace (n - 1)%nat with (length (t ++ 1%Z :: z) + 0)%nat by lia.
    rewrite insert_app_r. unfold at_. rewrite lookup_app_r, Nat.add_0_r, Nat.sub_diag by lia. reflexivity.
Qed.

Lemma padding_length n k : (k < n)%nat -> length (padding n k) = (n - k)%nat.
Proof.
  intros H. unfold padding. destruct (Nat.eqb_spec (k + 1) n); simpl; [lia |].
  rewrite length_app, length_replicate. simpl. lia.
Qed.

Lemma sponge_last m : sponge m =
  absorb_block (foldl absorb_block (replicate 25 0) (blocks 136 m)) (last_block 136 (tail_of 136 m)).
Proof.
  assert (L := tail_of_length 136 m ltac:(lia)). pose proof (Nat.mod_upper_bound (length m) 136 ltac:(lia)) as B.
  unfold sponge. destruct (blocks_app 136 m (padding 136 (length m mod 136))) as [-> _]; [lia |].
  rewrite (blocks_one 136 (_ ++ _)) by (rewrite ?length_app, ?padding_length, ?L; lia).
  rewrite foldl_app, last_block_padding, L by lia. reflexivity.
Qed.

Lemma bytes_of_length st : length (bytes_of st) = (8 * length st)%nat.
Proof.
  unfold bytes_of. induction st as [| x st IH]; [done |]. cbn [flat_map length].
  rewrite length_app, IH. change (length (le_split 8 x)) with 8%nat. lia.
Qed.

Lemma bytes_of_bytes st : Forall is_byte (bytes_of st).
Proof.
  induction st as [| x st IH]; [constructor |]. apply Forall_app. split; [apply le_split_bytes | exact IH].
Qed.

Lemma blocks_bytes n l : Forall is_byte l -> Forall (Forall is_byte) (blocks n l).
Proof.
  intros H. apply Forall_forall. intros b (i & <- & _)%in_map_iff. by apply Forall_take, Forall_drop.
Qed.

Lemma absorb_ok st bs : state_ok st -> Forall (Forall is_byte) bs -> state_ok (foldl absorb_block st bs).
Proof. intros H B. revert st H. induction B as [| b bs Hb _ IH]; intros st H; simpl; auto using absorb_block_ok. Qed.

Lemma zero_state_ok : state_ok (replicate 25 0).
Proof. split; [done |]. by apply Forall_replicate. Qed.

Lemma padding_bytes n k : Forall is_byte (padding n k).
Proof.
  unfold padding. destruct (_ =? _)%nat; [by repeat constructor |]. constructor; [done |].
  apply Forall_app. split; [by apply Forall_replicate | by repeat constructor].
Qed.

Lemma sponge_ok m : Forall is_byte m -> state_ok (sponge m).
Proof. intros H. apply absorb_ok; [apply zero_state_ok |]. apply blocks_bytes, Forall_app. auto using padding_bytes. Qed.

(** The digest lengths [keccak] is defined for, with their block lengths. *)
Definition rate_of (mdlen : Z) : option nat :=
  if mdlen =? 200 then Some 136%nat
  else if (32 <=? mdlen) && (mdlen <=? 96) && (mdlen mod 8 =? 0) then Some (Z.to_nat (200 - 2 * mdlen)) else None.

Lemma keccak_general m mdlen rsiz : rate_of mdlen = Some rsiz ->
  keccak m mdlen = Some (take (Z.to_nat mdlen) (bytes_of
    (absorb_block (foldl absorb_block (replicate 25 0) (blocks rsiz m)) (last_block rsiz (tail_of rsiz m))))).
Proof.
  intros Hr. unfold rate_of in Hr.
  assert (G0 : (mdlen <=? 0) || ((100 <? mdlen) && negb (mdlen =? 200)) = false /\ mdlen mod 8 =? 0 = true /\
    Z.to_nat (if mdlen =? 200 then 136 else 200 - 2 * mdlen) = rsiz /\ (0 < rsiz <= 136)%nat).
  { destruct (Z.eqb_spec mdlen 200) as [-> |]; [injection Hr as <-; repeat split; lia |].
    destruct (_ && _) eqn:E; [| discriminate]. injection Hr as <-. rewrite !andb_true_iff, !Z.leb_le in E.
    split; [| split; [tauto | split; lia]]. rewrite orb_false_iff, andb_false_iff, Z.leb_gt, Z.ltb_ge. lia. }
  destruct G0 as (G1 & G2 & G3 & G4). unfold keccak. rewrite G1, G3, keccak_absorb_ok by lia. cbn [mbind option_bind].
  pose proof (tail_of_length rsiz m ltac:(lia)) as L. pose proof (Nat.mod_upper_bound (length m) rsiz ltac:(lia)) as B.
  assert (G : ((144 <=? length (tail_of rsiz m) + 1) || (rsiz <? length (tail_of rsiz m))
    || (144 <=? rsiz - length (tail_of rsiz m) + length (tail_of rsiz m) + 1) || (rsiz =? 0)
    || (144 <=? rsiz - 1) || (144 <? rsiz / 8 * 8))%nat = false).
  { rewrite L. pose proof (Nat.Div0.mul_div_le rsiz 8).
    rewrite !orb_false_iff, !Nat.leb_gt, !Nat.ltb_ge, Nat.eqb_neq. lia. }
  by rewrite G, G2.
Qed.

Lemma keccak1600_sponge m : Forall is_byte m -> keccak1600 m = Some (bytes_of (sponge m)).
Proof.
  intros Hm. unfold keccak1600. rewrite (keccak_general m 200 136) by done. rewrite <- sponge_last.
  f_equal. apply take_ge. rewrite bytes_of_length, (proj1 (sponge_ok m Hm)). done.
Qed.

Lemma keccak_32 m : keccak m 32 = Some (keccak256 m).
Proof. rewrite (keccak_general m 32 136) by done. by rewrite <- sponge_last. Qed.

Lemma cn_fast_hash_ok m : Forall is_byte m ->
  cn_fast_hash m = Some (keccak256 m) /\ is_bytes 32 (keccak256 m).
Proof.
  intros Hm. unfold cn_fast_hash. rewrite keccak1600_sponge by done. split; [done |].
  split; [| by apply Forall_take, bytes_of_bytes].
  unfold keccak256. rewrite length_take, bytes_of_length, (proj1 (sponge_ok m Hm)). lia.
Qed.

(** ** Hashing in pieces *)

(** [ctx] has absorbed [m]: whole blocks in the state, the rest in [message]. *)
Record absorbed (ctx : KECCAK_CTX) (m : list Z) : Prop := {
  a_hash : hash ctx = foldl absorb_block (replicate 25 0) (blocks 136 m);
  a_len : length (message ctx) = 136%nat;
  a_rest : rest ctx = Z.of_nat (length m mod 136);
  a_msg : take (length m mod 136) (message ctx) = tail_of 136 m;
}.

Lemma copy_at_length o d buf : (o + length d <= length buf)%nat -> length (copy_at o d buf) = length buf.
Proof. intros H. unfold copy_at. rewrite !length_app, length_take, length_drop. lia. Qed.

Lemma copy_at_take o d buf : (o + length d <= length buf)%nat -> take (o + length d) (copy_at o d buf) = take o buf ++ d.
Proof.
  intros H. unfold copy_at. rewrite app_assoc. apply take_app_length'. rewrite length_app, length_take. lia.
Qed.

Lemma copy_at_full o d buf : (o + length d = length buf)%nat -> copy_at o d buf = take o buf ++ d.
Proof. intros H. unfold copy_at. rewrite drop_ge by lia. by rewrite app_nil_r. Qed.

Lemma update_blocks_ok al st msg inp fuel : length msg = 136%nat -> (length inp <= fuel)%nat ->
  exists msg', update_blocks fuel al st msg inp = (foldl absorb_block st (blocks 136 inp), msg', tail_of 136 inp) /\
    length msg' = 136%nat.
Proof.
  revert st msg fuel. induction inp as [l Hl | l Hl IH] using (blocks_ind 136 ltac:(lia)); intros st msg fuel Hm Hf.
  - destruct (blocks_short 136 l Hl) as [-> ->]. exists msg. split; [| done].
    destruct fuel; [done |]. cbn [update_blocks]. by rewrite (proj2 (Nat.leb_gt _ _)) by done.
  - destruct (blocks_long 136 l) as [-> ->]; [lia |]. destruct fuel as [| fuel]; [lia |]. cbn [update_blocks].
    rewrite (proj2 (Nat.leb_le _ _)) by done. cbn [foldl].
    assert (E : copy_at 0 (take KECCAK_BLOCKLEN l) msg = take 136 l).
    { rewrite copy_at_full; [done |]. rewrite length_take. unfold KECCAK_BLOCKLEN. lia. }
    destruct al; rewrite ?E; apply IH; rewrite ?length_drop, ?length_take; unfold KECCAK_BLOCKLEN; lia.
Qed.

Lemma update_tail_ok al st msg inp r : length msg = 136%nat -> let ctx := update_tail al st msg inp r in
  hash ctx = foldl absorb_block st (blocks 136 inp) /\ length (message ctx) = 136%nat /\ rest ctx = r /\
  take (length inp mod 136) (message ctx) = tail_of 136 inp.
Proof.
  intros Hm. unfold update_tail.
  destruct (update_blocks_ok al st msg inp (length inp) Hm ltac:(lia)) as (msg' & -> & Hm'). cbn [hash message rest].
  pose proof (tail_of_length 136 inp ltac:(lia)) as L. pose proof (Nat.mod_upper_bound (length inp) 136 ltac:(lia)).
  split; [done |]. split; [rewrite copy_at_length; lia |]. split; [done |].
  rewrite <- L. exact (copy_at_take 0 (tail_of 136 inp) msg' ltac:(lia)).
Qed.

Lemma not_finalized r : (r < 136)%nat -> Z.land (Z.of_nat r) KECCAK_FINALIZED =? 0 = true.
Proof.
  intros H. assert (C : forallb (fun r => Z.land (Z.of_nat r) KECCAK_FINALIZED =? 0) (seq 0 136) = true) by reflexivity.
  rewrite forallb_forall in C. apply C, in_seq. lia.
Qed.

Lemma rest_add (m inp : list Z) : Z.of_nat (length inp) < 2 ^ 63 ->
  u64 (Z.of_nat (length m mod 136) + Z.of_nat (length inp)) mod 136 = Z.of_nat (length (m ++ inp) mod 136).
Proof.
  intros H. pose proof (Nat.mod_upper_bound (length m) 136 ltac:(lia)).
  rewrite wrap_small by lia. rewrite length_app, !Nat2Z.inj_mod, Nat2Z.inj_add.
  change (Z.of_nat 136) with 136. by rewrite Zplus_mod_idemp_l.
Qed.

Lemma keccak_update_ok al ctx m inp : absorbed ctx m -> Z.of_nat (length inp) < 2 ^ 63 ->
  exists ctx', keccak_update al ctx inp = Some ctx' /\ absorbed ctx' (m ++ inp).
Proof.
  intros [Hh Hl Hr Hm] Hi. pose proof (Nat.mod_upper_bound (length m) 136 ltac:(lia)) as B.
  unfold keccak_update. rewrite Hr, not_finalized, rest_add, Nat2Z.id by done. cbn [negb].
  pose proof (tail_of_length 136 m ltac:(lia)) as Lt. set (k := (length m mod 136)%nat) in *.
  destruct (blocks_app 136 m inp ltac:(lia)) as [Eb Et].
  pose proof (tail_of_length 136 (m ++ inp) ltac:(lia)) as L'.
  remember (Z.of_nat (length (m ++ inp) mod 136)) as r eqn:Er.
  destruct (Nat.eqb_spec k 0) as [K0 | K0].
  { eexists. split; [reflexivity |].
    assert (T0 : tail_of 136 m = []) by (apply nil_length_inv; lia). rewrite T0 in Eb, Et. simpl in Eb, Et.
    destruct (update_tail_ok al (hash ctx) (message ctx) inp r Hl) as (U1 & U2 & U3 & U4).
    assert (Em : (length (m ++ inp) mod 136 = length inp mod 136)%nat) by (rewrite <- L', Et; apply tail_of_length; lia).
    split; [by rewrite U1, Hh, Eb, foldl_app | done | by rewrite U3 | by rewrite Em, U4, Et]. }
  unfold KECCAK_BLOCKLEN. destruct (Nat.ltb_spec (length inp) (136 - k)) as [S | S].
  { eexists. split; [reflexivity |]. rewrite Nat.min_l, take_ge by lia.
    destruct (blocks_short 136 (tail_of 136 m ++ inp)) as [Sb St]; [rewrite length_app; lia |].
    rewrite Sb in Eb. rewrite St in Et.
    split; cbn [hash message rest]; [by rewrite Hh, Eb, app_nil_r | rewrite copy_at_length; lia | done |].
    assert (Em : (length (m ++ inp) mod 136 = k + length inp)%nat) by (rewrite <- L', Et, length_app; lia).
    by rewrite Em, copy_at_take, Hm, Et by lia. }
  eexists. split; [reflexivity |]. rewrite Nat.min_r by lia.
  assert (Lk : length (take (136 - k) inp) = (136 - k)%nat) by (rewrite length_take; lia).
  rewrite copy_at_full by lia. rewrite Hm.
  set (blk := tail_of 136 m ++ take (136 - k) inp). assert (Lb : length blk = 136%nat) by (unfold blk; rewrite length_app; lia).
  destruct (update_tail_ok al (absorb_block (hash ctx) blk) blk (drop (136 - k) inp) r Lb)
    as (U1 & U2 & U3 & U4).
  assert (Es : tail_of 136 m ++ inp = blk ++ drop (136 - k) inp) by (unfold blk; by rewrite <- app_assoc, take_drop).
  destruct (blocks_long 136 (blk ++ drop (136 - k) inp)) as [Lg1 Lg2]; [rewrite length_app; lia |].
  rewrite take_app_length', drop_app_length' in Lg1 by done. rewrite drop_app_length' in Lg2 by done.
  rewrite Es, Lg1 in Eb. rewrite Es, Lg2 in Et.
  assert (Em : (length (m ++ inp) mod 136 = length (drop (136 - k) inp) mod 136)%nat)
    by (rewrite <- L', Et; apply tail_of_length; lia).
  split; [by rewrite U1, Hh, Eb, foldl_app | done | by rewrite U3 | by rewrite Em, U4, Et].
Qed.

Lemma finish_block r t : (r < 136)%nat -> length t = r ->
  let msg := t ++ replicate (136 - r) 0 in
  let msg := <[r := Z.lor (at_ msg r) 1]> msg in
  <[135%nat := Z.lor (at_ msg 135) 128]> msg = last_block 136 t.
Proof.
  intros Hr <-. cbv zeta.
  assert (M : <[length t := Z.lor (at_ (t ++ replicate (136 - length t) 0) (length t)) 1]> (t ++ replicate (136 - length t) 0)
    = t ++ 1 :: replicate (136 - (length t + 1)) 0).
  { replace (136 - length t)%nat with (S (136 - (length t + 1))) by lia. cbn [replicate].
    unfold at_. rewrite list_lookup_middle by done. rewrite <- (Nat.add_0_r (length t)) at 1. by rewrite insert_app_r. }
  by rewrite M.
Qed.

Lemma keccak_finish_ok ctx m : absorbed ctx m -> snd (keccak_finish ctx) = keccak256 m.
Proof.
  intros [Hh Hl Hr Hm]. pose proof (Nat.mod_upper_bound (length m) 136 ltac:(lia)) as B.
  pose proof (tail_of_length 136 m ltac:(lia)) as Lt.
  pose proof (not_finalized _ B) as NF. unfold keccak_finish, keccak256. cbn [snd]. rewrite Hr, NF.
  rewrite (Nat2Z.id (length m mod 136)).
  cbn [hash]. do 2 f_equal. rewrite sponge_last, Hh. apply (f_equal (absorb_block _)).
  unfold KECCAK_BLOCKLEN. rewrite copy_at_full, Hm by (rewrite length_replicate; lia).
  exact (finish_block _ (tail_of 136 m) B Lt).
Qed.

Lemma absorbed_init : absorbed keccak_init [].
Proof. by split. Qed.

(** A sequence of [keccak_update] calls, each with the alignment of its input. *)
Fixpoint keccak_updates (ctx : KECCAK_CTX) (parts : list (bool * list Z)) : option KECCAK_CTX :=
  match parts with
  | [] => Some ctx
  | (al, p) :: parts => ctx ← keccak_update al ctx p; keccak_updates ctx parts
  end.

Lemma keccak_updates_ok ctx m parts : absorbed ctx m -> Forall (fun p => Z.of_nat (length p.2) < 2 ^ 63) parts ->
  exists ctx', keccak_updates ctx parts = Some ctx' /\ absorbed ctx' (m ++ concat (map snd parts)).
Proof.
  intros H F. revert ctx m H. induction F as [| [al p] parts Hp _ IH]; intros ctx m H; simpl.
  - exists ctx. by rewrite app_nil_r.
  - destruct (keccak_update_ok al ctx m p H Hp) as (ctx1 & -> & H1). cbn [mbind option_bind].
    destruct (IH _ _ H1) as (ctx2 & E & H2). exists ctx2. split; [done |]. by rewrite app_assoc.
Qed.

(** C38: the permutation [keccakf] is the Keccak-f[1600] of the reference, with
    the offsets of rho and the round constants given by their definitions, and
    it maps states of 25 64-bit words to such states. *)
Theorem keccakf_reference st : state_ok st ->
  keccakf st 24 = foldl ref_round st (seq 0 24) /\ state_ok (keccakf st 24).
Proof. apply keccakf_ref. Qed.

Lemma keccakf_witness : state_ok (keccakf (replicate 25 0) 24).
Proof. exact (proj2 (keccakf_reference (replicate 25 0) zero_state_ok)). Defined.



(** Hashing a message in any pieces, aligned or not, with [keccak_init],
    [keccak_update] and [keccak_finish] gives the one-shot [cn_fast_hash] of
    their concatenation, and [keccak_update] refuses a finished context. *)
Theorem keccak_incremental parts :
  Forall (fun p => Z.of_nat (length p.2) < 2 ^ 63) parts -> Forall is_byte (concat (map snd parts)) ->
  exists ctx, keccak_updates keccak_init parts = Some ctx /\
    cn_fast_hash (concat (map snd parts)) = Some (snd (keccak_finish ctx)) /\
    forall al p, keccak_update al (fst (keccak_finish ctx)) p = None.
Proof.
  intros F B. destruct (keccak_updates_ok _ _ _ absorbed_init F) as (ctx & E & H). exists ctx.
  split; [done |]. rewrite (keccak_finish_ok _ _ H). split; [by apply cn_fast_hash_ok |].
  intros al p. destruct H as [_ _ Hr _]. unfold keccak_finish. cbn [fst].
  rewrite Hr, (not_finalized _ (Nat.mod_upper_bound (length _) 136 ltac:(lia))). reflexivity.
Qed.

Lemma keccak_incremental_witness : exists ctx, keccak_updates keccak_init [(true, [97; 98]); (false, [99])] = Some ctx /\
    cn_fast_hash [97; 98; 99] = Some (snd (keccak_finish ctx)) /\
    forall al p, keccak_update al (fst (keccak_finish ctx)) p = None.
Proof.
  apply (keccak_incremental [(true, [97; 98]); (false, [99])]); repeat constructor; done.
Defined.

Lemma tail_bytes n l : Forall is_byte l -> Forall is_byte (tail_of n l).
Proof. apply Forall_drop. Qed.

Lemma rate_of_range mdlen rsiz : rate_of mdlen = Some rsiz -> 0 <= mdlen <= 200 /\ (0 < rsiz)%nat.
Proof.
  unfold rate_of. intros Hr. destruct (Z.eqb_spec mdlen 200) as [-> |]; [injection Hr as <-; lia |].
  destruct (_ && _) eqn:E; [| discriminate]. injection Hr as <-. rewrite !andb_true_iff, !Z.leb_le in E. lia.
Qed.

Lemma digest_length st n : state_ok st -> 0 <= n <= 200 ->
  length (take (Z.to_nat n) (bytes_of st)) = Z.to_nat n /\ Forall is_byte (take (Z.to_nat n) (bytes_of st)).
Proof.
  intros [L _] Hn. split; [| apply Forall_take, bytes_of_bytes]. rewrite length_take, bytes_of_length, L. lia.
Qed.

Lemma final_state_ok rsiz m : Forall is_byte m -> (0 < rsiz)%nat ->
  state_ok (absorb_block (foldl absorb_block (replicate 25 0) (blocks rsiz m)) (last_block rsiz (tail_of rsiz m))).
Proof.
  intros Hm Hr. pose proof (tail_of_length rsiz m Hr) as L. pose proof (Nat.mod_upper_bound (length m) rsiz ltac:(lia)) as B.
  apply absorb_block_ok; [apply absorb_ok; [apply zero_state_ok | by apply blocks_bytes] |].
  rewrite last_block_padding by lia. apply Forall_app. auto using padding_bytes, tail_bytes.
Qed.

Lemma absorb_stuck fuel st m : keccak_absorb fuel 0 st m = None.
Proof.
  revert st m. induction fuel as [| fuel IH]; intros st m; [done |].
  rewrite keccak_absorb_S by lia. apply IH.
Qed.

(** [keccak] returns a digest of the length asked for when it is 200 or a
    multiple of 8 from 32 to 96, for every input; for the length 100, which
    passes the test of the arguments, the block length is zero and the absorbing
    loop never ends, so that the test [rsiz == 0] after it is not reached. *)
Theorem keccak_lengths m mdlen rsiz : Forall is_byte m -> rate_of mdlen = Some rsiz ->
  yields (keccak m mdlen) (fun md => length md = Z.to_nat mdlen /\ Forall is_byte md) /\
  forall fuel, keccak_absorb fuel (Z.to_nat (200 - 2 * 100)) (replicate 25 0) m = None.
Proof.
  intros Hm Hr. destruct (rate_of_range _ _ Hr) as [R1 R2]. split; [| intros fuel; apply absorb_stuck].
  eexists. split; [exact (keccak_general m mdlen rsiz Hr) |]. exact (digest_length _ _ (final_state_ok rsiz m Hm R2) R1).
Qed.

Lemma keccak_lengths_witness :
  yields (keccak [1; 2; 3] 64) (fun md => length md = 64%nat /\ Forall is_byte md).
Proof.
  assert (H : Forall is_byte [1; 2; 3]) by (repeat constructor; done).
  exact (proj1 (keccak_lengths [1; 2; 3] 64 72 H eq_refl)).
Defined.
End KeccakCorrect.
