(* ===== verification/Random.v ===== *)
(** The random generator of src/crypto/random.c: a 200-byte state that the Keccak
    permutation advances, read 136 bytes at a time.  The operating system's
    bytes that seed it are an argument of [init_random].  With [NDEBUG] false the
    assertions on [curstate] are checked, and a failed one is [None]. *)
From S2P Require Import Prelude Pack Keccak KeccakCorrect.

Local Open Scope Z_scope.

Module Random.
Import Pack Keccak KeccakCorrect.

Definition HASH_DATA_AREA : nat := 136.

(** [union hash_state], read as its 200 bytes. *)
Definition hash_permutation (state : list Z) : list Z := bytes_of (keccakf (words_of state) 24).

(** [memcpy(&state, src, length src)]. *)
Definition overwrite (src dst : list Z) : list Z := src ++ drop (length src) dst.

(** [for (i = 0; i < round_bytes; ++i) state.b[i] ^= ptr[i]]. *)
Fixpoint xor_bytes (state bytes : list Z) : list Z :=
  match state, bytes with
  | s :: state, b :: bytes => Z.lxor s b :: xor_bytes state bytes
  | state, [] => state
  | [], _ => []
  end.

(** The loops, for the permutation [perm] that advances the state. *)
Section Loops.
Context (perm : list Z -> list Z).

(** The [for (;;)] loop; it runs once for every started 136 bytes. *)
Fixpoint random_loop (fuel n : nat) (st result : list Z) : option (list Z * list Z) :=
  match fuel with
  | O => None
  | S fuel =>
      let st := perm st in
      if (n <=? HASH_DATA_AREA)%nat then Some (result ++ take n st, st)
      else random_loop fuel (n - HASH_DATA_AREA) st (result ++ take HASH_DATA_AREA st)
  end.

(** [while (bytes > 0)]. *)
Fixpoint entropy_loop (fuel : nat) (st ptr : list Z) : option (list Z) :=
  match ptr with
  | [] => Some st
  | _ =>
    match fuel with
    | O => None
    | S fuel =>
        let st := perm st in
        let round_bytes := Nat.min HASH_DATA_AREA (length ptr) in
        entropy_loop fuel (xor_bytes st (take round_bytes ptr)) (drop round_bytes ptr)
    end
  end.

(** The bytes of successive states: [n] bytes from [HASH_DATA_AREA]-byte pieces. *)
Fixpoint stream (blocks : nat) (st : list Z) : list Z :=
  match blocks with
  | O => []
  | S blocks => let st := perm st in take HASH_DATA_AREA st ++ stream blocks st
  end.

Fixpoint iterate (n : nat) (st : list Z) : list Z :=
  match n with O => st | S n => iterate n (perm st) end.

Context (perm_ok : forall st, is_bytes 200 st -> is_bytes 200 (perm st)).

Lemma iterate_S n st : iterate (S n) st = iterate n (perm st).
Proof. reflexivity. Qed.

Lemma iterate_ok n st : is_bytes 200 st -> is_bytes 200 (iterate n st).
Proof. revert st. induction n as [| n IH]; intros st H; [exact H |]. rewrite iterate_S. apply IH, perm_ok, H. Qed.

Lemma stream_ok n st : is_bytes 200 st -> is_bytes (HASH_DATA_AREA * n) (stream n st).
Proof.
  revert st. induction n as [| n IH]; intros st H; [by split; [| constructor] |].
  apply perm_ok in H. destruct (IH _ H) as [L B]. cbn [stream]. split.
  - rewrite length_app, L, length_take, (proj1 H). unfold HASH_DATA_AREA. lia.
  - apply Forall_app. split; [apply Forall_take, H | done].
Qed.

Lemma random_loop_ok b fuel n st acc :
  (HASH_DATA_AREA * b < n <= HASH_DATA_AREA * S b)%nat -> (b < fuel)%nat -> is_bytes 200 st ->
  random_loop fuel n st acc = Some (acc ++ take n (stream (S b) st), iterate (S b) st).
Proof.
  revert fuel n st acc. induction b as [| b IH]; intros [| fuel] n st acc Hn Hf H; try lia;
    cbn [random_loop]; destruct (Nat.leb_spec n HASH_DATA_AREA) as [Le | Gt]; try (unfold HASH_DATA_AREA in *; lia).
  - cbn [stream iterate]. rewrite app_nil_r, take_take, Nat.min_l by done. done.
  - apply perm_ok in H. rewrite IH by (done || unfold HASH_DATA_AREA in *; lia).
    set (k := S b) in *. cbn [stream iterate]. rewrite take_app, length_take, (proj1 H), <- app_assoc.
    rewrite take_take, Nat.min_r by lia. done.
Qed.

Lemma xor_bytes_ok st bs : is_bytes 200 st -> Forall is_byte bs -> is_bytes 200 (xor_bytes st bs).
Proof.
  generalize 200%nat. intros k [<- H] B. unfold is_bytes. revert bs B.
  induction H as [| s st Hs H IH]; intros [| b bs] B; simpl; [done | done | by split; [| constructor] |].
  apply Forall_cons_iff in B as [Hb B]. destruct (IH _ B) as [L F]. rewrite L. split; [done |].
  constructor; [| done]. unfold is_byte in *. by apply (lxor_range 8).
Qed.

Lemma entropy_loop_ok fuel st ptr : (length ptr <= HASH_DATA_AREA * fuel)%nat ->
  is_bytes 200 st -> Forall is_byte ptr -> yields (entropy_loop fuel st ptr) (fun st => is_bytes 200 st).
Proof.
  revert st ptr. induction fuel as [| fuel IH]; intros st [| b ptr] L H B.
  - by apply yields_ret.
  - simpl in L. lia.
  - by apply yields_ret.
  - cbn [entropy_loop]. set (p := b :: ptr) in *. apply IH.
    + rewrite length_drop. unfold HASH_DATA_AREA in *. lia.
    + apply xor_bytes_ok; [by apply perm_ok | by apply Forall_take].
    + by apply Forall_drop.
Qed.

End Loops.

Lemma fuel_ok n : (0 < n)%nat ->
  (HASH_DATA_AREA * ((n - 1) / HASH_DATA_AREA) < n <= HASH_DATA_AREA * S ((n - 1) / HASH_DATA_AREA))%nat /\
  ((n - 1) / HASH_DATA_AREA < S (n / HASH_DATA_AREA))%nat.
Proof.
  intros Hn. pose proof (Nat.div_mod_eq (n - 1) HASH_DATA_AREA) as E.
  pose proof (Nat.mod_upper_bound (n - 1) HASH_DATA_AREA ltac:(done)).
  assert ((n - 1) / HASH_DATA_AREA <= n / HASH_DATA_AREA)%nat by (apply Nat.Div0.div_le_mono; lia). lia.
Qed.

Lemma words_of_length st : is_bytes 200 st -> length (words_of st) = 25%nat.
Proof.
  intros [L _]. do 200 (destruct st as [| ? st]; [discriminate L |]). destruct st; [reflexivity | discriminate L].
Qed.

Lemma hash_permutation_ok st : is_bytes 200 st -> is_bytes 200 (hash_permutation st).
Proof.
  intros H. assert (W : state_ok (words_of st)) by (split; [by apply words_of_length | apply words_of_words, H]).
  destruct (keccakf_ref _ W) as [_ K]. unfold hash_permutation. destruct K as [L K]. split; [| apply bytes_of_bytes].
  by rewrite bytes_of_length, L.
Qed.

Record random_state := mk_random { state : list Z; curstate : Z }.

Section Generator.
Context (NDEBUG : bool).

Definition assert_curstate (n : Z) (s : random_state) : option unit :=
  if NDEBUG || (curstate s =? n) then Some tt else None.

Definition set_curstate (n : Z) (s : random_state) : random_state :=
  if NDEBUG then s else mk_random (state s) n.

Definition set_state (st : list Z) (s : random_state) : random_state := mk_random st (curstate s).

(** [seed] is what [generate_system_random_bytes(32, &state)] writes. *)
Definition init_random (seed : list Z) (s : random_state) : option random_state :=
  let s := set_state (overwrite seed (state s)) s in
  _ ← assert_curstate 0 s;
  Some (set_curstate 1 s).

Definition deinit_random (s : random_state) : option random_state :=
  _ ← assert_curstate 1 s;
  let s := set_curstate 0 s in
  Some (set_state (replicate 200 0) s).

Definition generate_random_bytes_not_thread_safe (n : nat) (s : random_state) : option (list Z * random_state) :=
  _ ← assert_curstate 1 s;
  let s := set_curstate 2 s in
  if (n =? 0)%nat then
    _ ← assert_curstate 2 s; Some ([], set_curstate 1 s)
  else
    '(result, st) ← random_loop hash_permutation (S (n / HASH_DATA_AREA)) n (state s) [];
    let s := set_state st s in
    _ ← assert_curstate 2 s;
    Some (result, set_curstate 1 s).

Definition add_extra_entropy_not_thread_safe (ptr : list Z) (s : random_state) : option random_state :=
  st ← entropy_loop hash_permutation (S (length ptr / HASH_DATA_AREA)) (state s) ptr;
  Some (set_state st s).

(** ** What the generator promises *)

(** The state between two calls: 200 bytes, and no call in progress. *)
Definition random_ok (s : random_state) : Prop :=
  is_bytes 200 (state s) /\ (NDEBUG = true \/ curstate s = 1).

Lemma random_ok_state s st : random_ok s -> is_bytes 200 st -> random_ok (set_curstate 1 (set_state st (set_curstate 2 s))).
Proof. intros [_ C] K; unfold random_ok, set_curstate, set_state; destruct NDEBUG; simpl; auto. Qed.

Lemma random_ok_assert s : random_ok s -> assert_curstate 1 s = Some tt.
Proof. unfold assert_curstate. by intros [_ [E | ->]]; destruct NDEBUG. Qed.

Lemma assert_set n st s : assert_curstate n (set_state st (set_curstate n s)) = Some tt.
Proof. unfold assert_curstate, set_curstate. destruct NDEBUG; simpl; by rewrite ?Z.eqb_refl. Qed.

(** From a state between two calls, [generate_random_bytes_not_thread_safe]
    returns exactly the bytes asked for, taken 136 at a time from the successive
    permutations of the state, and leaves a state between two calls, which
    [add_extra_entropy_not_thread_safe] preserves whatever it is given. *)
Theorem random_bytes_correct n s extra : random_ok s -> Forall is_byte extra ->
  (let blocks := if (n =? 0)%nat then O else S ((n - 1) / HASH_DATA_AREA) in
   exists s', generate_random_bytes_not_thread_safe n s = Some (take n (stream hash_permutation blocks (state s)), s') /\
     is_bytes n (take n (stream hash_permutation blocks (state s))) /\ state s' = iterate hash_permutation blocks (state s) /\ random_ok s') /\
  yields (add_extra_entropy_not_thread_safe extra s) random_ok.
Proof.
  intros Hs He. split.
  - unfold generate_random_bytes_not_thread_safe. rewrite (random_ok_assert _ Hs). cbn [mbind option_bind].
    assert (S2 : state (set_curstate 2 s) = state s) by (unfold set_curstate; by destruct NDEBUG).
    destruct (Nat.eqb_spec n 0) as [-> | Hn].
    + pose proof (assert_set 2 (state s) s) as A. pose proof (random_ok_state _ _ Hs (proj1 Hs)) as K.
      replace (set_state (state s) (set_curstate 2 s)) with (set_curstate 2 s) in A, K
        by (rewrite <- S2; by destruct (set_curstate 2 s)).
      rewrite A. cbn [mbind option_bind]. eexists. split; [done |]. split; [by split; [| constructor] |]. split; [| done].
      unfold set_curstate. by destruct NDEBUG.
    + destruct (fuel_ok n ltac:(lia)) as [F1 F2]. rewrite S2, (random_loop_ok _ hash_permutation_ok _ _ _ _ _ F1 F2 (proj1 Hs)).
      cbn [mbind option_bind app]. rewrite assert_set. cbn [mbind option_bind].
      eexists. split; [done |]. destruct (stream_ok _ hash_permutation_ok (S ((n - 1) / HASH_DATA_AREA)) _ (proj1 Hs)) as [L B].
      split; [split; [rewrite length_take, L; lia | by apply Forall_take] |].
      split; [unfold set_curstate; by destruct NDEBUG | apply random_ok_state; [done |]; apply iterate_ok; [exact hash_permutation_ok | apply Hs]].
  - eapply yields_bind; [apply entropy_loop_ok; [exact hash_permutation_ok | | apply Hs | done] |].
    + pose proof (Nat.div_mod_eq (length extra) HASH_DATA_AREA).
      pose proof (Nat.mod_upper_bound (length extra) HASH_DATA_AREA ltac:(done)). lia.
    + cbv beta. intros st Hst. apply yields_ret. split; [done | apply Hs].
Qed.
End Generator.

(** After [init_random], the generator is ready; [deinit_random] returns it to the
    state before it, with the secret bytes overwritten. *)
Lemma random_lifecycle NDEBUG seed st0 : is_bytes 32 seed -> is_bytes 200 st0 ->
  yields (init_random NDEBUG seed (mk_random st0 0)) (fun s => random_ok NDEBUG s /\
    deinit_random NDEBUG s = Some (mk_random (replicate 200 0) 0)).
Proof.
  intros [Ls Bs] [L B]. unfold init_random, assert_curstate. cbn. rewrite orb_true_r. apply yields_ret.
  assert (H : is_bytes 200 (overwrite seed st0)).
  { unfold overwrite. split; [rewrite length_app, length_drop; lia |]. apply Forall_app. split; [done | by apply Forall_drop]. }
  destruct NDEBUG; (split; [split; [exact H | auto] |]); done.
Qed.

Definition start_state : random_state := mk_random (le_split 32 12345 ++ replicate 168 0) 1.

Lemma random_bytes_witness : exists s', generate_random_bytes_not_thread_safe false 200 start_state =
  Some (take 200 (stream hash_permutation 2 (state start_state)), s') /\ random_ok false s'.
Proof.
  destruct (random_bytes_correct false 200 start_state []) as [(s' & E & _ & _ & K) _].
  - split; [split; [reflexivity |] | by right].
    apply Forall_app. split; [apply le_split_bytes | by apply Forall_replicate].
  - constructor.
  - exists s'. split; [exact E | exact K].
Defined.
End Random.
