(* ===== verification/Hmac.v ===== *)
(** HMAC over Keccak: src/crypto/hmac-keccak.c.

    The state is a pair of hashing contexts.  The theorem is that the code
    computes [H ((k xor opad) || H ((k xor ipad) || data))], with keys longer
    than a block hashed first. *)
From S2P Require Import Prelude Pack Keccak KeccakCorrect.

Local Open Scope Z_scope.

Module Hmac.
Import Pack Keccak KeccakCorrect.

Record hmac_keccak_state := mk_hmac { inner : KECCAK_CTX; outer : KECCAK_CTX }.

(** [memset(pad, b, KECCAK_BLOCKLEN); for (...) pad[i] ^= key[i];] *)
Fixpoint xor_prefix (key pad : list Z) : list Z :=
  match key, pad with
  | k :: key, x :: pad => Z.lxor x k :: xor_prefix key pad
  | _, _ => pad
  end.

Definition key_pad (b : Z) (key : list Z) : list Z := xor_prefix key (replicate KECCAK_BLOCKLEN b).

(** The key after the first test: keys longer than a block are hashed. *)
Definition hmac_key (key : list Z) : option (list Z) :=
  if (KECCAK_BLOCKLEN <? length key)%nat then keccak key 32 else Some key.

(** [pad] is a local array, [aligned] its alignment; [aligned] of an update is
    that of the caller's buffer. *)
Definition hmac_keccak_init (aligned : bool) (key : list Z) : option hmac_keccak_state :=
  key ← hmac_key key;
  i ← keccak_update aligned keccak_init (key_pad 0x36 key);
  o ← keccak_update aligned keccak_init (key_pad 0x5c key);
  Some (mk_hmac i o).

Definition hmac_keccak_update (aligned : bool) (S : hmac_keccak_state) (data : list Z) : option hmac_keccak_state :=
  i ← keccak_update aligned (inner S) data; Some (mk_hmac i (outer S)).

Definition hmac_keccak_finish (aligned : bool) (S : hmac_keccak_state) : option (list Z) :=
  let '(_, ihash) := keccak_finish (inner S) in
  o ← keccak_update aligned (outer S) ihash;
  Some (snd (keccak_finish o)).

Definition hmac_keccak_hash (aligned : bool) (key data : list Z) : option (list Z) :=
  S ← hmac_keccak_init aligned key;
  S ← hmac_keccak_update aligned S data;
  hmac_keccak_finish aligned S.

(** ** The specification *)

Definition block_key (key : list Z) : list Z :=
  let k := if (136 <? length key)%nat then keccak256 key else key in
  k ++ replicate (136 - length k) 0.

Definition hmac_spec (key data : list Z) : list Z :=
  let pad b := map (Z.lxor b) (block_key key) in
  keccak256 (pad 0x5c ++ keccak256 (pad 0x36 ++ data)).

Lemma xor_prefix_map b key n : (length key <= n)%nat ->
  xor_prefix key (replicate n b) = map (Z.lxor b) (key ++ replicate (n - length key) 0).
Proof.
  revert n. induction key as [| k key IH]; intros n H.
  - rewrite Nat.sub_0_r. clear H. induction n as [| n IHn]; simpl in *; [done |]. by rewrite Z.lxor_0_r, <- IHn.
  - destruct n as [| n]; simpl in *; [lia |]. by rewrite IH by lia.
Qed.

Lemma hmac_key_ok key : Forall is_byte key ->
  exists k, hmac_key key = Some k /\ (length k <= 136)%nat /\ block_key key = k ++ replicate (136 - length k) 0.
Proof.
  intros H. unfold hmac_key, block_key. change KECCAK_BLOCKLEN with 136%nat.
  destruct (Nat.ltb_spec 136 (length key)) as [L | L].
  - rewrite keccak_32. exists (keccak256 key). split; [done |].
    rewrite (proj1 (proj2 (cn_fast_hash_ok key H))). split; [lia | done].
  - by exists key.
Qed.

Lemma hmac_hash_ok al key data : Forall is_byte key -> Z.of_nat (length data) < 2 ^ 63 ->
  Forall is_byte data -> hmac_keccak_hash al key data = Some (hmac_spec key data).
Proof.
  intros Hk Hl Hd. destruct (hmac_key_ok key Hk) as (k & E & Lk & Bk).
  assert (Pk : forall b, key_pad b k = map (Z.lxor b) (block_key key)).
  { intros b. unfold key_pad, KECCAK_BLOCKLEN. by rewrite xor_prefix_map, <- Bk. }
  assert (Lp : forall b, length (map (Z.lxor b) (block_key key)) = 136%nat).
  { intros b. rewrite length_map, Bk, length_app, length_replicate. lia. }
  unfold hmac_keccak_hash, hmac_keccak_init, hmac_keccak_update, hmac_keccak_finish. rewrite E. cbn [mbind option_bind].
  rewrite !Pk. unfold hmac_spec. set (ip := map (Z.lxor 54) _) in *. set (op := map (Z.lxor 92) _) in *.
  destruct (keccak_update_ok al _ _ ip absorbed_init) as (i & -> & Hi); [unfold ip; rewrite Lp; lia |].
  destruct (keccak_update_ok al _ _ op absorbed_init) as (o & -> & Ho); [unfold op; rewrite Lp; lia |].
  cbn [mbind option_bind inner outer].
  destruct (keccak_update_ok al _ _ data Hi Hl) as (i2 & -> & Hi2). cbn [mbind option_bind inner outer].
  pose proof (keccak_finish_ok _ _ Hi2) as F. destruct (keccak_finish i2) as [c h]. cbn [snd] in F. subst h.
  destruct (keccak_update_ok al _ _ (keccak256 (([] ++ ip) ++ data)) Ho) as (o2 & -> & Ho2).
  { unfold keccak256. rewrite length_take. lia. }
  cbn [mbind option_bind]. by rewrite (keccak_finish_ok _ _ Ho2).
Qed.

(** [hmac_keccak_hash] never aborts and returns
    [H ((k xor 0x5c..) || H ((k xor 0x36..) || data))] for every key and data,
    where [k] is the key padded with zeros to a block of 136 bytes, hashed first
    when it is longer than a block. *)
Theorem hmac_correct al key data : Forall is_byte key -> Z.of_nat (length data) < 2 ^ 63 ->
  Forall is_byte data -> hmac_keccak_hash al key data = Some (hmac_spec key data).
Proof. apply hmac_hash_ok. Qed.

Lemma hmac_witness : hmac_keccak_hash false (replicate 200 7) [1; 2; 3] = Some (hmac_spec (replicate 200 7) [1; 2; 3]).
Proof. apply (hmac_correct false (replicate 200 7) [1; 2; 3]); [by apply Forall_replicate | done | repeat constructor; done]. Defined.
End Hmac.
