(* ===== verification/IntUtil.v ===== *)
(** Wide products and quotients: contrib/epee/include/int-util.h and the portable
    [mul] of src/cryptonote_basic/difficulty.cpp.  All operands are [uint64_t] and
    every operation wraps; the theorems show that the double words are exact. *)
From S2P Require Import Prelude.

Local Open Scope Z_scope.

Module IntUtil.

Definition hi_dword (val : Z) : Z := Z.shiftr val 32.
Definition lo_dword (val : Z) : Z := Z.land val 0xFFFFFFFF.

(** Returns the low word and [product_hi]; [None] when the assertion fails. *)
Definition mul128 (multiplier multiplicand : Z) : option (Z * Z) :=
  let a := hi_dword multiplier in
  let b := lo_dword multiplier in
  let c := hi_dword multiplicand in
  let d := lo_dword multiplicand in
  let ac := u64 (a * c) in
  let ad := u64 (a * d) in
  let bc := u64 (b * c) in
  let bd := u64 (b * d) in
  let adbc := u64 (ad + bc) in
  let adbc_carry := if adbc <? ad then 1 else 0 in
  let product_lo := u64 (bd + u64 (Z.shiftl adbc 32)) in
  let product_lo_carry := if product_lo <? bd then 1 else 0 in
  let product_hi := u64 (u64 (u64 (ac + Z.shiftr adbc 32) + u64 (Z.shiftl adbc_carry 32)) + product_lo_carry) in
  if ac <=? product_hi then Some (product_lo, product_hi) else None.

(** The portable [mul]: the low and the high word. *)
Definition mul_portable (a b : Z) : Z * Z :=
  let aLow := Z.land a 0xFFFFFFFF in
  let aHigh := Z.shiftr a 32 in
  let bLow := Z.land b 0xFFFFFFFF in
  let bHigh := Z.shiftr b 32 in
  let res := u64 (aLow * bLow) in
  let lowRes1 := Z.land res 0xFFFFFFFF in
  let carry := Z.shiftr res 32 in
  let res := u64 (u64 (aHigh * bLow) + carry) in
  let highResHigh1 := Z.shiftr res 32 in
  let highResLow1 := Z.land res 0xFFFFFFFF in
  let res := u64 (aLow * bHigh) in
  let lowRes2 := Z.land res 0xFFFFFFFF in
  let carry := Z.shiftr res 32 in
  let res := u64 (u64 (aHigh * bHigh) + carry) in
  let highResHigh2 := Z.shiftr res 32 in
  let highResLow2 := Z.land res 0xFFFFFFFF in
  let r := u64 (highResLow1 + lowRes2) in
  let carry := Z.shiftr r 32 in
  let low := Z.lor (u64 (Z.shiftl r 32)) lowRes1 in
  let r := u64 (u64 (highResHigh1 + highResLow2) + carry) in
  let d3 := Z.land r 0xFFFFFFFF in
  let carry := Z.shiftr r 32 in
  let r := u64 (highResHigh2 + carry) in
  let high := Z.lor d3 (u64 (Z.shiftl r 32)) in
  (low, high).

(** [mul128] where it is available, [mul_portable] elsewhere. *)
Definition mul (portable : bool) (a b : Z) : option (Z * Z) :=
  if portable then Some (mul_portable a b) else mul128 a b.

(** The quotient, truncated to the word it is stored in, and the remainder. *)
Definition div_with_reminder (dividend divisor remainder : Z) : Z * Z :=
  let dividend := Z.lor dividend (u64 (Z.shiftl remainder 32)) in
  (dividend / divisor, dividend mod divisor).

(** [quotient_hi], [quotient_lo] and the remainder of a division by a 32-bit word. *)
Definition div128_32 (dividend_hi dividend_lo divisor : Z) : Z * Z * Z :=
  let '(q3, r) := div_with_reminder (hi_dword dividend_hi) divisor 0 in
  let '(q2, r) := div_with_reminder (lo_dword dividend_hi) divisor r in
  let '(q1, r) := div_with_reminder (hi_dword dividend_lo) divisor r in
  let '(q0, r) := div_with_reminder (lo_dword dividend_lo) divisor r in
  (Z.lor (u64 (Z.shiftl q3 32)) q2, Z.lor (u64 (Z.shiftl q1 32)) q0, r).

Definition add64clamp (value add : Z) : Z :=
  let maxval := 2 ^ 64 - 1 in
  if u64 (maxval - add) <? value then maxval else u64 (value + add).

Definition sub64clamp (value sub : Z) : Z := if value <? sub then 0 else u64 (value - sub).

(** The bytes of a word in the opposite order. *)
Definition swap64 (x : Z) : Z :=
  Z.lor (Z.lor (Z.lor (Z.lor (Z.lor (Z.lor (Z.lor
    (u64 (Z.shiftl (Z.land x 0x00000000000000ff) 56))
    (u64 (Z.shiftl (Z.land x 0x000000000000ff00) 40)))
    (u64 (Z.shiftl (Z.land x 0x0000000000ff0000) 24)))
    (u64 (Z.shiftl (Z.land x 0x00000000ff000000) 8)))
    (Z.shiftr (Z.land x 0x000000ff00000000) 8))
    (Z.shiftr (Z.land x 0x0000ff0000000000) 24))
    (Z.shiftr (Z.land x 0x00ff000000000000) 40))
    (Z.shiftr (Z.land x 0xff00000000000000) 56).

(** ** Exactness *)

Definition word64 (a : Z) : Prop := 0 <= a < 2 ^ 64.

Lemma dwords a : word64 a -> 0 <= hi_dword a < 2 ^ 32 /\ 0 <= lo_dword a < 2 ^ 32 /\ a = hi_dword a * 2 ^ 32 + lo_dword a.
Proof.
  unfold word64, hi_dword, lo_dword. intros H. change 0xFFFFFFFF with (Z.ones 32).
  rewrite Z.shiftr_div_pow2, Z.land_ones by lia. zlia.
Qed.

Lemma shl32 a : u64 (Z.shiftl a 32) = (a mod 2 ^ 32) * 2 ^ 32.
Proof.
  unfold wrap. rewrite Z.shiftl_mul_pow2 by lia. change (2 ^ 64) with (2 ^ 32 * 2 ^ 32).
  by rewrite Z.mul_mod_distr_r.
Qed.

Lemma shr32 a : Z.shiftr a 32 = a / 2 ^ 32.
Proof. by rewrite Z.shiftr_div_pow2. Qed.

Lemma and32 a : Z.land a 0xFFFFFFFF = a mod 2 ^ 32.
Proof. change 0xFFFFFFFF with (Z.ones 32). by rewrite Z.land_ones. Qed.

Lemma mask_byte x i : 0 <= i -> Z.land x (255 * 2 ^ i) = (x / 2 ^ i) mod 256 * 2 ^ i.
Proof.
  intros Hi. change 256 with (2 ^ 8). rewrite <- Z.land_ones, <- Z.shiftr_div_pow2, <- !Z.shiftl_mul_pow2 by lia.
  apply Z.bits_inj'. intros n Hn. rewrite Z.land_spec, !Z.shiftl_spec by lia. rewrite Z.land_spec.
  destruct (Z.ltb_spec n i); [rewrite !(Z.testbit_neg_r _ (n - i)) by lia; by rewrite !andb_false_r |].
  rewrite Z.shiftr_spec by lia. by replace (n - i + i) with n by lia.
Qed.

(** One byte more at the lower end. *)
Lemma lor_byte a b i : 0 <= i -> 0 <= b < 256 -> Z.lor (a * 2 ^ (i + 8)) (b * 2 ^ i) = (a * 256 + b) * 2 ^ i.
Proof.
  intros Hi Hb. rewrite Z.lor_comm, <- (Z.shiftl_mul_pow2 a) by lia. rewrite lor_shiftl_add.
  - rewrite Z.pow_add_r by lia. lia.
  - lia.
  - rewrite Z.pow_add_r by lia. nia.
Qed.

Lemma swap64_ok x : swap64 x = le_combine (rev (le_split 8 x)).
Proof.
  unfold swap64.
  change 0x00000000000000ff with (255 * 2 ^ 0). change 0x000000000000ff00 with (255 * 2 ^ 8).
  change 0x0000000000ff0000 with (255 * 2 ^ 16). change 0x00000000ff000000 with (255 * 2 ^ 24).
  change 0x000000ff00000000 with (255 * 2 ^ 32). change 0x0000ff0000000000 with (255 * 2 ^ 40).
  change 0x00ff000000000000 with (255 * 2 ^ 48). change 0xff00000000000000 with (255 * 2 ^ 56).
  rewrite !mask_byte by lia. cbn [le_split rev app le_combine]. rewrite !Z.div_div by lia.
  change (2 ^ 0) with 1. rewrite Z.div_1_r.
  repeat match goal with |- context [x / ?d] =>
    let d' := eval vm_compute in d in progress change (x / d) with (x / d') end.
  repeat match goal with |- context [?b mod 256] =>
    let c := fresh "b" in let H := fresh "B" in
    assert (H : 0 <= b mod 256 < 256) by (apply Z.mod_pos_bound; lia); set (c := b mod 256) in *; clearbody c end.
  rewrite !Z.shiftl_mul_pow2, !Z.shiftr_div_pow2 by lia.
  rewrite !(wrap_small 64) by lia.
  replace (b * 1 * 2 ^ 56) with (b * 2 ^ (48 + 8)) by lia. replace (b0 * 2 ^ 8 * 2 ^ 40) with (b0 * 2 ^ 48) by lia.
  replace (b1 * 2 ^ 16 * 2 ^ 24) with (b1 * 2 ^ 40) by lia. replace (b2 * 2 ^ 24 * 2 ^ 8) with (b2 * 2 ^ 32) by lia.
  replace (b3 * 2 ^ 32 / 2 ^ 8) with (b3 * 2 ^ 24) by zlia. replace (b4 * 2 ^ 40 / 2 ^ 24) with (b4 * 2 ^ 16) by zlia.
  replace (b5 * 2 ^ 48 / 2 ^ 40) with (b5 * 2 ^ 8) by zlia. replace (b6 * 2 ^ 56 / 2 ^ 56) with (b6 * 2 ^ 0) by zlia.
  rewrite (lor_byte _ _ 48), (lor_byte _ _ 40), (lor_byte _ _ 32), (lor_byte _ _ 24), (lor_byte _ _ 16), (lor_byte _ _ 8), (lor_byte _ _ 0) by lia.
  lia.
Qed.

Lemma mul_32 a b : 0 <= a < 2 ^ 32 -> 0 <= b < 2 ^ 32 -> 0 <= a * b <= (2 ^ 32 - 1) * (2 ^ 32 - 1).
Proof. nia. Qed.

Lemma carry_64 x y : word64 x -> word64 y -> (if u64 (x + y) <? x then 1 else 0) = (x + y) / 2 ^ 64.
Proof. unfold word64, wrap. intros Hx Hy. destruct (Z.ltb_spec ((x + y) mod 2 ^ 64) x); zlia. Qed.

(** Splits a product of two words into the partial products of their halves. *)
Lemma product_parts a b : word64 a -> word64 b -> exists p q r s,
  p = hi_dword a * hi_dword b /\ q = hi_dword a * lo_dword b /\ r = lo_dword a * hi_dword b /\ s = lo_dword a * lo_dword b /\
  a * b = p * 2 ^ 64 + (q + r) * 2 ^ 32 + s /\
  let m := (2 ^ 32 - 1) * (2 ^ 32 - 1) in 0 <= p <= m /\ 0 <= q <= m /\ 0 <= r <= m /\ 0 <= s <= m.
Proof.
  intros Ha Hb. destruct (dwords a Ha) as (A1 & A2 & EA). destruct (dwords b Hb) as (B1 & B2 & EB).
  do 4 eexists. do 4 (split; [reflexivity |]). split; [rewrite EA, EB at 1; ring |].
  cbv zeta. split_and!; try apply mul_32; try done; nia.
Qed.

Lemma double_word_unique n lo hi : 0 <= lo < 2 ^ 64 -> n = hi * 2 ^ 64 + lo -> lo = n mod 2 ^ 64 /\ hi = n / 2 ^ 64.
Proof. zlia. Qed.

Lemma product_word a b : word64 a -> word64 b -> 0 <= a * b < 2 ^ 128.
Proof. unfold word64. nia. Qed.

Lemma mul128_ok a b : word64 a -> word64 b -> mul128 a b = Some ((a * b) mod 2 ^ 64, (a * b) / 2 ^ 64).
Proof.
  intros Ha Hb. pose proof (product_word a b Ha Hb) as B.
  destruct (product_parts a b Ha Hb) as (p & q & r & s & Ep & Eq & Er & Es & E & Bp & Bq & Br & Bs).
  unfold mul128. rewrite <- Ep, <- Eq, <- Er, <- Es. clear Ep Eq Er Es.
  rewrite (wrap_small 64 p), (wrap_small 64 q), (wrap_small 64 r), (wrap_small 64 s) by lia.
  rewrite (carry_64 q r) by (unfold word64; lia). set (k := (q + r) / 2 ^ 64).
  assert (Hk : 0 <= k <= 1) by (unfold k; zlia). assert (Y : u64 (q + r) = q + r - k * 2 ^ 64) by (unfold wrap, k; zlia).
  set (y := u64 (q + r)) in *. assert (0 <= y < 2 ^ 64) by (apply wrap_range; lia).
  rewrite !shl32, shr32. set (t := y mod 2 ^ 32). set (u := y / 2 ^ 32).
  assert (Hy : y = u * 2 ^ 32 + t /\ 0 <= t < 2 ^ 32 /\ 0 <= u < 2 ^ 32) by (unfold t, u; zlia). clearbody k y t u.
  rewrite (carry_64 s (t * 2 ^ 32)) by (unfold word64; lia). set (j := (s + t * 2 ^ 32) / 2 ^ 64).
  assert (Hj : 0 <= j <= 1 /\ u64 (s + t * 2 ^ 32) = s + t * 2 ^ 32 - j * 2 ^ 64) by (unfold j, wrap; zlia).
  pose proof (wrap_range 64 (s + t * 2 ^ 32) ltac:(lia)). set (lo := u64 (s + t * 2 ^ 32)) in *. clearbody j lo.
  rewrite (Z.mod_small k) by lia. set (hi := p + u + k * 2 ^ 32 + j).
  assert (N : a * b = hi * 2 ^ 64 + lo) by (unfold hi; lia).
  assert (Hhi : 0 <= hi < 2 ^ 64) by lia.
  assert (W : u64 (u64 (u64 (p + u) + k * 2 ^ 32) + j) = hi).
  { unfold hi in *. rewrite (wrap_small 64 (p + u)) by lia. rewrite (wrap_small 64 (p + u + k * 2 ^ 32)) by lia. by apply wrap_small. }
  rewrite W. destruct (double_word_unique (a * b) lo hi ltac:(lia) N) as [<- <-].
  rewrite (proj2 (Z.leb_le _ _)) by (unfold hi; lia). done.
Qed.

Lemma lor_shl32 a b : 0 <= b < 2 ^ 32 -> Z.lor (a * 2 ^ 32) b = a * 2 ^ 32 + b.
Proof. intros Hb. rewrite <- Z.shiftl_mul_pow2, Z.lor_comm, lor_shiftl_add by lia. rewrite Z.shiftl_mul_pow2 by lia. lia. Qed.

Lemma mul_portable_ok a b : word64 a -> word64 b -> mul_portable a b = ((a * b) mod 2 ^ 64, (a * b) / 2 ^ 64).
Proof.
  intros Ha Hb. pose proof (product_word a b Ha Hb) as B.
  destruct (product_parts a b Ha Hb) as (p & q & r & s & Ep & Eq & Er & Es & E & Bp & Bq & Br & Bs).
  unfold mul_portable. unfold hi_dword, lo_dword in *. rewrite <- Ep, <- Eq, <- Er, <- Es. clear Ep Eq Er Es.
  rewrite !(wrap_small 64 p), !(wrap_small 64 q), !(wrap_small 64 r), !(wrap_small 64 s) by lia.
  rewrite !shr32, !and32, !shl32.
  rewrite (wrap_small 64 (q + s / 2 ^ 32)), (wrap_small 64 (p + r / 2 ^ 32)) by zlia.
  set (q' := q + s / 2 ^ 32). set (p' := p + r / 2 ^ 32). assert (0 <= q' < 2 ^ 64 /\ 0 <= p' < 2 ^ 64) by (unfold q', p'; zlia).
  set (x := q' mod 2 ^ 32 + r mod 2 ^ 32). assert (0 <= x < 2 ^ 33) by (unfold x; zlia). rewrite (wrap_small 64 x) by lia.
  set (z := q' / 2 ^ 32 + p' mod 2 ^ 32 + x / 2 ^ 32). assert (0 <= z < 2 ^ 34) by (unfold z; zlia).
  rewrite (wrap_small 64 (q' / 2 ^ 32 + p' mod 2 ^ 32)) by zlia. fold z. rewrite (wrap_small 64 z) by lia.
  set (w := p' / 2 ^ 32 + z / 2 ^ 32). assert (0 <= w < 2 ^ 64) by (unfold w; zlia). rewrite (wrap_small 64 w) by lia.
  rewrite lor_shl32 by zlia. rewrite Z.lor_comm, lor_shl32 by zlia.
  assert (N : a * b = w * 2 ^ 96 + z mod 2 ^ 32 * 2 ^ 64 + x mod 2 ^ 32 * 2 ^ 32 + s mod 2 ^ 32).
  { rewrite E. unfold w, z, x, p', q'. zlia. }
  assert (Hw : w mod 2 ^ 32 = w) by (apply Z.mod_small; zlia). rewrite Hw. clear Hw.
  destruct (double_word_unique (a * b) (x mod 2 ^ 32 * 2 ^ 32 + s mod 2 ^ 32) (w * 2 ^ 32 + z mod 2 ^ 32)) as [<- <-]; [zlia | lia | done].
Qed.

Lemma mul_ok portable a b : word64 a -> word64 b -> mul portable a b = Some ((a * b) mod 2 ^ 64, (a * b) / 2 ^ 64).
Proof. intros Ha Hb. unfold mul. destruct portable; [by rewrite mul_portable_ok | by apply mul128_ok]. Qed.

Lemma div_with_reminder_ok n d r : 0 <= n < 2 ^ 32 -> 0 <= r < d -> d < 2 ^ 32 ->
  exists q r', div_with_reminder n d r = (q, r') /\ r * 2 ^ 32 + n = q * d + r' /\ 0 <= r' < d /\ 0 <= q < 2 ^ 32.
Proof.
  intros Hn Hr Hd. unfold div_with_reminder. rewrite shl32, Z.mod_small by lia. rewrite Z.lor_comm, lor_shl32 by done.
  eexists _, _. split; [done |]. pose proof (Z.div_mod (r * 2 ^ 32 + n) d ltac:(lia)).
  split; [lia |]. split; [apply Z.mod_pos_bound; lia |]. split; [apply Z.div_pos; lia | apply Z.div_lt_upper_bound; nia].
Qed.

Lemma div128_32_ok hi lo d : word64 hi -> word64 lo -> 0 < d < 2 ^ 32 ->
  let n := hi * 2 ^ 64 + lo in
  div128_32 hi lo d = (n / d / 2 ^ 64, (n / d) mod 2 ^ 64, n mod d).
Proof.
  intros Hh Hl Hd n. destruct (dwords hi Hh) as (A1 & A2 & EA). destruct (dwords lo Hl) as (B1 & B2 & EB).
  unfold div128_32.
  destruct (div_with_reminder_ok _ d 0 A1) as (q3 & r3 & -> & E3 & R3 & Q3); [lia | lia |].
  destruct (div_with_reminder_ok _ d r3 A2) as (q2 & r2 & -> & E2 & R2 & Q2); [lia | lia |].
  destruct (div_with_reminder_ok _ d r2 B1) as (q1 & r1 & -> & E1 & R1 & Q1); [lia | lia |].
  destruct (div_with_reminder_ok _ d r1 B2) as (q0 & r0 & -> & E0 & R0 & Q0); [lia | lia |].
  rewrite !shl32, !Z.mod_small, !lor_shl32 by done.
  set (Q := (q3 * 2 ^ 32 + q2) * 2 ^ 64 + (q1 * 2 ^ 32 + q0)).
  assert (N : n = d * Q + r0) by (unfold n, Q; nia).
  rewrite <- (Z.div_unique_pos n d Q r0), <- (Z.mod_unique_pos n d Q r0) by (done || lia).
  destruct (double_word_unique Q (q1 * 2 ^ 32 + q0) (q3 * 2 ^ 32 + q2)) as [<- <-]; [lia | done | done].
Qed.

(** Both implementations of the double-word product return the exact product of
    any two 64-bit words, and the long division by a 32-bit word returns the exact
    quotient and remainder of any double word. *)
Theorem wide_arithmetic_exact portable a b d : word64 a -> word64 b -> 0 < d < 2 ^ 32 ->
  (exists lo hi, mul portable a b = Some (lo, hi) /\ word64 lo /\ word64 hi /\ hi * 2 ^ 64 + lo = a * b) /\
  (exists qhi qlo r, div128_32 a b d = (qhi, qlo, r) /\ word64 qhi /\ word64 qlo /\ 0 <= r < d /\
     (qhi * 2 ^ 64 + qlo) * d + r = a * 2 ^ 64 + b).
Proof.
  intros Ha Hb Hd. rewrite mul_ok, div128_32_ok by done. pose proof (product_word a b Ha Hb). unfold word64 in *. split.
  - eexists _, _. split; [done |]. zlia.
  - eexists _, _, _. split; [done |]. set (n := a * 2 ^ 64 + b). assert (0 <= n < 2 ^ 128) by (unfold n; lia).
    pose proof (Z.div_mod n d ltac:(lia)). pose proof (Z.mod_pos_bound n d ltac:(lia)).
    assert (0 <= n / d < 2 ^ 128) by (split; [apply Z.div_pos; lia | apply Z.div_lt_upper_bound; nia]).
    set (q := n / d) in *. clearbody q n. pose proof (Z.div_mod q (2 ^ 64) ltac:(lia)). zlia.
Qed.

Lemma wide_arithmetic_witness : exists lo hi, mul true (2 ^ 64 - 1) (2 ^ 64 - 1) = Some (lo, hi) /\ word64 lo /\ word64 hi /\
  hi * 2 ^ 64 + lo = (2 ^ 64 - 1) * (2 ^ 64 - 1).
Proof. refine (proj1 (wide_arithmetic_exact true (2 ^ 64 - 1) (2 ^ 64 - 1) 10 _ _ _)); unfold word64; lia. Defined.
End IntUtil.
