(* ===== verification/Difficulty.v ===== *)
(** The proof-of-work check and the difficulty adjustment of
    src/cryptonote_basic/difficulty.cpp, with the median of
    contrib/epee/include/misc_language.h.

    [difficulty_type] is a 128-bit unsigned word.  The assertions are checked: a
    failed one, like an index outside a vector, is [None].  The third algorithm
    computes in floating point and is not modelled. *)
From stdpp Require Import sorting.
From S2P Require Import Prelude Pack Keccak IntUtil.

Local Open Scope Z_scope.

Module Difficulty.
Import Pack Keccak IntUtil.

Definition DIFFICULTY_TARGET : Z := 240.
Definition DIFFICULTY_WINDOW : nat := 720.
Definition DIFFICULTY_CUT : nat := 60.
Definition DIFFICULTY_WINDOW_V2 : nat := 17.
Definition DIFFICULTY_CUT_V2 : nat := 6.
Definition DIFFICULTY_BLOCKS_COUNT_V2 : nat := DIFFICULTY_WINDOW_V2 + DIFFICULTY_CUT_V2 * 2.

(** [(uint64_t) DIFFICULTY_TARGET*6] and [(uint64_t) DIFFICULTY_TARGET/24]. *)
Definition MAX_AVERAGE_TIMESPAN : Z := DIFFICULTY_TARGET * 6.
Definition MIN_AVERAGE_TIMESPAN : Z := DIFFICULTY_TARGET / 24.

Definition max64bit : Z := 2 ^ 64 - 1.
Definition max128bit : Z := 2 ^ 128 - 1.
Definition max256bit : Z := 2 ^ 256 - 1.

(** ** The proof-of-work check *)

Definition cadd (a b : Z) : bool := u64 (a + b) <? a.
Definition cadc (a b : Z) (c : bool) : bool := (u64 (a + b) <? a) || (c && (u64 (a + b) =? 2 ^ 64 - 1)).

(** [hash] is read as four little-endian words. *)
Definition check_hash_64 (portable : bool) (hash : list Z) (difficulty : Z) : option bool :=
  let w := words_of hash in
  '(top, high) ← mul portable (at_ w 3) difficulty;
  if negb (high =? 0) then Some false else
  '(low, cur) ← mul portable (at_ w 0) difficulty;
  '(low, high) ← mul portable (at_ w 1) difficulty;
  let carry := cadd cur low in
  let cur := high in
  '(low, high) ← mul portable (at_ w 2) difficulty;
  let carry := cadc cur low carry in
  let carry := cadc high top carry in
  Some (negb carry).

(** The arithmetic is in a 512-bit word, which nothing here overflows. *)
Definition check_hash_128 (hash : list Z) (difficulty : Z) : bool :=
  let w := words_of hash in
  let hashVal := foldl (fun v i => Z.lor (wrap 512 (Z.shiftl v 64)) (at_ w (3 - i))) 0 (seq 0 4) in
  wrap 512 (hashVal * difficulty) <=? max256bit.

Definition check_hash (portable : bool) (hash : list Z) (difficulty : Z) : option bool :=
  if difficulty <=? max64bit then check_hash_64 portable hash (u64 difficulty)
  else Some (check_hash_128 hash difficulty).

(** ** The adjustment *)

(** [vector::resize]. *)
Definition resize (n : nat) (l : list Z) : list Z := take n l ++ replicate (n - length l) 0.

(** [std::sort] on unsigned words. *)
Definition sort (l : list Z) : list Z := merge_sort Z.le l.

Definition guard (c : bool) : option unit := if c then Some tt else None.

(** The slice of the sorted timestamps that is kept. *)
Definition cuts (length window : nat) : nat * nat :=
  if (length <=? window)%nat then (O, length)
  else let cut_begin := ((length - window + 1) / 2)%nat in (cut_begin, (cut_begin + window)%nat).

(** The part that the algorithms share: the sorted timestamps, the slice, the time
    span of the slice and its work, in [width]-bit words.  [Some None] when there
    are too few blocks. *)
Definition window_work (width : Z) (blocks window : nat) (timestamps cumulative : list Z)
  : option (option (list Z * nat * nat * Z * Z)) :=
  let '(timestamps, cumulative) :=
    if (blocks <? length timestamps)%nat then (resize blocks timestamps, resize blocks cumulative)
    else (timestamps, cumulative) in
  let len := length timestamps in
  _ ← guard (len =? length cumulative)%nat;
  if (len <=? 1)%nat then Some None else
  let timestamps := sort timestamps in
  let '(cut_begin, cut_end) := cuts len window in
  _ ← guard ((cut_begin + 2 <=? cut_end) && (cut_end <=? len))%nat;
  t1 ← timestamps !! (cut_end - 1)%nat;
  t0 ← timestamps !! cut_begin;
  let time_span := u64 (t1 - t0) in
  let time_span := if time_span =? 0 then 1 else time_span in
  c1 ← cumulative !! (cut_end - 1)%nat;
  c0 ← cumulative !! cut_begin;
  Some (Some (timestamps, cut_begin, cut_end, time_span, wrap width (c1 - c0))).

Definition next_difficulty_64 (portable : bool) (timestamps cumulative : list Z) (target_seconds : Z) : option Z :=
  o ← window_work 64 DIFFICULTY_WINDOW (DIFFICULTY_WINDOW - 2 * DIFFICULTY_CUT) timestamps cumulative;
  match o with
  | None => Some 1
  | Some (_, _, _, time_span, total_work) =>
      _ ← guard (0 <? total_work);
      '(low, high) ← mul portable total_work target_seconds;
      if negb (high =? 0) || (u64 (u64 (low + time_span) - 1) <? low) then Some 0
      else Some (u64 (u64 (low + time_span) - 1) / time_span)
  end.

Definition next_difficulty (timestamps cumulative : list Z) (target_seconds : Z) : option Z :=
  o ← window_work 128 DIFFICULTY_WINDOW (DIFFICULTY_WINDOW - 2 * DIFFICULTY_CUT) timestamps cumulative;
  match o with
  | None => Some 1
  | Some (_, _, _, time_span, total_work) =>
      _ ← guard (0 <? total_work);
      let res := (wrap 256 (wrap 256 (wrap 256 (total_work * target_seconds) + time_span) - 1)) / time_span in
      Some (if max128bit <? res then 0 else wrap 128 res)
  end.

(** [epee::misc_utils::median]. *)
Definition median (v : list Z) : Z :=
  match v with
  | [] => 0
  | [x] => x
  | _ =>
      let n := (length v / 2)%nat in
      let v := sort v in
      if Nat.odd (length v) then at_ v n else u64 (at_ v (n - 1) + at_ v n) / 2
  end.

(** The time spans of the last blocks: [for (i = start; i < length - 1; i++)]. *)
Definition time_spans (timestamps : list Z) (start : nat) : list Z :=
  map (fun i => let s := u64 (at_ timestamps (i + 1) - at_ timestamps i) in if s =? 0 then 1 else s)
    (seq start (length timestamps - 1 - start)).

Definition adjusted_timespan (timestamps : list Z) (cut_begin : nat) (total_timespan : Z) : Z :=
  let len := length timestamps in
  let timespan_median :=
    if (0 <? cut_begin)%nat && (cut_begin * 2 + 3 <=? len)%nat
    then median (time_spans timestamps (len - cut_begin * 2 - 3)) else 0 in
  let timespan_length := Z.of_nat (len - cut_begin * 2 - 1) in
  let total_timespan_median :=
    if 0 <? timespan_median then u64 (timespan_median * timespan_length) else u64 (total_timespan * 7) / 10 in
  let adjusted := u64 (u64 (total_timespan * 8) + u64 (total_timespan_median * 3)) / 10 in
  let adjusted := if MAX_AVERAGE_TIMESPAN * timespan_length <? adjusted then MAX_AVERAGE_TIMESPAN * timespan_length else adjusted in
  if adjusted <? MIN_AVERAGE_TIMESPAN * timespan_length then MIN_AVERAGE_TIMESPAN * timespan_length else adjusted.

Definition next_difficulty_v2_64 (portable : bool) (timestamps cumulative : list Z) (target_seconds : Z) : option Z :=
  o ← window_work 64 DIFFICULTY_BLOCKS_COUNT_V2 (DIFFICULTY_BLOCKS_COUNT_V2 - 2 * DIFFICULTY_CUT_V2) timestamps cumulative;
  match o with
  | None => Some 1
  | Some (timestamps, cut_begin, _, total_timespan, total_work) =>
      let adjusted := adjusted_timespan timestamps cut_begin total_timespan in
      _ ← guard (0 <? total_work);
      '(low, high) ← mul portable total_work target_seconds;
      if negb (high =? 0) then Some 0 else
      let next_diff := u64 (u64 (low + adjusted) - 1) / adjusted in
      Some (if next_diff <? 1 then 1 else next_diff)
  end.

Definition next_difficulty_v2 (timestamps cumulative : list Z) (target_seconds : Z) : option Z :=
  o ← window_work 128 DIFFICULTY_BLOCKS_COUNT_V2 (DIFFICULTY_BLOCKS_COUNT_V2 - 2 * DIFFICULTY_CUT_V2) timestamps cumulative;
  match o with
  | None => Some 1
  | Some (timestamps, cut_begin, _, total_timespan, total_work) =>
      let adjusted := adjusted_timespan timestamps cut_begin total_timespan in
      _ ← guard (0 <? total_work);
      let res := (wrap 256 (wrap 256 (wrap 256 (total_work * target_seconds) + adjusted) - 1)) / adjusted in
      Some (if max128bit <? res then 0 else wrap 128 res)
  end.

(** ** Exactness of the proof-of-work check *)

Lemma words_of_value hash : is_bytes 32 hash ->
  let w := words_of hash in
  le_combine hash = at_ w 0 + 2 ^ 64 * at_ w 1 + 2 ^ 128 * at_ w 2 + 2 ^ 192 * at_ w 3 /\
  word64 (at_ w 0) /\ word64 (at_ w 1) /\ word64 (at_ w 2) /\ word64 (at_ w 3).
Proof.
  intros [L B]. cbv zeta. do 32 (destruct hash as [| ? hash]; [discriminate L |]). destruct hash; [| discriminate L].
  repeat match goal with H : Forall is_byte (_ :: _) |- _ => apply Forall_cons_iff in H as [? H] end.
  unfold is_byte, word64, at_ in *. cbn [words_of lookup list_lookup default from_option id le_combine]. lia.
Qed.

Lemma cadd_ok a b : word64 a -> word64 b -> cadd a b = (2 ^ 64 <=? a + b).
Proof. unfold cadd, wrap, word64. intros Ha Hb. destruct (Z.ltb_spec ((a + b) mod 2 ^ 64) a), (Z.leb_spec (2 ^ 64) (a + b)); zlia. Qed.

Lemma cadc_ok a b c : word64 a -> word64 b -> cadc a b c = (2 ^ 64 <=? a + b + (if c then 1 else 0)).
Proof.
  unfold cadc, wrap, word64. intros Ha Hb.
  destruct (Z.ltb_spec ((a + b) mod 2 ^ 64) a), (Z.eqb_spec ((a + b) mod 2 ^ 64) (2 ^ 64 - 1)), c,
    (Z.leb_spec (2 ^ 64) (a + b + 1)), (Z.leb_spec (2 ^ 64) (a + b + 0)); cbn [orb andb]; zlia.
Qed.

Lemma halves p : 0 <= p < 2 ^ 128 ->
  exists h l, p / 2 ^ 64 = h /\ p mod 2 ^ 64 = l /\ p = h * 2 ^ 64 + l /\ word64 l /\ word64 h.
Proof. intros Hp. eexists _, _. do 2 (split; [reflexivity |]). unfold word64. zlia. Qed.

Lemma check_hash_64_ok portable hash d : is_bytes 32 hash -> word64 d ->
  check_hash_64 portable hash d = Some (le_combine hash * d <? 2 ^ 256).
Proof.
  intros Hh Hd. destruct (words_of_value hash Hh) as (-> & W0 & W1 & W2 & W3). unfold check_hash_64.
  set (w0 := at_ _ 0) in *. set (w1 := at_ _ 1) in *. set (w2 := at_ _ 2) in *. set (w3 := at_ _ 3) in *. clearbody w0 w1 w2 w3.
  rewrite !mul_ok by done. cbn [mbind option_bind].
  pose proof (product_word w0 d W0 Hd). pose proof (product_word w1 d W1 Hd).
  pose proof (product_word w2 d W2 Hd). pose proof (product_word w3 d W3 Hd).
  replace ((w0 + 2 ^ 64 * w1 + 2 ^ 128 * w2 + 2 ^ 192 * w3) * d)
    with (w0 * d + 2 ^ 64 * (w1 * d) + 2 ^ 128 * (w2 * d) + 2 ^ 192 * (w3 * d)) by ring.
  destruct (halves (w0 * d)) as (h0 & l0 & F0 & K0 & E0 & L0 & G0); [done |].
  destruct (halves (w1 * d)) as (h1 & l1 & F1 & K1 & E1 & L1 & G1); [done |].
  destruct (halves (w2 * d)) as (h2 & l2 & F2 & K2 & E2 & L2 & G2); [done |].
  destruct (halves (w3 * d)) as (h3 & l3 & F3 & K3 & E3 & L3 & G3); [done |].
  rewrite ?F0, ?F1, ?F2, ?F3, ?K1, ?K2, ?K3, E0, E1, E2, E3.
  destruct (Z.eqb_spec h3 0) as [Z3 | Z3]; cbn [negb].
  2: { f_equal. symmetry. apply Z.ltb_ge. unfold word64 in *. lia. }
  rewrite cadd_ok, !cadc_ok by done. f_equal. unfold word64 in *.
  destruct (Z.leb_spec (2 ^ 64) (h0 + l1)) as [C1 | C1];
    [destruct (Z.leb_spec (2 ^ 64) (h1 + l2 + 1)) as [C2 | C2] | destruct (Z.leb_spec (2 ^ 64) (h1 + l2 + 0)) as [C2 | C2]];
    match goal with |- negb ?b = ?c => destruct b eqn:C3, c eqn:C4 end; try done;
    rewrite ?Z.leb_le, ?Z.leb_gt, ?Z.ltb_lt, ?Z.ltb_ge in *; lia.
Qed.

Lemma lor_shl64 a b : word64 b -> Z.lor (Z.shiftl a 64) b = a * 2 ^ 64 + b.
Proof. unfold word64. intros Hb. rewrite Z.lor_comm, lor_shiftl_add by lia. lia. Qed.

Lemma check_hash_128_ok hash d : is_bytes 32 hash -> 0 <= d < 2 ^ 128 ->
  check_hash_128 hash d = (le_combine hash * d <? 2 ^ 256).
Proof.
  intros Hh Hd. destruct (words_of_value hash Hh) as (E & W0 & W1 & W2 & W3). unfold check_hash_128.
  cbn [seq foldl Nat.sub]. set (w0 := at_ _ 0) in *. set (w1 := at_ _ 1) in *. set (w2 := at_ _ 2) in *. set (w3 := at_ _ 3) in *.
  clearbody w0 w1 w2 w3. assert (S : forall a, 0 <= a < 2 ^ 192 -> wrap 512 (Z.shiftl a 64) = Z.shiftl a 64).
  { intros a Ha. rewrite Z.shiftl_mul_pow2 by lia. apply wrap_small. lia. }
  unfold word64 in *. rewrite (S 0), lor_shl64 by (unfold word64; lia). rewrite (S (0 * 2 ^ 64 + w3)), lor_shl64 by (unfold word64; lia).
  rewrite (S ((0 * 2 ^ 64 + w3) * 2 ^ 64 + w2)), lor_shl64 by (unfold word64; lia).
  rewrite (S (((0 * 2 ^ 64 + w3) * 2 ^ 64 + w2) * 2 ^ 64 + w1)), lor_shl64 by (unfold word64; lia).
  replace ((((0 * 2 ^ 64 + w3) * 2 ^ 64 + w2) * 2 ^ 64 + w1) * 2 ^ 64 + w0) with (le_combine hash) by lia.
  assert (0 <= le_combine hash < 2 ^ 256) by lia. rewrite wrap_small by nia.
  unfold max256bit. destruct (Z.leb_spec (le_combine hash * d) (2 ^ 256 - 1)), (Z.ltb_spec (le_combine hash * d) (2 ^ 256)); lia.
Qed.

(** A hash passes [check_hash] exactly when the product of the hash, as a 256-bit
    little-endian number, and the difficulty is below [2^256]; the 64-bit and the
    128-bit routines agree with it and with each other on every difficulty they are
    both called for. *)
Theorem check_hash_exact portable hash d : is_bytes 32 hash -> 0 <= d < 2 ^ 128 ->
  check_hash portable hash d = Some (le_combine hash * d <? 2 ^ 256) /\
  check_hash_128 hash d = (le_combine hash * d <? 2 ^ 256) /\
  (d < 2 ^ 64 -> check_hash_64 portable hash d = Some (le_combine hash * d <? 2 ^ 256)).
Proof.
  intros Hh Hd. split; [| split; [by apply check_hash_128_ok | intros; apply check_hash_64_ok; [done | unfold word64; lia]]].
  unfold check_hash, max64bit. destruct (Z.leb_spec d (2 ^ 64 - 1)).
  - rewrite wrap_small by lia. apply check_hash_64_ok; [done | unfold word64; lia].
  - by rewrite check_hash_128_ok.
Qed.

Lemma check_hash_witness : check_hash false (replicate 31 255 ++ [0]) 256 = Some true /\
  check_hash false (replicate 31 255 ++ [0]) 257 = Some false.
Proof.
  assert (B : is_bytes 32 (replicate 31 255 ++ [0])) by (split; [reflexivity | repeat constructor; unfold is_byte; lia]).
  rewrite (proj1 (check_hash_exact false _ 256 B ltac:(lia))), (proj1 (check_hash_exact false _ 257 B ltac:(lia))).
  split; vm_compute; reflexivity.
Defined.

(** ** The window *)

(** The middle [window] entries of the sorted timestamps of the first [blocks]
    blocks span [span] seconds, and the blocks at its ends [work]. *)
Definition slice_of (blocks window : nat) (ts cd : list Z) (b : nat) (span work : Z) : Prop :=
  exists t0 t1 c0 c1,
    let l := sort (take blocks ts) in
    let kept := Nat.min window (length l) in
    b = ((length l - kept + 1) / 2)%nat /\
    l !! b = Some t0 /\ l !! (b + kept - 1)%nat = Some t1 /\ cd !! b = Some c0 /\ cd !! (b + kept - 1)%nat = Some c1 /\
    span = Z.max 1 (t1 - t0) /\ work = c1 - c0.

Lemma sort_permutation l : sort l ≡ₚ l.
Proof. apply merge_sort_Permutation. Qed.

Lemma sort_length l : length (sort l) = length l.
Proof. apply Permutation_length, sort_permutation. Qed.

Lemma sort_sorted l : StronglySorted Z.le (sort l).
Proof. unfold sort. apply StronglySorted_merge_sort; [intros x y z; lia | intros x y; lia]. Qed.

Lemma sorted_lookup (R : Z -> Z -> Prop) l i j x y : StronglySorted R l -> (i < j)%nat -> l !! i = Some x -> l !! j = Some y -> R x y.
Proof.
  intros H. revert i j. induction H as [| a l H IH F]; intros i j Hij Hx Hy; [by rewrite lookup_nil in Hx |].
  destruct i as [| i], j as [| j]; try lia; simpl in Hx, Hy.
  - injection Hx as <-. by apply (Forall_lookup_1 _ _ _ _ F Hy).
  - apply (IH i j); [lia | done | done].
Qed.

Lemma cuts_ok len window : (2 <= window)%nat -> (2 <= len)%nat ->
  let kept := Nat.min window len in
  cuts len window = ((len - kept + 1) / 2, (len - kept + 1) / 2 + kept)%nat /\
  (2 <= kept)%nat /\ ((len - kept + 1) / 2 + kept <= len)%nat.
Proof.
  intros Hw Hl. cbv zeta. unfold cuts. destruct (Nat.leb_spec len window).
  - rewrite Nat.min_r by lia. replace (len - len + 1)%nat with 1%nat by lia. change (1 / 2)%nat with 0%nat. simpl. split; [done | lia].
  - rewrite Nat.min_l by lia. split; [done |]. split; [lia |].
    pose proof (Nat.Div0.div_lt_upper_bound (len - window + 1) 2 (len - window + 1)). 
    pose proof (Nat.div_mod_eq (len - window + 1) 2). lia.
Qed.

Section Window.
Context (width : Z) (blocks window : nat) (ts cd : list Z).
Context (Hw : (2 <= window <= blocks)%nat) (Hlen : length ts = length cd) (Hn : (2 <= length ts)%nat) (Hwidth : 0 <= width).
Context (Hts : Forall word64 ts) (Hcd : StronglySorted Z.lt cd) (Hcdw : Forall (fun c => 0 <= c < 2 ^ width) cd).

Lemma window_work_ok : exists b e span work,
  window_work width blocks window ts cd = Some (Some (sort (take blocks ts), b, e, span, work)) /\
  slice_of blocks window ts cd b span work /\ 1 <= span < 2 ^ 64 /\ 0 < work < 2 ^ width.
Proof.
  unfold window_work.
  assert (R : (if (blocks <? length ts)%nat then (resize blocks ts, resize blocks cd) else (ts, cd)) = (take blocks ts, take blocks cd)).
  { unfold resize. destruct (Nat.ltb_spec blocks (length ts)).
    - rewrite <- Hlen. replace (blocks - length ts)%nat with 0%nat by lia. by rewrite !app_nil_r.
    - by rewrite !take_ge by lia. }
  rewrite R. set (len := length (take blocks ts)). assert (Ll : len = Nat.min blocks (length ts)) by apply length_take.
  assert (Lc : length (take blocks cd) = len) by (rewrite length_take; lia).
  rewrite Lc, Nat.eqb_refl. cbn [guard mbind option_bind]. rewrite (proj2 (Nat.leb_gt _ _)) by lia.
  destruct (cuts_ok len window ltac:(lia) ltac:(lia)) as (-> & Hk & He). set (kept := Nat.min window len) in *.
  set (b := ((len - kept + 1) / 2)%nat) in *. assert (Hb : b = ((len - kept + 1) / 2)%nat) by done. clearbody b.
  rewrite (proj2 (Nat.leb_le _ _)), (proj2 (Nat.leb_le _ _)) by lia. cbn [andb guard mbind option_bind].
  assert (Ls : length (sort (take blocks ts)) = len) by apply sort_length.
  destruct (lookup_lt_is_Some_2 (sort (take blocks ts)) (b + kept - 1)) as [t1 Et1]; [lia |].
  destruct (lookup_lt_is_Some_2 (sort (take blocks ts)) b) as [t0 Et0]; [lia |].
  destruct (lookup_lt_is_Some_2 (take blocks cd) (b + kept - 1)) as [c1 Ec1]; [lia |].
  destruct (lookup_lt_is_Some_2 (take blocks cd) b) as [c0 Ec0]; [lia |].
  rewrite Et1, Et0, Ec1, Ec0. cbn [mbind option_bind].
  assert (Ws : Forall word64 (sort (take blocks ts))) by (rewrite sort_permutation; by apply Forall_take).
  pose proof (Forall_lookup_1 _ _ _ _ Ws Et1) as W1. pose proof (Forall_lookup_1 _ _ _ _ Ws Et0) as W0. cbv beta in W0, W1.
  pose proof (sorted_lookup _ _ b (b + kept - 1) _ _ (sort_sorted _) ltac:(lia) Et0 Et1) as Lt.
  rewrite lookup_take_lt in Ec0, Ec1 by lia.
  pose proof (sorted_lookup _ _ b (b + kept - 1) _ _ Hcd ltac:(lia) Ec0 Ec1) as Lcd.
  pose proof (Forall_lookup_1 _ _ _ _ Hcdw Ec1) as V1. pose proof (Forall_lookup_1 _ _ _ _ Hcdw Ec0) as V0. cbv beta in V0, V1.
  unfold word64 in W0, W1. rewrite (wrap_small 64 (t1 - t0)) by lia. rewrite (wrap_small width (c1 - c0)) by lia.
  exists b, (b + kept)%nat, (Z.max 1 (t1 - t0)), (c1 - c0). split.
  { assert (Sp : (if t1 - t0 =? 0 then 1 else t1 - t0) = Z.max 1 (t1 - t0)) by (destruct (Z.eqb_spec (t1 - t0) 0); lia).
    by rewrite Sp. }
  split; [| lia]. exists t0, t1, c0, c1. cbv zeta. rewrite Ls. fold kept. done.
Qed.
End Window.

Lemma slice_unique blocks window ts cd b b' span span' work work' :
  slice_of blocks window ts cd b span work -> slice_of blocks window ts cd b' span' work' ->
  b = b' /\ span = span' /\ work = work'.
Proof.
  intros (t0 & t1 & c0 & c1 & -> & E1 & E2 & E3 & E4 & -> & ->) (t0' & t1' & c0' & c1' & -> & F1 & F2 & F3 & F4 & -> & ->).
  rewrite E1 in F1. rewrite E2 in F2. rewrite E3 in F3. rewrite E4 in F4. split; [done |]. split; congruence.
Qed.

Definition ceiling (n d : Z) : Z := (n + d - 1) / d.

Lemma ceiling_pos n d : 0 < n -> 1 <= d -> 1 <= ceiling n d <= n.
Proof.
  intros Hn Hd. unfold ceiling. split; [apply Z.div_le_lower_bound; lia |].
  apply Z.lt_succ_r, Z.div_lt_upper_bound; nia.
Qed.

(** For at least two blocks with increasing cumulative difficulties,
    [next_difficulty] returns the work of the middle of the window times the target,
    divided by its time span and rounded up; it is positive, and the 64-bit version
    returns the same value or, when the numerator does not fit 64 bits, zero. *)
Theorem next_difficulty_exact portable ts cd target :
  length ts = length cd -> (2 <= length ts)%nat -> Forall word64 ts -> StronglySorted Z.lt cd -> Forall word64 cd ->
  0 < target < 2 ^ 64 ->
  exists b span work, slice_of 720 600 ts cd b span work /\ 1 <= span < 2 ^ 64 /\ 0 < work < 2 ^ 64 /\
    1 <= ceiling (work * target) span /\
    next_difficulty ts cd target = Some (ceiling (work * target) span) /\
    next_difficulty_64 portable ts cd target =
      Some (if work * target + span - 1 <? 2 ^ 64 then ceiling (work * target) span else 0).
Proof.
  intros Hl Hn Ht Hc Wc Htg.
  assert (W128 : Forall (fun c => 0 <= c < 2 ^ 128) cd) by (revert Wc; apply Forall_impl; unfold word64; intros; lia).
  destruct (window_work_ok 128 720 600 ts cd) as (b & e & span & work & E & S & Bs & Bw); try done; [lia |].
  destruct (window_work_ok 64 720 600 ts cd) as (b' & e' & span' & work' & E' & S' & Bs' & Bw'); try done; [lia |].
  destruct (slice_unique _ _ _ _ _ _ _ _ _ _ S S') as (<- & <- & <-).
  exists b, span, work. split; [done |]. split; [done |]. split; [done |].
  pose proof (product_word work target ltac:(unfold word64; lia) ltac:(unfold word64; lia)) as Bp.
  assert (0 < work * target) by nia.
  pose proof (ceiling_pos (work * target) span ltac:(lia) ltac:(lia)) as Bc. split; [lia |].
  unfold next_difficulty, next_difficulty_64.
  change DIFFICULTY_WINDOW with 720%nat. change (720 - 2 * DIFFICULTY_CUT)%nat with 600%nat.
  rewrite E, E'. cbn [mbind option_bind]. rewrite (proj2 (Z.ltb_lt 0 work)) by lia. cbn [guard mbind option_bind].
  split.
  - rewrite (wrap_small 256 (work * target)), (wrap_small 256 (work * target + span)), (wrap_small 256 (_ - 1)) by lia.
    fold (ceiling (work * target) span). unfold max128bit. rewrite (proj2 (Z.ltb_ge _ _)), wrap_small by lia. done.
  - rewrite mul_ok by (unfold word64; lia). cbn [mbind option_bind]. set (n := work * target) in *. clearbody n.
    destruct (Z.ltb_spec (n + span - 1) (2 ^ 64)) as [F | F].
    + rewrite (Z.div_small n), Z.mod_small by lia. cbn [Z.eqb negb orb].
      assert (U : u64 (u64 (n + span) - 1) = n + span - 1) by (unfold wrap; zlia). rewrite U.
      rewrite (proj2 (Z.ltb_ge _ _)) by lia. done.
    + destruct (Z.eqb_spec (n / 2 ^ 64) 0) as [Z0 | Z0]; [| done]. cbn [negb orb].
      assert (U : u64 (u64 (n mod 2 ^ 64 + span) - 1) = n + span - 1 - 2 ^ 64) by (unfold wrap; zlia). rewrite U.
      rewrite (proj2 (Z.ltb_lt _ _)) by zlia. done.
Qed.

Lemma next_difficulty_witness : exists b span work, slice_of 720 600 [300; 0; 240] [10; 20; 40] b span work /\
  next_difficulty [300; 0; 240] [10; 20; 40] 240 = Some (ceiling (work * 240) span).
Proof.
  destruct (next_difficulty_exact false [300; 0; 240] [10; 20; 40] 240) as (b & span & work & S & _ & _ & _ & E & _).
  - reflexivity.
  - simpl. lia.
  - repeat constructor; unfold word64; lia.
  - repeat constructor.
  - repeat constructor; unfold word64; lia.
  - lia.
  - exists b, span, work. split; [exact S | exact E].
Defined.

(** ** The second algorithm *)

Lemma adjusted_bounds ts b span : let n := Z.of_nat (length ts - b * 2 - 1) in
  MIN_AVERAGE_TIMESPAN * n <= adjusted_timespan ts b span <= MAX_AVERAGE_TIMESPAN * n.
Proof.
  cbv zeta. unfold adjusted_timespan. set (n := Z.of_nat _). assert (0 <= n) by lia.
  assert (M : MIN_AVERAGE_TIMESPAN * n <= MAX_AVERAGE_TIMESPAN * n) by (change MIN_AVERAGE_TIMESPAN with 10; change MAX_AVERAGE_TIMESPAN with 1440; lia).
  set (a := u64 _ / 10). clearbody a.
  destruct (Z.ltb_spec (MAX_AVERAGE_TIMESPAN * n) a).
  - rewrite (proj2 (Z.ltb_ge _ _)) by lia. lia.
  - destruct (Z.ltb_spec a (MIN_AVERAGE_TIMESPAN * n)); lia.
Qed.

(** [next_difficulty_v2] divides the work of the middle of its window times the
    target by an adjusted time span and rounds up, and the adjusted span is between
    10 and 1440 seconds a block whatever the timestamps are; it returns zero only
    when the quotient does not fit 128 bits. *)
Theorem next_difficulty_v2_bounds ts cd target :
  length ts = length cd -> (2 <= length ts)%nat -> Forall word64 ts -> StronglySorted Z.lt cd ->
  Forall (fun c => 0 <= c < 2 ^ 128) cd -> 0 < target < 2 ^ 64 ->
  exists b span work adjusted, slice_of 29 17 ts cd b span work /\ 0 < work < 2 ^ 128 /\
    (let n := Z.of_nat (Nat.min 29 (length ts) - 2 * b - 1) in 1 <= n <= 28 /\ 10 * n <= adjusted <= 1440 * n) /\
    next_difficulty_v2 ts cd target =
      Some (if ceiling (work * target) adjusted <? 2 ^ 128 then ceiling (work * target) adjusted else 0).
Proof.
  intros Hl Hn Ht Hc Wc Htg.
  destruct (window_work_ok 128 29 17 ts cd) as (b & e & span & work & E & S & Bs & Bw); try done; [lia |].
  pose proof (adjusted_bounds (sort (take 29 ts)) b span) as A. cbv zeta in A. rewrite sort_length, length_take in A.
  set (adjusted := adjusted_timespan (sort (take 29 ts)) b span) in *.
  assert (Hb : b = ((Nat.min 29 (length ts) - Nat.min 17 (Nat.min 29 (length ts)) + 1) / 2)%nat).
  { destruct S as (? & ? & ? & ? & -> & _). by rewrite sort_length, length_take. }
  assert (Hn' : (1 <= Nat.min 29 (length ts) - b * 2 - 1 <= 28)%nat).
  { pose proof (Nat.div_mod_eq (Nat.min 29 (length ts) - Nat.min 17 (Nat.min 29 (length ts)) + 1) 2).
    pose proof (Nat.mod_upper_bound (Nat.min 29 (length ts) - Nat.min 17 (Nat.min 29 (length ts)) + 1) 2 ltac:(lia)). lia. }
  change MIN_AVERAGE_TIMESPAN with 10 in A. change MAX_AVERAGE_TIMESPAN with 1440 in A.
  exists b, span, work, adjusted. split; [done |]. split; [done |]. split; [cbv zeta; rewrite (Nat.mul_comm 2); lia |].
  unfold next_difficulty_v2. change DIFFICULTY_BLOCKS_COUNT_V2 with 29%nat. change (29 - 2 * DIFFICULTY_CUT_V2)%nat with 17%nat.
  rewrite E. cbn [mbind option_bind]. fold adjusted. rewrite (proj2 (Z.ltb_lt 0 work)) by lia. cbn [guard mbind option_bind].
  assert (0 < work * target < 2 ^ 192) by nia.
  rewrite (wrap_small 256 (work * target)), (wrap_small 256 (work * target + adjusted)), (wrap_small 256 (_ - 1)) by lia.
  fold (ceiling (work * target) adjusted). pose proof (ceiling_pos (work * target) adjusted ltac:(lia) ltac:(lia)).
  unfold max128bit. destruct (Z.ltb_spec (2 ^ 128 - 1) (ceiling (work * target) adjusted)).
  - rewrite (proj2 (Z.ltb_ge _ _)) by lia. done.
  - rewrite (proj2 (Z.ltb_lt _ _)), wrap_small by lia. done.
Qed.

Lemma next_difficulty_v2_witness : exists b span work adjusted, slice_of 29 17 [0; 240] [0; 100] b span work /\
  next_difficulty_v2 [0; 240] [0; 100] 240 =
    Some (if ceiling (work * 240) adjusted <? 2 ^ 128 then ceiling (work * 240) adjusted else 0).
Proof.
  destruct (next_difficulty_v2_bounds [0; 240] [0; 100] 240) as (b & span & work & adjusted & S & _ & _ & E).
  - reflexivity.
  - simpl. lia.
  - repeat constructor; unfold word64; lia.
  - repeat constructor.
  - repeat constructor; lia.
  - lia.
  - exists b, span, work, adjusted. split; [exact S | exact E].
Defined.

(** Unlike the first algorithm, the 64-bit version of the second does not check
    the carry of its rounding term: with work whose product with the target just
    fits 64 bits it returns the minimum difficulty, where the 128-bit version
    returns the exact one. *)
Theorem next_difficulty_v2_64_wraps :
  let ts := [0; 240] in
  let cd := [0; 76861433640456465] in
  76861433640456465 * 240 < 2 ^ 64 /\
  next_difficulty_v2_64 false ts cd 240 = Some 1 /\
  next_difficulty_v2 ts cd 240 = Some 76226215180617982.
Proof. vm_compute. split; [reflexivity |]. split; reflexivity. Qed.
End Difficulty.
