(* ===== verification/Varint.v ===== *)
(** Variable-length integers: src/common/varint.h and their use in
    src/serialization/binary_archive.h.

    [write_varint] writes seven bits per byte, low bits first, the top bit of a
    byte saying that another one follows.  [read_varint bits] is the reader of
    an unsigned type of [w] bits, with the errors of the code as constructors.
    An integer of at most 64 bits takes at most ten bytes, the fuel of the
    writer. *)
From S2P Require Import Prelude.

Local Open Scope Z_scope.

Module Varint.

(** [while (i >= 0x80) { *dest = (i & 0x7f) | 0x80; ++dest; i >>= 7; } *dest = i;] *)
Fixpoint write_loop (fuel : nat) (i : Z) : option (list Z) :=
  if 0x80 <=? i then
    match fuel with
    | O => None
    | S fuel => l ← write_loop fuel (Z.shiftr i 7); Some (Z.lor (Z.land (u8 i) 0x7f) 0x80 :: l)
    end
  else Some [u8 i].

Definition write_varint (i : Z) : option (list Z) := write_loop 9 i.

Inductive varint_result : Set :=
| EVARINT_OVERFLOW
| EVARINT_REPRESENT
| varint_read (read : nat) (write : Z) (rest : list Z).

(** The loop over the input, from the shift [shift]; the end of the input ends
    the number. *)
Fixpoint read_loop (w bits : Z) (inp : list Z) (shift : Z) (read : nat) (write : Z) : varint_result :=
  match inp with
  | [] => varint_read read write []
  | byte :: inp =>
      if (bits <=? shift + 7) && (Z.shiftl 1 (bits - shift) <=? byte) then EVARINT_OVERFLOW else
      if (byte =? 0) && negb (shift =? 0) then EVARINT_REPRESENT else
      let write := Z.lor write (wrap w (Z.shiftl (Z.land byte 0x7f) shift)) in
      if Z.land byte 0x80 =? 0 then varint_read (S read) write inp
      else read_loop w bits inp (shift + 7) (S read) write
  end.

Definition read_varint (w bits : Z) (inp : list Z) : varint_result := read_loop w bits inp 0 0 0.

(** ** Arithmetic of one byte *)

Lemma land_7f b : Z.land b 0x7f = b mod 128.
Proof. exact (Z.land_ones b 7 ltac:(lia)). Qed.

Lemma land_80 b : is_byte b -> (Z.land b 0x80 =? 0) = (b <? 128).
Proof.
  intros H. assert (C : forallb (fun n => Bool.eqb (Z.land (Z.of_nat n) 0x80 =? 0) (Z.of_nat n <? 128)) (seq 0 256) = true)
    by reflexivity.
  rewrite forallb_forall in C. specialize (C (Z.to_nat b) ltac:(apply in_seq; unfold is_byte in H; lia)).
  rewrite Z2Nat.id in C by apply H. by apply eqb_prop.
Qed.

Lemma lor_80 b : 0 <= b < 128 -> Z.lor b 0x80 = b + 128.
Proof. intros H. exact (lor_shiftl_add b 1 7 ltac:(lia) H). Qed.

Lemma more_byte i : 0 <= i -> Z.lor (Z.land (u8 i) 0x7f) 0x80 = i mod 128 + 128.
Proof.
  intros H. rewrite land_7f. unfold wrap. change (2 ^ 8) with 256.
  replace ((i mod 256) mod 128) with (i mod 128) by zlia. apply lor_80, Z.mod_pos_bound. lia.
Qed.

(** ** Writing *)

(** The numbers of [n + 1] bytes. *)
Lemma write_loop_total n i : 0 <= i < 2 ^ (7 * (Z.of_nat n + 1)) -> exists l, write_loop n i = Some l.
Proof.
  revert i. induction n as [| n IH]; intros i Hi; cbn [write_loop]; destruct (Z.leb_spec 0x80 i) as [G | G];
    try (eexists; reflexivity).
  - simpl in Hi. lia.
  - destruct (IH (Z.shiftr i 7)) as [l ->]; [| eexists; reflexivity].
    rewrite Z.shiftr_div_pow2 by lia. split; [apply Z.div_pos; lia |]. apply Z.div_lt_upper_bound; [lia |].
    rewrite <- Z.pow_add_r by lia. replace (7 + 7 * (Z.of_nat n + 1)) with (7 * (Z.of_nat (S n) + 1)) by lia. lia.
Qed.

Lemma write_loop_shape n i l : 0 <= i -> write_loop n i = Some l ->
  (i < 128 /\ l = [i]) \/
  (128 <= i /\ exists l', write_loop (pred n) (i / 128) = Some l' /\ l = i mod 128 + 128 :: l' /\ n <> O).
Proof.
  intros Hi. destruct n as [| n]; cbn [write_loop]; destruct (Z.leb_spec 0x80 i) as [G | G]; try done.
  - intros [= <-]. left. split; [lia |]. f_equal. apply wrap_small. lia.
  - rewrite Z.shiftr_div_pow2 by lia. change (2 ^ 7) with 128. cbn [pred].
    destruct (write_loop n (i / 128)) as [l' |] eqn:E; [| done]. cbn [mbind option_bind]. intros [= <-].
    right. split; [lia |]. exists l'. by rewrite more_byte.
  - intros [= <-]. left. split; [lia |]. f_equal. apply wrap_small. lia.
Qed.

Lemma write_loop_length n i l : 0 <= i -> write_loop n i = Some l -> (length l <= n + 1)%nat /\ Forall is_byte l.
Proof.
  revert i l. induction n as [| n IH]; intros i l Hi H;
    destruct (write_loop_shape _ _ _ Hi H) as [(G & ->) | (G & l' & E & -> & N)]; try done;
    try (split; [simpl; lia |]; repeat constructor; unfold is_byte; lia).
  cbn [pred] in E. destruct (IH (i / 128) l') as [L B]; [apply Z.div_pos; lia | done |].
  split; [simpl; lia |]. constructor; [| done]. unfold is_byte. pose proof (Z.mod_pos_bound i 128). lia.
Qed.

(** ** Reading back *)

Lemma lor_place w write d shift : 0 <= shift -> 0 <= write < 2 ^ shift -> 0 <= d -> d * 2 ^ shift < 2 ^ w -> 
  Z.lor write (wrap w (Z.shiftl d shift)) = write + d * 2 ^ shift.
Proof.
  intros Hs Hw Hd Hb. rewrite wrap_small; [by apply lor_shiftl_add |]. rewrite Z.shiftl_mul_pow2 by lia.
  split; [| done]. apply Z.mul_nonneg_nonneg; lia.
Qed.

Lemma overflow_test bits shift b : 0 <= shift < bits -> 0 <= b ->
  (bits <=? shift + 7) && (Z.shiftl 1 (bits - shift) <=? b) = (bits <=? shift + 7) && (2 ^ (bits - shift) <=? b).
Proof. intros Hs Hb. by rewrite Z.shiftl_1_l. Qed.

(** One byte of a number that fits: it is placed and, unless it is the last,
    the reading goes on. *)
Lemma read_step w bits b inp shift read write :
  0 <= shift < bits -> bits <= w -> is_byte b -> 0 <= write < 2 ^ shift -> b mod 128 * 2 ^ shift < 2 ^ bits ->
  (b = 0 -> shift = 0) -> (128 <= b -> shift + 7 < bits) ->
  read_loop w bits (b :: inp) shift read write =
    if b <? 128 then varint_read (S read) (write + b mod 128 * 2 ^ shift) inp
    else read_loop w bits inp (shift + 7) (S read) (write + b mod 128 * 2 ^ shift).
Proof.
  intros Hs Hb By Hw Hf Hz Hm. cbn [read_loop]. rewrite overflow_test by (unfold is_byte in By; lia).
  assert (O : (bits <=? shift + 7) && (2 ^ (bits - shift) <=? b) = false).
  { apply andb_false_iff. destruct (Z.lt_ge_cases (shift + 7) bits) as [| G]; [left; lia | right]. apply Z.leb_gt.
    assert (b < 128) by lia. rewrite Z.mod_small in Hf by (unfold is_byte in By; lia).
    replace bits with (bits - shift + shift) in Hf by lia. rewrite Z.pow_add_r in Hf by lia.
    apply Z.mul_lt_mono_pos_r in Hf; [done | apply Z.pow_pos_nonneg; lia]. }
  rewrite O. assert (Z0 : (b =? 0) && negb (shift =? 0) = false).
  { destruct (Z.eqb_spec b 0) as [E | E]; [| done]. by rewrite (Hz E). }
  rewrite Z0, land_80, land_7f by done. rewrite lor_place; [done | lia | done | apply Z.mod_pos_bound; lia |].
  apply (Z.lt_le_trans _ _ _ Hf), Z.pow_le_mono_r; lia.
Qed.

Lemma read_write w bits n i l inp shift read write :
  0 <= shift < bits -> bits <= w -> 0 <= write < 2 ^ shift -> 0 <= i -> i * 2 ^ shift < 2 ^ bits ->
  (i = 0 -> shift = 0) -> write_loop n i = Some l ->
  read_loop w bits (l ++ inp) shift read write = varint_read (read + length l) (write + i * 2 ^ shift) inp.
Proof.
  intros Hs Hb. revert i l shift read write Hs. induction n as [| n IH]; intros i l shift read write Hs Hw Hi Hf Hz H;
    destruct (write_loop_shape _ _ _ Hi H) as [(G & ->) | (G & l' & E & -> & N)]; try done.
  1, 2: cbn [app length]; rewrite (read_step w bits i inp) by (rewrite ?(Z.mod_small i 128) by lia; unfold is_byte; done || lia);
    rewrite (proj2 (Z.ltb_lt _ _)), Z.mod_small by lia; f_equal; lia.
  cbn [pred] in E. pose proof (Z.mod_pos_bound i 128 ltac:(lia)) as M. pose proof (Z.div_mod i 128 ltac:(lia)) as D.
  assert (P : 0 < 2 ^ shift) by (apply Z.pow_pos_nonneg; lia).
  assert (Q : 2 ^ (shift + 7) = 2 ^ shift * 128) by (rewrite Z.pow_add_r by lia; done).
  assert (S7 : shift + 7 < bits).
  { destruct (Z.lt_ge_cases (shift + 7) bits) as [| X]; [done | exfalso].
    assert (2 ^ bits <= 2 ^ (shift + 7)) by (apply Z.pow_le_mono_r; lia). nia. }
  cbn [app length].
  assert (R : (i mod 128 + 128) mod 128 = i mod 128).
  { replace (i mod 128 + 128) with (i mod 128 + 1 * 128) by lia. rewrite Z_mod_plus_full. apply Z.mod_mod. lia. }
  rewrite (read_step w bits (i mod 128 + 128)) by (rewrite ?R; unfold is_byte; try done; nia).
  rewrite (proj2 (Z.ltb_ge _ _)), R by lia.
  rewrite (IH (i / 128) l') by (rewrite ?Q; try done; try nia; apply Z.div_pos; lia).
  f_equal; [lia |]. rewrite Q. nia.
Qed.

(** The result does not depend on the fuel. *)
Lemma write_loop_agree n m i l l' : 0 <= i -> write_loop n i = Some l -> write_loop m i = Some l' -> l = l'.
Proof.
  revert m i l l'. induction n as [| n IH]; intros m i l l' Hi H H';
    destruct (write_loop_shape _ _ _ Hi H) as [(G & ->) | (G & k & E & -> & N)]; try done;
    destruct (write_loop_shape _ _ _ Hi H') as [(G' & ->) | (G' & k' & E' & -> & N')]; try done; try lia.
  cbn [pred] in E. f_equal. eapply IH; [| exact E | exact E']. apply Z.div_pos; lia.
Qed.

(** A byte that passes the overflow test fits, and is the last one unless more
    bits remain. *)
Lemma place_bounds bits shift b : 0 <= shift < bits -> is_byte b ->
  (bits <=? shift + 7) && (2 ^ (bits - shift) <=? b) = false ->
  (shift + 7 < bits \/ b < 128) /\ b mod 128 * 2 ^ shift + 2 ^ shift <= 2 ^ bits.
Proof.
  intros Hs Hby O. pose proof (Z.mod_pos_bound b 128 ltac:(lia)) as M. unfold is_byte in Hby.
  assert (P : 0 < 2 ^ shift) by (apply Z.pow_pos_nonneg; lia).
  destruct (Z.lt_ge_cases (shift + 7) bits) as [F | F].
  - split; [by left |]. assert (Q : 2 ^ (shift + 7) <= 2 ^ bits) by (apply Z.pow_le_mono_r; lia).
    rewrite Z.pow_add_r in Q by lia. change (2 ^ 7) with 128 in Q. nia.
  - rewrite (proj2 (Z.leb_le _ _) F) in O. apply Z.leb_gt in O.
    assert (b < 128) by (apply (Z.lt_le_trans _ _ _ O); change 128 with (2 ^ 7); apply Z.pow_le_mono_r; lia).
    split; [by right |]. rewrite Z.mod_small by lia.
    replace bits with (bits - shift + shift) by lia. rewrite (Z.pow_add_r 2 (bits - shift)) by lia. nia.
Qed.

(** The encoding of [d + 128 u] from the one of [u]. *)
Lemma write_loop_cons m u c b : 0 < u -> 128 <= b < 256 -> write_loop m u = Some c ->
  write_loop (S m) (b mod 128 + 128 * u) = Some (b :: c).
Proof.
  intros Hu Hby Em. pose proof (Z.mod_pos_bound b 128 ltac:(lia)) as M. cbn [write_loop].
  rewrite (proj2 (Z.leb_le _ _)), Z.shiftr_div_pow2, more_byte by lia. change (2 ^ 7) with 128.
  replace ((b mod 128 + 128 * u) / 128) with u by zlia. rewrite Em. cbn [mbind option_bind].
  do 2 f_equal. zlia.
Qed.

(** What a successful reading says of its input. *)
Lemma read_inv w bits inp shift read write n v rest :
  0 <= shift < bits -> bits <= w -> Forall is_byte inp -> 0 <= write < 2 ^ shift ->
  read_loop w bits inp shift read write = varint_read n v rest ->
  exists u c, v = write + u * 2 ^ shift /\ 0 <= u /\ v < 2 ^ bits /\ inp = c ++ rest /\ n = (read + length c)%nat /\
    (((exists m, write_loop m u = Some c) /\ (u = 0 -> shift = 0)) \/ (rest = [] /\ Forall (fun b => 128 <= b) c)).
Proof.
  intros Hs Hb B. revert shift read write Hs. induction B as [| b inp Hby B IH]; intros shift read write Hs Hw H.
  - injection H as <- <- <-. exists 0, []. assert (2 ^ shift <= 2 ^ bits) by (apply Z.pow_le_mono_r; lia).
    split_and!; [lia | lia | lia | done | simpl; lia | by right].
  - cbn [read_loop] in H. rewrite overflow_test in H by (unfold is_byte in Hby; lia).
    destruct ((bits <=? shift + 7) && (2 ^ (bits - shift) <=? b)) eqn:O; [done |].
    destruct ((b =? 0) && negb (shift =? 0)) eqn:Z0; [done |].
    rewrite land_80, land_7f in H by done. pose proof (Z.mod_pos_bound b 128 ltac:(lia)) as M.
    assert (P : 0 < 2 ^ shift) by (apply Z.pow_pos_nonneg; lia).
    assert (Q : 2 ^ (shift + 7) = 2 ^ shift * 128) by (rewrite Z.pow_add_r by lia; done).
    destruct (place_bounds bits shift b Hs Hby O) as [F F'].
    assert (F2 : 2 ^ bits <= 2 ^ w) by (apply Z.pow_le_mono_r; lia).
    rewrite lor_place in H by lia. unfold is_byte in Hby.
    destruct (Z.ltb_spec b 128) as [G | G].
    + injection H as <- <- <-. exists b, [b]. rewrite (Z.mod_small b 128) in * by lia.
      split_and!; [done | lia | lia | done | simpl; lia | left; split].
      * exists 0%nat. cbn [write_loop]. rewrite (proj2 (Z.leb_gt _ _)) by lia. do 2 f_equal. apply wrap_small. lia.
      * intros ->. destruct (Z.eqb_spec shift 0); [done | discriminate Z0].
    + destruct F as [F |]; [| lia].
      destruct (IH (shift + 7) (S read) (write + b mod 128 * 2 ^ shift)) as (u & c & -> & Hu & Hv & -> & -> & D); [lia | nia | done |].
      exists (b mod 128 + 128 * u), (b :: c). rewrite Q in *. cbn [app length].
      split_and!; [nia | lia | lia | done | lia |].
      destruct D as [[[m Em] Zu] | [-> D]]; [left | right; split; [done | by constructor]].
      assert (Nu : u <> 0) by (intros ->; specialize (Zu eq_refl); lia).
      split; [| lia]. exists (S m). by apply write_loop_cons; [lia | lia |].
Qed.

Lemma write_varint_ok i : 0 <= i < 2 ^ 64 ->
  exists l, write_varint i = Some l /\ (1 <= length l <= 10)%nat /\ Forall is_byte l.
Proof.
  intros Hi. destruct (write_loop_total 9 i) as [l E].
  { split; [lia |]. apply (Z.lt_le_trans _ (2 ^ 64)); [lia | by apply Z.pow_le_mono_r]. }
  exists l. split; [exact E |]. destruct (write_loop_length 9 i l) as [L B]; [lia | done |].
  destruct (write_loop_shape _ _ _ (proj1 Hi) E) as [(_ & ->) | (_ & l' & _ & -> & _)]; clear E;
    cbn [length] in *; (split; [lia | done]).
Qed.

(** What is written is read back from the front of any input. *)
Lemma read_written w bits i rest : 0 < bits <= 64 -> bits <= w -> 0 <= i < 2 ^ bits ->
  exists l, write_varint i = Some l /\ (1 <= length l <= 10)%nat /\ Forall is_byte l /\
    read_varint w bits (l ++ rest) = varint_read (length l) i rest.
Proof.
  intros Hb Hw Hi. destruct (write_varint_ok i) as (l & E & L & B).
  { split; [lia |]. apply (Z.lt_le_trans _ (2 ^ bits)); [lia | apply Z.pow_le_mono_r; lia]. }
  exists l. split; [exact E |]. split; [lia |]. split; [exact B |]. unfold read_varint.
  rewrite (read_write w bits 9 i l) by (rewrite ?Z.mul_1_r; done || lia). f_equal; lia.
Qed.

(** What is read is what is written, unless the input ends inside the number. *)
Lemma read_canonical w bits inp n v rest : 0 < bits <= 64 -> bits <= w -> Forall is_byte inp ->
  read_varint w bits inp = varint_read n v rest ->
  0 <= v < 2 ^ bits /\ inp = take n inp ++ rest /\
  (write_varint v = Some (take n inp) \/ (rest = [] /\ Forall (fun b => 128 <= b) inp)).
Proof.
  intros Hb Hw B H. destruct (read_inv w bits inp 0 0 0 n v rest) as (u & c & -> & Hu & Hv & -> & -> & D); [lia | done | done | simpl; lia | exact H |].
  cbn [Nat.add]. rewrite Z.mul_1_r, Z.add_0_l in *. rewrite take_app_length. split; [lia |]. split; [done |].
  destruct D as [[[m Em] _] | [-> D]]; [left | right; by rewrite app_nil_r].
  destruct (write_varint_ok u) as (l & E & _).
  { split; [lia |]. apply (Z.lt_le_trans _ (2 ^ bits)); [lia | apply Z.pow_le_mono_r; lia]. }
  rewrite E. f_equal. by apply (write_loop_agree 9 m u).
Qed.

(** Every integer of [bits <= 64] bits is written in at most ten bytes, and
    the reader for that size reads it back from the front of any input, leaving
    the bytes that follow. *)
Theorem varint_roundtrip w bits i rest : 0 < bits <= 64 -> bits <= w -> 0 <= i < 2 ^ bits ->
  exists l, write_varint i = Some l /\ (1 <= length l <= 10)%nat /\ Forall is_byte l /\
    read_varint w bits (l ++ rest) = varint_read (length l) i rest.
Proof. exact (read_written w bits i rest). Qed.

Lemma varint_roundtrip_witness : exists l, write_varint (2 ^ 64 - 1) = Some l /\ (1 <= length l <= 10)%nat /\ Forall is_byte l /\
    read_varint 64 64 (l ++ [7]) = varint_read (length l) (2 ^ 64 - 1) [7].
Proof. apply (varint_roundtrip 64 64 (2 ^ 64 - 1) [7]); lia. Defined.

(** What the reader accepts is the canonical encoding: the value fits the
    size asked for and the bytes consumed are the ones the writer produces for
    it, except when the input ends inside a number, where the reader takes all
    of it, every byte announcing another one, as a complete number. *)
Theorem varint_canonical w bits inp n v rest : 0 < bits <= 64 -> bits <= w -> Forall is_byte inp ->
  read_varint w bits inp = varint_read n v rest ->
  0 <= v < 2 ^ bits /\ inp = take n inp ++ rest /\
  (write_varint v = Some (take n inp) \/ (rest = [] /\ Forall (fun b => 128 <= b) inp)).
Proof. exact (read_canonical w bits inp n v rest). Qed.

Lemma varint_canonical_witness : write_varint 300 = Some [0xac; 0x02].
Proof.
  assert (B : Forall is_byte [0xac; 0x02; 0x05]) by (repeat constructor; done).
  destruct (varint_canonical 32 32 [0xac; 0x02; 0x05] 2 300 [0x05] ltac:(lia) ltac:(lia) B eq_refl) as (_ & _ & [E | [E _]]);
    [exact E | discriminate E].
Defined.

(** The two examples of the header comment of varint.h: the bytes [80 02] are
    read as [0x100] and the bytes [ff 02] as [0x17f], since the second byte is
    placed seven bits up (the comment says [0x200] and [0x027f]). *)
Theorem varint_examples :
  read_varint 64 64 [0x80; 0x02] = varint_read 2 0x100 [] /\ read_varint 64 64 [0xff; 0x02] = varint_read 2 0x17f [].
Proof. by split. Qed.
End Varint.
