(* ===== verification/Archive.v ===== *)
(** The binary archive of src/serialization/binary_archive.h and the templates of
    serialization.h, container.h and variant.h that run on it.

    A serializer is one function for both directions, as in the code: on a [saving]
    archive it appends the value, on a [loading] one it overwrites the value by what it
    reads. [None] is [return false] or a stream that is not good: every caller tests
    both before it goes on. *)
From S2P Require Import Prelude Varint.

Local Open Scope Z_scope.

Module Archive.
Import Varint.

Inductive archive := saving (out : list Z) | loading (inp : list Z).

Definition ser (A : Type) := A -> archive -> option (A * archive).

(** An unsigned integer of [n] bytes. *)
Definition serialize_uint (n : nat) : ser Z := fun v ar =>
  match ar with
  | saving out => Some (v, saving (out ++ le_split n v))
  | loading inp => if (n <=? length inp)%nat then Some (le_combine (take n inp), loading (drop n inp)) else None
  end.

Definition serialize_blob (n : nat) : ser (list Z) := fun v ar =>
  match ar with
  | saving out => Some (v, saving (out ++ v))
  | loading inp => if (n <=? length inp)%nat then Some (take n inp, loading (drop n inp)) else None
  end.

(** A variable-length integer of an unsigned type of [w] bits. *)
Definition serialize_varint (w : Z) : ser Z := fun v ar =>
  match ar with
  | saving out => b ← write_varint v; Some (v, saving (out ++ b))
  | loading inp =>
      match read_varint w w inp with
      | varint_read _ v rest => Some (v, loading rest)
      | _ => None
      end
  end.

Definition eof (ar : archive) : bool :=
  match ar with saving _ => true | loading inp => (length inp =? 0)%nat end.

(** The bytes written or read between two states of an archive: the difference of [getpos]. *)
Definition between (ar ar' : archive) : nat :=
  match ar, ar' with
  | saving out, saving out' => length out' - length out
  | loading inp, loading inp' => length inp - length inp'
  | _, _ => 0
  end.

Section Vectors.
Context {A : Type} (e : ser A) (fresh : A).

Fixpoint each (l : list A) (ar : archive) : option (list A * archive) :=
  match l with
  | [] => Some ([], ar)
  | x :: l => '(x, ar) ← e x ar; '(l, ar) ← each l ar; Some (x :: l, ar)
  end.

(** Both overloads of [do_serialize_container]. *)
Definition container : ser (list A) := fun v ar =>
  '(cnt, ar) ← serialize_varint 64 (Z.of_nat (length v)) ar;
  match ar with
  | saving _ => each v ar
  | loading inp => if Z.of_nat (length inp) <? cnt then None else each (replicate (Z.to_nat cnt) fresh) ar
  end.

(** [std::vector::resize]. *)
Definition resize (n : nat) (l : list A) : list A := take n l ++ replicate (n - length l) fresh.

Definition prepare_custom_vector (n : nat) (v : list A) (ar : archive) : list A :=
  match ar with saving _ => v | loading _ => resize n v end.

(** A vector whose size is known and not part of the data. *)
Definition custom_vector (n : nat) : ser (list A) := fun v ar =>
  let v := prepare_custom_vector n v ar in
  if negb (length v =? n)%nat then None else each v ar.
End Vectors.

(** A part that is only there under a condition. *)
Definition when {A} (c : bool) (s : ser A) : ser A := fun v ar => if c then s v ar else Some (v, ar).

(** [::serialization::serialize]. *)
Definition serialize {A} (s : ser A) : ser A := fun v ar =>
  '(v, ar) ← s v ar;
  if eof ar then Some (v, ar) else None.

(** ** Round trips *)

(** [x] is saved as [b], and loading [b] over [old] gives [m old]. *)
Record trip {A} (s : ser A) (x : A) (b : list Z) (m : A -> A) : Prop := {
  trip_save out : s x (saving out) = Some (x, saving (out ++ b));
  trip_load old rest : s old (loading (b ++ rest)) = Some (m old, loading rest);
  trip_bytes : Forall is_byte b }.

(** What a component promises to the ones that contain it: every value that is [ok] makes
    a round trip through at least one byte, up to the fields that are not saved, which
    [merge old x] takes from the old value. *)
Class Codec {A} (s : ser A) (ok : A -> Prop) (merge : A -> A -> A) : Prop :=
  codec_trip x : ok x -> exists b, b <> [] /\ trip s x b (fun old => merge old x).

(** Every field is saved. *)
Definition overwrite {A} (old x : A) : A := x.

#[export] Instance uint_codec n : Codec (serialize_uint (S n)) (fun v => 0 <= v < 256 ^ Z.of_nat (S n)) overwrite.
Proof.
  intros v Hv. exists (le_split (S n) v). split; [done |]. pose proof (le_split_bytes (S n) v) as [L B]. split; [done | | done].
  intros old rest. unfold serialize_uint. rewrite length_app, L, (proj2 (Nat.leb_le _ _)) by lia.
  rewrite take_app_length', drop_app_length' by done. by rewrite le_combine_split.
Qed.

#[export] Instance blob_codec n : Codec (serialize_blob (S n)) (is_bytes (S n)) overwrite.
Proof.
  intros v [L B]. exists v. split; [by destruct v |]. split; [done | | done]. intros old rest. unfold serialize_blob.
  rewrite length_app, L, (proj2 (Nat.leb_le _ _)) by lia. by rewrite take_app_length', drop_app_length'.
Qed.

Lemma varint_trip w v : 0 < w <= 64 -> 0 <= v < 2 ^ w -> exists b, b <> [] /\ trip (serialize_varint w) v b (fun _ => v).
Proof.
  intros Hw Hv. destruct (read_written w w v [] ltac:(lia) ltac:(lia) Hv) as (b & Eb & L & B & _). exists b.
  split; [by destruct b; [simpl in L; lia |] |]. split; [| | done].
  - intros out. unfold serialize_varint. by rewrite Eb.
  - intros old rest. unfold serialize_varint. destruct (read_written w w v rest ltac:(lia) ltac:(lia) Hv) as (b' & Eb' & _ & _ & Er).
    rewrite Eb in Eb'. injection Eb' as <-. by rewrite Er.
Qed.

#[export] Instance varint64_codec : Codec (serialize_varint 64) (fun v => 0 <= v < 2 ^ 64) overwrite.
Proof. intros v Hv. exact (varint_trip 64 v ltac:(lia) Hv). Qed.

(** The steps of a composite serializer, from the round trips of its parts. *)
Ltac saves := repeat match goal with T : trip ?s ?x ?b _ |- context [?s ?x (saving ?o)] => rewrite (trip_save _ _ _ _ T o); bind end.
Ltac loads := repeat match goal with T : trip ?s _ ?b _ |- context [?s ?old (loading (?b ++ ?r))] => rewrite (trip_load _ _ _ _ T old r); bind end.

(** The round trip of a part of [v] whose well-formedness is [H]. *)
Tactic Notation "part" constr(H) "as" ident(b) ident(N) ident(T) := destruct (codec_trip _ H) as (b & N & T).

Lemma app_nonempty {A} (b c : list A) : b <> [] -> b ++ c <> [].
Proof. by destruct b. Qed.

Lemma app_nonempty_r {A} (b c : list A) : c <> [] -> b ++ c <> [].
Proof. by destruct b. Qed.

(** A composite that is saved as [b1 ++ b2 ++ ...]. *)
Ltac composite b := exists b; split; [first [by apply app_nonempty | by apply app_nonempty_r, app_nonempty | by apply app_nonempty_r | done] |]; split;
  [intros out; saves; rewrite <- ?app_assoc; try match goal with |- _ = Some (?v, _) => by destruct v end | intros old rest; rewrite <- ?app_assoc; loads |
   repeat (apply Forall_app_2; [by eapply trip_bytes |]); by eapply trip_bytes].

Lemma when_trip {A} (c : bool) (s : ser A) x m : (c = true -> exists b, trip s x b m) -> exists b, trip (when c s) x b (fun old => if c then m old else old).
Proof.
  intros H. destruct c; [exact (H eq_refl) |]. exists []. split; [| done | done]. intros out. unfold when. by rewrite app_nil_r.
Qed.

Section Lists.
Context {A : Type} (e : ser A) (fresh : A) (ok : A -> Prop) (merge : A -> A -> A) {He : Codec e ok merge}.

Lemma each_trip l : Forall ok l -> exists b, (length l <= length b)%nat /\ Forall is_byte b /\
  (forall out, each e l (saving out) = Some (l, saving (out ++ b))) /\
  (forall olds rest, length olds = length l -> each e olds (loading (b ++ rest)) = Some (zip_with merge olds l, loading rest)).
Proof.
  intros H. induction H as [| x l Hx _ (b & Lb & B & S & L)].
  - exists []. split; [simpl; lia |]. split; [done |]. split; intros; [by rewrite app_nil_r | by destruct olds].
  - destruct (He x Hx) as (c & Nc & Tc). exists (c ++ b). destruct Tc as [Sc Lc Bc].
    split; [rewrite length_app; destruct c; [done | simpl in *; lia] |]. split; [by apply Forall_app |]. split.
    + intros out. cbn [each]. rewrite Sc. bind. rewrite S. bind. by rewrite app_assoc.
    + intros [| o olds] rest Lo; [done |]. injection Lo as Lo. cbn [each]. rewrite <- app_assoc, Lc. bind. by rewrite (L olds rest Lo).
Qed.

Lemma resize_length n l : length (resize fresh n l) = n.
Proof. unfold resize. rewrite length_app, length_take, length_replicate. lia. Qed.

Lemma custom_vector_trip n l : length l = n -> Forall ok l -> exists b, (n <= length b)%nat /\
  trip (custom_vector e fresh n) l b (fun old => zip_with merge (resize fresh n old) l).
Proof.
  intros <- H. destruct (each_trip l H) as (b & Lb & B & S & L). exists b. split; [done |]. split; [| | done].
  - intros out. unfold custom_vector. cbn [prepare_custom_vector]. by rewrite Nat.eqb_refl, S.
  - intros old rest. unfold custom_vector. cbn [prepare_custom_vector]. by rewrite resize_length, Nat.eqb_refl, L by apply resize_length.
Qed.

#[export] Instance container_codec :
  Codec (container e fresh) (fun l => Forall ok l /\ Z.of_nat (length l) < 2 ^ 64) (fun _ l => map (merge fresh) l).
Proof.
  intros l [H Hl]. destruct (varint_trip 64 (Z.of_nat (length l)) ltac:(lia) ltac:(lia)) as (c & Nc & [Sc Lc Bc]).
  destruct (each_trip l H) as (b & Lb & B & S & L). exists (c ++ b). split; [by destruct c |]. split; [| | by apply Forall_app].
  - intros out. unfold container. rewrite Sc. bind. by rewrite S, app_assoc.
  - intros old rest. unfold container. rewrite <- app_assoc, Lc. bind. rewrite (proj2 (Z.ltb_ge _ _)), Nat2Z.id by (rewrite length_app; lia).
    rewrite L by apply length_replicate. do 2 f_equal. clear. induction l as [| x l IH]; [done |]. cbn [length replicate zip_with map]. by rewrite IH.
Qed.
End Lists.

(** ** Canonical encodings *)

(** Saving [y] writes [b], and loading [b] over [old], whatever follows it, gives [y]. *)
Record again {A} (s : ser A) (old y : A) (b : list Z) : Prop := {
  again_save out : s y (saving out) = Some (y, saving (out ++ b));
  again_load rest : s old (loading (b ++ rest)) = Some (y, loading rest) }.

(** What loading [y] from [inp] says of [inp]: it starts with the bytes that saving [y]
    writes. With [lax], the input may also end inside the value, since a variable-length
    integer may end with the input. Unless [void], at least one byte is read. *)
Definition loaded (lax void : bool) {A} (s : ser A) (old : A) (inp : list Z) (y : A) (ar : archive) : Prop :=
  exists rest, ar = loading rest /\ Forall is_byte rest /\
    ((exists b, (void = false -> b <> []) /\ inp = b ++ rest /\ again s old y b) \/ (lax = true /\ rest = [])).

Class Canonical (lax void : bool) {A} (s : ser A) : Prop :=
  canonical_load old inp y ar : Forall is_byte inp -> s old (loading inp) = Some (y, ar) -> loaded lax void s old inp y ar.

Lemma loaded_void lax void {A} (s : ser A) old inp y ar : loaded lax void s old inp y ar -> loaded lax true s old inp y ar.
Proof. intros (rest & -> & Br & [(b & _ & D) | D]); exists rest; (split; [done |]; split; [done |]); [left; by exists b | by right]. Qed.

Lemma loaded_lax lax void {A} (s : ser A) old inp y ar : loaded lax void s old inp y ar -> loaded true void s old inp y ar.
Proof. intros (rest & -> & Br & [D | [_ ->]]); eexists; (split; [done |]; split; [done |]); [by left | by right]. Qed.

#[export] Instance uint_canonical n : Canonical false false (serialize_uint (S n)).
Proof.
  intros old inp y ar B H. unfold serialize_uint in H. destruct (Nat.leb_spec (S n) (length inp)) as [L |]; [| done]. injection H as <- <-.
  exists (drop (S n) inp). split; [done |]. split; [by apply Forall_drop |]. left. exists (take (S n) inp). split; [destruct inp; [simpl in L; lia | done] |].
  split; [by rewrite take_drop |]. assert (Lt : length (take (S n) inp) = S n) by (rewrite length_take; lia).
  assert (Bt : Forall is_byte (take (S n) inp)) by by apply Forall_take. set (b := take (S n) inp) in *. split.
  - intros out. unfold serialize_uint. do 4 f_equal. apply le_combine_inj; [by rewrite (proj1 (le_split_bytes _ _)) | apply le_split_bytes | done |].
    pose proof (le_combine_bounds b Bt) as R. rewrite Lt in R. by apply le_combine_split.
  - intros rest. unfold serialize_uint. rewrite length_app, Lt, (proj2 (Nat.leb_le _ _)) by lia. by rewrite take_app_length', drop_app_length'.
Qed.

#[export] Instance blob_canonical n : Canonical false false (serialize_blob (S n)).
Proof.
  intros old inp y ar B H. unfold serialize_blob in H. destruct (Nat.leb_spec (S n) (length inp)) as [L |]; [| done]. injection H as <- <-.
  exists (drop (S n) inp). split; [done |]. split; [by apply Forall_drop |]. left. exists (take (S n) inp). split; [destruct inp; [simpl in L; lia | done] |].
  split; [by rewrite take_drop |]. assert (Lt : length (take (S n) inp) = S n) by (rewrite length_take; lia). split; [done |].
  intros rest. unfold serialize_blob. rewrite length_app, Lt, (proj2 (Nat.leb_le _ _)) by lia. by rewrite take_app_length', drop_app_length'.
Qed.

Lemma varint_canonical_load w : 0 < w <= 64 -> Canonical true false (serialize_varint w).
Proof.
  intros Hw old inp y ar B H. unfold serialize_varint in H. destruct (read_varint w w inp) as [| | n v rest] eqn:E; [done.. |].
  injection H as <- <-. destruct (read_canonical w w inp n v rest ltac:(lia) ltac:(lia) B E) as (Hv & Ei & C). exists rest. split; [done |].
  split; [rewrite Ei in B; by apply Forall_app in B as [_ ?] |]. destruct C as [C | [-> _]]; [left | by right].
  destruct (varint_trip w v Hw Hv) as (b & Nb & T). pose proof (trip_save _ _ _ _ T []) as S. unfold serialize_varint in S. rewrite C in S. injection S as S.
  exists b. split; [done |]. rewrite S in Ei. split; [done |]. split; [apply T | apply T].
Qed.

#[export] Instance varint64_canonical : Canonical true false (serialize_varint 64).
Proof. apply varint_canonical_load. lia. Qed.

(** One step of the inversion of a composite that loaded. *)
Tactic Notation "took" hyp(H) hyp(B) "as" ident(y) ident(B') ident(C) :=
  let ar := fresh "ar" in let E := fresh "E" in let r := fresh "r" in
  apply bind_Some in H as ([y ar] & E & H); destruct (canonical_load _ _ _ _ B E) as (r & -> & B' & C); clear E.

(** A part that was read whole, and the cases of one that may have ended the input. *)
Tactic Notation "whole" hyp(C) "as" ident(b) ident(N) ident(S) := destruct C as [(b & N & -> & S) | [? ?]]; [| done].
Tactic Notation "cases" hyp(C) "as" ident(b) ident(N) ident(S) :=
  let E := fresh "E" in destruct C as [(b & N & E & S) | [? E]].

(** After the end of the input nothing more is read. *)
Ltac ended := subst; repeat match goal with H : [] = ?b ++ ?r |- _ => symmetry in H | H : ?b ++ ?r = [] |- _ => apply app_eq_nil in H as [? ?]; subst end;
  first [done | match goal with N : false = false -> [] <> [] |- _ => by destruct (N eq_refl) end].

(** The two halves of [again] for a composite, from those of its parts and the tests it passed. *)
Ltac known_test := match goal with H : ?c = ?v |- context [if ?c then _ else _] => rewrite H; cbv beta iota end.
Ltac resaves := repeat first [match goal with S : again ?s _ ?y ?b |- context [?s ?y (saving ?o)] => rewrite (again_save _ _ _ _ S o); bind end | known_test].
Ltac reloads := repeat first [match goal with S : again ?s ?old _ ?b |- context [?s ?old (loading (?b ++ ?r))] => rewrite (again_load _ _ _ _ S r); bind end | known_test].
Ltac finish := match goal with |- context [loading _] => rewrite <- ?app_assoc; reloads; done | |- _ => resaves; by rewrite <- ?app_assoc end.

(** A composite that was read whole is [b]; one that ended the input. *)
Ltac read_as b := subst; eexists; split; [reflexivity |]; split; [done |]; left; exists b; split;
  [first [done | intros _; apply app_nonempty; by auto | intros _; apply app_nonempty_r; by auto] |]; split; [by rewrite <- ?app_assoc |].
Ltac cut_off := eexists; split; [reflexivity |]; split; [done |]; right; split; [done |]; ended.

Section CanonicalLists.
Context {A : Type} (lax void : bool) (e : ser A) (fresh : A) {He : Canonical lax void e}.

Lemma each_canonical l inp ys ar : Forall is_byte inp -> each e l (loading inp) = Some (ys, ar) -> exists rest, ar = loading rest /\ Forall is_byte rest /\
  length ys = length l /\ ((exists b, inp = b ++ rest /\ (void = false -> length ys <= length b)%nat /\ again (each e) l ys b) \/ (lax = true /\ rest = [])).
Proof.
  revert inp ys. induction l as [| x l IH]; intros inp ys B H; cbn [each] in H.
  - injection H as <- <-. exists inp. split; [done |]. split; [done |]. split; [done |]. left. exists []. split; [done |]. split; [done |].
    split; [intros out; by rewrite app_nil_r | done].
  - apply bind_Some in H as ([y ar1] & E1 & H). apply bind_Some in H as ([ys' ar2] & E2 & H). injection H as <- <-.
    destruct (He _ _ _ _ B E1) as (r1 & -> & B1 & C1). destruct (IH _ _ B1 E2) as (r2 & -> & B2 & L & C2). exists r2. split; [done |]. split; [done |].
    split; [simpl; lia |]. destruct C1 as [(b1 & N1 & -> & S1) | [-> ->]].
    + destruct C2 as [(b2 & -> & N2 & S2) | ?]; [left | by right]. exists (b1 ++ b2). split; [apply app_assoc |]. split.
      * intros V. specialize (N1 V). specialize (N2 V). rewrite length_app. destruct b1; [done | simpl; lia].
      * split; [intros out; cbn [each]; resaves; by rewrite app_assoc | intros rest; cbn [each]; rewrite <- app_assoc; by reloads].
    + right. split; [done |]. destruct C2 as [(b2 & E & _) | [_ ->]]; [| done]. symmetry in E. by apply app_eq_nil in E as [_ ->].
Qed.

Lemma custom_vector_loaded n old inp ys ar : Forall is_byte inp -> custom_vector e fresh n old (loading inp) = Some (ys, ar) ->
  loaded lax (void || (n =? 0)%nat) (custom_vector e fresh n) old inp ys ar.
Proof.
  intros B H. unfold custom_vector in H. cbn [prepare_custom_vector] in H. rewrite resize_length, Nat.eqb_refl in H. cbn [negb] in H.
  destruct (each_canonical _ _ _ _ B H) as (rest & -> & Br & L & C). rewrite resize_length in L. exists rest. split; [done |]. split; [done |].
  destruct C as [(b & -> & N & S) | ?]; [left | by right]. exists b. split.
  - intros [V Z]%orb_false_iff. specialize (N V). apply Nat.eqb_neq in Z. destruct b; [simpl in N; lia | done].
  - split; [done |]. unfold custom_vector. split; intros x; cbn [prepare_custom_vector]; rewrite ?L, ?resize_length, Nat.eqb_refl; apply S.
Qed.

Lemma custom_vector_strict n : void = false -> n <> O -> Canonical lax false (custom_vector e fresh n).
Proof. intros Hv Hn old inp ys ar B H. pose proof (custom_vector_loaded n old inp ys ar B H) as L. by rewrite Hv, (proj2 (Nat.eqb_neq _ _) Hn) in L. Qed.

#[export] Instance custom_vector_canonical n : Canonical lax true (custom_vector e fresh n).
Proof. intros old inp ys ar B H. exact (loaded_void _ _ _ _ _ _ _ (custom_vector_loaded n old inp ys ar B H)). Qed.

Lemma varint_nonneg w old inp v ar : 0 < w <= 64 -> Forall is_byte inp -> serialize_varint w old (loading inp) = Some (v, ar) -> 0 <= v < 2 ^ w.
Proof.
  intros Hw B H. unfold serialize_varint in H. destruct (read_varint w w inp) as [| | n x r] eqn:E; [done.. |]. injection H as <- _.
  by apply (read_canonical w w inp n x r) in E as [? _]; [| lia..|].
Qed.

Lemma container_canonical : void = false -> Canonical true false (container e fresh).
Proof.
  intros Hv old inp ys ar B H. unfold container in H. apply bind_Some in H as ([cnt ar1] & E1 & H).
  pose proof (varint_nonneg 64 _ _ _ _ ltac:(lia) B E1) as R. destruct (varint64_canonical _ _ _ _ B E1) as (r1 & -> & B1 & C1). cbn beta iota in H.
  destruct (Z.ltb_spec (Z.of_nat (length r1)) cnt) as [| Hc]; [done |].
  destruct (each_canonical _ _ _ _ B1 H) as (r2 & -> & B2 & L & C2). rewrite length_replicate in L. exists r2. split; [done |]. split; [done |].
  destruct C1 as [(b1 & N1 & -> & S1) | [_ ->]].
  - destruct C2 as [(b2 & -> & N2 & S2) | [_ ->]]; [left | by right]. exists (b1 ++ b2). split; [intros _; apply app_nonempty; auto |]. split; [apply app_assoc |].
    specialize (N2 Hv). unfold container. split.
    + intros out. rewrite L, Z2Nat.id, (again_save _ _ _ _ S1) by lia. bind. by rewrite (again_save _ _ _ _ S2), app_assoc.
    + intros rest. rewrite <- app_assoc, (again_load _ _ _ _ S1). bind. rewrite (proj2 (Z.ltb_ge _ _)) by (rewrite length_app; lia). apply S2.
  - right. split; [done |]. destruct C2 as [(b2 & E & _) | [_ ->]]; [| done]. symmetry in E. by apply app_eq_nil in E as [_ ->].
Qed.
End CanonicalLists.

Lemma when_canonical c lax void {A} (s : ser A) : Canonical lax void s -> Canonical lax true (when c s).
Proof.
  intros C old inp y ar B H. unfold when in H. destruct c.
  - exact (loaded_void _ _ _ _ _ _ _ (C old inp y ar B H)).
  - injection H as <- <-. exists inp. split; [done |]. split; [done |]. left. exists []. split; [done |]. split; [done |].
    split; [intros out; unfold when; by rewrite app_nil_r | done].
Qed.
End Archive.
