(* ===== verification/Base58.v ===== *)
(** Base58 with fixed-size blocks and address checksums: src/common/base58.cpp.

    Strings are lists of bytes.  [None] is a failed assertion or an index outside
    an array; a function that returns [false] returns [Some None]. *)
From S2P Require Import Prelude Pack Keccak KeccakCorrect IntUtil Varint.

Local Open Scope Z_scope.

Module Base58.
Import Pack Keccak KeccakCorrect IntUtil Varint.

Definition alphabet : list Z :=
  [49; 50; 51; 52; 53; 54; 55; 56; 57;
   65; 66; 67; 68; 69; 70; 71; 72; 74; 75; 76; 77; 78; 80; 81; 82; 83; 84; 85; 86; 87; 88; 89; 90;
   97; 98; 99; 100; 101; 102; 103; 104; 105; 106; 107; 109; 110; 111; 112; 113; 114; 115; 116; 117; 118; 119; 120; 121; 122].
Definition alphabet_size : Z := 58.
Definition encoded_block_sizes : list Z := [0; 2; 3; 5; 6; 7; 9; 10; 11].
Definition full_block_size : nat := 8.
Definition full_encoded_block_size : nat := 11.
Definition addr_checksum_size : nat := 4.

(** The tables that the constructors fill. *)
Definition reverse_table : list Z :=
  foldl (fun t i => <[Z.to_nat (at_ alphabet i - 49) := Z.of_nat i]> t) (replicate 74 (-1)) (seq 0 58).

(** [char] is signed. *)
Definition reverse_alphabet (letter : Z) : Z :=
  let letter := if letter <? 128 then letter else letter - 256 in
  let idx := u64 (letter - 49) in
  if idx <? 74 then at_ reverse_table (Z.to_nat idx) else -1.

Definition decoded_table : list Z :=
  foldl (fun t i => <[Z.to_nat (at_ encoded_block_sizes i) := Z.of_nat i]> t) (replicate 12 (-1)) (seq 0 9).

Definition decoded_block_sizes (encoded_block_size : nat) : option Z :=
  if (encoded_block_size <=? full_encoded_block_size)%nat then decoded_table !! encoded_block_size else None.

(** The bytes are copied to the end of the eight bytes of a zero word; [SWAP64BE] is
    [SWAP64] on a little-endian machine. *)
Definition uint_8be_to_64 (data : list Z) : option Z :=
  let size := length data in
  if (1 <=? size)%nat && (size <=? 8)%nat then Some (swap64 (le_combine (replicate (8 - size) 0 ++ data))) else None.

Definition uint_64_to_8be (num : Z) (size : nat) : option (list Z) :=
  if (1 <=? size)%nat && (size <=? 8)%nat then Some (drop (8 - size) (le_split 8 (swap64 num))) else None.

(** [while (0 < num)], writing from the index [i] down; at most eleven digits. *)
Fixpoint encode_loop (fuel : nat) (num i : Z) (res : list Z) : option (list Z) :=
  if 0 <? num then
    match fuel with
    | O => None
    | S fuel =>
        let remainder := num mod alphabet_size in
        if i <? 0 then None else
        _ ← res !! Z.to_nat i;
        encode_loop fuel (num / alphabet_size) (i - 1) (<[Z.to_nat i := at_ alphabet (Z.to_nat remainder)]> res)
    end
  else Some res.

(** The block of the result, which [encode] has filled with the first letter. *)
Definition encode_block (block : list Z) : option (list Z) :=
  let size := length block in
  if (1 <=? size)%nat && (size <=? full_block_size)%nat then
    num ← uint_8be_to_64 block;
    let n := at_ encoded_block_sizes size in
    encode_loop 11 num (n - 1) (replicate (Z.to_nat n) (at_ alphabet 0))
  else None.

(** [for (size_t i = size - 1; i < size; --i)], on the letters from the last one. *)
Fixpoint decode_loop (letters : list Z) (res_num order : Z) : option (option Z) :=
  match letters with
  | [] => Some (Some res_num)
  | letter :: letters =>
      let digit := reverse_alphabet letter in
      if digit <? 0 then Some None else
      '(lo, product_hi) ← mul128 order digit;
      let tmp := u64 (res_num + lo) in
      if (tmp <? res_num) || negb (product_hi =? 0) then Some None else
      decode_loop letters tmp (u64 (order * alphabet_size))
  end.

Definition decode_block (block : list Z) : option (option (list Z)) :=
  let size := length block in
  if (1 <=? size)%nat && (size <=? full_encoded_block_size)%nat then
    res_size ← decoded_block_sizes size;
    if res_size <=? 0 then Some None else
    o ← decode_loop (rev block) 0 1;
    match o with
    | None => Some None
    | Some res_num =>
        if (res_size <? 8) && (u64 (Z.shiftl 1 (8 * res_size)) <=? res_num) then Some None else
        res ← uint_64_to_8be res_num (Z.to_nat res_size);
        Some (Some res)
    end
  else None.

(** The full blocks, then the last one. *)
Fixpoint encode_blocks (full_block_count : nat) (data : list Z) : option (list Z) :=
  match full_block_count with
  | S n => b ← encode_block (take full_block_size data); l ← encode_blocks n (drop full_block_size data); Some (b ++ l)
  | O => if (0 <? length data)%nat then encode_block data else Some []
  end.

Definition encode (data : list Z) : option (list Z) :=
  match data with
  | [] => Some []
  | _ => encode_blocks (length data / full_block_size) data
  end.

Fixpoint decode_blocks (full_block_count : nat) (enc : list Z) : option (option (list Z)) :=
  match full_block_count with
  | S n =>
      o ← decode_block (take full_encoded_block_size enc);
      match o with
      | None => Some None
      | Some b =>
          o ← decode_blocks n (drop full_encoded_block_size enc);
          match o with None => Some None | Some l => Some (Some (b ++ l)) end
      end
  | O => if (0 <? length enc)%nat then decode_block enc else Some (Some [])
  end.

Definition decode (enc : list Z) : option (option (list Z)) :=
  match enc with
  | [] => Some (Some [])
  | _ =>
      let full_block_count := (length enc / full_encoded_block_size)%nat in
      let last_block_size := (length enc mod full_encoded_block_size)%nat in
      last_block_decoded_size ← decoded_block_sizes last_block_size;
      if last_block_decoded_size <? 0 then Some None else decode_blocks full_block_count enc
  end.

Definition encode_addr (tag : Z) (data : list Z) : option (list Z) :=
  v ← write_varint tag;
  let buf := v ++ data in
  hash ← cn_fast_hash buf;
  encode (buf ++ take addr_checksum_size hash).

Definition decode_addr (addr : list Z) : option (option (Z * list Z)) :=
  o ← decode addr;
  match o with
  | None => Some None
  | Some addr_data =>
      if (length addr_data <=? addr_checksum_size)%nat then Some None else
      let n := (length addr_data - addr_checksum_size)%nat in
      let checksum := drop n addr_data in
      let addr_data := take n addr_data in
      hash ← cn_fast_hash addr_data;
      if negb (bool_decide (take addr_checksum_size hash = checksum)) then Some None else
      match read_varint 64 64 addr_data with
      | varint_read read tag _ => if (read <=? 0)%nat then Some None else Some (Some (tag, drop read addr_data))
      | _ => Some None
      end
  end.

(** ** Byte order *)

Lemma rev_replicate {A} n (x : A) : rev (replicate n x) = replicate n x.
Proof. induction n as [| n IH]; [done |]. cbn [replicate rev]. rewrite IH. symmetry. apply replicate_S_end. Qed.

Lemma le_split_combine n l : is_bytes n l -> le_split n (le_combine l) = l.
Proof.
  intros [L B]. destruct (le_split_bytes n (le_combine l)) as [L' B']. apply le_combine_inj; [congruence | done | done |].
  apply le_combine_split. subst n. by apply le_combine_bounds.
Qed.

Lemma le_split_add a b z : le_split (a + b) z = le_split a z ++ le_split b (z / 256 ^ Z.of_nat a).
Proof.
  revert z. induction a as [| a IH]; intros z; cbn [Nat.add le_split app].
  { by rewrite Z.div_1_r. }
  rewrite IH. do 3 f_equal. rewrite Nat2Z.inj_succ, Z.pow_succ_r by lia. by rewrite Z.div_div by lia.
Qed.

Lemma map_replicate {A B} (f : A -> B) n x : map f (replicate n x) = replicate n (f x).
Proof. induction n as [| n IH]; cbn; [done | by rewrite IH]. Qed.

Lemma uint_8be_to_64_ok data : (1 <= length data <= 8)%nat -> Forall is_byte data ->
  uint_8be_to_64 data = Some (le_combine (rev data)).
Proof.
  intros L B. unfold uint_8be_to_64. rewrite !(proj2 (Nat.leb_le _ _)) by lia. cbn [andb]. f_equal. rewrite swap64_ok.
  rewrite le_split_combine.
  - rewrite rev_app_distr, le_combine_app, rev_replicate, le_combine_zeros. lia.
  - split; [rewrite length_app, length_replicate; lia |]. apply Forall_app. split; [| done].
    apply Forall_replicate. unfold is_byte. lia.
Qed.

Lemma uint_64_to_8be_ok num size : (1 <= size <= 8)%nat -> uint_64_to_8be num size = Some (rev (le_split size num)).
Proof.
  intros L. unfold uint_64_to_8be. rewrite !(proj2 (Nat.leb_le _ _)) by lia. cbn [andb]. f_equal. rewrite swap64_ok.
  rewrite le_split_combine.
  - replace 8%nat with (size + (8 - size))%nat at 2 by lia. rewrite le_split_add, rev_app_distr.
    rewrite drop_app_length'; [done |]. rewrite length_rev. by rewrite (proj1 (le_split_bytes _ _)).
  - destruct (le_split_bytes 8 num) as [L' B']. split; [by rewrite length_rev | by apply Forall_rev].
Qed.

(** ** Digits, the least significant one first *)

Definition letter (d : Z) : Z := at_ alphabet (Z.to_nat d).

Fixpoint digits (n : nat) (v : Z) : list Z :=
  match n with O => [] | S n => v mod 58 :: digits n (v / 58) end.

(** The number that letters stand for, if all of them are in the alphabet. *)
Fixpoint value (cs : list Z) : option Z :=
  match cs with
  | [] => Some 0
  | c :: cs => if reverse_alphabet c <? 0 then None else v ← value cs; Some (reverse_alphabet c + 58 * v)
  end.

Definition letters_inverse (c : Z) : bool :=
  let d := reverse_alphabet c in (d =? -1) || ((0 <=? d) && (d <? 58) && (letter d =? c)).

Lemma in_bytes (f : Z -> bool) n c : forallb f (map Z.of_nat (seq 0 n)) = true -> 0 <= c < Z.of_nat n -> f c = true.
Proof.
  intros H Hc. rewrite forallb_forall in H. apply H. apply in_map_iff. exists (Z.to_nat c). split; [lia |]. apply in_seq. lia.
Qed.

Lemma reverse_letter d : 0 <= d < 58 -> reverse_alphabet (letter d) = d /\ is_byte (letter d).
Proof.
  intros H. pose proof (in_bytes (fun d => (reverse_alphabet (letter d) =? d) && (0 <=? letter d) && (letter d <? 256)) 58 d
    ltac:(vm_compute; reflexivity) H) as E. cbv beta in E. unfold is_byte. lia.
Qed.

Lemma letter_reverse c : is_byte c -> reverse_alphabet c = -1 \/ (0 <= reverse_alphabet c < 58 /\ letter (reverse_alphabet c) = c).
Proof.
  intros H. pose proof (in_bytes letters_inverse 256 c ltac:(vm_compute; reflexivity) H) as E.
  unfold letters_inverse in E. cbv zeta in E. lia.
Qed.

Lemma digits_zero n : digits n 0 = replicate n 0.
Proof. induction n as [| n IH]; [done |]. cbn [digits replicate]. by rewrite Zmod_0_l, Zdiv_0_l, IH. Qed.

Lemma length_digits n v : length (digits n v) = n.
Proof. revert v. induction n as [| n IH]; intros v; cbn; [done | by rewrite IH]. Qed.

Lemma letters_bytes n v : Forall is_byte (map letter (digits n v)).
Proof.
  revert v. induction n as [| n IH]; intros v; cbn [digits map]; constructor; [| apply IH].
  apply reverse_letter, Z.mod_pos_bound. lia.
Qed.

Lemma value_digits n v : 0 <= v < 58 ^ Z.of_nat n -> value (map letter (digits n v)) = Some v.
Proof.
  revert v. induction n as [| n IH]; intros v Hv; cbn [digits map value]; [f_equal; simpl in Hv; lia |].
  rewrite Nat2Z.inj_succ, Z.pow_succ_r in Hv by lia. pose proof (Z.mod_pos_bound v 58 ltac:(lia)) as B.
  rewrite (proj1 (reverse_letter _ B)). destruct (Z.ltb_spec (v mod 58) 0); [lia |].
  rewrite IH by zlia. cbn [mbind option_bind]. f_equal. zlia.
Qed.

Lemma value_inv cs v : Forall is_byte cs -> value cs = Some v ->
  0 <= v < 58 ^ Z.of_nat (length cs) /\ cs = map letter (digits (length cs) v).
Proof.
  intros B. revert v. induction B as [| c cs Hc B IH]; intros v; cbn [value length digits map].
  { intros [= <-]. done. }
  destruct (letter_reverse c Hc) as [-> | [R Ec]]; [done |]. destruct (Z.ltb_spec (reverse_alphabet c) 0); [lia |].
  destruct (value cs) as [u |]; [| done]. cbn [mbind option_bind]. intros [= <-]. destruct (IH u eq_refl) as [Hu Ecs].
  rewrite Nat2Z.inj_succ, Z.pow_succ_r by lia. split; [lia |].
  replace ((reverse_alphabet c + 58 * u) / 58) with u by zlia.
  replace ((reverse_alphabet c + 58 * u) mod 58) with (reverse_alphabet c) by zlia. by rewrite Ec, <- Ecs.
Qed.

(** ** Blocks *)

Lemma encode_loop_ok fuel n v t : (n <= fuel)%nat -> 0 <= v < 58 ^ Z.of_nat n ->
  encode_loop fuel v (Z.of_nat n - 1) (replicate n (letter 0) ++ t) = Some (rev (map letter (digits n v)) ++ t).
Proof.
  revert fuel v t. induction n as [| n IH]; intros fuel v t Hn Hv.
  { simpl in Hv. assert (v = 0) as -> by lia. by destruct fuel. }
  rewrite Nat2Z.inj_succ, Z.pow_succ_r in Hv by lia. destruct (Z.ltb_spec 0 v) as [Hp | ?].
  2: { assert (v = 0) as -> by lia. rewrite digits_zero, map_replicate, rev_replicate. by destruct fuel. }
  destruct fuel as [| fuel]; [lia |]. cbn [encode_loop]. rewrite (proj2 (Z.ltb_lt 0 v)) by lia.
  destruct (Z.ltb_spec (Z.of_nat (S n) - 1) 0); [lia |]. replace (Z.to_nat (Z.of_nat (S n) - 1)) with n by lia.
  rewrite replicate_S_end, <- app_assoc. rewrite lookup_app_r by (rewrite length_replicate; lia).
  rewrite length_replicate, Nat.sub_diag. cbn [app lookup list_lookup mbind option_bind].
  rewrite insert_app_r_alt by (rewrite length_replicate; lia). rewrite length_replicate, Nat.sub_diag. cbn [insert list_insert].
  replace (Z.of_nat (S n) - 1 - 1) with (Z.of_nat n - 1) by lia. unfold alphabet_size. rewrite IH by zlia.
  cbn [digits map rev]. by rewrite <- app_assoc.
Qed.

Lemma pow58 k : (k <= 10)%nat -> 0 < 58 ^ Z.of_nat k < 2 ^ 64.
Proof.
  intros H. split; [lia |]. apply (Z.le_lt_trans _ (58 ^ 10)); [apply Z.pow_le_mono_r; lia | done].
Qed.

Lemma pow58_S k : 58 ^ Z.of_nat (S k) = 58 ^ Z.of_nat k * 58.
Proof. rewrite Nat2Z.inj_succ, Z.pow_succ_r by lia. lia. Qed.

Lemma decode_loop_ok cs k r o : (length cs + k <= 11)%nat -> Forall is_byte cs -> word64 r ->
  (cs <> [] -> o = 58 ^ Z.of_nat k) ->
  decode_loop cs r o = Some (v ← value cs; if r + 58 ^ Z.of_nat k * v <? 2 ^ 64 then Some (r + 58 ^ Z.of_nat k * v) else None).
Proof.
  intros L B. revert k r o L. induction B as [| c cs Hc B IH]; intros k r o L Hr Ho; cbn [decode_loop value].
  { cbn [mbind option_bind]. rewrite Z.mul_0_r, Z.add_0_r. unfold word64 in Hr. by rewrite (proj2 (Z.ltb_lt _ _)) by lia. }
  rewrite (Ho ltac:(done)). cbn [length] in L. destruct (Z.ltb_spec (reverse_alphabet c) 0) as [| Hd]; [done |].
  destruct (letter_reverse c Hc) as [| [Hd' _]]; [lia |]. set (d := reverse_alphabet c) in *.
  pose proof (pow58 k ltac:(lia)) as P.
  set (p := 58 ^ Z.of_nat k) in *. rewrite mul128_ok by (unfold word64; lia). cbn [mbind option_bind].
  assert (V : forall v, value cs = Some v -> 0 <= v) by (intros v Ev; apply (value_inv cs v B Ev)).
  assert (N : 0 <= p * d) by nia. unfold word64 in Hr.
  destruct (Z.ltb_spec (r + p * d) (2 ^ 64)) as [Hs | Hs].
  - rewrite (Z.mod_small (p * d)), (Z.div_small (p * d)) by lia. rewrite (wrap_small 64) by lia. 
    destruct (Z.ltb_spec (r + p * d) r); [lia |]. cbn [orb negb Z.eqb].
    rewrite (IH (S k)); [| lia | unfold word64; lia |].
    2: { intros Hne. destruct cs; [done |]. cbn [length] in L. pose proof (pow58 (S k) ltac:(lia)) as P'.
         rewrite pow58_S in *. apply wrap_small. unfold alphabet_size. lia. }
    rewrite pow58_S. fold p. destruct (value cs) as [v |]; [| done]. cbn [mbind option_bind].
    by replace (r + p * d + p * 58 * v) with (r + p * (d + 58 * v)) by lia.
  - assert (T : (u64 (r + (p * d) mod 2 ^ 64) <? r) || negb ((p * d) / 2 ^ 64 =? 0) = true) by (unfold wrap; zlia).
    rewrite T. destruct (value cs) as [v |] eqn:Ev; [| done]. cbn [mbind option_bind]. pose proof (V v eq_refl).
    rewrite (proj2 (Z.ltb_ge _ _)) by nia. done.
Qed.

Definition esize (n : nat) : nat := Z.to_nat (at_ encoded_block_sizes n).

(** Every eight-bit block size has room in its encoded size, which determines it. *)
Lemma encoded_sizes n : (1 <= n <= 8)%nat -> (1 <= esize n <= 11)%nat /\ at_ encoded_block_sizes n = Z.of_nat (esize n) /\
  256 ^ Z.of_nat n <= 58 ^ Z.of_nat (esize n) /\ decoded_block_sizes (esize n) = Some (Z.of_nat n).
Proof.
  intros H. assert (n = 1 \/ n = 2 \/ n = 3 \/ n = 4 \/ n = 5 \/ n = 6 \/ n = 7 \/ n = 8)%nat as D by lia.
  repeat destruct D as [-> | D]; [.. | rewrite D]; vm_compute; repeat split; try discriminate; lia.
Qed.

Lemma decoded_sizes e : (e <= 11)%nat -> decoded_block_sizes e = Some (-1) \/
  exists n, (n <= 8)%nat /\ decoded_block_sizes e = Some (Z.of_nat n) /\ esize n = e.
Proof.
  intros H.
  assert (e = 0 \/ e = 1 \/ e = 2 \/ e = 3 \/ e = 4 \/ e = 5 \/ e = 6 \/ e = 7 \/ e = 8 \/ e = 9 \/ e = 10 \/ e = 11)%nat as D by lia.
  repeat destruct D as [-> | D]; [.. | rewrite D]; try (left; reflexivity); right;
    [exists 0%nat | exists 1%nat | exists 2%nat | exists 3%nat | exists 4%nat | exists 5%nat | exists 6%nat | exists 7%nat | exists 8%nat];
    (split; [lia | split; reflexivity]).
Qed.

Lemma rev_value_bounds b : Forall is_byte b -> 0 <= le_combine (rev b) < 256 ^ Z.of_nat (length b).
Proof. intros B. rewrite <- (length_rev b). by apply le_combine_bounds, Forall_rev. Qed.

Lemma encode_block_ok b : (1 <= length b <= 8)%nat -> Forall is_byte b ->
  encode_block b = Some (rev (map letter (digits (esize (length b)) (le_combine (rev b))))).
Proof.
  intros L B. unfold encode_block, full_block_size. rewrite !(proj2 (Nat.leb_le _ _)) by lia. cbn [andb].
  rewrite uint_8be_to_64_ok by done. cbn [mbind option_bind].
  destruct (encoded_sizes _ L) as (He & -> & Hp & _). rewrite Nat2Z.id. pose proof (rev_value_bounds b B).
  pose proof (encode_loop_ok 11 (esize (length b)) (le_combine (rev b)) [] ltac:(lia) ltac:(lia)) as E.
  rewrite !app_nil_r in E. exact E.
Qed.

(** What decoding a block returns: never an assertion, and bytes exactly when the
    letters are those of a number that fits the block. *)
Lemma decode_block_ok s : (1 <= length s <= 11)%nat -> Forall is_byte s -> decode_block s = Some (
  n ← decoded_block_sizes (length s); if n <=? 0 then None else
  v ← value (rev s); if v <? 256 ^ n then Some (rev (le_split (Z.to_nat n) v)) else None).
Proof.
  intros L B. unfold decode_block, full_encoded_block_size. rewrite !(proj2 (Nat.leb_le _ _)) by lia. cbn [andb].
  destruct (decoded_sizes (length s) ltac:(lia)) as [-> | (n & Hn & -> & E)]; [done |]. cbn [mbind option_bind].
  destruct (Z.leb_spec (Z.of_nat n) 0) as [| Hn0]; [done |].
  rewrite (decode_loop_ok (rev s) 0 0 1) by (rewrite ?length_rev; lia || (unfold word64; lia) || by apply Forall_rev).
  destruct (value (rev s)) as [v |] eqn:Ev; [| done]. cbn [mbind option_bind].
  pose proof (value_inv (rev s) v ltac:(by apply Forall_rev) Ev) as [Hv _].
  replace (0 + 58 ^ Z.of_nat 0 * v) with v by (cbn; lia).
  assert (P : 256 ^ Z.of_nat n = 2 ^ (8 * Z.of_nat n)) by (rewrite Z.pow_mul_r by lia; done).
  assert (P8 : 2 ^ (8 * Z.of_nat n) <= 2 ^ 64) by (apply Z.pow_le_mono_r; lia).
  destruct (Z.ltb_spec v (2 ^ 64)) as [Hw | Hw]; rewrite P.
  2: { destruct (Z.ltb_spec v (2 ^ (8 * Z.of_nat n))); [lia | done]. }
  destruct (Z.ltb_spec (Z.of_nat n) 8) as [H8 | H8]; cbn [andb].
  - assert (2 ^ (8 * Z.of_nat n) < 2 ^ 64) by (apply Z.pow_lt_mono_r; lia).
    rewrite Z.shiftl_mul_pow2, Z.mul_1_l, (wrap_small 64) by lia.
    destruct (Z.leb_spec (2 ^ (8 * Z.of_nat n)) v), (Z.ltb_spec v (2 ^ (8 * Z.of_nat n))); try lia; [done |].
    by rewrite uint_64_to_8be_ok by lia.
  - replace n with 8%nat by lia. rewrite (proj2 (Z.ltb_lt v _)) by done. by rewrite uint_64_to_8be_ok by lia.
Qed.

Lemma decode_encode_block b : (1 <= length b <= 8)%nat -> Forall is_byte b -> exists s,
  encode_block b = Some s /\ length s = esize (length b) /\ Forall is_byte s /\ decode_block s = Some (Some b).
Proof.
  intros L B. eexists. split; [by apply encode_block_ok |]. destruct (encoded_sizes _ L) as (He & _ & Hp & Hd).
  pose proof (rev_value_bounds b B) as V. set (v := le_combine (rev b)) in *.
  assert (Ls : length (rev (map letter (digits (esize (length b)) v))) = esize (length b)).
  { by rewrite length_rev, length_map, length_digits. }
  assert (Bs : Forall is_byte (rev (map letter (digits (esize (length b)) v)))) by apply Forall_rev, letters_bytes.
  split; [exact Ls |]. split; [exact Bs |]. rewrite decode_block_ok by (done || lia). rewrite Ls, Hd. cbn [mbind option_bind].
  destruct (Z.leb_spec (Z.of_nat (length b)) 0); [lia |]. rewrite rev_involutive, value_digits by lia. cbn [mbind option_bind].
  rewrite (proj2 (Z.ltb_lt v _)) by lia. rewrite Nat2Z.id. unfold v. rewrite le_split_combine, rev_involutive; [done |].
  split; [apply length_rev | by apply Forall_rev].
Qed.

Lemma decode_block_inv s : (1 <= length s <= 11)%nat -> Forall is_byte s -> exists o, decode_block s = Some o /\
  forall b, o = Some b -> Forall is_byte b /\ (1 <= length b <= 8)%nat /\ length s = esize (length b) /\ encode_block b = Some s.
Proof.
  intros L B. eexists. split; [by apply decode_block_ok |]. intros b.
  destruct (decoded_sizes (length s) ltac:(lia)) as [-> | (n & Hn & -> & E)]; [done |]. cbn [mbind option_bind].
  destruct (Z.leb_spec (Z.of_nat n) 0) as [| Hn0]; [done |]. destruct (value (rev s)) as [v |] eqn:Ev; [| done]. cbn [mbind option_bind].
  destruct (value_inv (rev s) v ltac:(by apply Forall_rev) Ev) as [Hv Es]. rewrite length_rev in *.
  destruct (Z.ltb_spec v (256 ^ Z.of_nat n)) as [Hw |]; [| done]. intros Eb. apply (inj Some) in Eb. rewrite Nat2Z.id in Eb. subst b.
  destruct (le_split_bytes n v) as [Ln Bn].
  assert (Lr : length (rev (le_split n v)) = n) by by rewrite length_rev.
  assert (Br : Forall is_byte (rev (le_split n v))) by by apply Forall_rev.
  rewrite Lr. split; [done |]. split; [lia |]. split; [done |]. rewrite encode_block_ok by (rewrite ?Lr; done || lia).
  rewrite Lr, rev_involutive, le_combine_split, E, <- Es, rev_involutive by lia. done.
Qed.

(** ** Strings *)

Lemma esize_11 n : (n <= 8)%nat -> esize n = 11%nat -> n = 8%nat.
Proof. intros H E. do 9 (destruct n as [| n]; [vm_compute in E; lia || done |]). lia. Qed.

Lemma decode_encode_blocks k l d : (l < 8)%nat -> length d = (8 * k + l)%nat -> Forall is_byte d -> exists s,
  encode_blocks k d = Some s /\ length s = (11 * k + esize l)%nat /\ Forall is_byte s /\ decode_blocks k s = Some (Some d).
Proof.
  intros Hl. revert d. induction k as [| k IH]; intros d L B; cbn [encode_blocks decode_blocks].
  - destruct (Nat.ltb_spec 0 (length d)).
    + destruct (decode_encode_block d ltac:(lia) B) as (s & E & Ls & Bs & D). exists s.
      replace (length d) with l in * by lia. destruct (encoded_sizes l ltac:(lia)). 
      destruct (Nat.ltb_spec 0 (length s)); [by split_and! | lia].
    + exists []. assert (l = 0)%nat as -> by lia. destruct d; [done | cbn in *; lia].
  - unfold full_block_size, full_encoded_block_size. 
    destruct (decode_encode_block (take 8 d)) as (b & E & Lb & Bb & D); [rewrite length_take; lia | by apply Forall_take |].
    rewrite length_take, Nat.min_l in Lb by lia. change (esize 8) with 11%nat in Lb.
    destruct (IH (drop 8 d)) as (s & Es & Ls & Bs & Ds); [rewrite length_drop; lia | by apply Forall_drop |].
    rewrite E. cbn [mbind option_bind]. rewrite Es. cbn [mbind option_bind]. eexists. split; [reflexivity |].
    split; [rewrite length_app; lia |]. split; [by apply Forall_app |].
    rewrite take_app_length', drop_app_length' by done. rewrite D. cbn [mbind option_bind]. rewrite Ds. cbn [mbind option_bind].
    by rewrite take_drop.
Qed.

Lemma decode_blocks_inv k e s : (e < 11)%nat -> length s = (11 * k + e)%nat -> Forall is_byte s -> exists o, decode_blocks k s = Some o /\
  forall d, o = Some d -> Forall is_byte d /\ encode_blocks k d = Some s /\ exists l, (l < 8)%nat /\ length d = (8 * k + l)%nat /\ esize l = e.
Proof.
  intros He. revert s. induction k as [| k IH]; intros s L B; cbn [encode_blocks decode_blocks].
  - destruct (Nat.ltb_spec 0 (length s)).
    + destruct (decode_block_inv s ltac:(lia) B) as (o & E & D). exists o. split; [done |]. intros d Ed.
      destruct (D d Ed) as (Bd & Ld & Ls & En). destruct (Nat.ltb_spec 0 (length d)); [| lia]. split; [done |]. split; [done |].
      exists (length d). split; [| lia]. destruct (decide (length d = 8)%nat) as [H8 | ?]; [| lia].
      rewrite H8 in Ls. change (esize 8) with 11%nat in Ls. lia.
    + exists (Some []). split; [done |]. intros d [= <-]. destruct s; [| cbn in *; lia]. split; [constructor |]. split; [done |].
      exists 0%nat. cbn in L. split_and!; [lia | done | change (esize 0) with 0%nat; lia].
  - unfold full_block_size, full_encoded_block_size. 
    destruct (decode_block_inv (take 11 s)) as (o & E & D); [rewrite length_take; lia | by apply Forall_take |].
    rewrite E. cbn [mbind option_bind]. destruct o as [b |]; [| by exists None].
    destruct (D b eq_refl) as (Bb & Lb & Ls & En). rewrite length_take, Nat.min_l in Ls by lia. 
    apply eq_sym, esize_11 in Ls; [| lia].
    destruct (IH (drop 11 s)) as (o & Es & Ds); [rewrite length_drop; lia | by apply Forall_drop |].
    rewrite Es. cbn [mbind option_bind]. destruct o as [d' |]; [| by exists None]. eexists. split; [reflexivity |].
    intros d [= <-]. destruct (Ds d' eq_refl) as (Bd & Ed & l & Hl & Ld & El).
    split; [by apply Forall_app |]. split; [| exists l; split_and!; [done | rewrite length_app; lia | done]].
    rewrite take_app_length', drop_app_length' by done. rewrite En. cbn [mbind option_bind]. rewrite Ed. cbn [mbind option_bind].
    by rewrite take_drop.
Qed.

Lemma blocks_of m l k : (0 < m)%nat -> (l < m)%nat -> ((m * k + l) / m = k /\ (m * k + l) mod m = l)%nat.
Proof.
  intros Hm Hl. split.
  - symmetry. by apply (Nat.div_unique (m * k + l) m k l).
  - symmetry. by apply (Nat.mod_unique (m * k + l) m k l).
Qed.

Lemma decode_encode d : Forall is_byte d -> exists s, encode d = Some s /\ Forall is_byte s /\
  length s = (11 * (length d / 8) + esize (length d mod 8))%nat /\ decode s = Some (Some d).
Proof.
  intros B. destruct (decide (d = [])) as [-> | Hd]; [by exists [] |].
  pose proof (Nat.div_mod (length d) 8 ltac:(lia)) as L. pose proof (Nat.mod_upper_bound (length d) 8 ltac:(lia)) as Hl.
  destruct (decode_encode_blocks (length d / 8) (length d mod 8) d Hl L B) as (s & E & Ls & Bs & D). exists s.
  assert (Es : encode d = encode_blocks (length d / 8) d) by by destruct d.
  split; [by rewrite Es |]. split; [done |]. split; [done |].
  assert (He : (esize (length d mod 8) < 11)%nat /\ decoded_block_sizes (esize (length d mod 8)) = Some (Z.of_nat (length d mod 8))).
  { set (l := (length d mod 8)%nat) in *. clearbody l. clear -Hl. do 8 (destruct l as [| l]; [vm_compute; split; [lia | done] |]). lia. }
  destruct (blocks_of 11 (esize (length d mod 8)) (length d / 8) ltac:(lia) (proj1 He)) as [Q R].
  assert (Ed : decode s = (z ← decoded_block_sizes (length s mod 11); if z <? 0 then Some None else decode_blocks (length s / 11) s)).
  { destruct s; [| done]. cbn [length] in Ls. destruct d; [done |]. cbn [length] in *.
    destruct (decide (S (length d) / 8 = 0)%nat) as [E0 |]; [| lia]. rewrite E0 in L.
    destruct (encoded_sizes (S (length d) mod 8)%nat); lia. }
  rewrite Ed, Ls, Q, R, (proj2 He). cbn [mbind option_bind]. destruct (Z.ltb_spec (Z.of_nat (length d mod 8)) 0); [lia | done].
Qed.

Lemma decode_inv s : Forall is_byte s -> exists o, decode s = Some o /\
  forall d, o = Some d -> Forall is_byte d /\ encode d = Some s.
Proof.
  intros B. destruct s as [| c s]; [exists (Some []); split; [done |]; by intros d [= <-] |].
  unfold decode, full_encoded_block_size. set (t := c :: s) in *. assert (Ht : (0 < length t)%nat) by (cbn; lia). clearbody t.
  pose proof (Nat.div_mod (length t) 11 ltac:(lia)) as L. pose proof (Nat.mod_upper_bound (length t) 11 ltac:(lia)) as Hl.
  destruct (decoded_sizes (length t mod 11) ltac:(lia)) as [-> | (n & Hn & -> & E)]; [by exists None |].
  cbn [mbind option_bind]. destruct (Z.ltb_spec (Z.of_nat n) 0); [by exists None |].
  destruct (decode_blocks_inv _ _ t Hl L B) as (o & Eo & D). exists o. split; [done |]. intros d Ed.
  destruct (D d Ed) as (Bd & En & l & Hl' & Ld & El). split; [done |].
  destruct (blocks_of 8 l (length t / 11) ltac:(lia) Hl') as [Q _]. destruct d; [| unfold encode, full_block_size; by rewrite Ld, Q].
  exfalso. cbn [length] in Ld. assert (l = 0)%nat as -> by lia. change (esize 0) with 0%nat in El. lia.
Qed.

(** C25: Base58 is a bijection between byte strings and the strings it accepts.
    Encoding never aborts, uses eleven letters for each eight bytes and the
    table's size for the rest, and decodes to the bytes it came from. Decoding
    never aborts either, on any string; what it accepts is the encoding of the
    bytes it returns, so no two strings decode to the same bytes. *)
Theorem base58_bijection :
  (forall d, Forall is_byte d -> exists s, encode d = Some s /\ Forall is_byte s /\
    length s = (11 * (length d / 8) + esize (length d mod 8))%nat /\ decode s = Some (Some d)) /\
  (forall s, Forall is_byte s -> exists o, decode s = Some o /\ forall d, o = Some d -> Forall is_byte d /\ encode d = Some s).
Proof. split; [exact decode_encode | exact decode_inv]. Qed.

Lemma base58_witness : exists s, encode [255; 0; 7] = Some s /\ decode s = Some (Some [255; 0; 7]).
Proof.
  destruct (proj1 base58_bijection [255; 0; 7]) as (s & E & _ & _ & D); [repeat constructor; done |]. by exists s.
Defined.

(** ** Addresses *)

Lemma decode_addr_payload p : Forall is_byte p -> p <> [] -> exists s,
  encode (p ++ take 4 (keccak256 p)) = Some s /\ Forall is_byte s /\
  decode_addr s = Some match read_varint 64 64 p with
    | varint_read read tag _ => if (read <=? 0)%nat then None else Some (tag, drop read p)
    | _ => None
    end.
Proof.
  intros B Hp. destruct (cn_fast_hash_ok p B) as [Eh [Lh Bh]].
  destruct (decode_encode (p ++ take 4 (keccak256 p))) as (s & E & Bs & _ & D).
  { apply Forall_app. split; [done | by apply Forall_take]. }
  exists s. split; [done |]. split; [done |]. unfold decode_addr, addr_checksum_size. rewrite D. cbn [mbind option_bind].
  rewrite length_app, length_take, Lh. change (4 `min` 32)%nat with 4%nat.
  assert (Lp : length p <> 0%nat) by by intros E0%nil_length_inv. destruct (Nat.leb_spec (length p + 4) 4); [lia |].
  rewrite Nat.add_sub, take_app_length, drop_app_length, Eh. cbn [mbind option_bind]. rewrite bool_decide_eq_true_2 by done.
  cbn [negb]. destruct (read_varint 64 64 p); [done | done |]. by destruct (_ <=? 0)%nat.
Qed.

(** The address codec. An address written for a 64-bit tag and any data is
    accepted and gives back the tag and the data. Decoding never aborts, and an
    address it accepts is the one written for the tag and the data it returns,
    with one exception: a payload in which every byte announces another byte of
    the tag is accepted as a tag without data. *)
Theorem base58_addr_roundtrip tag data : 0 <= tag < 2 ^ 64 -> Forall is_byte data ->
  (exists s, encode_addr tag data = Some s /\ Forall is_byte s /\ decode_addr s = Some (Some (tag, data))) /\
  forall s, Forall is_byte s -> exists o, decode_addr s = Some o /\ forall tag data, o = Some (tag, data) ->
    encode_addr tag data = Some s \/
    (data = [] /\ exists p, Forall (fun b => 128 <= b) p /\ encode (p ++ take 4 (keccak256 p)) = Some s).
Proof.
  intros Ht Bd. split.
  - destruct (read_written 64 64 tag data) as (v & Ev & Lv & Bv & Rv); [lia | lia | done |].
    assert (B : Forall is_byte (v ++ data)) by by apply Forall_app.
    destruct (decode_addr_payload (v ++ data)) as (s & E & Bs & D); [done | by destruct v; [cbn in Lv; lia |] |].
    exists s. unfold encode_addr. rewrite Ev. cbn [mbind option_bind]. rewrite (proj1 (cn_fast_hash_ok _ B)). cbn [mbind option_bind].
    split; [done |]. split; [done |]. rewrite D, Rv. destruct (Nat.leb_spec (length v) 0); [lia |]. by rewrite drop_app_length.
  - clear Ht Bd tag data. intros s Bs. destruct (decode_inv s Bs) as (o & Eo & Ho). unfold decode_addr, addr_checksum_size.
    rewrite Eo. cbn [mbind option_bind]. destruct o as [a |]; [| by exists None]. destruct (Ho a eq_refl) as [Ba Ea].
    destruct (Nat.leb_spec (length a) 4); [by exists None |]. set (n := (length a - 4)%nat).
    assert (Bp : Forall is_byte (take n a)) by by apply Forall_take.
    rewrite (proj1 (cn_fast_hash_ok _ Bp)). cbn [mbind option_bind].
    destruct (bool_decide_reflect (take 4 (keccak256 (take n a)) = drop n a)) as [Ec |]; cbn [negb]; [| by exists None].
    destruct (read_varint 64 64 (take n a)) as [| | read tag rest] eqn:Er; [by exists None | by exists None |].
    destruct (Nat.leb_spec read 0); [by exists None |]. eexists. split; [reflexivity |]. intros tag' data [= -> <-].
    destruct (read_canonical 64 64 (take n a) read tag' rest ltac:(lia) ltac:(lia) Bp Er) as (_ & Es & [W | [-> W]]).
    + left. unfold encode_addr. rewrite W. cbn [mbind option_bind]. rewrite take_drop, (proj1 (cn_fast_hash_ok _ Bp)). cbn [mbind option_bind].
      unfold addr_checksum_size. rewrite Ec, take_drop. exact Ea.
    + right. rewrite app_nil_r in Es. split; [| exists (take n a); split; [done | by rewrite Ec, take_drop]].
      rewrite Es. apply drop_ge. rewrite length_take. lia.
Qed.

Lemma base58_addr_witness : exists s, encode_addr 0x12 [7] = Some s /\ Forall is_byte s /\ decode_addr s = Some (Some (0x12, [7])).
Proof. apply (base58_addr_roundtrip 0x12 [7]); [lia | repeat constructor; done]. Defined.
End Base58.
