(* ===== verification/Encoding.v ===== *)
(** Points and scalars as 32-byte strings, the form in which src/crypto/crypto.cpp
    and src/ringct pass them around: [enc P] are the bytes of a point, [sbytes n]
    those of [n] modulo the group order, and each lemma gives the bytes that a
    call of src/crypto/crypto-ops.c returns. *)
From S2P Require Import Prelude Pack Scalar ScalarCorrect Group Fe Curve Ge GeCorrect GeEncode GeMult GeMultCorrect.
From S2P Require Import GeTables GeScalarmult GeFromFe GeTheorems CurveOrder Keccak KeccakCorrect.

Local Open Scope Z_scope.

Module Encoding.
Import Pack Scalar ScalarCorrect Group Fe Curve Ge GeCorrect GeEncode GeMult GeMultCorrect.
Import GeTables GeScalarmult GeFromFe GeTheorems Finite CurveOrder Keccak KeccakCorrect.
Local Open Scope group_scope.

(** ** Points *)

Definition enc (P : point) : list Z := le_split 32 (encode_point P).

Lemma enc_bytes P : is_bytes 32 (enc P).
Proof. apply le_split_bytes. Qed.

Lemma enc_val P : le_combine (enc P) = encode_point P.
Proof.
  apply le_combine_split. change (256 ^ Z.of_nat 32) with (2 ^ 256). unfold encode_point.
  pose proof (Z.mod_pos_bound (py P) p25519 ltac:(done)) as B.
  pose proof (Z.mod_pos_bound (px P mod p25519) 2 ltac:(done)). unfold p25519 in *. lia.
Qed.

Lemma enc_eq P Q : enc P = enc Q <-> P ≃ Q.
Proof.
  split.
  - intros E. apply encode_inj. rewrite <- !enc_val. by rewrite E.
  - intros E. unfold enc. by rewrite (encode_proper _ _ E).
Qed.

#[global] Instance enc_proper : Proper (geq ==> eq) enc.
Proof. intros P Q E. by apply enc_eq. Qed.

Lemma enc_of_bytes s P : is_bytes 32 s -> encode_point P = le_combine s -> s = enc P.
Proof.
  intros [L B] E. destruct (enc_bytes P) as [L' B']. apply le_combine_inj; [congruence | done | done |].
  by rewrite enc_val.
Qed.

Lemma from_enc P : exists h, ge_frombytes_vartime (enc P) = Some (Some h) /\ p3_rep h P.
Proof.
  destruct (ge_frombytes_ok _ (enc_bytes P)) as ([h |] & -> & D); rewrite enc_val in D.
  - destruct D as (Q & HQ & EQ%encode_inj). exists h. split; [done |]. by rewrite <- EQ.
  - by destruct (D P).
Qed.

(** A string of 32 bytes is the encoding of a point, or is refused. *)
Lemma from_cases s : is_bytes 32 s ->
  (exists P, s = enc P) \/ (ge_frombytes_vartime s = Some None /\ forall P, s <> enc P).
Proof.
  intros Hs. destruct (ge_frombytes_ok s Hs) as ([h |] & E & D).
  - left. destruct D as (P & _ & EP). exists P. by apply enc_of_bytes.
  - right. split; [done |]. intros P ->. apply (D P). by rewrite enc_val.
Qed.

Lemma to_enc2 p P : p2_rep p P -> ge_tobytes p = Some (enc P).
Proof. intros H. destruct (ge_tobytes_ok p P H) as (s & -> & B & V). by rewrite (enc_of_bytes s P). Qed.

Lemma to_enc3 p P : p3_rep p P -> ge_p3_tobytes p = Some (enc P).
Proof. apply p3_bytes. Qed.

Lemma enc_zero : enc pzero = infinity_bytes.
Proof. reflexivity. Qed.

Lemma add_rep p q P Q : p3_rep p P -> cached_rep q Q -> yields (ge_add p q) (fun r => p1p1_rep r (P ⊕ Q)).
Proof. apply ge_add_ok. Qed.

Lemma sub_rep p q P Q : p3_rep p P -> cached_rep q Q -> yields (ge_sub p q) (fun r => p1p1_rep r (P ⊕ gopp Q)).
Proof. apply ge_sub_ok. Qed.

(** ** Scalars *)

Definition sbytes (n : Z) : list Z := le_split 32 (n mod ell).

Lemma ell_range n : 0 <= n mod ell < ell.
Proof. by apply Z.mod_pos_bound. Qed.

Lemma mod_sub_0 a b : (a - b) mod ell = 0 <-> a mod ell = b mod ell.
Proof.
  split; intros E.
  - replace a with (a - b + b) by lia. by rewrite <- Zplus_mod_idemp_l, E.
  - by rewrite <- Zminus_mod_idemp_l, E, Zminus_mod_idemp_l, Z.sub_diag.
Qed.

Lemma sbytes_bytes n : is_bytes 32 (sbytes n).
Proof. apply le_split_bytes. Qed.

Lemma sbytes_val n : le_combine (sbytes n) = n mod ell.
Proof.
  apply le_combine_split. pose proof (ell_range n). assert (ell < 256 ^ Z.of_nat 32) by reflexivity. lia.
Qed.

Lemma reduced_ok s : is_bytes 32 s -> le_combine s < ell -> scalar_ok s.
Proof. intros B H. split; [done |]. assert (ell < 2 ^ 255) by reflexivity. lia. Qed.

Lemma sbytes_ok n : scalar_ok (sbytes n).
Proof. apply reduced_ok; [apply sbytes_bytes |]. rewrite sbytes_val. apply ell_range. Qed.

Lemma sbytes_eq a b : a mod ell = b mod ell -> sbytes a = sbytes b.
Proof. unfold sbytes. by intros ->. Qed.

Lemma sbytes_inj a b : sbytes a = sbytes b -> a mod ell = b mod ell.
Proof. intros E. by rewrite <- !sbytes_val, E. Qed.

Lemma sbytes_of s : is_bytes 32 s -> le_combine s < ell -> s = sbytes (le_combine s).
Proof.
  intros [L B] H. destruct (sbytes_bytes (le_combine s)) as [L' B']. apply le_combine_inj; [congruence | done | done |].
  rewrite sbytes_val, Z.mod_small; [done |]. split; [apply le_combine_bounds | ]; done.
Qed.

Lemma computes_sbytes r v : computes r v -> r = Some (sbytes v).
Proof.
  intros (s & -> & B & V). rewrite (sbytes_of s B) by (rewrite V; apply ell_range).
  f_equal. apply sbytes_eq. by rewrite V, Z.mod_mod.
Qed.

Lemma sc_check_sbytes n : sc_check (sbytes n) = 0.
Proof.
  rewrite sc_check_ok by apply sbytes_bytes. rewrite sbytes_val, (proj2 (Z.ltb_lt _ _)); [done | apply ell_range].
Qed.

Lemma sc_check_cases s : is_bytes 32 s ->
  (le_combine s < ell /\ sc_check s = 0) \/ (ell <= le_combine s /\ sc_check s = -1).
Proof. intros B. rewrite sc_check_ok by done. destruct (Z.ltb_spec (le_combine s) ell); auto. Qed.

Lemma isnonzero_sbytes n : (sc_isnonzero (sbytes n) =? 0) = (n mod ell =? 0).
Proof. rewrite sc_isnonzero_ok by apply sbytes_bytes. rewrite sbytes_val. by destruct (n mod ell =? 0). Qed.

Lemma reduce32_sbytes s : is_bytes 32 s -> sc_reduce32 s = Some (sbytes (le_combine s)).
Proof. intros B. by apply computes_sbytes, sc_reduce32_ok. Qed.

Lemma add_sbytes a b : sc_add (sbytes a) (sbytes b) = Some (sbytes (a + b)).
Proof.
  apply computes_sbytes. eapply computes_mod; [apply sc_add_ok; apply sbytes_bytes |].
  rewrite !sbytes_val. by rewrite <- Z.add_mod.
Qed.

Lemma sub_sbytes a b : sc_sub (sbytes a) (sbytes b) = Some (sbytes (a - b)).
Proof.
  apply computes_sbytes. eapply computes_mod; [apply sc_sub_ok; apply sbytes_bytes |].
  rewrite !sbytes_val. by rewrite Zminus_mod_idemp_l, Zminus_mod_idemp_r.
Qed.

Lemma mulsub_sbytes a b c : sc_mulsub (sbytes a) (sbytes b) (sbytes c) = Some (sbytes (c - a * b)).
Proof.
  apply computes_sbytes. eapply computes_mod; [apply sc_mulsub_ok; apply sbytes_bytes |].
  rewrite !sbytes_val. by rewrite Zminus_mod_idemp_l, <- (Zminus_mod_idemp_r c (_ * _)), <- Z.mul_mod, Zminus_mod_idemp_r.
Qed.

Lemma muladd_sbytes a b c : sc_muladd (sbytes a) (sbytes b) (sbytes c) = Some (sbytes (c + a * b)).
Proof.
  apply computes_sbytes. eapply computes_mod; [apply sc_muladd_ok; apply sbytes_bytes |].
  rewrite !sbytes_val. by rewrite Zplus_mod_idemp_l, <- (Zplus_mod_idemp_r (_ * _) c), <- Z.mul_mod, Zplus_mod_idemp_r.
Qed.

Lemma mul_sbytes a b : sc_mul (sbytes a) (sbytes b) = Some (sbytes (a * b)).
Proof.
  apply computes_sbytes. eapply computes_mod; [apply sc_mul_ok; apply sbytes_bytes |].
  rewrite !sbytes_val. by rewrite <- Z.mul_mod.
Qed.

Lemma sc_0_sbytes : sc_0 = sbytes 0.
Proof. reflexivity. Qed.

(** ** Hashes *)

(** The scalar that a byte string hashes to. *)
Definition hs (m : list Z) : Z := le_combine (keccak256 m).

(** [Q] is the point that [hash_to_ec] maps the key to. *)
Definition hashes_to (key : list Z) (Q : point) : Prop :=
  exists P, fromfe_image (hs key) P /\ Q ≃ smul 8 P.

Lemma hashes_to_unique key P Q : hashes_to key P -> hashes_to key Q -> P ≃ Q.
Proof. intros (P' & HP & EP) (Q' & HQ & EQ). rewrite EP, EQ. apply smul_proper, (fromfe_image_unique _ _ _ HP HQ). Qed.

(** ** Multiples of points of prime order *)

(** The point is in the subgroup of order [ell]. *)
Definition prime_order (P : point) : Prop := smul ell P ≃ gzero.

Lemma base_prime : prime_order base_point.
Proof. exact base_order. Qed.

Lemma hashes_to_prime key Q : hashes_to key Q -> prime_order Q.
Proof.
  intros (P & _ & E). unfold prime_order. rewrite E, <- smul_mul, Z.mul_comm. apply curve_exponent.
Qed.

Lemma smul_prime n P : prime_order P -> prime_order (smul n P).
Proof. unfold prime_order. intros H. rewrite <- smul_mul, Z.mul_comm, smul_mul, H. apply smul_0. Qed.

Lemma smul_mod n P : prime_order P -> smul (n mod ell) P ≃ smul n P.
Proof.
  unfold prime_order. intros H. rewrite (Z.div_mod n ell) at 2 by done.
  rewrite smul_add, Z.mul_comm, smul_mul, H, smul_0. by rewrite gadd_0_l.
Qed.

Lemma smul_base_eq n m : smul n base_point ≃ smul m base_point <-> n mod ell = m mod ell.
Proof.
  split.
  - intros E. assert (Z : smul (n - m) base_point ≃ gzero).
    { unfold Z.sub. by rewrite smul_add, smul_opp, E, gadd_opp_r. }
    apply (order_divide (H := curve_group) ell _ base_point prime_ell base_order base_nonzero) in Z as [k Hk].
    replace n with (m + k * ell) by lia. by rewrite Z_mod_plus_full.
  - intros E. rewrite <- (smul_mod n), E by exact base_prime. apply smul_mod, base_prime.
Qed.
End Encoding.
