(* ===== verification/Crypto.v ===== *)
(** Keys, derivations and signatures of src/crypto/crypto.cpp.

    Keys, points, scalars and hashes are lists of 32 bytes.  The 32-byte blocks
    that the random generator yields are a tape, an argument the functions
    consume; they return what is left of it, and [None] when it runs out.  [None]
    is also an abort: a failed assertion, with [NDEBUG] false, or [local_abort].
    A function that returns [bool] and writes a result returns an [option], with
    [None] inside for [false]. *)
From S2P Require Import Prelude Pack Scalar Ge GeMult GeFromFe Keccak Varint.

Local Open Scope Z_scope.

Module Crypto.
Import Pack Scalar Ge GeMult GeFromFe Keccak Varint.

Abbreviation bytes := (list Z).

(** ** Random scalars *)

(** [for (int n = 31; n >= 0; --n)], from byte [n - 1] down. *)
Fixpoint less_from (n : nat) (k0 k1 : bytes) : bool :=
  match n with
  | O => false
  | S n =>
      if at_ k0 n <? at_ k1 n then true else
      if at_ k1 n <? at_ k0 n then false else less_from n k0 k1
  end.

Definition less32 (k0 k1 : bytes) : bool := less_from 32 k0 k1.

Definition limit : bytes :=
  [0xe3; 0x6a; 0x67; 0x72; 0x8b; 0xce; 0x13; 0x29; 0x8f; 0x30; 0x82; 0x8c; 0x0b; 0xa4; 0x10; 0x39;
   0x01; 0; 0; 0; 0; 0; 0; 0; 0; 0; 0; 0; 0; 0; 0; 0xf0].

Fixpoint random32_unbiased (tape : list bytes) : option (bytes * list bytes) :=
  match tape with
  | [] => None
  | block :: tape =>
      if negb (less32 block limit) then random32_unbiased tape else
      r ← sc_reduce32 block;
      if sc_isnonzero r =? 0 then random32_unbiased tape else Some (r, tape)
  end.

Definition random_scalar (tape : list bytes) : option (bytes * list bytes) := random32_unbiased tape.

Definition hash_to_scalar (data : bytes) : option bytes :=
  res ← cn_fast_hash data; sc_reduce32 res.

(** ** Keys *)

(** The public key, the secret key and the returned random key. *)
Definition generate_keys (tape : list bytes) (recovery_key : bytes) (recover : bool)
  : option (bytes * bytes * bytes * list bytes) :=
  '(rng, tape) ← (if recover then Some (recovery_key, tape) else random_scalar tape);
  sec ← sc_reduce32 rng;
  point ← ge_scalarmult_base sec;
  pub ← ge_p3_tobytes point;
  Some (pub, sec, rng, tape).

Definition check_key (key : bytes) : option bool :=
  r ← ge_frombytes_vartime key;
  Some (match r with Some _ => true | None => false end).

Definition secret_key_to_public_key (sec : bytes) : option (option bytes) :=
  if negb (sc_check sec =? 0) then Some None else
  point ← ge_scalarmult_base sec;
  pub ← ge_p3_tobytes point;
  Some (Some pub).

(** [tools::write_varint(end, output_index)] into the ten bytes reserved. *)
Definition derivation_to_scalar (NDEBUG : bool) (derivation : bytes) (output_index : Z) : option bytes :=
  v ← write_varint output_index;
  if negb NDEBUG && negb (length v <=? 10)%nat then None else
  hash_to_scalar (derivation ++ v).

Definition hash_to_ec (key : bytes) : option ge_p3 :=
  h ← cn_fast_hash key;
  point ← ge_fromfe_frombytes_vartime h;
  point2 ← ge_mul8 point;
  ge_p1p1_to_p3 point2.

Record signature := mk_sig { sig_c : bytes; sig_r : bytes }.

(** [struct s_comm], as the bytes that are hashed. *)
Definition s_comm (h key comm : bytes) : bytes := h ++ key ++ comm.

Definition infinity : bytes :=
  [1; 0; 0; 0; 0; 0; 0; 0; 0; 0; 0; 0; 0; 0; 0; 0; 0; 0; 0; 0; 0; 0; 0; 0; 0; 0; 0; 0; 0; 0; 0; 0].

Definition zero_point : bytes := replicate 32 0.

(** The domain separator: the bytes of the string TXPROOF_V2. *)
Definition HASH_KEY_TXPROOF_V2 : bytes := [84; 88; 80; 82; 79; 79; 70; 95; 86; 50].

(** [struct s_comm_2_v1] and [struct s_comm_2]. *)
Definition s_comm_2_v1 (msg D X Y : bytes) : bytes := msg ++ D ++ X ++ Y.
Definition s_comm_2 (msg D X Y sep R A B : bytes) : bytes := msg ++ D ++ X ++ Y ++ sep ++ R ++ A ++ B.

(** The messages of the exceptions that the proof generators throw. *)
Inductive tx_proof_error : Set :=
| tx_pubkey_is_invalid
| recipient_view_pubkey_is_invalid
| recipient_spend_pubkey_is_invalid
| key_derivation_is_invalid.

Section Debug.
Context (NDEBUG : bool).

Definition assert (c : bool) : option unit := if NDEBUG || c then Some tt else None.

(** A block that is compiled only when [NDEBUG] is not defined. *)
Definition debug (block : option unit) : option unit := if NDEBUG then Some tt else block.

Definition assert_debug (c : bool) : option unit := if c then Some tt else None.

Definition generate_key_derivation (key1 key2 : bytes) : option (option bytes) :=
  _ ← assert (sc_check key2 =? 0);
  r ← ge_frombytes_vartime key1;
  match r with
  | None => Some None
  | Some point =>
      point2 ← ge_scalarmult key2 point;
      point3 ← ge_mul8 point2;
      point2 ← ge_p1p1_to_p2 point3;
      derivation ← ge_tobytes point2;
      Some (Some derivation)
  end.

Definition derive_public_key (derivation : bytes) (output_index : Z) (base : bytes) : option (option bytes) :=
  r ← ge_frombytes_vartime base;
  match r with
  | None => Some None
  | Some point1 =>
      scalar ← derivation_to_scalar NDEBUG derivation output_index;
      point2 ← ge_scalarmult_base scalar;
      point3 ← ge_p3_to_cached point2;
      point4 ← ge_add point1 point3;
      point5 ← ge_p1p1_to_p2 point4;
      derived_key ← ge_tobytes point5;
      Some (Some derived_key)
  end.

Definition derive_secret_key (derivation : bytes) (output_index : Z) (base : bytes) : option bytes :=
  _ ← assert (sc_check base =? 0);
  scalar ← derivation_to_scalar NDEBUG derivation output_index;
  sc_add base scalar.

Definition derive_subaddress_public_key (out_key derivation : bytes) (output_index : Z) : option (option bytes) :=
  r ← ge_frombytes_vartime out_key;
  match r with
  | None => Some None
  | Some point1 =>
      scalar ← derivation_to_scalar NDEBUG derivation output_index;
      point2 ← ge_scalarmult_base scalar;
      point3 ← ge_p3_to_cached point2;
      point4 ← ge_sub point1 point3;
      point5 ← ge_p1p1_to_p2 point4;
      derived_key ← ge_tobytes point5;
      Some (Some derived_key)
  end.

(** ** Schnorr signatures *)

(** [try_again:], at most once for every block of the tape. *)
Fixpoint sign_loop (fuel : nat) (prefix_hash pub sec : bytes) (tape : list bytes)
  : option (signature * list bytes) :=
  match fuel with
  | O => None
  | S fuel =>
      '(k, tape) ← random_scalar tape;
      tmp3 ← ge_scalarmult_base k;
      comm ← ge_p3_tobytes tmp3;
      c ← hash_to_scalar (s_comm prefix_hash pub comm);
      if sc_isnonzero c =? 0 then sign_loop fuel prefix_hash pub sec tape else
      r ← sc_mulsub c sec k;
      if sc_isnonzero r =? 0 then sign_loop fuel prefix_hash pub sec tape else
      Some (mk_sig c r, tape)
  end.

Definition generate_signature (prefix_hash pub sec : bytes) (tape : list bytes) : option (signature * list bytes) :=
  _ ← debug (
    _ ← assert_debug (sc_check sec =? 0);
    t ← ge_scalarmult_base sec;
    t2 ← ge_p3_tobytes t;
    assert_debug (bool_decide (pub = t2)));
  sign_loop (S (length tape)) prefix_hash pub sec tape.

Definition check_signature (prefix_hash pub : bytes) (sig : signature) : option bool :=
  ok ← check_key pub;
  _ ← assert ok;
  r ← ge_frombytes_vartime pub;
  match r with
  | None => Some false
  | Some tmp3 =>
      if negb (sc_check (sig_c sig) =? 0) || negb (sc_check (sig_r sig) =? 0) || (sc_isnonzero (sig_c sig) =? 0)
      then Some false else
      tmp2 ← ge_double_scalarmult_base_vartime (sig_c sig) tmp3 (sig_r sig);
      comm ← ge_tobytes tmp2;
      if bool_decide (comm = infinity) then Some false else
      c ← hash_to_scalar (s_comm prefix_hash pub comm);
      c ← sc_sub c (sig_c sig);
      Some (sc_isnonzero c =? 0)
  end.

(** ** Proofs of a transaction key *)

(** The sanity checks on the four keys, in their order. *)
Definition decode_keys (R A : bytes) (B : option bytes) (D : bytes)
  : option (tx_proof_error + (ge_p3 * ge_p3 * option ge_p3 * ge_p3)) :=
  r ← ge_frombytes_vartime R;
  match r with None => Some (inl tx_pubkey_is_invalid) | Some R_p3 =>
  r ← ge_frombytes_vartime A;
  match r with None => Some (inl recipient_view_pubkey_is_invalid) | Some A_p3 =>
  r ← match B with
      | None => Some (Some None)
      | Some B => r ← ge_frombytes_vartime B; Some (match r with None => None | Some B_p3 => Some (Some B_p3) end)
      end;
  match r with None => Some (inl recipient_spend_pubkey_is_invalid) | Some B_p3 =>
  r ← ge_frombytes_vartime D;
  match r with None => Some (inl key_derivation_is_invalid) | Some D_p3 =>
  Some (inr (R_p3, A_p3, B_p3, D_p3))
  end end end end.

(** [k B] when [B] is present, [k G] otherwise, encoded. *)
Definition mult_or_base (k : bytes) (B_p3 : option ge_p3) : option bytes :=
  match B_p3 with
  | Some B_p3 => X_p2 ← ge_scalarmult k B_p3; ge_tobytes X_p2
  | None => X_p3 ← ge_scalarmult_base k; ge_p3_tobytes X_p3
  end.

(** The debug block of the proof generators. *)
Definition debug_tx_proof (R D r : bytes) (A_p3 : ge_p3) (B_p3 : option ge_p3) : option unit :=
  debug (
    _ ← assert_debug (sc_check r =? 0);
    dbg_R ← mult_or_base r B_p3;
    _ ← assert_debug (bool_decide (R = dbg_R));
    dbg_D_p2 ← ge_scalarmult r A_p3;
    dbg_D ← ge_tobytes dbg_D_p2;
    assert_debug (bool_decide (D = dbg_D))).

Definition generate_tx_proof_v1 (prefix_hash R A : bytes) (B : option bytes) (D r : bytes) (tape : list bytes)
  : option (tx_proof_error + signature * list bytes) :=
  d ← decode_keys R A B D;
  match d with
  | inl e => Some (inl e)
  | inr (R_p3, A_p3, B_p3, D_p3) =>
      _ ← debug_tx_proof R D r A_p3 B_p3;
      '(k, tape) ← random_scalar tape;
      X ← mult_or_base k B_p3;
      Y_p2 ← ge_scalarmult k A_p3;
      Y ← ge_tobytes Y_p2;
      c ← hash_to_scalar (s_comm_2_v1 prefix_hash D X Y);
      sr ← sc_mulsub c r k;
      Some (inr (mk_sig c sr, tape))
  end.

Definition generate_tx_proof (prefix_hash R A : bytes) (B : option bytes) (D r : bytes) (tape : list bytes)
  : option (tx_proof_error + signature * list bytes) :=
  d ← decode_keys R A B D;
  match d with
  | inl e => Some (inl e)
  | inr (R_p3, A_p3, B_p3, D_p3) =>
      _ ← debug_tx_proof R D r A_p3 B_p3;
      '(k, tape) ← random_scalar tape;
      let B := default zero_point B in
      sep ← cn_fast_hash HASH_KEY_TXPROOF_V2;
      X ← mult_or_base k B_p3;
      Y_p2 ← ge_scalarmult k A_p3;
      Y ← ge_tobytes Y_p2;
      c ← hash_to_scalar (s_comm_2 prefix_hash D X Y sep R A B);
      sr ← sc_mulsub c r k;
      Some (inr (mk_sig c sr, tape))
  end.

(** [ge_tobytes] followed by [ge_frombytes_vartime], which normalises the point. *)
Definition reload (p : ge_p2) : option (option ge_p3) := s ← ge_tobytes p; ge_frombytes_vartime s.

(** [X = c R + r B], or [c R + r G]. *)
Definition proof_X (r : bytes) (cR_p3 : ge_p3) (B_p3 : option ge_p3) : option (option ge_p2) :=
  match B_p3 with
  | Some B_p3 =>
      rB_p2 ← ge_scalarmult r B_p3;
      o ← reload rB_p2;
      match o with
      | None => Some None
      | Some rB_p3 =>
          rB_cached ← ge_p3_to_cached rB_p3;
          X_p1p1 ← ge_add cR_p3 rB_cached;
          X_p2 ← ge_p1p1_to_p2 X_p1p1; Some (Some X_p2)
      end
  | None =>
      rG_p3 ← ge_scalarmult_base r;
      rG_cached ← ge_p3_to_cached rG_p3;
      X_p1p1 ← ge_add cR_p3 rG_cached;
      X_p2 ← ge_p1p1_to_p2 X_p1p1; Some (Some X_p2)
  end.

(** [Y = c D + r A]. *)
Definition proof_Y (c r : bytes) (D_p3 A_p3 : ge_p3) : option (option ge_p2) :=
  cD_p2 ← ge_scalarmult c D_p3;
  rA_p2 ← ge_scalarmult r A_p3;
  cD ← ge_tobytes cD_p2;
  rA ← ge_tobytes rA_p2;
  o ← ge_frombytes_vartime cD;
  match o with
  | None => Some None
  | Some cD_p3 =>
      o ← ge_frombytes_vartime rA;
      match o with
      | None => Some None
      | Some rA_p3 =>
          rA_cached ← ge_p3_to_cached rA_p3;
          Y_p1p1 ← ge_add cD_p3 rA_cached;
          Y_p2 ← ge_p1p1_to_p2 Y_p1p1; Some (Some Y_p2)
      end
  end.

Definition check_tx_proof (prefix_hash R A : bytes) (B : option bytes) (D : bytes) (sig : signature) (version : Z)
  : option bool :=
  d ← decode_keys R A B D;
  match d with
  | inl _ => Some false
  | inr (R_p3, A_p3, B_p3, D_p3) =>
      if negb (sc_check (sig_c sig) =? 0) || negb (sc_check (sig_r sig) =? 0) then Some false else
      cR_p2 ← ge_scalarmult (sig_c sig) R_p3;
      o ← reload cR_p2;
      match o with None => Some false | Some cR_p3 =>
      o ← proof_X (sig_r sig) cR_p3 B_p3;
      match o with None => Some false | Some X_p2 =>
      o ← proof_Y (sig_c sig) (sig_r sig) D_p3 A_p3;
      match o with None => Some false | Some Y_p2 =>
      let B := default zero_point B in
      sep ← cn_fast_hash HASH_KEY_TXPROOF_V2;
      X ← ge_tobytes X_p2;
      Y ← ge_tobytes Y_p2;
      let buf := s_comm_2 prefix_hash D X Y sep R A B in
      let check data :=
        c2 ← hash_to_scalar data;
        c2 ← sc_sub c2 (sig_c sig);
        Some (sc_isnonzero c2 =? 0) in
      if version =? 1 then check (take (length buf - 3 * 32 - 32) buf)
      else if version =? 2 then check buf
      else Some false
      end end end
  end.

(** ** Key images and ring signatures *)

Definition generate_key_image (pub sec : bytes) : option bytes :=
  _ ← assert (sc_check sec =? 0);
  point ← hash_to_ec pub;
  point2 ← ge_scalarmult sec point;
  ge_tobytes point2.

(** What the loop of [generate_ring_signature] updates: the array [sig], the part
    of [buf->ab] filled so far, [sum], [k] and the random source. *)
Record ring_state := mk_ring {
  rs_sig : list signature; rs_ab : bytes; rs_sum : bytes; rs_k : bytes; rs_tape : list bytes }.

(** The pair [c P + r G], [r H_p(P) + c I], encoded. *)
Definition ring_pair (c r : bytes) (pub : bytes) (tmp3 : ge_p3) (image_pre : list ge_cached) : option bytes :=
  tmp2 ← ge_double_scalarmult_base_vartime c tmp3 r;
  a ← ge_tobytes tmp2;
  tmp3 ← hash_to_ec pub;
  tmp2 ← ge_double_scalarmult_precomp_vartime r tmp3 c image_pre;
  b ← ge_tobytes tmp2;
  Some (a ++ b).

Definition ring_sign_step (image_pre : list ge_cached) (sec_index i : nat) (pub : bytes) (s : ring_state)
  : option ring_state :=
  if (i =? sec_index)%nat then
    '(k, tape) ← random_scalar (rs_tape s);
    tmp3 ← ge_scalarmult_base k;
    a ← ge_p3_tobytes tmp3;
    tmp3 ← hash_to_ec pub;
    tmp2 ← ge_scalarmult k tmp3;
    b ← ge_tobytes tmp2;
    Some (mk_ring (rs_sig s) (rs_ab s ++ a ++ b) (rs_sum s) k tape)
  else
    '(c, tape) ← random_scalar (rs_tape s);
    '(r, tape) ← random_scalar tape;
    o ← ge_frombytes_vartime pub;
    tmp3 ← o;
    _ ← rs_sig s !! i;
    ab ← ring_pair c r pub tmp3 image_pre;
    sum ← sc_add (rs_sum s) c;
    Some (mk_ring (<[i := mk_sig c r]> (rs_sig s)) (rs_ab s ++ ab) sum (rs_k s) tape).

(** [for (i = 0; i < pubs_count; i++)], from [i] on. *)
Fixpoint ring_sign_loop (image_pre : list ge_cached) (sec_index i : nat) (pubs : list bytes) (s : ring_state)
  : option ring_state :=
  match pubs with
  | [] => Some s
  | pub :: pubs => s ← ring_sign_step image_pre sec_index i pub s; ring_sign_loop image_pre sec_index (S i) pubs s
  end.

Fixpoint all_keys (pubs : list bytes) : option unit :=
  match pubs with
  | [] => Some tt
  | pub :: pubs => ok ← check_key pub; _ ← assert_debug ok; all_keys pubs
  end.

(** [sig] is the array the caller passes; [k] has no value before it is drawn. *)
Definition generate_ring_signature (prefix_hash image : bytes) (pubs : list bytes) (sec : bytes) (sec_index : nat)
    (sig : list signature) (tape : list bytes) : option (list signature * list bytes) :=
  _ ← assert (sec_index <? length pubs)%nat;
  _ ← debug (
    _ ← assert_debug (sc_check sec =? 0);
    t ← ge_scalarmult_base sec;
    t2 ← ge_p3_tobytes t;
    pub ← pubs !! sec_index;
    _ ← assert_debug (bool_decide (pub = t2));
    t3 ← generate_key_image pub sec;
    _ ← assert_debug (bool_decide (image = t3));
    all_keys pubs);
  o ← ge_frombytes_vartime image;
  image_unp ← o;
  image_pre ← ge_dsm_precomp image_unp;
  s ← ring_sign_loop image_pre sec_index 0 pubs (mk_ring sig [] sc_0 [] tape);
  h ← hash_to_scalar (prefix_hash ++ rs_ab s);
  c ← sc_sub h (rs_sum s);
  r ← sc_mulsub c sec (rs_k s);
  _ ← rs_sig s !! sec_index;
  Some (<[sec_index := mk_sig c r]> (rs_sig s), rs_tape s).

(** One turn of the loop of [check_ring_signature]: [None] inside is [return false]. *)
Fixpoint ring_check_loop (image_pre : list ge_cached) (pubs : list bytes) (sig : list signature)
    (ab sum : bytes) : option (option (bytes * bytes)) :=
  match pubs with
  | [] => Some (Some (ab, sum))
  | pub :: pubs =>
      s ← head sig;
      if negb (sc_check (sig_c s) =? 0) || negb (sc_check (sig_r s) =? 0) then Some None else
      o ← ge_frombytes_vartime pub;
      match o with
      | None => Some None
      | Some tmp3 =>
          p ← ring_pair (sig_c s) (sig_r s) pub tmp3 image_pre;
          sum ← sc_add sum (sig_c s);
          ring_check_loop image_pre pubs (tail sig) (ab ++ p) sum
      end
  end.

Definition check_ring_signature (prefix_hash image : bytes) (pubs : list bytes) (sig : list signature)
  : option bool :=
  _ ← debug (all_keys pubs);
  o ← ge_frombytes_vartime image;
  match o with
  | None => Some false
  | Some image_unp =>
      image_pre ← ge_dsm_precomp image_unp;
      o ← ring_check_loop image_pre pubs sig [] sc_0;
      match o with
      | None => Some false
      | Some (ab, sum) =>
          h ← hash_to_scalar (prefix_hash ++ ab);
          h ← sc_sub h sum;
          Some (sc_isnonzero h =? 0)
      end
  end.
End Debug.
End Crypto.
