(* ===== verification/CryptoCorrect.v ===== *)
(** What the functions of src/crypto/crypto.cpp compute, as equations on points and
    scalars: keys, derivations, signatures, key images and ring signatures. *)
From S2P Require Import Prelude Pack Scalar ScalarCorrect Group Fe Curve Ge GeCorrect GeEncode GeMult GeMultCorrect.
From S2P Require Import GeTables GeScalarmult GeFromFe GeTheorems CurveOrder Keccak KeccakCorrect Varint Encoding Crypto.

Local Open Scope Z_scope.

Module CryptoCorrect.
Import Pack Scalar ScalarCorrect Group Fe Curve Ge GeCorrect GeEncode GeMult GeMultCorrect.
Import GeTables GeScalarmult GeFromFe GeTheorems Finite CurveOrder Keccak KeccakCorrect Varint Encoding Crypto.
Local Open Scope group_scope.

(** ** Random scalars *)

Lemma le_combine_take n k : (n < length k)%nat ->
  le_combine (take (S n) k) = le_combine (take n k) + 256 ^ Z.of_nat n * at_ k n.
Proof.
  revert n. induction k as [| b k IH]; intros n Hn; [simpl in Hn; lia |].
  destruct n as [| n]; [change (b + 256 * 0 = 0 + 1 * b); lia |].
  change (take (S (S n)) (b :: k)) with (b :: take (S n) k). change (take (S n) (b :: k)) with (b :: take n k).
  change (at_ (b :: k) (S n)) with (at_ k n). cbn [le_combine].
  rewrite IH by (simpl in Hn; lia). rewrite Nat2Z.inj_succ, Z.pow_succ_r by lia. ring.
Qed.

Lemma less_from_ok n k0 k1 : Forall is_byte k0 -> Forall is_byte k1 -> (n <= length k0)%nat -> (n <= length k1)%nat ->
  less_from n k0 k1 = (le_combine (take n k0) <? le_combine (take n k1)).
Proof.
  intros H0 H1. induction n as [| n IH]; intros L0 L1; [done |]. cbn [less_from]. rewrite IH by lia.
  rewrite !le_combine_take by lia.
  pose proof (le_combine_bounds _ (Forall_take _ n _ H0)) as B0. pose proof (le_combine_bounds _ (Forall_take _ n _ H1)) as B1.
  rewrite length_take, Nat.min_l in B0, B1 by lia.
  set (w := 256 ^ Z.of_nat n) in *. set (x := at_ k0 n). set (y := at_ k1 n).
  set (a := le_combine _) in *. set (b := le_combine _) in *.
  destruct (Z.ltb_spec x y), (Z.ltb_spec y x), (Z.ltb_spec a b), (Z.ltb_spec (a + w * x) (b + w * y)); try done; nia.
Qed.

Lemma less32_ok k0 k1 : is_bytes 32 k0 -> is_bytes 32 k1 -> less32 k0 k1 = (le_combine k0 <? le_combine k1).
Proof.
  intros [L0 B0] [L1 B1]. unfold less32. rewrite less_from_ok by (done || lia).
  by rewrite !take_ge by lia.
Qed.

Lemma limit_val : is_bytes 32 limit /\ le_combine limit = 15 * ell.
Proof. split; [| reflexivity]. split; [reflexivity |]. repeat constructor; unfold is_byte; lia. Qed.

(** A block is kept when it is below [15 ell] and not a multiple of [ell]. *)
Definition accept (block : bytes) : bool := (le_combine block <? 15 * ell) && negb (le_combine block mod ell =? 0).

Fixpoint next_scalar (tape : list bytes) : option (bytes * list bytes) :=
  match tape with
  | [] => None
  | block :: tape => if accept block then Some (sbytes (le_combine block), tape) else next_scalar tape
  end.

Lemma random_scalar_ok tape : Forall (is_bytes 32) tape -> random_scalar tape = next_scalar tape.
Proof.
  unfold random_scalar. induction 1 as [| block tape Hb _ IH]; [done |]. cbn [random32_unbiased next_scalar].
  rewrite less32_ok, (proj2 limit_val) by (done || apply limit_val). unfold accept.
  destruct (le_combine block <? 15 * ell); [| exact IH]. cbn [negb andb].
  rewrite reduce32_sbytes by done. bind. rewrite isnonzero_sbytes.
  by destruct (le_combine block mod ell =? 0).
Qed.

(** The scalars that the tape yields, in order. *)
Definition scalars (tape : list bytes) : list Z :=
  map (fun block => le_combine block mod ell) (filter (fun block => accept block = true) tape).

Lemma scalars_cons block tape : scalars (block :: tape) =
  if accept block then le_combine block mod ell :: scalars tape else scalars tape.
Proof. unfold scalars. rewrite filter_cons. destruct (accept block); by case_decide. Qed.

Lemma scalars_range tape : Forall (fun k => 0 < k < ell) (scalars tape).
Proof.
  induction tape as [| block tape IH]; [constructor |]. rewrite scalars_cons.
  destruct (accept block) eqn:A; [| done]. constructor; [| done].
  apply andb_true_iff in A as [_ A%negb_true_iff%Z.eqb_neq]. pose proof (ell_range (le_combine block)). lia.
Qed.

Lemma next_scalar_none tape : scalars tape = [] -> next_scalar tape = None.
Proof.
  induction tape as [| block tape IH]; [done |]. rewrite scalars_cons. cbn [next_scalar].
  destruct (accept block); [discriminate | exact IH].
Qed.

Lemma next_scalar_some tape k ks : Forall (is_bytes 32) tape -> scalars tape = k :: ks ->
  exists rest, random_scalar tape = Some (sbytes k, rest) /\ scalars rest = ks /\ Forall (is_bytes 32) rest /\
    (length rest < length tape)%nat.
Proof.
  intros H. rewrite random_scalar_ok by done.
  induction H as [| block tape Hb Ht IH]; [discriminate |]. rewrite scalars_cons. cbn [next_scalar].
  destruct (accept block) eqn:A.
  - intros E. injection E as <- <-. exists tape. split; [| split; [done | split; [done | simpl; lia]]].
    do 2 f_equal. apply sbytes_eq. by rewrite Z.mod_mod.
  - intros E. destruct (IH E) as (rest & E1 & E2 & E3 & E4). exists rest. split_and!; try done. simpl; lia.
Qed.

(** [sc_sub] and [sc_isnonzero] compare a hash with a reduced scalar. *)
Lemma compare_sbytes {A} d c (K : bool -> option A) : is_bytes 32 c -> le_combine c < ell ->
  (s ← sc_sub (sbytes d) c; K (sc_isnonzero s =? 0)) = (b ← Some (d mod ell =? le_combine c); K b).
Proof.
  intros Hc Lc. rewrite (sbytes_of c Hc Lc), sub_sbytes. do 2 bind. rewrite isnonzero_sbytes, sbytes_val.
  f_equal. set (e := le_combine c). pose proof (mod_sub_0 d e).
  destruct (Z.eqb_spec ((d - e) mod ell) 0), (Z.eqb_spec (d mod ell) (e mod ell)); tauto.
Qed.

(** ** Keys *)

Lemma base_enc a : scalar_ok a -> exists t, ge_scalarmult_base a = Some t /\
  (p3_rep t (smul (le_combine a) base_point) /\ ge_p3_tobytes t = Some (enc (smul (le_combine a) base_point))).
Proof. intros Ha. destruct (ge_scalarmult_base_ok a Ha) as (t & E & H). exists t. split; [done |]. split; [done |]. by apply to_enc3. Qed.

(** The public key of a secret scalar. *)
Definition pub (x : Z) : bytes := enc (smul x base_point).

Lemma pub_mod x : pub (x mod ell) = pub x.
Proof. apply enc_eq, smul_mod, base_prime. Qed.

Lemma base_sbytes x : exists t, ge_scalarmult_base (sbytes x) = Some t /\
  (p3_rep t (smul x base_point) /\ ge_p3_tobytes t = Some (pub x)).
Proof.
  destruct (base_enc _ (sbytes_ok x)) as (t & E & H & E'). rewrite sbytes_val in H, E'. exists t. split; [done |].
  split; [| by rewrite E'; f_equal; apply pub_mod]. refine (proj1 (p3_rep_proper t _ _ _) H). apply smul_mod, base_prime.
Qed.

Lemma check_key_enc P : check_key (enc P) = Some true.
Proof. unfold check_key. destruct (from_enc P) as (h & -> & _). done. Qed.

Lemma check_key_cases s : is_bytes 32 s ->
  (exists P, s = enc P /\ check_key s = Some true) \/ (check_key s = Some false /\ forall P, s <> enc P).
Proof.
  intros Hs. destruct (from_cases s Hs) as [[P ->] | [E N]].
  - left. exists P. split; [done | apply check_key_enc].
  - right. split; [unfold check_key; by rewrite E | done].
Qed.

Lemma secret_to_public_ok s : is_bytes 32 s ->
  secret_key_to_public_key s = Some (if le_combine s <? ell then Some (pub (le_combine s)) else None).
Proof.
  intros Hs. unfold secret_key_to_public_key. rewrite sc_check_ok by done.
  destruct (Z.ltb_spec (le_combine s) ell) as [L | L]; [| done]. cbn [Z.eqb negb].
  run (base_enc s (reduced_ok s Hs L)) as t [_ E]. by rewrite E.
Qed.

Lemma hash_to_scalar_ok m : Forall is_byte m -> hash_to_scalar m = Some (sbytes (hs m)).
Proof.
  intros Hm. unfold hash_to_scalar. destruct (cn_fast_hash_ok m Hm) as [-> B]. bind.
  by apply reduce32_sbytes.
Qed.

Lemma hash_to_ec_ok key : Forall is_byte key ->
  exists h, hash_to_ec key = Some h /\ exists Q, p3_rep h Q /\ hashes_to key Q.
Proof.
  intros Hk. unfold hash_to_ec. destruct (cn_fast_hash_ok key Hk) as [-> B]. bind.
  run (ge_fromfe_ok _ B) as p (P & HP & IP). run (ge_mul8_ok _ _ HP) as q HQ.
  destruct (ge_p1p1_to_p3_ok _ _ HQ) as (h & E & Hh). exists h. split; [done |]. exists (smul 8 P).
  split; [done |]. by exists P.
Qed.

Lemma mul_enc k p P : scalar_ok k -> p3_rep p P ->
  exists q, ge_scalarmult k p = Some q /\ (p2_rep q (smul (le_combine k) P) /\ ge_tobytes q = Some (enc (smul (le_combine k) P))).
Proof.
  intros Hk HP. destruct (ge_scalarmult_ok k p P Hk HP) as (q & E & H). exists q. split; [done |]. split; [done |]. by apply to_enc2.
Qed.

(** ** Derivations *)

(** The bytes of a varint, and the scalar of an output. *)
Definition derivation_scalar (d : bytes) (i : Z) : Z := hs (d ++ default [] (write_varint i)).

Lemma enc_length P : length (enc P) = 32%nat.
Proof. apply enc_bytes. Qed.

Lemma enc_app P m : Forall is_byte m -> Forall is_byte (enc P ++ m).
Proof. intros H. apply Forall_app. split; [apply enc_bytes | done]. Qed.

Section Debug.
Context (NDEBUG : bool).

Lemma derivation_to_scalar_ok d i : Forall is_byte d -> 0 <= i < 2 ^ 64 ->
  derivation_to_scalar NDEBUG d i = Some (sbytes (derivation_scalar d i)).
Proof.
  intros Hd Hi. unfold derivation_to_scalar, derivation_scalar. destruct (write_varint_ok i Hi) as (v & -> & L & B).
  cbn [mbind option_bind default from_option]. rewrite (proj2 (Nat.leb_le _ _)) by lia. rewrite andb_false_r.
  apply hash_to_scalar_ok. by apply Forall_app.
Qed.

Lemma assert_true : assert NDEBUG true = Some tt.
Proof. unfold assert. by rewrite orb_true_r. Qed.

Lemma assert_sbytes x : assert NDEBUG (sc_check (sbytes x) =? 0) = Some tt.
Proof. rewrite sc_check_sbytes. apply assert_true. Qed.

Lemma generate_key_derivation_ok P x :
  generate_key_derivation NDEBUG (enc P) (sbytes x) = Some (Some (enc (smul 8 (smul (x mod ell) P)))).
Proof.
  unfold generate_key_derivation. rewrite assert_sbytes. bind.
  destruct (from_enc P) as (h & -> & Hh). bind.
  run (mul_enc _ _ _ (sbytes_ok x) Hh) as q [Hq _]. rewrite sbytes_val in Hq.
  run (ge_mul8_ok _ _ Hq) as t Ht. run (ge_p1p1_to_p2_ok _ _ Ht) as u Hu. by rewrite (to_enc2 _ _ Hu).
Qed.

Lemma generate_key_derivation_refused s x : is_bytes 32 s -> (forall P, s <> enc P) ->
  generate_key_derivation NDEBUG s (sbytes x) = Some None.
Proof.
  intros Hs N. unfold generate_key_derivation. rewrite assert_sbytes. bind.
  destruct (from_cases s Hs) as [[P E] | [-> _]]; [by destruct (N P) | done].
Qed.

Lemma derive_public_key_ok d i P : Forall is_byte d -> 0 <= i < 2 ^ 64 ->
  derive_public_key NDEBUG d i (enc P) = Some (Some (enc (P ⊕ smul (derivation_scalar d i) base_point))).
Proof.
  intros Hd Hi. unfold derive_public_key. destruct (from_enc P) as (h & -> & Hh). bind.
  rewrite derivation_to_scalar_ok by done. bind.
  run (base_sbytes (derivation_scalar d i)) as t [Ht _]. run (ge_p3_to_cached_ok _ _ Ht) as c Hc.
  run (add_rep _ _ _ _ Hh Hc) as u Hu. run (ge_p1p1_to_p2_ok _ _ Hu) as v Hv. by rewrite (to_enc2 _ _ Hv).
Qed.

Lemma derive_subaddress_ok d i P : Forall is_byte d -> 0 <= i < 2 ^ 64 ->
  derive_subaddress_public_key NDEBUG (enc P) d i =
  Some (Some (enc (P ⊕ gopp (smul (derivation_scalar d i) base_point)))).
Proof.
  intros Hd Hi. unfold derive_subaddress_public_key. destruct (from_enc P) as (h & -> & Hh). bind.
  rewrite derivation_to_scalar_ok by done. bind.
  run (base_sbytes (derivation_scalar d i)) as t [Ht _]. run (ge_p3_to_cached_ok _ _ Ht) as c Hc.
  run (sub_rep _ _ _ _ Hh Hc) as u Hu. run (ge_p1p1_to_p2_ok _ _ Hu) as v Hv. by rewrite (to_enc2 _ _ Hv).
Qed.

Lemma derive_secret_key_ok d i x : Forall is_byte d -> 0 <= i < 2 ^ 64 ->
  derive_secret_key NDEBUG d i (sbytes x) = Some (sbytes (x + derivation_scalar d i)).
Proof.
  intros Hd Hi. unfold derive_secret_key. rewrite assert_sbytes. bind.
  rewrite derivation_to_scalar_ok by done. bind. apply add_sbytes.
Qed.

(** ** Schnorr signatures *)

Section Schnorr.
Context (h : bytes) (h_bytes : is_bytes 32 h).

(** The challenge of a commitment [C] under the key [P]. *)
Definition challenge (P C : point) : Z := hs (s_comm h (enc P) (enc C)).

Lemma challenge_ok P C : hash_to_scalar (s_comm h (enc P) (enc C)) = Some (sbytes (challenge P C)).
Proof.
  apply hash_to_scalar_ok. unfold s_comm. apply Forall_app. split; [apply h_bytes |]. apply enc_app, enc_bytes.
Qed.

#[local] Instance challenge_proper : Proper (geq ==> geq ==> eq) challenge.
Proof. intros P P' E%enc_eq C C' F%enc_eq. unfold challenge. by rewrite E, F. Qed.

(** The nonce [k] gives a signature under the secret [x]. *)
Definition usable (x k : Z) : bool :=
  let c := challenge (smul x base_point) (smul k base_point) in
  negb (c mod ell =? 0) && negb ((k - c * x) mod ell =? 0).

Definition signature_of (x k : Z) : signature :=
  let c := challenge (smul x base_point) (smul k base_point) in mk_sig (sbytes c) (sbytes (k - c * x)).

Lemma sign_loop_ok x fuel tape : (length tape < fuel)%nat -> Forall (is_bytes 32) tape ->
  match sign_loop fuel h (pub x) (sbytes x) tape with
  | Some (sig, rest) => exists k, k ∈ scalars tape /\ usable x k = true /\ sig = signature_of x k
  | None => Forall (fun k => usable x k = false) (scalars tape)
  end.
Proof.
  revert tape. induction fuel as [| fuel IH]; intros tape Hf Ht; [lia |]. cbn [sign_loop].
  destruct (scalars tape) as [| k ks] eqn:E.
  { rewrite random_scalar_ok, next_scalar_none by done. constructor. }
  destruct (next_scalar_some tape k ks Ht E) as (rest & -> & Er & Hr & Lr). bind.
  run (base_sbytes k) as t [_ Et]. rewrite Et. bind. rewrite (challenge_ok (smul x base_point) (smul k base_point) : hash_to_scalar (s_comm h (pub x) (pub k)) = _).
  bind. rewrite isnonzero_sbytes.
  assert (Rec : usable x k = false -> match sign_loop fuel h (pub x) (sbytes x) rest with
    | Some (sig, _) => exists k', k' ∈ k :: ks /\ usable x k' = true /\ sig = signature_of x k'
    | None => Forall (fun k => usable x k = false) (k :: ks) end).
  { intros U. specialize (IH rest ltac:(lia) Hr). rewrite Er in IH.
    destruct (sign_loop _ _ _ _ rest) as [[sig rest'] |]; [| by constructor].
    destruct IH as (k' & K & U' & S). exists k'. split; [by right | done]. }
  unfold usable in Rec at 1. cbv zeta in Rec. set (c := challenge _ _) in *.
  destruct (c mod ell =? 0) eqn:C; [by apply Rec |]. rewrite mulsub_sbytes. bind.
  rewrite isnonzero_sbytes. destruct ((k - c * x) mod ell =? 0) eqn:R; [by apply Rec |].
  exists k. split; [by left |]. split; [| done]. unfold usable. fold c. by rewrite C, R.
Qed.

(** The verdict of [check_signature] on a key that is a point. *)
Definition verdict (P : point) (c r : Z) : bool :=
  let C := smul c P ⊕ smul r base_point in
  negb (c =? 0) && negb (bool_decide (enc C = infinity)) && (challenge P C mod ell =? c).

Lemma check_signature_ok P sig : is_bytes 32 (sig_c sig) -> is_bytes 32 (sig_r sig) ->
  check_signature NDEBUG h (enc P) sig = Some (
    (le_combine (sig_c sig) <? ell) && (le_combine (sig_r sig) <? ell) &&
    verdict P (le_combine (sig_c sig)) (le_combine (sig_r sig))).
Proof.
  destruct sig as [c r]. cbn [sig_c sig_r]. intros Hc Hr. unfold check_signature. cbn [sig_c sig_r].
  rewrite check_key_enc. bind. rewrite assert_true. bind.
  destruct (from_enc P) as (p & -> & Hp). bind.
  rewrite !sc_check_ok, sc_isnonzero_ok by done.
  destruct (Z.ltb_spec (le_combine c) ell) as [Lc | Lc]; [| done].
  destruct (Z.ltb_spec (le_combine r) ell) as [Lr | Lr]; [| done]. cbn [Z.eqb negb orb andb].
  unfold verdict. destruct (Z.eqb_spec (le_combine c) 0) as [Zc | Zc]; [done |]. cbn [Z.eqb negb orb andb].
  run (ge_double_base_ok c r (reduced_ok c Hc Lc) (reduced_ok r Hr Lr) P _ Hp) as q Hq.
  rewrite (to_enc2 _ _ Hq). bind.
  destruct (bool_decide _); [done |]. cbn [negb andb]. rewrite challenge_ok. bind.
  rewrite compare_sbytes by done. bind. done.
Qed.

(** [c (x P) + (k - c x) P = k P], the scalars reduced. *)
Lemma schnorr_equation c x k P : prime_order P ->
  smul (c mod ell) (smul x P) ⊕ smul ((k - c * x) mod ell) P ≃ smul k P.
Proof.
  intros H. rewrite (smul_mod c) by by apply smul_prime. rewrite smul_mod by done.
  rewrite <- smul_mul, <- smul_add. by replace (c * x + (k - c * x)) with k by ring.
Qed.

(** A usable nonce gives an accepted signature. *)
Lemma signature_of_accepted x k : 0 < k < ell -> usable x k = true ->
  check_signature NDEBUG h (pub x) (signature_of x k) = Some true.
Proof.
  intros Hk U. unfold usable in U. cbv zeta in U. apply andb_true_iff in U as [U1 _].
  unfold pub, signature_of. set (c := challenge _ _) in *.
  rewrite check_signature_ok by apply sbytes_bytes. cbn [sig_c sig_r]. rewrite !sbytes_val.
  rewrite !(proj2 (Z.ltb_lt _ _)) by apply ell_range. cbn [andb]. unfold verdict. rewrite U1. cbn [andb].
  pose proof (schnorr_equation c x k base_point base_prime) as E.
  rewrite (bool_decide_eq_false_2 _); [cbn [negb andb] |].
  - rewrite (challenge_proper _ _ (reflexivity _) _ _ E). fold c. by rewrite Z.eqb_refl.
  - change infinity with (enc gzero). rewrite enc_eq, E. intros Z. apply (smul_base_eq k 0) in Z.
    rewrite Z.mod_small in Z by lia. by rewrite Z.mod_0_l in Z; lia.
Qed.
End Schnorr.

(** ** Proofs of a transaction key *)

(** The generator of the proof: the spend key of a subaddress, or [G]. *)
Definition generator (B : option point) : point := default base_point B.

Definition opt_rep (h : option ge_p3) (B : option point) : Prop := option_Forall2 p3_rep h B.

Lemma mult_or_base_ok k h B : scalar_ok k -> opt_rep h B ->
  mult_or_base k h = Some (enc (smul (le_combine k) (generator B))).
Proof.
  intros Hk [h' P HP |]; unfold mult_or_base.
  - run (mul_enc _ _ _ Hk HP) as q [_ E]. by rewrite E.
  - run (base_enc _ Hk) as q [_ E]. by rewrite E.
Qed.

Lemma decode_keys_ok R A B D : exists R3 A3 B3 D3,
  decode_keys (enc R) (enc A) (option_map enc B) (enc D) = Some (inr (R3, A3, B3, D3)) /\
  p3_rep R3 R /\ p3_rep A3 A /\ opt_rep B3 B /\ p3_rep D3 D.
Proof.
  unfold decode_keys. destruct (from_enc R) as (R3 & -> & HR). bind. destruct (from_enc A) as (A3 & -> & HA). bind.
  assert (HB : exists B3, match option_map enc B with
    | None => Some (Some None)
    | Some B => r ← ge_frombytes_vartime B; Some (match r with None => None | Some B_p3 => Some (Some B_p3) end)
    end = Some (Some B3) /\ opt_rep B3 B).
  { destruct B as [P |]; cbn [option_map].
    - destruct (from_enc P) as (h & -> & Hh). bind. exists (Some h). split; [done | by constructor].
    - exists None. split; [done | constructor]. }
  destruct HB as (B3 & -> & HB). bind. destruct (from_enc D) as (D3 & -> & HD). bind.
  by exists R3, A3, B3, D3.
Qed.

(** The error for the first key that is not a point. *)
Definition first_invalid (valid : bytes -> bool) (R A : bytes) (B : option bytes) (D : bytes) : option tx_proof_error :=
  if negb (valid R) then Some tx_pubkey_is_invalid
  else if negb (valid A) then Some recipient_view_pubkey_is_invalid
  else if negb (from_option valid true B) then Some recipient_spend_pubkey_is_invalid
  else if negb (valid D) then Some key_derivation_is_invalid
  else None.

Definition valid_key (s : bytes) : bool := bool_decide (check_key s = Some true).

Lemma valid_key_cases s : is_bytes 32 s ->
  (exists h, ge_frombytes_vartime s = Some (Some h) /\ valid_key s = true) \/
  (ge_frombytes_vartime s = Some None /\ valid_key s = false).
Proof.
  intros Hs. unfold valid_key, check_key. destruct (from_cases s Hs) as [[P ->] | [-> _]].
  - left. destruct (from_enc P) as (h & -> & _). by exists h.
  - by right.
Qed.

Lemma decode_keys_exact R A B D : is_bytes 32 R -> is_bytes 32 A -> from_option (is_bytes 32) True B -> is_bytes 32 D ->
  exists ks, decode_keys R A B D =
    Some (match first_invalid valid_key R A B D with Some e => inl e | None => inr ks end).
Proof.
  intros HR HA HB HD. unfold decode_keys, first_invalid.
  destruct (valid_key_cases R HR) as [(R3 & -> & ->) | [-> ->]]; bind; [| by exists (ge_p3_0, ge_p3_0, None, ge_p3_0)].
  destruct (valid_key_cases A HA) as [(A3 & -> & ->) | [-> ->]]; bind; [| by exists (ge_p3_0, ge_p3_0, None, ge_p3_0)].
  destruct B as [B |]; cbn [from_option negb].
  - destruct (valid_key_cases B HB) as [(B3 & -> & ->) | [-> ->]]; do 2 bind; [| by exists (ge_p3_0, ge_p3_0, None, ge_p3_0)].
    destruct (valid_key_cases D HD) as [(D3 & -> & ->) | [-> ->]]; bind;
      [by exists (R3, A3, Some B3, D3) | by exists (ge_p3_0, ge_p3_0, None, ge_p3_0)].
  - bind. destruct (valid_key_cases D HD) as [(D3 & -> & ->) | [-> ->]]; bind;
      [by exists (R3, A3, None, D3) | by exists (ge_p3_0, ge_p3_0, None, ge_p3_0)].
Qed.

Lemma reload_ok p P : p2_rep p P -> exists h, reload p = Some (Some h) /\ p3_rep h P.
Proof. intros H. unfold reload. rewrite (to_enc2 _ _ H). bind. apply from_enc. Qed.

Lemma sum_rep p q P Q : p3_rep p P -> p3_rep q Q ->
  exists r, (c ← ge_p3_to_cached q; t ← ge_add p c; u ← ge_p1p1_to_p2 t; Some (Some u)) = Some (Some r) /\ p2_rep r (P ⊕ Q).
Proof.
  intros HP HQ. run (ge_p3_to_cached_ok _ _ HQ) as c Hc. run (add_rep _ _ _ _ HP Hc) as t Ht.
  run (ge_p1p1_to_p2_ok _ _ Ht) as u Hu. by exists u.
Qed.

Lemma proof_X_ok r cR CR h B : scalar_ok r -> p3_rep cR CR -> opt_rep h B ->
  exists X, proof_X r cR h = Some (Some X) /\ p2_rep X (CR ⊕ smul (le_combine r) (generator B)).
Proof.
  intros Hr HR [h' P HP |]; unfold proof_X.
  - run (mul_enc _ _ _ Hr HP) as q [Hq _]. destruct (reload_ok _ _ Hq) as (h2 & -> & Hh). bind. by apply sum_rep.
  - run (base_enc _ Hr) as t [Ht _]. by apply sum_rep.
Qed.

Lemma proof_Y_ok c r hD D hA A : scalar_ok c -> scalar_ok r -> p3_rep hD D -> p3_rep hA A ->
  exists Y, proof_Y c r hD hA = Some (Some Y) /\ p2_rep Y (smul (le_combine c) D ⊕ smul (le_combine r) A).
Proof.
  intros Hc Hr HD HA. unfold proof_Y. run (mul_enc _ _ _ Hc HD) as p [Hp Ep]. run (mul_enc _ _ _ Hr HA) as q [Hq Eq].
  rewrite Ep. bind. rewrite Eq. bind. destruct (from_enc (smul (le_combine c) D)) as (h1 & -> & H1). bind.
  destruct (from_enc (smul (le_combine r) A)) as (h2 & -> & H2). bind. by apply sum_rep.
Qed.

(** The challenges of the two versions. *)
Definition proof_challenge (version : Z) (msg : bytes) (R A : point) (B : option point) (D X Y : point) : Z :=
  hs (if version =? 1 then s_comm_2_v1 msg (enc D) (enc X) (enc Y)
      else s_comm_2 msg (enc D) (enc X) (enc Y) (keccak256 HASH_KEY_TXPROOF_V2) (enc R) (enc A)
             (default zero_point (option_map enc B))).

#[local] Instance proof_challenge_proper v msg R A B D : Proper (geq ==> geq ==> eq) (proof_challenge v msg R A B D).
Proof. intros X X' E%enc_eq Y Y' F%enc_eq. unfold proof_challenge. by rewrite E, F. Qed.

Lemma txproof_sep : cn_fast_hash HASH_KEY_TXPROOF_V2 = Some (keccak256 HASH_KEY_TXPROOF_V2) /\
  is_bytes 32 (keccak256 HASH_KEY_TXPROOF_V2).
Proof. apply cn_fast_hash_ok. repeat constructor; unfold is_byte; lia. Qed.

Lemma spend_key_bytes B : is_bytes 32 (default zero_point (option_map enc B)).
Proof. destruct B as [P |]; [apply enc_bytes |]. split; [done |]. by apply Forall_replicate. Qed.

Section TxProof.
Context (msg : bytes) (msg_bytes : is_bytes 32 msg).

Lemma s_comm_2_v1_bytes D X Y : Forall is_byte (s_comm_2_v1 msg (enc D) (enc X) (enc Y)).
Proof. unfold s_comm_2_v1. apply Forall_app. split; [apply msg_bytes |]. do 2 apply enc_app. apply enc_bytes. Qed.

Lemma s_comm_2_bytes D X Y R A B : Forall is_byte (s_comm_2 msg (enc D) (enc X) (enc Y)
  (keccak256 HASH_KEY_TXPROOF_V2) (enc R) (enc A) (default zero_point (option_map enc B))).
Proof.
  unfold s_comm_2. apply Forall_app. split; [apply msg_bytes |]. do 3 apply enc_app.
  apply Forall_app. split; [apply txproof_sep |]. do 2 apply enc_app. apply spend_key_bytes.
Qed.

Lemma s_comm_2_prefix D X Y S R A B : length S = 32%nat -> length B = 32%nat ->
  let buf := s_comm_2 msg (enc D) (enc X) (enc Y) S (enc R) (enc A) B in
  take (length buf - 3 * 32 - 32) buf = s_comm_2_v1 msg (enc D) (enc X) (enc Y).
Proof.
  intros HS HB. cbv zeta. unfold s_comm_2, s_comm_2_v1.
  replace (msg ++ enc D ++ enc X ++ enc Y ++ S ++ enc R ++ enc A ++ B)
    with ((msg ++ enc D ++ enc X ++ enc Y) ++ S ++ enc R ++ enc A ++ B) by by rewrite <- !app_assoc.
  apply take_app_length'. rewrite !length_app, HS, HB, !enc_length. lia.
Qed.

Lemma check_tx_proof_ok R A B D c r version : is_bytes 32 c -> is_bytes 32 r -> le_combine c < ell -> le_combine r < ell ->
  check_tx_proof msg (enc R) (enc A) (option_map enc B) (enc D) (mk_sig c r) version = Some (
    ((version =? 1) || (version =? 2)) &&
    (proof_challenge version msg R A B D (smul (le_combine c) R ⊕ smul (le_combine r) (generator B))
       (smul (le_combine c) D ⊕ smul (le_combine r) A) mod ell =? le_combine c)).
Proof.
  intros Hc Hr Lc Lr. pose proof (reduced_ok c Hc Lc) as Oc. pose proof (reduced_ok r Hr Lr) as Or.
  unfold check_tx_proof. destruct (decode_keys_ok R A B D) as (R3 & A3 & B3 & D3 & -> & HR & HA & HB & HD). bind.
  cbn [sig_c sig_r]. rewrite !sc_check_ok by done. rewrite !(proj2 (Z.ltb_lt _ _)) by done. cbn [Z.eqb negb orb].
  run (mul_enc _ _ _ Oc HR) as q [Hq _]. destruct (reload_ok _ _ Hq) as (cR & -> & HcR). bind.
  destruct (proof_X_ok r cR _ B3 B Or HcR HB) as (X & -> & HX). bind.
  destruct (proof_Y_ok c r _ _ _ _ Oc Or HD HA) as (Y & -> & HY). bind.
  rewrite (proj1 txproof_sep). bind. rewrite (to_enc2 _ _ HX). bind. rewrite (to_enc2 _ _ HY). bind.
  rewrite s_comm_2_prefix by apply txproof_sep || apply spend_key_bytes. unfold proof_challenge.
  destruct (Z.eqb_spec version 1) as [-> | N1]; cbn [orb andb].
  - rewrite hash_to_scalar_ok by apply s_comm_2_v1_bytes. bind. rewrite compare_sbytes by done. by bind.
  - destruct (version =? 2); cbn [andb]; [| done].
    rewrite hash_to_scalar_ok by apply s_comm_2_bytes. bind. rewrite compare_sbytes by done. by bind.
Qed.

(** The prover: a secret [r] with [R = r G] or [R = r B], and [D = r A]. *)
Section Prover.
Context (r : Z) (A : point) (B : option point) (HA : prime_order A) (HB : prime_order (generator B)).
Let R := smul r (generator B).
Let D := smul r A.

Lemma debug_tx_proof_ok hA hB : p3_rep hA A -> opt_rep hB B ->
  debug_tx_proof NDEBUG (enc R) (enc D) (sbytes r) hA hB = Some tt.
Proof.
  intros RA RB. unfold debug_tx_proof, debug. destruct NDEBUG; [done |].
  rewrite sc_check_sbytes. cbn [Z.eqb assert_debug]. bind.
  rewrite (mult_or_base_ok _ _ _ (sbytes_ok r) RB), sbytes_val. bind.
  rewrite bool_decide_eq_true_2 by (symmetry; by apply enc_eq, smul_mod). cbn [assert_debug]. bind.
  run (mul_enc _ _ _ (sbytes_ok r) RA) as q [_ E]. rewrite E, sbytes_val. bind.
  by rewrite bool_decide_eq_true_2 by (symmetry; by apply enc_eq, smul_mod).
Qed.

Definition proof_of (version k : Z) : signature :=
  let c := proof_challenge version msg R A B D (smul k (generator B)) (smul k A) in
  mk_sig (sbytes c) (sbytes (k - c * r)).

Lemma proof_of_accepted version k : version = 1 \/ version = 2 ->
  check_tx_proof msg (enc R) (enc A) (option_map enc B) (enc D) (proof_of version k) version = Some true.
Proof.
  intros Hv. unfold proof_of. set (c := proof_challenge _ _ _ _ _ _ _ _).
  rewrite check_tx_proof_ok by (apply sbytes_bytes || (rewrite sbytes_val; apply ell_range)). rewrite !sbytes_val.
  pose proof (schnorr_equation c r k _ HB) as EX. pose proof (schnorr_equation c r k _ HA) as EY.
  rewrite (proof_challenge_proper _ _ _ _ _ _ _ _ EX _ _ EY). fold c. rewrite Z.eqb_refl.
  by destruct Hv as [-> | ->].
Qed.

Context (tape : list bytes) (k : Z) (ks : list Z) (tape_bytes : Forall (is_bytes 32) tape) (tape_k : scalars tape = k :: ks).

Lemma nonce_range : k mod ell = k.
Proof. pose proof (scalars_range tape) as S. rewrite tape_k in S. apply Forall_cons_iff in S as [S _]. apply Z.mod_small. lia. Qed.

Lemma generate_tx_proof_v1_ok : exists rest,
  generate_tx_proof_v1 NDEBUG msg (enc R) (enc A) (option_map enc B) (enc D) (sbytes r) tape = Some (inr (proof_of 1 k, rest)).
Proof.
  unfold generate_tx_proof_v1. destruct (decode_keys_ok R A B D) as (R3 & A3 & B3 & D3 & -> & _ & RA & RB & _). bind.
  rewrite (debug_tx_proof_ok _ _ RA RB). bind. destruct (next_scalar_some _ _ _ tape_bytes tape_k) as (rest & -> & _). bind.
  rewrite (mult_or_base_ok _ _ _ (sbytes_ok k) RB), sbytes_val, nonce_range. bind.
  run (mul_enc _ _ _ (sbytes_ok k) RA) as q [_ E]. rewrite E, sbytes_val, nonce_range. bind.
  rewrite hash_to_scalar_ok by apply s_comm_2_v1_bytes. bind. rewrite mulsub_sbytes. bind. by exists rest.
Qed.

Lemma generate_tx_proof_ok : exists rest,
  generate_tx_proof NDEBUG msg (enc R) (enc A) (option_map enc B) (enc D) (sbytes r) tape = Some (inr (proof_of 2 k, rest)).
Proof.
  unfold generate_tx_proof. destruct (decode_keys_ok R A B D) as (R3 & A3 & B3 & D3 & -> & _ & RA & RB & _). bind.
  rewrite (debug_tx_proof_ok _ _ RA RB). bind. destruct (next_scalar_some _ _ _ tape_bytes tape_k) as (rest & -> & _). bind.
  rewrite (proj1 txproof_sep). bind. rewrite (mult_or_base_ok _ _ _ (sbytes_ok k) RB), sbytes_val, nonce_range. bind.
  run (mul_enc _ _ _ (sbytes_ok k) RA) as q [_ E]. rewrite E, sbytes_val, nonce_range. bind.
  rewrite hash_to_scalar_ok by apply s_comm_2_bytes. bind. rewrite mulsub_sbytes. bind. by exists rest.
Qed.
End Prover.
End TxProof.

(** ** Ring signatures *)

Lemma generate_key_image_ok P x : exists I, generate_key_image NDEBUG (enc P) (sbytes x) = Some (enc I) /\
  exists H, hashes_to (enc P) H /\ I ≃ smul x H.
Proof.
  unfold generate_key_image. rewrite assert_sbytes. bind. run (hash_to_ec_ok (enc P) (proj2 (enc_bytes P))) as h (H & Hh & E).
  run (mul_enc _ _ _ (sbytes_ok x) Hh) as q [_ Eq]. rewrite Eq, sbytes_val. eexists. split; [done |]. exists H.
  split; [done |]. by apply smul_mod, (hashes_to_prime (enc P)).
Qed.

Section Ring.
Context (I : point) (pre : list ge_cached) (Hpre : table_ok pre I).

(** A member of the ring with the point its key hashes to. *)
Definition member (m : point * point) : Prop := hashes_to (enc m.1) m.2.

Definition pair_bytes (m : point * point) (cr : Z * Z) : bytes :=
  enc (smul (cr.1 mod ell) m.1 ⊕ smul (cr.2 mod ell) base_point) ++
  enc (smul (cr.2 mod ell) m.2 ⊕ smul (cr.1 mod ell) I).

Definition to_sig (cr : Z * Z) : signature := mk_sig (sbytes cr.1) (sbytes cr.2).

Definition total (crs : list (Z * Z)) : Z := foldr (fun cr acc => cr.1 + acc) 0 crs.

Definition ring_bytes (ms : list (point * point)) (crs : list (Z * Z)) : bytes := concat (zip_with pair_bytes ms crs).

Lemma ring_pair_ok m cr h : member m -> p3_rep h m.1 ->
  ring_pair (sbytes cr.1) (sbytes cr.2) (enc m.1) h pre = Some (pair_bytes m cr).
Proof.
  intros Hm Hh. unfold ring_pair.
  run (ge_double_base_ok _ _ (sbytes_ok cr.1) (sbytes_ok cr.2) _ _ Hh) as t Ht. rewrite (to_enc2 _ _ Ht). bind.
  run (hash_to_ec_ok (enc m.1) (proj2 (enc_bytes m.1))) as u (H & Hu & HH).
  apply (p3_rep_proper u _ _ (hashes_to_unique _ _ _ HH Hm)) in Hu.
  run (ge_double_precomp_ok _ _ (sbytes_ok cr.2) (sbytes_ok cr.1) _ _ _ _ Hu Hpre) as v Hv.
  rewrite (to_enc2 _ _ Hv). bind. by rewrite !sbytes_val.
Qed.

Lemma ring_check_loop_ok ms crs ab sum : Forall member ms -> length ms = length crs ->
  ring_check_loop pre (map (fun m => enc m.1) ms) (map to_sig crs) ab (sbytes sum) =
  Some (Some (ab ++ ring_bytes ms crs, sbytes (sum + total crs))).
Proof.
  intros H. revert crs ab sum. induction H as [| m ms Hm _ IH]; intros [| cr crs] ab sum L; try discriminate L.
  - cbn. by rewrite app_nil_r, Z.add_0_r.
  - cbn [map ring_check_loop head tail]. change (head (to_sig cr :: map to_sig crs)) with (Some (to_sig cr)). bind.
    cbn [to_sig sig_c sig_r]. rewrite !sc_check_sbytes. cbn [Z.eqb negb orb].
    destruct (from_enc m.1) as (h & -> & Hh). bind. rewrite (ring_pair_ok m cr h Hm Hh). bind.
    rewrite add_sbytes. bind. cbn [tail]. rewrite IH by (by injection L).
    unfold ring_bytes. cbn [zip_with concat]. rewrite <- app_assoc. do 4 f_equal. unfold total. cbn [foldr]. lia.
Qed.

Lemma insert_at {A} (l1 l2 : list A) x y i : i = length l1 -> <[i := x]> (l1 ++ y :: l2) = l1 ++ x :: l2.
Proof. intros ->. rewrite insert_app_r_alt by lia. by rewrite Nat.sub_diag. Qed.

Lemma two_scalars tape n : Forall (is_bytes 32) tape -> (2 * S n <= length (scalars tape))%nat ->
  exists c r t1 t2, random_scalar tape = Some (sbytes c, t1) /\ random_scalar t1 = Some (sbytes r, t2) /\
    scalars t2 = drop 2 (scalars tape) /\ Forall (is_bytes 32) t2.
Proof.
  intros Ht Hl. destruct (scalars tape) as [| c [| r ks]] eqn:E; simpl in Hl; try lia.
  destruct (next_scalar_some tape c (r :: ks) Ht E) as (t1 & E1 & S1 & B1 & _).
  destruct (next_scalar_some t1 r ks B1 S1) as (t2 & E2 & S2 & B2 & _).
  by exists c, r, t1, t2.
Qed.

(** The turns of the signing loop for the other members of the ring. *)
Lemma sign_others sec ms s1 s2 s3 ab sum k tape :
  (sec < length s1 \/ length s1 + length ms <= sec)%nat -> length s2 = length ms -> Forall member ms ->
  Forall (is_bytes 32) tape -> (2 * length ms <= length (scalars tape))%nat ->
  exists crs tape', length crs = length ms /\
    ring_sign_loop pre sec (length s1) (map (fun m => enc m.1) ms) (mk_ring (s1 ++ s2 ++ s3) ab (sbytes sum) k tape) =
      Some (mk_ring (s1 ++ map to_sig crs ++ s3) (ab ++ ring_bytes ms crs) (sbytes (sum + total crs)) k tape') /\
    scalars tape' = drop (2 * length ms) (scalars tape) /\ Forall (is_bytes 32) tape'.
Proof.
  intros Hs L2 Hm. revert s1 s2 ab sum tape Hs L2.
  induction Hm as [| m ms Hm Hms IH]; intros s1 s2 ab sum tape Hs L2 Ht Hl.
  { destruct s2; [| discriminate L2]. exists [], tape. cbn. by rewrite app_nil_r, Z.add_0_r, drop_0. }
  destruct s2 as [| y s2]; [discriminate L2 |].
  destruct (two_scalars tape (length ms) Ht Hl) as (c & r & t1 & t2 & E1 & E2 & S2 & B2).
  cbn [map ring_sign_loop]. unfold ring_sign_step at 1. cbn [rs_sig rs_ab rs_sum rs_k rs_tape].
  rewrite (proj2 (Nat.eqb_neq _ _)) by (simpl in Hs; lia). rewrite E1. bind. rewrite E2. bind.
  destruct (from_enc m.1) as (h & -> & Hh). do 2 bind.
  change ((y :: s2) ++ s3) with (y :: s2 ++ s3). rewrite list_lookup_middle by done. bind.
  rewrite (ring_pair_ok m (c, r) h Hm Hh : ring_pair (sbytes c) (sbytes r) _ _ _ = _). bind. rewrite add_sbytes. do 2 bind. rewrite insert_at by done.
  destruct (IH (s1 ++ [to_sig (c, r)]) s2 (ab ++ pair_bytes m (c, r)) (sum + c) t2) as (crs & tape' & Lc & E & S' & B').
  - rewrite length_app. simpl in *. lia.
  - by injection L2.
  - done.
  - rewrite S2, length_drop. simpl in Hl. lia.
  - exists ((c, r) :: crs), tape'. split; [simpl; lia |]. rewrite length_app, Nat.add_1_r, <- !app_assoc in E.
    change ([to_sig (c, r)] ++ s2 ++ s3) with (mk_sig (sbytes c) (sbytes r) :: s2 ++ s3) in E. rewrite E. split.
    + unfold ring_bytes, total. cbn [zip_with concat map foldr fst app]. do 3 f_equal. lia.
    + split; [| done]. rewrite S', S2, drop_drop. f_equal. simpl. lia.
Qed.

Lemma ring_sign_loop_app sec l1 l2 i s : ring_sign_loop pre sec i (l1 ++ l2) s =
  (s ← ring_sign_loop pre sec i l1 s; ring_sign_loop pre sec (i + length l1) l2 s).
Proof.
  revert i s. induction l1 as [| p l1 IH]; intros i s; [cbn; by rewrite Nat.add_0_r |]. cbn [app ring_sign_loop length].
  destruct (ring_sign_step pre sec i p s) as [s' |]; [| done]. do 2 bind. rewrite IH. by rewrite Nat.add_succ_r.
Qed.

Lemma ring_bytes_app ms1 ms2 crs1 crs2 : length ms1 = length crs1 ->
  ring_bytes (ms1 ++ ms2) (crs1 ++ crs2) = ring_bytes ms1 crs1 ++ ring_bytes ms2 crs2.
Proof. intros L. unfold ring_bytes. by rewrite zip_with_app, concat_app. Qed.

Lemma total_app crs1 crs2 : total (crs1 ++ crs2) = total crs1 + total crs2.
Proof. unfold total. induction crs1 as [| cr crs1 IH]; [done |]. cbn [app foldr]. rewrite IH. lia. Qed.

Lemma ring_bytes_bytes ms crs : Forall is_byte (ring_bytes ms crs).
Proof.
  unfold ring_bytes. revert crs. induction ms as [| m ms IH]; intros [| cr crs]; cbn [zip_with concat]; [constructor | constructor | constructor |].
  unfold pair_bytes. rewrite <- app_assoc. do 2 apply enc_app. apply IH.
Qed.

(** The turn of the loop for the signer. *)
Lemma sign_own m sig ab sum k0 tape k ks i : member m -> Forall (is_bytes 32) tape -> scalars tape = k :: ks ->
  exists t, ring_sign_step pre i i (enc m.1) (mk_ring sig ab sum k0 tape) =
    Some (mk_ring sig (ab ++ enc (smul k base_point) ++ enc (smul k m.2)) sum (sbytes k) t) /\
    scalars t = ks /\ Forall (is_bytes 32) t.
Proof.
  intros Hm Ht E. unfold ring_sign_step. rewrite Nat.eqb_refl. cbn [rs_sig rs_ab rs_sum rs_k rs_tape].
  pose proof (nonce_range _ _ _ E) as Kk.
  destruct (next_scalar_some _ _ _ Ht E) as (t & -> & St & Bt & _). bind. exists t. split; [| done].
  run (base_sbytes k) as u [_ Eu]. rewrite Eu. bind.
  run (hash_to_ec_ok (enc m.1) (proj2 (enc_bytes m.1))) as v (H & Hv & HH).
  apply (p3_rep_proper v _ _ (hashes_to_unique _ _ _ HH Hm)) in Hv.
  run (mul_enc _ _ _ (sbytes_ok k) Hv) as w [_ Ew]. rewrite Ew, sbytes_val, Kk. by bind.
Qed.

(** The signer's pair is the one the final scalars give. *)
Lemma own_pair m x k c : m.1 ≃ smul x base_point -> I ≃ smul x m.2 -> member m ->
  pair_bytes m (c, k - c * x) = enc (smul k base_point) ++ enc (smul k m.2).
Proof.
  intros HP HI Hm. unfold pair_bytes. cbn [fst snd]. f_equal; apply enc_eq.
  - rewrite HP. apply schnorr_equation, base_prime.
  - rewrite HI, gadd_comm. by apply schnorr_equation, (hashes_to_prime (enc m.1)).
Qed.

Lemma ring_bytes_own ms1 m ms2 crs1 crs2 x k c :
  length ms1 = length crs1 -> m.1 ≃ smul x base_point -> I ≃ smul x m.2 -> member m ->
  ring_bytes (ms1 ++ m :: ms2) (crs1 ++ (c, k - c * x) :: crs2) =
  ring_bytes ms1 crs1 ++ (enc (smul k base_point) ++ enc (smul k m.2)) ++ ring_bytes ms2 crs2.
Proof.
  intros L HP HI Hm. rewrite ring_bytes_app by done. f_equal. unfold ring_bytes. cbn [zip_with concat].
  by rewrite (own_pair m x k c HP HI Hm).
Qed.
End Ring.

Lemma ring_bytes_proper I J ms crs : I ≃ J -> ring_bytes I ms crs = ring_bytes J ms crs.
Proof.
  intros E. unfold ring_bytes. apply (f_equal (@concat Z)). revert crs.
  induction ms as [| m ms IH]; intros [| cr crs]; [reflexivity | reflexivity | reflexivity |].
  cbn [zip_with]. rewrite IH. apply (f_equal (fun p => p :: _)). unfold pair_bytes. apply (f_equal (app _)), enc_eq. by rewrite E.
Qed.

Lemma all_keys_ok ms : all_keys (map (fun m : point * point => enc m.1) ms) = Some tt.
Proof. induction ms as [| m ms IH]; [done |]. cbn [map all_keys]. rewrite check_key_enc. bind. cbn [assert_debug]. by bind. Qed.

Section RingSignature.
Context (msg : bytes) (msg_bytes : is_bytes 32 msg) (x : Z) (I : point) (ms1 ms2 : list (point * point)) (m : point * point).
Context (Hms : Forall member (ms1 ++ m :: ms2)) (HP : m.1 ≃ smul x base_point) (HI : I ≃ smul x m.2).
Let ms := ms1 ++ m :: ms2.
Let pubs := map (fun m : point * point => enc m.1) ms.

Lemma pubs_own : pubs !! length ms1 = Some (enc m.1).
Proof. unfold pubs, ms. rewrite map_app. apply list_lookup_middle. by rewrite length_map. Qed.

Lemma ring_debug_ok :
  debug NDEBUG (
    _ ← assert_debug (sc_check (sbytes x) =? 0);
    t ← ge_scalarmult_base (sbytes x);
    t2 ← ge_p3_tobytes t;
    pub ← pubs !! length ms1;
    _ ← assert_debug (bool_decide (pub = t2));
    t3 ← generate_key_image NDEBUG pub (sbytes x);
    _ ← assert_debug (bool_decide (enc I = t3));
    all_keys pubs) = Some tt.
Proof.
  unfold debug. destruct NDEBUG eqn:ND; [done |]. rewrite sc_check_sbytes. cbn [Z.eqb assert_debug]. bind.
  run (base_sbytes x) as t [_ E]. rewrite E. bind. rewrite pubs_own. bind.
  rewrite bool_decide_eq_true_2 by by apply enc_eq. cbn [assert_debug]. bind.
  destruct (generate_key_image_ok m.1 x) as (J & EJ & H & HH & HJ). rewrite ND in EJ. rewrite EJ. bind.
  rewrite bool_decide_eq_true_2; [cbn [assert_debug]; bind; apply all_keys_ok |].
  apply enc_eq. rewrite HI, HJ. apply smul_proper, (hashes_to_unique (enc m.1)); [| done].
  apply Forall_app in Hms as [_ Hm]. by apply Forall_cons_iff in Hm as [Hm _].
Qed.

Lemma members : Forall member ms1 /\ member m /\ Forall member ms2.
Proof. apply Forall_app in Hms as [H1 H2]. apply Forall_cons_iff in H2 as [H2 H3]. done. Qed.

Lemma split_at {A} (l : list A) n n2 : length l = (n + S n2)%nat ->
  exists l1 y l2, l = l1 ++ y :: l2 /\ length l1 = n /\ length l2 = n2.
Proof.
  intros L. destruct (drop n l) as [| y l2] eqn:E.
  - apply (f_equal length) in E. rewrite length_drop in E. simpl in E. lia.
  - exists (take n l), y, l2. split; [by rewrite <- E, take_drop |]. apply (f_equal length) in E.
    rewrite length_drop in E. simpl in E. rewrite length_take. lia.
Qed.

Lemma ring_signature_generated sig tape :
  length sig = length ms -> Forall (is_bytes 32) tape -> (2 * length ms1 + 1 + 2 * length ms2 <= length (scalars tape))%nat ->
  exists crs rest, generate_ring_signature NDEBUG msg (enc I) pubs (sbytes x) (length ms1) sig tape = Some (map to_sig crs, rest) /\
    length crs = length ms /\ total crs = hs (msg ++ ring_bytes I ms crs).
Proof.
  intros Ls Ht Hl. destruct members as (H1 & H2 & H3). unfold generate_ring_signature.
  assert (Lp : (length ms1 <? length pubs)%nat = true).
  { apply Nat.ltb_lt. unfold pubs, ms. rewrite length_map, length_app. simpl. lia. }
  rewrite Lp, assert_true. bind. rewrite ring_debug_ok. bind.
  destruct (from_enc I) as (hI & -> & HhI). do 2 bind. run (ge_dsm_precomp_ok _ _ HhI) as pre Hpre.
  unfold ms in Ls. rewrite length_app in Ls. simpl in Ls.
  destruct (split_at sig _ _ Ls) as (s1 & y & s2 & -> & L1 & L2).
  destruct (sign_others I pre Hpre (length ms1) ms1 [] s1 (y :: s2) [] 0 [] tape) as (crs1 & t1 & Lc1 & E1 & S1 & B1);
    [right; simpl; lia | done | done | done | lia |].
  unfold pubs, ms. rewrite map_app, ring_sign_loop_app. rewrite sc_0_sbytes.
  cbn [app length] in E1. rewrite E1. bind. rewrite length_map. cbn [map ring_sign_loop Nat.add].
  destruct (scalars t1) as [| k ks] eqn:Ek.
  { apply (f_equal length) in S1. rewrite length_drop in S1. simpl in S1. lia. }
  destruct (sign_own pre m (map to_sig crs1 ++ y :: s2) (ring_bytes I ms1 crs1) (sbytes (0 + total crs1)) [] t1 k ks
    (length ms1) H2 B1 Ek) as (t2 & -> & S2 & B2). bind.
  set (ab := ring_bytes I ms1 crs1 ++ enc (smul k base_point) ++ enc (smul k m.2)).
  destruct (sign_others I pre Hpre (length ms1) ms2 (map to_sig crs1 ++ [y]) s2 [] ab (0 + total crs1) (sbytes k) t2)
    as (crs2 & t3 & Lc2 & E2 & S3 & B3); [left; rewrite length_app, length_map; simpl; lia | done | done | done | |].
  { rewrite S2. apply (f_equal length) in S1. rewrite length_drop in S1. simpl in S1. lia. }
  rewrite length_app, length_map, Lc1, Nat.add_1_r, <- !app_assoc, !app_nil_r in E2. cbn [app] in E2. rewrite E2. bind.
  cbn [rs_sig rs_ab rs_sum rs_k rs_tape].
  set (c := hs (msg ++ ab ++ ring_bytes I ms2 crs2) - (0 + total crs1 + total crs2)).
  rewrite hash_to_scalar_ok.
  2: { apply Forall_app. split; [apply msg_bytes |]. apply Forall_app. split; [| apply ring_bytes_bytes].
    unfold ab. apply Forall_app. split; [apply ring_bytes_bytes |]. apply enc_app, enc_bytes. }
  bind. rewrite sub_sbytes. bind. fold c. rewrite mulsub_sbytes. bind.
  rewrite list_lookup_middle by (rewrite length_map; lia). bind. rewrite insert_at by (rewrite length_map; lia).
  exists (crs1 ++ (c, k - c * x) :: crs2), t3. split; [by rewrite map_app |].
  split; [unfold ms; rewrite !length_app; simpl; lia |].
  unfold ms. rewrite (ring_bytes_own I ms1 m ms2 crs1 crs2 x k c) by done. rewrite total_app.
  replace (ring_bytes I ms1 crs1 ++ (enc (smul k base_point) ++ enc (smul k m.2)) ++ ring_bytes I ms2 crs2)
    with (ab ++ ring_bytes I ms2 crs2) by (unfold ab; by rewrite <- !app_assoc).
  unfold total at 2. cbn [foldr fst]. fold (total crs2). unfold c. lia.
Qed.

Lemma check_ring_ok crs : length crs = length ms ->
  check_ring_signature NDEBUG msg (enc I) pubs (map to_sig crs) =
  Some ((hs (msg ++ ring_bytes I ms crs) - total crs) mod ell =? 0).
Proof.
  intros Lc. unfold check_ring_signature.
  assert (D : debug NDEBUG (all_keys pubs) = Some tt) by (unfold debug; destruct NDEBUG; [done | apply all_keys_ok]).
  rewrite D. bind. destruct (from_enc I) as (hI & -> & HhI). bind. run (ge_dsm_precomp_ok _ _ HhI) as pre Hpre.
  rewrite sc_0_sbytes. unfold pubs. rewrite (ring_check_loop_ok I pre Hpre ms crs [] 0 Hms (eq_sym Lc)). bind.
  rewrite hash_to_scalar_ok by (apply Forall_app; split; [apply msg_bytes | apply ring_bytes_bytes]). bind.
  rewrite sub_sbytes. bind. by rewrite isnonzero_sbytes, Z.add_0_l.
Qed.
End RingSignature.
End Debug.
End CryptoCorrect.
