(* ===== verification/CryptoTheorems.v ===== *)
(** What src/crypto/crypto.cpp promises: unbiased scalars, key pairs, one-time
    output keys that the recipient can spend and nobody else computes, signatures,
    transaction proofs and ring signatures that verify, and exactly which
    signatures are accepted. *)
From S2P Require Import Prelude Pack Scalar ScalarCorrect Group Fe Curve Ge GeCorrect GeEncode GeMult GeMultCorrect.
From S2P Require Import GeTables GeTheorems CurveOrder KeccakCorrect Varint Encoding Crypto CryptoCorrect.

Local Open Scope Z_scope.

Module CryptoTheorems.
Import Pack Scalar ScalarCorrect Group Fe Curve Ge GeCorrect GeEncode GeMult GeMultCorrect.
Import GeTables GeTheorems Finite CurveOrder KeccakCorrect Varint Encoding Crypto CryptoCorrect.
Local Open Scope group_scope.

(** ** Random scalars and keys *)

(** [random32_unbiased] returns the residue of the first block below [15 ell]
    that is not a multiple of [ell], and loops for ever only on a source that
    yields none; every nonzero residue is reached from exactly fifteen blocks. *)
Theorem random_scalar_uniform tape : Forall (is_bytes 32) tape ->
  match random_scalar tape with
  | Some (s, rest) => exists pre b, tape = pre ++ b :: rest /\ Forall (fun b => accept b = false) pre /\
      accept b = true /\ s = sbytes (le_combine b)
  | None => Forall (fun b => accept b = false) tape
  end /\
  forall b x, is_bytes 32 b -> 0 < x < ell ->
    (accept b = true /\ le_combine b mod ell = x <-> exists j, 0 <= j < 15 /\ le_combine b = x + j * ell).
Proof.
  intros Ht. split.
  - rewrite random_scalar_ok by done. clear Ht. induction tape as [| b tape IH]; [constructor |]. cbn [next_scalar].
    destruct (accept b) eqn:A; [by exists [], b |].
    destruct (next_scalar tape) as [[s rest] |]; [| by constructor].
    destruct IH as (pre & b' & -> & Hp & Hb & ->). exists (b :: pre), b'. split; [done |]. split; [by constructor | done].
  - intros b x [_ Hb] Hx. pose proof (proj1 (le_combine_bounds b Hb)) as H0. unfold accept. set (n := le_combine b) in *.
    clearbody n. assert (0 < ell) by reflexivity. rewrite andb_true_iff, negb_true_iff, Z.ltb_lt, Z.eqb_neq. split.
    + intros [[Hn _] E]. exists (n / ell). pose proof (Z.div_mod n ell ltac:(lia)).
      split; [split; [by apply Z.div_pos | by apply Z.div_lt_upper_bound; lia] | lia].
    + intros (j & Hj & ->). rewrite Z_mod_plus_full, Z.mod_small by lia. split; [split; [nia | lia] | done].
Qed.

(** A tape for the witnesses: the blocks of small numbers. *)
Definition small_tape (l : list Z) : list bytes := map (le_split 32) l.

Lemma small_tape_bytes l : Forall (is_bytes 32) (small_tape l).
Proof. induction l as [| n l IH]; constructor; [apply le_split_bytes | done]. Qed.

Lemma zero_point_bytes : is_bytes 32 zero_point.
Proof. split; [reflexivity | by apply Forall_replicate]. Qed.

Lemma random_scalar_witness : Forall (fun b => accept b = false) (small_tape [0; 15 * ell; 2 ^ 256 - 1]) /\
  (accept (le_split 32 (3 + 14 * ell)) = true /\ le_combine (le_split 32 (3 + 14 * ell)) mod ell = 3 <->
   exists j, 0 <= j < 15 /\ le_combine (le_split 32 (3 + 14 * ell)) = 3 + j * ell).
Proof.
  destruct (random_scalar_uniform (small_tape [0; 15 * ell; 2 ^ 256 - 1]) (small_tape_bytes _)) as [_ H].
  split; [repeat constructor |]. apply H; [apply le_split_bytes | done].
Defined.

(** [generate_keys] returns a reduced secret key with its public key, as
    [secret_key_to_public_key] computes it and [check_key] accepts; without
    recovery the secret is the random scalar itself, with recovery it is the
    given key reduced. *)
Theorem generate_keys_correct tape recovery_key recover :
  Forall (is_bytes 32) tape -> is_bytes 32 recovery_key -> (recover = true \/ scalars tape <> []) ->
  yields (generate_keys tape recovery_key recover) (fun '(pub, sec, rng, _) =>
    secret_key_to_public_key sec = Some (Some pub) /\ check_key pub = Some true /\ le_combine sec < ell /\
    if recover then rng = recovery_key /\ le_combine sec = le_combine recovery_key mod ell
    else sec = rng /\ 0 < le_combine sec).
Proof.
  intros Ht Hr Hs. unfold generate_keys.
  assert (R : exists rng rest, (if recover then Some (recovery_key, tape) else random_scalar tape) = Some (rng, rest) /\
    is_bytes 32 rng /\ if recover then rng = recovery_key else sbytes (le_combine rng) = rng /\ 0 < le_combine rng).
  { destruct recover; [by exists recovery_key, tape |]. destruct Hs as [| Hs]; [done |].
    pose proof (scalars_range tape) as B. destruct (scalars tape) as [| k ks] eqn:E; [done |].
    apply Forall_cons_iff in B as [B _]. destruct (next_scalar_some tape k ks Ht E) as (rest & -> & _).
    exists (sbytes k), rest. split; [done |]. split; [apply sbytes_bytes |]. rewrite sbytes_val.
    split; [apply sbytes_eq; by rewrite Z.mod_mod | rewrite Z.mod_small; lia]. }
  destruct R as (rng & rest & -> & Hg & R). bind. rewrite reduce32_sbytes by done. bind.
  run (base_sbytes (le_combine rng)) as t [_ E]. rewrite E. bind. apply yields_ret.
  rewrite secret_to_public_ok by apply sbytes_bytes. rewrite sbytes_val, (proj2 (Z.ltb_lt _ _)) by apply ell_range.
  rewrite pub_mod. split; [done |]. split; [apply check_key_enc |]. split; [apply ell_range |].
  destruct recover; [by rewrite R |]. destruct R as [R1 R2]. split; [done |].
  rewrite <- R1 in R2. by rewrite sbytes_val in R2.
Qed.

Lemma generate_keys_witness : yields (generate_keys (small_tape [0; ell + 5]) (le_split 32 7) false) (fun '(pub, sec, rng, _) =>
    secret_key_to_public_key sec = Some (Some pub) /\ check_key pub = Some true /\ le_combine sec < ell /\
    sec = rng /\ 0 < le_combine sec).
Proof.
  apply (generate_keys_correct (small_tape [0; ell + 5]) (le_split 32 7) false).
  - apply small_tape_bytes.
  - apply le_split_bytes.
  - right. vm_compute. discriminate.
Defined.

(** ** One-time keys *)

(** C12: the sender and the recipient of an output derive the same secret, the
    sender's one-time key is the public key of the secret key that the recipient
    derives, and the recipient finds the address again from it: for view and
    spend secrets [a] and [b], the transaction secret [r] and an output index. *)
Theorem stealth_address_correct NDEBUG a b r i : 0 <= i < 2 ^ 64 ->
  exists D P x,
    generate_key_derivation NDEBUG (pub a) (sbytes r) = Some (Some D) /\
    generate_key_derivation NDEBUG (pub r) (sbytes a) = Some (Some D) /\
    derive_public_key NDEBUG D i (pub b) = Some (Some P) /\
    derive_secret_key NDEBUG D i (sbytes b) = Some x /\
    secret_key_to_public_key x = Some (Some P) /\
    derive_subaddress_public_key NDEBUG P D i = Some (Some (pub b)).
Proof.
  intros Hi. unfold pub at 1 2. rewrite !generate_key_derivation_ok.
  set (D := enc (smul 8 (smul (r mod ell) (smul a base_point)))).
  assert (HD : enc (smul 8 (smul (a mod ell) (smul r base_point))) = D).
  { apply enc_eq, smul_proper. rewrite !smul_mod by apply smul_prime, base_prime.
    by rewrite <- !smul_mul, Z.mul_comm. }
  rewrite HD. assert (BD : Forall is_byte D) by apply enc_bytes. clearbody D. set (s := derivation_scalar D i).
  assert (E : enc (smul b base_point ⊕ smul s base_point) = pub (b + s)) by (apply enc_eq; by rewrite smul_add).
  exists D, (pub (b + s)), (sbytes (b + s)). split; [done |]. split; [done |].
  split; [unfold pub at 1; by rewrite derive_public_key_ok, <- E by done |].
  split; [by apply derive_secret_key_ok |]. split.
  - rewrite secret_to_public_ok by apply sbytes_bytes. rewrite sbytes_val, (proj2 (Z.ltb_lt _ _)) by apply ell_range.
    by rewrite pub_mod.
  - rewrite <- E, derive_subaddress_ok by done. fold s. do 2 f_equal. apply enc_eq.
    by rewrite <- gadd_assoc, gadd_opp_r, gadd_0_r.
Qed.

Lemma stealth_address_witness : exists D P x,
    generate_key_derivation false (pub 5) (sbytes 7) = Some (Some D) /\
    generate_key_derivation false (pub 7) (sbytes 5) = Some (Some D) /\
    derive_public_key false D 1 (pub 6) = Some (Some P) /\
    derive_secret_key false D 1 (sbytes 6) = Some x /\
    secret_key_to_public_key x = Some (Some P) /\
    derive_subaddress_public_key false P D 1 = Some (Some (pub 6)).
Proof. apply (stealth_address_correct false 5 6 7 1). split; reflexivity || discriminate. Defined.

(** On a key that is not a point, the derivations return false; on a key that
    is one they succeed, and the shared secret is in the subgroup of prime order
    whatever the key was. *)
Theorem derivation_safe NDEBUG key x D i : is_bytes 32 key -> is_bytes 32 D -> 0 <= i < 2 ^ 64 ->
  exists ok, check_key key = Some ok /\
  if ok then
    (exists Q, generate_key_derivation NDEBUG key (sbytes x) = Some (Some (enc Q)) /\ prime_order Q) /\
    (exists Q, derive_public_key NDEBUG D i key = Some (Some (enc Q))) /\
    (exists Q, derive_subaddress_public_key NDEBUG key D i = Some (Some (enc Q)))
  else generate_key_derivation NDEBUG key (sbytes x) = Some None /\
    derive_public_key NDEBUG D i key = Some None /\ derive_subaddress_public_key NDEBUG key D i = Some None.
Proof.
  intros Hk [_ HD] Hi. destruct (from_cases key Hk) as [[P ->] | [E N]].
  - exists true. split; [apply check_key_enc |]. rewrite generate_key_derivation_ok, derive_public_key_ok, derive_subaddress_ok by done.
    split; [| by split; eexists]. eexists. split; [done |]. unfold prime_order. rewrite <- smul_mul, Z.mul_comm.
    apply curve_exponent.
  - exists false. split; [unfold check_key; by rewrite E |]. split; [by apply generate_key_derivation_refused |].
    unfold derive_public_key, derive_subaddress_public_key. by rewrite E.
Qed.

Lemma derivation_safe_witness : exists ok, check_key (le_split 32 2) = Some ok /\
  if ok then
    (exists Q, generate_key_derivation true (le_split 32 2) (sbytes 3) = Some (Some (enc Q)) /\ prime_order Q) /\
    (exists Q, derive_public_key true zero_point 0 (le_split 32 2) = Some (Some (enc Q))) /\
    (exists Q, derive_subaddress_public_key true (le_split 32 2) zero_point 0 = Some (Some (enc Q)))
  else generate_key_derivation true (le_split 32 2) (sbytes 3) = Some None /\
    derive_public_key true zero_point 0 (le_split 32 2) = Some None /\
    derive_subaddress_public_key true (le_split 32 2) zero_point 0 = Some None.
Proof.
  apply (derivation_safe true (le_split 32 2) 3 zero_point 0).
  - apply le_split_bytes.
  - exact zero_point_bytes.
  - split; reflexivity || discriminate.
Defined.

(** ** Signatures *)

Definition sig_bytes (sig : signature) : Prop := is_bytes 32 (sig_c sig) /\ is_bytes 32 (sig_r sig).

(** C23: [check_signature] accepts exactly the pairs of reduced scalars with [c]
    nonzero for which [c P + r G] is not the neutral element and hashes, with the
    message and the key, to [c]; it refuses everything else, and without
    [NDEBUG] aborts on a key that is not a point. *)
Theorem check_signature_exact NDEBUG h key sig : is_bytes 32 h -> is_bytes 32 key -> sig_bytes sig ->
  let c := le_combine (sig_c sig) in
  let r := le_combine (sig_r sig) in
  (forall P, key = enc P -> exists b, check_signature NDEBUG h key sig = Some b /\
    (b = true <-> c < ell /\ r < ell /\ c <> 0 /\ ~ smul c P ⊕ smul r base_point ≃ gzero /\
       hs (s_comm h key (enc (smul c P ⊕ smul r base_point))) mod ell = c)) /\
  ((forall P, key <> enc P) -> check_signature NDEBUG h key sig = if NDEBUG then Some false else None).
Proof.
  intros Hh Hk [Hc Hr]. cbv zeta. split.
  - intros P ->. rewrite check_signature_ok by done. eexists. split; [done |]. unfold verdict.
    rewrite !andb_true_iff, !negb_true_iff, !Z.ltb_lt, Z.eqb_eq, Z.eqb_neq, bool_decide_eq_false.
    change infinity with (enc gzero). rewrite enc_eq. unfold challenge. tauto.
  - intros N. destruct (check_key_cases key Hk) as [(P & E & _) | [E _]]; [by destruct (N P) |].
    unfold check_signature. rewrite E. bind. unfold assert. destruct NDEBUG; [| done]. cbn [orb]. bind.
    destruct (from_cases key Hk) as [[P E'] | [-> _]]; [by destruct (N P) | by bind].
Qed.

Lemma check_signature_witness :
  exists b, check_signature false zero_point (enc gzero) (mk_sig (sbytes 1) (sbytes ell)) = Some b /\ b = false.
Proof.
  destruct (check_signature_exact false zero_point (enc gzero) (mk_sig (sbytes 1) (sbytes ell)) zero_point_bytes (enc_bytes _)
    (conj (sbytes_bytes 1) (sbytes_bytes ell))) as [H _].
  destruct (H gzero eq_refl) as (b & E & I). exists b. split; [exact E |].
  destruct b; [| reflexivity]. exfalso. apply (proj1 (proj2 (proj2 (proj2 (proj1 I eq_refl))))).
  rewrite smul_0. cbn [sig_r]. rewrite sbytes_val, Z.mod_same by done. apply gadd_0_r.
Defined.

(** C11: whatever the random source yields, [generate_signature] returns a signature
    as soon as one of its scalars gives nonzero [c] and [r], and every signature it
    returns is accepted by [check_signature]. *)
Theorem signature_complete NDEBUG h x tape : is_bytes 32 h -> Forall (is_bytes 32) tape ->
  match generate_signature NDEBUG h (pub x) (sbytes x) tape with
  | Some (sig, rest) => check_signature NDEBUG h (pub x) sig = Some true /\ sig_bytes sig
  | None => Forall (fun k => usable h x k = false) (scalars tape)
  end.
Proof.
  intros Hh Ht. unfold generate_signature.
  assert (D : debug NDEBUG (_ ← assert_debug (sc_check (sbytes x) =? 0); t ← ge_scalarmult_base (sbytes x);
    t2 ← ge_p3_tobytes t; assert_debug (bool_decide (pub x = t2))) = Some tt).
  { unfold debug. destruct NDEBUG; [done |]. rewrite sc_check_sbytes. cbn [Z.eqb assert_debug]. bind.
    run (base_sbytes x) as t [_ E]. rewrite E. bind. by rewrite bool_decide_eq_true_2. }
  rewrite D. bind. pose proof (sign_loop_ok h Hh x (S (length tape)) tape ltac:(lia) Ht) as S.
  destruct (sign_loop _ _ _ _ tape) as [[sig rest] |]; [| done]. destruct S as (k & Hk & U & ->).
  pose proof (scalars_range tape) as R. rewrite list.Forall_forall in R.
  split; [by apply signature_of_accepted; auto |]. split; apply sbytes_bytes.
Qed.

Lemma signature_witness : match generate_signature false zero_point (pub 5) (sbytes 5) (small_tape [9]) with
  | Some (sig, rest) => check_signature false zero_point (pub 5) sig = Some true /\ sig_bytes sig
  | None => Forall (fun k => usable zero_point 5 k = false) (scalars (small_tape [9]))
  end.
Proof.
  apply (signature_complete false zero_point 5 (small_tape [9])); [exact zero_point_bytes | apply small_tape_bytes].
Defined.

(** A proof of a transaction key for a view key of prime order, and for a spend
    key of prime order when there is one, generated by either version, is accepted
    by [check_tx_proof] for that version. *)
Theorem tx_proof_complete NDEBUG msg r A B tape :
  is_bytes 32 msg -> prime_order A -> prime_order (generator B) -> Forall (is_bytes 32) tape -> scalars tape <> [] ->
  let R := enc (smul r (generator B)) in
  let D := enc (smul r A) in
  (exists sig rest, generate_tx_proof_v1 NDEBUG msg R (enc A) (option_map enc B) D (sbytes r) tape = Some (inr (sig, rest)) /\
     check_tx_proof msg R (enc A) (option_map enc B) D sig 1 = Some true) /\
  (exists sig rest, generate_tx_proof NDEBUG msg R (enc A) (option_map enc B) D (sbytes r) tape = Some (inr (sig, rest)) /\
     check_tx_proof msg R (enc A) (option_map enc B) D sig 2 = Some true).
Proof.
  intros Hm HA HB Ht Hs. cbv zeta. destruct (scalars tape) as [| k ks] eqn:E; [done |]. split.
  - destruct (generate_tx_proof_v1_ok NDEBUG msg Hm r A B HA HB tape k ks Ht E) as (rest & ->).
    eexists _, rest. split; [done |]. apply proof_of_accepted; auto.
  - destruct (generate_tx_proof_ok NDEBUG msg Hm r A B HA HB tape k ks Ht E) as (rest & ->).
    eexists _, rest. split; [done |]. apply proof_of_accepted; auto.
Qed.

Lemma tx_proof_witness : exists sig rest,
  generate_tx_proof true zero_point (enc (smul 3 base_point)) (enc base_point) None (enc (smul 3 base_point)) (sbytes 3)
    (small_tape [9]) = Some (inr (sig, rest)) /\
  check_tx_proof zero_point (enc (smul 3 base_point)) (enc base_point) None (enc (smul 3 base_point)) sig 2 = Some true.
Proof.
  assert (S : scalars (small_tape [9]) <> []) by (vm_compute; discriminate).
  exact (proj2 (tx_proof_complete true zero_point 3 base_point None (small_tape [9])
    zero_point_bytes base_prime base_prime (small_tape_bytes _) S)).
Defined.

(** When one of the keys is not a point, the proof generators throw the error
    that names the first such key in the order they are checked, before drawing
    randomness, and the verification returns false. *)
Theorem tx_proof_errors NDEBUG msg R A B D r tape sig version e :
  is_bytes 32 R -> is_bytes 32 A -> from_option (is_bytes 32) True B -> is_bytes 32 D ->
  first_invalid valid_key R A B D = Some e ->
  generate_tx_proof_v1 NDEBUG msg R A B D r tape = Some (inl e) /\
  generate_tx_proof NDEBUG msg R A B D r tape = Some (inl e) /\
  check_tx_proof msg R A B D sig version = Some false.
Proof.
  intros HR HA HB HD E. destruct (decode_keys_exact R A B D HR HA HB HD) as (ks & K). rewrite E in K.
  unfold generate_tx_proof_v1, generate_tx_proof, check_tx_proof. by rewrite K.
Qed.

Definition not_a_point : bytes := replicate 32 255.

Lemma not_a_point_bytes : is_bytes 32 not_a_point.
Proof. split; [reflexivity | by apply Forall_replicate]. Qed.

Lemma tx_proof_errors_witness : generate_tx_proof false [] not_a_point zero_point None zero_point [] [] =
  Some (inl tx_pubkey_is_invalid).
Proof.
  refine (proj1 (proj2 (tx_proof_errors false [] not_a_point zero_point None zero_point [] [] (mk_sig [] []) 1
    tx_pubkey_is_invalid not_a_point_bytes zero_point_bytes I zero_point_bytes _))).
  vm_compute. reflexivity.
Defined.

(** ** Ring signatures *)

Lemma ring_members pubs : Forall (fun p => is_bytes 32 p /\ check_key p = Some true) pubs ->
  exists ms, pubs = map (fun m : point * point => enc m.1) ms /\ Forall member ms.
Proof.
  induction 1 as [| p pubs [Hb Hp] _ (ms & -> & Hm)]; [by exists [] |].
  destruct (check_key_cases p Hb) as [(P & -> & _) | [E _]]; [| by rewrite E in Hp].
  destruct (hash_to_ec_ok (enc P) (proj2 (enc_bytes P))) as (_ & _ & H & _ & HH).
  exists ((P, H) :: ms). split; [done |]. by constructor.
Qed.

(** C8: for a ring of valid keys that holds the signer's at its index, the key image
    is defined, [generate_ring_signature] returns as soon as the random source has
    yielded [2 n - 1] scalars, and [check_ring_signature] accepts the result. *)
Theorem ring_signature_complete NDEBUG msg pubs x s sig tape :
  is_bytes 32 msg -> Forall (fun p => is_bytes 32 p /\ check_key p = Some true) pubs -> pubs !! s = Some (pub x) ->
  length sig = length pubs -> Forall (is_bytes 32) tape -> (2 * length pubs - 1 <= length (scalars tape))%nat ->
  exists image sigs rest,
    generate_key_image NDEBUG (pub x) (sbytes x) = Some image /\
    generate_ring_signature NDEBUG msg image pubs (sbytes x) s sig tape = Some (sigs, rest) /\
    check_ring_signature NDEBUG msg image pubs sigs = Some true.
Proof.
  intros Hmsg Hp Hs Ls Ht Hl. destruct (ring_members pubs Hp) as (ms & -> & Hm).
  rewrite length_map in Ls, Hl. rewrite list_lookup_fmap in Hs.
  destruct (ms !! s) as [m |] eqn:Em; [| discriminate Hs]. apply (inj Some) in Hs. cbv beta in Hs. pose proof (proj1 (enc_eq _ _) Hs) as HP.
  destruct (list_elem_of_split_length ms s m Em) as (ms1 & ms2 & -> & ->).
  destruct (generate_key_image_ok NDEBUG (smul x base_point) x) as (I & EI & H & HH & HI).
  assert (HI' : I ≃ smul x m.2).
  { rewrite HI. apply smul_proper, (hashes_to_unique (pub x)); [done |].
    apply Forall_app in Hm as [_ Hm]. apply Forall_cons_iff in Hm as [Hm _]. unfold member in Hm. by rewrite Hs in Hm. }
  rewrite length_app in Hl. simpl in Hl.
  destruct (ring_signature_generated NDEBUG msg Hmsg x I ms1 ms2 m Hm HP HI' sig tape Ls Ht ltac:(lia))
    as (crs & rest & E & Lc & Tc).
  exists (enc I), (map to_sig crs), rest. split; [done |]. split; [done |].
  rewrite (check_ring_ok NDEBUG msg Hmsg I ms1 ms2 m Hm crs Lc), Tc, Z.sub_diag. done.
Qed.

Lemma ring_signature_witness : exists image sigs rest,
  generate_key_image true (pub 5) (sbytes 5) = Some image /\
  generate_ring_signature true zero_point image [pub 3; pub 5] (sbytes 5) 1 (replicate 2 (mk_sig [] [])) (small_tape [1; 2; 3]) =
    Some (sigs, rest) /\
  check_ring_signature true zero_point image [pub 3; pub 5] sigs = Some true.
Proof.
  apply (ring_signature_complete true zero_point [pub 3; pub 5] 5 1 (replicate 2 (mk_sig [] [])) (small_tape [1; 2; 3])).
  - exact zero_point_bytes.
  - repeat (constructor; [split; [apply enc_bytes | apply check_key_enc] |]). constructor.
  - reflexivity.
  - reflexivity.
  - apply small_tape_bytes.
  - change (3 <= length (scalars (small_tape [1; 2; 3]%Z)))%nat. vm_compute. lia.
Defined.





(** The key image of a secret under a key is the secret times the point of prime
    order that the key hashes to; so the images of two secrets under one key agree
    exactly when the secrets agree modulo [ell], unless that point is neutral. *)
Theorem key_image_linkable NDEBUG P x : exists H I,
  hashes_to (enc P) H /\ prime_order H /\ I ≃ smul x H /\
  generate_key_image NDEBUG (enc P) (sbytes x) = Some (enc I) /\
  forall y, generate_key_image NDEBUG (enc P) (sbytes y) = Some (enc I) <-> (H ≃ gzero \/ x mod ell = y mod ell).
Proof.
  destruct (generate_key_image_ok NDEBUG P x) as (I & EI & H & HH & HI). exists H, I.
  pose proof (hashes_to_prime _ _ HH) as PH. split; [done |]. split; [done |]. split; [done |]. split; [done |]. intros y.
  destruct (generate_key_image_ok NDEBUG P y) as (J & -> & H' & HH' & HJ).
  rewrite (hashes_to_unique _ _ _ HH' HH) in HJ. split.
  - intros E%(inj Some)%enc_eq. destruct (decide (point_code H = point_code gzero)) as [Z%point_code_eq | N]; [by left | right].
    apply mod_sub_0, Z.mod_divide; [done |]. apply (order_divide (H := curve_group) ell _ H prime_ell PH).
    + by rewrite <- point_code_eq.
    + unfold Z.sub. by rewrite smul_add, smul_opp, <- HI, <- E, HJ, gadd_opp_r.
  - intros C. apply (f_equal Some), enc_eq. rewrite HI, HJ. destruct C as [Z | E].
    + by rewrite Z, !smul_0.
    + by rewrite <- (smul_mod x), E, smul_mod.
Qed.
End CryptoTheorems.
