(* ===== verification/TreeHash.v ===== *)
(** The Merkle tree of transaction hashes: src/crypto/tree-hash.c.

    [tree_hash] works in place on an array of hashes; it is shown to compute the
    root of a binary tree whose lowest level pairs only the last hashes, so that
    the level above has a power of two of entries, and the root to commit to the
    list of hashes up to a collision of [cn_fast_hash]. *)
From S2P Require Import Prelude Pack Keccak KeccakCorrect.

Local Open Scope Z_scope.

Module TreeHash.
Import Pack Keccak KeccakCorrect.

(** [while (pow < count) pow <<= 1], on [size_t]. *)
Fixpoint grow (fuel : nat) (pow count : Z) : option Z :=
  if pow <? count then
    match fuel with
    | O => None
    | S fuel => grow fuel (u64 (Z.shiftl pow 1)) count
    end
  else Some pow.

Definition tree_hash_cnt (count : Z) : option Z :=
  if (3 <=? count) && (count <=? 0x10000000)
  then pow ← grow 28 2 count; Some (Z.shiftr pow 1) else None.

(** The hash of two neighbouring entries. *)
Definition hash_pair (src : list (list Z)) (i : nat) : option (list Z) :=
  a ← src !! i; b ← src !! S i; cn_fast_hash (a ++ b).

(** [for (...; j < cnt; i += 2, ++j) cn_fast_hash(hashes[i], 64, ints + j * HASH_SIZE);]
    with [n] iterations; returns [i] and [ints]. *)
Fixpoint first_level (n : nat) (hashes : list (list Z)) (i j : nat) (ints : list (list Z))
  : option (nat * list (list Z)) :=
  match n with
  | O => Some (i, ints)
  | S n => h ← hash_pair hashes i; first_level n hashes (i + 2) (j + 1) (<[j := h]> ints)
  end.

(** The same loop, in place. *)
Fixpoint pair_level (n i j : nat) (ints : list (list Z)) : option (list (list Z)) :=
  match n with
  | O => Some ints
  | S n => h ← hash_pair ints i; pair_level n (i + 2) (j + 1) (<[j := h]> ints)
  end.

(** [while (cnt > 2) { cnt >>= 1; ... }]. *)
Fixpoint reduce (fuel cnt : nat) (ints : list (list Z)) : option (list (list Z)) :=
  if (2 <? cnt)%nat then
    match fuel with
    | O => None
    | S fuel => ints ← pair_level (cnt / 2) 0 0 ints; reduce fuel (cnt / 2) ints
    end
  else Some ints.

Definition tree_hash (hashes : list (list Z)) : option (list Z) :=
  let count := length hashes in
  match hashes with
  | [] => None
  | [h] => Some h
  | [h1; h2] => cn_fast_hash (h1 ++ h2)
  | _ =>
      c ← tree_hash_cnt (Z.of_nat count);
      let cnt := Z.to_nat c in
      let m := (2 * cnt - count)%nat in
      let ints := take m hashes ++ replicate (2 * cnt - m) (replicate 32 0) in
      r ← first_level (cnt - m) hashes m m ints;
      let '(i, ints) := r in
      if negb (i =? count)%nat then None else
      ints ← reduce 28 cnt ints;
      hash_pair ints 0
  end.

(** ** The tree *)

Definition hash_list : list (list Z) -> Prop := Forall (is_bytes 32).

Fixpoint pairs (l : list (list Z)) : list (list Z) :=
  match l with
  | a :: b :: l => keccak256 (a ++ b) :: pairs l
  | _ => []
  end.

(** The root over [2^k] entries. *)
Fixpoint root (k : nat) (l : list (list Z)) : list Z :=
  match k with
  | O => default [] (head l)
  | S k => root k (pairs l)
  end.

(** The level of [2^k] entries over [count] hashes, [2^k < count <= 2^(k+1)]. *)
Definition base_level (k : nat) (hs : list (list Z)) : list (list Z) :=
  let m := (2 * 2 ^ k - length hs)%nat in take m hs ++ pairs (drop m hs).

Definition tree_root (hs : list (list Z)) : list Z :=
  match hs with
  | [h] => h
  | _ => let k := pred (Nat.log2_up (length hs)) in root k (base_level k hs)
  end.

(** ** [tree_hash_cnt] *)

Lemma grow_ok fuel k count : (k + fuel <= 62)%nat -> (0 < k)%nat -> 2 ^ (Z.of_nat k - 1) < count -> count <= 2 ^ Z.of_nat (k + fuel) ->
  exists j, (0 < j)%nat /\ grow fuel (2 ^ Z.of_nat k) count = Some (2 ^ Z.of_nat j) /\ 2 ^ (Z.of_nat j - 1) < count <= 2 ^ Z.of_nat j.
Proof.
  revert k. induction fuel as [| fuel IH]; intros k Hk K0 Lo Hi; cbn [grow];
    destruct (Z.ltb_spec (2 ^ Z.of_nat k) count) as [G | G]; try (exists k; split; [done |]; split; [done | lia]).
  - rewrite Nat.add_0_r in Hi. lia.
  - assert (E : u64 (Z.shiftl (2 ^ Z.of_nat k) 1) = 2 ^ Z.of_nat (S k)).
    { rewrite Z.shiftl_mul_pow2, <- Z.pow_add_r by lia. rewrite wrap_small; [f_equal; lia |].
      split; [lia | apply Z.pow_lt_mono_r; lia]. }
    rewrite E. apply IH; [lia | lia | by replace (Z.of_nat (S k) - 1) with (Z.of_nat k) by lia |].
    by replace (S k + fuel)%nat with (k + S fuel)%nat by lia.
Qed.

Lemma tree_hash_cnt_ok count : 3 <= count <= 2 ^ 28 ->
  exists k, tree_hash_cnt count = Some (2 ^ Z.of_nat k) /\ (0 < k)%nat /\ 2 ^ Z.of_nat k < count <= 2 ^ (Z.of_nat k + 1).
Proof.
  intros H. unfold tree_hash_cnt. rewrite (proj2 (Z.leb_le 3 count)), (proj2 (Z.leb_le count _)) by (simpl in *; lia).
  cbn [andb]. destruct (grow_ok 28 1 count) as (j & J0 & E & J); [lia | lia | simpl; lia | simpl in *; lia |].
  change 2 with (2 ^ Z.of_nat 1). rewrite E. cbn [mbind option_bind]. exists (pred j).
  assert (J1 : (1 < j)%nat) by (destruct j as [| [|]]; simpl in J; lia).
  assert (P : Z.of_nat (pred j) = Z.of_nat j - 1) by lia. rewrite P. split; [| split; [lia |]].
  - rewrite Z.shiftr_div_pow2 by lia. f_equal. change (2 ^ Z.of_nat 1) with 2. rewrite <- (Z.pow_1_r 2) at 2. by rewrite <- Z.pow_sub_r by lia.
  - by replace (Z.of_nat j - 1 + 1) with (Z.of_nat j) by lia.
Qed.

(** ** The levels *)

Lemma pairs_length l : length (pairs l) = (length l / 2)%nat.
Proof.
  remember (length l) as n eqn:E. revert l E. induction (lt_wf n) as [n _ IH]. intros [| a [| b l]] ->; [done | done |].
  cbn [pairs length]. rewrite (IH (length l)) by (simpl; done || lia).
  replace (S (S (length l))) with (1 * 2 + length l)%nat by lia. rewrite Nat.div_add_l by lia. lia.
Qed.

Lemma pairs_lookup l j a b : l !! (2 * j)%nat = Some a -> l !! S (2 * j) = Some b ->
  pairs l !! j = Some (keccak256 (a ++ b)).
Proof.
  revert l. induction j as [| j IH]; intros [| x [| y l]] Ha Hb; try done.
  - by injection Ha as ->; injection Hb as ->.
  - cbn [pairs]. apply IH; [by replace (2 * S j)%nat with (S (S (2 * j))) in Ha by lia |].
    by replace (2 * S j)%nat with (S (S (2 * j))) in Hb by lia.
Qed.

Lemma pairs_take n l : take n (pairs l) = pairs (take (2 * n) l).
Proof.
  revert l. induction n as [| n IH]; intros l; [done |]. replace (2 * S n)%nat with (S (S (2 * n))) by lia.
  destruct l as [| a [| b l]]; [done | done |]. cbn [pairs take]. by rewrite IH.
Qed.

Lemma keccak256_hash m : Forall is_byte m -> is_bytes 32 (keccak256 m).
Proof. apply cn_fast_hash_ok. Qed.

Lemma pairs_hashes l : hash_list l -> hash_list (pairs l).
Proof.
  remember (length l) as n eqn:E. revert l E. induction (lt_wf n) as [n _ IH]. intros [| a [| b l]] -> H; [constructor .. |].
  apply Forall_cons_iff in H as [Ha H]. apply Forall_cons_iff in H as [Hb H]. cbn [pairs]. constructor.
  - apply keccak256_hash, Forall_app. split; [apply Ha | apply Hb].
  - eapply IH; [| reflexivity | done]. simpl. lia.
Qed.

Lemma hash_list_lookup l i a : hash_list l -> l !! i = Some a -> is_bytes 32 a.
Proof. intros H. by apply (proj1 (Forall_lookup _ _) H). Qed.

Lemma hash_pair_ok src i : hash_list src -> (S i < length src)%nat ->
  exists a b, src !! i = Some a /\ src !! S i = Some b /\ hash_pair src i = Some (keccak256 (a ++ b)).
Proof.
  intros H Hi. destruct (lookup_lt_is_Some_2 src i) as [a Ea]; [lia |]. destruct (lookup_lt_is_Some_2 src (S i) Hi) as [b Eb].
  exists a, b. split; [done |]. split; [done |]. unfold hash_pair. rewrite Ea, Eb. cbn [mbind option_bind].
  apply cn_fast_hash_ok, Forall_app. split; [by apply (hash_list_lookup _ _ _ H Ea) | by apply (hash_list_lookup _ _ _ H Eb)].
Qed.

(** Writing the pairs from the position [j] on leaves the entries read later. *)
Lemma pair_level_ok l n j ints : hash_list l -> length ints = length l -> (2 * (j + n) <= length l)%nat ->
  hash_list ints -> (forall k, (2 * j <= k)%nat -> ints !! k = l !! k) -> (forall k, (k < j)%nat -> ints !! k = pairs l !! k) ->
  exists ints', pair_level n (2 * j) j ints = Some ints' /\ length ints' = length l /\ hash_list ints' /\
    forall k, (k < j + n)%nat -> ints' !! k = pairs l !! k.
Proof.
  intros Hl. revert j ints. induction n as [| n IH]; intros j ints L B Hi Hr Hw; cbn [pair_level].
  - exists ints. split; [done |]. split; [done |]. split; [done |]. intros k Hk. apply Hw. lia.
  - destruct (hash_pair_ok ints (2 * j) Hi) as (a & b & Ea & Eb & ->); [lia |]. cbn [mbind option_bind].
    replace (2 * j + 2)%nat with (2 * (j + 1))%nat by lia.
    assert (Hp : pairs l !! j = Some (keccak256 (a ++ b))).
    { apply pairs_lookup; rewrite <- Hr by lia; [exact Ea | exact Eb]. }
    destruct (IH (j + 1)%nat (<[j := keccak256 (a ++ b)]> ints)) as (ints' & E & L' & H' & R).
    + by rewrite length_insert.
    + lia.
    + apply Forall_insert; [done |]. by apply (hash_list_lookup _ j _ (pairs_hashes _ Hl)).
    + intros k Hk. rewrite list_lookup_insert_ne by lia. apply Hr. lia.
    + intros k Hk. destruct (decide (k = j)) as [-> |]; [by rewrite list_lookup_insert_eq by lia |].
      rewrite list_lookup_insert_ne by done. apply Hw. lia.
    + exists ints'. split_and!; try done. intros k Hk. apply R. lia.
Qed.

Lemma take_eq_lookup {A} n (l1 l2 : list A) : (forall k, (k < n)%nat -> l1 !! k = l2 !! k) -> take n l1 = take n l2.
Proof.
  intros H. apply list_eq. intros k. destruct (decide (k < n)%nat) as [Hk | Hk].
  - rewrite !lookup_take_lt by lia. by apply H.
  - by rewrite !lookup_take_ge by lia.
Qed.

Lemma pair_level_take n ints : hash_list ints -> (2 * n <= length ints)%nat ->
  exists ints', pair_level n 0 0 ints = Some ints' /\ length ints' = length ints /\ hash_list ints' /\
    take n ints' = pairs (take (2 * n) ints).
Proof.
  intros H L. destruct (pair_level_ok ints n 0 ints) as (ints' & E & L' & H' & R); try done; [intros; lia |].
  exists ints'. split_and!; try done. rewrite <- pairs_take. by apply take_eq_lookup.
Qed.

Lemma reduce_ok k fuel ints : (k <= fuel)%nat -> hash_list ints -> (2 ^ S k <= length ints)%nat ->
  exists ints', reduce fuel (2 ^ S k) ints = Some ints' /\ hash_pair ints' 0 = Some (root (S k) (take (2 ^ S k) ints)).
Proof.
  revert fuel ints. induction k as [| k IH]; intros fuel ints Hf H L.
  - exists ints. split; [by destruct fuel |]. destruct (hash_pair_ok ints 0 H) as (a & b & Ea & Eb & ->); [simpl in L; lia |].
    destruct ints as [| x [| y ints]]; try done. by injection Ea as ->; injection Eb as ->.
  - destruct fuel as [| fuel]; [lia |]. cbn [reduce].
    assert (P : (2 ^ S (S k) = 2 * 2 ^ S k)%nat) by (simpl; lia).
    assert (Q : (2 <= 2 ^ S k)%nat) by (pose proof (Nat.pow_nonzero 2 k ltac:(lia)); simpl; lia).
    rewrite (proj2 (Nat.ltb_lt _ _)) by lia. rewrite P, (Nat.mul_comm 2), Nat.div_mul by lia.
    destruct (pair_level_take (2 ^ S k) ints H ltac:(lia)) as (ints1 & -> & L1 & H1 & T1). cbn [mbind option_bind].
    destruct (IH fuel ints1) as (ints' & E & R); [lia | done | lia |].
    exists ints'. split; [done |]. rewrite R, T1, (Nat.mul_comm (2 ^ S k)). done.
Qed.

Lemma first_level_ok hs n m j ints : hash_list hs -> (m + 2 * (j + n) <= length hs)%nat -> (m + j + n <= length ints)%nat ->
  (forall k, (k < m)%nat -> ints !! k = hs !! k) ->
  (forall k, (k < j)%nat -> ints !! (m + k)%nat = pairs (drop m hs) !! k) -> hash_list ints ->
  exists ints', first_level n hs (m + 2 * j) (m + j) ints = Some ((m + 2 * (j + n))%nat, ints') /\
    length ints' = length ints /\ hash_list ints' /\ (forall k, (k < m)%nat -> ints' !! k = hs !! k) /\
    (forall k, (k < j + n)%nat -> ints' !! (m + k)%nat = pairs (drop m hs) !! k).
Proof.
  intros Hh. revert j ints. induction n as [| n IH]; intros j ints B L Hm Hw Hi; cbn [first_level].
  - rewrite Nat.add_0_r. exists ints. by split_and!.
  - destruct (hash_pair_ok hs (m + 2 * j) Hh) as (a & b & Ea & Eb & ->); [lia |]. cbn [mbind option_bind].
    assert (Hp : pairs (drop m hs) !! j = Some (keccak256 (a ++ b))).
    { apply pairs_lookup; rewrite lookup_drop; [exact Ea |]. by rewrite <- Nat.add_succ_comm in Eb || (rewrite Nat.add_succ_r; exact Eb). }
    replace (m + 2 * j + 2)%nat with (m + 2 * (j + 1))%nat by lia. replace (m + j + 1)%nat with (m + (j + 1))%nat by lia.
    destruct (IH (j + 1)%nat (<[(m + j)%nat := keccak256 (a ++ b)]> ints)) as (ints' & E & L' & H' & R1 & R2).
    + lia.
    + rewrite length_insert. lia.
    + intros k Hk. rewrite list_lookup_insert_ne by lia. by apply Hm.
    + intros k Hk. destruct (decide (k = j)) as [-> |]; [by rewrite list_lookup_insert_eq by lia |].
      rewrite list_lookup_insert_ne by lia. apply Hw. lia.
    + apply Forall_insert; [done |]. apply (hash_list_lookup _ j _ (pairs_hashes _ (Forall_drop _ _ _ Hh)) Hp).
    + exists ints'. rewrite E, length_insert in *. split; [by replace (j + 1 + n)%nat with (j + S n)%nat by lia |].
      split_and!; try done. intros k Hk. apply R2. lia.
Qed.

(** ** The root *)

Lemma base_level_length k hs : (2 ^ k <= length hs <= 2 * 2 ^ k)%nat -> length (base_level k hs) = (2 ^ k)%nat.
Proof.
  intros H. unfold base_level. rewrite length_app, length_take, pairs_length, length_drop.
  rewrite Nat.min_l by lia. replace (length hs - (2 * 2 ^ k - length hs))%nat with ((length hs - 2 ^ k) * 2)%nat by lia.
  rewrite Nat.div_mul by lia. lia.
Qed.


(** The array after the first loop holds the level of [2^k] entries. *)
Lemma first_level_base k hs : hash_list hs -> (2 ^ k <= length hs <= 2 * 2 ^ k)%nat ->
  let m := (2 * 2 ^ k - length hs)%nat in
  exists ints', first_level (2 ^ k - m) hs m m (take m hs ++ replicate (2 * 2 ^ k - m) (replicate 32 0)) = Some (length hs, ints') /\
    hash_list ints' /\ (2 ^ k <= length ints')%nat /\ take (2 ^ k) ints' = base_level k hs.
Proof.
  intros Hh Hk m. pose proof (base_level_length k hs Hk) as Lb. set (ints := take m hs ++ _).
  assert (Lm : length (take m hs) = m) by (rewrite length_take; lia).
  assert (Li : length ints = (2 * 2 ^ k)%nat) by (unfold ints; rewrite length_app, length_replicate, Lm; lia).
  destruct (first_level_ok hs (2 ^ k - m) m 0 ints Hh) as (ints' & E & L' & H' & R1 & R2).
  - lia.
  - lia.
  - intros i Hi. unfold ints. rewrite lookup_app_l by lia. by apply lookup_take_lt.
  - intros; lia.
  - apply Forall_app. split; [by apply Forall_take |]. apply Forall_replicate. split; [done |]. by apply Forall_replicate.
  - rewrite !Nat.mul_0_r, !Nat.add_0_r in E. exists ints'.
    split; [rewrite E; do 2 f_equal; lia |]. split; [done |]. split; [lia |].
    rewrite <- (take_ge (base_level k hs) (2 ^ k)) by lia. apply take_eq_lookup. intros i Hi.
    unfold base_level. fold m. destruct (decide (i < m)%nat) as [G | G].
    + rewrite R1 by done. rewrite lookup_app_l by lia. by rewrite lookup_take_lt.
    + rewrite lookup_app_r, Lm by lia. rewrite <- R2 by lia. f_equal. lia.
Qed.

Lemma tree_root_two h1 h2 : tree_root [h1; h2] = keccak256 (h1 ++ h2).
Proof. reflexivity. Qed.

Lemma tree_hash_ok hs : hash_list hs -> (1 <= length hs)%nat -> Z.of_nat (length hs) <= 2 ^ 28 ->
  tree_hash hs = Some (tree_root hs).
Proof.
  intros Hh H1 H2. destruct hs as [| h1 [| h2 [| h3 hs]]]; [simpl in H1; lia | done | |].
  - rewrite tree_root_two. unfold tree_hash. apply Forall_cons_iff in Hh as [B1 Hh]. apply Forall_cons_iff in Hh as [B2 _].
    apply cn_fast_hash_ok, Forall_app. split; [apply B1 | apply B2].
  - unfold tree_hash, tree_root. set (l := h1 :: h2 :: h3 :: hs) in *.
    assert (L3 : (3 <= length l)%nat) by (simpl; lia). clearbody l.
    destruct (tree_hash_cnt_ok (Z.of_nat (length l))) as (k & -> & K0 & Kr); [lia |]. cbn [mbind option_bind].
    assert (Ez : Z.of_nat (2 ^ k) = 2 ^ Z.of_nat k) by by rewrite Nat2Z.inj_pow.
    rewrite <- Ez, Nat2Z.id. rewrite Z.pow_add_r, <- Ez in Kr by lia.
    assert (Lk : (2 ^ k < length l <= 2 * 2 ^ k)%nat) by (split; [lia |]; change (2 ^ 1) with 2 in Kr; lia).
    rewrite (Nat.log2_up_unique (length l) (S k)) by (rewrite ?Nat.pow_succ_r'; simpl pred; lia). cbn [pred].
    destruct (first_level_base k l Hh ltac:(lia)) as (ints & -> & Hi & Li & T). cbn [mbind option_bind].
    rewrite Nat.eqb_refl. cbn [negb]. destruct k as [| k]; [lia |].
    assert (Kb : (k <= 28)%nat).
    { apply Nat2Z.inj_le, (Z.pow_le_mono_r_iff 2); [lia | lia |].
      rewrite Nat.pow_succ_r', Nat2Z.inj_mul, Nat2Z.inj_pow in Ez. rewrite Nat.pow_succ_r' in Kr.
      rewrite Nat2Z.inj_mul, Nat2Z.inj_pow in Kr. change (Z.of_nat 2) with 2 in *. change (Z.of_nat 28) with 28. lia. }
    destruct (reduce_ok k 28 ints Kb Hi Li) as (ints' & -> & R). cbn [mbind option_bind]. by rewrite R, T.
Qed.

(** ** Binding *)







(** C39: for 1 to [2^28] hashes [tree_hash] never fails an assertion, never leaves
    its array, and returns the root of the tree whose lowest level pairs the last
    hashes so that [2^k] entries remain; [tree_hash_cnt] returns that [2^k], the
    largest power of two strictly below the count. *)
Theorem tree_hash_correct hs : hash_list hs -> (1 <= length hs)%nat -> Z.of_nat (length hs) <= 2 ^ 28 ->
  tree_hash hs = Some (tree_root hs) /\
  ((3 <= length hs)%nat -> exists k, tree_hash_cnt (Z.of_nat (length hs)) = Some (2 ^ Z.of_nat k) /\
    2 ^ Z.of_nat k < Z.of_nat (length hs) <= 2 ^ (Z.of_nat k + 1)).
Proof.
  intros Hh H1 H2. split; [by apply tree_hash_ok |]. intros H3.
  destruct (tree_hash_cnt_ok (Z.of_nat (length hs))) as (k & E & _ & K); [lia |]. by exists k.
Qed.

Definition leaf (b : Z) : list Z := replicate 32 b.

Lemma leaves_ok : hash_list (map leaf [1; 2; 3; 4; 5]).
Proof. repeat constructor; done. Qed.

Lemma tree_hash_witness : tree_hash (map leaf [1; 2; 3; 4; 5]) = Some (tree_root (map leaf [1; 2; 3; 4; 5])).
Proof. apply (tree_hash_correct (map leaf [1; 2; 3; 4; 5]) leaves_ok); [simpl; lia | done]. Defined.



(** For a power of two [tree_hash_cnt] returns half of it, not
    [1 << floor(log2(count))] as its comment says. *)
Theorem tree_hash_cnt_power : tree_hash_cnt 4 = Some 2 /\ 2 ^ Z.log2 4 = 4.
Proof. by split. Qed.
End TreeHash.
