(* ===== verification/RctData.v ===== *)
(** Constants of src/ringct: the second generator [H] and its multiples by powers of
    two (rctTypes.h), the commitments to single-digit amounts (rctOps.cpp), the keys
    of rctOps.h and the two points of src/crypto/crypto-ops-data.c that ringct uses. *)
From S2P Require Import Prelude Ge.

Local Open Scope Z_scope.

Module RctData.
Import Ge.

Definition ge_p3_identity : ge_p3 :=
  mk_p3 [0; 0; 0; 0; 0; 0; 0; 0; 0; 0] [1; 0; 0; 0; 0; 0; 0; 0; 0; 0] [1; 0; 0; 0; 0; 0; 0; 0; 0; 0] [0; 0; 0; 0; 0; 0; 0; 0; 0; 0].

Definition ge_p3_H : ge_p3 := mk_p3
  [7329926; -15101362; 31411471; 7614783; 27996851; -3197071; -11157635; -6878293; 466949; -7986503]
  [5858699; 5096796; 21321203; -7536921; -5553480; -11439507; -5627669; 15045946; 19977121; 5275251]
  [1; 0; 0; 0; 0; 0; 0; 0; 0; 0]
  [23443568; -5110398; -8776029; -4345135; 6889568; -14710814; 7474843; 3279062; 14550766; -7453428].

Definition key_Z : list Z :=
  [0; 0; 0; 0; 0; 0; 0; 0; 0; 0; 0; 0; 0; 0; 0; 0; 0; 0; 0; 0; 0; 0; 0; 0; 0; 0; 0; 0; 0; 0; 0; 0].

Definition key_I : list Z :=
  [0x01; 0; 0; 0; 0; 0; 0; 0; 0; 0; 0; 0; 0; 0; 0; 0; 0; 0; 0; 0; 0; 0; 0; 0; 0; 0; 0; 0; 0; 0; 0; 0].

Definition key_L : list Z :=
  [0xed; 0xd3; 0xf5; 0x5c; 0x1a; 0x63; 0x12; 0x58; 0xd6; 0x9c; 0xf7; 0xa2; 0xde; 0xf9; 0xde; 0x14; 0; 0; 0; 0; 0; 0; 0; 0; 0; 0; 0; 0; 0; 0; 0; 0x10].

Definition key_G : list Z :=
  [0x58; 0x66; 0x66; 0x66; 0x66; 0x66; 0x66; 0x66; 0x66; 0x66; 0x66; 0x66; 0x66; 0x66; 0x66; 0x66; 0x66; 0x66; 0x66; 0x66; 0x66; 0x66; 0x66; 0x66; 0x66; 0x66; 0x66; 0x66; 0x66; 0x66; 0x66; 0x66].

Definition EIGHT : list Z :=
  [0x08; 0; 0; 0; 0; 0; 0; 0; 0; 0; 0; 0; 0; 0; 0; 0; 0; 0; 0; 0; 0; 0; 0; 0; 0; 0; 0; 0; 0; 0; 0; 0].

Definition INV_EIGHT : list Z :=
  [0x79; 0x2f; 0xdc; 0xe2; 0x29; 0xe5; 0x06; 0x61; 0xd0; 0xda; 0x1c; 0x7d; 0xb3; 0x9d; 0xd3; 0x07; 0; 0; 0; 0; 0; 0; 0; 0; 0; 0; 0; 0; 0; 0; 0; 0x06].

Definition key_H : list Z :=
  [0x8b; 0x65; 0x59; 0x70; 0x15; 0x37; 0x99; 0xaf; 0x2a; 0xea; 0xdc; 0x9f; 0xf1; 0xad; 0xd0; 0xea; 0x6c; 0x72; 0x51; 0xd5; 0x41; 0x54; 0xcf; 0xa9; 0x2c; 0x17; 0x3a; 0x0d; 0xd3; 0x9c; 0x1f; 0x94].

Definition key_H2 : list (list Z) := [
  [0x8b; 0x65; 0x59; 0x70; 0x15; 0x37; 0x99; 0xaf; 0x2a; 0xea; 0xdc; 0x9f; 0xf1; 0xad; 0xd0; 0xea; 0x6c; 0x72; 0x51; 0xd5; 0x41; 0x54; 0xcf; 0xa9; 0x2c; 0x17; 0x3a; 0x0d; 0xd3; 0x9c; 0x1f; 0x94];
  [0x8f; 0xaa; 0x44; 0x8a; 0xe4; 0xb3; 0xe2; 0xbb; 0x3d; 0x4d; 0x13; 0x09; 0x09; 0xf5; 0x5f; 0xcd; 0x79; 0x71; 0x1c; 0x1c; 0x83; 0xcd; 0xbc; 0xca; 0xdd; 0x42; 0xcb; 0xe1; 0x51; 0x5e; 0x87; 0x12];
  [0x12; 0xa7; 0xd6; 0x2c; 0x77; 0x91; 0x65; 0x4a; 0x57; 0xf3; 0xe6; 0x76; 0x94; 0xed; 0x50; 0xb4; 0x9a; 0x7d; 0x9e; 0x3f; 0xc1; 0xe4; 0xc7; 0xa0; 0xbd; 0xe2; 0x9d; 0x18; 0x7e; 0x9c; 0xc7; 0x1d];
  [0x78; 0x9a; 0xb9; 0x93; 0x4b; 0x49; 0xc4; 0xf9; 0xe6; 0x78; 0x5c; 0x6d; 0x57; 0xa4; 0x98; 0xb3; 0xea; 0xd4; 0x43; 0xf0; 0x4f; 0x13; 0xdf; 0x11; 0x0c; 0x54; 0x27; 0xb4; 0xf2; 0x14; 0xc7; 0x39];
  [0x77; 0x1e; 0x92; 0x99; 0xd9; 0x4f; 0x02; 0xac; 0x72; 0xe3; 0x8e; 0x44; 0xde; 0x56; 0x8a; 0xc1; 0xdc; 0xb2; 0xed; 0xc6; 0xed; 0xb6; 0x1f; 0x83; 0xca; 0x41; 0x8e; 0x10; 0x77; 0xce; 0x3d; 0xe8];
  [0x73; 0xb9; 0x6d; 0xb4; 0x30; 0x39; 0x81; 0x9b; 0xda; 0xf5; 0x68; 0x0e; 0x5c; 0x32; 0xd7; 0x41; 0x48; 0x88; 0x84; 0xd1; 0x8d; 0x93; 0x86; 0x6d; 0x40; 0x74; 0xa8; 0x49; 0x18; 0x2a; 0x8a; 0x64];
  [0x8d; 0x45; 0x8e; 0x1c; 0x2f; 0x68; 0xeb; 0xeb; 0xcc; 0xd2; 0xfd; 0x5d; 0x37; 0x9f; 0x5e; 0x58; 0xf8; 0x13; 0x4d; 0xf3; 0xe0; 0xe8; 0x8c; 0xad; 0x3d; 0x46; 0x70; 0x10; 0x63; 0xa8; 0xd4; 0x12];
  [0x09; 0x55; 0x1e; 0xdb; 0xe4; 0x94; 0x41; 0x8e; 0x81; 0x28; 0x44; 0x55; 0xd6; 0x4b; 0x35; 0xee; 0x8a; 0xc0; 0x93; 0x06; 0x8a; 0x5f; 0x16; 0x1f; 0xa6; 0x63; 0x75; 0x59; 0x17; 0x7e; 0xf4; 0x04];
  [0xd0; 0x5a; 0x88; 0x66; 0xf4; 0xdf; 0x8c; 0xee; 0x1e; 0x26; 0x8b; 0x1d; 0x23; 0xa4; 0xc5; 0x8c; 0x92; 0xe7; 0x60; 0x30; 0x97; 0x86; 0xcd; 0xac; 0x0f; 0xed; 0xa1; 0xd2; 0x47; 0xa9; 0xc9; 0xa7];
  [0x55; 0xcd; 0xaa; 0xd5; 0x18; 0xbd; 0x87; 0x1d; 0xd1; 0xeb; 0x7b; 0xc7; 0x02; 0x3e; 0x1d; 0xc0; 0xfd; 0xf3; 0x33; 0x98; 0x64; 0xf8; 0x8f; 0xdd; 0x2d; 0xe2; 0x69; 0xfe; 0x9e; 0xe1; 0x83; 0x2d];
  [0xe7; 0x69; 0x7e; 0x95; 0x1a; 0x98; 0xcf; 0xd5; 0x71; 0x2b; 0x84; 0xbb; 0xe5; 0xf3; 0x4e; 0xd7; 0x33; 0xe9; 0x47; 0x3f; 0xcb; 0x68; 0xed; 0xa6; 0x6e; 0x37; 0x88; 0xdf; 0x19; 0x58; 0xc3; 0x06];
  [0xf9; 0x2a; 0x97; 0x0b; 0xae; 0x72; 0x78; 0x29; 0x89; 0xbf; 0xc8; 0x3a; 0xdf; 0xaa; 0x92; 0xa4; 0xf4; 0x9c; 0x7e; 0x95; 0x91; 0x8b; 0x3b; 0xba; 0x3c; 0xdc; 0x7f; 0xe8; 0x8a; 0xcc; 0x8d; 0x47];
  [0x1f; 0x66; 0xc2; 0xd4; 0x91; 0xd7; 0x5a; 0xf9; 0x15; 0xc8; 0xdb; 0x6a; 0x6d; 0x1c; 0xb0; 0xcd; 0x4f; 0x7d; 0xdc; 0xd5; 0xe6; 0x3d; 0x3b; 0xa9; 0xb8; 0x3c; 0x86; 0x6c; 0x39; 0xef; 0x3a; 0x2b];
  [0x3e; 0xec; 0x98; 0x84; 0xb4; 0x3f; 0x58; 0xe9; 0x3e; 0xf8; 0xde; 0xea; 0x26; 0; 0x04; 0xef; 0xea; 0x2a; 0x46; 0x34; 0x4f; 0xc5; 0x96; 0x5b; 0x1a; 0x7d; 0xd5; 0xd1; 0x89; 0x97; 0xef; 0xa7];
  [0xb2; 0x9f; 0x8f; 0x0c; 0xcb; 0x96; 0x97; 0x7f; 0xe7; 0x77; 0xd4; 0x89; 0xd6; 0xbe; 0x9e; 0x7e; 0xbc; 0x19; 0xc4; 0x09; 0xb5; 0x10; 0x35; 0x68; 0xf2; 0x77; 0x61; 0x1d; 0x7e; 0xa8; 0x48; 0x94];
  [0x56; 0xb1; 0xf5; 0x12; 0x65; 0xb9; 0x55; 0x98; 0x76; 0xd5; 0x8d; 0x24; 0x9d; 0x0c; 0x14; 0x6d; 0x69; 0xa1; 0x03; 0x63; 0x66; 0x99; 0x87; 0x4d; 0x3f; 0x90; 0x47; 0x35; 0x50; 0xfe; 0x3f; 0x2c];
  [0x1d; 0x7a; 0x36; 0x57; 0x5e; 0x22; 0xf5; 0xd1; 0x39; 0xff; 0x9c; 0xc5; 0x10; 0xfa; 0x13; 0x85; 0x05; 0x57; 0x6b; 0x63; 0x81; 0x5a; 0x94; 0xe4; 0xb0; 0x12; 0xbf; 0xd4; 0x57; 0xca; 0xaa; 0xda];
  [0xd0; 0xac; 0x50; 0x7a; 0x86; 0x4e; 0xcd; 0x05; 0x93; 0xfa; 0x67; 0xbe; 0x7d; 0x23; 0x13; 0x43; 0x92; 0xd0; 0x0e; 0x40; 0x07; 0xe2; 0x53; 0x48; 0x78; 0xd9; 0xb2; 0x42; 0xe1; 0x0d; 0x76; 0x20];
  [0xf6; 0xc6; 0x84; 0x0b; 0x9c; 0xf1; 0x45; 0xbb; 0x2d; 0xcc; 0xf8; 0x6e; 0x94; 0x0b; 0xe0; 0xfc; 0x09; 0x8e; 0x32; 0xe3; 0x10; 0x99; 0xd5; 0x6f; 0x7f; 0xe0; 0x87; 0xbd; 0x5d; 0xeb; 0x50; 0x94];
  [0x28; 0x83; 0x1a; 0x33; 0x40; 0x07; 0x0e; 0xb1; 0xdb; 0x87; 0xc1; 0x2e; 0x05; 0x98; 0x0d; 0x5f; 0x33; 0xe9; 0xef; 0x90; 0xf8; 0x3a; 0x48; 0x17; 0xc9; 0xf4; 0xa0; 0xa3; 0x32; 0x27; 0xe1; 0x97];
  [0x87; 0x63; 0x22; 0x73; 0xd6; 0x29; 0xcc; 0xb7; 0xe1; 0xed; 0x1a; 0x76; 0x8f; 0xa2; 0xeb; 0xd5; 0x17; 0x60; 0xf3; 0x2e; 0x1c; 0x0b; 0x86; 0x7a; 0x5d; 0x36; 0x8d; 0x52; 0x71; 0x05; 0x5c; 0x6e];
  [0x5c; 0x7b; 0x29; 0x42; 0x43; 0x47; 0x96; 0x4d; 0x04; 0x27; 0x55; 0x17; 0xc5; 0xae; 0x14; 0xb6; 0xb5; 0xea; 0x27; 0x98; 0xb5; 0x73; 0xfc; 0x94; 0xe6; 0xe4; 0x4a; 0x53; 0x21; 0x60; 0x0c; 0xfb];
  [0xe6; 0x94; 0x50; 0x42; 0xd7; 0x8b; 0xc2; 0xc3; 0xbd; 0x6e; 0xc5; 0x8c; 0x51; 0x1a; 0x9f; 0xe8; 0x59; 0xc0; 0xad; 0x63; 0xfd; 0xe4; 0x94; 0xf5; 0x03; 0x9e; 0x0e; 0x82; 0x32; 0x61; 0x2b; 0xd5];
  [0x36; 0xd5; 0x69; 0x07; 0xe2; 0xec; 0x74; 0x5d; 0xb6; 0xe5; 0x4f; 0x0b; 0x2e; 0x1b; 0x23; 0; 0xab; 0xcb; 0x42; 0x2e; 0x71; 0x2d; 0xa5; 0x88; 0xa4; 0x0d; 0x3f; 0x1e; 0xbb; 0xbe; 0x02; 0xf6];
  [0x34; 0xdb; 0x6e; 0xe4; 0xd0; 0x60; 0x8e; 0x5f; 0x78; 0x36; 0x50; 0x49; 0x5a; 0x3b; 0x2f; 0x52; 0x73; 0xc5; 0x13; 0x4e; 0x52; 0x84; 0xe4; 0xfd; 0xf9; 0x66; 0x27; 0xbb; 0x16; 0xe3; 0x1e; 0x6b];
  [0x8e; 0x76; 0x59; 0xfb; 0x45; 0xa3; 0x78; 0x7d; 0x67; 0x4a; 0xe8; 0x67; 0x31; 0xfa; 0xa2; 0x53; 0x8e; 0xc0; 0xfd; 0xf4; 0x42; 0xab; 0x26; 0xe9; 0xc7; 0x91; 0xfa; 0xda; 0x08; 0x94; 0x67; 0xe9];
  [0x30; 0x06; 0xcf; 0x19; 0x8b; 0x24; 0xf3; 0x1b; 0xb4; 0xc7; 0xe6; 0x34; 0x60; 0; 0xab; 0xc7; 0x01; 0xe8; 0x27; 0xcf; 0xbb; 0x5d; 0xf5; 0x2d; 0xcf; 0xa4; 0x2e; 0x9c; 0xa9; 0xff; 0x08; 0x02];
  [0xf5; 0xfd; 0x40; 0x3c; 0xb6; 0xe8; 0xbe; 0x21; 0x47; 0x2e; 0x37; 0x7f; 0xfd; 0x80; 0x5a; 0x8c; 0x60; 0x83; 0xea; 0x48; 0x03; 0xb8; 0x48; 0x53; 0x89; 0xcc; 0x3e; 0xbc; 0x21; 0x5f; 0; 0x2a];
  [0x37; 0x31; 0xb2; 0x60; 0xeb; 0x3f; 0x94; 0x82; 0xe4; 0x5f; 0x1c; 0x3f; 0x3b; 0x9d; 0xcf; 0x83; 0x4b; 0x75; 0xe6; 0xee; 0xf8; 0xc4; 0x0f; 0x46; 0x1e; 0xa2; 0x7e; 0x8b; 0x6e; 0xd9; 0x47; 0x3d];
  [0x9f; 0x9d; 0xab; 0x09; 0xc3; 0xf5; 0xe4; 0x28; 0x55; 0xc2; 0xde; 0x97; 0x1b; 0x65; 0x93; 0x28; 0xa2; 0xdb; 0xc4; 0x54; 0x84; 0x5f; 0x39; 0x6f; 0xfc; 0x05; 0x3f; 0x0b; 0xb1; 0x92; 0xf8; 0xc3];
  [0x5e; 0x05; 0x5d; 0x25; 0xf8; 0x5f; 0xdb; 0x98; 0xf2; 0x73; 0xe4; 0xaf; 0xe0; 0x84; 0x64; 0xc0; 0x03; 0xb7; 0x0f; 0x1e; 0xf0; 0x67; 0x7b; 0xb5; 0xe2; 0x57; 0x06; 0x40; 0x0b; 0xe6; 0x20; 0xa5];
  [0x86; 0x8b; 0xcf; 0x36; 0x79; 0xcb; 0x6b; 0x50; 0x0b; 0x94; 0x41; 0x8c; 0x0b; 0x89; 0x25; 0xf9; 0x86; 0x55; 0x30; 0x30; 0x3a; 0xe4; 0xe4; 0xb2; 0x62; 0x59; 0x18; 0x65; 0x66; 0x6a; 0x45; 0x90];
  [0xb3; 0xdb; 0x6b; 0xd3; 0x89; 0x7a; 0xfb; 0xd1; 0xdf; 0x3f; 0x96; 0x44; 0xab; 0x21; 0xc8; 0x05; 0x0e; 0x1f; 0; 0x38; 0xa5; 0x2f; 0x7c; 0xa9; 0x5a; 0xc0; 0xc3; 0xde; 0x75; 0x58; 0xcb; 0x7a];
  [0x81; 0x19; 0xb3; 0xa0; 0x59; 0xff; 0x2c; 0xac; 0x48; 0x3e; 0x69; 0xbc; 0xd4; 0x1d; 0x6d; 0x27; 0x14; 0x94; 0x47; 0x91; 0x42; 0x88; 0xbb; 0xea; 0xee; 0x34; 0x13; 0xe6; 0xdc; 0xc6; 0xd1; 0xeb];
  [0x10; 0xfc; 0x58; 0xf3; 0x5f; 0xc7; 0xfe; 0x7a; 0xe8; 0x75; 0x52; 0x4b; 0xb5; 0x85; 0; 0x03; 0; 0x5b; 0x7f; 0x97; 0x8c; 0x0c; 0x65; 0xe2; 0xa9; 0x65; 0x46; 0x4b; 0x6d; 0; 0x81; 0x9c];
  [0x5a; 0xcd; 0x94; 0xeb; 0x3c; 0x57; 0x83; 0x79; 0xc1; 0xea; 0x58; 0xa3; 0x43; 0xec; 0x4f; 0xcf; 0xf9; 0x62; 0x77; 0x6f; 0xe3; 0x55; 0x21; 0xe4; 0x75; 0xa0; 0xe0; 0x6d; 0x88; 0x7b; 0x2d; 0xb9];
  [0x33; 0xda; 0xf3; 0xa2; 0x14; 0xd6; 0xe0; 0xd4; 0x2d; 0x23; 0; 0xa7; 0xb4; 0x4b; 0x39; 0x29; 0x0d; 0xb8; 0x98; 0x9b; 0x42; 0x79; 0x74; 0xcd; 0x86; 0x5d; 0xb0; 0x11; 0x05; 0x5a; 0x29; 0x01];
  [0xcf; 0xc6; 0x57; 0x2f; 0x29; 0xaf; 0xd1; 0x64; 0xa4; 0x94; 0xe6; 0x4e; 0x6f; 0x1a; 0xeb; 0x82; 0x0c; 0x3e; 0x7d; 0xa3; 0x55; 0x14; 0x4e; 0x51; 0x24; 0xa3; 0x91; 0xd0; 0x6e; 0x9f; 0x95; 0xea];
  [0xd5; 0x31; 0x2a; 0x4b; 0x0e; 0xf6; 0x15; 0xa3; 0x31; 0xf6; 0x35; 0x2c; 0x2e; 0xd2; 0x1d; 0xac; 0x9e; 0x7c; 0x36; 0x39; 0x8b; 0x93; 0x9a; 0xec; 0x90; 0x1c; 0x25; 0x7f; 0x6c; 0xbc; 0x9e; 0x8e];
  [0x55; 0x1d; 0x67; 0xfe; 0xfc; 0x7b; 0x5b; 0x9f; 0x9f; 0xdb; 0xf6; 0xaf; 0x57; 0xc9; 0x6c; 0x8a; 0x74; 0xd7; 0xe4; 0x5a; 0; 0x20; 0x78; 0xa7; 0xb5; 0xba; 0x45; 0xc6; 0xfd; 0xe9; 0x3e; 0x33];
  [0xd5; 0x0a; 0xc7; 0xbd; 0x5c; 0xa5; 0x93; 0xc6; 0x56; 0x92; 0x8f; 0x38; 0x42; 0x80; 0x17; 0xfc; 0x7b; 0xa5; 0x02; 0x85; 0x4c; 0x43; 0xd8; 0x41; 0x49; 0x50; 0xe9; 0x6e; 0xcb; 0x40; 0x5d; 0xc3];
  [0x07; 0x73; 0xe1; 0x8e; 0xa1; 0xbe; 0x44; 0xfe; 0x1a; 0x97; 0xe2; 0x39; 0x57; 0x3c; 0xfa; 0xe3; 0xe4; 0xe9; 0x5e; 0xf9; 0xaa; 0x9f; 0xaa; 0xbe; 0xac; 0x12; 0x74; 0xd3; 0xad; 0x26; 0x16; 0x04];
  [0xe9; 0xaf; 0x0e; 0x7c; 0xa8; 0x93; 0x30; 0xd2; 0xb8; 0x61; 0x5d; 0x1b; 0x41; 0x37; 0xca; 0x61; 0x7e; 0x21; 0x29; 0x7f; 0x2f; 0x0d; 0xed; 0x8e; 0x31; 0xb7; 0xd2; 0xea; 0xd8; 0x71; 0x46; 0x60];
  [0x7b; 0x12; 0x45; 0x83; 0x09; 0x7f; 0x10; 0x29; 0xa0; 0xc7; 0x41; 0x91; 0xfe; 0x73; 0x78; 0xc9; 0x10; 0x5a; 0xcc; 0x70; 0x66; 0x95; 0xed; 0x14; 0x93; 0xbb; 0x76; 0x03; 0x42; 0x26; 0xa5; 0x7b];
  [0xec; 0x40; 0x05; 0x7b; 0x99; 0x54; 0x76; 0x65; 0x0b; 0x3d; 0xb9; 0x8e; 0x9d; 0xb7; 0x57; 0x38; 0xa8; 0xcd; 0x2f; 0x94; 0xd8; 0x63; 0xb9; 0x06; 0x15; 0x0c; 0x56; 0xaa; 0xc1; 0x9c; 0xaa; 0x6b];
  [0x01; 0xd9; 0xff; 0x72; 0x9e; 0xfd; 0x39; 0xd8; 0x37; 0x84; 0xc0; 0xfe; 0x59; 0xc4; 0xae; 0x81; 0xa6; 0x70; 0x34; 0xcb; 0x53; 0xc9; 0x43; 0xfb; 0x81; 0x8b; 0x9d; 0x8a; 0xe7; 0xfc; 0x33; 0xe5];
  [0; 0xdf; 0xb3; 0xc6; 0x96; 0x32; 0x8c; 0x76; 0x42; 0x45; 0x19; 0xa7; 0xbe; 0xfe; 0x8e; 0x0f; 0x6c; 0x76; 0xf9; 0x47; 0xb5; 0x27; 0x67; 0x91; 0x6d; 0x24; 0x82; 0x3f; 0x73; 0x5b; 0xaf; 0x2e];
  [0x46; 0x1b; 0x79; 0x9b; 0x4d; 0x9c; 0xee; 0xa8; 0xd5; 0x80; 0xdc; 0xb7; 0x6d; 0x11; 0x15; 0x0d; 0x53; 0x5e; 0x16; 0x39; 0xd1; 0x60; 0x03; 0xc3; 0xfb; 0x7e; 0x9d; 0x1f; 0xd1; 0x30; 0x83; 0xa8];
  [0xee; 0x03; 0x03; 0x94; 0x79; 0xe5; 0x22; 0x8f; 0xdc; 0x55; 0x1c; 0xbd; 0xe7; 0x07; 0x9d; 0x34; 0x12; 0xea; 0x18; 0x6a; 0x51; 0x7c; 0xcc; 0x63; 0xe4; 0x6e; 0x9f; 0xcc; 0xe4; 0xfe; 0x3a; 0x6c];
  [0xa8; 0xcf; 0xb5; 0x43; 0x52; 0x4e; 0x7f; 0x02; 0xb9; 0xf0; 0x45; 0xac; 0xd5; 0x43; 0xc2; 0x1c; 0x37; 0x3b; 0x4c; 0x9b; 0x98; 0xac; 0x20; 0xce; 0xc4; 0x17; 0xa6; 0xdd; 0xb5; 0x74; 0x4e; 0x94];
  [0x93; 0x2b; 0x79; 0x4b; 0xf8; 0x9c; 0x6e; 0xda; 0xf5; 0xd0; 0x65; 0x0c; 0x7c; 0x4b; 0xad; 0x92; 0x42; 0xb2; 0x56; 0x26; 0xe3; 0x7e; 0xad; 0x5a; 0xa7; 0x5e; 0xc8; 0xc6; 0x4e; 0x09; 0xdd; 0x4f];
  [0x16; 0xb1; 0x0c; 0x77; 0x9c; 0xe5; 0xcf; 0xef; 0x59; 0xc7; 0x71; 0x0d; 0x2e; 0x68; 0x44; 0x1e; 0xa6; 0xfa; 0xcb; 0x68; 0xe9; 0xb5; 0xf7; 0xd5; 0x33; 0xae; 0x0b; 0xb7; 0x8e; 0x28; 0xbf; 0x57];
  [0x0f; 0x77; 0xc7; 0x67; 0x43; 0xe7; 0x39; 0x6f; 0x99; 0x10; 0x13; 0x9f; 0x49; 0x37; 0xd8; 0x37; 0xae; 0x54; 0xe2; 0x10; 0x38; 0xac; 0x5c; 0x0b; 0x3f; 0xd6; 0xef; 0x17; 0x1a; 0x28; 0xa7; 0xe4];
  [0xd7; 0xe5; 0x74; 0xb7; 0xb9; 0x52; 0xf2; 0x93; 0xe8; 0x0d; 0xde; 0x90; 0x5e; 0xb5; 0x09; 0x37; 0x3f; 0x3f; 0x6c; 0xd1; 0x09; 0xa0; 0x22; 0x08; 0xb3; 0xc1; 0xe9; 0x24; 0x08; 0x0a; 0x20; 0xca];
  [0x45; 0x66; 0x6f; 0x8c; 0x38; 0x1e; 0x3d; 0xa6; 0x75; 0x56; 0x3f; 0xf8; 0xba; 0x23; 0xf8; 0x3b; 0xfa; 0xc3; 0x0c; 0x34; 0xab; 0xdd; 0xe6; 0xe5; 0xc0; 0x97; 0x5e; 0xf9; 0xfd; 0x70; 0x0c; 0xb9];
  [0xb2; 0x46; 0x12; 0xe4; 0x54; 0x60; 0x7e; 0xb1; 0xab; 0xa4; 0x47; 0xf8; 0x16; 0xd1; 0xa4; 0x55; 0x1e; 0xf9; 0x5f; 0xa7; 0x24; 0x7f; 0xb7; 0xc1; 0xf5; 0x03; 0x02; 0x0a; 0x71; 0x77; 0xf0; 0xdd];
  [0x7e; 0x20; 0x88; 0x61; 0x85; 0x6d; 0xa4; 0x2c; 0x8b; 0xb4; 0x6a; 0x75; 0x67; 0xf8; 0x12; 0x13; 0x62; 0xd9; 0xfb; 0x24; 0x96; 0xf1; 0x31; 0xa4; 0xaa; 0x90; 0x17; 0xcf; 0x36; 0x6c; 0xdf; 0xce];
  [0x5b; 0x64; 0x6b; 0xff; 0x6a; 0xd1; 0x10; 0x01; 0x65; 0x03; 0x7a; 0x05; 0x56; 0x01; 0xea; 0x02; 0x35; 0x8c; 0x0f; 0x41; 0x05; 0x0f; 0x9d; 0xfe; 0x3c; 0x95; 0xdc; 0xcb; 0xd3; 0x08; 0x7b; 0xe0];
  [0x74; 0x6d; 0x1d; 0xcc; 0xfe; 0xd2; 0xf0; 0xff; 0x1e; 0x13; 0xc5; 0x1e; 0x2d; 0x50; 0xd5; 0x32; 0x43; 0x75; 0xfb; 0xd5; 0xbf; 0x7c; 0xa8; 0x2a; 0x89; 0x31; 0x82; 0x8d; 0x80; 0x1d; 0x43; 0xab];
  [0xcb; 0x98; 0x11; 0x0d; 0x4a; 0x6b; 0xb9; 0x7d; 0x22; 0xfe; 0xad; 0xbc; 0x6c; 0x0d; 0x89; 0x30; 0xc5; 0xf8; 0xfc; 0x50; 0x8b; 0x2f; 0xc5; 0xb3; 0x53; 0x28; 0xd2; 0x6b; 0x88; 0xdb; 0x19; 0xae];
  [0x60; 0xb6; 0x26; 0xa0; 0x33; 0xb5; 0x5f; 0x27; 0xd7; 0x67; 0x6c; 0x40; 0x95; 0xea; 0xba; 0xbc; 0x7a; 0x2c; 0x7e; 0xde; 0x26; 0x24; 0xb4; 0x72; 0xe9; 0x7f; 0x64; 0xf9; 0x6b; 0x8c; 0xfc; 0x0e];
  [0xe5; 0xb5; 0x2b; 0xc9; 0x27; 0x46; 0x8d; 0xf7; 0x18; 0x93; 0xeb; 0x81; 0x97; 0xef; 0x82; 0x0c; 0xf7; 0x6c; 0xb0; 0xaa; 0xf6; 0xe8; 0xe4; 0xfe; 0x93; 0xad; 0x62; 0xd8; 0x03; 0x98; 0x31; 0x04];
  [0x05; 0x65; 0x41; 0xae; 0x5d; 0xa9; 0x96; 0x1b; 0xe2; 0xb0; 0xa5; 0xe8; 0x95; 0xe5; 0xc5; 0xba; 0x15; 0x3c; 0xbb; 0x62; 0xdd; 0x56; 0x1a; 0x42; 0x7b; 0xad; 0x0f; 0xfd; 0x41; 0x92; 0x31; 0x99];
  [0xf8; 0xfe; 0xf0; 0x5a; 0x3f; 0xa5; 0xc9; 0xf3; 0xeb; 0xa4; 0x16; 0x38; 0xb2; 0x47; 0xb7; 0x11; 0xa9; 0x9f; 0x96; 0x0f; 0xe7; 0x3a; 0xa2; 0xf9; 0x01; 0x36; 0xae; 0xb2; 0x03; 0x29; 0xb8; 0x88]].

Definition zero_commitments : list (Z * list Z) := [
  (0, [0x58; 0x66; 0x66; 0x66; 0x66; 0x66; 0x66; 0x66; 0x66; 0x66; 0x66; 0x66; 0x66; 0x66; 0x66; 0x66; 0x66; 0x66; 0x66; 0x66; 0x66; 0x66; 0x66; 0x66; 0x66; 0x66; 0x66; 0x66; 0x66; 0x66; 0x66; 0x66]);
  (1, [0x17; 0x38; 0xeb; 0x7a; 0x67; 0x7c; 0x61; 0x49; 0x22; 0x8a; 0x2b; 0xea; 0xa2; 0x1b; 0xea; 0x9e; 0x33; 0x70; 0x80; 0x2d; 0x72; 0xa3; 0xee; 0xc7; 0x90; 0x11; 0x95; 0x80; 0xe0; 0x2b; 0xd5; 0x22]);
  (2, [0x76; 0x24; 0x84; 0x63; 0x0a; 0x06; 0x17; 0x17; 0x8d; 0x0e; 0x33; 0xf3; 0x2e; 0x0e; 0x11; 0x3e; 0xa8; 0x46; 0x86; 0x9d; 0x46; 0x4b; 0x0b; 0x6f; 0xf1; 0x3b; 0x29; 0x97; 0x04; 0x9c; 0xda; 0x7d]);
  (3, [0xcf; 0xf7; 0x7b; 0x56; 0x62; 0x1c; 0x4f; 0xef; 0x74; 0xcf; 0x37; 0xc1; 0x78; 0xd4; 0xb5; 0x8a; 0xf4; 0xad; 0x8c; 0xd4; 0x35; 0xfc; 0xb9; 0x62; 0x76; 0xbc; 0x15; 0x9c; 0x7c; 0x6a; 0x28; 0x8c]);
  (4, [0x9a; 0xb8; 0x6c; 0x31; 0xf4; 0x22; 0xd8; 0x21; 0xb5; 0x22; 0x57; 0x30; 0xd1; 0xbf; 0x73; 0x0a; 0x9b; 0x91; 0xd2; 0xee; 0xe3; 0x14; 0xb8; 0x4e; 0xbd; 0x4b; 0x93; 0xa6; 0x81; 0x61; 0x82; 0x66]);
  (5, [0x32; 0xee; 0x2f; 0x65; 0x9a; 0xf6; 0x38; 0x58; 0xc2; 0xf7; 0xdc; 0x11; 0x1b; 0x3b; 0xb8; 0xfe; 0xc0; 0x2c; 0xac; 0x42; 0x38; 0x3b; 0xb7; 0x36; 0xde; 0x01; 0x08; 0x6f; 0x38; 0xf0; 0x12; 0x3c]);
  (6, [0x47; 0x26; 0x2b; 0x1e; 0xa6; 0x43; 0x01; 0x6e; 0x38; 0x24; 0x17; 0x53; 0xa4; 0xfb; 0x39; 0x92; 0x9e; 0x31; 0xea; 0x9b; 0xd3; 0x41; 0x1a; 0xb1; 0x7f; 0x16; 0x6e; 0x61; 0xf6; 0x0c; 0xe5; 0xa7]);
  (7, [0xc6; 0x32; 0x93; 0x68; 0x79; 0x9a; 0x0d; 0xed; 0x4c; 0x20; 0x25; 0x6b; 0xff; 0xe6; 0x45; 0x47; 0xf1; 0x7b; 0xc4; 0x23; 0x95; 0x04; 0xbe; 0x82; 0x4d; 0xff; 0x8a; 0x2b; 0xe1; 0xaf; 0xe3; 0xcd]);
  (8, [0xd5; 0xf1; 0x50; 0x74; 0x33; 0x46; 0x19; 0x0f; 0x84; 0x2b; 0x06; 0xb8; 0xfa; 0xe1; 0x20; 0xeb; 0x85; 0x24; 0x7e; 0x9f; 0x6d; 0xec; 0x88; 0xff; 0xa2; 0x23; 0xbf; 0x69; 0x94; 0xe9; 0xc8; 0xc2]);
  (9, [0x56; 0; 0x23; 0x32; 0x9e; 0xc0; 0xfa; 0xf3; 0x3b; 0x5e; 0x3a; 0x5c; 0xb4; 0xea; 0xef; 0xee; 0x38; 0xf8; 0x96; 0x1c; 0x88; 0xb6; 0x6a; 0x2f; 0x19; 0xd4; 0x59; 0x51; 0x96; 0x9c; 0x6d; 0x1f]);
  (10, [0x03; 0x80; 0xdc; 0x24; 0xcc; 0x97; 0xcc; 0xe6; 0x58; 0xc3; 0xa9; 0x47; 0xc5; 0x10; 0x25; 0xde; 0x1a; 0x69; 0x80; 0x3b; 0xdb; 0x50; 0x05; 0xe3; 0xb7; 0xdd; 0xa9; 0x0d; 0x68; 0x59; 0xb0; 0x1c]);
  (20, [0x09; 0x03; 0xf6; 0x2e; 0x97; 0x76; 0x47; 0x58; 0xfe; 0xf8; 0x9e; 0x5b; 0xec; 0x29; 0xef; 0x4f; 0xc5; 0xe6; 0x45; 0x4b; 0x2d; 0x47; 0x44; 0x47; 0x36; 0x04; 0x4c; 0x25; 0x2e; 0xe2; 0x8e; 0xba]);
  (30, [0xa2; 0x8b; 0x89; 0xe0; 0x0b; 0xed; 0x62; 0x31; 0x68; 0x5b; 0xf9; 0x74; 0x36; 0xf2; 0xba; 0x51; 0xa2; 0x51; 0x55; 0x7f; 0x8d; 0x17; 0x0a; 0x78; 0xe3; 0x12; 0xd6; 0x24; 0xbf; 0x60; 0xff; 0xfe]);
  (40, [0xb5; 0xc6; 0x95; 0x55; 0x6a; 0x28; 0x47; 0xb2; 0x0e; 0x1c; 0xbb; 0x26; 0xe6; 0xa9; 0xc6; 0x8a; 0x61; 0xc5; 0x50; 0xce; 0xb7; 0xc3; 0x04; 0xfe; 0x92; 0x28; 0x3d; 0x29; 0xa9; 0xb2; 0x43; 0xcb]);
  (50, [0x12; 0x8e; 0xc6; 0xcd; 0xc0; 0x6b; 0x43; 0xc5; 0xd0; 0x9c; 0x3f; 0x65; 0x2a; 0xe3; 0x44; 0x7f; 0x9b; 0x3f; 0x2c; 0x30; 0x91; 0x2d; 0xf0; 0x80; 0x37; 0; 0x85; 0xbc; 0x0c; 0x09; 0xef; 0x78]);
  (60, [0x1f; 0x9f; 0x40; 0x3a; 0xae; 0xa7; 0x16; 0xfb; 0xe2; 0x98; 0xa8; 0x14; 0xf1; 0xee; 0xbc; 0x1b; 0x73; 0x16; 0x8c; 0x37; 0xfa; 0xe3; 0x16; 0xeb; 0x65; 0x05; 0x81; 0x6f; 0xc2; 0x20; 0xeb; 0xfb]);
  (70, [0x10; 0xa2; 0x38; 0xc5; 0xe4; 0x8e; 0x4b; 0x93; 0x99; 0xdb; 0xa6; 0xcb; 0xd9; 0x8e; 0x63; 0x54; 0x41; 0x59; 0xe9; 0x8c; 0x93; 0x5a; 0xc0; 0x60; 0x3d; 0x72; 0xde; 0x0f; 0xff; 0x31; 0x53; 0xbb]);
  (80, [0x75; 0xab; 0x78; 0xc7; 0x28; 0x1f; 0x69; 0x28; 0xf0; 0x94; 0x86; 0x05; 0x7a; 0x63; 0x64; 0x18; 0x27; 0xc5; 0x74; 0x84; 0xe3; 0xe9; 0x9a; 0x39; 0xf3; 0x12; 0xa4; 0x3a; 0x51; 0x9b; 0xda; 0x08]);
  (90, [0xe9; 0x56; 0x7b; 0xa7; 0x88; 0xb8; 0x5b; 0x82; 0xc8; 0x65; 0x7a; 0x15; 0xa5; 0x48; 0x99; 0x5c; 0xf6; 0xb0; 0xbd; 0xd1; 0xc6; 0x2a; 0xda; 0x77; 0x55; 0xf2; 0x32; 0x3a; 0xd8; 0xa4; 0x08; 0x51]);
  (100, [0xb6; 0x17; 0x36; 0xd5; 0xf2; 0x8d; 0xef; 0x28; 0x61; 0x6a; 0xfc; 0x47; 0x93; 0xe9; 0x9b; 0x27; 0xcd; 0x3e; 0x89; 0xfb; 0x91; 0xc1; 0x13; 0xd4; 0x30; 0x73; 0x65; 0xfb; 0x75; 0xde; 0xdf; 0x88]);
  (200, [0x71; 0x03; 0xeb; 0x72; 0x19; 0x28; 0xd7; 0x91; 0x99; 0x87; 0xf3; 0x50; 0xca; 0xa5; 0x7a; 0xe7; 0xb0; 0x81; 0x57; 0x15; 0x3b; 0x4c; 0x43; 0x0d; 0x3e; 0xde; 0xc0; 0xc2; 0x03; 0x07; 0x97; 0x44]);
  (300, [0x24; 0x40; 0x9e; 0x92; 0x2e; 0xce; 0xd1; 0xa0; 0x5e; 0x4e; 0xac; 0xa3; 0xdf; 0x91; 0x19; 0xc3; 0x8a; 0x92; 0x2e; 0x0b; 0x66; 0xd0; 0x2d; 0x9d; 0xd2; 0xfb; 0x1d; 0xcc; 0x20; 0xb9; 0xaf; 0xc7]);
  (400, [0xa7; 0x72; 0x9f; 0xa9; 0x32; 0x81; 0x82; 0x99; 0x34; 0x11; 0x5d; 0x47; 0x5a; 0x67; 0x86; 0x0a; 0x14; 0x12; 0xc5; 0xe5; 0x95; 0x12; 0x20; 0xd9; 0x60; 0xc2; 0x41; 0xa0; 0x19; 0x1a; 0x9e; 0x65]);
  (500, [0x2e; 0x53; 0x0c; 0x06; 0x1c; 0x6d; 0x9e; 0x97; 0xab; 0xaf; 0x46; 0x8c; 0x32; 0xb0; 0xad; 0xa7; 0x49; 0x22; 0x57; 0x72; 0xfc; 0xd1; 0x17; 0x41; 0xcb; 0x5c; 0x03; 0x5c; 0xdd; 0x26; 0x14; 0x0e]);
  (600, [0xa5; 0x0b; 0x91; 0x09; 0x9d; 0xf1; 0xb1; 0x69; 0x4f; 0x30; 0xb5; 0x8f; 0xe6; 0x77; 0x68; 0x50; 0xdb; 0xdb; 0xf4; 0x6c; 0xed; 0x99; 0x7f; 0x52; 0x62; 0xa8; 0x51; 0x59; 0x40; 0x74; 0xa5; 0x9d]);
  (700, [0x51; 0x2c; 0x0f; 0xae; 0xcc; 0xbe; 0xf2; 0xfe; 0xe5; 0x75; 0x4c; 0x6a; 0x45; 0xfd; 0xc0; 0x75; 0x2d; 0x4f; 0x15; 0x22; 0xe7; 0x7f; 0xf0; 0xc4; 0x8d; 0xcb; 0x19; 0x91; 0x8a; 0x68; 0x84; 0xe0]);
  (800, [0xda; 0xa9; 0xf9; 0xa5; 0xb9; 0x71; 0x33; 0x33; 0xe9; 0x8c; 0x05; 0xac; 0xe7; 0x27; 0xcc; 0x0e; 0x7d; 0xc3; 0xf1; 0x59; 0x49; 0xe1; 0xef; 0x4d; 0x94; 0xfa; 0x47; 0xd6; 0x8a; 0x34; 0xc6; 0x75]);
  (900, [0xc7; 0x2b; 0x18; 0xc9; 0x17; 0xcd; 0x43; 0xee; 0x78; 0x40; 0x5e; 0x39; 0x83; 0x98; 0xb8; 0x3a; 0xc0; 0x97; 0x7b; 0x25; 0x19; 0x90; 0xd8; 0x13; 0x0c; 0x38; 0xba; 0x53; 0xb6; 0x3d; 0xb4; 0xf7]);
  (1000, [0x01; 0xdf; 0x60; 0x91; 0xeb; 0x6a; 0x48; 0xe9; 0xe4; 0x22; 0x25; 0x0b; 0xe3; 0x83; 0x88; 0xc8; 0x61; 0xb6; 0x55; 0x55; 0xa7; 0x20; 0xad; 0x15; 0x35; 0x86; 0xfe; 0x2b; 0xd2; 0x2f; 0xa2; 0x3d]);
  (2000, [0x24; 0xf5; 0xb1; 0x34; 0x78; 0x46; 0xaf; 0x22; 0xb5; 0x6f; 0x41; 0x25; 0xb3; 0xe7; 0x67; 0x8c; 0xf8; 0x4b; 0x4f; 0xd2; 0xf9; 0x2e; 0x1c; 0x40; 0xaa; 0x3a; 0x1b; 0xe0; 0xc7; 0x4d; 0x95; 0xe6]);
  (3000, [0xa7; 0x1c; 0x9a; 0x8f; 0x40; 0xc1; 0x25; 0x9c; 0x36; 0x26; 0x27; 0x73; 0xe0; 0x08; 0x20; 0x18; 0x3e; 0x6b; 0x59; 0xe0; 0x71; 0xc9; 0x9b; 0x34; 0x9b; 0xef; 0x8f; 0x7e; 0xd2; 0xc6; 0xad; 0xb9]);
  (4000, [0x98; 0xdc; 0x74; 0xaf; 0x19; 0x89; 0xd3; 0x4b; 0x64; 0x2e; 0xb3; 0x06; 0x2d; 0xbc; 0x9d; 0xca; 0xd8; 0x01; 0xc5; 0x65; 0x27; 0x06; 0x93; 0x99; 0xe7; 0xc4; 0x11; 0xad; 0x14; 0x28; 0x82; 0xf6]);
  (5000, [0x61; 0x76; 0xac; 0x4a; 0xc0; 0x06; 0x5e; 0x49; 0xd6; 0xc4; 0x41; 0xcf; 0x40; 0x4f; 0xad; 0xda; 0xad; 0x44; 0x93; 0x0e; 0xf0; 0x3c; 0x68; 0x09; 0xad; 0xd7; 0x77; 0xe4; 0x2f; 0xee; 0x7f; 0x10]);
  (6000, [0x78; 0x79; 0x04; 0x65; 0xf6; 0x60; 0x5b; 0x5a; 0x84; 0x77; 0x36; 0x5a; 0xa6; 0xc2; 0xa4; 0xa5; 0x84; 0x91; 0x0c; 0x23; 0x95; 0x02; 0x92; 0x97; 0x52; 0x49; 0xa1; 0xad; 0x7d; 0xf0; 0xf7; 0xe8]);
  (7000, [0x20; 0xa5; 0x60; 0x6b; 0x60; 0x23; 0x95; 0xd6; 0x8e; 0x2f; 0xad; 0x8e; 0xc6; 0x7f; 0x92; 0xde; 0x89; 0xc6; 0x3e; 0x1e; 0x7f; 0xc1; 0xdd; 0x7f; 0x92; 0xff; 0xed; 0xb8; 0xf6; 0x55; 0xfb; 0x0d]);
  (8000, [0x9a; 0x78; 0x97; 0x43; 0x98; 0x65; 0x17; 0xd9; 0x5f; 0x4e; 0x80; 0x8b; 0xeb; 0xe6; 0x52; 0x0d; 0xe6; 0xcf; 0x8c; 0x51; 0x35; 0xab; 0x36; 0x08; 0x7e; 0x87; 0xe2; 0x76; 0xac; 0x6a; 0x34; 0x01]);
  (9000, [0x5f; 0xc7; 0xaa; 0x48; 0xbb; 0x19; 0x13; 0x58; 0xc7; 0xe3; 0x4d; 0x24; 0xcf; 0x9c; 0x31; 0x16; 0x74; 0x12; 0x7a; 0xb2; 0x45; 0xd0; 0x8f; 0x4e; 0x2c; 0xfd; 0xbf; 0x8f; 0x05; 0xc9; 0x5b; 0xf5]);
  (10000, [0x61; 0x20; 0xe7; 0x76; 0xe9; 0x12; 0xab; 0x10; 0x5a; 0x49; 0xf9; 0xda; 0x02; 0xa6; 0x75; 0x17; 0xc0; 0xa9; 0x0b; 0x2b; 0x3e; 0x2d; 0xa3; 0x0d; 0xff; 0x34; 0x39; 0x93; 0xdb; 0xec; 0x95; 0x97]);
  (20000, [0x77; 0xbf; 0xb5; 0x37; 0xac; 0x0a; 0xbc; 0x41; 0xaa; 0x21; 0xd0; 0xec; 0xd9; 0x18; 0x13; 0x34; 0xd8; 0x6b; 0xa7; 0x86; 0x5a; 0x94; 0x47; 0xf5; 0xc1; 0x58; 0x9a; 0x81; 0xd7; 0xef; 0xb3; 0xbb]);
  (30000, [0x35; 0xf4; 0x05; 0xa9; 0x5f; 0x75; 0x19; 0x2a; 0xe9; 0xc0; 0xd4; 0xf5; 0x88; 0x84; 0x47; 0x14; 0xf6; 0x85; 0x1b; 0x97; 0xce; 0xbd; 0x9f; 0x7c; 0x02; 0xc5; 0xdd; 0xd7; 0xbf; 0x58; 0xff; 0x31]);
  (40000, [0x77; 0x55; 0xbb; 0x3f; 0x38; 0x7c; 0x21; 0xb8; 0xa0; 0xf4; 0x48; 0x1f; 0xbf; 0xa8; 0x8a; 0xbe; 0xee; 0xce; 0xc7; 0x56; 0x53; 0xfc; 0xa1; 0x89; 0x58; 0x39; 0xc1; 0xba; 0x06; 0x47; 0x9f; 0x96]);
  (50000, [0x8b; 0x7e; 0x84; 0xa3; 0x37; 0xb7; 0xb9; 0xcd; 0x5d; 0xb3; 0x63; 0x33; 0x08; 0xad; 0x51; 0x86; 0xa3; 0x59; 0x0d; 0xff; 0xb8; 0x23; 0x1e; 0x2f; 0x31; 0xfd; 0x20; 0x42; 0x54; 0x9f; 0xfb; 0xe2]);
  (60000, [0xef; 0xfd; 0xa6; 0x25; 0x15; 0xea; 0xb1; 0xbc; 0x1e; 0xbd; 0x74; 0x92; 0x94; 0x9b; 0x01; 0x22; 0xc3; 0x9f; 0x71; 0x0a; 0x65; 0x16; 0xec; 0x66; 0x8c; 0x37; 0x61; 0xe6; 0xcc; 0x36; 0x1f; 0x25]);
  (70000, [0x16; 0xba; 0x89; 0; 0xf3; 0x6f; 0x0f; 0x6c; 0x46; 0x1c; 0x0b; 0xe7; 0x64; 0xae; 0xee; 0x48; 0x86; 0x06; 0xb0; 0x53; 0xed; 0xdc; 0x10; 0xb5; 0x9a; 0x3e; 0xde; 0xcd; 0x23; 0xd4; 0x4f; 0xc0]);
  (80000, [0x4d; 0xd4; 0x70; 0x3b; 0x7b; 0x7f; 0xcf; 0xe7; 0x2a; 0x2e; 0x4f; 0x31; 0xa4; 0x34; 0x17; 0xf9; 0xc0; 0xda; 0x64; 0x2f; 0xd0; 0xa9; 0x29; 0xb8; 0xf5; 0xed; 0xd8; 0x03; 0x7f; 0x93; 0xc5; 0xb3]);
  (90000, [0x8e; 0xfc; 0x03; 0x20; 0x40; 0xbd; 0x90; 0x41; 0xda; 0x3d; 0xb0; 0x9b; 0xa1; 0x3d; 0xa2; 0xa5; 0xd1; 0xb8; 0x12; 0x03; 0x0a; 0x5a; 0x36; 0x7c; 0x58; 0x94; 0xbd; 0x54; 0x11; 0x09; 0xe7; 0x30]);
  (100000, [0xbd; 0x2e; 0xb1; 0x97; 0x83; 0x57; 0x1c; 0xf2; 0x22; 0x2c; 0x81; 0x0b; 0x69; 0x0f; 0xc7; 0x66; 0x64; 0x57; 0xae; 0x20; 0x92; 0x5b; 0x90; 0x05; 0xce; 0xe6; 0x1d; 0xf2; 0x66; 0x6f; 0xdc; 0xb7]);
  (200000, [0x83; 0xd4; 0xcd; 0xdd; 0xc1; 0x44; 0x87; 0x32; 0xf2; 0x97; 0x7c; 0x41; 0xaa; 0xa7; 0x1f; 0xe6; 0xde; 0x9c; 0x17; 0x6d; 0xa8; 0x99; 0xee; 0xbf; 0xfc; 0x1b; 0x0b; 0xa9; 0xea; 0x92; 0x97; 0x90]);
  (300000, [0xcc; 0xc0; 0x6b; 0x44; 0xc3; 0x01; 0x38; 0x06; 0x30; 0x45; 0xed; 0x01; 0xd2; 0x45; 0xd8; 0x14; 0x03; 0xb6; 0x36; 0x52; 0xeb; 0xc4; 0xf9; 0x96; 0x7f; 0x0d; 0x7f; 0x38; 0x69; 0x7f; 0x46; 0x16]);
  (400000, [0x1b; 0xbf; 0xe7; 0x0e; 0xca; 0xf1; 0xdd; 0xd7; 0xf1; 0x02; 0x36; 0xf6; 0x8a; 0x41; 0; 0x0b; 0x5d; 0xab; 0x2d; 0x47; 0x5c; 0xb9; 0x2f; 0x62; 0xc2; 0xd6; 0x84; 0xcf; 0x57; 0x69; 0xfb; 0x84]);
  (500000, [0xf1; 0xb1; 0xcd; 0xaa; 0x78; 0x14; 0x95; 0x36; 0x0f; 0x53; 0x31; 0x81; 0xaa; 0x58; 0xc8; 0xbd; 0xae; 0x6a; 0x77; 0x98; 0xd0; 0x2d; 0xab; 0x6d; 0x56; 0x26; 0x81; 0x27; 0x67; 0x09; 0xe7; 0x01]);
  (600000, [0xd5; 0x26; 0x7d; 0x60; 0xd4; 0xfe; 0x9b; 0xc5; 0xfe; 0xfa; 0x7d; 0x3f; 0xe0; 0x7c; 0xd1; 0xfa; 0xd4; 0x55; 0x73; 0xd5; 0xae; 0x19; 0x10; 0xda; 0x07; 0x3e; 0x6d; 0x2d; 0xf9; 0xe2; 0x04; 0x39]);
  (700000, [0x0b; 0x58; 0x11; 0x25; 0xc2; 0xc4; 0x83; 0xc9; 0xa3; 0xd8; 0xbc; 0x08; 0x32; 0x2f; 0x26; 0xaa; 0x1f; 0xc5; 0x0e; 0x41; 0x53; 0x2c; 0x1b; 0x9d; 0xf6; 0x26; 0xb0; 0x09; 0xd7; 0x88; 0x67; 0xcf]);
  (800000, [0xf5; 0xb3; 0xd1; 0x8f; 0x66; 0xd0; 0xf9; 0x17; 0x5c; 0x30; 0x83; 0xb5; 0xf8; 0x07; 0x8e; 0xaf; 0xa8; 0x9e; 0xf8; 0x1d; 0xe7; 0x15; 0x08; 0xbc; 0x25; 0x1f; 0x5c; 0x5f; 0xe7; 0x25; 0x2e; 0x06]);
  (900000, [0x01; 0xde; 0x40; 0x2c; 0x4b; 0; 0x43; 0x04; 0x2e; 0xae; 0x9e; 0xde; 0xa1; 0x49; 0x2b; 0x9d; 0x82; 0xb7; 0xbc; 0x36; 0x68; 0xe9; 0xb5; 0x84; 0xb0; 0x31; 0x3d; 0x44; 0x50; 0x53; 0x40; 0x74]);
  (1000000, [0x53; 0x4b; 0x85; 0xc7; 0x89; 0x3f; 0x66; 0xf0; 0x26; 0xb6; 0x5e; 0xd7; 0xe7; 0xa4; 0xb8; 0xc9; 0xf4; 0x0b; 0xe3; 0x1b; 0xcd; 0x0a; 0x3d; 0xcd; 0x27; 0xc4; 0x71; 0x02; 0x56; 0x51; 0x65; 0x03]);
  (2000000, [0xcd; 0xb5; 0xda; 0xfa; 0x53; 0x10; 0xf5; 0x26; 0x2f; 0xfc; 0x09; 0x26; 0xd0; 0xdf; 0x6e; 0xeb; 0xee; 0x2d; 0x52; 0xa9; 0x8d; 0xc6; 0x9f; 0x0d; 0xc5; 0xe4; 0xeb; 0xf0; 0xc1; 0xa8; 0x77; 0x2e]);
  (3000000, [0x9e; 0x75; 0x63; 0xf0; 0x33; 0x59; 0xea; 0x31; 0xe2; 0x91; 0xe7; 0xf0; 0xb8; 0x74; 0x17; 0xbc; 0xf5; 0xb2; 0x34; 0xee; 0x8b; 0x7e; 0x5b; 0x04; 0x41; 0x73; 0xbf; 0; 0x46; 0x86; 0x7c; 0x57]);
  (4000000, [0xfd; 0x2a; 0xeb; 0x0d; 0x5e; 0xe5; 0x3b; 0x77; 0xf2; 0xb1; 0xe3; 0xac; 0x75; 0x2d; 0x19; 0x38; 0x9f; 0xc5; 0xba; 0xa0; 0xf8; 0xd7; 0x64; 0x48; 0xa5; 0x9f; 0x99; 0x85; 0xa4; 0x8d; 0x0a; 0x25]);
  (5000000, [0xc0; 0xbe; 0x4f; 0xb8; 0x77; 0xb9; 0xce; 0x50; 0x87; 0x71; 0x32; 0x3b; 0xcf; 0x1f; 0xb9; 0x48; 0x47; 0x10; 0xee; 0x23; 0x02; 0; 0x06; 0xc3; 0xe8; 0xca; 0xac; 0x6e; 0x4f; 0x02; 0xfa; 0xbf]);
  (6000000, [0xfc; 0x44; 0x5c; 0xa3; 0x84; 0xf3; 0x3e; 0x55; 0x8d; 0xc1; 0x56; 0x44; 0x9d; 0x3f; 0xba; 0x6a; 0xfd; 0x54; 0xc3; 0x42; 0xe6; 0x35; 0x11; 0x0f; 0xe7; 0x9c; 0x16; 0xc7; 0x17; 0xf7; 0xd4; 0xf7]);
  (7000000, [0xd8; 0x09; 0x2b; 0x8d; 0x45; 0xdb; 0x54; 0xa5; 0x6d; 0x64; 0xe8; 0x09; 0x4a; 0x06; 0x22; 0xe2; 0x6e; 0x8a; 0x2e; 0xec; 0xb9; 0x03; 0xb2; 0xe1; 0xf7; 0x5a; 0x83; 0x7b; 0x3a; 0xd8; 0x55; 0x4a]);
  (8000000, [0x10; 0x04; 0x5c; 0x91; 0xdb; 0xad; 0x8a; 0x6a; 0x81; 0x62; 0x4a; 0xe0; 0xcf; 0x20; 0x5d; 0xb9; 0x97; 0x3e; 0xe8; 0x42; 0x3e; 0x97; 0xaf; 0x58; 0xa6; 0x1c; 0xfa; 0x7a; 0x78; 0x66; 0xf4; 0x01]);
  (9000000, [0x11; 0x5c; 0x20; 0x9e; 0xe1; 0xde; 0xf3; 0x10; 0xce; 0xc9; 0xa6; 0xd1; 0x6c; 0xe6; 0x27; 0xec; 0xbd; 0xb9; 0xff; 0x2c; 0x23; 0x09; 0x3c; 0x24; 0xc8; 0x6c; 0x1b; 0xf2; 0x50; 0xd4; 0xb5; 0x85]);
  (10000000, [0x2f; 0x99; 0xd9; 0x74; 0x44; 0x18; 0x66; 0x09; 0x49; 0xba; 0x43; 0x35; 0x61; 0xc6; 0x05; 0xb6; 0xf7; 0xbe; 0x8f; 0x82; 0x0a; 0x93; 0xcb; 0x2a; 0xed; 0xa9; 0x7c; 0x87; 0x32; 0x92; 0x56; 0x49]);
  (20000000, [0xc6; 0x77; 0x1f; 0xab; 0x14; 0x0b; 0x75; 0xf4; 0xef; 0xd0; 0x97; 0xfc; 0xe1; 0x82; 0x6b; 0x80; 0xba; 0xe3; 0x16; 0xbc; 0xec; 0x28; 0x86; 0x9b; 0x3a; 0x1b; 0xf1; 0xbc; 0x6e; 0x4d; 0x20; 0x43]);
  (30000000, [0xa1; 0xe9; 0xed; 0x3e; 0xf6; 0x5a; 0x9d; 0x52; 0x6c; 0xc2; 0x62; 0x05; 0x88; 0x12; 0x01; 0xd8; 0xa8; 0xf2; 0xc4; 0x40; 0x9f; 0xa3; 0x64; 0x10; 0x72; 0x96; 0xb9; 0xf9; 0x6a; 0x61; 0xb3; 0x58]);
  (40000000, [0xb5; 0x31; 0x2d; 0xc7; 0x72; 0x94; 0xab; 0x9b; 0xc8; 0xbf; 0xd1; 0x39; 0x1e; 0x9a; 0xca; 0x92; 0x45; 0xe2; 0x28; 0xf7; 0x4b; 0x49; 0x74; 0xfc; 0x29; 0xad; 0x1c; 0x31; 0xcb; 0xe3; 0xe6; 0xa3]);
  (50000000, [0xb8; 0xab; 0xc9; 0xff; 0xf6; 0x84; 0x1d; 0x2e; 0xa0; 0x13; 0x5a; 0x21; 0x72; 0xd3; 0xa7; 0x0b; 0xfc; 0x2b; 0x70; 0x22; 0x08; 0xcd; 0x4a; 0x43; 0xc6; 0x30; 0xbe; 0xb1; 0xb8; 0xa0; 0x32; 0x8b]);
  (60000000, [0x63; 0x90; 0xe1; 0xdb; 0x81; 0xb0; 0xea; 0x5c; 0xe2; 0x73; 0x94; 0x14; 0xe5; 0x2b; 0x07; 0x98; 0xd8; 0x2e; 0xb8; 0xe9; 0xae; 0xc5; 0x6d; 0xfe; 0x7e; 0x2c; 0x64; 0x11; 0xab; 0x79; 0x41; 0x87]);
  (70000000, [0x7e; 0x51; 0xaf; 0xee; 0x5b; 0xc9; 0x71; 0x52; 0x9d; 0x64; 0x4d; 0xcd; 0x7f; 0x2a; 0x2a; 0xb0; 0x26; 0x69; 0xce; 0x2c; 0xb5; 0x07; 0xa6; 0x2d; 0xfc; 0x93; 0x17; 0x6c; 0xb6; 0xdf; 0x41; 0x38]);
  (80000000, [0xf3; 0x7b; 0x94; 0x6b; 0x8b; 0x24; 0x88; 0xeb; 0xee; 0x1c; 0x06; 0xc1; 0x27; 0xfb; 0xe5; 0xfa; 0x5e; 0xfd; 0x62; 0x36; 0x9d; 0xd5; 0xaa; 0xda; 0xed; 0xd8; 0x88; 0x50; 0x1d; 0x3b; 0x7e; 0x3b]);
  (90000000, [0x46; 0xcb; 0x76; 0x57; 0xf6; 0x1c; 0x83; 0x7c; 0xec; 0x80; 0x74; 0xbb; 0xb0; 0xf5; 0x2e; 0x7f; 0xc5; 0x9a; 0x0d; 0x94; 0xe0; 0x17; 0; 0x9a; 0xbe; 0x25; 0x65; 0x2e; 0x4a; 0xd2; 0xe5; 0x3d]);
  (100000000, [0x66; 0x7b; 0x8e; 0x6f; 0x6a; 0x4b; 0x91; 0x89; 0x76; 0xd9; 0x73; 0x5a; 0x43; 0x36; 0x7d; 0xc7; 0x59; 0x2c; 0x87; 0xd0; 0xa1; 0xf8; 0x15; 0xc6; 0xe8; 0x7d; 0xf1; 0x1a; 0x13; 0x50; 0x9f; 0xb2]);
  (200000000, [0x3b; 0xcb; 0x51; 0x48; 0x01; 0x64; 0x1b; 0x62; 0x55; 0x93; 0x8c; 0xc5; 0x03; 0x76; 0x2d; 0x35; 0xce; 0x06; 0xd7; 0x5f; 0xe9; 0x50; 0x95; 0x9a; 0x1a; 0xab; 0x21; 0x4b; 0x50; 0x9b; 0x10; 0x0b]);
  (300000000, [0xa5; 0x92; 0x6f; 0x03; 0x1e; 0x6b; 0x15; 0xeb; 0x86; 0x23; 0x51; 0x08; 0xab; 0xb1; 0xaf; 0x90; 0xc5; 0xb1; 0x62; 0xc3; 0x99; 0x8c; 0x8b; 0xbb; 0x3f; 0xfb; 0xb0; 0x72; 0x9d; 0xa9; 0x45; 0x7b]);
  (400000000, [0xfe; 0x35; 0xb6; 0x99; 0x44; 0x41; 0x0e; 0xaf; 0x81; 0x5b; 0xdc; 0xd0; 0xa4; 0xd7; 0x1e; 0xf9; 0xfc; 0x66; 0x86; 0x48; 0xad; 0x43; 0x74; 0x3b; 0x03; 0x5a; 0xed; 0x2c; 0x17; 0xc1; 0x38; 0x7a]);
  (500000000, [0x22; 0x22; 0xd6; 0x70; 0xb8; 0x7d; 0x9b; 0x47; 0xb8; 0xb9; 0x5c; 0x8c; 0x39; 0x7b; 0xc5; 0x2e; 0x2b; 0x46; 0xa6; 0x48; 0xb0; 0x02; 0xa0; 0x48; 0x5a; 0x37; 0x5c; 0xd8; 0x1f; 0x4a; 0x54; 0x5f]);
  (600000000, [0xd3; 0x23; 0x8a; 0x4a; 0x8b; 0x71; 0xab; 0x46; 0xd1; 0x53; 0x04; 0xac; 0xfa; 0x2f; 0x40; 0xbf; 0x5e; 0xa6; 0x3b; 0x3d; 0x86; 0x4a; 0x79; 0xfa; 0x84; 0x25; 0xd2; 0x65; 0x5a; 0xe7; 0x07; 0x6f]);
  (700000000, [0xa8; 0xff; 0x28; 0x3f; 0xcf; 0xf0; 0x53; 0xd3; 0x44; 0xc8; 0xf7; 0x56; 0x4f; 0x40; 0x24; 0xb6; 0x6b; 0xfa; 0x45; 0x9f; 0x47; 0x6f; 0x0d; 0x73; 0x0c; 0x91; 0x39; 0x90; 0x8b; 0x2d; 0x64; 0x7e]);
  (800000000, [0xf2; 0xda; 0xf8; 0x88; 0xc4; 0x46; 0x57; 0x01; 0xc0; 0xe6; 0x1e; 0x12; 0xc3; 0xfb; 0xd4; 0xea; 0x79; 0xc7; 0xec; 0xb4; 0xf0; 0xc4; 0xb1; 0x54; 0xc5; 0x1a; 0x24; 0xd1; 0xe9; 0x21; 0x28; 0xba]);
  (900000000, [0x11; 0x6a; 0xe5; 0xd2; 0x9c; 0xec; 0x72; 0xaa; 0xc5; 0x57; 0xcb; 0x14; 0xe2; 0xcd; 0xd5; 0x53; 0xe5; 0x88; 0xff; 0x8b; 0x81; 0x78; 0x26; 0x01; 0x99; 0xc4; 0x0c; 0xae; 0xa2; 0x12; 0xcb; 0x63]);
  (1000000000, [0x8c; 0xe6; 0x48; 0x33; 0xce; 0xc9; 0; 0xcb; 0x6d; 0x5a; 0xc4; 0x6f; 0xc0; 0x23; 0x7d; 0x8f; 0x24; 0x39; 0xc3; 0xdf; 0xa2; 0x38; 0xba; 0xf9; 0xcc; 0x94; 0x16; 0x6a; 0xd2; 0xe8; 0x98; 0x87]);
  (2000000000, [0x37; 0x8d; 0x3c; 0x5d; 0xbb; 0xa4; 0x82; 0x3d; 0x33; 0x12; 0xbb; 0x61; 0xfc; 0x06; 0x75; 0xa1; 0xbb; 0x39; 0x89; 0xf3; 0x97; 0x01; 0xeb; 0x0d; 0x5c; 0xe4; 0xde; 0x5b; 0x0d; 0x90; 0x74; 0x72]);
  (3000000000, [0x7f; 0xa2; 0xd0; 0xa5; 0x99; 0xe7; 0x97; 0x2e; 0x74; 0xcb; 0x75; 0xf9; 0x8a; 0xf4; 0x84; 0xfc; 0x85; 0x19; 0xcb; 0x7e; 0x25; 0xb9; 0x84; 0xa7; 0x6d; 0x8b; 0xc2; 0xba; 0x8d; 0xaf; 0xde; 0xd8]);
  (4000000000, [0xda; 0x3a; 0xcb; 0; 0xab; 0x2d; 0x8d; 0xcc; 0xac; 0xec; 0x8f; 0x77; 0x59; 0x21; 0xc4; 0x0e; 0x26; 0xb1; 0xff; 0xbe; 0xca; 0x9e; 0xb7; 0xe6; 0x57; 0x25; 0x6f; 0x59; 0x68; 0xf2; 0x34; 0x1c]);
  (5000000000, [0x34; 0x06; 0xd7; 0x9a; 0x50; 0xd8; 0x14; 0xa9; 0xcc; 0xed; 0x3b; 0x24; 0x04; 0xed; 0x3e; 0x1b; 0x8d; 0xa6; 0x21; 0x98; 0x8c; 0x43; 0xb1; 0x93; 0x69; 0x42; 0xf4; 0x94; 0x0a; 0xc5; 0xbf; 0x6a]);
  (6000000000, [0xf8; 0x3e; 0xe8; 0xc1; 0x62; 0xfc; 0x52; 0xa0; 0x08; 0x9f; 0x46; 0xe8; 0x29; 0xc2; 0xea; 0xf6; 0xa1; 0x9f; 0xd5; 0x96; 0xcd; 0x12; 0xb3; 0xe8; 0x19; 0xd5; 0x67; 0x69; 0x44; 0x0f; 0x7b; 0x4e]);
  (7000000000, [0x8c; 0x72; 0x7d; 0x24; 0x57; 0xf3; 0x4b; 0x2f; 0xdb; 0x6a; 0xdf; 0x69; 0x1a; 0xb3; 0x5f; 0xaa; 0xe4; 0xff; 0x23; 0x4c; 0x28; 0xb4; 0x4e; 0x9f; 0xd3; 0x71; 0x8e; 0xef; 0xec; 0x41; 0x75; 0x80]);
  (8000000000, [0x4a; 0x2e; 0x2f; 0x76; 0xe3; 0x5d; 0xcb; 0xa8; 0x97; 0xa3; 0xae; 0x72; 0xc4; 0x27; 0x0d; 0x9c; 0x13; 0x17; 0x14; 0xed; 0x19; 0x1b; 0x55; 0x5c; 0x5e; 0x01; 0xe4; 0x75; 0x7c; 0xba; 0xe7; 0x2c]);
  (9000000000, [0x3f; 0x9f; 0x0c; 0x04; 0xc0; 0xb9; 0xec; 0x9b; 0x4d; 0x11; 0x7c; 0x5f; 0xc9; 0xf1; 0x8a; 0x20; 0xf2; 0xb3; 0xfa; 0xcc; 0xa4; 0xc8; 0xae; 0x41; 0xaf; 0x7c; 0x08; 0xe9; 0xe0; 0xef; 0xb9; 0x81]);
  (10000000000, [0x97; 0xc9; 0x2a; 0x29; 0x01; 0x5e; 0xcb; 0x49; 0xf8; 0x09; 0x05; 0x45; 0xe0; 0x1f; 0xf9; 0x78; 0x6c; 0xae; 0x40; 0x57; 0x73; 0x47; 0x61; 0x18; 0x24; 0xf4; 0xb6; 0x59; 0x9f; 0xf5; 0xd3; 0x64]);
  (20000000000, [0x09; 0xba; 0xed; 0x9a; 0x3c; 0x44; 0xb2; 0x22; 0x85; 0xa0; 0xae; 0xa4; 0x14; 0x8c; 0xa7; 0xde; 0x9b; 0xea; 0x96; 0x3c; 0xf6; 0x96; 0x23; 0xb6; 0x83; 0x44; 0x5c; 0x0a; 0x10; 0xa5; 0x86; 0x77]);
  (30000000000, [0x45; 0xac; 0xaf; 0x1d; 0xe2; 0x89; 0x6d; 0xe8; 0x72; 0x84; 0xff; 0xed; 0x57; 0x8b; 0x77; 0x14; 0xf5; 0x18; 0xa6; 0x18; 0xe2; 0xae; 0x6f; 0x90; 0xae; 0x4f; 0x70; 0x13; 0xa2; 0x8e; 0x99; 0xe0]);
  (40000000000, [0x08; 0xb8; 0x47; 0x36; 0x42; 0x24; 0xe2; 0x9c; 0xe3; 0x36; 0x63; 0x93; 0xc2; 0xe1; 0x1e; 0xfc; 0x75; 0x55; 0xde; 0xe1; 0xa0; 0x5f; 0x91; 0xa7; 0x2e; 0x61; 0x11; 0x76; 0x84; 0xdd; 0xbe; 0x29]);
  (50000000000, [0x6c; 0x8e; 0x0e; 0x4a; 0x63; 0x4f; 0x85; 0x9a; 0x31; 0xab; 0x2f; 0x7a; 0x78; 0xc0; 0xc4; 0xa5; 0x93; 0x8c; 0xb7; 0x7f; 0x03; 0x35; 0x50; 0xa4; 0x7d; 0x7e; 0x31; 0x81; 0xb6; 0xb2; 0x6e; 0xc0]);
  (60000000000, [0x66; 0xc2; 0xa0; 0x09; 0x65; 0xf9; 0xbf; 0xcb; 0xb1; 0x1e; 0xa0; 0x3c; 0xf1; 0xd6; 0x31; 0xb0; 0x0e; 0x8a; 0x1e; 0xf7; 0xa6; 0x0b; 0x1b; 0xe4; 0xa5; 0xac; 0x09; 0x23; 0x0b; 0xf8; 0x17; 0x3f]);
  (70000000000, [0x63; 0x51; 0xd7; 0x74; 0xc0; 0x2c; 0x5a; 0x9d; 0xee; 0xcf; 0xdb; 0xab; 0x70; 0x96; 0x68; 0x59; 0x8c; 0x47; 0xe4; 0xb1; 0x78; 0x2c; 0xe5; 0xae; 0x31; 0x6a; 0xf7; 0x40; 0xa6; 0x6f; 0x7e; 0x30]);
  (80000000000, [0x5a; 0xcc; 0xfd; 0x16; 0x22; 0x79; 0xa5; 0x1c; 0x8b; 0x3b; 0xd5; 0xd3; 0x67; 0x9e; 0x91; 0x89; 0x67; 0xa2; 0x64; 0xea; 0x06; 0x3d; 0x37; 0xdf; 0xf5; 0xe3; 0x45; 0x7e; 0xc3; 0x07; 0xd4; 0x57]);
  (90000000000, [0xb7; 0x47; 0xfc; 0x01; 0xc6; 0xf0; 0xc7; 0x49; 0x67; 0x3a; 0x29; 0x10; 0x25; 0x0c; 0x2e; 0x23; 0xcb; 0x38; 0x27; 0x4d; 0x63; 0xb4; 0x2f; 0x52; 0x1b; 0x84; 0x63; 0x56; 0xe4; 0x13; 0x61; 0x8f]);
  (100000000000, [0x09; 0x42; 0x84; 0x3d; 0x6f; 0x69; 0xe1; 0xcf; 0x3d; 0x99; 0xc9; 0x9f; 0x0c; 0x97; 0xc0; 0xe6; 0xe5; 0x78; 0x93; 0x5a; 0xf6; 0xa8; 0xbd; 0xb8; 0xf8; 0x1d; 0x5b; 0x90; 0xbd; 0xe7; 0xcc; 0x10]);
  (200000000000, [0x56; 0x4c; 0x64; 0xea; 0x50; 0xe4; 0xbd; 0x20; 0xdb; 0x58; 0x5d; 0xb5; 0x87; 0xb1; 0xf7; 0x64; 0xa2; 0x62; 0xd8; 0x46; 0xa6; 0xb0; 0xa2; 0x4b; 0x43; 0x27; 0x60; 0xd2; 0xf9; 0xde; 0x66; 0x5b]);
  (300000000000, [0xac; 0x65; 0x83; 0x41; 0x5b; 0xd6; 0x4c; 0x03; 0x35; 0x97; 0xf9; 0x28; 0xa4; 0xb5; 0xd4; 0xf4; 0x78; 0x9e; 0xa8; 0xb2; 0x87; 0x82; 0x73; 0x89; 0xa8; 0x1e; 0xb6; 0x62; 0x9e; 0xc5; 0xb8; 0x50]);
  (400000000000, [0x52; 0xf4; 0x9d; 0x89; 0xcf; 0x74; 0x13; 0x2f; 0xc7; 0x43; 0x2e; 0x6a; 0x6b; 0xef; 0xcf; 0xf3; 0xfd; 0x13; 0xd6; 0x3b; 0x51; 0x60; 0xab; 0x1c; 0xe6; 0x4a; 0xb0; 0xd1; 0x21; 0xcd; 0xa9; 0x9a]);
  (500000000000, [0xe9; 0xaa; 0x7c; 0x81; 0xcd; 0xb5; 0xb3; 0x14; 0x8f; 0xb7; 0x62; 0x80; 0x63; 0xcd; 0x7a; 0x07; 0xd1; 0xad; 0xd1; 0x64; 0x3c; 0xed; 0xd3; 0xfa; 0x34; 0x47; 0x9d; 0x85; 0x9c; 0xc5; 0x62; 0x65]);
  (600000000000, [0x98; 0x27; 0xae; 0x31; 0xe5; 0xc2; 0xa7; 0x78; 0x39; 0xf6; 0x0b; 0x83; 0xab; 0x45; 0x78; 0xe2; 0xa0; 0x1e; 0xfa; 0x4b; 0x3b; 0x14; 0xcc; 0x72; 0x73; 0x14; 0xff; 0xd7; 0x15; 0x53; 0x63; 0xbf]);
  (700000000000, [0x72; 0x91; 0x6a; 0x79; 0x27; 0xff; 0x13; 0x24; 0xd4; 0x98; 0x40; 0xec; 0xc0; 0x98; 0x68; 0xb8; 0xf3; 0x15; 0xe4; 0xf1; 0xf6; 0xd4; 0x45; 0x8d; 0x37; 0x5e; 0xc7; 0x45; 0xfc; 0x2e; 0x63; 0x53]);
  (800000000000, [0x66; 0x76; 0xe0; 0x04; 0x0f; 0xa4; 0xb8; 0x22; 0x9c; 0x61; 0x69; 0x0c; 0x71; 0x32; 0x22; 0xcf; 0x3d; 0x37; 0xb9; 0x49; 0x3b; 0x49; 0x06; 0x80; 0xbb; 0x48; 0xd8; 0xd5; 0x1a; 0xde; 0x95; 0xf2]);
  (900000000000, [0x41; 0x54; 0xb3; 0x46; 0x5a; 0x43; 0x72; 0x67; 0x1e; 0xa9; 0xe0; 0x64; 0xa7; 0xca; 0xa6; 0x6e; 0x14; 0xb4; 0x98; 0x6a; 0x46; 0x68; 0x91; 0x8a; 0xfa; 0x57; 0x9b; 0xf1; 0xed; 0x25; 0x06; 0xdd]);
  (1000000000000, [0xbb; 0x6f; 0x70; 0x62; 0xca; 0x30; 0x6d; 0x67; 0x2a; 0x73; 0x0e; 0x2a; 0x2f; 0x21; 0x9b; 0xdb; 0xe4; 0x0c; 0x9f; 0xb3; 0xfe; 0x4d; 0x60; 0x13; 0x69; 0x2a; 0xf9; 0x3c; 0xdb; 0x2e; 0x0c; 0xd1]);
  (2000000000000, [0xbc; 0x0e; 0xae; 0x5b; 0x9c; 0x6a; 0xd6; 0x38; 0x7a; 0x41; 0x19; 0x3c; 0x46; 0xf3; 0xc1; 0xd0; 0x71; 0x6d; 0x77; 0xd6; 0x4e; 0x22; 0xb2; 0xe0; 0x7b; 0x4b; 0xce; 0x75; 0x67; 0x65; 0xa2; 0x0b]);
  (3000000000000, [0x10; 0x0c; 0x6f; 0x13; 0x42; 0xb7; 0x1b; 0x73; 0xed; 0xdd; 0xc5; 0x49; 0x2b; 0xe9; 0x23; 0x18; 0x2f; 0; 0xa6; 0x83; 0x48; 0x8e; 0xc3; 0xa2; 0xa1; 0xc7; 0xa9; 0x49; 0xcb; 0xe5; 0x77; 0x68]);
  (4000000000000, [0x41; 0x9f; 0x7c; 0x94; 0x91; 0x04; 0x34; 0x0f; 0xd3; 0xce; 0x85; 0x94; 0x8d; 0x2e; 0xf9; 0xf0; 0xdd; 0x4b; 0xb3; 0xd9; 0x2f; 0x5a; 0x78; 0x2c; 0x5f; 0x78; 0x04; 0xb7; 0x52; 0x9a; 0x13; 0xc6]);
  (5000000000000, [0x40; 0x65; 0x34; 0x98; 0xbe; 0xa0; 0x22; 0xe3; 0x36; 0x5a; 0x03; 0xe5; 0x75; 0x25; 0xba; 0x65; 0x96; 0x53; 0x76; 0x24; 0x4f; 0xff; 0x10; 0x73; 0x0e; 0xd9; 0x7a; 0x73; 0xb7; 0x53; 0x01; 0x91]);
  (6000000000000, [0xdb; 0x1c; 0x7c; 0xf6; 0x08; 0x91; 0xf9; 0x65; 0xeb; 0xa9; 0xc6; 0x02; 0x24; 0; 0x63; 0x0e; 0; 0x47; 0x95; 0x34; 0xe6; 0xf5; 0xb5; 0x33; 0xdc; 0xfc; 0x83; 0x19; 0x38; 0x52; 0x2c; 0x78]);
  (7000000000000, [0x59; 0xa0; 0x3a; 0x31; 0x53; 0xa9; 0x94; 0xd7; 0x23; 0x27; 0xe4; 0xd9; 0x24; 0x21; 0xd3; 0xe3; 0x29; 0x1b; 0x1f; 0xa1; 0xb2; 0x40; 0xde; 0x44; 0xb9; 0x2d; 0x7f; 0x62; 0xec; 0x01; 0x28; 0xf1]);
  (8000000000000, [0xb2; 0x80; 0xb9; 0x3b; 0x1e; 0x43; 0x88; 0; 0x73; 0xea; 0x4a; 0xa0; 0xef; 0x11; 0x04; 0xf8; 0x24; 0xbd; 0x12; 0x7a; 0x4a; 0x3d; 0xa2; 0x13; 0x92; 0x65; 0x0f; 0xe8; 0xc6; 0x55; 0xb6; 0xc5]);
  (9000000000000, [0xda; 0xf0; 0xd3; 0xe9; 0x32; 0x17; 0xd8; 0xe9; 0x5a; 0xbf; 0xdd; 0xf1; 0x3b; 0x7f; 0xd4; 0x8e; 0x34; 0x47; 0xad; 0x09; 0x23; 0x26; 0xb8; 0x99; 0xed; 0x58; 0x1f; 0xd5; 0xf8; 0x06; 0xc5; 0x06]);
  (10000000000000, [0x16; 0x3d; 0xd6; 0x82; 0xec; 0x97; 0x7c; 0xdd; 0xa5; 0x95; 0x31; 0xda; 0x3f; 0xfa; 0x72; 0x99; 0x8a; 0x6f; 0x88; 0x37; 0xab; 0xad; 0xc6; 0x36; 0xaa; 0xed; 0xc8; 0xbe; 0x19; 0xb2; 0xd7; 0xc7]);
  (20000000000000, [0x02; 0xfa; 0x35; 0x3a; 0xa8; 0x4e; 0xa8; 0xc4; 0x4c; 0x80; 0x23; 0x06; 0x5d; 0x79; 0x41; 0x60; 0x6b; 0x1f; 0xa5; 0xc2; 0x64; 0xdc; 0xcf; 0x46; 0xdc; 0x64; 0x94; 0xeb; 0xe9; 0x60; 0x6f; 0x20]);
  (30000000000000, [0x87; 0x05; 0x0d; 0xab; 0xf5; 0xb2; 0x3e; 0x8b; 0x79; 0x81; 0x3f; 0x4e; 0xd7; 0x6a; 0xa4; 0xad; 0xd2; 0x25; 0xdd; 0x2a; 0x50; 0x89; 0xaf; 0x06; 0x7d; 0xa7; 0x7c; 0xcb; 0x6e; 0xc5; 0x59; 0x46]);
  (40000000000000, [0xaa; 0xe6; 0xb2; 0xc8; 0xa2; 0x9e; 0x4d; 0xbc; 0x63; 0x76; 0xc1; 0x72; 0x05; 0xfb; 0x02; 0x85; 0xe7; 0xd7; 0xd3; 0x25; 0x32; 0x3c; 0xd5; 0x26; 0x0f; 0x98; 0xad; 0xff; 0xf7; 0xd4; 0xd4; 0xfb]);
  (50000000000000, [0x9d; 0x79; 0x28; 0x82; 0x12; 0xa1; 0xe2; 0x3c; 0x09; 0x9f; 0xb2; 0xd8; 0xf0; 0xd0; 0xdb; 0xd3; 0xc2; 0xec; 0xd7; 0x58; 0xb9; 0xe6; 0xb5; 0xb4; 0xf2; 0x90; 0x60; 0x07; 0x9f; 0x19; 0x66; 0x9f]);
  (60000000000000, [0x18; 0x90; 0x10; 0x6f; 0x1b; 0x97; 0xbc; 0x2d; 0x0a; 0xe3; 0x96; 0xe5; 0xe5; 0x5e; 0xbf; 0xcc; 0x8e; 0xf6; 0x91; 0x7f; 0xb1; 0x96; 0xcb; 0x2b; 0x1e; 0x80; 0x25; 0x5d; 0x54; 0xb6; 0x87; 0x10]);
  (70000000000000, [0x57; 0xd3; 0x4e; 0xf7; 0x54; 0x3b; 0xe4; 0x7b; 0x7b; 0xf4; 0x97; 0xce; 0x4a; 0x17; 0x6e; 0x78; 0xc6; 0xd6; 0x5c; 0xd3; 0x27; 0xf6; 0x4b; 0xa7; 0x5c; 0x27; 0xd1; 0x57; 0xb3; 0x37; 0x12; 0x5d]);
  (80000000000000, [0x5e; 0xcb; 0x10; 0x15; 0x4b; 0x96; 0xca; 0xb5; 0x5e; 0x09; 0x46; 0x83; 0xf8; 0xdb; 0xff; 0x7f; 0x56; 0x63; 0x5f; 0xa6; 0x64; 0x97; 0xee; 0x9e; 0x24; 0x0e; 0x83; 0x63; 0x7c; 0x7c; 0x87; 0x72]);
  (90000000000000, [0x42; 0x32; 0x69; 0x98; 0x51; 0x30; 0xf1; 0x66; 0x51; 0x6a; 0x5b; 0xa8; 0x61; 0x09; 0x6d; 0x72; 0xec; 0xcc; 0x67; 0xad; 0xab; 0xa4; 0x5e; 0xb3; 0x73; 0x9a; 0x0e; 0xbc; 0x61; 0xa3; 0x20; 0xae]);
  (100000000000000, [0xa8; 0xd1; 0x60; 0x95; 0x91; 0x49; 0x8f; 0xa7; 0xc2; 0x94; 0x27; 0xad; 0x89; 0x31; 0xaf; 0x36; 0xc5; 0x2d; 0xc9; 0x7b; 0x4a; 0x11; 0xe7; 0x47; 0xa9; 0x56; 0xc2; 0x8c; 0x42; 0x54; 0xcf; 0xd4]);
  (200000000000000, [0x23; 0x14; 0x49; 0; 0xa8; 0x66; 0xe8; 0xc1; 0xbf; 0x40; 0x98; 0xda; 0xa9; 0x48; 0xb9; 0x86; 0xf3; 0x84; 0x0e; 0x5a; 0x7d; 0x21; 0x5e; 0xf0; 0xd5; 0x64; 0xef; 0xd8; 0xbe; 0xc6; 0x83; 0x15]);
  (300000000000000, [0x6a; 0x51; 0x47; 0x3c; 0x86; 0xed; 0xad; 0x53; 0x51; 0x4b; 0x3f; 0x95; 0x97; 0xed; 0x21; 0xae; 0; 0x81; 0x51; 0xa0; 0x9e; 0x43; 0xad; 0xdd; 0x45; 0xd1; 0x74; 0x63; 0xc5; 0x34; 0x03; 0x97]);
  (400000000000000, [0x08; 0xbd; 0xd4; 0xc3; 0xe4; 0x53; 0x1b; 0x29; 0x7a; 0x70; 0; 0x1e; 0xb8; 0xa4; 0xf1; 0x98; 0xdc; 0x3b; 0xd4; 0xf1; 0xf5; 0x60; 0x9a; 0xda; 0x98; 0xf6; 0xd9; 0x5f; 0x9a; 0x1a; 0x30; 0x2e]);
  (500000000000000, [0x97; 0x55; 0x70; 0xea; 0x12; 0xde; 0x5a; 0xf5; 0xc5; 0x36; 0xbd; 0xb6; 0x83; 0x54; 0xfb; 0xc8; 0x32; 0x21; 0x50; 0xfc; 0x56; 0x83; 0x7c; 0x4b; 0x78; 0xa9; 0x85; 0x76; 0x5d; 0x2a; 0x70; 0x99]);
  (600000000000000, [0xa7; 0xa6; 0x39; 0x93; 0x41; 0xcb; 0x4d; 0x67; 0x76; 0xcd; 0x94; 0x0d; 0x1d; 0x6a; 0xb0; 0xac; 0x0a; 0xbf; 0x56; 0x93; 0x6a; 0x35; 0x31; 0xdf; 0xe9; 0x6c; 0x23; 0x69; 0x97; 0x8e; 0x49; 0xfa]);
  (700000000000000, [0x55; 0x09; 0x3e; 0x5e; 0xeb; 0xca; 0x03; 0x88; 0x48; 0xdc; 0x99; 0x7e; 0x31; 0x95; 0xec; 0xc5; 0x8f; 0xb4; 0xa5; 0x71; 0xb9; 0x52; 0x56; 0xc0; 0xff; 0x49; 0xbe; 0xd0; 0xf1; 0x65; 0x22; 0xbd]);
  (800000000000000, [0xbb; 0xc6; 0x18; 0x02; 0x24; 0xaf; 0xd3; 0x38; 0xa6; 0xf4; 0xa0; 0x6b; 0x11; 0x98; 0x40; 0x68; 0xeb; 0x36; 0x35; 0xe7; 0xe5; 0x47; 0x66; 0x69; 0x78; 0x83; 0xaf; 0xbd; 0xce; 0xad; 0x2f; 0x31]);
  (900000000000000, [0x61; 0x3a; 0xa1; 0x2c; 0xc0; 0xa1; 0x9b; 0xc8; 0x43; 0x63; 0x50; 0xbb; 0xc0; 0xf6; 0x16; 0x32; 0x6e; 0x64; 0x85; 0x83; 0x33; 0x4a; 0x32; 0x65; 0x16; 0x29; 0xe9; 0x05; 0xc5; 0x20; 0x62; 0x69]);
  (1000000000000000, [0x52; 0xdd; 0xf8; 0x81; 0x13; 0xa0; 0xfc; 0xf2; 0x12; 0x90; 0x95; 0xc6; 0x18; 0x91; 0xbe; 0x88; 0x5c; 0x09; 0x30; 0x08; 0xeb; 0xc4; 0x65; 0x0c; 0xb0; 0xee; 0xa5; 0x60; 0xcd; 0x4d; 0x75; 0x1b]);
  (2000000000000000, [0x75; 0xbd; 0xfc; 0x35; 0xa6; 0xdf; 0x76; 0xe5; 0x98; 0x8e; 0xd9; 0xe3; 0x10; 0xa5; 0x89; 0x16; 0xae; 0xf0; 0xc5; 0xf0; 0x5b; 0x89; 0x22; 0xea; 0xae; 0x2c; 0xf9; 0x8f; 0x58; 0x42; 0x3c; 0xe3]);
  (3000000000000000, [0x88; 0x98; 0x93; 0xe8; 0x7d; 0x56; 0x9f; 0x14; 0xb2; 0x48; 0xd1; 0xed; 0x93; 0xe8; 0xce; 0x60; 0xbb; 0xe3; 0x73; 0x69; 0xb0; 0xd6; 0xc7; 0xa1; 0x86; 0x89; 0x33; 0xd3; 0xc3; 0xda; 0x9a; 0x72]);
  (4000000000000000, [0x88; 0x3e; 0xf3; 0x4b; 0xa2; 0xc1; 0x91; 0xf4; 0x9d; 0x3c; 0xc6; 0xad; 0xa0; 0xaf; 0xf1; 0xcf; 0xb1; 0x77; 0xbd; 0x9e; 0xd4; 0xb3; 0xa5; 0x37; 0x84; 0xb7; 0xf1; 0x62; 0x9b; 0xed; 0x17; 0x41]);
  (5000000000000000, [0xa2; 0x90; 0x7c; 0x39; 0x84; 0xb1; 0x4a; 0xb1; 0xf4; 0xda; 0x58; 0xc2; 0xc8; 0x2d; 0x6b; 0x24; 0xf1; 0x29; 0x49; 0x09; 0x75; 0xfc; 0x4a; 0x33; 0x3d; 0x25; 0xa1; 0xf9; 0x2b; 0xc4; 0x32; 0xb6]);
  (6000000000000000, [0xa0; 0x7d; 0x9f; 0x18; 0x95; 0x1f; 0xf2; 0x32; 0xcf; 0x4e; 0xc0; 0xee; 0x2f; 0xbc; 0xc3; 0xe1; 0x1b; 0x2c; 0xaf; 0xc9; 0x57; 0x65; 0x82; 0x10; 0x38; 0x1e; 0x3e; 0xe4; 0xed; 0xec; 0x2e; 0x7a]);
  (7000000000000000, [0x66; 0x80; 0x21; 0xd5; 0xde; 0x8c; 0xa4; 0xc1; 0x8f; 0x5a; 0x74; 0xf2; 0x78; 0x69; 0xc4; 0xd6; 0xd4; 0x93; 0xa3; 0x30; 0x39; 0x3c; 0xf0; 0x26; 0x41; 0xff; 0xa8; 0x56; 0x7b; 0xa5; 0x36; 0x20]);
  (8000000000000000, [0xe0; 0x48; 0x7a; 0xc4; 0x5a; 0x82; 0x59; 0xe3; 0xe5; 0xf2; 0xd9; 0xb8; 0xf6; 0xb8; 0xfa; 0x26; 0x9a; 0x63; 0x49; 0x71; 0xa2; 0xf7; 0xc2; 0x1a; 0x54; 0x17; 0x76; 0x81; 0xeb; 0x02; 0xbd; 0x4a]);
  (9000000000000000, [0x98; 0x92; 0x6a; 0x3a; 0xf0; 0x5b; 0xf4; 0xa9; 0x8d; 0xf9; 0xf6; 0x4a; 0xe7; 0xb9; 0xda; 0x45; 0xa7; 0x06; 0xc3; 0xf8; 0x39; 0x5e; 0x47; 0x1f; 0x96; 0xed; 0x3c; 0x06; 0x06; 0xbe; 0xbb; 0x71]);
  (10000000000000000, [0x80; 0xad; 0xb7; 0x0d; 0x46; 0xf6; 0x3a; 0x75; 0x64; 0xa3; 0xf6; 0x71; 0xd9; 0xba; 0x95; 0x71; 0xb7; 0xf7; 0x95; 0xa9; 0x63; 0x38; 0x2a; 0x4d; 0x9f; 0xaf; 0x2d; 0x54; 0xf6; 0xc6; 0x84; 0x29]);
  (20000000000000000, [0xae; 0xbd; 0x97; 0x42; 0x1f; 0x3f; 0xca; 0xe8; 0x95; 0x18; 0x60; 0xe6; 0xd9; 0xd1; 0xf3; 0xec; 0x59; 0x73; 0xa2; 0xf7; 0x66; 0x88; 0x4b; 0xfe; 0x17; 0x50; 0x79; 0x51; 0xe4; 0x62; 0xc6; 0x63]);
  (30000000000000000, [0x61; 0x02; 0x6c; 0x84; 0x2a; 0x6a; 0x22; 0x25; 0x74; 0x6b; 0x19; 0x6b; 0x56; 0x89; 0xe1; 0x18; 0xf5; 0x41; 0x34; 0x15; 0x98; 0x1d; 0x07; 0x73; 0x62; 0xb2; 0xe7; 0xb9; 0xac; 0xa5; 0x28; 0x16]);
  (40000000000000000, [0x52; 0x54; 0xb5; 0x78; 0xe8; 0x57; 0x9a; 0x27; 0x3b; 0x89; 0x8e; 0x65; 0x9d; 0xd3; 0xe1; 0xa1; 0xcf; 0xba; 0x12; 0x47; 0x26; 0x64; 0xbd; 0x4e; 0x7f; 0x9a; 0x13; 0xb1; 0xfc; 0xee; 0x02; 0x93]);
  (50000000000000000, [0x7b; 0x2a; 0x0b; 0; 0xcf; 0xdc; 0xa9; 0x51; 0x46; 0xcf; 0x80; 0x95; 0xdd; 0x2b; 0x82; 0x90; 0x91; 0xb0; 0xf2; 0xd5; 0xbb; 0x0c; 0x33; 0x82; 0x2d; 0x8b; 0x43; 0x42; 0x69; 0xcd; 0x2a; 0x42]);
  (60000000000000000, [0x21; 0x57; 0x4f; 0xed; 0x15; 0x1a; 0x2f; 0x9f; 0x64; 0xa4; 0x5b; 0xe2; 0x8a; 0x3a; 0xf5; 0x88; 0xe9; 0xf2; 0xd1; 0x71; 0x35; 0xa3; 0x53; 0x7f; 0x07; 0xfd; 0x6a; 0xef; 0xa2; 0x9f; 0x02; 0xaf]);
  (70000000000000000, [0x1a; 0xf2; 0x41; 0xe1; 0x38; 0x27; 0x98; 0x29; 0xac; 0x6a; 0xe6; 0x2f; 0x0f; 0x33; 0x20; 0x4b; 0xb2; 0x8a; 0xfd; 0x06; 0x5c; 0x42; 0x59; 0x3b; 0xdc; 0x79; 0x14; 0x85; 0x97; 0x5b; 0x26; 0x95]);
  (80000000000000000, [0xa8; 0xc8; 0xb8; 0x7b; 0x51; 0x2d; 0xef; 0x9b; 0x5e; 0x50; 0x0e; 0xb4; 0x98; 0xaf; 0x86; 0xaa; 0xd2; 0x46; 0x4a; 0xea; 0xe7; 0x6d; 0xb1; 0xf6; 0x5d; 0x23; 0x26; 0xce; 0x90; 0x26; 0xec; 0x69]);
  (90000000000000000, [0x3d; 0x78; 0x73; 0x63; 0x95; 0xf1; 0xd7; 0xde; 0x8e; 0x16; 0xc0; 0xb5; 0xa9; 0x9f; 0x4d; 0xc4; 0xeb; 0x8f; 0x22; 0xac; 0xc1; 0x5b; 0x21; 0x42; 0x44; 0x1d; 0xbd; 0x8d; 0x2c; 0x31; 0xb9; 0xce]);
  (100000000000000000, [0x27; 0x27; 0xd4; 0x93; 0x2f; 0x98; 0x39; 0xe4; 0x3b; 0x6b; 0xf5; 0xfb; 0x29; 0xa3; 0xbe; 0x4c; 0x09; 0x0b; 0x6e; 0xb9; 0x31; 0; 0xbb; 0x92; 0x58; 0x1a; 0xdb; 0x8d; 0xd2; 0xb6; 0x61; 0x54]);
  (200000000000000000, [0xae; 0x96; 0x78; 0x2e; 0xf2; 0xc4; 0xdf; 0x7d; 0x2e; 0x04; 0xcc; 0xf9; 0xef; 0x76; 0x23; 0x7f; 0x17; 0x0c; 0x97; 0x03; 0xb4; 0x92; 0xc0; 0x78; 0x52; 0x6e; 0xb1; 0xf6; 0x85; 0x3d; 0xb1; 0x33]);
  (300000000000000000, [0x17; 0x43; 0xfe; 0xab; 0x12; 0xad; 0xe5; 0xfe; 0x12; 0x53; 0x22; 0x27; 0x2f; 0xd1; 0x40; 0x6b; 0x74; 0xe8; 0x19; 0x70; 0x32; 0x68; 0x46; 0x22; 0xee; 0x79; 0xab; 0xcd; 0x94; 0x93; 0x66; 0x4c]);
  (400000000000000000, [0x07; 0x9b; 0xf2; 0xa9; 0x6e; 0x16; 0x6e; 0xf9; 0xe6; 0xb2; 0x23; 0x1d; 0xb9; 0x85; 0x8b; 0x99; 0x98; 0x7f; 0x49; 0x33; 0x87; 0xde; 0xeb; 0xd5; 0x17; 0x48; 0x54; 0x9a; 0x0d; 0xf7; 0xdc; 0x44]);
  (500000000000000000, [0xca; 0xba; 0x97; 0x98; 0x51; 0x6d; 0xad; 0x03; 0x38; 0xd0; 0x6e; 0x10; 0x6d; 0x76; 0xa2; 0x01; 0x93; 0x7a; 0xce; 0x4c; 0x91; 0x53; 0x9e; 0x61; 0x7d; 0x89; 0x28; 0x73; 0x06; 0xa3; 0x92; 0xb1]);
  (600000000000000000, [0x6b; 0x08; 0x7f; 0x48; 0xb3; 0xd7; 0xaa; 0xc9; 0x57; 0xc4; 0x52; 0xe5; 0x1a; 0x18; 0xd7; 0x26; 0x0b; 0xf8; 0xc8; 0x56; 0xc4; 0xc7; 0x1e; 0x48; 0xf6; 0x49; 0xae; 0; 0x4a; 0xf6; 0x8f; 0x13]);
  (700000000000000000, [0x9e; 0xed; 0x8b; 0x23; 0x1f; 0x79; 0x4c; 0x46; 0x5c; 0xbe; 0x88; 0x40; 0xd0; 0xf1; 0x6f; 0x7b; 0x9f; 0x9c; 0x6e; 0xb4; 0x9c; 0x20; 0x7d; 0xe9; 0xd8; 0x55; 0x11; 0x83; 0xd0; 0xc7; 0x6e; 0x43]);
  (800000000000000000, [0x58; 0x4a; 0x78; 0x93; 0x13; 0x7e; 0xbd; 0x02; 0x8b; 0xa7; 0x59; 0x82; 0xc3; 0x39; 0xb7; 0x66; 0xaa; 0xda; 0xad; 0xf9; 0x14; 0x50; 0xf9; 0x40; 0x7d; 0x2a; 0x97; 0xd7; 0xf6; 0xb1; 0x93; 0x5e]);
  (900000000000000000, [0x07; 0xce; 0x54; 0xb1; 0x18; 0x26; 0xa1; 0x75; 0x23; 0x13; 0x55; 0x1a; 0; 0x20; 0xfd; 0x79; 0x8a; 0; 0x9e; 0x20; 0xcd; 0xb2; 0x40; 0x1d; 0x52; 0x51; 0xc1; 0x55; 0x8e; 0xea; 0xd2; 0x6c]);
  (1000000000000000000, [0x39; 0x80; 0x7f; 0x3d; 0xce; 0xb0; 0xa6; 0xfe; 0x34; 0xa7; 0xa1; 0xed; 0xc6; 0x9b; 0x78; 0xff; 0xbe; 0xd5; 0xa7; 0x8c; 0x6c; 0x87; 0x5d; 0xda; 0x96; 0x69; 0xdb; 0xb2; 0x95; 0x70; 0xf0; 0xf4]);
  (2000000000000000000, [0xda; 0x74; 0; 0x86; 0xf1; 0x5c; 0xe8; 0x21; 0xe9; 0x0d; 0x50; 0xaf; 0xcf; 0x80; 0x9c; 0x7e; 0x18; 0x51; 0x90; 0x1b; 0xa3; 0x5f; 0x9f; 0x63; 0x78; 0xd6; 0x40; 0x7c; 0xb9; 0xc7; 0xa2; 0x75]);
  (3000000000000000000, [0x07; 0xa1; 0x75; 0x63; 0xae; 0xf5; 0xcf; 0xd0; 0x36; 0xfa; 0x64; 0xd4; 0xb1; 0x97; 0xa9; 0x51; 0xc0; 0xd2; 0x87; 0x2b; 0x0d; 0xb6; 0xf9; 0xbe; 0x47; 0xe6; 0x7c; 0xa6; 0xb5; 0x35; 0xe2; 0x6e]);
  (4000000000000000000, [0xe3; 0x49; 0xf7; 0xeb; 0xe5; 0x11; 0x39; 0xfe; 0xd5; 0x69; 0x40; 0x37; 0xd1; 0x14; 0xb7; 0xbd; 0x45; 0xdd; 0x0a; 0x6a; 0xf0; 0x4b; 0x62; 0xec; 0xa4; 0xd8; 0xcd; 0x55; 0x2a; 0x14; 0xe3; 0xfb]);
  (5000000000000000000, [0x8d; 0x59; 0x7e; 0xa9; 0xf5; 0x79; 0x9a; 0x4d; 0x15; 0x3d; 0x82; 0xd6; 0xf7; 0xbe; 0xa0; 0x2e; 0x52; 0x40; 0xa2; 0xc8; 0x9b; 0x04; 0x1e; 0x06; 0x2f; 0x37; 0xbc; 0x7b; 0x82; 0xa0; 0xac; 0x55]);
  (6000000000000000000, [0xa3; 0x43; 0xa7; 0xe1; 0x14; 0x4d; 0x33; 0x50; 0x0f; 0x3e; 0xfd; 0x38; 0x15; 0x82; 0xdd; 0xc5; 0xd0; 0x18; 0x3e; 0x5d; 0xcf; 0x8a; 0xfa; 0x64; 0xbb; 0x67; 0x6c; 0x97; 0x3e; 0x3d; 0x1a; 0xb1]);
  (7000000000000000000, [0x89; 0xe9; 0x3e; 0xe9; 0xf2; 0x4d; 0x72; 0x61; 0xe5; 0x44; 0xca; 0x8f; 0x09; 0xa7; 0x40; 0x4e; 0xe3; 0xa9; 0x0e; 0xe2; 0x50; 0x7d; 0xda; 0xcf; 0x41; 0x2a; 0x58; 0x0c; 0x09; 0x65; 0x1c; 0x53]);
  (8000000000000000000, [0xc5; 0x94; 0x10; 0x81; 0x54; 0x69; 0xf4; 0x59; 0xd1; 0x5a; 0x6f; 0xe3; 0xf2; 0xa1; 0x1b; 0xa6; 0x31; 0x12; 0xfa; 0xaa; 0xc5; 0x3d; 0xbc; 0x52; 0x5d; 0x3c; 0xfa; 0xb1; 0xfa; 0x9c; 0x3d; 0xdb]);
  (9000000000000000000, [0x9d; 0xe7; 0xcb; 0x0b; 0x8d; 0x7b; 0xac; 0x47; 0xff; 0xd3; 0x93; 0x1b; 0xcd; 0x82; 0xcd; 0xd5; 0x35; 0x0c; 0x29; 0x34; 0xb1; 0x6e; 0x0b; 0x64; 0x32; 0xab; 0xf7; 0xcb; 0x4b; 0x5c; 0x37; 0x6d]);
  (10000000000000000000, [0x65; 0x8d; 0x01; 0x37; 0x6d; 0x18; 0x63; 0xe7; 0x7b; 0x09; 0x6f; 0x98; 0xe6; 0xe5; 0x13; 0xc2; 0x04; 0x10; 0xf5; 0xc7; 0xfb; 0x18; 0xa6; 0xe5; 0x9a; 0x52; 0x66; 0x84; 0x5c; 0xd9; 0xb1; 0xe3])].
End RctData.
