(* ===== verification/Exc.v ===== *)
(** Code that throws: [exc A] is [None] for an abort or undefined behaviour, [throw] for an
    exception, and [ret x] for the result [x]. *)
From S2P Require Import Prelude.

Module Exc.
Abbreviation exc A := (option (option A)).
Abbreviation ret x := (Some (Some x)).
Abbreviation throw := (Some None).

Definition ebind {A B} (m : exc A) (f : A -> exc B) : exc B :=
  o ← m; match o with Some x => f x | None => throw end.

(** A call that does not throw. *)
Definition call {A} (m : option A) : exc A := x ← m; ret x.

(** [CHECK_AND_ASSERT_THROW_MES]. *)
Definition check (c : bool) : exc unit := if c then ret tt else throw.

(** [try { ... } catch (...) { return d; }]. *)
Definition catch {A} (m : exc A) (d : A) : option A := o ← m; Some (default d o).

Declare Scope exc_scope.
Notation "x <~ m ; k" := (ebind m (fun x => k)) 
  (at level 20, m at level 100, k at level 200, only parsing) : exc_scope.
Notation "' p <~ m ; k" := (ebind m (fun x => match x with p => k end))
  (at level 20, p pattern, m at level 100, k at level 200, only parsing) : exc_scope.
Open Scope exc_scope.

Lemma ebind_ret {A B} (x : A) (f : A -> exc B) : ebind (Some (Some x)) f = f x.
Proof. reflexivity. Qed.

Lemma ebind_throw {A B} (f : A -> exc B) : ebind (Some None) f = throw.
Proof. reflexivity. Qed.

Lemma call_Some {A} (x : A) : call (Some x) = Some (Some x).
Proof. reflexivity. Qed.

Lemma check_true : check true = Some (Some tt).
Proof. reflexivity. Qed.

Lemma check_false : check false = throw.
Proof. reflexivity. Qed.

Lemma catch_ret {A} (x d : A) : catch (Some (Some x)) d = Some x.
Proof. reflexivity. Qed.

Lemma catch_throw {A} (d : A) : catch throw d = Some d.
Proof. reflexivity. Qed.

(** Runs one call whose result is known. *)
Ltac ebind := first [rewrite call_Some | idtac]; rewrite ebind_ret; cbv beta iota.
End Exc.
