(* ===== verification/HardFork.v ===== *)
(** The hard fork state machine of src/cryptonote_basic/hardfork.cpp, with the tables of
    src/hardforks/hardforks.cpp.

    The object and the part of the database it reads and writes are two records, passed
    explicitly.  [NDEBUG] says whether the assertions are compiled out.  The locks, the
    database transactions and the log lines have no effect here and are left out. *)
From S2P Require Import Prelude Exc.
From stdpp Require Import gmap.

Local Open Scope Z_scope.

Module HardFork.
Import Exc.

Abbreviation u8 := (wrap 8).
Abbreviation u32 := (wrap 32).

(** ** Data *)

Record hardfork_t := mk_fork { version : Z; height : Z; threshold : Z; time : Z }.

(** The two fields of a block header that vote. *)
Record block := mk_block { major_version : Z; minor_version : Z }.

Inductive State := LikelyForked | UpdateNeeded | Ready.

Definition DEFAULT_ORIGINAL_VERSION_TILL_HEIGHT : Z := 0.
Definition DEFAULT_FORKED_TIME : Z := 31557600.
Definition DEFAULT_UPDATE_TIME : Z := 31557600.
Definition DEFAULT_WINDOW_SIZE : Z := 2520.
Definition DEFAULT_THRESHOLD_PERCENT : Z := 80.

(** [last_versions] has 256 entries. *)
Record HardFork := mk_hf {
  forked_time : Z; update_time : Z; window_size : Z; default_threshold_percent : Z;
  original_version : Z; original_version_till_height : Z;
  heights : list hardfork_t; versions : list Z; last_versions : list Z; current_fork_index : nat }.

Definition with_heights (hf : HardFork) (hs : list hardfork_t) : HardFork :=
  mk_hf (forked_time hf) (update_time hf) (window_size hf) (default_threshold_percent hf) (original_version hf) (original_version_till_height hf)
    hs (versions hf) (last_versions hf) (current_fork_index hf).

Definition with_window (hf : HardFork) (vs lv : list Z) : HardFork :=
  mk_hf (forked_time hf) (update_time hf) (window_size hf) (default_threshold_percent hf) (original_version hf) (original_version_till_height hf)
    (heights hf) vs lv (current_fork_index hf).

Definition with_index (hf : HardFork) (i : nat) : HardFork :=
  mk_hf (forked_time hf) (update_time hf) (window_size hf) (default_threshold_percent hf) (original_version hf) (original_version_till_height hf)
    (heights hf) (versions hf) (last_versions hf) i.

(** ** The database *)

(** The blocks of the main chain and the table of versions by height. *)
Record BlockchainDB := mk_db { blocks : list block; hf_versions : gmap Z Z }.

Definition db_height (db : BlockchainDB) : Z := Z.of_nat (length (blocks db)).

Definition get_block_from_height (db : BlockchainDB) (h : Z) : exc block :=
  match blocks db !! Z.to_nat h with Some b => ret b | None => throw end.

Definition set_hard_fork_version (db : BlockchainDB) (h v : Z) : BlockchainDB := mk_db (blocks db) (<[h := v]> (hf_versions db)).

Definition get_hard_fork_version (db : BlockchainDB) (h : Z) : exc Z :=
  match hf_versions db !! h with Some v => ret v | None => throw end.

(** ** Votes *)

Definition get_block_vote (b : block) : Z := if minor_version b =? 0 then 1 else minor_version b.

Definition get_block_version (b : block) : Z := major_version b.

(** The counters are indeterminate until [init]. *)
Definition hardfork_new (counters : list Z) (original_version original_version_till_height forked_time update_time window_size default_threshold_percent : Z) : exc HardFork :=
  if window_size =? 0 then throw else
  if 100 <? default_threshold_percent then throw else
  ret (mk_hf forked_time update_time window_size default_threshold_percent original_version original_version_till_height [] [] counters 0).

Definition add_fork (hf : HardFork) (v h thr t : Z) : bool * HardFork :=
  if v =? 0 then (false, hf) else
  if match last (heights hf) with Some f => (v <=? version f) || (h <=? height f) || (t <=? time f) | None => false end then (false, hf) else
  if 100 <? thr then (false, hf) else
  (true, with_heights hf (heights hf ++ [mk_fork v h thr t])).

Definition add_fork_default (hf : HardFork) (v h t : Z) : bool * HardFork := add_fork hf v h (default_threshold_percent hf) t.

Definition get_effective_version (hf : HardFork) (voting_version : Z) : Z :=
  match last (heights hf) with
  | Some f => if version f <? voting_version then version f else voting_version
  | None => voting_version
  end.

(** [for (int n = heights.size() - 1; n >= 0; --n)], over the first [n] forks. *)
Fixpoint voted_loop (hf : HardFork) (h : Z) (n : nat) (accumulated_votes : Z) : option nat :=
  match n with
  | O => Some (current_fork_index hf)
  | S n =>
      f ← heights hf !! n;
      c ← last_versions hf !! Z.to_nat (version f);
      let accumulated_votes := u32 (accumulated_votes + c) in
      let thr := u32 (u64 (u64 (window_size hf * threshold f) + 99) / 100) in
      if (height f <=? h) && (thr <=? accumulated_votes) then Some n else voted_loop hf h n accumulated_votes
  end.

Definition get_voted_fork_index (hf : HardFork) (h : Z) : option nat := voted_loop hf h (length (heights hf)) 0.

(** [uint8_t voted = get_voted_fork_index(h); if (voted > current_fork_index) current_fork_index = voted;] *)
Definition advance (hf : HardFork) (h : Z) : option HardFork :=
  n ← get_voted_fork_index hf h;
  let voted := Z.to_nat (u8 (Z.of_nat n)) in
  Some (if (current_fork_index hf <? voted)%nat then with_index hf voted else hf).

(** ** Checks *)

Definition do_check (hf : HardFork) (block_version voting_version : Z) : option bool :=
  f ← heights hf !! current_fork_index hf; Some ((block_version =? version f) && (version f <=? voting_version)).

Definition check_block (hf : HardFork) (b : block) : option bool := do_check hf (get_block_version b) (get_block_vote b).

Definition do_check_for_height (hf : HardFork) (block_version voting_version h : Z) : option bool :=
  n ← get_voted_fork_index hf h; f ← heights hf !! n; Some ((block_version =? version f) && (version f <=? voting_version)).

Definition check_for_height (hf : HardFork) (b : block) (h : Z) : option bool := do_check_for_height hf (get_block_version b) (get_block_vote b) h.

(** ** The window *)

(** [while (versions.size() >= window_size)]. *)
Fixpoint drop_old (NDEBUG : bool) (window : Z) (lv vs : list Z) : option (list Z * list Z) :=
  if window <=? Z.of_nat (length vs) then
    match vs with
    | [] => None
    | old_version :: vs =>
        c ← lv !! Z.to_nat old_version;
        if negb NDEBUG && (c <? 1) then None else drop_old NDEBUG window (<[Z.to_nat old_version := u32 (c - 1)]> lv) vs
    end
  else Some (vs, lv).

(** [last_versions[v]++]. *)
Definition count (lv : list Z) (v : Z) : option (list Z) := c ← lv !! Z.to_nat v; Some (<[Z.to_nat v := u32 (c + 1)]> lv).

(** [last_versions[v]--]. *)
Definition uncount (lv : list Z) (v : Z) : option (list Z) := c ← lv !! Z.to_nat v; Some (<[Z.to_nat v := u32 (c - 1)]> lv).

Definition add (NDEBUG : bool) (hf : HardFork) (db : BlockchainDB) (block_version voting_version h : Z) : exc (bool * HardFork * BlockchainDB) :=
  ok <~ call (do_check hf block_version voting_version);
  if negb ok then ret (false, hf, db) else
  f <~ call (heights hf !! current_fork_index hf);
  let db := set_hard_fork_version db h (version f) in
  let v := get_effective_version hf voting_version in
  '(vs, lv) <~ call (drop_old NDEBUG (window_size hf) (last_versions hf) (versions hf));
  lv <~ call (count lv v);
  hf <~ call (advance (with_window hf (vs ++ [v]) lv) (u64 (h + 1)));
  ret (true, hf, db).

Definition add_block (NDEBUG : bool) (hf : HardFork) (db : BlockchainDB) (b : block) (h : Z) : exc (bool * HardFork * BlockchainDB) :=
  add NDEBUG hf db (get_block_version b) (get_block_vote b) h.

(** [versions.clear()] and the counters reset. *)
Definition clear_window (hf : HardFork) : HardFork := with_window hf [] (replicate 256 0).

(** The votes of [n] blocks from the height [h] on. *)
Fixpoint scan (hf : HardFork) (db : BlockchainDB) (h : Z) (n : nat) : exc HardFork :=
  match n with
  | O => ret hf
  | S n =>
      b <~ get_block_from_height db h;
      let v := get_effective_version hf (get_block_vote b) in
      lv <~ call (count (last_versions hf) v);
      scan (with_window hf (versions hf ++ [v]) lv) db (h + 1) n
  end.

(** [while (current_fork_index + 1 < heights.size() && heights[current_fork_index].version != lastv)], [n] forks left. *)
Fixpoint find_version (forks : list hardfork_t) (lastv : Z) (i n : nat) : option nat :=
  if negb (i + 1 <? length forks)%nat then Some i else
  match n with
  | O => None
  | S n => f ← forks !! i; if version f =? lastv then Some i else find_version forks lastv (S i) n
  end.

Definition rescan_from_block_height (hf : HardFork) (db : BlockchainDB) (h : Z) : exc (bool * HardFork) :=
  if db_height db <=? h then ret (false, hf) else
  hf <~ scan (clear_window hf) db h (Z.to_nat (db_height db - h));
  lastv <~ get_hard_fork_version db (db_height db - 1);
  i <~ call (find_version (heights hf) lastv 0 (length (heights hf)));
  hf <~ call (advance (with_index hf i) (db_height db));
  ret (true, hf).

Definition rescan_from_chain_height (hf : HardFork) (db : BlockchainDB) (h : Z) : exc (bool * HardFork) :=
  if h =? 0 then ret (false, hf) else rescan_from_block_height hf db (h - 1).

Definition init (hf : HardFork) (db : BlockchainDB) : exc HardFork :=
  let hf := match heights hf with [] => with_heights hf [mk_fork (original_version hf) 0 0 0] | _ => hf end in
  let hf := with_index (clear_window hf) 0 in
  let h := if window_size hf <? db_height db then db_height db - (window_size hf - 1) else 1 in
  '(_, hf) <~ rescan_from_chain_height hf db h;
  ret hf.

Definition get_block_version_at (hf : HardFork) (db : BlockchainDB) (h : Z) : exc Z :=
  if h <=? original_version_till_height hf then ret (original_version hf) else
  b <~ get_block_from_height db h; ret (get_block_version b).

(** [while (current_fork_index > 0 && heights[current_fork_index].version > start_version)]. *)
Fixpoint lower_index (forks : list hardfork_t) (start_version : Z) (i : nat) : option nat :=
  match i with
  | O => Some O
  | S j => f ← forks !! i; if start_version <? version f then lower_index forks start_version j else Some i
  end.

(** [add(db.get_block_from_height(h), h)] for [n] heights; the results are not looked at. *)
Fixpoint add_again (NDEBUG : bool) (hf : HardFork) (db : BlockchainDB) (h : Z) (n : nat) : exc (HardFork * BlockchainDB) :=
  match n with
  | O => ret (hf, db)
  | S n =>
      b <~ get_block_from_height db h;
      '(_, hf, db) <~ add_block NDEBUG hf db b h;
      add_again NDEBUG hf db (h + 1) n
  end.

Definition reorganize_from_block_height (NDEBUG : bool) (hf : HardFork) (db : BlockchainDB) (h : Z) : exc (bool * HardFork * BlockchainDB) :=
  if db_height db <=? h then ret (false, hf, db) else
  let hf := clear_window hf in
  let rescan_height := if window_size hf - 1 <=? h then h - (window_size hf - 1) else 0 in
  start_version <~ (if h =? 0 then ret (original_version hf) else get_hard_fork_version db h);
  i <~ call (lower_index (heights hf) start_version (current_fork_index hf));
  hf <~ scan (with_index hf i) db rescan_height (Z.to_nat (h + 1 - rescan_height));
  hf <~ call (advance hf (u64 (h + 1)));
  '(hf, db) <~ add_again NDEBUG hf db (h + 1) (Z.to_nat (db_height db - (h + 1)));
  ret (true, hf, db).

Definition reorganize_from_chain_height (NDEBUG : bool) (hf : HardFork) (db : BlockchainDB) (h : Z) : exc (bool * HardFork * BlockchainDB) :=
  if h =? 0 then ret (false, hf, db) else reorganize_from_block_height NDEBUG hf db (h - 1).

(** ** Popped blocks *)

(** [for (uint64_t height = old_chain_height - 1; height >= new_chain_height; --height)]. *)
Fixpoint pop_votes (fuel : nat) (db : BlockchainDB) (new_chain_height h : Z) (vs lv : list Z) : exc (list Z * list Z) :=
  if negb (new_chain_height <=? h) then ret (vs, lv) else
  match fuel with
  | O => None
  | S fuel =>
      v <~ call (last vs);
      lv <~ call (uncount lv v);
      v <~ get_hard_fork_version db h;
      lv <~ call (count lv v);
      pop_votes fuel db new_chain_height (u64 (h - 1)) (v :: removelast vs) lv
  end.

(** [for (current_fork_index = heights.size() - 1; current_fork_index > 0; --current_fork_index)]. *)
Fixpoint fork_at (forks : list hardfork_t) (h : Z) (i : nat) : option nat :=
  match i with
  | O => Some O
  | S j => f ← forks !! i; if height f <=? h then Some i else fork_at forks h j
  end.

Definition on_block_popped (hf : HardFork) (db : BlockchainDB) (nblocks : Z) : exc HardFork :=
  _ <~ check (0 <? nblocks);
  let new_chain_height := db_height db in
  let old_chain_height := u64 (new_chain_height + nblocks) in
  '(vs, lv) <~ pop_votes (S (Z.to_nat nblocks)) db new_chain_height (u64 (old_chain_height - 1)) (versions hf) (last_versions hf);
  i <~ call (match heights hf with [] => None | _ :: l => fork_at (heights hf) new_chain_height (length l) end);
  ret (with_index (with_window hf vs lv) i).

(** ** Callers *)

(** The end of [BlockchainDB::add_block]: the block enters the chain, then votes. *)
Definition db_add_block (NDEBUG : bool) (hf : HardFork) (db : BlockchainDB) (b : block) : exc (HardFork * BlockchainDB) :=
  let prev_height := db_height db in
  '(_, hf, db) <~ add_block NDEBUG hf (mk_db (blocks db ++ [b]) (hf_versions db)) b prev_height;
  ret (hf, db).

(** What [handle_block_to_main_chain] asks of the object before the block is added; the block
    is taken to pass the other tests. *)
Definition handle_block_to_main_chain (NDEBUG : bool) (hf : HardFork) (db : BlockchainDB) (b : block) : exc (bool * HardFork * BlockchainDB) :=
  ok <~ call (check_block hf b);
  if negb ok then ret (false, hf, db) else
  '(hf, db) <~ db_add_block NDEBUG hf db b;
  ret (true, hf, db).

(** [pop_block] removes the block but not its entry in the table of versions. *)
Definition pop_block_from_blockchain (hf : HardFork) (db : BlockchainDB) : exc (HardFork * BlockchainDB) :=
  _ <~ check (1 <? db_height db);
  let db := mk_db (removelast (blocks db)) (hf_versions db) in
  hf <~ on_block_popped hf db 1;
  ret (hf, db).

(** [while (m_db->height() != rollback_height)]. *)
Fixpoint pop_to (fuel : nat) (hf : HardFork) (db : BlockchainDB) (rollback_height : Z) : exc (HardFork * BlockchainDB) :=
  if db_height db =? rollback_height then ret (hf, db) else
  match fuel with
  | O => None
  | S fuel => '(hf, db) <~ pop_block_from_blockchain hf db; pop_to fuel hf db rollback_height
  end.

Fixpoint handle_blocks (NDEBUG : bool) (hf : HardFork) (db : BlockchainDB) (chain : list block) : exc (bool * HardFork * BlockchainDB) :=
  match chain with
  | [] => ret (true, hf, db)
  | b :: chain =>
      '(r, hf, db) <~ handle_block_to_main_chain NDEBUG hf db b;
      if r then handle_blocks NDEBUG hf db chain else ret (false, hf, db)
  end.

Definition rollback_blockchain_switching (NDEBUG : bool) (hf : HardFork) (db : BlockchainDB) (original_chain : list block) (rollback_height : Z)
    : exc (bool * HardFork * BlockchainDB) :=
  if db_height db <? rollback_height then ret (true, hf, db) else
  '(hf, db) <~ pop_to (length (blocks db)) hf db rollback_height;
  '(_, hf, db) <~ reorganize_from_chain_height NDEBUG hf db rollback_height;
  '(r, hf, db) <~ handle_blocks NDEBUG hf db original_chain;
  if negb r then ret (false, hf, db) else
  '(_, hf, db) <~ reorganize_from_chain_height NDEBUG hf db rollback_height;
  ret (true, hf, db).

(** ** Queries *)

Definition get_state (hf : HardFork) (t : Z) : option State :=
  if (length (heights hf) <=? 1)%nat then Some Ready else
  f ← last (heights hf);
  forked ← i64 (time f + forked_time hf);
  if forked <=? t then Some LikelyForked else
  update ← i64 (time f + update_time hf);
  Some (if update <=? t then UpdateNeeded else Ready).

Definition get_current_version (hf : HardFork) : option Z := f ← heights hf !! current_fork_index hf; Some (version f).

Definition get (NDEBUG : bool) (hf : HardFork) (db : BlockchainDB) (h : Z) : exc Z :=
  if db_height db <? h then (if NDEBUG then ret 255 else None) else
  if h =? db_height db then call (get_current_version hf) else
  get_hard_fork_version db h.

Definition get_ideal_version (hf : HardFork) : option Z := f ← last (heights hf); Some (version f).

(** [for (unsigned int n = heights.size() - 1; n > 0; --n)]. *)
Fixpoint ideal_loop (hf : HardFork) (h : Z) (n : nat) : option Z :=
  match n with
  | O => Some (original_version hf)
  | S m => f ← heights hf !! n; if height f <=? h then Some (version f) else ideal_loop hf h m
  end.

Definition get_ideal_version_at (hf : HardFork) (h : Z) : option Z :=
  match heights hf with [] => None | _ :: l => ideal_loop hf h (length l) end.

(** Over the forks in reverse. *)
Fixpoint earliest_loop (forks : list hardfork_t) (v h : Z) : Z :=
  match forks with
  | [] => h
  | f :: forks => if v <=? version f then earliest_loop forks v (height f) else h
  end.

Definition get_earliest_ideal_height_for_version (hf : HardFork) (v : Z) : Z := earliest_loop (rev (heights hf)) v (2 ^ 64 - 1).

(** [later] is the fork before the iterator, if it is not the first. *)
Fixpoint next_loop (forks : list hardfork_t) (later : option hardfork_t) (h original : Z) : Z :=
  match forks with
  | [] => original
  | f :: forks => if height f <=? h then version (default f later) else next_loop forks (Some f) h original
  end.

Definition get_next_version (hf : HardFork) (db : BlockchainDB) : Z := next_loop (rev (heights hf)) None (db_height db) (original_version hf).

(** [enabled], the window, the votes, the threshold, the earliest height and the version voted for. *)
Definition get_voting_info (hf : HardFork) (v : Z) : option (bool * Z * Z * Z * Z * Z) :=
  f ← heights hf !! current_fork_index hf;
  l ← last (heights hf);
  let window := u32 (Z.of_nat (length (versions hf))) in
  let votes := foldl (fun votes c => u32 (votes + c)) 0 (drop (Z.to_nat v) (last_versions hf)) in
  let thr := u32 (u32 (window * threshold f) + 99) / 100 in
  Some (v <=? version f, window, votes, thr, get_earliest_ideal_height_for_version hf v, version l).

(** ** The schedules *)

Definition EXCHANGE_FUND_RELEASE_HEIGHT : Z := 199800.
Definition MAINNET_HARDFORK_V3_HEIGHT : Z := 116520.
Definition MAINNET_HARDFORK_V6_HEIGHT : Z := EXCHANGE_FUND_RELEASE_HEIGHT.
Definition MAINNET_HARDFORK_V7_HEIGHT : Z := 274000.
Definition MAINNET_HARDFORK_V8_HEIGHT : Z := MAINNET_HARDFORK_V7_HEIGHT + 360.

Definition mainnet_hard_forks : list hardfork_t := [
  mk_fork 1 1 0 1482806500; mk_fork 2 21300 0 1497657600; mk_fork 3 MAINNET_HARDFORK_V3_HEIGHT 0 1522800000;
  mk_fork 4 137500 0 1528045200; mk_fork 5 165000 0 1529643600; mk_fork 6 MAINNET_HARDFORK_V6_HEIGHT 0 1537065522;
  mk_fork 7 MAINNET_HARDFORK_V7_HEIGHT 0 1555234940; mk_fork 8 MAINNET_HARDFORK_V8_HEIGHT 0 1555321375;
  mk_fork 9 350000 0 1574120819; mk_fork 10 502257 0 1610700171; mk_fork 11 502617 0 1610786571].

Definition testnet_hard_forks : list hardfork_t := [
  mk_fork 1 1 0 1482806500; mk_fork 2 5150 0 1497181713; mk_fork 3 103580 0 1522540800; mk_fork 4 122452 0 1527699600;
  mk_fork 5 128680 0 1529308166; mk_fork 6 130500 0 1554265083; mk_fork 7 130530 0 1554465078; mk_fork 8 130560 0 1554479506;
  mk_fork 9 164100 0 1572592223; mk_fork 10 231580 0 1603158050; mk_fork 11 233500 0 1603638050].

Definition stagenet_hard_forks : list hardfork_t := testnet_hard_forks.

(** [for (n = 0; n < num_forks; ++n) m_hardfork->add_fork(...)]. *)
Definition add_forks (hf : HardFork) (forks : list hardfork_t) : HardFork :=
  foldl (fun hf f => (add_fork hf (version f) (height f) (threshold f) (time f)).2) hf forks.

(** [new HardFork( *db, 1, 0)], the forks of a network, and [init]. *)
Definition hardfork_of_network (counters : list Z) (forks : list hardfork_t) (db : BlockchainDB) : exc HardFork :=
  hf <~ hardfork_new counters 1 0 DEFAULT_FORKED_TIME DEFAULT_UPDATE_TIME DEFAULT_WINDOW_SIZE DEFAULT_THRESHOLD_PERCENT;
  init (add_forks hf forks) db.
End HardFork.
