(* ===== verification/HardForkCorrect.v ===== *)
(** The hard fork state machine refines a function of the chain: the window holds the votes of
    the last blocks, the counters count the window, and the index of the fork in force is the
    one that replaying the chain from its first block gives. *)
From S2P Require Import Prelude Exc HardFork.
From stdpp Require Import gmap sorting.

Local Open Scope Z_scope.

Module HardForkCorrect.
Import Exc HardFork.

(** ** Counters *)

Abbreviation byte := (fun v => 0 <= v < 256).

Definition occ (vs : list Z) (v : Z) : Z := Z.of_nat (count_occ Z.eq_dec vs v).

(** The counters of a window. *)
Definition tally (vs : list Z) : list Z := map (fun n => occ vs (Z.of_nat n)) (seq 0 256).

Lemma tally_lookup vs v : 0 <= v < 256 -> tally vs !! Z.to_nat v = Some (occ vs v).
Proof.
  intros Hv. unfold tally. rewrite list_lookup_fmap, lookup_seq_lt by lia. change (0 + Z.to_nat v)%nat with (Z.to_nat v). apply (f_equal Some). by rewrite Z2Nat.id by lia.
Qed.

Lemma tally_ext vs ws : (forall v, 0 <= v < 256 -> occ vs v = occ ws v) -> tally vs = tally ws.
Proof.
  intros H. apply map_ext_in. intros n Hn. apply in_seq in Hn. apply H. lia.
Qed.

Lemma occ_perm vs ws v : vs ≡ₚ ws -> occ vs v = occ ws v.
Proof. intros H. unfold occ. by rewrite (proj1 (Permutation_count_occ Z.eq_dec vs ws) H v). Qed.

Lemma tally_perm vs ws : vs ≡ₚ ws -> tally vs = tally ws.
Proof. intros H. apply tally_ext. intros v _. by apply occ_perm. Qed.

Lemma occ_cons vs v w : occ (v :: vs) w = (if Z.eq_dec v w then 1 else 0) + occ vs w.
Proof. unfold occ. cbn [count_occ]. destruct (Z.eq_dec v w); lia. Qed.

Lemma occ_bound vs v : 0 <= occ vs v <= Z.of_nat (length vs).
Proof. unfold occ. pose proof (count_occ_bound Z.eq_dec v vs). lia. Qed.

(** Changing one counter. *)
Lemma tally_insert vs ws v c : 0 <= v < 256 -> occ ws v = c -> (forall w, w <> v -> occ ws w = occ vs w) ->
  <[Z.to_nat v := c]> (tally vs) = tally ws.
Proof.
  intros Hv Hc Ho. apply list_eq. intros n. destruct (Nat.lt_ge_cases n 256) as [Hn | Hn].
  2: { rewrite !lookup_ge_None_2; [done | unfold tally; by rewrite length_map | unfold tally; by rewrite length_insert, length_map]. }
  rewrite <- (Nat2Z.id n). rewrite (tally_lookup ws) by lia. destruct (decide (Z.of_nat n = v)) as [<- | Hne].
  - rewrite list_lookup_insert_eq; [by rewrite Hc |]. unfold tally. rewrite length_map, length_seq. lia.
  - rewrite list_lookup_insert_ne by lia. by rewrite tally_lookup, Ho by lia.
Qed.

Lemma count_ok vs ws v : 0 <= v < 256 -> ws ≡ₚ v :: vs -> Z.of_nat (length ws) < 2 ^ 32 -> count (tally vs) v = Some (tally ws).
Proof.
  intros Hv P HL. unfold count. rewrite tally_lookup by done. cbn [mbind option_bind]. apply (f_equal Some). apply tally_insert; [done | |].
  - rewrite (occ_perm _ _ _ P), occ_cons. destruct (Z.eq_dec v v); [| done]. unfold wrap.
    pose proof (occ_bound vs v). apply Permutation_length in P. cbn [length] in P. rewrite Z.mod_small; lia.
  - intros w Hw. rewrite (occ_perm _ _ _ P), occ_cons. destruct (Z.eq_dec v w); [congruence | done].
Qed.

Lemma uncount_ok vs ws v : 0 <= v < 256 -> vs ≡ₚ v :: ws -> Z.of_nat (length vs) < 2 ^ 32 -> uncount (tally vs) v = Some (tally ws).
Proof.
  intros Hv P HL. unfold uncount. rewrite tally_lookup by done. cbn [mbind option_bind]. apply (f_equal Some).
  assert (E : forall w, occ vs w = occ (v :: ws) w) by (intros w; by apply occ_perm). apply tally_insert; [done | |].
  - rewrite E, occ_cons. destruct (Z.eq_dec v v); [| done]. unfold wrap. pose proof (occ_bound ws v). apply Permutation_length in P. cbn [length] in P.
    rewrite Z.mod_small; lia.
  - intros w Hw. rewrite E, occ_cons. destruct (Z.eq_dec v w); [congruence | done].
Qed.

(** ** The window *)

Definition last_n {A} (n : nat) (l : list A) : list A := drop (length l - n) l.

Lemma last_n_length {A} n (l : list A) : length (last_n n l) = Nat.min n (length l).
Proof. unfold last_n. rewrite length_drop. lia. Qed.

Lemma last_n_all {A} n (l : list A) : (length l <= n)%nat -> last_n n l = l.
Proof. intros H. unfold last_n. by replace (length l - n)%nat with 0%nat by lia. Qed.

Lemma last_n_snoc {A} n (l : list A) x : last_n (S n) (l ++ [x]) = last_n n l ++ [x].
Proof.
  unfold last_n. rewrite length_app. cbn [length]. replace (length l + 1 - S n)%nat with (length l - n)%nat by lia. by rewrite drop_app_le by lia.
Qed.

Lemma last_n_last_n {A} n m (l : list A) : (n <= m)%nat -> last_n n (last_n m l) = last_n n l.
Proof. intros H. unfold last_n. rewrite drop_drop, length_drop. f_equal. lia. Qed.

Lemma last_n_map {A B} (f : A -> B) n l : last_n n (map f l) = map f (last_n n l).
Proof. unfold last_n. by rewrite length_map, skipn_map. Qed.

(** The loop leaves room for one vote. *)
Lemma drop_old_ok NDEBUG (w : nat) vs : Forall byte vs -> Z.of_nat (length vs) < 2 ^ 32 ->
  drop_old NDEBUG (Z.of_nat (S w)) (tally vs) vs = Some (last_n w vs, tally (last_n w vs)).
Proof.
  intros Hb. induction Hb as [| v vs Hv Hb IH]; intros HL; cbn [drop_old].
  - by rewrite (proj2 (Z.leb_gt _ _)) by (cbn [length]; lia).
  - destruct (Z.leb_spec (Z.of_nat (S w)) (Z.of_nat (length (v :: vs)))) as [H | H]; [| rewrite last_n_all; [done | cbn [length] in *; lia]].
    rewrite tally_lookup by done. cbn [mbind option_bind]. assert (P : 1 <= occ (v :: vs) v) by (rewrite occ_cons; destruct (Z.eq_dec v v); [pose proof (occ_bound vs v); lia | done]).
    rewrite (proj2 (Z.ltb_ge _ _)), andb_false_r by lia.
    pose proof (uncount_ok (v :: vs) vs v Hv (Permutation_refl _) HL) as U. unfold uncount in U. rewrite tally_lookup in U by done.
    cbn [mbind option_bind] in U. apply (inj Some) in U. rewrite U, IH by (cbn [length] in *; lia).
    assert (E : last_n w (v :: vs) = last_n w vs); [| by rewrite E]. unfold last_n. cbn [length] in *. by replace (S (length vs) - w)%nat with (S (length vs - w)) by lia.
Qed.

(** ** Forks *)

(** Later forks have a greater version, height and time. *)
Definition before (f g : hardfork_t) : Prop := version f < version g /\ height f < height g /\ time f < time g.

Definition fork_ok (f : hardfork_t) : Prop := 0 <= version f < 256 /\ 0 <= threshold f <= 100 /\ 0 <= height f < 2 ^ 64.

Lemma sorted_before hs n m f g : StronglySorted before hs -> hs !! n = Some f -> hs !! m = Some g -> (n < m)%nat -> before f g.
Proof.
  intros Hs. revert n m. induction Hs as [| x l _ IH Hx]; intros n m Hn Hm Hlt; [discriminate Hn |].
  destruct m as [| m]; [lia |]. cbn [lookup list_lookup] in Hm. destruct n as [| n]; cbn [lookup list_lookup] in Hn.
  - apply (inj Some) in Hn. subst x. exact (proj1 (Forall_lookup _ _) Hx _ _ Hm).
  - apply (IH n m); [done | done | lia].
Qed.

Lemma sorted_versions hs n m f g : StronglySorted before hs -> hs !! n = Some f -> hs !! m = Some g -> version f = version g -> n = m.
Proof.
  intros Hs Hn Hm E. destruct (Nat.lt_trichotomy n m) as [H | [H | H]]; [| done |].
  - pose proof (sorted_before _ _ _ _ _ Hs Hn Hm H) as [H1 _]. lia.
  - pose proof (sorted_before _ _ _ _ _ Hs Hm Hn H) as [H1 _]. lia.
Qed.

Lemma sorted_index hs n f : StronglySorted before hs -> Forall fork_ok hs -> hs !! n = Some f -> Z.of_nat n <= version f.
Proof.
  intros Hs Hf. revert f. induction n as [| n IH]; intros f Hn; [pose proof (proj1 (Forall_lookup _ _) Hf _ _ Hn) as [H _]; lia |].
  destruct (lookup_lt_is_Some_2 hs n) as [g Hg]; [apply lookup_lt_Some in Hn; lia |]. pose proof (IH g Hg).
  pose proof (sorted_before _ _ _ _ _ Hs Hg Hn ltac:(lia)) as [H1 _]. lia.
Qed.

Lemma last_filter_max (P : nat -> bool) k n : (n < k)%nat -> P n = true -> exists m, last (filter (fun n => P n = true) (seq 0 k)) = Some m /\ (n <= m)%nat.
Proof.
  intros Hn HP. induction k as [| k IH]; [lia |]. rewrite seq_S, filter_app, filter_cons, filter_nil. cbn [Nat.add]. destruct (decide (P k = true)) as [Hk | Hk].
  - exists k. rewrite last_snoc. split; [done | lia].
  - rewrite app_nil_r. apply IH. destruct (decide (n = k)) as [-> | ?]; [done | lia].
Qed.

(** ** The specification *)

(** A window of [W] votes that the 32-bit counters hold, and forks in order, all but the first
    above the original version. *)
Record config_ok (c : HardFork) (W : nat) : Prop := {
  cfg_window : window_size c = Z.of_nat W;
  cfg_pos : (0 < W)%nat;
  cfg_max : Z.of_nat W * 100 + 99 < 2 ^ 32;
  cfg_sorted : StronglySorted before (heights c);
  cfg_forks : Forall fork_ok (heights c);
  cfg_ne : heights c <> [];
  cfg_original : forall n f, heights c !! n = Some f -> (0 < n)%nat -> original_version c < version f }.

Section Config.
Context (c : HardFork) (W : nat) (Hc : config_ok c W).
Let HW := cfg_window c W Hc.
Let W0 := cfg_pos c W Hc.
Let Wmax := cfg_max c W Hc.
Let Hs := cfg_sorted c W Hc.
Let Hf := cfg_forks c W Hc.
Let Hne := cfg_ne c W Hc.
Let Horig := cfg_original c W Hc.
Abbreviation hs := (heights c).

Lemma forks_pos : (0 < length hs)%nat.
Proof. destruct (length hs) eqn:E; [apply length_zero_iff_nil in E; by destruct (cfg_ne c W Hc) | lia]. Qed.

(** The object with a window and an index. *)
Definition state (vs : list Z) (i : nat) : HardFork := with_index (with_window c vs (tally vs)) i.

(** Votes a fork needs, and votes for it or a later one. *)
Definition needed (f : hardfork_t) : Z := (Z.of_nat W * threshold f + 99) / 100.

Definition supporters (n : nat) (vs : list Z) : nat := length (filter (fun v => v ∈ map version (drop n hs)) vs).

Definition in_force (vs : list Z) (h : Z) (n : nat) : bool :=
  match hs !! n with Some f => (height f <=? h) && (needed f <=? Z.of_nat (supporters n vs)) | None => false end.

(** The last fork in force. *)
Definition elected (vs : list Z) (h : Z) : option nat := last (filter (fun n => in_force vs h n = true) (seq 0 (length hs))).

Lemma supporters_step n f vs : hs !! n = Some f -> Z.of_nat (supporters n vs) = occ vs (version f) + Z.of_nat (supporters (S n) vs).
Proof.
  intros Hn. unfold supporters. rewrite (drop_S _ _ _ Hn). cbn [map].
  assert (Hnot : version f ∉ map version (drop (S n) hs)).
  { intros (g & E & Hg)%list_elem_of_fmap. apply list_elem_of_lookup in Hg as (m & Hg). rewrite lookup_drop in Hg.
    pose proof (sorted_versions _ _ _ _ _ Hs Hn Hg E). lia. }
  induction vs as [| v vs IH]; [done |]. rewrite !filter_cons, occ_cons. destruct (Z.eq_dec v (version f)) as [-> | Hv].
  - rewrite decide_True by (left). rewrite decide_False by done. cbn [length]. lia.
  - destruct (decide (v ∈ map version (drop (S n) hs))) as [H | H].
    + rewrite decide_True by (by right). cbn [length]. lia.
    + rewrite decide_False by (intros [E | E]%elem_of_cons; done). lia.
Qed.

Lemma supporters_bound n vs : (supporters n vs <= length vs)%nat.
Proof. apply length_filter. Qed.

Lemma needed_u32 f : fork_ok f -> wrap 32 (wrap 64 (wrap 64 (window_size c * threshold f) + 99) / 100) = needed f.
Proof.
  intros (_ & Ht & _). rewrite HW. unfold wrap, needed. assert (B : 0 <= Z.of_nat W * threshold f <= Z.of_nat W * 100) by nia.
  rewrite (Z.mod_small (Z.of_nat W * threshold f)) by lia. rewrite (Z.mod_small (_ + 99)) by lia. apply Z.mod_small. split; [apply Z.div_pos; lia |].
  apply Z.div_lt_upper_bound; lia.
Qed.

Lemma voted_loop_ok vs i h n : Z.of_nat (length vs) < 2 ^ 32 -> (n <= length hs)%nat ->
  voted_loop (state vs i) h n (Z.of_nat (supporters n vs)) = Some (default i (last (filter (fun n => in_force vs h n = true) (seq 0 n)))).
Proof.
  intros HL. induction n as [| n IH]; intros Hn; [done |]. cbn [voted_loop]. change (heights (state vs i)) with hs. change (last_versions (state vs i)) with (tally vs).
  destruct (lookup_lt_is_Some_2 hs n) as [f Ef]; [lia |]. rewrite Ef. cbn [mbind option_bind]. pose proof (proj1 (Forall_lookup _ _) Hf _ _ Ef) as Ff.
  rewrite tally_lookup by apply Ff. cbn [mbind option_bind]. change (window_size (state vs i)) with (window_size c). rewrite needed_u32 by done.
  rewrite Z.add_comm, <- (supporters_step n f vs Ef). unfold wrap at 1 2. pose proof (supporters_bound n vs). rewrite !Z.mod_small by lia.
  rewrite seq_S, filter_app, filter_cons, filter_nil. cbn [Nat.add]. assert (EF : in_force vs h n = (height f <=? h) && (needed f <=? Z.of_nat (supporters n vs))).
  { unfold in_force. by rewrite Ef. }
  rewrite <- EF. destruct (in_force vs h n) eqn:E.
  - rewrite decide_True by done. by rewrite last_snoc.
  - rewrite decide_False by done. rewrite app_nil_r. apply IH. lia.
Qed.

Lemma elected_bound vs h n : elected vs h = Some n -> (n < length hs)%nat.
Proof. intros E. apply last_Some_elem_of, list_elem_of_filter in E as [_ E]. apply elem_of_seq in E. lia. Qed.

Definition advanced (vs : list Z) (i : nat) (h : Z) : nat := Nat.max i (default i (elected vs h)).

Lemma voted_ok vs i h : Z.of_nat (length vs) < 2 ^ 32 -> voted_loop (state vs i) h (length hs) 0 = Some (default i (elected vs h)).
Proof.
  intros HL. pose proof (voted_loop_ok vs i h (length hs) HL ltac:(lia)) as E. etransitivity; [| exact E]. f_equal. unfold supporters. rewrite drop_ge by done.
  clear. induction vs as [| v vs IH]; [done |]. rewrite filter_cons, decide_False by apply not_elem_of_nil. exact IH.
Qed.

Lemma advance_ok vs i h : Z.of_nat (length vs) < 2 ^ 32 -> (i < length hs)%nat -> advance (state vs i) h = Some (state vs (advanced vs i h)).
Proof.
  intros HL Hi. unfold advance, get_voted_fork_index. change (heights (state vs i)) with hs. rewrite voted_ok by done. cbn [mbind option_bind].
  unfold advanced. set (n := default i (elected vs h)). assert (Hn : (n < length hs)%nat).
  { unfold n. destruct (elected vs h) as [m |] eqn:Em; [by apply (elected_bound vs h) | done]. }
  destruct (lookup_lt_is_Some_2 hs n Hn) as [f Ef]. pose proof (sorted_index _ _ _ Hs Hf Ef). pose proof (proj1 (Forall_lookup _ _) Hf _ _ Ef) as [Fv _].
  assert (E8 : Z.to_nat (wrap 8 (Z.of_nat n)) = n) by (unfold wrap; rewrite Z.mod_small by lia; lia). rewrite E8.
  change (current_fork_index (state vs i)) with i. destruct (Nat.ltb_spec i n); apply (f_equal Some); [by rewrite Nat.max_r by lia | by rewrite Nat.max_l by lia].
Qed.

Lemma advanced_bound vs i h : (i < length hs)%nat -> (i <= advanced vs i h < length hs)%nat.
Proof.
  intros Hi. unfold advanced. destruct (elected vs h) as [n |] eqn:E; cbn [from_option id]; [| lia]. apply elected_bound in E. lia.
Qed.

(** ** Votes *)

Definition block_ok (b : block) : Prop := 0 <= major_version b < 256 /\ 0 <= minor_version b < 256.

Definition vote (b : block) : Z := get_effective_version c (get_block_vote b).

Lemma vote_byte b : block_ok b -> 0 <= vote b < 256.
Proof.
  intros [_ Hb]. unfold vote, get_effective_version, get_block_vote. destruct (last hs) as [f |] eqn:E.
  - apply last_Some_elem_of, list_elem_of_lookup in E as (n & E). pose proof (proj1 (Forall_lookup _ _) Hf _ _ E) as [Fv _].
    destruct (minor_version b =? 0); destruct (_ <? _); lia.
  - destruct (_ =? 0); lia.
Qed.

(** The check of a block against the fork [i]. *)
Definition passes (i : nat) (b : block) : Prop := exists f, hs !! i = Some f /\ major_version b = version f /\ version f <= get_block_vote b.

Lemma check_ok vs i b : (i < length hs)%nat -> exists ok, check_block (state vs i) b = Some ok /\ (ok = true <-> passes i b).
Proof.
  intros Hi. destruct (lookup_lt_is_Some_2 hs i Hi) as [f Ef]. unfold check_block, do_check, get_block_version. change (heights (state vs i)) with hs.
  change (current_fork_index (state vs i)) with i. rewrite Ef. eexists. split; [reflexivity |]. rewrite andb_true_iff, Z.eqb_eq, Z.leb_le. split.
  - intros [E1 E2]. by exists f.
  - intros (g & Eg & E1 & E2). rewrite Ef in Eg. apply (inj Some) in Eg. by subst g.
Qed.

(** What a window must satisfy. *)
Definition window_ok (vs : list Z) : Prop := Forall byte vs /\ (length vs <= W)%nat.

Definition push (v : Z) (vs : list Z) : list Z := last_n (W - 1) vs ++ [v].

Lemma last_n_forall {A} (P : A -> Prop) n l : Forall P l -> Forall P (last_n n l).
Proof. apply Forall_drop. Qed.

Lemma push_ok v vs : 0 <= v < 256 -> window_ok vs -> window_ok (push v vs).
Proof.
  intros Hv [Hb HL]. split; [apply Forall_app; split; [by apply last_n_forall | by constructor] |].
  unfold push. rewrite length_app, last_n_length. cbn [length]. lia.
Qed.

Lemma add_ok NDEBUG vs i db b n f : block_ok b -> window_ok vs -> hs !! i = Some f -> passes i b -> Z.of_nat n + 1 < 2 ^ 64 ->
  add_block NDEBUG (state vs i) db b (Z.of_nat n) =
  ret (true, state (push (vote b) vs) (advanced (push (vote b) vs) i (Z.of_nat (S n))), set_hard_fork_version db (Z.of_nat n) (version f)).
Proof.
  intros Hb Hw Ef Hp Hn. pose proof (lookup_lt_Some _ _ _ Ef) as Hi. unfold add_block, add. destruct (check_ok vs i b Hi) as (ok & E & Hok).
  unfold check_block in E. rewrite E. ebind. rewrite (proj2 Hok Hp). cbn [negb]. change (heights (state vs i)) with hs. change (current_fork_index (state vs i)) with i.
  rewrite Ef. ebind. change (get_effective_version (state vs i) (get_block_vote b)) with (vote b). change (window_size (state vs i)) with (window_size c).
  change (last_versions (state vs i)) with (tally vs). change (versions (state vs i)) with vs. pose proof (vote_byte b Hb) as Hv. destruct Hw as [Hby HL].
  rewrite HW. replace W with (S (W - 1)) by lia. rewrite drop_old_ok by (done || lia). ebind. destruct (push_ok (vote b) vs Hv (conj Hby HL)) as [_ HP].
  rewrite (count_ok _ (push (vote b) vs)) by (done || lia || (unfold push; by rewrite Permutation_app_comm)). ebind.
  change (with_window (state vs i) (last_n (W - 1) vs ++ [vote b]) (tally (push (vote b) vs))) with (state (push (vote b) vs) i).
  unfold wrap at 1. rewrite Z.mod_small by lia. replace (Z.of_nat n + 1) with (Z.of_nat (S n)) by lia.
  rewrite advance_ok by (done || lia). by ebind.
Qed.

Lemma scan_ok db vs i (h n : nat) : Forall block_ok (blocks db) -> (h + n <= length (blocks db))%nat -> Z.of_nat (length vs + n) < 2 ^ 32 ->
  scan (state vs i) db (Z.of_nat h) n = ret (state (vs ++ map vote (take n (drop h (blocks db)))) i).
Proof.
  intros Hb. revert vs h. induction n as [| n IH]; intros vs h Hn HL; [cbn [scan take map]; by rewrite app_nil_r |].
  destruct (lookup_lt_is_Some_2 (blocks db) h) as [b Eb]; [lia |]. cbn [scan]. unfold get_block_from_height. rewrite Nat2Z.id, Eb. ebind.
  change (get_effective_version (state vs i) (get_block_vote b)) with (vote b). change (last_versions (state vs i)) with (tally vs). change (versions (state vs i)) with vs.
  rewrite (count_ok vs (vs ++ [vote b])); [| apply vote_byte; exact (proj1 (Forall_lookup _ _) Hb _ _ Eb) | by rewrite Permutation_app_comm | rewrite length_app; cbn [length]; lia].
  ebind. change (with_window (state vs i) (vs ++ [vote b]) (tally (vs ++ [vote b]))) with (state (vs ++ [vote b]) i).
  replace (Z.of_nat h + 1) with (Z.of_nat (S h)) by lia. rewrite IH by (rewrite ?length_app; cbn [length]; lia). rewrite (drop_S _ _ _ Eb). cbn [take map]. by rewrite <- app_assoc.
Qed.

(** ** Indices *)

Lemma lower_index_ok i j f : hs !! j = Some f -> (j <= i < length hs)%nat -> lower_index hs (version f) i = Some j.
Proof.
  intros Ej. induction i as [| i IH]; intros Hi; [by replace j with 0%nat by lia |]. cbn [lower_index].
  destruct (lookup_lt_is_Some_2 hs (S i)) as [g Eg]; [lia |]. rewrite Eg. cbn [mbind option_bind]. destruct (decide (j = S i)) as [-> | Hne'].
  - rewrite Ej in Eg. apply (inj Some) in Eg. subst g. by rewrite Z.ltb_irrefl.
  - pose proof (sorted_before _ _ _ _ _ Hs Ej Eg ltac:(lia)) as [H1 _]. rewrite (proj2 (Z.ltb_lt _ _)) by lia. apply IH. lia.
Qed.

Lemma lower_original i : (i < length hs)%nat -> lower_index hs (original_version c) i = Some 0%nat.
Proof.
  induction i as [| i IH]; intros Hi; [done |]. cbn [lower_index]. destruct (lookup_lt_is_Some_2 hs (S i) Hi) as [g Eg]. rewrite Eg. cbn [mbind option_bind].
  pose proof (Horig _ _ Eg ltac:(lia)). rewrite (proj2 (Z.ltb_lt _ _)) by lia. apply IH. lia.
Qed.

Lemma find_version_ok i j n f : hs !! j = Some f -> (i <= j)%nat -> (length hs <= i + n)%nat -> find_version hs (version f) i n = Some j.
Proof.
  intros Ej. pose proof (lookup_lt_Some _ _ _ Ej). revert i. induction n as [| n IH]; intros i Hi Hn; [lia |]. cbn [find_version].
  destruct (Nat.ltb_spec (i + 1) (length hs)) as [H1 | H1]; cbn [negb]; [| by replace j with i by lia].
  destruct (lookup_lt_is_Some_2 hs i) as [g Eg]; [lia |]. rewrite Eg. cbn [mbind option_bind]. destruct (Z.eqb_spec (version g) (version f)) as [E | E].
  - by rewrite (sorted_versions _ _ _ _ _ Hs Eg Ej E).
  - apply IH; [| lia]. destruct (decide (i = j)) as [-> | ?]; [congruence | lia].
Qed.

(** ** Replaying a chain *)

(** A chain, the fork in force at each height, and the windows that may stand at a height. *)
Record discipline (bs : list block) (idx : nat -> nat) (allowed : nat -> list Z -> Prop) : Prop := {
  d_blocks : Forall block_ok bs;
  d_length : Z.of_nat (length bs) + 1 < 2 ^ 64;
  d_ok : forall n vs, allowed n vs -> window_ok vs;
  d_window : forall n, (n <= length bs)%nat -> allowed n (last_n W (map vote (take n bs)));
  d_push : forall n vs b, bs !! n = Some b -> allowed n vs -> allowed (S n) (push (vote b) vs);
  d_idx : forall n vs, (n < length bs)%nat -> allowed (S n) vs -> advanced vs (idx n) (Z.of_nat (S n)) = idx (S n);
  d_0 : idx 0%nat = 0%nat }.

Section Replay.
Context (bs : list block) (idx : nat -> nat) (allowed : nat -> list Z -> Prop) (D : discipline bs idx allowed).
Let Hbs := d_blocks _ _ _ D.
Let Hlen := d_length _ _ _ D.
Let A_ok := d_ok _ _ _ D.
Let A_window := d_window _ _ _ D.
Let A_push := d_push _ _ _ D.
Let A_idx := d_idx _ _ _ D.
Let idx_0 := d_0 _ _ _ D.

(** Every block was accepted, and the table holds the version it was accepted under. *)
Definition accepted : Prop := forall n b, bs !! n = Some b -> passes (idx n) b.

Definition recorded (tbl : gmap Z Z) : Prop := forall n f, (n < length bs)%nat -> hs !! idx n = Some f -> tbl !! Z.of_nat n = Some (version f).

Lemma idx_bound n : (n <= length bs)%nat -> (idx n < length hs)%nat.
Proof.
  induction n as [| n IH]; intros Hn.
  - rewrite idx_0. apply forks_pos.
  - rewrite <- (A_idx n _ ltac:(lia) (A_window (S n) Hn)). apply advanced_bound, IH. lia.
Qed.

Lemma idx_mono n m : (n <= m <= length bs)%nat -> (idx n <= idx m)%nat.
Proof.
  intros [Hn Hm]. induction m as [| m IH]; [by replace n with 0%nat by lia |]. destruct (decide (n = S m)) as [-> | ?]; [done |].
  rewrite <- (A_idx m _ ltac:(lia) (A_window (S m) Hm)). pose proof (advanced_bound (last_n W (map vote (take (S m) bs))) (idx m) (Z.of_nat (S m)) (idx_bound m ltac:(lia))).
  specialize (IH ltac:(lia) ltac:(lia)). lia.
Qed.

Lemma table_at tbl n : recorded tbl -> (n < length bs)%nat -> exists f, hs !! idx n = Some f /\ tbl !! Z.of_nat n = Some (version f).
Proof.
  intros Hr Hn. destruct (lookup_lt_is_Some_2 hs (idx n)) as [f Ef]; [apply idx_bound; lia |]. exists f. split; [done |]. by apply Hr.
Qed.

Lemma add_again_ok NDEBUG tbl n k vs : accepted -> recorded tbl -> allowed n vs -> (n + k = length bs)%nat ->
  exists vs', add_again NDEBUG (state vs (idx n)) (mk_db bs tbl) (Z.of_nat n) k = ret (state vs' (idx (length bs)), mk_db bs tbl) /\ allowed (length bs) vs'.
Proof.
  intros Ha Hr. revert n vs. induction k as [| k IH]; intros n vs Hvs Hk.
  { exists vs. replace (length bs) with n by lia. by split. }
  destruct (lookup_lt_is_Some_2 bs n) as [b Eb]; [lia |]. cbn [add_again]. unfold get_block_from_height. cbn [blocks]. rewrite Nat2Z.id, Eb. ebind.
  destruct (table_at tbl n Hr ltac:(lia)) as (f & Ef & Et).
  rewrite (add_ok NDEBUG vs (idx n) _ b n f) by (done || (by apply (A_ok n)) || (by apply Ha) || lia || exact (proj1 (Forall_lookup _ _) Hbs _ _ Eb)). ebind.
  unfold set_hard_fork_version. cbn [blocks hf_versions]. rewrite insert_id by done. pose proof (A_push n vs b Eb Hvs) as Hp.
  rewrite A_idx by (done || lia). replace (Z.of_nat n + 1) with (Z.of_nat (S n)) by lia. apply IH; [done | lia].
Qed.

Lemma window_scan n : (n <= length bs)%nat -> map vote (take (n - (n - W)) (drop (n - W) bs)) = last_n W (map vote (take n bs)).
Proof. intros Hn. rewrite last_n_map. unfold last_n. rewrite length_take, Nat.min_l by lia. by rewrite skipn_firstn_comm. Qed.

Lemma reorganize_ok NDEBUG tbl n vs i : accepted -> recorded tbl -> (n < length bs)%nat -> (idx n <= i < length hs)%nat ->
  exists vs', reorganize_from_block_height NDEBUG (state vs i) (mk_db bs tbl) (Z.of_nat n) = ret (true, state vs' (idx (length bs)), mk_db bs tbl) /\ allowed (length bs) vs'.
Proof.
  intros Ha Hr Hn Hi. unfold reorganize_from_block_height, db_height. cbn [blocks]. rewrite (proj2 (Z.leb_gt _ _)) by lia.
  change (window_size (clear_window (state vs i))) with (window_size c). change (original_version (clear_window (state vs i))) with (original_version c).
  change (heights (clear_window (state vs i))) with hs. change (current_fork_index (clear_window (state vs i))) with i.
  destruct (table_at tbl n Hr Hn) as (f & Ef & Et).
  assert (E1 : exists start, (if Z.of_nat n =? 0 then ret (original_version c) else get_hard_fork_version (mk_db bs tbl) (Z.of_nat n)) = ret start /\
    lower_index hs start i = Some (idx n)).
  { destruct (Z.eqb_spec (Z.of_nat n) 0) as [E0 | E0].
    - exists (original_version c). split; [done |]. rewrite lower_original by lia. replace n with 0%nat by lia. by rewrite idx_0.
    - exists (version f). unfold get_hard_fork_version. cbn [hf_versions]. rewrite Et. split; [done |]. by apply lower_index_ok. }
  destruct E1 as (start & -> & EL). ebind. rewrite EL. ebind.
  assert (E2 : (if window_size c - 1 <=? Z.of_nat n then Z.of_nat n - (window_size c - 1) else 0) = Z.of_nat (S n - W)) by (rewrite HW; destruct (Z.leb_spec (Z.of_nat W - 1) (Z.of_nat n)); lia).
  rewrite E2. replace (Z.to_nat (Z.of_nat n + 1 - Z.of_nat (S n - W))) with (S n - (S n - W))%nat by lia.
  change (with_index (clear_window (state vs i)) (idx n)) with (state [] (idx n)). rewrite scan_ok by (cbn [blocks length]; done || lia). ebind.
  cbn [blocks]. rewrite app_nil_l, window_scan by lia. pose proof (A_window (S n) ltac:(lia)) as Hw. destruct (A_ok _ _ Hw) as [_ HL].
  unfold wrap. rewrite Z.mod_small by lia. replace (Z.of_nat n + 1) with (Z.of_nat (S n)) by lia.
  rewrite advance_ok by (lia || apply idx_bound; lia). ebind. rewrite A_idx by (done || lia).
  replace (Z.to_nat (Z.of_nat (length bs) - Z.of_nat (S n))) with (length bs - S n)%nat by lia.
  destruct (add_again_ok NDEBUG tbl (S n) (length bs - S n) _ Ha Hr Hw ltac:(lia)) as (vs' & -> & Hvs'). ebind. by exists vs'.
Qed.

Lemma rescan_ok tbl vs i : recorded tbl -> (0 < length bs)%nat ->
  rescan_from_block_height (state vs i) (mk_db bs tbl) (Z.of_nat (length bs - W)) = ret (true, state (last_n W (map vote bs)) (idx (length bs))).
Proof.
  intros Hr Hn. unfold rescan_from_block_height, db_height. cbn [blocks]. rewrite (proj2 (Z.leb_gt _ _)) by lia.
  change (clear_window (state vs i)) with (state [] i). replace (Z.to_nat (Z.of_nat (length bs) - Z.of_nat (length bs - W))) with (length bs - (length bs - W))%nat by lia.
  rewrite scan_ok by (cbn [blocks length]; done || lia). ebind. cbn [blocks]. rewrite app_nil_l, window_scan, firstn_all by lia.
  destruct (table_at tbl (length bs - 1) Hr ltac:(lia)) as (f & Ef & Et). unfold get_hard_fork_version. cbn [hf_versions].
  replace (Z.of_nat (length bs) - 1) with (Z.of_nat (length bs - 1)) by lia. rewrite Et. ebind.
  change (heights (state (last_n W (map vote bs)) i)) with hs. rewrite (find_version_ok 0 (idx (length bs - 1)) _ f) by (done || lia). ebind.
  change (with_index (state (last_n W (map vote bs)) i) (idx (length bs - 1))) with (state (last_n W (map vote bs)) (idx (length bs - 1))).
  pose proof (A_window (length bs) ltac:(lia)) as Hw. rewrite firstn_all in Hw. destruct (A_ok _ _ Hw) as [_ HL].
  rewrite advance_ok by (lia || apply idx_bound; lia). ebind.
  pose proof (A_idx (length bs - 1) (last_n W (map vote bs)) ltac:(lia)) as A. replace (S (length bs - 1)) with (length bs) in A by lia. by rewrite A.
Qed.

Lemma init_ok tbl vs i : recorded tbl -> init (state vs i) (mk_db bs tbl) = ret (state (last_n W (map vote bs)) (idx (length bs))).
Proof.
  intros Hr. unfold init. change (heights (state vs i)) with hs. assert (EM : match hs with [] => with_heights (state vs i) [mk_fork (original_version (state vs i)) 0 0 0] | _ :: _ => state vs i end = state vs i)
    by (clear - Hc; pose proof (cfg_ne c W Hc); by destruct hs).
  rewrite EM. cbv zeta.
  change (with_index (clear_window (state vs i)) 0) with (state [] 0). change (window_size (state [] 0)) with (window_size c). rewrite HW. unfold db_height. cbn [blocks].
  assert (E : (if Z.of_nat W <? Z.of_nat (length bs) then Z.of_nat (length bs) - (Z.of_nat W - 1) else 1) = Z.of_nat (length bs - W) + 1)
    by (destruct (Z.ltb_spec (Z.of_nat W) (Z.of_nat (length bs))); lia).
  rewrite E. unfold rescan_from_chain_height. rewrite (proj2 (Z.eqb_neq _ _)), Z.add_simpl_r by lia. destruct (Nat.eq_dec (length bs) 0%nat) as [E0 | E0].
  - unfold rescan_from_block_height, db_height. cbn [blocks]. rewrite (proj2 (Z.leb_le _ _)) by lia. ebind. apply length_zero_iff_nil in E0. rewrite E0. cbn [length]. by rewrite idx_0.
  - rewrite rescan_ok by (done || lia). by ebind.
Qed.
End Replay.

(** ** The schedule *)

Definition reached (h : Z) (n : nat) : bool := match hs !! n with Some f => height f <=? h | None => false end.

(** The last fork whose height is reached, by height alone. *)
Definition scheduled (h : Z) : nat := default 0%nat (last (filter (fun n => reached h n = true) (seq 0 (length hs)))).

Lemma fork_at_ok h i : (i < length hs)%nat -> fork_at hs h i = Some (default 0%nat (last (filter (fun n => reached h n = true) (seq 0 (S i))))).
Proof.
  induction i as [| i IH]; intros Hi.
  - cbn [fork_at seq]. rewrite filter_cons. by destruct (decide _).
  - destruct (lookup_lt_is_Some_2 hs (S i) Hi) as [f Ef]. cbn [fork_at]. rewrite Ef. cbn [mbind option_bind]. rewrite seq_S, filter_app, filter_cons, filter_nil.
    cbn [Nat.add]. assert (E : reached h (S i) = (height f <=? h)) by (unfold reached; by rewrite Ef). destruct (height f <=? h).
    + rewrite decide_True by done. by rewrite last_snoc.
    + rewrite decide_False by (by rewrite E). rewrite app_nil_r. apply IH. lia.
Qed.

Lemma reached_scheduled h n : reached h n = true -> (n <= scheduled h)%nat.
Proof.
  intros Hr. unfold scheduled. destruct (last_filter_max (reached h) (length hs) n) as (m & -> & Hm); [| done | done].
  unfold reached in Hr. destruct (hs !! n) eqn:E; [by apply lookup_lt_Some in E | done].
Qed.

Lemma reached_mono h h' n : h <= h' -> reached h n = true -> reached h' n = true.
Proof. unfold reached. intros Hh. destruct (hs !! n) as [f |]; [| done]. rewrite !Z.leb_le. lia. Qed.

Lemma scheduled_cases h : scheduled h = 0%nat \/ reached h (scheduled h) = true.
Proof.
  unfold scheduled. destruct (last _) as [m |] eqn:E; [right | by left]. apply last_Some_elem_of, list_elem_of_filter in E as [E _]. exact E.
Qed.

Lemma scheduled_mono h h' : h <= h' -> (scheduled h <= scheduled h')%nat.
Proof. intros Hh. destruct (scheduled_cases h) as [-> | Hr]; [lia |]. by apply reached_scheduled, (reached_mono h). Qed.

Lemma scheduled_bound h : (scheduled h < length hs)%nat.
Proof.
  destruct (scheduled_cases h) as [-> | Hr]; [apply forks_pos |]. unfold reached in Hr. destruct (hs !! scheduled h) eqn:E; [by apply lookup_lt_Some in E | done].
Qed.

Lemma elected_reached vs h n : elected vs h = Some n -> reached h n = true.
Proof.
  intros E. apply last_Some_elem_of, list_elem_of_filter in E as [E _]. unfold in_force in E. unfold reached. destruct (hs !! n); [| done].
  by apply andb_prop in E as [E _].
Qed.

(** Voting never puts a fork in force before its height. *)
Lemma advanced_scheduled vs i h : (i <= scheduled h)%nat -> (advanced vs i h <= scheduled h)%nat.
Proof.
  intros Hi. unfold advanced. destruct (elected vs h) as [n |] eqn:E; cbn [from_option id]; [| lia]. apply elected_reached, reached_scheduled in E. lia.
Qed.

(** ** Popped blocks *)

Lemma pop_ok vs i bs tbl v : window_ok vs -> vs <> [] -> bs <> [] -> Z.of_nat (length bs) + 1 < 2 ^ 64 -> tbl !! Z.of_nat (length bs) = Some v -> 0 <= v < 256 ->
  on_block_popped (state vs i) (mk_db bs tbl) 1 = ret (state (v :: removelast vs) (scheduled (Z.of_nat (length bs)))).
Proof.
  intros [Hb HL] Hvs Hbs Hn Ht Hv. assert (0 < length bs)%nat by (destruct bs; [done | cbn [length]; lia]).
  unfold on_block_popped, db_height. cbn [blocks]. change (check (0 <? 1)) with (check true). rewrite check_true. ebind. unfold wrap at 1 2. rewrite (Z.mod_small (_ + 1)) by lia.
  rewrite Z.add_simpl_r, Z.mod_small by lia. change (Z.to_nat 1) with 1%nat. cbn [pop_votes]. rewrite Z.leb_refl. cbn [negb].
  change (versions (state vs i)) with vs. change (last_versions (state vs i)) with (tally vs).
  destruct (exists_last Hvs) as (ws & x & ->). rewrite last_snoc, removelast_last. ebind. apply Forall_app in Hb as [Hb Hx%Forall_cons_1]. rewrite length_app in HL. cbn [length] in HL.
  rewrite (uncount_ok (ws ++ [x]) ws x) by (apply Hx || (by rewrite Permutation_app_comm) || (rewrite length_app; cbn [length]; lia)). ebind.
  unfold get_hard_fork_version. cbn [hf_versions]. rewrite Ht. ebind. rewrite (count_ok ws (v :: ws)) by (done || (cbn [length]; lia)). ebind.
  unfold wrap. rewrite Z.mod_small, (proj2 (Z.leb_gt _ _)) by lia. cbn [negb]. ebind.
  change (heights (state (ws ++ [x]) i)) with hs. assert (EF : match hs with [] => None | _ :: l => fork_at hs (Z.of_nat (length bs)) (length l) end = Some (scheduled (Z.of_nat (length bs)))).
  { pose proof (fork_at_ok (Z.of_nat (length bs)) (length hs - 1)) as F. pose proof forks_pos.
    replace (S (length hs - 1)) with (length hs) in F by lia. specialize (F ltac:(lia)). unfold scheduled. rewrite <- F. clear - Hc. pose proof (cfg_ne c W Hc).
    destruct hs as [| f l]; [done |]. cbn [length]. by rewrite Nat.sub_1_r. }
  rewrite EF. by ebind.
Qed.
End Config.
End HardForkCorrect.
