(* ===== verification/HardForkTheorems.v ===== *)
(** What the hard fork state machine promises over any sequence of blocks, pops, rollbacks,
    reorganisations and restarts. *)
From S2P Require Import Prelude Exc HardFork HardForkCorrect.
From stdpp Require Import gmap sorting.

Local Open Scope Z_scope.

Module HardForkTheorems.
Import Exc HardFork HardForkCorrect.

(** ** Events *)

(** What happens to the object and its chain. *)
Inductive event :=
  | NewBlock (b : block)
  | Pop
  | Reorganize (h : Z)
  | Rollback (original_chain : list block) (h : Z)
  | Restart.

Definition exec (NDEBUG : bool) (s : HardFork * BlockchainDB) (ev : event) : exc (HardFork * BlockchainDB) :=
  let '(hf, db) := s in
  match ev with
  | NewBlock b => '(_, hf, db) <~ handle_block_to_main_chain NDEBUG hf db b; ret (hf, db)
  | Pop => pop_block_from_blockchain hf db
  | Reorganize h => '(_, hf, db) <~ reorganize_from_chain_height NDEBUG hf db h; ret (hf, db)
  | Rollback chain h => '(_, hf, db) <~ rollback_blockchain_switching NDEBUG hf db chain h; ret (hf, db)
  | Restart => hf <~ init hf db; ret (hf, db)
  end.

Fixpoint run (NDEBUG : bool) (s : HardFork * BlockchainDB) (evs : list event) : exc (HardFork * BlockchainDB) :=
  match evs with
  | [] => ret s
  | ev :: evs => s <~ exec NDEBUG s ev; run NDEBUG s evs
  end.

Section Configured.
Context (c : HardFork) (W : nat) (Hc : config_ok c W).
Abbreviation hs := (heights c).

(** ** Chains under a discipline *)

(** A rule gives the fork in force at each height of a chain and the windows that may stand
    there; it looks at a chain only up to the height. *)
Record rule := mk_rule { r_idx : list block -> nat -> nat; r_allowed : list block -> nat -> list Z -> Prop }.

Record rule_ok (R : rule) : Prop := {
  r_discipline : forall bs, Forall block_ok bs -> Z.of_nat (length bs) + 1 < 2 ^ 64 -> discipline c W bs (r_idx R bs) (r_allowed R bs);
  r_prefix : forall bs cs n, (n <= length bs)%nat -> r_idx R (bs ++ cs) n = r_idx R bs n;
  r_prefix_allowed : forall bs cs n vs, (n <= length bs)%nat -> r_allowed R (bs ++ cs) n vs <-> r_allowed R bs n vs;
  r_scheduled : forall bs n, (r_idx R bs n <= scheduled c (Z.of_nat n))%nat;
  r_nonempty : forall bs n vs, (0 < n <= length bs)%nat -> r_allowed R bs n vs -> vs <> [] }.

Section Ruled.
Context (R : rule) (HR : rule_ok R).
Abbreviation idx := (r_idx R).
Abbreviation allowed := (r_allowed R).

(** Every block passed under the fork in force, and the table says so. *)
Record chain_ok (bs : list block) (tbl : gmap Z Z) : Prop := {
  c_blocks : Forall block_ok bs;
  c_length : Z.of_nat (length bs) + 1 < 2 ^ 64;
  c_accepted : accepted c bs (idx bs);
  c_recorded : recorded c bs (idx bs) tbl }.

Lemma chain_discipline bs tbl : chain_ok bs tbl -> discipline c W bs (idx bs) (allowed bs).
Proof. intros [Hb Hl _ _]. by apply (r_discipline R HR). Qed.

Lemma chain_prefix bs cs tbl : chain_ok (bs ++ cs) tbl -> chain_ok bs tbl.
Proof.
  intros [Hb Hl Ha Hr]. rewrite length_app in Hl. split; [by apply Forall_app in Hb as [Hb _] | lia | |].
  - intros n b En. pose proof (lookup_lt_Some _ _ _ En). rewrite <- (r_prefix R HR bs cs n) by lia. apply Ha. by apply lookup_app_l_Some.
  - intros n f Hn En. apply Hr; [rewrite length_app; lia |]. by rewrite (r_prefix R HR) by lia.
Qed.

Lemma chain_snoc bs tbl b f : chain_ok bs tbl -> block_ok b -> Z.of_nat (length bs) + 2 < 2 ^ 64 -> passes c (idx bs (length bs)) b ->
  hs !! idx bs (length bs) = Some f -> chain_ok (bs ++ [b]) (<[Z.of_nat (length bs) := version f]> tbl).
Proof.
  intros [Hb Hl Ha Hr] Hbk HL Hp Ef. split.
  - apply Forall_app. split; [done | by constructor].
  - rewrite length_app. cbn [length]. lia.
  - intros n b' En. apply lookup_snoc_Some in En as [[Hn En] | [-> ->]].
    + rewrite (r_prefix R HR) by lia. by apply Ha.
    + by rewrite (r_prefix R HR) by lia.
  - intros n g Hn En. rewrite length_app in Hn. cbn [length] in Hn. rewrite (r_prefix R HR) in En by lia. destruct (decide (n = length bs)) as [-> | Hne].
    + rewrite Ef in En. apply (inj Some) in En. subst g. by rewrite lookup_insert_eq.
    + rewrite lookup_insert_ne by lia. apply Hr; [lia | done].
Qed.

(** The object on a chain: the window is one of those that may stand there. *)
Definition settled (s : HardFork * BlockchainDB) : Prop :=
  chain_ok (blocks s.2) (hf_versions s.2) /\
  exists vs, s.1 = state c vs (idx (blocks s.2) (length (blocks s.2))) /\ allowed (blocks s.2) (length (blocks s.2)) vs.

Lemma settled_block NDEBUG hf bs tbl b : settled (hf, mk_db bs tbl) -> block_ok b -> Z.of_nat (length bs) + 2 < 2 ^ 64 ->
  exists ok hf' db', handle_block_to_main_chain NDEBUG hf (mk_db bs tbl) b = ret (ok, hf', db') /\ settled (hf', db') /\
    (ok = true <-> passes c (idx bs (length bs)) b) /\ blocks db' = (if ok then bs ++ [b] else bs).
Proof.
  intros (Hch & vs & E & Hvs) Hb HL. cbn [fst snd blocks hf_versions] in *. subst hf. pose proof (chain_discipline _ _ Hch) as D.
  pose proof (idx_bound c W Hc bs _ _ D (length bs) ltac:(lia)) as Hi. unfold handle_block_to_main_chain.
  destruct (check_ok c vs (idx bs (length bs)) b Hi) as (ok & -> & Hok). ebind. exists ok. destruct ok; cbn [negb].
  2: { exists (state c vs (idx bs (length bs))), (mk_db bs tbl). split; [done |]. split; [| done]. split; [done |]. by exists vs. }
  destruct (lookup_lt_is_Some_2 hs _ Hi) as [f Ef]. pose proof (proj1 Hok eq_refl) as Hp. unfold db_add_block. cbn [blocks hf_versions]. change (db_height (mk_db bs tbl)) with (Z.of_nat (length bs)).
  rewrite (add_ok c W Hc NDEBUG vs _ _ b _ f) by (done || (by apply (d_ok _ _ _ _ _ D (length bs))) || lia). do 2 ebind. unfold set_hard_fork_version. cbn [blocks hf_versions].
  eexists _, _. split; [reflexivity |]. split; [| done]. cbn [blocks]. pose proof (chain_snoc bs tbl b f Hch Hb HL Hp Ef) as Hch'. split; [done |]. cbn [fst snd blocks].
  pose proof (chain_discipline _ _ Hch') as D'. assert (Hl : length (bs ++ [b]) = S (length bs)) by (rewrite length_app; cbn [length]; lia). rewrite Hl.
  assert (Hp' : allowed (bs ++ [b]) (S (length bs)) (push W (vote c b) vs)).
  { apply (d_push _ _ _ _ _ D'); [by apply list_lookup_middle |]. by apply (r_prefix_allowed R HR). }
  exists (push W (vote c b) vs). split; [| done]. f_equal. rewrite <- (d_idx _ _ _ _ _ D' (length bs) _ ltac:(lia) Hp'). by rewrite (r_prefix R HR) by lia.
Qed.

(** ** Between pops and a reorganisation *)

(** The window may be any, and the fork may be ahead of the rule. *)
Definition loose (s : HardFork * BlockchainDB) : Prop :=
  chain_ok (blocks s.2) (hf_versions s.2) /\
  exists vs i, s.1 = state c vs i /\ window_ok W vs /\ vs <> [] /\ (idx (blocks s.2) (length (blocks s.2)) <= i < length hs)%nat.

Lemma settled_loose hf bs tbl : settled (hf, mk_db bs tbl) -> bs <> [] -> loose (hf, mk_db bs tbl).
Proof.
  intros (Hch & vs & E & Hvs) Hne. cbn [fst snd blocks hf_versions] in *. split; [done |]. pose proof (chain_discipline _ _ Hch) as D.
  exists vs, (idx bs (length bs)). split; [done |]. split; [by apply (d_ok _ _ _ _ _ D (length bs)) |]. split.
  - apply (r_nonempty R HR bs (length bs)); [| done]. destruct bs; [done | cbn [length]; lia].
  - split; [done |]. by apply (idx_bound c W Hc bs _ _ D).
Qed.

Lemma loose_pop hf bs b tbl : loose (hf, mk_db (bs ++ [b]) tbl) -> bs <> [] ->
  exists vs, pop_block_from_blockchain hf (mk_db (bs ++ [b]) tbl) = ret (state c vs (scheduled c (Z.of_nat (length bs))), mk_db bs tbl) /\
    window_ok W vs /\ vs <> [] /\ chain_ok bs tbl.
Proof.
  intros (Hch & vs & i & E & Hw & Hvs & Hi) Hne. cbn [fst snd blocks hf_versions] in *. subst hf. pose proof (chain_discipline _ _ Hch) as D.
  assert (Hl : length (bs ++ [b]) = S (length bs)) by (rewrite length_app; cbn [length]; lia). assert (0 < length bs)%nat by (destruct bs; [done | cbn [length]; lia]).
  pose proof (d_length _ _ _ _ _ D) as HL. destruct (table_at c W Hc _ _ _ D tbl (length bs) (c_recorded _ _ Hch) ltac:(lia)) as (f & Ef & Et).
  pose proof (proj1 (Forall_lookup _ _) (cfg_forks c W Hc) _ _ Ef) as [Fv _].
  unfold pop_block_from_blockchain, db_height. cbn [blocks hf_versions]. rewrite Hl, (proj2 (Z.ltb_lt _ _)), check_true by lia. ebind. rewrite removelast_last.
  rewrite (pop_ok c W Hc vs i bs tbl (version f)) by (done || lia). ebind. eexists. split; [reflexivity |]. split; [| split; [done | by apply (chain_prefix bs [b])]].
  destruct Hw as [Hb HLw]. destruct (exists_last Hvs) as (ws & x & ->). rewrite removelast_last. apply Forall_app in Hb as [Hb _]. rewrite length_app in HLw.
  split; [by constructor | cbn [length] in *; lia].
Qed.

Lemma popped_loose bs tbl vs : chain_ok bs tbl -> window_ok W vs -> vs <> [] -> loose (state c vs (scheduled c (Z.of_nat (length bs))), mk_db bs tbl).
Proof.
  intros Hch Hw Hvs. split; [done |]. exists vs, (scheduled c (Z.of_nat (length bs))). cbn [fst snd blocks]. split; [done |]. split; [done |]. split; [done |].
  split; [apply (r_scheduled R HR) | apply (scheduled_bound c W Hc)].
Qed.

Lemma pop_to_ok fuel hf bs cs tbl : loose (hf, mk_db (bs ++ cs) tbl) -> bs <> [] -> (length cs <= fuel)%nat ->
  exists hf', pop_to fuel hf (mk_db (bs ++ cs) tbl) (Z.of_nat (length bs)) = ret (hf', mk_db bs tbl) /\ loose (hf', mk_db bs tbl).
Proof.
  intros Hlo Hne. revert fuel hf Hlo. induction cs as [| x cs IH] using rev_ind; intros fuel hf Hlo Hf.
  { rewrite app_nil_r in *. exists hf. split; [| done]. unfold db_height. destruct fuel; cbn [pop_to blocks]; unfold db_height; cbn [blocks]; by rewrite Z.eqb_refl. }
  rewrite length_app in Hf. cbn [length] in Hf. destruct fuel as [| fuel]; [lia |]. cbn [pop_to]. unfold db_height at 1. cbn [blocks].
  rewrite (proj2 (Z.eqb_neq _ _)) by (rewrite !length_app; cbn [length]; lia). rewrite app_assoc in *.
  destruct (loose_pop hf (bs ++ cs) x tbl Hlo) as (vs & -> & Hw & Hvs & Hch); [by destruct bs |]. ebind.
  apply IH; [by apply popped_loose | lia].
Qed.

(** ** The other events *)

Lemma reorganize_settled NDEBUG hf bs tbl h : loose (hf, mk_db bs tbl) -> 0 < h <= Z.of_nat (length bs) ->
  exists hf', reorganize_from_chain_height NDEBUG hf (mk_db bs tbl) h = ret (true, hf', mk_db bs tbl) /\ settled (hf', mk_db bs tbl).
Proof.
  intros (Hch & vs & i & E & _ & _ & Hi) Hh. cbn [fst snd blocks hf_versions] in *. subst hf. pose proof (chain_discipline _ _ Hch) as D.
  unfold reorganize_from_chain_height. rewrite (proj2 (Z.eqb_neq _ _)) by lia. replace (h - 1) with (Z.of_nat (Z.to_nat (h - 1))) by lia.
  pose proof (idx_mono c W Hc bs _ _ D (Z.to_nat (h - 1)) (length bs) ltac:(lia)).
  destruct (reorganize_ok c W Hc bs _ _ D NDEBUG tbl (Z.to_nat (h - 1)) vs i (c_accepted _ _ Hch) (c_recorded _ _ Hch)) as (vs' & -> & Hvs'); [lia | lia |].
  eexists. split; [reflexivity |]. split; [done |]. by exists vs'.
Qed.

Lemma reorganize_nothing NDEBUG hf bs tbl h : h = 0 \/ Z.of_nat (length bs) < h -> reorganize_from_chain_height NDEBUG hf (mk_db bs tbl) h = ret (false, hf, mk_db bs tbl).
Proof.
  intros Hh. unfold reorganize_from_chain_height. destruct (Z.eqb_spec h 0) as [-> | H0]; [done |]. unfold reorganize_from_block_height, db_height. cbn [blocks].
  by rewrite (proj2 (Z.leb_le _ _)) by lia.
Qed.

Lemma restart_settled hf bs tbl : settled (hf, mk_db bs tbl) -> exists hf', init hf (mk_db bs tbl) = ret hf' /\ settled (hf', mk_db bs tbl).
Proof.
  intros (Hch & vs & E & _). cbn [fst snd blocks hf_versions] in *. subst hf. pose proof (chain_discipline _ _ Hch) as D.
  rewrite (init_ok c W Hc bs _ _ D tbl _ _ (c_recorded _ _ Hch)). eexists. split; [reflexivity |]. split; [done |]. eexists. split; [reflexivity |].
  pose proof (d_window _ _ _ _ _ D (length bs) ltac:(lia)) as Hw. by rewrite firstn_all in Hw.
Qed.

Lemma handle_blocks_ok NDEBUG hf bs tbl chain : settled (hf, mk_db bs tbl) -> Forall block_ok chain -> Z.of_nat (length bs + length chain) + 1 < 2 ^ 64 ->
  exists ok hf' tbl' cs, handle_blocks NDEBUG hf (mk_db bs tbl) chain = ret (ok, hf', mk_db (bs ++ cs) tbl') /\ settled (hf', mk_db (bs ++ cs) tbl') /\
    (ok = true -> cs = chain) /\ (length cs <= length chain)%nat.
Proof.
  intros Hst Hb. revert hf bs tbl Hst. induction Hb as [| b chain Hbk _ IH]; intros hf bs tbl Hst HL; cbn [handle_blocks].
  { exists true, hf, tbl, []. by rewrite app_nil_r. }
  cbn [length] in HL. destruct (settled_block NDEBUG hf bs tbl b Hst Hbk ltac:(lia)) as (ok & hf' & [bs' tbl'] & -> & Hst' & _ & Ebs). cbn [blocks] in Ebs. subst bs'. ebind.
  destruct ok; [| exists false, hf', tbl', []; rewrite app_nil_r; cbn [length]; split_and!; [done | done | done | lia]].
  destruct (IH hf' (bs ++ [b]) tbl' Hst') as (ok & hf2 & tbl2 & cs & E & Hst2 & Hcs & Hl); [rewrite length_app; cbn [length]; lia |].
  exists ok, hf2, tbl2, (b :: cs). rewrite <- app_assoc in E, Hst2. cbn [length]. split_and!; [done | done | intros Ho; by rewrite Hcs | lia].
Qed.

Lemma rollback_ok NDEBUG hf bs cs tbl chain : settled (hf, mk_db (bs ++ cs) tbl) -> bs <> [] -> Forall block_ok chain ->
  Z.of_nat (length bs + length chain) + 1 < 2 ^ 64 ->
  exists ok hf' tbl' cs', rollback_blockchain_switching NDEBUG hf (mk_db (bs ++ cs) tbl) chain (Z.of_nat (length bs)) = ret (ok, hf', mk_db (bs ++ cs') tbl') /\
    settled (hf', mk_db (bs ++ cs') tbl') /\ (ok = true -> cs' = chain) /\ (length cs' <= length chain)%nat.
Proof.
  intros Hst Hne Hb HL. assert (0 < length bs)%nat by (destruct bs; [done | cbn [length]; lia]). unfold rollback_blockchain_switching, db_height. cbn [blocks].
  rewrite (proj2 (Z.ltb_ge _ _)) by (rewrite length_app; lia). pose proof (settled_loose _ _ _ Hst ltac:(by destruct bs)) as Hlo.
  destruct (pop_to_ok (length (bs ++ cs)) hf bs cs tbl Hlo Hne) as (hf1 & -> & Hlo1); [rewrite length_app; lia |]. ebind.
  destruct (reorganize_settled NDEBUG hf1 bs tbl (Z.of_nat (length bs)) Hlo1 ltac:(lia)) as (hf2 & -> & Hst2). ebind.
  destruct (handle_blocks_ok NDEBUG hf2 bs tbl chain Hst2 Hb HL) as (ok & hf3 & tbl3 & cs' & -> & Hst3 & Hok & Hl). ebind.
  destruct ok; cbn [negb]; [| by exists false, hf3, tbl3, cs'].
  destruct (reorganize_settled NDEBUG hf3 (bs ++ cs') tbl3 (Z.of_nat (length bs))) as (hf4 & -> & Hst4); [by apply settled_loose; [| destruct bs] | rewrite length_app; lia |].
  ebind. by exists true, hf4, tbl3, cs'.
Qed.

(** ** One event *)

Definition weight (ev : event) : nat := match ev with NewBlock _ => 1 | Rollback chain _ => length chain | _ => 0 end.

Definition event_ok (ev : event) : Prop :=
  match ev with
  | NewBlock b => block_ok b
  | Pop => True
  | Reorganize h => 0 <= h
  | Rollback chain h => Forall block_ok chain /\ 0 < h
  | Restart => True
  end.

Lemma rollback_settled NDEBUG hf bs tbl chain h : settled (hf, mk_db bs tbl) -> Forall block_ok chain -> 0 < h -> Z.of_nat (length bs + length chain) + 1 < 2 ^ 64 ->
  exists ok hf' db', rollback_blockchain_switching NDEBUG hf (mk_db bs tbl) chain h = ret (ok, hf', db') /\ settled (hf', db') /\
    (length (blocks db') <= length bs + length chain)%nat.
Proof.
  intros Hst Hb Hh HL. destruct (Z.lt_ge_cases (Z.of_nat (length bs)) h) as [Hgt | Hle].
  { exists true, hf, (mk_db bs tbl). unfold rollback_blockchain_switching, db_height. cbn [blocks]. rewrite (proj2 (Z.ltb_lt _ _)) by lia. split_and!; [done | done | cbn [blocks]; lia]. }
  assert (Hsp : exists bs1 cs, bs = bs1 ++ cs /\ h = Z.of_nat (length bs1)).
  { exists (take (Z.to_nat h) bs), (drop (Z.to_nat h) bs). rewrite take_drop, length_take. split; [done | lia]. }
  destruct Hsp as (bs1 & cs & -> & ->). rewrite length_app in HL |- *.
  destruct (rollback_ok NDEBUG hf bs1 cs tbl chain Hst) as (ok & hf' & tbl' & cs' & E & Hst' & _ & Hl); [by intros -> | done | lia |].
  exists ok, hf', (mk_db (bs1 ++ cs') tbl'). split; [done |]. split; [done |]. cbn [blocks]. rewrite length_app. lia.
Qed.

Lemma exec_settled NDEBUG s ev : settled s -> event_ok ev -> ev <> Pop -> Z.of_nat (length (blocks s.2) + weight ev) + 1 < 2 ^ 64 ->
  exists s', exec NDEBUG s ev = ret s' /\ settled s' /\ (length (blocks s'.2) <= length (blocks s.2) + weight ev)%nat.
Proof.
  destruct s as [hf [bs tbl]]. cbn [snd blocks]. intros Hst Hev Hne HL. destruct ev as [b | | h | chain h |]; cbn [weight] in *; [| done | | |]; unfold exec.
  - destruct (settled_block NDEBUG hf bs tbl b Hst Hev ltac:(lia)) as (ok & hf' & db' & -> & Hst' & _ & E). ebind. exists (hf', db'). split; [done |]. split; [done |].
    cbn [snd]. rewrite E. destruct ok; rewrite ?length_app; cbn [length]; lia.
  - destruct (decide (h = 0 \/ Z.of_nat (length bs) < h)) as [H0 | H0].
    + rewrite reorganize_nothing by done. ebind. exists (hf, mk_db bs tbl). split_and!; [done | done | cbn [snd blocks]; lia].
    + cbn [event_ok] in Hev. destruct (reorganize_settled NDEBUG hf bs tbl h) as (hf' & -> & Hst'); [apply settled_loose; [done | intros ->; cbn [length] in H0; lia] | lia |].
      ebind. exists (hf', mk_db bs tbl). split_and!; [done | done | cbn [snd blocks]; lia].
  - destruct Hev as [Hb Hh]. destruct (rollback_settled NDEBUG hf bs tbl chain h Hst Hb Hh HL) as (ok & hf' & db' & -> & Hst' & Hl). ebind. by exists (hf', db').
  - destruct (restart_settled hf bs tbl Hst) as (hf' & -> & Hst'). ebind. exists (hf', mk_db bs tbl). split_and!; [done | done | cbn [snd blocks]; lia].
Qed.
End Ruled.

(** ** The rule of replaying *)

(** The votes in the window at a chain, and the fork in force after its first [n] blocks. *)
Definition votes (bs : list block) : list Z := last_n W (map (vote c) bs).

Fixpoint index_at (bs : list block) (n : nat) : nat :=
  match n with
  | O => O
  | S n => advanced c W (votes (take (S n) bs)) (index_at bs n) (Z.of_nat (S n))
  end.

Definition replay : rule := mk_rule index_at (fun bs n vs => vs = votes (take n bs)).

Lemma votes_ok bs : Forall block_ok bs -> window_ok W (votes bs).
Proof.
  intros Hb. split; [| unfold votes; rewrite last_n_length; lia]. apply last_n_forall, Forall_map. exact (List.Forall_impl _ (vote_byte c W Hc) Hb).
Qed.

Lemma votes_push bs b : push W (vote c b) (votes bs) = votes (bs ++ [b]).
Proof.
  unfold push, votes. pose proof (cfg_pos c W Hc). rewrite map_app. cbn [map]. destruct W as [| w]; [lia |]. rewrite last_n_snoc, Nat.sub_1_r. cbn [Nat.pred]. by rewrite last_n_last_n by lia.
Qed.

Lemma replay_ok : rule_ok replay.
Proof.
  split; cbn [replay r_idx r_allowed].
  - intros bs Hb HL. split; [done | done | | done | | | done].
    + intros n vs ->. by apply votes_ok, Forall_take.
    + intros n vs b Eb ->. by rewrite votes_push, (take_S_r _ _ _ Eb).
    + by intros n vs _ ->.
  - intros bs cs n. induction n as [| n IH]; intros Hn; [done |]. cbn [index_at]. rewrite IH by lia. by rewrite take_app_le by lia.
  - intros bs cs n vs Hn. by rewrite take_app_le by lia.
  - intros bs n. induction n as [| n IH]; [cbn [index_at]; lia |]. cbn [index_at]. apply (advanced_scheduled c W Hc).
    pose proof (scheduled_mono c W Hc (Z.of_nat n) (Z.of_nat (S n)) ltac:(lia)). lia.
  - intros bs n vs Hn -> E. apply (f_equal length) in E. unfold votes in E. rewrite last_n_length in E. pose proof (cfg_pos c W Hc). rewrite length_map, length_take in E. cbn [length] in E. lia.
Qed.

(** ** The rule of the schedule *)









(** ** Start *)

Lemma init_any db : init c db = init (state c [] 0) db.
Proof. unfold init. change (heights (state c [] 0)) with hs. by destruct hs. Qed.

Lemma settled_start R : rule_ok R -> exists hf, init c (mk_db [] ∅) = ret hf /\ settled R (hf, mk_db [] ∅).
Proof.
  intros HR. assert (Hch : chain_ok R [] ∅) by (split; [constructor | done | by intros n b E | intros n f Hn; cbn [length] in Hn; lia]).
  pose proof (chain_discipline R HR [] ∅ Hch) as D. rewrite init_any, (init_ok c W Hc [] _ _ D ∅ _ _ (c_recorded _ _ _ Hch)). eexists. split; [reflexivity |].
  split; [done |]. eexists. split; [reflexivity |]. exact (d_window _ _ _ _ _ D 0%nat ltac:(cbn [length]; lia)).
Qed.

Definition weights (evs : list event) : nat := list_sum (map weight evs).

Lemma run_settled R NDEBUG evs s : rule_ok R -> settled R s -> Forall event_ok evs -> Forall (fun ev => ev <> Pop) evs ->
  Z.of_nat (length (blocks s.2) + weights evs) + 1 < 2 ^ 64 -> exists s', run NDEBUG s evs = ret s' /\ settled R s'.
Proof.
  intros HR. revert s. induction evs as [| ev evs IH]; intros s Hst Hok Hnp HL; [by exists s |].
  apply Forall_cons_1 in Hok as [Hev Hok]. apply Forall_cons_1 in Hnp as [Hne Hnp]. unfold weights in *. cbn [map list_sum foldr] in HL.
  destruct (exec_settled R HR NDEBUG s ev Hst Hev Hne) as (s' & E & Hst' & Hl); [unfold list_sum in HL; lia |].
  cbn [run]. rewrite E. ebind. apply IH; [done | done | done |]. unfold list_sum in *. lia.
Qed.

End Configured.

(** ** The claims *)

(** C6: refinement. Whatever sequence of new blocks, reorganisations at any height, rollbacks
    with blocks added back, and restarts the object goes through, every call returns, and the
    object ends equal to the replay of the chain: its window holds the effective votes of the
    last [window_size] blocks, its counters count them, its fork is the one reached by electing
    after each block in turn; every block of the chain passed the check of the fork in force at
    its height, and the table in the database records that fork's version. *)
Theorem hardfork_replay NDEBUG c W evs :
  config_ok c W -> Forall event_ok evs -> Forall (fun ev => ev <> Pop) evs -> Z.of_nat (weights evs) + 1 < 2 ^ 64 ->
  exists hf db, (hf <~ init c (mk_db [] ∅); run NDEBUG (hf, mk_db [] ∅) evs) = ret (hf, db) /\
    hf = state c (votes c W (blocks db)) (index_at c W (blocks db) (length (blocks db))) /\
    accepted c (blocks db) (index_at c W (blocks db)) /\ recorded c (blocks db) (index_at c W (blocks db)) (hf_versions db).
Proof.
  intros Hc Hok Hnp HL. destruct (settled_start c W Hc _ (replay_ok c W Hc)) as (hf0 & -> & Hst). ebind.
  destruct (run_settled c W Hc _ NDEBUG evs _ (replay_ok c W Hc) Hst Hok Hnp HL) as ([hf db] & -> & Hch & vs & E & Ev). exists hf, db. split; [done |].
  cbn [fst snd] in *. cbn [replay r_allowed] in Ev. rewrite firstn_all in Ev. subst vs. split; [exact E |]. split; [exact (c_accepted _ _ _ _ Hch) | exact (c_recorded _ _ _ _ Hch)].
Qed.



(** A popped block. [on_block_popped] takes the last vote out of the window and puts at its
    front the version recorded for the height of the popped block itself, keeping counters and
    window in step, and sets the fork by the height of the chain alone. *)
Theorem on_block_popped_exact c W vs i bs tbl v :
  config_ok c W -> window_ok W vs -> vs <> [] -> bs <> [] -> Z.of_nat (length bs) + 1 < 2 ^ 64 -> tbl !! Z.of_nat (length bs) = Some v -> 0 <= v < 256 ->
  on_block_popped (state c vs i) (mk_db bs tbl) 1 = ret (state c (v :: removelast vs) (scheduled c (Z.of_nat (length bs)))).
Proof. intros Hc. exact (pop_ok c W Hc vs i bs tbl v). Qed.

(** The test of [add_fork] against the last fork is a test against all. *)
Lemma after_last hs new : StronglySorted before hs ->
  match last hs with Some f => (version new <=? version f) || (height new <=? height f) || (time new <=? time f) | None => false end = false <->
  Forall (fun f => before f new) hs.
Proof.
  intros Hs. destruct (last hs) as [g |] eqn:Eg; [| apply last_None in Eg; subst hs; by split; [constructor |]].
  rewrite !orb_false_iff, !Z.leb_gt. apply last_Some in Eg as (l & ->). split.
  - intros [[H1 H2] H3]. apply Forall_app. split; [| constructor; [by split_and! | constructor]].
    apply StronglySorted_app in Hs as (Hb & _ & _). apply Forall_forall. intros f Hin. destruct (Hb f g Hin ltac:(left)) as (B1 & B2 & B3). unfold before. lia.
  - intros HF. apply Forall_app in HF as [_ HF]. apply Forall_cons_1 in HF as [(B1 & B2 & B3) _]. lia.
Qed.

(** Forks are kept in order. [add_fork] accepts a fork exactly when its version is not zero,
    its threshold is a percentage and it comes after all forks in version, height and time; then
    it is appended, else nothing changes, and the order and ranges are kept. *)
Theorem add_fork_exact hf v h thr t :
  StronglySorted before (heights hf) -> Forall fork_ok (heights hf) -> 0 <= v < 256 -> 0 <= h < 2 ^ 64 -> 0 <= thr ->
  let '(ok, hf') := add_fork hf v h thr t in
  (ok = true <-> v <> 0 /\ thr <= 100 /\ Forall (fun f => before f (mk_fork v h thr t)) (heights hf)) /\
  hf' = with_heights hf (if ok then heights hf ++ [mk_fork v h thr t] else heights hf) /\
  StronglySorted before (heights hf') /\ Forall fork_ok (heights hf').
Proof.
  intros Hs Hf Hv Hh Ht. assert (Hid : hf = with_heights hf (heights hf)) by (by destruct hf). pose proof (after_last (heights hf) (mk_fork v h thr t) Hs) as EA.
  cbn [version height time] in EA. unfold add_fork. destruct (Z.eqb_spec v 0) as [E0 | E0]; [by split; [split; [| intros (? & _)] |] |].
  destruct (match last (heights hf) with Some _ => _ | None => _ end); [split; [split; [done | intros (_ & _ & HF); by apply EA in HF] | by split] |].
  destruct (Z.ltb_spec 100 thr) as [E1 | E1]; [split; [split; [done | intros (_ & ? & _); lia] | by split] |].
  pose proof (proj1 EA eq_refl) as HF. split; [by split |]. split; [done |]. cbn [with_heights heights]. split.
  - apply StronglySorted_app. split_and!; [| done | by repeat constructor]. intros f g Hin ->%list_elem_of_singleton. exact (proj1 (Forall_forall _ _) HF f Hin).
  - apply Forall_app. split; [done |]. constructor; [| constructor]. unfold fork_ok. cbn [version threshold height]. lia.
Qed.

(** ** Witnesses *)





(** A schedule in which the second fork needs four fifths of three votes. *)
Definition voting : HardFork := mk_hf 0 0 3 80 1 0 [mk_fork 1 0 0 0; mk_fork 2 2 80 1] [] [] 0.

Lemma voting_config : config_ok voting 3.
Proof.
  assert (Hs : StronglySorted before (heights voting)) by (repeat (constructor; [| repeat constructor]); constructor).
  split; [done | lia | done | done | | done |].
  - repeat (constructor; [by repeat split |]). constructor.
  - intros n f E Hn. exact (proj1 (sorted_before _ 0 n _ _ Hs eq_refl E Hn)).
Qed.

Definition yes : block := mk_block 1 2.

(** Three votes put the second fork in force; the block that still has the first version is
    then refused, and a rollback takes the fork back. *)
Lemma hardfork_replay_witness : exists hf db,
  (hf <~ init voting (mk_db [] ∅); run false (hf, mk_db [] ∅) [NewBlock yes; NewBlock yes; NewBlock yes; NewBlock yes; Rollback [] 2; Restart]) = ret (hf, db) /\
  hf = state voting (votes voting 3 (blocks db)) (index_at voting 3 (blocks db) (length (blocks db))) /\
  accepted voting (blocks db) (index_at voting 3 (blocks db)) /\ recorded voting (blocks db) (index_at voting 3 (blocks db)) (hf_versions db).
Proof.
  apply (hardfork_replay false voting 3); [exact voting_config | by repeat constructor | by repeat constructor | done].
Defined.



(** The window after the pop is not that of the chain that is left. *)
Lemma on_block_popped_witness :
  on_block_popped (state voting [2; 2; 2] 1) (mk_db [yes; yes; yes] (<[3 := 1]> ∅)) 1 = ret (state voting [1; 2; 2] 1) /\
  votes voting 3 [yes; yes; yes] = [2; 2; 2].
Proof.
  split; [| reflexivity]. apply (on_block_popped_exact voting 3 [2; 2; 2] 1 [yes; yes; yes] (<[3 := 1]> ∅) 1 voting_config); [split; [by repeat constructor | done] | done | done | done | done | done].
Defined.

Lemma add_fork_witness : let '(ok, hf') := add_fork voting 3 9 0 2 in ok = true /\ hf' = with_heights voting (heights voting ++ [mk_fork 3 9 0 2]).
Proof.
  pose proof (add_fork_exact voting 3 9 0 2 (cfg_sorted _ _ voting_config) (cfg_forks _ _ voting_config) ltac:(done) ltac:(done) ltac:(done)) as (_ & E & _).
  by split.
Defined.
End HardForkTheorems.
