(* ===== verification/RctTables.v ===== *)
(** The tables of src/ringct: [H] has prime order, [H2] holds its multiples by the
    powers of two, and each entry of [zero_commitments] is the base point plus the
    multiple of [H] by its amount.  Each sum is checked by its defining equations on
    coordinates. *)
From S2P Require Import Prelude Group Fe FeCorrect Curve Ge GeCorrect GeEncode GeTables CurveOrder Encoding RctData.

Local Open Scope Z_scope.

Module RctTables.
Import Group Fe FeCorrect Curve Ge GeCorrect GeEncode GeTables Finite CurveOrder Encoding RctData.
Local Open Scope group_scope.

(** ** The second generator *)

Definition H_xy : Z * Z :=
  (0x6188ae4072004cb85d56ab7ef9cf37716accacce8627eefa68746649386fd873,
   0x141f9cd30d3a172ca9cf5441d551726cead0adf19fdcea2aaf9937157059658b).

Lemma H_on : on_curve H_xy.1 H_xy.2.
Proof. apply eqm_of_mod. vm_compute. reflexivity. Qed.

Definition H_point : point := mkpoint H_xy.1 H_xy.2 H_on.

(** A point of which [H] is the multiple by eight, and the doublings in between. *)
Definition eighth_xy : Z * Z :=
  (0x6ddf9f076e57ba4080e8970e65f53ad56fdf3676b55c77380b01426fa7b306,
   0x1ef132d5899627dfcf0e2668e5bb94b6fab2e94000d6af5c432844653f629fcf).

Lemma eighth_on : on_curve eighth_xy.1 eighth_xy.2.
Proof. apply eqm_of_mod. vm_compute. reflexivity. Qed.

Definition eighth_point : point := mkpoint eighth_xy.1 eighth_xy.2 eighth_on.

Definition eighth_hints : list (Z * Z) := [
  (0x30647721fbcbbea79349c211b27969ceb7c07029ad2cfa934d20e56e6cdd0df6, 0x12f47ae511d039b9ba22a97c3e45dc2957a40d6eaa6315eb4a1a85738107805e);
  (0x7025ab54b0fa38fb88e46b3d826ed2764e68b0d7ea895b434696ce410237d10d, 0x26826f45da73ed8d9d286a121c115deec2bebfd189f691f1e231bac92076df1c);
  H_xy].

Lemma eighth_H : smul 8 eighth_point ≃ H_point.
Proof.
  assert (E : check_doubles eighth_hints eighth_xy = Some H_xy) by (vm_compute; reflexivity).
  apply (check_doubles_ok eighth_point eighth_hints 1 eighth_xy H_xy); [split; reflexivity | exact E].
Qed.

Lemma H_prime : prime_order H_point.
Proof. unfold prime_order. rewrite <- eighth_H, <- smul_mul, Z.mul_comm. apply curve_exponent. Qed.

Lemma H_rep : p3_rep ge_p3_H H_point.
Proof. exists 1. split; [apply one_nonzero |]. split_and!; const. Qed.

Lemma identity_rep : p3_rep ge_p3_identity pzero.
Proof. exists 1. split; [apply one_nonzero |]. split_and!; const. Qed.

(** ** Encodings from coordinates *)

Definition enc_coords (c : Z * Z) : list Z := le_split 32 (c.2 mod p25519 + 2 ^ 255 * ((c.1 mod p25519) mod 2)).

Lemma enc_holds P c : holds P c -> enc P = enc_coords c.
Proof. intros [X Y]. unfold enc, enc_coords, encode_point. by rewrite (eqm_mod_eq _ _ X), (eqm_mod_eq _ _ Y). Qed.

Lemma key_H_enc : key_H = enc H_point.
Proof. rewrite (enc_holds H_point H_xy) by (split; reflexivity). vm_compute. reflexivity. Qed.

Lemma key_G_enc : key_G = enc base_point.
Proof. rewrite (enc_holds base_point base_xy) by (split; reflexivity). vm_compute. reflexivity. Qed.

Lemma key_I_enc : key_I = enc pzero.
Proof. reflexivity. Qed.

(** ** Multiples by powers of two *)

(** Coordinates of [2H], [4H] and so on. *)
Definition H2_coords : list (Z * Z) := [
  (0x3063e33c1706bfe613ae1b05caa991ac058ee0176a6ec9df60ff869e6e606662, 0x12875e51e1cb42ddcabccd831c1c7179cd5ff50909134d3dbbe2b3e48a44aa8f);
  (0x5bf282365bc57ca2a5affd5b7fbfeb8978f57a489f0174043a80d4c946e2028e, 0x1dc79c7e189de2bda0c7e4c13f9e7d9ab450ed9476e6f3574a6591772cd6a712);
  (0x3615892cddd072c9658b9bfc7262c2f7f3ce076424ca75be96a3a56d23963592, 0x39c714f2b427540c11df134ff043d4eab398a4576d5c78e6f9c4494b93b99a78);
  (0x4ccc1fc681ce379d567c595b670eecd330c43eaa788c29202d336fe3c43e39df, 0x683dce77108e41ca831fb6edc6edb2dcc18a56de448ee372ac024fd999921e77);
  (0xb221a791937798ce8db0b033b63dc19d5cfbc6c9e4e0ddb07019224ea50461a, 0x648a2a1849a874406d86938dd184884841d7325c0e68f5da9b813930b46db973);
  (0x136fe3ebff667643a9c0ca7483e91d0582cb4a25ee4467744d5aeb29e38a44d0, 0x12d4a8631070463dad8ce8e0f34d13f8585e9f375dfdd2ccebeb682f1c8e458d);
  (0x633acf2977006b72979ab2f10e3ed8316220228cf2568556916e14dc792a65f4, 0x4f47e17597563a61f165f8a0693c08aee354bd6554428818e4194e4db1e5509);
  (0x1460c94bda23aabf8c321a54966bb4ea9fe8f15664f6cee380465982efbad877, 0x27c9a947d2a1ed0faccd86973060e7928cc5a4231d8b261eee8cdff466885ad0);
  (0x199e33e8cb95acb0529c64fd1d4fdc5f6ed0a2a682df601ecb4a6186579ff516, 0x2d83e19efe69e22ddd8ff8649833f3fdc01d3e02c77bebd11d87bd18d5aacd55);
  (0x29bda07b1aee7865ff2b2f55573d86edd4e71687201331165cfa093f546bfb9a, 0x6c35819df88376ea6ed68cb3f47e933d74ef3e5bb842b71d5cf981a957e69e7);
  (0x6f1de135728257a6317e459d6ce4a51697c4bbad84a04473c5c29447904a9c74, 0x478dcc8ae87fdc3cba3b8b91957e9cf4a492aadf3ac8bf89297872ae0b972af9);
  (0x721edb6593dd1223737ffbbe56356f1b6c888433aa94d38aa1cb791621f6e488, 0x2b3aef396c863cb8a93b3de6d5dc7d4fcdb01c6d6adbc815f95ad791d4c2661f);
  (0x56119934a486b5f23b7858e2c99fbd9e81138057d8b15bfc9da4ba132345af49, 0x27ef9789d1d57d1a5b96c54f34462aeaef040026eadef83ee9583fb48498ec3e);
  (0x176b6ae3b5a2fc3084dafad395b774360c781594915e446d83be818c6bbed755, 0x1448a87e1d6177f2683510b509c419bc7e9ebed689d477e77f9796cb0c8f9fb2);
  (0x393a0dd67311fd9f74d661907a1b166833966336dae4d182ce704ad8ed2bfc2e, 0x2c3ffe503547903f4d8799666303a1696d140c9d248dd5769855b96512f5b156);
  (0x747288c10f1e3f4df04d8e2f1a137ea8d5e525ee0209655aeef113c798c9291, 0x5aaaca57d4bf12b0e4945a81636b57058513fa10c59cff39d1f5225e57367a1d);
  (0x5bb62b473e0afb02d62f7684bf9899f2e1b7798ba6961cb2b6a6d92944c62a3a, 0x20760de142b2d9784853e207400ed0924313237dbe67fa9305cd4e867a50acd0);
  (0x7e40fef016c460269d43375c0e5f96e460d4c5ddec2f9c05545ef28c2c285e7, 0x1450eb5dbd87e07f6fd59910e3328e09fce00b946ef8cc2dbb45f19c0b84c6f6);
  (0x790baf9d96e6720789126eff9880059700b572d09ce3dc79d4959afae9f2a3bd, 0x17e12732a3a0f4c917483af890efe9335f0d98052ec187dbb10e0740331a8328);
  (0xb99d3f949c683e1ec1a780b404332180bfce3986cbdcce5ff7c28e9523bf374, 0x6e5c0571528d365d7a860b1c2ef36017d5eba28f761aede1b7cc29d673226387);
  (0x1835fa261cb7b2a0d9a5169ed51571ae6dc1df18a7f569efc1013912cdfe379f, 0x7b0c6021534ae4e694fc73b59827eab5b614aec5175527044d96474342297b5c);
  (0x10a45021c9d29195f2b98450c0fb40341f7d751df39f20010c3a3a0c2815cbdf, 0x552b6132820e9e03f594e4fd63adc059e89f1a518cc56ebdc3c28bd7425094e6);
  (0x204c6e2728755e1f44a6a346f4109734d14f28a16bc1a1fd1b77453cd0b5e063, 0x7602bebb1e3f0da488a52d712e42cbab00231b2e0b4fe5b65d74ece20769d536);
  (0x38d8e4c09a4c3395a8fadc5c26ab4c815223a5438724672a7e631142009b2fea, 0x6b1ee316bb2766f9fde484524e13c573522f3b5a495036785f8e60d0e46edb34);
  (0x7d751526943b47590512c7684cdd402b46150612fa6ce821a94e59d753abad7f, 0x69679408dafa91c7e926ab42f4fdc08e53a2fa3167e84a677d78a345fb59768e);
  (0x39b00956931d85d173fb9390204272e3044cfc4cb2e8f8505c6bdac20d96254e, 0x208ffa99c2ea4cf2df55dbbcf27e801c7ab006034e6c7b41bf3248b19cf0630);
  (0x18fbf7528e2230c96fa0eaad6a503856d2f10c4673744e9a4564139355055174, 0x2a005f21bc3ecc895348b80348ea83608c5a80fd7f372e4721bee8b63c40fdf5);
  (0x1095a534cbd0e1d26981b06e85015334a4b8694e866b4ad2e664591243ee37ca, 0x3d47d96e8b7ea21e460fc4f8eee6754b83cf9d3b3f1c5fe482943feb60b23137);
  (0x43048da7eadcd368d42670ef41a286092bd3d3cbc59f3474b5edfee5cd9800ff, 0x43f892b10b3f05fc6f395f8454c4dba22893651b97dec25528e4f5c309ab9d9f);
  (0x77dc26b95239c83b2f06c87cfa9938561f3e76947d2b2a618421b15064bba6a5, 0x2520e60b400657e2b57b67f01e0fb703c06484e0afe473f298db5ff8255d055e);
  (0x5355b79c960a53df12a569d7a4d88b96fc141db77c01dc0958c453c6ed962fd5, 0x10456a6665185962b2e4e43a30305586f925890b8c41940b506bcb7936cf8b86);
  (0x3457fe894d8c37746d7203381fbf58e7dc1298cf5de2c2e70e300cbf40d92178, 0x7acb5875dec3c05aa97c2fa538001f0e05c821ab44963fdfd1fb7a89d36bdbb3);
  (0x20b0a652078eccb9f77d8de787742d4d4444323bb8621de368723f2983281e83, 0x6bd1c6dce61334eeeabb884291479414276d1dd4bc693e48ac2cff59a0b31981);
  (0x2c474309b44e4cc3904fa1bdf584a60ff1685d5bcdb0974de2fc387502be4707, 0x1c81006d4b4665a9e2650c8c977f5b00030085b54b5275e87afec75ff358fc10);
  (0x55d2a614d60b18e26d17303d130258efaee5f8c49875c714ba5e6137f963f393, 0x392d7b886de0a075e42155e36f7762f9cf4fec43a358eac17983573ceb94cd5a);
  (0x39f0495fadc82b5a6863a17d2b318e3a938c747cb3fde91213a7cd2f89dc20ce, 0x1295a0511b05d86cd7479429b98b80d29394bb4a700232dd4e0d614a2f3da33);
  (0x772056899cbe6f02fc2e01f72b1edd82fb60f07463757ee415337141a753349b, 0x6a959f6ed091a324514e1455a37d3e0c82eb1a6f4ee694a464d1af292f57c6cf);
  (0x63fad6f0560ab7be171253483d7fcee29532d49c5acd467c24545ef32c687e61, 0xe9ebc6c7f251c90ec9a938b39367c9eac1dd22e2c35f631a315f60e4b2a31d5);
  (0x4a49c938665f0b719ee74b3f31238fa64b3bff95a1a97fe2b2092b46ddcf0bf2, 0x333ee9fdc645bab5a77820005ae4d7748a6cc957aff6db9f9f5b7bfcfe671d55);
  (0x7ffa31265a70f2daa0664aaf9a3ea34680759e86ddc3e3eefd017e7b96c5f415, 0x435d40cb6ee9504941d8434c8502a57bfc178042388f9256c693a55cbdc70ad5);
  (0x47f59f14541affca20b53fee6b3d9331e8f7de3bd97667492a6123eac11c9fb4, 0x41626add37412acbeaa9faaf95ee9e4e3fa3c5739e2971afe44bea18ee17307);
  (0x5543ec09b5cc46cd0f3620f9f33c9dd18690c00f644dbae0ee986c24f995f9d0, 0x604671d8ead2b7318eed0d2f7f29217e61ca37411b5d61b8d23093a87c0eafe9);
  (0x3a625a5759af2fe52ed2dd66a63271a3cc90b6f0e2d67876c9ebe2cd31cf387a, 0x7ba526420376bb9314ed956670cc5a10c97873fe9141c7a029107f098345127b);
  (0x16f51e83e64fe82d51ffed25ef81034d9b5691db54334e7be68852076d59c5c2, 0x6baa9cc1aa560c1506b963d8942fcda83857b79d8eb93d0b657654997b0540ec);
  (0x63c5aa74f5d5809381e6916902bdb9a46ee362451ea62733bc2146d8f2c9105d, 0x6533fce78a9d8b81fb43c953cb3470a681aec459fec08437d839fd9e72ffd901);
  (0xa3a40c3a06d5c3cd5b43296fd84c04be891915fff4d03b4632e16f190b05f86, 0x2eaf5b733f82246d916727b547f9766c0f8efebea7194542768c3296c6b3df00);
  (0x5df11c8c0ac6a0d883395abf1f0b8348a7586f389491b4bc43cfa491bfede5d9, 0x288330d11f9d7efbc30360d139165e530d15116db7dc80d5a8ee9c4d9b791b46);
  (0x4c747b533bf4497df8e6c09b117deccd8558b803b4232b8fac87ba9cbeff5a3c, 0x6c3afee4cc9f6ee463cc7c516a18ea12349d07e7bd1c55dc8f22e579940303ee);
  (0x308d1cb86764693df6c4da3c11b05bcdd78bf1dd563d51204916c111ededadbb, 0x144e74b5dda617c4ce20ac989b4c3b371cc243d5ac45f0b9027f4e5243b5cfa8);
  (0x18ebf6ddcc51f40eb2f30a9ac09456eb75b013c281ea90cfa247ce7538dffbea, 0x4fdd094ec6c85ea75aad7ee32656b24292ad4b7c0c65d0f5da6e9cf84b792b93);
  (0x3543e72ac709d7399eb64ceaecf6c53e3e5385bada9ef71a6937c244cc010d6a, 0x57bf288eb70bae33d5f7b5e968cbfaa61e44682e0d71c759efcfe59c770cb116);
  (0x1a86834eba36033a8773cf15996aa4ba9be9d5a8667ed65b582433d7b710fc99, 0x64a7281a17efd63f0b5cac3810e254ae37d837499f1310996f39e74367c7770f);
  (0x38a6c2b394221963aad680cbc00487a10e22207619f5426487adf979c87baed, 0x4a200a0824e9c1b30822a009d16c3f3f3709b55e90de0de893f252b9b774e5d7);
  (0x693bbe17adf7fc2735787b1143b632f9f85366eed39a6fad0ac4d62ba9c53a4f, 0x390c70fdf95e97c0e5e6ddab340cc3fa3bf823baf83f5675a63d1e388c6f6645);
  (0xcd898aca91e8d3b0e485068576b568d8111cf1a53e0be58efa36b432dcf0649, 0x5df077710a0203f5c1b77f24a75ff91e55a4d116f847a4abb17e6054e41246b2);
  (0x47a102dfed3b329a1e63bded59fe84bb04f972b41daa8a14cebed6436447352d, 0x4edf6c36cf1790aaa431f19624fbd9621312f867756ab48b2ca46d856188207e);
  (0x60e604dcd356b32c469b9848845ff29fa6427f1a84a5cf0b9ab478d8d0ad19e9, 0x607b08d3cbdc953cfe9d0f05410f8c3502ea0156057a03650110d16aff6b645b);
  (0x316a0df49a736a27ab7824c38269d5e3044069a53e84f77a93f1f9e53722c291, 0x2b431d808d8231892aa87cbfd5fb754332d5502d1ec5131efff0d2fecc1d6d74);
  (0x1977fc363ceb937f6cb5647ee2d4dd67dfe520a6f268da04a06f3e99ed43478d, 0x2e19db886bd22853b3c52f8b50fcf8c530890d6cbcadfe227db96b4a0d1198cb);
  (0x4d4baeaeea17831c6aecee20dccffee73abeba07f82e9674f7279dadbd54e3ea, 0xefc8c6bf9647fe972b42426de7e2c7abcbaea95406c67d7275fb533a026b660);
  (0x53027ccc3a31140068043bd6b4c88265489ad9e535be8dcf1011a3f0a682abb2, 0x4319803d862ad93fee4e8f6aab06cf70c82ef9781eb9318f78d4627c92bb5e5);
  (0x20ce6d1788a903c5e3168aab1dbe2a6154e424ed899d06369ba708e7d05c3751, 0x19319241fd0fad7b421a56dd62bb3c15bac5e595e8a5b0e21b96a95dae416505);
  (0x4c7e272a87181eeb3dc0197fe283e09d8fda2c8e5a80d47ea532091c80c4e1bd, 0x8b82903b2ae3601f9a23ae70f969fa911b747b23816a4ebf3c9a53f5af0fef8)].

(** Coordinates of the multiples of [H] by the amounts of the table but the first,
    and of the commitments. *)
Definition amount_coords : list ((Z * Z) * (Z * Z)) := [
  ((0x6188ae4072004cb85d56ab7ef9cf37716accacce8627eefa68746649386fd873, 0x141f9cd30d3a172ca9cf5441d551726cead0adf19fdcea2aaf9937157059658b), (0x5439266cc77372c72e344564609dd9e4486b165830239996c7abe6fac9312d6, 0x22d52be080951190c7eea3722d8070339eea1ba2ea2b8a2249617c677aeb3817));
  ((0x3063e33c1706bfe613ae1b05caa991ac058ee0176a6ec9df60ff869e6e606662, 0x12875e51e1cb42ddcabccd831c1c7179cd5ff50909134d3dbbe2b3e48a44aa8f), (0x5fd28a90bcc4b13f1bc05b537e58397d8e63eaa60a4ee277991c1555a3b92fa4, 0x7dda9c0497293bf16f0b4b469d8646a83e110e2ef3330e8d1717060a63842476));
  ((0x389f7cc1790ba155eba11e2d8c9b2633953672584a09551442de2c83e458c459, 0x689e1a5dd91335a9f322a0ff0be5864a2cdd0885cf39b845063e84692467a075), (0x22fb3ed46ffbdb77960b0f497e101dbf29befd077582dd1b9015e67181c0bb95, 0xc286a7c9c15bc7662b9fc35d48cadf48ab5d478c137cf74ef4f1c62567bf7cf));
  ((0x5bf282365bc57ca2a5affd5b7fbfeb8978f57a489f0174043a80d4c946e2028e, 0x1dc79c7e189de2bda0c7e4c13f9e7d9ab450ed9476e6f3574a6591772cd6a712), (0x72eccb1f92cb6712ea4e72c8a40920622aa4d7c09262ec254b5da4943b34c5e8, 0x66826181a6934bbd4eb814e3eed2919b0a73bfd1305722b521d822f4316cb89a));
  ((0x71a788d000228ce817ec9434086a48343e64a1cf63c524b7048645fe61e898e9, 0x6001a98f0054bed081f44f884097cbc557602c961bd986da0c3b7e4af4b982c2), (0x5bebb6fb9f0f042d8fad886d357ad25ab2f49329d87a61dff8dec0101932324e, 0x3c12f0386f0801de36b73b3842ac2cc0feb83b1b11dcf7c25838f69a652fee32));
  ((0x7893ec9dbef58166fa4bd8fdf133bfe74d300486d88d9acc123e879324b332ca, 0x4f91fed32b753d0962fe6359d01d0afb3cbeda809f3b926dda36ca8115cb90a1), (0x2d4a20aecd7f2df7f16ae0f650e7edf00879a48bd9047544af1021126828d73f, 0x27e50cf6616e167fb11a41d39bea319e9239fba4531724386e0143a61e2b2647));
  ((0x22f0d307a12048c4e8c4cb08902448342a3984a5d73d175823c8460179f3a9fc, 0x74d042b71e99d489a10eaa9c2253f7c63ddde653d951e6006d03280f6c80dd67), (0x6a1a02da0841abdc2ed497a6372e646f0b557a2b318eb7d0469496328fadf959, 0x4de3afe12b8aff4d82be049523c47bf14745e6ff6b25204ced0d9a79689332c6));
  ((0x3615892cddd072c9658b9bfc7262c2f7f3ce076424ca75be96a3a56d23963592, 0x39c714f2b427540c11df134ff043d4eab398a4576d5c78e6f9c4494b93b99a78), (0x6662e2f2b5d4797a8114211017f7a63bd85cb54620b6eee5735b80997da48b9f, 0x42c8e99469bf23a2ff88ec6d9f7e2485eb20e1fab8062b840f1946337450f1d5));
  ((0x3b25ebb4bf150d3869dbf853ea4db92411218586223b1e2d2f854d7eab74198f, 0xb4260634559f45d61e5ba3e89d9639deb98f8151790f3b82059d1d33f6af7e4), (0x41d803eff26b9f018d47cdf50dd5d96e444688750635794ffad0adac90c43e4a, 0x1f6d9c965159d4192f6ab6881c96f838eeefeab45c3a5e3bf3fac09e32230056));
  ((0x1abe7c19a6f009281a007ce7bc739f4aeb132a8d3f20e56928aa708013668d6, 0x56fd3169208b980a386b26e3b388abc52a6fb9be04e8a213cfde3ab7721318a9), (0x381f919c706c484fa80f57321fa39635bbaeb34d406934d7539eda5caf607be0, 0x1cb059680da9ddb7e30550db3b80691ade2510c547a9c358e6cc97cc24dc8003));
  ((0x3765c0f88316fbe19d1a595265ab7a79a3a78d439c2ea2f7aa822c54d3a6783f, 0x1c070442ddab920bd7af0ee7e85224ba6276ce0c936c877db80c8d34181cd536), (0x5db15eaebd2a5ed2ae4b8451abbe27e2488525c3e44294ea84215b76c2873c61, 0x3a8ee22e254c04364744472d4b45e6c54fef29ec5b9ef8fe584776972ef60309));
  ((0x4dbc9fc86ad8077f5ceb5e708124777b91149e73414eea2a74aeb8c78dbb18f8, 0x6cd348450abcc1aee3cc6584b77df1a2534f3faa995b7d8fda2a274ba06f2b1), (0x78f2fbee73ca7e736affb984865d4294b6b6a1ba66bd2d2531739305402c77d, 0x7eff60bf24d612e3780a178d7f5551a251baf23674f95b683162ed0be0898ba2));
  ((0x3dd74e7834f18c2aaa7cbe54f5e2b7a63d889d9ad37abc2b0598f18b27741982, 0x5695221c53ee06dd608e83a5fb5d28498109088f9498e222dda6827ae287cca0), (0x642e11ee4c79575841a38e153f678563be5a03a23eb2a89e3b7457054a2cdac9, 0x4b43b2a9293d2892fe04c3b7ce50c5618ac6a9e626bb1c0eb247286a5595c6b5));
  ((0x59e32963b95612518be8d9ce7ea85279bfc33e57ca84a57eb19f384949f09cfd, 0x328e012a04a08606ffca1660600d4711617f23f1bcc94f27a9fdff561a40c082), (0x5aac37ecf520f19bbb1d2c5a4e4c16b058e6b7f1302bc9256ed5a9fd6420383e, 0x78ef090cbc85003780f02d91302c3f9b7f44e32a653f9cd0c5436bc0cdc68e12));
  ((0x172cd9cba2eb4ed4daaefb77b4e9200bbb2d3093495ca96fad4388b117a8ea7, 0x687f5bcf5d2606302b2d3f72bd91679cd9350768ae3db9ba956835dcb02965e8), (0x1db1f05f123572ddffe26e01f084248ee8a4fa48cca85fe6f5d7c6ac38e14b1, 0x7beb20c26f810565eb16e3fa378c16731bbceef114a898e2fb16a7ae3a409f1f));
  ((0x2cc6cc82060e93cb97126e4997edd513f1a87b8bafa4d0a3d15fe51995385f, 0x598facede7c809019300e08ddd42950f9793e9107929ef36081770e00fe7b65a), (0x65f392d56296f937b8501d2073011ac9a36a7c647ec86e6945589923f00451b, 0x3b5331ff0fde723d60c05a938ce9594154638ed9cba6db99934b8ee4c538a210));
  ((0x3b480b19cef4977d90c1d9425607f5299a23f745af18c49913a54d756c55841d, 0x501cd86a29c0f87a3b8b4d3b114287a27ba92a1e78cd338775b491915bf3674e), (0x11f82a7af09273908929582093c74728213b3e1856b2b67bb7bbb7057c105b46, 0x8da9b513aa412f3399ae9e38474c5271864637a058694f028691f28c778ab75));
  ((0x4e8c0cd5651b2fc515166298591ed5d45180ec88d2abee4911842e4fd3dea2b0, 0x53ea86c167011a53bc0a9f2c4c3d759e751071c5c6d79a59521557b6c72fd5a1), (0x2c763987ccc4efff8e5a86a031c2d60bda0e4b63d39f5d242a87c5d90a742bfe, 0x5108a4d83a32f25577da2ac6d1bdb0f65c9948a5157a65c8825bb888a77b56e9));
  ((0x58047b23ee43cab06ec4a16d3ab36790cd9418102a015851e1523508ef45a3c8, 0x752d19653aa612aef1fe2ee5c60f588e702e083f16fb00909a86644b47619097), (0x37a331571c6af1a39c30a44d3e777efa14c86c5e49403e9204f0a4edada50293, 0x8dfde75fb657330d413c191fb893ecd279be99347fc6a6128ef8df2d53617b6));
  ((0xeb677cf981e71fc7c24ae9ba76103707ae41dc66eb205f55b55fa4ca6fc4b21, 0x3cff8ece4c391bd1259d7308c0d5dda518471caad1d5e01a842d1211b87727cb), (0x1bc045aae5b123759ee5c1df3417fe7fe10ea1cd630891d73947897e421facc2, 0x44970703c2c0de3e0d434c3b155781b0e77aa5ca50f3879991d7281972eb0371));
  ((0x7d1d16b0ef534fdbcb93afe33e33715fc27d644d252752fdf27714aa9ea184e6, 0x22bc5a8cef8d7fcdeee8c61d567e4e8e23952f1eda6606e2b221cc50e9da3ad), (0x259f2114df50ffce05efbf02bfe2936438ed96ae1618769a500e3b08f7d10895, 0x47afb920cc1dfbd29d2dd0660b2e928ac31991dfa3ac4e5ea0d1ce2e929e4024));
  ((0x7e298c20c4bec1af5188f403b8867c28725967e259c9dfea99effae981078255, 0x4c33dce02790c11f14550fd686fb79ef308aca15e0dcf5d738837048dd689b80), (0x1821455d0c9e79f96406673705c66dc17097d73c2f6b4ec8c034b1a8a55f4824, 0x659e1a19a041c260d9201295e5c512140a86675a475d113499828132a99f72a7));
  ((0x635171d3f4bf86f224c5e590fe09566c667a1167e8452d3e490f448c1eb3a131, 0x26b54928f357110fc28134e3ad8aace69ba8a22e9c4a8f2d54286fef57964755), (0x728976f87c8af1ff0f776f4f454ad248c14ffda07532fbaa2d94dd54d8b06e12, 0xe1426dd5c035ccb4117d1fc72572249a7adb0328c46afab979e6d1c060c532e));
  ((0x1cecc898f489262d1f243a7ac8f4e922176580ea4bbd70ffecd55e0c8c9a251d, 0x32b5c0eca3a3ab53ea9a918e6061c7abe497f7f1cdc526aec8d559a263c7bf65), (0x1532eefdf526b2837296cf934cb25cd6975e1e5bcffcd69ba89dffa8270a8fd1, 0x1da574405951a862527f99ed6cf4dbdb506877e68fb5304f69b1f19d09910ba5));
  ((0x3f298b0cdc46ff1819076f424b2caca364c94fa6344e0cf92645396e8ac76f6d, 0x61d6554ace4a2b1f3373e1a9d0e61efa2e46a6b38c5c10b57f0686cbd931f2c5), (0x1981c5f48c4373974d0e99b155e31f465af8cb1341639686a500e511fed9e29, 0x6084688a9119cb8dc4f07fe722154f2d75c0fd456a4c75e5fef2beccae0f2c51));
  ((0x4cd3093cb15f5c8f7af9e4be929ebee5c9008c9d99083dc28473cd3965887e0a, 0x6876168f892cf05f57497810ea34afbaba9aab1b1e4755f98fbb6f1e93c2f02f), (0x4b8f9c9e227fd55b10bb61a96d52e845d54a64b5157d0dc716a51e10757762e4, 0x75c6348ad647fa944defe14959f1c37d0ecc27e7ac058ce9333371b9a5f9a9da));
  ((0x536511e336dec2dd03188cf2bce360b16706b4f0ab9f9b57ddbd14b1253ec696, 0x32f6003983d63e7a3c9e9c9bb3e06c4056ed81642e0359b34674e4160276980b), (0x64f5a32ba5445fb6fc7797abd20fde10e86e8fca0199aec6e8ed9c7e21d055af, 0x77b43db653ba380c13d89019257b97c03ab89883395e4078ee43cd17c9182bc7));
  ((0x4bc7206e280fea61fc9372d5814d64b38015373d73448bbdf6c8be6b9c0c52f6, 0xc2ffadbe1d0b969fc2c612b12a29296f650ce78f130e9fb0ed2d4cc29a2abc0), (0x288d9205ac74b89acf4e693d3bfef1bccf5fe15ed7f403285689c742ca9eaac, 0x3da22fd22bfe863515ad20a75555b661c88883e30b2522e4e9486aeb9160df01));
  ((0x750b3fc15269ee739590df3b6edc1db8082c2baa14540e16ef140962af8d96e7, 0x383ffe4efe006a72052660cd8bd5b131443cdb6f43812e08a36bcab69ed41d4c), (0x61c50542bc8e704cd084f3358837ed5fcb1818e0bf728ac7dd252fd7b11f5ea1, 0x66954dc7e01b3aaa401c2ef9d24f4bf88c67e7b325416fb522af467834b1f524));
  ((0x5ea0af999654a3325487c06fc491031723d9efc67f5964a95cf947d52729956e, 0x5b1c5dbee5e7994477e9f9ec1e13681fedd25a61205e2fd88080baa07ff4b776), (0x6293c6ed81f93da331e69ccad94e7f5b453474c2d4be5adf33451ffc439ec8f9, 0x39adc6d27e8fef9b349bc971e0596b3e182008e0732726369c25c1408f9a1ca7));
  ((0x4bdd6bc9e2e579ff3d87b157f1274868d4b12326d19e0657b0da239ba8b1dea2, 0x235e4317b448103d1e91e2b038fa52cb4455c124d013c3a0dcbbc8c32e15be3d), (0x5fc8650e1f01a8056abec2de648dc9e3442229afeb28a625ed6ec0b1a672c65b, 0x76822814ad11c4e79993062765c501d8ca9dbc2d06b32e644bd38919af74dc98));
  ((0x1318916ec8f73463cd84306bf29abcca52868d7a20cc2a028bb4e7bb0e590290, 0x26a2afaf4008e091a3abb53a99beb059abd5e28a2ab0e21d5f45ec8cf8677406), (0x321b9cf689523cb48538588a2f98466d128d9cf55282ca7e08a12d0640ce843a, 0x107fee2fe477d7ad09683cf00e9344addaad4f40cf41c4d6495e06c04aac7661));
  ((0x4240ebbb74669b8518e17a806d0c14b146c90205bfcc72eed2a475f173750a10, 0x45518beb203d7cf82e06d49a58cdb5916d797e12b77832a48df6baab24e33ecb), (0x4110031015173da1fd6d02f0ea8a0b532445ad4eae19999968b659cae238d46d, 0x68f7f07dada1495297920295230c9184a5a4c2a65a3677845a5b60f665047978));
  ((0x7664e13c047d2e0a51cc9c15ca69c0361ff313cb8b650fa88cbb7da8a875e0cb, 0x1bb255e4158ddca5f35dff23dff1ecff337c36e4242ade4c935d8ad703ecdaeb), (0x32b6b7877663160334369629434efb694167f028c18e00c26436a5d5eedf22fa, 0xdfb55f6b8edff927fddc17f1e3ec689de927fc68ead2f8ed69523606b60a520));
  ((0x6acea63e331f2bd020fee777b4605ea498701cd95cb9a443e48c96ad40e7eab6, 0x66f8756ef67a98d00fe09ddcb3ba5b47cc5fd5587a57ce4dabe527bc8c083e04), (0x40d4c4d54c94a6ad5d52c482043f8c19187f76d147967341a925579832e5b196, 0x1346aac76e2877e0836ab35518ccfe60d52e6eb8b804e5fd91765984397789a));
  ((0x7ca99451f5769b20d7d2c08bab744fe0492ef35b5dd0717c1024caecd83be39, 0x39c1bfa7b75daa1eda2270c8b58694859762ea3a92559df25073541c0b727147), (0x4c124f093c986b8494711a47a9a6e83731a379943692fba947142b847b9346a9, 0x755bc9058fbffd2c4e8fd045b27a127416319ccf244de3c7581319bb48aac75f));
  ((0x5241e0d6a67784fd9e21d6f416fd89b26970df3c5b8b4eb18313ad1177ae02a0, 0x1f4a1075dde2369958954a694ec4c9a393fab6e6c0632672d702eef01d9fc65e), (0x76038c1213f0007ec0890fc0e6afe3db5e147e44cd422628a7689b8e1bc8a473, 0x1795ecdb933934ff0da32d3e2b0ba9c01775a602daf9495a10ab12e976e72061));
  ((0x4b4edeb492bf4602ff18fbcdef1c04d9bc42a4b26ceed86998a42fd19c2ac0d5, 0x3872b21f76d30f11d39465ada55e37898a82d2b30471f8ecdaf12f334fc186ed), (0x18d4a28b3c1e6a4482cc765d7aa972aac9e1405aff451fbbd279d543bc52d191, 0x3bb3efd7819a58c1f547945a86a76bd8341318d9ecd021aa41bc0aac37b5bf77));
  ((0x23e679c07ac8d8e300acf3853c8f4be91263670a356289da06c839f49f42e7a4, 0x72e41c6250f9802e50605ba83bc5a6bea924585b9e06cba01504e40a64983755), (0x21443f780add8c4b0492439af93bce159204f1b5a6ae6e100fa13469572051da, 0x31ff58bfd7ddc5027c9fbdce971b85f614478488f5d4c0e92a19755fa905f435));
  ((0x6292b10ea512f84ae8b214e689be0d6009c8b79727e0361b9fbcddcd7912b1dd, 0x9f353a9ea8fa9a02d08f52cb6136c71f098e3db45a0c7ba56b8ec86b460ff0), (0x482ca654b7a1860a30a9cf0c0b5efcad6605e0f02be2a903fb795c19f3a2eba1, 0x169f4706bac1395889a1fc5356c7ceeebe8aa8bf1f48f4a0b8217c383fbb5577));
  ((0x3303684d8f17ef5ddee778e0046180d1e45054679f1afe5f9898a89c09a72a03, 0x1fca0c48b9ebaf61941ea85124a4f270d57668919e2397c40fa90018526b15d0), (0x309e28fe4ed8990a54cfef79ad197118de112131896a9e8c310070cecb7cdbad, 0x62fb9f544220fd312f1e23b8ff0d59a38651ad083363b35dcdb9b737a3847e8b));
  ((0xb0d824072c4db95bc67360a8e632159e0a20a3b5978c19e30bbc50025240600, 0x462980c60f91f61e9c746918516e62b3939c8afaa8ea77ef4029277ce8c2043d), (0x13c537a2ee18eb46b931e06f0108f1023752cc3862dac8272b4f867df70fc764, 0x251f36cce661378c66ec16650a719fc322019b949274bd1ebcb1ea1525a6fdef));
  ((0x1a21e0d7690edcef7c9530dd614e25ff6a6366665fb38695c6cf274746aa6bc4, 0x42401eed5d7f8cc1084261b46735fb6b3908d13b5a644165286f58276d608f7f), (0x451e6094b0a4916f58f8384bf439bca526eab55c18b372b616b2758c3ed70a63, 0x404fd423cdde3e9ab510dced53b0068648eeae64e70b1c466c0f6ff30089ba16));
  ((0x70c9da36e43d031f91e94d68e6f8fc5e1f7e0b8c06f55dd50386ec7a12af5722, 0x6b40ade253d355be396c41fc0c620425703fdccf2db2c2a5887d1f9c04e3318c), (0x64bb53552f713aae73058049cc2c1c7fb4dbfd5ac7b6ee5bd15d8b091c849815, 0x33c5937f03d8edf5b829a9d02f64dac0f91734a4314f2e2ae7cf7f7b3b70d44d));
  ((0x2747655729a87b827fef63a79cf229604337250f896e4db77bb0e32baa49e530, 0x67703556775b7b6f824056b1f699e57756c6d0a45c7a4a14dcb7edf990970d5), (0x32e12c293403443131b2ff2252c8bde6adbc0e7bef5a022794c6975a1f1e0a96, 0x30e7091154bd94587c365a0a0312b8d1a5a23da19bb03dda4190bd402003fc8e));
  ((0x2d9023a855ed9bdb43a6dbc578e71aa9713b4170b52dd382eb77c060ecec2b42, 0x52d736ff5bd7e785205c4dc2a946bf3b48a727f84c98a1e9215e6f023eeb7af4), (0x3c90df842c483496a07e1108a37b8c1dd5e9716773d917c7965a3aedf7c3e8e3, 0x37dc6f66f21de6ce05905b9220ae576466c70f690b812c22f21c578397b12ebd));
  ((0x407475e5491ae54e6a81c486fc4c4aa87ba3d0fa2c07404b9e017b47ca4ca621, 0xc0b85ecde7e206863e96363f36a227e3e48a09e4258e01737bdc54460615a28), (0x7addde79147e4b8346e71735365a570fbedbe316ff25a42491d613149c29edd9, 0x109792eaa90b1bfcbfee99a86d179cdee61fa7aa417c97f2328744c1ddcdd483));
  ((0x69a35c7fb1fc3219581e27ce468a40c6e05f1a50932caeaa34bcc3765c60c0a3, 0x682947470940f97a29842ee66c0f59f51d317e1dcb51760ac5dd5d45942f7d97), (0x4c79ceef1d79b0f9bf4fd1da23339bf1e339fc98d5873bf145f7c47720c7b1ac, 0x16467f69387f0d7f96f9c4eb5236b60314d845d201ed4530063801c3446bc0cc));
  ((0x11b6007c87db0eb740736e146abfefe614f938419f1aedcf713b9ffbbf038334, 0x7af3d52e40b74065be3ece7bb65e8d9bd0f5529f9dde91672f80172d3defe029), (0x5111106d63d7cb403fd35ea6f5a178f76a4ad56569ed6502c0267088e2c0ac1b, 0x4fb6957cf84d6c2622fb95c472dab5d0b00418af63602f1d7ddf1ca0ee7bf1b));
  ((0x3db5ea15270c38a796362b87c62ab1bbdd919aa1d43e41608d6e80a567a8a6ec, 0xb1424f8a2eaf6082018bea9bfcd15574f62a84f4daf3c6820d938f2b99118eb), (0x1c800ce0e65365441b4a95f016ea3853b06319d6f9cfca23611a8823c45eb1a, 0x1e70967278126566dab2dd098776aaebdc858aa8131530f36951478aacdb1f1));
  ((0x6ade1b7d413ae932104ddcfc52a93f018a9b731580da032854aefa1bc2f4b5c, 0x1dfe3138942ff5ea099ee7f63b614905a459006fe8e2d646e35a99809d67cdd9), (0x210baa322350a62b0ffff4f36e082a9d95570979ca1ca4640dccaeb9609a373a, 0x3904e2f92d6d3e07da1019aed57355d4fad17ce03f7dfafec59bfed4607d26d5));
  ((0x7acdada9301eab77e22ae20e9d856483dfa9135b2c34a28776ea7662f88fd516, 0x22e81217d5596f39cf05dabb5b7fdfa5ebfc18b94a67075ff246a7d27306d44c), (0x5e1453a975c264723b492caf3d6003d976422ed2c29abf0ccf4215ab6e87620f, 0x4f6788d709b026f69d1b2c53410ec51faa262f3208bcd8a3c983c4c22511580b));
  ((0x33c1f33d68b2c7cbb370dd843af6378751078c8b49018850ee39c2e970176e14, 0x5982e1482a862f7e9ec851c8966bb74b2e020f970b9aee8fc2b5060685e7ed05), (0x48b093d19d3a4ed43c4fc7b7c22b7b28e0c943175fafb6a0793cbcf9a42cd2c4, 0x62e25e75f5c1f25bc0815e71df89ea8af8e07f8b583305c17f9d0668fd1b3f5));
  ((0x6cd390828da2bb690e7d7975f015721ba43a2e506cacca639391ff39e3ea7df1, 0x641dd4d9fdff53bacb992fa7a08cbcbc32882aa52cb7c965dba94cd8a750cb31), (0x54e69432f6de208f954c41ce3babaa9a99cbd3fa69e2246b804c49f8a7e7b106, 0x74405350443d31b084b5e96836bcb7829d2b49a1de9eae2e0443004b2c40de01));
  ((0x2cc54ae100196eb86ba9a5aa0092b97f8e18b8457b3de45090e3cd21ed93e906, 0x4fd21cb4907afda97469a19d617332dfa874aed5875953c185b8ef127dfbdee5), (0x3419e2b82ef62da97dee2462c13684a26652c5a992c5ea0780062d81c99ef77c, 0x36551560271c427cd3d0acd1be30bf4c9b8a4e7d75eb626f0663f89c7854b53));
  ((0x7587711232d6052c9ef4f64646cca91784c89772181c4e356ccc437640206c5d, 0x7b0051a44fa0333dfee89fa03b6010b5b4d48ab6149a2515d89812c03ac599cf), (0x2f2d20675dd817c96ea8ac4edaee94db584e3bafbb963a7ca62b127bf1b65966, 0x2e77a8c1f0ebe4c50d9fc68da9522deeeb6edfd02609fc2f26f51053fadab5cd));
  ((0x419a33dec2de9e712ca12d99b4e21c499b42912ba7b0766690a427ccbe10768f, 0x7e1a89ad2413134bf53d7656d8174b9adca46d6fb598a6c5fd0328d94131d8d8), (0x2a57ecc059f92a78aaaa9b6ff70fdd599392d62da51b19330bcf0ee81d98b448, 0x577c864600bf7341045b7e8bee34b2f5bc1774b8f0e791e231ea5933f063759e));
  ((0x33d2225635c4f06b9e652bb9b548ad5c91bcc38fd859088cd9017745ddd4e916, 0x12652a0661bd8793f5955df061da691292eab93a4e78822eba18dab04d04e6fd), (0x352a756de7ea63a351eaaa8d35b0266359ec4722294eb475d6f1db8f1024e2fa, 0x250a8da485999fa54864d7f8a0bac59f38192d75ace3b1f2773be55e0deb2afd));
  ((0x53be86b8179ee36e4d2cd82f8a88761c46e76b787a59f867e3ae61f04a9d5d56, 0x794dcc6d8b3e81d46f65fff61430a2c5f33b2dadfd052bbaae9f4b3a17f6a2b9), (0xe9c175ed56be8ca689ad3d1b1c82601e44679ac1ff9ee6be5014b392e60a4d5, 0x3ffa024f6eaccae8c306000223ee104748b91fcf3b32718750ceb977b84fbec0));
  ((0x5746b879c2e1bc52c82d30524fccd7dbc5896643f253b9a484f108ae57f4bb08, 0x58bf086b389bbc077395cc34965ac989876512f86da1d0c434c42cc35b2f0809), (0x11b570f25a6779371aa2b2bb075e1f6ab1ee71327de181241f5365387249b44f, 0x77d4f717c7169ce70f1135e642c354fd6aba3f9d4456c18d553ef384a35c44fc));
  ((0x5612d18c7d4b843d3697bdfcbbd28e172ebf83c155ea819ac603813f43429d03, 0x6aa7f1f6ff28537a5d6dcf82dc916c24ed621d59f10b1a5a7478cca8fe41d721), (0x1f234dd028b6951f6cd6c8de2caba63ab8dc482fd23201d5661ed2b4d27080f0, 0x4a55d83a7b835af7e1b203b9ec2e8a6ee222064a09e8646da554db458d2b09d8));
  ((0x6cb0c6f640d70272f1d8b820546d803f73c9e8d67c3dd01c01dd18a854961d66, 0x432ce21d238f30f72ece63b67683eaf6d9c6f001f0ad58275903e1877ab229fb), (0x4dd3cb0e3de536ff3ce18b7e5ae03147a2782472a1a1678229767b5e1056d8c2, 0x1f466787afa1ca658af973e42e83e97b95d20cfe04a62816a8aaddb915c0410));
  ((0x6c3227f0d89bcae8b399f71f89eaa3a369af935f07caeb09d19d2cf757327d14, 0x16d933ba7e9fd01aabdc4ea77e2482d7953b8778ce0910f1fc9ae784d1b5a46d), (0x8c7ee3887e22598f285850233db04df4e250e11a3d9f0657486c3e34ab16253, 0x5b5d450f21b6cc8243c09232cffb9bdec27e66cd1a6c9ce10f3dee19e205c11));
  ((0x60537d8f6a9cf2a7394f7d01913d22c57b71f3cd09094d047daba4e469ae430d, 0x32848c1202bb25adc80333c30bf32af95a3b5bdda1f9dd2450123b5200969952), (0x288f16e7711c13c18f2e691c8865dba3bc19654f9a96afe71be0ce46fc15576e, 0x49569232877ca9ed2acb930a828fbef7b605c6613543ba490966184474d9992f));
  ((0x77f512fc546ee0a69a1393589bbc80bc4fa087158849a7f7f951e37ed522d0cd, 0x45f0a309b27eb761d24ea669108c8c3b6dc754aa2173889f08070d32defcfac1), (0x66817ee86552d76dee59591dff6ec3022b19bb723cd3357a53535e48bb1275fc, 0x43204d6ebcf11b3a9b8628ecbc16e3ba806b82e1fc97d0eff4750b14ab1f77c6));
  ((0x5a90b29a2368f68b291e10de12f42edbb67d8a6ee61a0470c1cb276af84360d7, 0x1d5ef9a0359d9cd9e103207a537c6783511f5fd8e27882807f0691ce6e76452f), (0x54304fff22672ec870264d3de7b949ccc299bdc225f549f6a8fda8e2746de596, 0x58b3616af9b996721064a39f40c4f2a8d80112880562c26c529d5af63eede9a1));
  ((0x2cbadb255f3808fc7b7d35fe7417e2adf6d8d22f7c6fa2638f26e4f183263b35, 0x39a3b113084466f36d8d5e98d0f7e5a9fc84094f984ac2b647e76a240278d9f7), (0x1b87789a7703fcc43e845756a2704105d5bfc52f035e0d52346eadaa7019f58b, 0x23e6e3cb311cad29fc74494bf728e24592ca9a1e39d1bfc89bab9472c72d31b5));
  ((0x1830bcb56479e5c57f7506e7a0df24cb4d0d6eacba9455b1f20bdf1f884ad332, 0x68b96213bba50a65a1d184a6049972686bbc427d05dbcb20952cd9a600b41b9e), (0x71f86357dddcc050a534885b843b915cc49134f7d5fff9b8e3c9f33c84d93dd, 0xb32a0b8b1be30c6434acd0822702bfc0ba7d372215a13a02e1d84f6ffc9abb8));
  ((0x42783031f1a89f44389564455911edb9f58203e87caf70d5b09f8a36834c905c, 0x77617379d484c86e83ac88939866abf299a219cd8eaaf2050fa74825abbbcc69), (0x60c90141579043c30c5da7ae44c4088336a8d03c5567f3bde2300fb564d2f259, 0x74179ab11642c7efe6dc5aee9b82ed898072be5149473e25ceab081dbe19063));
  ((0x10a3225d61453d376375dc028a1054d3de415dedf2b822d46434b0eebc7da67f, 0x436bf0ccc8c10d3eb5c60391d7703afe5ba79306a39b14a8a570a675d3e0e392), (0x26b45d0e6f5ecbc3a50ba2dbbe7a9b8fde289144ea678892d518ca479b386822, 0x3841dfb66c1793fc2da607b52cce6926b02a2a7fcd4d649d5271c95beeaf517e));
  ((0x1c3d493344a2719e330b4b20ee3427d95898f2389caf4e52166ea7a53f3ff1d4, 0x44cb966fd4d98a2e8a4ff2ad75bfd431c8f30184fad6bb1bf08e3559dd60d91), (0x789d9cf93df35482ba26dea7715c77db4a5645416e2f5e592f5c46fc51db9bdc, 0x3b7e3b1d5088d8eddaaad59d3662fd5efae5fb27c1061ceeeb88248b6b947bf3));
  ((0x2fa5da947d71faa68819904d3d802852a0ffe46173f9e303f7d756425f871816, 0x125c472f15eaf103296f7a0ef08b56f6df426157b60980a5912b40522bd19801), (0x235c99ff413a5ca87dd72f406e606e250ffb9546499296ad0f62a40733df03d4, 0x3de5d24a2e6525be9a0017e0940d9ac57f2ef5b0bb7480ec7c831cf65776cb46));
  ((0x5ba7965b9d3be22e66f547f784d4e7794229f6a7eb978faf3cffd89819fad827, 0x24f110e55e97a1be26f003c7d77a0b64f6da388de27a1eb9b369f182a64b4fb8), (0xe66adf1046d4e2dbe9511691c1f477e3b6457b03350eb94b0a52b77cc47a4cb, 0x329f50131af17de8c615f8a1d0872c59c77d36435a73d97689914b6a6f8e7b66));
  ((0x3de87b3d06b5106e2e464afdafd65865dcd7c9348778710e171055cae83a51cf, 0x6fc9f7cfc842cf3648e9e686e16159f0bfb1241698405063744a49f257e0f80e), (0x16d1b5db9e3abe3e50e98d47182a6a5d3160eecfc2baf3e5e9d7cbcc67649dd0, 0xb109b504b21ab1a9a9550e95fd706ce352d7603c58c9355621b64014851cb3b));
  ((0x3e1b99588dfe79a4f7e8c12fe485580c6a100e88a376f58329447258f1cf813e, 0x70bc181fb23c60ed98c43d44f98281a684b607dc12d6835b8bf92a4a699c6d1d), (0x15151d1f67d12d3148a8b055b995ab6901770a68f78ce9f07a86807848afe8b6, 0x7b45a99d72b0fb3fbb8b8c99c362b1c590afb1ab08512386eb156b1e036f92a5));
  ((0x1288b798215881743dfbb6317c999cf064251f7bac8cc1740bfc4de199db2195, 0x35166bef30a28a51fc428ed9bd184d00568f8accbcccd30025827d14410f72b4), (0x1737e9180cf668b7b5efaf6cd521258f57322cd9cb98fabb78e511c6f3cff998, 0x7a38c1172ced5a033b7443ad488666fcf91ed7a4d0dc5b81af0e414499b635fe));
  ((0xc6dab117682e9a0cf78fe056ac89d2d691b3055c51ef490252d16de8bc71cd4, 0x2c98886fb0b2001f1218905a01e6e90c98859a100a2160bb885f6adbd3424e39), (0x40101531b6d37fd84d63efe421de5f47644665cc04a210fb0d2dfa33aeadb4a6, 0x5f544a1fd85c375a48a002b048a6462b2ec57b398c5cb9b8479b7db870d62222));
  ((0x699ff775fa7ef3c4156f9ae6caf74568cc3c6630b19f745d0d380a969cc8c9cc, 0xd4e27b5701a379156cab9d50598abaa84c5c965d516ca0a9dfcc8b69e9f350), (0x3a9a6450f9765e7cbadc02e59018b18350127dbf43f1c850f8388d98805e663e, 0x6f07e75a65d22584fa794a863d3ba65ebf402ffaac0453d146ab718b4a8a23d3));
  ((0x2c36dd1b5c2ae1939bff905d73a2d3d4cfbf55786153f22d3b6865fdb6678056, 0x25fd05a6d501956ef6802edf226d55e1f73d036517c1c846de9041947b4feab7), (0x57455bb12308d0687de5f74e131594afd49ed117903a1b773dc330462cac995e, 0x7e642d8b9039910c730d6f479f45fa6bb624404f56f7c844d353f0cf3f28ffa8));
  ((0x65bbfa3af645c3bf784441304252818e5ff49b5a2dab357ddcd69874bc8c43cc, 0x6704a6e1cc2f7f18f0ee56bbced7aff80381faf00754125540a2bd322fa45b6c), (0x20eb1ebfc7d00652f56e8ed39ab75544e883d66e04b46fb41156a5f11f94b2d5, 0x3a2821e9d1241ac554b1c4f0b4ecc779ead4fbc3121ee6c0015746c488f8daf2));
  ((0x3ebe4de50c227cc9c18808880d8bbc058360d3c77fb59a2de9237cd218c0b7e0, 0xa9b8b9b6ac99bb13c2014e67dd12f17720ee21c1fd3ebc8cbbc31a234faa94d), (0x162873ff414114398faa639eeb0de5d6587aee794dd0a8a27017e6db6cc525ea, 0x63cb12a2ae0cc499012678818bff88e553d5cde214cb57c5aa72ec9cd2e56a11));
  ((0x3738bcb7b5f85b863e5adfceefc1e53c4f50bd36d9c4f07d7602678a80201b52, 0x7cb0f3908e532280add722150770483678a119f2c6aab7f96052646d601a7f7a), (0x5f2227a579850908f51d4a458e82bf2707ddb6b6eb747fd686501b31bcbd06a9, 0x798e8d26a1694ccf9ba38a2dfc339248f7d23c06fc45a6dcb00c9ce3348e68c));
  ((0x4cd9cb62a9cf071bee94c93ac75104af24d4405199e8e484b31ff4e1d6f24314, 0x47e62bf438f2c77ca950d0be0042a3442110100811e90f66c1668042d5c9d63e), (0x1ecaff8cb47a959f89f79ef9dd36ee85e9bad6cf392438a9bbb793db2318371e, 0x7274900d5bdee45c0deb0197f38939bba17506fc61bb12333d82a4bb5d3c8d37));
  ((0x93a62a69f26b01e9175fb1d0f20564eaf6a9691db564e69b89cb4b3e70dc76, 0x42ee98ab02ea6a90f25049848f392b52a3b244af6fb6026b98b63816fa6994a3), (0x241bcd0836fe27d648b1c77c6f47bb5a4be014877006d27b27dc27ad434639d, 0x58deaf8dbac28b6da784b9257ecb1985fc84f48af975cb742e97e799a5d0a27f));
  ((0x7bf071921e105f1ad576ecfe30b18f5e9644f1d96f20728684a9966b42e23438, 0x4f627959caac3f5a9effb48796281d1b7bffbbc826b6eba80fbd55b4f8b4c2ea), (0x6160afec93101ae1a2da7b24bcb1f6a7cca933dca03440eb0aa5138fc1787d02, 0x1c34f268596f2557e6b79ecabeffb1260ec42159778fecaccc8d2dab00cb3ada));
  ((0x52159a936fe0b5115f2ac8283d4e0f5b56822504c028dfb4e55f9c134ed5e2a0, 0x3168700b9372046d14ef8139e733627fbb9f99b59fe8d35f5e2318de809903ab), (0x75d32efb9c0c704c18a46676f7142290e3288cee0f903a9bcb270d6b704e5fa2, 0x6abfc50a94f4426993b1438c9821a68d1b3eed04243bedcca914d8509ad70634));
  ((0x2e658599a8c6b2198eaacfb5b6ee3f7fe5b543a38fa6bc084225462883973d28, 0x31b1374925039c9a532d6d7eb150dd7b6037a8c3b5bda1cbd1c785654928ed42), (0x6446f43489d595120d947c95d00b673df356516d34085e3a7f7ebb02efa8c3a0, 0x4e7b0f446967d519e8b312cd96d59fa1f6eac229e8469f08a052fc62c1e83ef8));
  ((0x3eee262456589af65dc18c3396a5bc4e888215721b7f65695afa7f32dae56457, 0x3f8ecd02afd3699b9af4f17a14776206c1fa041d3aae15b1030aa3b0f22a7297), (0x4b6f7efac61cbbbf03cd77bfc7dedb892d923ef4b40dac8d0f911d880c081537, 0x7541ecef8e71d39f4eb4284c23ffe4aa5fb31a69df6adb2f4bf357247d728c));
  ((0x415084fe7707ec0e302d728f8a706f99bd6db733727df3d28e4407389f50bf4d, 0x4bb8de5447096a3fca963d34cafbb517af7534e709ca8a46ced5c271d352e977), (0x77eedecfc3fe5150ceb89b488cfd91fc62ef34268ab851f738b4c89d12a95f6a, 0x2ce7ba7c75e4015e5c551b19ed1417139c0d27c472aea397a8cb5de3762f2e4a));
  ((0xc06b72fc37cc0f50e43b7819c5844facc2bf0717ca8cc232da557ed6b5a4065, 0x48e539d8cc7c40415f206dfdd2f06f70eae5eec07becefb512f67699f8673575), (0x1b14179638aa848713f2bf5cd8a3bd6e13f7d2cb0678f3f748f7139b0d738951, 0x1b9efe0e9087caf41aec8a4ccfab3f2208af1c95f7c114d9becb9c0040c9f3f));
  ((0x5731c9003e85162014091a62bf3f828cc1d62277f1bc65f7939754261e4caf5f, 0x92507f5386203fb759feccb91ae851ba8b6dd9cfbdcfd8352fb9a48818d5985), (0x6ae8647a31fb63854a3131697948afd37e8e2bd1c9181054460a51d5501db06e, 0x64d3f59f59b6f424186147735740ae6c78f91fe0450509f849cb5e01292ac997));
  ((0x6ada494492e967397040fd4931442c2125d9315c3a9192472461d8d8ee18d168, 0x7294576749a9887d012d91c45904beba884a8b9fd971f3fa701e736e26b25a6), (0x4b145ab241131a26544068824dd3bdb9bd3b20f0deab799c6d6235feee13a890, 0x7786a5100a5c4483b62396f63c96ea9bdea78c14a4aea08522b2443c9aedba09));
  ((0x10ae335eaf4dcf59180b995dc45f99c54b7d73c256b32a4947cac45ce04029e1, 0x72910deca09027d1300b0a93a4fdcc9edfeec84e01ab59fb48f9346e0b4c7e52), (0x533c4ae7c4862a221051e434f9f35e9e187db5cce8d6d5d168fe71b986c0f5cf, 0x60998ea213704fae906faee218a618f514778b57edff8472e86d89e21dafac45));
  ((0x36336450ef4fd95f9f0756ee7793fcd567efadc85ef13810240f5a784f73de38, 0x6cc4fe8a9f2910ba2ba84c02b78e3e23b8585b55a636ee010e85859ff4de0aec), (0x163df1b6af21cfa12dca358732647d6304994d261dadb0d7c860e2964346ff1a, 0x29bedd847611612ea7915fa0e1de5575fc1ee1c2936336e39ce224423647b808));
  ((0x16bac2ce6f7d1d58d0bacd615fff79f349937accb1aa52753c37ce352c0084dc, 0x6575e3e0e9a98f25345a33a850cd6a745a82804165f1b34b0c057848ee132ca), (0x3be3a91e83e28e99aca2833c64e4b40f19fcd3f6c848e272960f4f0402296545, 0x406eb2b681317e7da45035037fb78c93a5c4c0787a2fab319a854f634a0e8e6c));
  ((0x52fa421ce187a207e88d40765a11b8899713459f5715b17e221eb0d6b3fb9328, 0x513ec0f3b36be803633d88427bc2a83451af52abd571aee5c14e0ce6ffe25853), (0x74ec037cfbdae77fade88de5e3bc222df980b4bb125b56abaf0781e4e96c89d6, 0x3f17f80b2309aca5e41b0ba6f71e8a0eb031d6f13ca01eb1cbbff96509a0c266));
  ((0x505e93245ae743355c11863fa9a53de6bced4b090c3ef94a29d619a6c3090e80, 0x4e31375cfe0b9a33f121ab8a09acadb18da919f4718faf4ed30f8a70800007ff), (0x6cce10440d4906bd3b965b295709cc65c273811c9dc25347a70503c45b8a9f16, 0x307e6fa640f76a31aee52c78b1e4478c59689670abdbcfee9d5a2cc074d75163));
  ((0x23d0425de2d00343c774dfaf801049b0ce7b543322ac0c3b19e142b1fdf68c0e, 0x72f6399cd4b6f2a830f468bb234d69655b5586ac368bee14906b2303a807af8d), (0x6fb339931d51c8284597b691fd66ba4f2b8f44d45d464da0ecf8949623ee97da, 0x57d407c37e45e3f5df373d06ea64a26789919e67d3d53b8b1ca5792216fdcc5a));
  ((0x31c2c67a2f44601a0187ac225bb8edb61e2e1d03449c7142ab5830593c63cb8c, 0x1dd9e9be0e156d8bf46b728ea56ac77a281a281e66f7c871911cffcd9b7c4e10), (0x13c97048270a0950763453b32f48a750a9f8697c5dfe0833d2cab3050bb4ba55, 0xf6113e45663841b522fb4634d2738cb232e0c2510293a6749c7f0c601fc47b7));
  ((0x35d965ea057574112dceb482edf33cf7d790ac0d54a4753a9731bcdf1ece8bb6, 0x62468c65abbba57d44a2a6ee9c755bc169823d578ebd4ea4bf106bbc84579b84), (0x67fe087f7a236ad126f155003dc6179c6b83cf21855ed311f9325fafad6478a8, 0x10cce7bd905b1df8b8bda8f65a9378e5e6c0970c9fc9993dcfe1696f3d844209));
  ((0x76bae8d16862fe3561c0e5890fb1f319e816ee79a91a3075f870643b4ce6c8bc, 0x28562935b2ca2fe44613d4c5c83bd150f92a18601552d13ac52d2709a75f14ea), (0x23d9c64e43399034edc606c6722d00921faca49ec8790675093483caf3d7d406, 0x5b66def9d26027434ba2b0a646d862a264f7b187b55d58db20bde450ea644c56));
  ((0x1e84b54e35d5769cd4b2a330743092d4169c2a28a6ed6ca7ebc9712d50e89b15, 0x3f6952d969b55b32dd055e4dda21023e9a887d81a7c1b9a66f01f5ab2ed1b5ae), (0x1495f67a68dac7e716722c33000ae52d2048e6dfc7f689c389d20633f7671a0e, 0x50b8c59e62b61ea889738287b2a89e78f4d4b5a428f99735034cd65b418365ac));
  ((0x6b4f3b7067043a400b388c2b6ad0dfb096c216a41cf536722b9565e14e228177, 0x127fb967038e0c0847b7353ac17d53e9b2bf145edf71e0c415bd5a5214b96104), (0x5884ef26a03df601d7ec846dbafc848df884667d4d082303201d4721a6dabbd9, 0x1aa9cd21d1b04ae61cab60513bd613fdf3cfef6b6a2e43c72f1374cf899df452));
  ((0x388bfecdf338eed959343f8c542617239168dca1b4013cc648fc5f9cbb54b448, 0x48a62d609c819381fd3a3c1ebda5d6b124012cdbaf639637be8828b9db419d3b), (0x7bff005283d39bc5ae735c123fd2a924ce4c2ec6de401e061a49ae01edd9b192, 0x6562c59c859d4734fad3ed3c64d1add1077acd638062b78f14b3b5cd817caae9));
  ((0x537513152fc793b866e8aa380dc3588ba0f4fb199b2dcea79415ff4b5d31aa9e, 0xefc090b067876df89040334eba8c6c35998d82a840f643a20d243f889ed205a), (0x58d19c2e1b519613eee84bfe391c75ee3f1c6fcf7988d7acb70a7e029bf2efcd, 0x3f635315d7ff147372cc143b4bfa1ea0e27845ab830bf63978a7c2e531ae2798));
  ((0x717b6dffdfe1b748415c88c6da078de30eb436a2d918b8ed0d88519e3bb79b57, 0x61c0e98c431fada957fe7b28ccb0e067ecc484d919f8b6f6fba92970dad064c1), (0x59dff49acb1e5238992d5ca9195418c2a2cc3ab807b317dcb006633600811c7c, 0x53632efc45c75e378d45d4f6f1e415f3b86898c0ec4098d42413ff27796a9172));
  ((0x4c11119fc2b4a43c6dee8aab8bb2167213439e5e980434e9965863cd28feb27d, 0x46807e4c0517a6722c00d68ac027be33adeb6d4b98654e81d62a13de497bdf81), (0x3205e0b1b1f37e1adec00202c1bab896d3a09787fdea21d3463372a32a1b0907, 0x7295de1ad5d848bb8006493b49b9373dcf2232710c69619c22b8a40f04e07666));
  ((0x5e8fb48b996dd61d023bdc35eb2997b68855d1edfaab119fb748f1e702583725, 0x5865a78065f7828a4192b6a34d84ae97f3f8c72efe6ef5b03c1cdcb80afe50fa), (0x7c1744614f066a28f3d1e268d809a33041238b5c068b1fbf1150513cde34a6a3, 0x5d0625edf19b57fa8a9168466a98b4146ea6caa764e0a91e6772435a46b35441));
  ((0xaa3c88e50dd6e0c77bf744debf99cc716db6cb0389d80b09d7c474d949b3b2e, 0xc3b860d4b62acaa1ef3b3c8621aa8740352140e0b6b25192c71614cb17f2b54), (0x1c5be4ac846ed777bdd60d38f42eb45b39978e317761d86660c6cb0f3b0a6e3f, 0x510c2edb3cf92a6913604dfeb39f0ce4db9b212f2a0e732a676d30ca62706fbb));
  ((0x30dc2df9563607ccb52c978a4e127121c580584aceb3d2aab2ae6015d047122b, 0x675747564f46881f504dd97cd291edf6dd3e667a90d375480d8b496b14958e00), (0x5db23056607eb11fdab149a3874ae563310b4df0a50d882ba84e1b117da4873a, 0xba2656775ce4b7be0b2224ed6776d71d0c1f3463c19417a38d66a9c5bae0ebc));
  ((0x171f0b7216c633b46a1c7365018190adff0bb5c4f68eb706374278b8cb2e976e, 0x2f30e8a24a011ae2707cf5ef5ee0e1613238e116c87c5459ae028e8ccc42dab3), (0x5c005dd1dca4a406b7abcb9262d265e4d3164d1712b67d8c60e3cfe0ebf95380, 0x6877e5cb49a9c7a1a2c38e4883a6002f1823e92b49c5dded731bb742136f0c10));
  ((0x1326fff5f05d65ae57aeb6a626247b2b18ddda95ad2f5268d2cac3178cc08c30, 0x28429fe07f9584e26ee388bef7363d0b58b6962f5d9adbe6f3d102a1deb8fe20), (0x61f39506e90d43d5b3c2dfd67b3411266b07702e2f98cddc508dde5b4b51fd29, 0x46139a52b704785f2c785a2fd9b34bddf0f92e8d9485ced30f340491947c9f41));
  ((0x4d14aef25261152c0bf5d7801452a3a456b1883db996110191c03f88beaed02c, 0x15679ace6bd6233a2ae7d94cca3eaa75be1f6e26c6a41a7cd45b3d4b0705f25b), (0x2fd5ea9555d9fc5dd69729ed96b39d6e518cd76a29c435238e13ba3239afd161, 0x110153b7737ad90e7310ff4f2476539665ba2575e5035a36e322a0be98346540));
  ((0x1e69011b29f58ad7b95677ef4ea102690576547f38a831cc23b9993490cf5b6f, 0x38d03b9da6ab326ce99f114d135ae3d37f9c8a89c467fde0ce812b8d8655f96), (0x57f4b75519b933217edf946a037138809520678fd48a730c3953303926f3bce6, 0x782c52381983fcdc33b5f5e6349547000e63002402c6a9eb65f99108f67c1cdb));
  ((0x5027bcf66bcde03f600925b753c81abbd0a230acf69f7f2b321e09466d49bb, 0x6d076a7505e42d3425cce2bba0203c078c1988cb485e83ae65dffffa4d9d627f), (0x6c592f7505a8032d90dd421a0ec5d8b7697c64d26d1367edb3044fca64e59d7, 0x712801ec627f2db944de40b2a11f1b29e3d32124d9e42723d794a953313aa059));
  ((0x6741af9e97a1cf09500aff26bc453d3c4109c05b74ae21f08ad211ec1f94a3fe, 0x5994a4300d47ddcaa316b99c1e05e7156f86600b17e1fe86ded9496a305a5a1c), (0x1d1a933292d4e867768dc6a5d8078197ffcfb804b889c9e7cebc4818c06c1c71, 0x45b655c6e80f659213a23d4a7a12bd24f80411efa04aea730088431e3bb980b2));
  ((0x523b09c6c50547c93d76d595cbfe0f013ebbe51365cc0651d08cef227983be43, 0x2c378a922efb89a304b2a38fc5f9e6966aed3cc3cfe70ca31b84b8d25d06d87f), (0x4ea3c71983d583c551dd13eba0f9b9d079ba1f9dd1cd37b6b9f56615f7506e38, 0x6c506f8d51f58ed99b8262309ad47348ed47f3bf1ddbf5ae9d81732e9d3f0da));
  ((0x545809b0076a2c434ca19d4d88ee896aed963b05d2f283966e4b295f4517fd08, 0x3be866ca573e5ab8eca7e5d351f72e6780e9646db0e605c88770a30c9d7c5cc6), (0x4bd10e0514d56e3c9f5b0f06ce55281be6b0ea4f9059d0ae74773a3455375d3, 0x47d7b219bec8edaa36c6adab37886f8a9972fa3fda3195a5dd7c97ec82d63d16));
  ((0xcce729a6fbb026cc642b346633082c33482f32206c7cc7bc2a8b13bd38a20b1, 0x18137e3852f248dc029d6fb9086f5248b15988ce1db32764874b5e1afb8e849a), (0x58ce0448575661cf960afc600f082190a137bf8f9c85559f7fe3fa191b6b875e, 0x206f60e9eb9464dc46cfdc64c2a51f6b6041795d0623804cc4a84ea83a35fa02));
  ((0x3e5977d3398a046af9b038f5ac103ad49277522ce381785f10d7acaaebf8fc7b, 0x165c0c6dffcf118157c60dbfeae38458114a69520e5bcc5f73a392c0f79ab317), (0x5230d2e20055e6bef131dadf88b6870133919ef953139ca5a06985171b826ba6, 0x4659c56ecb7ca77d06af89502add25d2ada46ad74e3f81798b3eb2f5ab0d0587));
  ((0x549395ddf4eacdfe7d99e8aa2471465bc27f2a8664008dad4d968ed777f9189e, 0x334ebba46af0426823d8f91037cde33acde527db8708eeb0ab2ac8a126fbde18), (0xa7109307fe452bebb874a8a60afc5f634e6716f0ab7fa63bf6e2ad74c43ad8f, 0x7bd4d4f7ffad980f26d53c3225d3d7e78502fb0572c17663bc4d9ea2c8b2e6aa));
  ((0x66cf44544f65ab184e80cf147d01e953cd29724d25177ac5d5d2e7d64bae1e28, 0x398bd1eca2c7aeb0319cbf12c20ca8f9e8e687fd81ccc71a7635940deb62220f), (0x501b572bfac2d9befc5fb84856dd063cd00fe6c1abc6ef6f6f7a8bfc39d2732d, 0x1f66199f076090f2b4b5e6b958d7ecc2d3dbd0f0d8b29f093ce2a1128228799d));
  ((0x1540dc324fb272ddb735df4733c2625c096fd91f1436586964dc2afc45d4bab1, 0x7678d51a271c169a54d3eed5c4382c910b38d01185b2ce4bbf5d7c528afcba7e), (0x11021eeaf0b60cb30af04cba8863b52bfb47fdcaec1f83de6d034f445fd7af0, 0x1087b6545d25801e2bcb96b17f91f68eccbf5ee5e596e30a2dbc971b6f109018));
  ((0xa447ea39bbe48eec3df47f2d64cb51a6569ef70b2c3f82769dfea2062fb4913, 0x10cb3d18d3c4e4fbe7dd7cdf9ff4e28624c425c6916eb8fb5757ed32f2273ae2), (0x3c7823ba71aa5021ee806f817868523ae5bdbcdfc9ee5b56978b30b289512d7c, 0x5d1237b357d1275ca74bf627d35cd6c6786e174ace97f47b7be43b54f74ed357));
  ((0x641bc254f60aff6dc55905ed387d6529e0ef90557db03623b4788802eb36fa76, 0xb9c07f765d612d9f3b5fe97d11ea4906e970bd8a929197c580dfe3eae4df7b0), (0x6b7bc03426b563ec7325f0b377a3da226a4b8292baea526a519f1a8385b61de, 0x72877c7c63830e249eee9764a65f63567fffdbf88346095eb5ca964b1510cb5e));
  ((0x3f87b954c5802d496133ee6df69612fcfbc5310d6ce77771e392d8f4145242e7, 0x6ec3aa261b3a5264c9fab409f9670f94c2a83132439b4745f4e12e23d6e8e420), (0x74c0d3a4d26a3cc4ea883dc7ea791552668f6ca045f4203aa8e9e548723a1c79, 0x2e20a361bc0e9a73b35ea4abad67ccec726d0961a85b6a5166f1305198693242));
  ((0x636e3c1380b1eece323087c9538706a5671c364d761cd7da41abeedef37c89f5, 0x61135b68b34449dff2d0c70182671d990ea10ed26d495f14d7cfe0c115a70ee7), (0x6e6ce2d473d6c17efff32de540e02ca4f1b69430bcf3bf4b03fb66d6e9c5773, 0x54cf54428cc256a947e7114a7bc92dc536af3189ad2794c2a78f49919560d1a8));
  ((0x7cef399de831223ece1602b46fa0d7750bb5409c9afec17013c26ccf91ddc9c4, 0x6904facea2aead88e8f40d1b0d1fb49081c6e934c9736a99077052d86669f4b6), (0x5bfbcf583ecbebdca371f9a5c2854b88429aaf397193a69e4fbb21fb8f0ad8d2, 0x1583c6bed8ef64d5f05e217d5a0e84f386b948a9da9840bfc1e866a800491423));
  ((0x3ef7add75e753654826c3b6e728552b1e2ab6077af6ed91cc07950cd624067b, 0x1d22d27639d23054d7256de3ab9130f5c3a3ff0ce9c8f3090edbbcc511a83c25), (0x54a8246825f3f434f77910babda9926a51ec4d4179ba3d90602c9e167f4fb2a7, 0x170334c56374d145ddad439ea0518100ae21ed97953f4b5153aded863c47516a));
  ((0x5120511e8bdc6b0d1aba2473de71195073a0445edbd83ce1eb1ebf556042b59a, 0x155f45bba824fb8e6ee6a4d9ddfaff0a778a6cede4f9b6db999f95b7f7b2e2c7), (0x1769855ffc8db6c8a8fdc047296481a648581f2efe714add2a1daa6ec24b61d2, 0x2e301a9a5fd9f698da9a60f5f1d43bdc98f1a4b81e00707a291b53e4c3d4bd08));
  ((0xbd0714b5e1a85e1a19f6c321c30791b9b081eef13d2fe788ba5e12634fc9507, 0x37d91f8a3a0d23622e3013df4ad9591093de2b8c76f7b1986c7a720c6bc15cc1), (0x2ac347843ea2685a279b5cfc33770c0883c7d64959d336d5327c1d891806e8df, 0x19702a5d7685a9784b7c8356fc502132c8fb5483b6bd36c5f55ade12ea705597));
  ((0x40f0c5ff98a6daa9ad904d5ac7334ac2f4a60f9f463bf2d077c21cffc219de9, 0x4ea6aa4ed0a11e44c47a830336530d2308fd7b48f6a0037126401b4816e36f75), (0x114e34d7e95e94fc966ff20786bcc80691a2061e24fb197114e52920864adfb7, 0x7a498e9769236ce9df31356a9356bf0aacb06a1d0d94cd76674dcb419339a6a7));
  ((0x1dac9af67a68e7dac603d8da992e7dce5355deebf0c472886b79ad8d9973bb33, 0x487f300f67d3daba3c76f3c7df2245ec0bc0cd75a6a400d85b516eebfaa24938), (0x44eb308e51882e2e556345d531d20963b710c61cf2c9a198bfb4147c417baba3, 0x3d2265f1d0be49ffc05652b971a5b48fc5ec95317e99dc488803caeb5e3e0955));
  ((0x218953b6d985a83e0a58f7a55a726b2831649bbb0e4a406596641ffe06f37c12, 0x766bf0c29409a0d3b7b3780f30237458b8d625e7580cc41fb3d8835dd802c195), (0x305e4e9fa22bd140e91dbdc33a2fea4ac87b76a9d371708fd0225fc59bb1bcb6, 0x312fadcebdaf8378696647e5e73536eb684098116ba0f4a638d3af240218c6bb));
  ((0x46c6095b5f7228960c8b71d1b11c2ffce010e55f64111918659a801ccfc6fc95, 0x935f8b250e883292f19a438cd5628ce1fe4b5e1bb72e927e3a602fd206f7bc5), (0x30cbd479abe26acb499092497e486e31408a0c63da954501e399ff54c916505c, 0x696220c505e9291665324a338385646e3216f6c0bb506343c89ba1c02ca13a61));
  ((0x47319293e096f5ee472ee4b0f41c5a294dc10bc5806272d318042ab7279e0e6, 0x7dcc96cc44d7519046ae40d574b9b7e6bfc203dbed10c55781c4d604974cb947), (0x726428afc174a6e4db56a7f3b9c7608dc9c942dcf00ba3057c9d0e85a7fe4a9e, 0x1b754dcd60a5eeb00c65c4eb0830095c88be9118c6959012f2fca01381f8dd52));
  ((0xb5c646d373d9bc8b1a36324fdef317ed9d0301127028b30c6baa937e6a240af, 0x2fad220ce1af1ed9d798c0f468e851977744951d68a3e139ee677530a7056a73), (0x3bbf1424ea5b09349f1f7ec1ebe1d1c008ac74df0c041c8810c2b1a6fb493639, 0x633c42588ff92caeea22895bf0c5f0ae1689a510e3d98e98e576dfa635fcbd75));
  ((0x1a2fd90c247e5a73d8fc3157799d75cdeb23cc599211dc0b10accb33850295e2, 0x14beb8b6c9cbaed6826e94d6c65086764c7ecfb5f297902733d89a8f9703346f), (0x75380643aee64ee64e099d3867c94ab5152e7189b335a7d057d3cd62346eb276, 0x729adac3d3338986a1c7d6b06973e3bb60cee893edd148b2149f567de8939888));
  ((0xb0ad00b2fa2cc205e6f80f6f53405cb504b799fe0f50c58cbe81a5863b591a8, 0x385c5caeeacea1ae1785d911ab35f289d9f45fe0118bc43344055647848d9baa), (0x6f0fcd0fd97c3a958b54dd47f85dce759d9c5fa4ae14f716a3100f6518137d7e, 0x4117ed9b62f1b78437a5b3d49ebd77b1cff1afa0adc63c9df491c1a24bf33e88));
  ((0x41fc66ab762e2ae44de59a0486326824edd71e410c8c0ddc130cebd105e91124, 0x5d5c6ecf42e6b899871181191842e6c56f46eaf5517032f8414b51227961e8b8), (0x7a20a2dfdbd5b16c393be76f0692d2493618292ae3222a8e394936f3dcdc82e5, 0x3632c42bf9a1253d334afc75094929f1246b2dc8c258daf4b14ab184397c90a2));
  ((0x38c6c7e36ecc0fc303ccb21d4188e080e2ff66a2ad72245a77f5290495fe08e1, 0x710baa00a20d923536f09b3b5c2f37bea6f57dcbf296512fa7cf7183d8d9a6e1), (0x68e083190de7b3f59e322ad8ac79261f597f9280778b6bc739506469128b80d8, 0x7a2eecede43e1e3810826557c9af2c1be1c3bc2feec04ecf32f21f95189f7da0));
  ((0x729d527f942295703c50168a09404cada395d0e8290898e2f3fa1851e1d344f7, 0x7321073f0e2e2f57c293bfb1cec1a5a026775d9715c4559f14070a4bc5bb2c2e), (0x301185d20d3445316b5b2ac878ba09edb0b83870d8fe13d5231b6975b7cbd9b6, 0x2036a57b56a8ff4126f03c3930a393d4d6c46978f2745a8fc1a48cded5218066));
  ((0x75a0087cd75309673250e4ef1b583bd42256953920a399b0555ad97ce310b162, 0x12b42bd7be3ff42fd4607e06ab8de3a2150d473096286c13f7ecdf4623af5467), (0x3a06f71f913a1e1827d2eafc04e4c1adfd7e3e65ccbf40692c0182c5131884e, 0x4abd02eb817617541ac2f7a27149639a26fab8f6b8d9f2e5e359825ac47a48e0));
  ((0x36f0159b0007539d5d511fcce41cd324f43cb749a101fccc0b1e7470f76df944, 0x71d118c78beee2f6bd8c7350e703edbbf478f50ff970e8d3069b1e7c4e1fe101), (0x1d69eb57e23820df243db418762ff8d731b0f7d39a7ce4e8169d17e129fa4350, 0x71bbbe06063ced961f475e39f8c306a745dab9e74af6f98da9f45bf03a6a9298));
  ((0x5aca777b7a5f26a3f2d8306b5325eed77b9dfc2f5e375a4fb44d5112951d6534, 0x52c82eefcf8fd17d8c7ad60d59eb89c37edee6520118e760f0cdeecffd94b477), (0x5a48700c36bac89e116b959eab5b627604cdc990d4c441c45559b7df8db5615e, 0x2984c6f6542daf9f4d2a3863a995f7b77195bad971f6a364753af6460db7ad80));
  ((0x5b27e5d02ea1b155559bacfd25fc02c3db32f4748bcf3b537f7c8562bf97f598, 0x57a231fb7e4236abda89af7488b754f48b59bb81a5a65e51d3b0b9f0b1681ceb), (0x2ce3db33050b468e5f6bcc82ef852b82d5bfafb2dd90bfbcdb4f8fa85fac0344, 0x63c662e451795017fe4b8866f7a27359ecf3d1d9e6601895e8ca3f1f4297bdae));
  ((0x78495285900c317d61434b1e524c0620a51dea03cfa63e299a6afbecf0ab7fde, 0x76b1ac5c57d9cdf4a58efcfe4379ee5dd0fced67b76c6916feeffa08d9626f30), (0x4c551d542a8823130b80f9e32c95972bc30f1a1d9ad5c5d449a73d1a305952d4, 0x1628a5acb9e7b26273071d98153441f518e189566b196b7425226a2a846c0261));
  ((0xe645abd6836c128be5119dc0f27b183063e9a51a62ac44a93606756973ba9b4, 0x7a1a529cf78a6945479398116b2b2c3e9f7060c2f9258de78768657a1573c6c2), (0x7dfc232b99a879665250325f5dc1934a46d799159f8b5fc6dd65bb1e83237b89, 0x1302eefcb1139a7f4ebd64264712bacfa1e1d39d658e893b279a57e878b55452));
  ((0x1fbeb6e4eaa18ab648003f3e57ca462512d3efdc32c628b39f1e519b2dfde4dd, 0x5d9e7ef4707aa6e9c824705b44f2f465f3a3fbd907386f078a3b005f0a743fce), (0x3d7df6c1cbf2332854ec65d0e6d1eaffb073e8d5b8e850899b13aeb1faf8e40, 0x422acd6942438b2d82330cbbd5f2b09190822bdd9580cf4651a9dccf000b2a7b));
  ((0x3301d6dfe2d790a88e7a90948b5638652a6adae90286cd480df316288521ad16, 0x9845eda88725275619842a908555a66e8eba0ae26095dbc21e23d95f2e70e29), (0x4f9ade6df7bae7e483b58bf20d46ef92464da3fa052cf7f027f06deb025258d1, 0x2f029fa2ef6afd077f53a33571d1f2e988f53a8ae25ba4649f2f1a15ed4f5721));
  ((0xa62a4add0f92c36a958306e3a6dc593482cf0fd39311f457b8e1d800dc86bf3, 0x430d708c4633b9220e84155548412fa05f5f98888005f3d76ce139577f777c0c), (0x294b8aa442685003a9caac4d91745191e3ada65ea6074dd2c085590ff57856b1, 0x15265b97851479dc3b59425c06fd8ab24b20330f2fe66aac29982738e141f21a));
  ((0x50eeaa4eadb6c30e09221ed9429e1486da1188c489f1ce56a489756e142770d6, 0x5ea7e2d86b2dcd63e5d565943a0d9c9ccbef2c3a66cd83a4c3bae54797a63c67), (0x235a28ac9601be4c53678d9c7d4288067a85a23947ccba48493c1b5420d9e338, 0x69ec2690ce26235df6b16de7ea4a46d2aa86af98b40e505e9bef2d517bb8c8a8));
  ((0x13a6f863a23c85e1264fc472c2c82ac7b2632dd9458fe02d9d7fa70986b67608, 0x73ff1ee1f432c1f00e7f57a62bc166de04f0d9d6c41675c52ff696511ff9c763), (0x2d95c0f11f2a38836c95ff3d3ea459817af94bc7eaa3da707159f69a9c6c7ef5, 0x4eb9312c8dbd1d4442215bc1ac228febc44d9fa9b5c0168eded7f1956373783d));
  ((0x7c0daf7a6b48d571b63900694a35c6a7a7d903a099598e427016a3abca54226f, 0x3f36bbeb388ae3168238f2f285c44efa47f88b86e9f22471b3b1a82483467421), (0x34321e0c108d5ca50b1f97174642011ce733b0a91af9b6c5f90847db674e412c, 0x5461b6d28ddb1a5892bb0031b96e0b094cbea329fbf56b3be439982f93d42727));
  ((0x5e52eadb355497a61c59701b1570ec7e3b7c1254d1be02f2bc16b9175d78bc73, 0x331adc9e5c055989e71878323ca7fc1a1a7579263c836a96b3bafc273d0fab95), (0x64fdf2dc572055264b45486d3a7b51f766fd1bf89d1bec8f03642cfa0babb8b2, 0x33b13d85f6b16e5278c092b403970c177f2376eff9cc042e7ddfc4f22e7896ae));
  ((0x65cd426d1b3d5f1a2f13c4b3c35a852b42e4d74c10625d0567505dae920f424, 0x116299f74a395d1e8374f96c27f8e812efaa63c09f124d2d98d6bf10a62c1a69), (0x5d856ce3f7c20ea9f3949565fe6e5d862d490bf84c18fca68d1f47a33180c724, 0x4c669394cdab79ee224668327019e8746b40d12f27225312fee5ad12abfe4317));
  ((0x7509137b39be815fafad6fb4ea69a8f0606975874d0815bc150529802a71553, 0x735d700268c708f6df30b266086420383682020319dff0f2da794a090a55940e), (0x4e1bb099fe70bcc91654f6f42cbd88b6f607fa13c2d238cc526a344501563698, 0x44dcf70d9a544817d5ebde8733497f98998b85b91d23b2e6f96e166ea9f29b07));
  ((0x74726823f7013a4a8aa70826d00b31c1be5169062148b466dc2d0bc3bd69139f, 0x23eb86ae22902115d87b71f8b9f335181f8d1cb6baf649ace147dfae7538ee84), (0x429846e541624593b5d9690d258c4dea43cdcc5fe31246aef6c37068a1210a7f, 0x3192a3067328897d619e53914cce7a9301a2766d106ed03803ad6d519897baca));
  ((0x578c59807e6b39637b7717c178a56076618b0fae833ba83333270bd124463ffb, 0x67a68b0f615d6bba8191f95d1881bf73de4fb90ba7db3863458b3535caeeaea), (0x4a1d132be8a37860170344ab19335499b4ef58fae63fd53741790f3846e79b12, 0x138ff64a00ae49f6481ec7c456c8f80b26d7181ae552c457c9aad7b3487f086b));
  ((0x6fbbe84f2a1259bcda019f43ba9812a3792f937f05fcb6a2512c2e7875d8fee7, 0xd88d39fa4aae88329793d173c608f8a873147e7752efc1783f1f232b05ea61d), (0xc173d69411e136fdedc3d7652661b307f2ddf499bc7ef7b49cedad8058d854, 0x436ec7d0831155d8e97d209cb46e9c9f7b6ff1d04088be5c464c791f238bed9e));
  ((0x1971fab0eca4acd795ff31730087e3c438201ff776aeb425bfe4b38006469ff, 0x2cb1b541a06f5bc4bdd73a81684c4836c01c77cf7a2e3e33de9c31e17cb2605c), (0x13b2a5a1f17cf6f734bbddf44e210bfaf443781f235ddd3c1a008d769072eeea, 0x5e93b1f6d7972a7d40f95014f9addaaa66b739c38259a78b02bd7e1393784a58));
  ((0x5e4c270813adcff29aa65168c237a4c6223c29959cdd5491e61b496b1b9682d3, 0x4dddc59dfcd2d3780cc94ee12293420a4a89d6e28e9643efcb3891eb8849028a), (0x7e01cf9109fc1a732d9dd52f1141371af2f74465b69593c4a86c337804c67c9c, 0x6cd2ea8e55c151521d40b2cd209e008a79fd20001a55132375a12618b154ce07));
  ((0x24332ffa1a8a9d4317e16320b52969a76bc17f577845e9c8e795c1128f1b3db1, 0x40cde12d6be0aea7dc9e4f5216a4212e83d5cdcaaaeb8f266ad54c3e5658b5d8), (0x6469f0f35c96a6fba2295056f685c4b699e4ab36a7daf55f7b37b2e552c1efe5, 0x74f07095b2db6996da5d876c8ca7d5beff789bc6eda1a734fea6b0ce3d7f8039));
  ((0x3f42a3564bd814db4056b717c511e6c798a3149bcf5c9118cc5fd9d725673185, 0x32eab5a21940270a154fc65faad2607776f3a9e1020aa0a74d34a67ca7688bbc), (0x4c3eb958300466452fdca03d400802e7cb1cdada9d25373a34332937980642f0, 0x75a2c7b97c40d678639f5fa31b9051187e9c80cfaf500de921e85cf1860074da));
  ((0x549f29e3b3bfba45491b160ed38147bca7607c676256125201da6116b43d80a4, 0x6a847f1da0716b2bbcf04534b3f2a6686a39c24b71eb4688f8fa0a549a2c90e2), (0x24506d5509f278eeb6a2bc0a375d8b2ad524611ae7536d437232aef627e3876e, 0x6ee235b5a67ce647bef9b60d2b87d2c051a997b1d464fa36d0cff5ae6375a107));
  ((0x6062c0f7ccd13b024bad29c4a3dfbcdf749888aa2b40ea0d0587f2c75c139148, 0x3ca0b9c615bb3237b71ccaddc1029b714dc0e84cca749a78666877465da0784e), (0x650b88e751c18adec12e274775c24791a38b3e09cb42f9dfdb6a7c89722db25f, 0x7be3142a55cdd8a4ec624bf06a0add45bdb714d1374069d5fe3911e5ebf749e3));
  ((0x6198af9ae6c999c1b7b033a2fd2cdbc14163796a0a156c130ed4d81dc6310183, 0x4081b677273b188e27c2e0d03e5921d95b30a62026e896d9958126ee877aff0a), (0x621200e16f327313438ce8bf1c323b835530ff0f63834cdc811ee7fac92ef042, 0x55aca0827bbc372f061e049bc8a240522ea0bef7d6823d154d9a79f5a97e598d));
  ((0x206b767327534536bcc5847779d90a36a3ef72ba8fc763a37312f00c5862cab9, 0x604b99c4c03a96249c42aa512de441f86ba0c507a5b02ab8b0f5385930aa8200), (0x77b21e6007197bba97ea4f9269057da5607dadecc77bf046c70adea93225a203, 0x311a3d3e976c67bb64fa8acf5d3e18d0c5dd821538fd3e0f50334d14e1a743a3));
  ((0x3ea549e74fae4a5b3b64e6770d22da2459a8d773aabbb87daa1d2c42f51fcbaf, 0x1cd913d2c727d08027a490feff7b37808d6519469ec3a3c013405c3a4eb0b3b9), (0x315ada016164d24a619e22a86e9bf7e3cc887f3688ae7e13af6f9ab225e4fa38, 0x531c65090c582a41cfda7d50e20ea9e34e40a7098fca44e561724df2e93ee989));
  ((0x122733bbfbe169c847ac2b929a0e5a21fd3f092620e57700da5d4e9d549fda30, 0x1ae94b7642621a611b45f117c8924dbb6d5551c30e14a38a7f6d4ca20472de2), (0x6b24a26807facbe3691f9dda9ca676ba8ab69541e981eddc654717957db525e5, 0x5b3d9cfab1fa3c5d52bc3dc5aafa1231a61ba1f2e36f5ad159f46954811094c5));
  ((0x1058bac68d7c5c697e8f8c7a211631c122c2fe23480ccfaca88c5b6cc3a54627, 0x7d4aeb5bab242ba03aa92faff2278c2372e29109785e8b44afcb62707ebcaa22), (0xeb7d4762bbd66b97914d61192d84d34c7d778fbb0cc665f3a08ec5002968cec, 0x6d375c4bcbf7ab32640b6eb134290c35d5cd82cd1b93d3ff47ac7b8d0bcbe79d));
  ((0x29e2dc02c3c296506b0f80834ecc4003fab663c6f92f6316319bab6fcc1e2784, 0x2fe0d45bcb76cf5b540639d8d1b24434c300c0206a374f39ff159a06e322fe3b), (0x5672ed96bec908449c08fa6c5aeb15249e41972366e8333c4f1900bcf6a86503, 0x63b1d95c8466529ae5a618fbc7f51004c213e5e6986f097be763186d37018d65))].

(** Each pair of coordinates is the double of the one before. *)
Fixpoint check_powers (cur : Z * Z) (hints : list (Z * Z)) : bool :=
  match hints with
  | [] => true
  | next :: hints => check_add cur cur next && check_powers next hints
  end.

Lemma check_powers_ok P n cur hints : holds (smul n P) cur -> check_powers cur hints = true ->
  forall i c, (cur :: hints) !! i = Some c -> holds (smul (2 ^ Z.of_nat i * n) P) c.
Proof.
  revert n cur. induction hints as [| next hints IH]; intros n cur Hc H i c Hi.
  - destruct i; [| done]. injection Hi as <-. by rewrite Z.mul_1_l.
  - cbn [check_powers] in H. apply andb_true_iff in H as [H1 H2]. destruct i as [| i].
    { injection Hi as <-. by rewrite Z.mul_1_l. }
    rewrite Nat2Z.inj_succ, Z.pow_succ_r by lia. replace (2 * 2 ^ Z.of_nat i * n) with (2 ^ Z.of_nat i * (n + n)) by lia.
    apply (IH (n + n) next); [by apply (holds_smul_add P n n _ cur cur) | done | done].
Qed.

Lemma H2_check : check_powers H_xy H2_coords = true.
Proof. vm_compute. reflexivity. Qed.

Lemma H2_bytes : map enc_coords (H_xy :: H2_coords) = key_H2.
Proof. vm_compute. reflexivity. Qed.

(** [H2] holds [H], [2H], [4H] and so on. *)
Lemma key_H2_ok i : (i < 64)%nat -> key_H2 !! i = Some (enc (smul (2 ^ Z.of_nat i) H_point)).
Proof.
  intros Hi. rewrite <- H2_bytes. destruct (lookup_lt_is_Some_2 (H_xy :: H2_coords) i) as [c Hc]; [exact Hi |].
  rewrite list_lookup_fmap, Hc. cbn [fmap option_fmap option_map]. f_equal. symmetry. apply enc_holds.
  assert (H1 : holds (smul 1 H_point) H_xy) by (split; reflexivity).
  pose proof (check_powers_ok H_point 1 H_xy H2_coords H1 H2_check i c Hc) as R.
  by rewrite Z.mul_1_r in R.
Qed.

(** ** Commitments to amounts with one digit *)

(** From the amount of [cur], adds that of [unit], which moves on when it has been
    added ten times; each sum, added to the base point, has the bytes of the table. *)
Fixpoint check_amounts (unit cur : Z * (Z * Z)) (table : list (Z * list Z)) (hints : list ((Z * Z) * (Z * Z))) : bool :=
  match table, hints with
  | [], [] => true
  | (a, b) :: table, (t, c) :: hints =>
      (a =? cur.1 + unit.1) && check_add cur.2 unit.2 t && check_add base_xy t c && bool_decide (enc_coords c = b) &&
      check_amounts (if a =? 10 * unit.1 then (a, t) else unit) (a, t) table hints
  | _, _ => false
  end.

Lemma check_amounts_ok unit cur table hints :
  holds (smul unit.1 H_point) unit.2 -> holds (smul cur.1 H_point) cur.2 -> check_amounts unit cur table hints = true ->
  Forall (fun e => e.2 = enc (base_point ⊕ smul e.1 H_point)) table.
Proof.
  revert unit cur hints. induction table as [| [a b] table IH]; intros unit cur [| [t c] hints] Hu Hc H;
    [constructor | constructor | discriminate H |]. cbn [check_amounts] in H.
  rewrite !andb_true_iff, Z.eqb_eq, bool_decide_eq_true in H. destruct H as [[[[Ea H1] H2] Eb] H].
  pose proof (holds_smul_add H_point cur.1 unit.1 a _ _ _ Hc Hu H1 Ea) as Ht. constructor.
  - cbn [fst snd]. rewrite <- Eb. symmetry. apply enc_holds. apply (check_add_ok base_point _ base_xy t); [split; reflexivity | done | done].
  - apply (IH _ _ hints) with (3 := H); [destruct (a =? 10 * unit.1); done | done].
Qed.

Lemma amounts_check : check_amounts (1, H_xy) (0, (0, 1)) (tail zero_commitments) amount_coords = true.
Proof. vm_compute. reflexivity. Qed.

Lemma zero_commitments_ok : Forall (fun e => e.2 = enc (base_point ⊕ smul e.1 H_point)) zero_commitments.
Proof.
  assert (E : zero_commitments = (0, key_G) :: tail zero_commitments) by reflexivity. rewrite E. constructor.
  - cbn [fst snd]. rewrite key_G_enc. apply enc_eq. symmetry. exact (gadd_0_r base_point).
  - apply (check_amounts_ok (1, H_xy) (0, (0, 1)) _ amount_coords); [split; reflexivity | split; reflexivity | exact amounts_check].
Qed.

(** The amounts grow, as the binary search of [zeroCommit] requires. *)
Fixpoint growing (l : list Z) : bool :=
  match l with
  | x :: ((y :: _) as l') => (x <? y) && growing l'
  | _ => true
  end.

Lemma zero_commitments_growing : growing (map fst zero_commitments) = true.
Proof. vm_compute. reflexivity. Qed.
End RctTables.
