(* ===== verification/RctOps.v ===== *)
(** Operations on keys of src/ringct/rctOps.cpp, the conversions of
    src/ringct/rctTypes.cpp and [sc_reduce32copy] of src/ringct/rctCryptoOps.c.

    A [key] is a list of 32 bytes.  A call that checks its input by throwing has the
    type [exc A]: [None] is an abort, [Some None] an exception, [Some (Some x)] the
    result [x].  The random generator is the tape of Crypto.v. *)
From S2P Require Import Prelude Limbs Pack Scalar Ge GeMult GeFromFe Keccak Crypto RctData Exc.

Local Open Scope Z_scope.

Module RctOps.
Import Limbs Pack Scalar Ge GeMult GeFromFe Keccak Crypto RctData Exc.

Abbreviation key := (list Z).
Abbreviation keyV := (list key).
Abbreviation keyM := (list keyV).

Record ctkey := mk_ctkey { dest : key; mask : key }.
Record ecdhTuple := mk_ecdh { ecdh_mask : key; ecdh_amount : key }.

Definition zero : key := key_Z.
Definition identity : key := key_I.
Definition curveOrder : key := key_L.

Definition key_eq (a b : key) : bool := bool_decide (a = b).

(** ** Conversions *)

Definition d2h (amount : Z) : key := le_split 8 amount ++ drop 8 sc_0.

(** [for (j = 7; j >= 0; j--)]. *)
Definition h2d (test : key) : Z := foldl (fun vali j => u64 (vali * 256 + at_ test j)) 0 (rev (seq 0 8)).

Fixpoint low_bits (n : nat) (val : Z) : list Z :=
  match n with
  | O => []
  | S n => Z.land val 1 :: low_bits n (Z.shiftr val 1)
  end.

Definition d2b (val : Z) : list Z := low_bits 64 val.

Definition h2b (test : key) : list Z := concat (map (fun j => low_bits 8 (at_ test j)) (seq 0 8)).

Definition b2h (amountb2 : list Z) : key :=
  map (fun j => u8 (foldl (fun byte i => byte * 2 + at_ amountb2 (8 * j + i)) 0 (rev (seq 0 8)))) (seq 0 8) ++ replicate 24 0.

Definition b2d (amountb : list Z) : Z := foldl (fun vali j => u64 (vali * 2 + at_ amountb j)) 0 (rev (seq 0 64)).

(** The code of [sc_reduce32], from one array to another. *)
Definition sc_reduce32copy (s : key) : option key :=
  x ← run 64 reduce_short_steps (sc_load s ++ [0]);
  Some (sc_store x).

Definition keyMInit (rows cols : nat) : keyM := replicate cols (replicate rows zero).

(** ** Scalar multiplications *)

Definition scalarmultBase (a : key) : option key :=
  aG ← sc_reduce32copy a;
  point ← ge_scalarmult_base aG;
  ge_p3_tobytes point.

Definition scalarmultKey (P a : key) : exc key :=
  A <~ ge_frombytes_vartime P;
  call (R ← ge_scalarmult a A; ge_tobytes R).

Definition scalarmultH (a : key) : option key :=
  R ← ge_scalarmult a ge_p3_H;
  ge_tobytes R.

Definition scalarmult8 (P : key) : exc key :=
  p3 <~ ge_frombytes_vartime P;
  call (p1 ← ge_mul8 (ge_p3_to_p2 p3); p2 ← ge_p1p1_to_p2 p1; ge_tobytes p2).

Definition scalarmult8_p3 (P : key) : exc ge_p3 :=
  p3 <~ ge_frombytes_vartime P;
  call (p1 ← ge_mul8 (ge_p3_to_p2 p3); ge_p1p1_to_p3 p1).

(** The point, when it is decoded and of order dividing that of the group. *)
Definition toPointCheckOrder (data : key) : option (option ge_p3) :=
  o ← ge_frombytes_vartime data;
  match o with
  | None => Some None
  | Some P =>
      R ← ge_scalarmult curveOrder P;
      tmp ← ge_tobytes R;
      Some (if key_eq tmp identity then Some P else None)
  end.

Definition isInMainSubgroup (A : key) : option bool :=
  o ← toPointCheckOrder A;
  Some (match o with Some _ => true | None => false end).

(** ** Sums *)

Definition addKeys (A B : key) : exc key :=
  B2 <~ ge_frombytes_vartime B;
  A2 <~ ge_frombytes_vartime A;
  call (tmp2 ← ge_p3_to_cached B2; tmp3 ← ge_add A2 tmp2; A2 ← ge_p1p1_to_p3 tmp3; ge_p3_tobytes A2).

Definition subKeys (A B : key) : exc key :=
  B2 <~ ge_frombytes_vartime B;
  A2 <~ ge_frombytes_vartime A;
  call (tmp2 ← ge_p3_to_cached B2; tmp3 ← ge_sub A2 tmp2; A2 ← ge_p1p1_to_p3 tmp3; ge_p3_tobytes A2).

(** [for (size_t i = 1; i < A.size(); ++i)]. *)
Fixpoint add_loop (p3 : ge_p3) (A : keyV) : exc ge_p3 :=
  match A with
  | [] => ret p3
  | k :: A =>
      tmp <~ ge_frombytes_vartime k;
      p3 <~ call (p2 ← ge_p3_to_cached tmp; p1 ← ge_add p3 p2; ge_p1p1_to_p3 p1);
      add_loop p3 A
  end.

Definition addKeysV (A : keyV) : exc key :=
  match A with
  | [] => ret identity
  | k :: A =>
      p3 <~ ge_frombytes_vartime k;
      p3 <~ add_loop p3 A;
      call (ge_p3_tobytes p3)
  end.

Fixpoint sum_loop (Csum : key) (Cis : keyV) : exc key :=
  match Cis with
  | [] => ret Csum
  | C :: Cis => Csum <~ addKeys Csum C; sum_loop Csum Cis
  end.

Definition sumKeys (Cis : keyV) : exc key := sum_loop identity Cis.

Definition addKeys1 (a B : key) : exc key :=
  aG <~ call (scalarmultBase a);
  addKeys aG B.

Definition addKeys2 (a b B : key) : exc key :=
  B2 <~ ge_frombytes_vartime B;
  call (rv ← ge_double_scalarmult_base_vartime b B2 a; ge_tobytes rv).

Definition precomp (B : key) : exc (list ge_cached) :=
  B2 <~ ge_frombytes_vartime B;
  call (ge_dsm_precomp B2).

Definition addKeys3 (a A b : key) (B : list ge_cached) : exc key :=
  A2 <~ ge_frombytes_vartime A;
  call (rv ← ge_double_scalarmult_precomp_vartime a A2 b B; ge_tobytes rv).

Definition addKeys3_2 (a : key) (A : list ge_cached) (b : key) (B : list ge_cached) : option key :=
  rv ← ge_double_scalarmult_precomp_vartime2 a A b B; ge_tobytes rv.

Definition addKeys_aGbBcC (a b : key) (B : list ge_cached) (c : key) (C : list ge_cached) : option key :=
  rv ← ge_triple_scalarmult_base_vartime a b B c C; ge_tobytes rv.

Definition addKeys_aAbBcC (a : key) (A : list ge_cached) (b : key) (B : list ge_cached) (c : key) (C : list ge_cached)
  : option key :=
  rv ← ge_triple_scalarmult_precomp_vartime a A b B c C; ge_tobytes rv.

(** [rv] is set to false by the first difference and kept. *)
Definition equalKeys (a b : key) : bool :=
  foldl (fun rv i => if negb (at_ a i =? at_ b i) then false else rv) true (seq 0 32).

(** ** Hashing *)

Definition rct_cn_fast_hash (data : list Z) : option key := keccak data 32.

Definition rct_hash_to_scalar (data : list Z) : option key :=
  hash ← rct_cn_fast_hash data; sc_reduce32 hash.

Definition cn_fast_hashV (keys : keyV) : option key :=
  match keys with
  | [] => cn_fast_hash []
  | _ => rct_cn_fast_hash (concat keys)
  end.

Definition hash_to_scalarV (keys : keyV) : option key :=
  rv ← cn_fast_hashV keys; sc_reduce32 rv.

Definition cn_fast_hash_ct (PC : list ctkey) : option key :=
  match PC with
  | [] => cn_fast_hash []
  | _ => rct_cn_fast_hash (concat (map (fun k => dest k ++ mask k) PC))
  end.

Definition hash_to_scalar_ct (PC : list ctkey) : option key :=
  rv ← cn_fast_hash_ct PC; sc_reduce32 rv.

Definition hash_to_p3 (k : key) : option ge_p3 :=
  hash_key ← rct_cn_fast_hash k;
  hash_p2 ← ge_fromfe_frombytes_vartime hash_key;
  hash8_p1p1 ← ge_mul8 hash_p2;
  ge_p1p1_to_p3 hash8_p1p1.

(** ** Keys and commitments *)

Definition skGen (tape : list key) : option (key * list key) := random32_unbiased tape.

Fixpoint skv_loop (rows : nat) (tape : list key) : option (keyV * list key) :=
  match rows with
  | O => Some ([], tape)
  | S rows => '(k, tape) ← skGen tape; '(rv, tape) ← skv_loop rows tape; Some (k :: rv, tape)
  end.

Definition skvGen (rows : nat) (tape : list key) : exc (keyV * list key) :=
  _ <~ check (0 <? rows)%nat;
  call (skv_loop rows tape).

Definition pkGen (tape : list key) : option (key * list key) :=
  '(sk, tape) ← skGen tape;
  pk ← scalarmultBase sk;
  Some (pk, tape).

Definition skpkGen (tape : list key) : option (key * key * list key) :=
  '(sk, tape) ← skGen tape;
  pk ← scalarmultBase sk;
  Some (sk, pk, tape).

Definition genC (a : key) (amount : Z) : exc key := addKeys2 a (d2h amount) key_H.

Definition commit (amount : Z) (mask : key) : exc key := genC mask amount.

Definition ctskpkGen_bH (bH : key) (tape : list key) : exc (ctkey * ctkey * list key) :=
  '(sk_dest, pk_dest, tape) <~ call (skpkGen tape);
  '(sk_mask, pk_mask, tape) <~ call (skpkGen tape);
  pk_mask <~ addKeys pk_mask bH;
  ret (mk_ctkey sk_dest sk_mask, mk_ctkey pk_dest pk_mask, tape).

Definition ctskpkGen (amount : Z) (tape : list key) : exc (ctkey * ctkey * list key) :=
  '(sk_dest, pk_dest, tape) <~ call (skpkGen tape);
  '(sk_mask, pk_mask, tape) <~ call (skpkGen tape);
  bH <~ call (scalarmultH (d2h amount));
  pk_mask <~ addKeys pk_mask bH;
  ret (mk_ctkey sk_dest sk_mask, mk_ctkey pk_dest pk_mask, tape).

(** [std::lower_bound]: the first entry whose amount is not smaller. *)
Definition lower_bound (amount : Z) (l : list (Z * key)) : option (Z * key) := head (filter (fun e => amount <= e.1) l).

Definition zeroCommit (amount : Z) : exc key :=
  let computed := bH <~ call (scalarmultH (d2h amount)); addKeys key_G bH in
  match lower_bound amount zero_commitments with
  | Some it => if it.1 =? amount then ret it.2 else computed
  | None => computed
  end.

(** A zero limit divides by zero. *)
Definition randXmrAmount (upperlimit : Z) (tape : list key) : option (Z * list key) :=
  '(sk, tape) ← skGen tape;
  if upperlimit =? 0 then None else Some (h2d sk mod upperlimit, tape).

(** ** Masking of the amounts *)

(** The bytes of the string amount. *)
Definition ecdhHash (k : key) : option key := rct_cn_fast_hash ([97; 109; 111; 117; 110; 116] ++ k).

Definition xor8 (v k : key) : key := zip_with Z.lxor (take 8 v) (take 8 k) ++ drop 8 v.

(** The bytes of the string commitment_mask. *)
Definition genCommitmentMask (sk : key) : option key :=
  rct_hash_to_scalar ([99; 111; 109; 109; 105; 116; 109; 101; 110; 116; 95; 109; 97; 115; 107] ++ sk).

Definition ecdhEncode (unmasked : ecdhTuple) (sharedSec : key) (v2 : bool) : option ecdhTuple :=
  if v2 then
    h ← ecdhHash sharedSec;
    Some (mk_ecdh zero (xor8 (ecdh_amount unmasked) h))
  else
    sharedSec1 ← rct_hash_to_scalar sharedSec;
    sharedSec2 ← rct_hash_to_scalar sharedSec1;
    m ← sc_add (ecdh_mask unmasked) sharedSec1;
    a ← sc_add (ecdh_amount unmasked) sharedSec2;
    Some (mk_ecdh m a).

Definition ecdhDecode (masked : ecdhTuple) (sharedSec : key) (v2 : bool) : option ecdhTuple :=
  if v2 then
    m ← genCommitmentMask sharedSec;
    h ← ecdhHash sharedSec;
    Some (mk_ecdh m (xor8 (ecdh_amount masked) h))
  else
    sharedSec1 ← rct_hash_to_scalar sharedSec;
    sharedSec2 ← rct_hash_to_scalar sharedSec1;
    m ← sc_sub (ecdh_mask masked) sharedSec1;
    a ← sc_sub (ecdh_amount masked) sharedSec2;
    Some (mk_ecdh m a).
End RctOps.
