(* ===== verification/RctOpsCorrect.v ===== *)
(** What the operations of src/ringct/rctOps.cpp compute, on the points and scalars
    that the keys encode. *)
From S2P Require Import Prelude Limbs Pack Scalar ScalarCorrect Group Fe Curve Ge GeCorrect GeEncode GeMult GeMultCorrect.
From S2P Require Import GeTables GeScalarmult GeFromFe GeTheorems CurveOrder Keccak KeccakCorrect Varint Encoding Crypto CryptoCorrect.
From S2P Require Import RctData RctTables Exc RctOps.

Local Open Scope Z_scope.

Module RctOpsCorrect.
Import Limbs Pack Scalar ScalarCorrect Group Fe Curve Ge GeCorrect GeEncode GeMult GeMultCorrect.
Import GeTables GeScalarmult GeFromFe GeTheorems Finite CurveOrder Keccak KeccakCorrect Varint Encoding Crypto CryptoCorrect.
Import RctData RctTables Exc RctOps.
Local Open Scope group_scope.

(** ** Steps *)

(** Decodes a key that is the encoding of a point. *)
Tactic Notation "decode" constr(P) "as" simple_intropattern(h) simple_intropattern(H) :=
  destruct (from_enc P) as (h & -> & H); rewrite ebind_ret; cbv beta iota.

(** ** Conversions *)

Lemma key_Z_sbytes : key_Z = sbytes 0.
Proof. reflexivity. Qed.

Lemma identity_enc : identity = enc pzero.
Proof. reflexivity. Qed.

Lemma order_val : is_bytes 32 curveOrder /\ le_combine curveOrder = ell.
Proof. split; [split; [reflexivity | repeat constructor; unfold is_byte; lia] | reflexivity]. Qed.

Lemma INV_EIGHT_sbytes : exists n, INV_EIGHT = sbytes n /\ (8 * n) mod ell = 1.
Proof. exists (le_combine INV_EIGHT). split; vm_compute; reflexivity. Qed.

Lemma key_eq_enc P Q : key_eq (enc P) (enc Q) = true <-> P ≃ Q.
Proof. unfold key_eq. rewrite bool_decide_eq_true. apply enc_eq. Qed.

Lemma d2h_val a : 0 <= a < 2 ^ 64 -> is_bytes 32 (d2h a) /\ le_combine (d2h a) = a.
Proof.
  intros Ha. unfold d2h. destruct (le_split_bytes 8 a) as [L B]. change (drop 8 sc_0) with (replicate 24 0). split.
  - split; [rewrite length_app, L; done |]. apply Forall_app. split; [done |]. apply Forall_replicate. done.
  - rewrite le_combine_app, le_combine_zeros, le_combine_split; [lia |]. change (256 ^ Z.of_nat 8) with (2 ^ 64). done.
Qed.

Lemma d2h_sbytes a : 0 <= a < 2 ^ 64 -> d2h a = sbytes a.
Proof.
  intros Ha. destruct (d2h_val a Ha) as [B V]. assert (2 ^ 64 < ell) by reflexivity.
  rewrite (sbytes_of (d2h a) B) by lia. by rewrite V.
Qed.

(** The bytes are read from the last one down. *)
Lemma h2d_loop n v k : (n <= length k)%nat -> Forall is_byte k -> 0 <= v -> v * 256 ^ Z.of_nat n + le_combine (take n k) < 2 ^ 64 ->
  foldl (fun vali j => u64 (vali * 256 + at_ k j)) v (rev (seq 0 n)) = v * 256 ^ Z.of_nat n + le_combine (take n k).
Proof.
  intros L B. revert v. induction n as [| n IH]; intros v Hv Hb; [change (v = v * 1 + 0); lia |].
  rewrite seq_S, rev_app_distr. cbn [rev app foldl Nat.add]. rewrite le_combine_take in * by lia.
  rewrite Nat2Z.inj_succ, Z.pow_succ_r in * by lia. pose proof (at_byte k n B) as Bn. unfold is_byte in Bn.
  pose proof (le_combine_bounds (take n k) (Forall_take _ n _ B)) as Bt. 
  assert (P : 1 <= 256 ^ Z.of_nat n) by lia. set (w := 256 ^ Z.of_nat n) in *.
  assert (E : (v * 256 + at_ k n) * w = v * (256 * w) + w * at_ k n) by ring.
  assert (M : v * 256 + at_ k n <= (v * 256 + at_ k n) * w) by (rewrite <- Z.mul_1_r at 1; apply Z.mul_le_mono_nonneg_l; lia).
  rewrite wrap_small by lia. rewrite IH by lia. lia.
Qed.

Lemma h2d_val k : is_bytes 32 k -> h2d k = le_combine (take 8 k).
Proof.
  intros [L B]. unfold h2d. rewrite h2d_loop; [lia | lia | done | lia |].
  pose proof (le_combine_bounds (take 8 k) (Forall_take _ 8 _ B)) as Bt. rewrite length_take, L in Bt.
  change (256 ^ Z.of_nat (8 `min` 32)) with (2 ^ 64) in Bt. lia.
Qed.

Lemma h2d_d2h a : 0 <= a < 2 ^ 64 -> h2d (d2h a) = a.
Proof.
  intros Ha. rewrite h2d_val by by apply d2h_val. unfold d2h. rewrite take_app_length' by by rewrite (proj1 (le_split_bytes 8 a)).
  apply le_combine_split. change (256 ^ Z.of_nat 8) with (2 ^ 64). done.
Qed.

(** The value of a list of bits, the lowest one first. *)
Fixpoint bits_val (l : list Z) : Z := match l with [] => 0 | b :: l => b + 2 * bits_val l end.

Definition is_bit (b : Z) : Prop := b = 0 \/ b = 1.

Lemma low_bits_ok n v : 0 <= v -> length (low_bits n v) = n /\ Forall is_bit (low_bits n v) /\ bits_val (low_bits n v) = v mod 2 ^ Z.of_nat n.
Proof.
  revert v. induction n as [| n IH]; intros v Hv; [cbn; by rewrite Z.mod_1_r |]. cbn [low_bits length bits_val].
  pose proof (Z.land_ones v 1 ltac:(lia)) as E. change (Z.ones 1) with 1 in E. change (2 ^ 1) with 2 in E.
  rewrite E, Z.shiftr_div_pow2 by lia. change (2 ^ 1) with 2.
  destruct (IH (v / 2)) as (L & B & V); [apply Z.div_pos; lia |]. rewrite L, V. split; [done |]. split.
  - constructor; [| done]. unfold is_bit. pose proof (Z.mod_pos_bound v 2). lia.
  - rewrite Nat2Z.inj_succ, Z.pow_succ_r by lia. rewrite Z.rem_mul_r by lia. lia.
Qed.

Lemma d2b_ok a : 0 <= a < 2 ^ 64 -> length (d2b a) = 64%nat /\ Forall is_bit (d2b a) /\ bits_val (d2b a) = a.
Proof.
  intros Ha. destruct (low_bits_ok 64 a) as (L & B & V); [lia |]. split; [done |]. split; [done |].
  unfold d2b. rewrite V. by apply Z.mod_small.
Qed.

(** ** Scalars *)

Lemma reduce32copy_sbytes s : is_bytes 32 s -> sc_reduce32copy s = Some (sbytes (le_combine s)).
Proof. exact (reduce32_sbytes s). Qed.

Lemma scalarmultBase_ok a : is_bytes 32 a -> scalarmultBase a = Some (pub (le_combine a)).
Proof.
  intros Ha. unfold scalarmultBase. rewrite reduce32copy_sbytes by done. bind. run (base_sbytes (le_combine a)) as t [_ E].
  exact E.
Qed.

Lemma scalarmultBase_sbytes x : scalarmultBase (sbytes x) = Some (pub x).
Proof. rewrite scalarmultBase_ok by apply sbytes_bytes. by rewrite sbytes_val, pub_mod. Qed.

Lemma scalarmultKey_ok P a : scalar_ok a -> scalarmultKey (enc P) a = ret (enc (smul (le_combine a) P)).
Proof. intros Ha. unfold scalarmultKey. decode P as h Hh. run (mul_enc a h P Ha Hh) as q [_ E]. rewrite E. done. Qed.

Lemma scalarmultH_ok a : scalar_ok a -> scalarmultH a = Some (enc (smul (le_combine a) H_point)).
Proof. intros Ha. unfold scalarmultH. run (mul_enc a _ _ Ha H_rep) as q [_ E]. exact E. Qed.

Lemma scalarmult8_ok P : scalarmult8 (enc P) = ret (enc (smul 8 P)).
Proof.
  unfold scalarmult8. decode P as h Hh. run (ge_mul8_ok _ _ (p3_p2 _ _ Hh)) as p Hp.
  run (ge_p1p1_to_p2_ok _ _ Hp) as q Hq. rewrite (to_enc2 _ _ Hq). done.
Qed.

Lemma scalarmult8_p3_ok P : exists h, scalarmult8_p3 (enc P) = ret h /\ p3_rep h (smul 8 P).
Proof.
  unfold scalarmult8_p3. decode P as h Hh. run (ge_mul8_ok _ _ (p3_p2 _ _ Hh)) as p Hp.
  destruct (ge_p1p1_to_p3_ok _ _ Hp) as (q & -> & Hq). by exists q.
Qed.

(** ** Sums *)

Lemma addKeys_ok P Q : addKeys (enc P) (enc Q) = ret (enc (P ⊕ Q)).
Proof.
  unfold addKeys. decode Q as q Hq. decode P as p Hp. run (ge_p3_to_cached_ok _ _ Hq) as c Hc.
  run (add_rep _ _ _ _ Hp Hc) as t Ht. run (ge_p1p1_to_p3_ok _ _ Ht) as r Hr. rewrite (to_enc3 _ _ Hr). done.
Qed.

Lemma subKeys_ok P Q : subKeys (enc P) (enc Q) = ret (enc (P ⊕ gopp Q)).
Proof.
  unfold subKeys. decode Q as q Hq. decode P as p Hp. run (ge_p3_to_cached_ok _ _ Hq) as c Hc.
  run (sub_rep _ _ _ _ Hp Hc) as t Ht. run (ge_p1p1_to_p3_ok _ _ Ht) as r Hr. rewrite (to_enc3 _ _ Hr). done.
Qed.

Definition psum (Ps : list point) : point := foldr gadd gzero Ps.

Lemma psum_app Ps Qs : psum (Ps ++ Qs) ≃ psum Ps ⊕ psum Qs.
Proof.
  unfold psum. induction Ps as [| P Ps IH]; cbn [app foldr]; [by rewrite gadd_0_l |]. by rewrite IH, gadd_assoc.
Qed.

Lemma add_loop_ok Ps p P : p3_rep p P -> exists r, add_loop p (map enc Ps) = ret r /\ p3_rep r (P ⊕ psum Ps).
Proof.
  revert p P. induction Ps as [| Q Ps IH]; intros p P Hp; cbn [map add_loop].
  { exists p. split; [done |]. unfold psum. cbn [foldr]. by rewrite gadd_0_r. }
  decode Q as q Hq. destruct (ge_p3_to_cached_ok _ _ Hq) as (c & -> & Hc). bind.
  destruct (add_rep _ _ _ _ Hp Hc) as (t & -> & Ht). bind. destruct (ge_p1p1_to_p3_ok _ _ Ht) as (r & -> & Hr). ebind.
  destruct (IH r (P ⊕ Q) Hr) as (r' & E & Hr'). exists r'. split; [done |]. unfold psum in *. cbn [foldr]. by rewrite gadd_assoc.
Qed.

Lemma addKeysV_ok Ps : addKeysV (map enc Ps) = ret (enc (psum Ps)).
Proof.
  destruct Ps as [| P Ps]; [done |]. cbn [map addKeysV]. decode P as p Hp.
  destruct (add_loop_ok Ps p P Hp) as (r & -> & Hr). ebind. rewrite (to_enc3 _ _ Hr). done.
Qed.

Lemma sum_loop_ok Ps P : sum_loop (enc P) (map enc Ps) = ret (enc (P ⊕ psum Ps)).
Proof.
  revert P. induction Ps as [| Q Ps IH]; intros P; cbn [map sum_loop].
  { apply (f_equal Some), (f_equal Some), enc_eq. unfold psum. cbn [foldr]. by rewrite gadd_0_r. }
  rewrite addKeys_ok. ebind. rewrite IH. apply (f_equal Some), (f_equal Some), enc_eq.
  unfold psum. cbn [foldr]. by rewrite gadd_assoc.
Qed.

Lemma sumKeys_ok Ps : sumKeys (map enc Ps) = ret (enc (psum Ps)).
Proof.
  unfold sumKeys. rewrite identity_enc, sum_loop_ok. apply (f_equal Some), (f_equal Some), enc_eq. exact (gadd_0_l (psum Ps)).
Qed.

Lemma addKeys1_ok a P : is_bytes 32 a -> addKeys1 a (enc P) = ret (enc (smul (le_combine a) base_point ⊕ P)).
Proof. intros Ha. unfold addKeys1. rewrite scalarmultBase_ok by done. ebind. apply addKeys_ok. Qed.

Lemma addKeys2_ok a b P : scalar_ok a -> scalar_ok b ->
  addKeys2 a b (enc P) = ret (enc (smul (le_combine b) P ⊕ smul (le_combine a) base_point)).
Proof.
  intros Ha Hb. unfold addKeys2. decode P as p Hp. run (ge_double_base_ok _ _ Hb Ha _ _ Hp) as r Hr.
  rewrite (to_enc2 _ _ Hr). done.
Qed.

Lemma precomp_ok P : exists t, precomp (enc P) = ret t /\ table_ok t P.
Proof. unfold precomp. decode P as p Hp. destruct (ge_dsm_precomp_ok _ _ Hp) as (t & -> & Ht). by exists t. Qed.

Lemma addKeys3_ok a P b t Q : scalar_ok a -> scalar_ok b -> table_ok t Q ->
  addKeys3 a (enc P) b t = ret (enc (smul (le_combine a) P ⊕ smul (le_combine b) Q)).
Proof.
  intros Ha Hb Ht. unfold addKeys3. decode P as p Hp. run (ge_double_precomp_ok _ _ Ha Hb _ _ _ _ Hp Ht) as r Hr.
  rewrite (to_enc2 _ _ Hr). done.
Qed.

Lemma addKeys3_2_ok a t P b u Q : scalar_ok a -> scalar_ok b -> table_ok t P -> table_ok u Q ->
  addKeys3_2 a t b u = Some (enc (smul (le_combine a) P ⊕ smul (le_combine b) Q)).
Proof.
  intros Ha Hb Ht Hu. unfold addKeys3_2. run (ge_double_precomp2_ok _ _ Ha Hb _ _ _ _ Ht Hu) as r Hr. exact (to_enc2 _ _ Hr).
Qed.

Lemma addKeys_aGbBcC_ok a b t P c u Q : scalar_ok a -> scalar_ok b -> scalar_ok c -> table_ok t P -> table_ok u Q ->
  addKeys_aGbBcC a b t c u = Some (enc (smul (le_combine a) base_point ⊕ (smul (le_combine b) P ⊕ smul (le_combine c) Q))).
Proof.
  intros Ha Hb Hc Ht Hu. unfold addKeys_aGbBcC. run (ge_triple_base_ok _ _ _ Ha Hb Hc _ _ _ _ Ht Hu) as r Hr. exact (to_enc2 _ _ Hr).
Qed.

Lemma addKeys_aAbBcC_ok a s R b t P c u Q : scalar_ok a -> scalar_ok b -> scalar_ok c -> table_ok s R -> table_ok t P -> table_ok u Q ->
  addKeys_aAbBcC a s b t c u = Some (enc (smul (le_combine a) R ⊕ (smul (le_combine b) P ⊕ smul (le_combine c) Q))).
Proof.
  intros Ha Hb Hc Hs Ht Hu. unfold addKeys_aAbBcC. run (ge_triple_precomp_ok _ _ _ Ha Hb Hc _ _ _ _ _ _ Hs Ht Hu) as r Hr.
  exact (to_enc2 _ _ Hr).
Qed.

Lemma equal_loop a b n m v : foldl (fun rv i => if negb (at_ a i =? at_ b i) then false else rv) v (seq m n) =
  v && forallb (fun i => at_ a i =? at_ b i) (seq m n).
Proof.
  revert m v. induction n as [| n IH]; intros m v; cbn [seq foldl forallb]; [by rewrite andb_true_r |]. rewrite IH.
  destruct (at_ a m =? at_ b m); [done | by rewrite andb_false_r].
Qed.

Lemma equalKeys_ok a b : length a = 32%nat -> length b = 32%nat -> equalKeys a b = key_eq a b.
Proof.
  intros La Lb. unfold equalKeys, key_eq. rewrite equal_loop. cbn [andb]. apply eq_true_iff_eq.
  rewrite bool_decide_eq_true, forallb_forall. split.
  - intros E. apply list_eq_same_length with 32%nat; [congruence | congruence |]. intros i x y Hi Hx Hy.
    assert (E' : at_ a i = at_ b i) by (apply Z.eqb_eq, E, in_seq; lia). unfold at_ in E'. by rewrite Hx, Hy in E'.
  - intros -> i _. apply Z.eqb_refl.
Qed.

(** ** The subgroup of prime order *)

Lemma order_scalar : scalar_ok curveOrder.
Proof. destruct order_val as [B V]. split; [done |]. rewrite V. done. Qed.

Lemma toPointCheckOrder_enc P : exists h, p3_rep h P /\
  toPointCheckOrder (enc P) = Some (if bool_decide (enc (smul ell P) = identity) then Some h else None).
Proof.
  unfold toPointCheckOrder. destruct (from_enc P) as (h & -> & Hh). bind. exists h. split; [done |].
  run (mul_enc _ _ _ order_scalar Hh) as q [_ E]. rewrite E, (proj2 order_val). bind. done.
Qed.

Lemma isInMainSubgroup_ok s : is_bytes 32 s -> exists b, isInMainSubgroup s = Some b /\
  (b = true <-> exists P, s = enc P /\ prime_order P).
Proof.
  intros Hs. unfold isInMainSubgroup. destruct (from_cases s Hs) as [[P ->] | [E N]].
  - destruct (toPointCheckOrder_enc P) as (h & _ & ->). bind. rewrite identity_enc.
    destruct (bool_decide_reflect (enc (smul ell P) = enc pzero)) as [E | E]; (eexists; split; [reflexivity |]).
    + split; [| done]. intros _. exists P. split; [done |]. by apply enc_eq.
    + split; [done |]. intros (Q & EQ%enc_eq & HQ). exfalso. apply E. apply enc_eq. rewrite EQ. exact HQ.
  - unfold toPointCheckOrder. rewrite E. do 2 bind. exists false. split; [done |]. split; [done |].
    intros (P & -> & _). by destruct (N P).
Qed.

(** ** Hashing *)

Lemma rct_hash_ok m : rct_cn_fast_hash m = Some (keccak256 m).
Proof. apply keccak_32. Qed.

Lemma keccak_bytes m : Forall is_byte m -> is_bytes 32 (keccak256 m).
Proof. intros Hm. by apply cn_fast_hash_ok. Qed.

Lemma rct_hash_to_scalar_ok m : Forall is_byte m -> rct_hash_to_scalar m = Some (sbytes (hs m)).
Proof.
  intros Hm. unfold rct_hash_to_scalar. rewrite rct_hash_ok. bind. by apply reduce32_sbytes, keccak_bytes.
Qed.

Lemma cn_fast_hashV_ok keys : Forall (Forall is_byte) keys -> cn_fast_hashV keys = Some (keccak256 (concat keys)).
Proof.
  intros H. destruct keys as [| k keys]; [apply cn_fast_hash_ok; constructor |]. unfold cn_fast_hashV. apply rct_hash_ok.
Qed.

Lemma hash_to_scalarV_ok keys : Forall (Forall is_byte) keys -> hash_to_scalarV keys = Some (sbytes (hs (concat keys))).
Proof.
  intros H. unfold hash_to_scalarV. rewrite cn_fast_hashV_ok by done. bind. apply reduce32_sbytes, keccak_bytes, Forall_concat, H.
Qed.

Lemma hash_to_p3_ok k : Forall is_byte k -> exists h, hash_to_p3 k = Some h /\ exists Q, p3_rep h Q /\ hashes_to k Q.
Proof.
  intros Hk. destruct (hash_to_ec_ok k Hk) as (h & E & R). exists h. split; [| done].
  unfold hash_to_ec in E. rewrite (proj1 (cn_fast_hash_ok k Hk)) in E. unfold hash_to_p3. rewrite rct_hash_ok. exact E.
Qed.

Lemma key_eq_zero x : key_eq (sbytes x) zero = (x mod ell =? 0).
Proof.
  unfold key_eq, zero. rewrite key_Z_sbytes. apply eq_true_iff_eq. rewrite bool_decide_eq_true, Z.eqb_eq. split.
  - intros E%sbytes_inj. exact E.
  - intros E. by apply sbytes_eq.
Qed.

(** ** Random scalars *)

(** Scalars that the random source still has. *)
Definition has_scalars (k : nat) (tape : list key) : Prop := Forall (is_bytes 32) tape /\ (k <= length (scalars tape))%nat.

Lemma draw_scalar k tape : has_scalars (S k) tape ->
  exists r tape', call (skGen tape) = ret (sbytes r, tape') /\ 0 < r < ell /\ has_scalars k tape'.
Proof.
  intros [Ht Hk]. pose proof (scalars_range tape) as Hr. destruct (scalars tape) as [| r rs] eqn:E; [simpl in Hk; lia |].
  destruct (next_scalar_some _ _ _ Ht E) as (t & Er & St & Bt & _). exists r, t. apply Forall_cons_iff in Hr as [Hr _].
  change (skGen tape) with (random_scalar tape). rewrite Er. split; [done |]. split; [done |]. split; [done |]. rewrite St. simpl in Hk. lia.
Qed.

(** The random source yields exactly these scalars. *)
Definition yields_scalars (tape : list key) (rs : list Z) : Prop := Forall (is_bytes 32) tape /\ scalars tape = rs.

Lemma draw_next tape r rs : yields_scalars tape (r :: rs) ->
  exists tape', call (skGen tape) = ret (sbytes r, tape') /\ yields_scalars tape' rs.
Proof.
  intros [Ht E]. destruct (next_scalar_some _ _ _ Ht E) as (t & Er & St & Bt & _). exists t.
  change (skGen tape) with (random_scalar tape). rewrite Er. by split.
Qed.

(** ** Commitments *)

(** The commitment to [b] with mask [a]. *)
Definition pedersen (a b : Z) : point := smul a base_point ⊕ smul b H_point.

Lemma pedersen_add a b c d : pedersen a b ⊕ pedersen c d ≃ pedersen (a + c) (b + d).
Proof. unfold pedersen. rewrite !smul_add. apply gadd_swap. Qed.

Lemma pedersen_opp a b : gopp (pedersen a b) ≃ pedersen (- a) (- b).
Proof. unfold pedersen. by rewrite !smul_opp, gopp_add. Qed.

Lemma smul_mod_eq a b P : prime_order P -> a mod ell = b mod ell -> smul a P ≃ smul b P.
Proof. intros H E. rewrite <- (smul_mod a P H), E. by apply smul_mod. Qed.

Lemma pedersen_mod a b c d : a mod ell = c mod ell -> b mod ell = d mod ell -> pedersen a b ≃ pedersen c d.
Proof.
  intros E1 E2. unfold pedersen. rewrite (smul_mod_eq a c base_point base_prime E1). 
  by rewrite (smul_mod_eq b d H_point H_prime E2).
Qed.

Lemma pedersen_0 : pedersen 0 0 ≃ gzero.
Proof. exact (gadd_0_l gzero). Qed.

Lemma amount_scalar a : 0 <= a < 2 ^ 64 -> scalar_ok (d2h a).
Proof. intros Ha. rewrite d2h_sbytes by done. apply sbytes_ok. Qed.

Lemma genC_ok a amount : scalar_ok a -> 0 <= amount < 2 ^ 64 -> genC a amount = ret (enc (pedersen (le_combine a) amount)).
Proof.
  intros Ha Hb. unfold genC. rewrite key_H_enc, addKeys2_ok by (done || by apply amount_scalar).
  rewrite (proj2 (d2h_val amount Hb)). apply (f_equal Some), (f_equal Some), enc_eq. apply gadd_comm.
Qed.

Lemma genC_sbytes x amount : 0 <= amount < 2 ^ 64 -> genC (sbytes x) amount = ret (enc (pedersen x amount)).
Proof.
  intros Hb. rewrite genC_ok by (done || apply sbytes_ok). rewrite sbytes_val.
  apply (f_equal Some), (f_equal Some), enc_eq. apply pedersen_mod; [by rewrite Z.mod_mod | done].
Qed.

Lemma scalarmultH_amount b : 0 <= b < 2 ^ 64 -> scalarmultH (d2h b) = Some (enc (smul b H_point)).
Proof. intros Hb. rewrite scalarmultH_ok by by apply amount_scalar. by rewrite (proj2 (d2h_val b Hb)). Qed.

Lemma zeroCommit_ok amount : 0 <= amount < 2 ^ 64 -> zeroCommit amount = ret (enc (base_point ⊕ smul amount H_point)).
Proof.
  intros Ha. assert (C : ebind (call (scalarmultH (d2h amount))) (fun bH => addKeys key_G bH) =
    ret (enc (base_point ⊕ smul amount H_point))).
  { rewrite scalarmultH_amount by done. ebind. rewrite key_G_enc. apply addKeys_ok. }
  unfold zeroCommit. cbv zeta. rewrite C. destruct (lower_bound amount zero_commitments) as [[a b] |] eqn:E; [| exact eq_refl].
  cbn [fst snd]. destruct (Z.eqb_spec a amount) as [-> |]; [| exact eq_refl]. unfold lower_bound in E.
  apply head_Some_elem_of, list_elem_of_filter in E as [_ E].
  pose proof (proj1 (list.Forall_forall _ _) zero_commitments_ok _ E) as V. cbn [fst snd] in V. rewrite V. exact eq_refl.
Qed.

(** ** Masked amounts *)

Lemma xor8_involutive v k : (8 <= length v)%nat -> (8 <= length k)%nat -> xor8 (xor8 v k) k = v.
Proof.
  intros Lv Lk. unfold xor8.
  assert (L : length (zip_with Z.lxor (take 8 v) (take 8 k)) = 8%nat) by (rewrite length_zip_with, !length_take; lia).
  rewrite take_app_length', drop_app_length' by done. rewrite <- (take_drop 8 v) at 3. apply (f_equal (fun l => l ++ _)).
  assert (G : forall n (l m : list Z), length l = n -> length m = n -> zip_with Z.lxor (zip_with Z.lxor l m) m = l).
  { induction n as [| n IH]; intros [| x l] [| y m] Ll Lm; try discriminate; [done |]. cbn [zip_with].
    rewrite IH by (simpl in *; lia). by rewrite Z.lxor_assoc, Z.lxor_nilpotent, Z.lxor_0_r. }
  apply (G 8%nat); rewrite length_take; lia.
Qed.

Lemma xor8_length v k : (8 <= length v)%nat -> (8 <= length k)%nat -> length (xor8 v k) = length v.
Proof. intros Lv Lk. unfold xor8. rewrite length_app, length_zip_with, !length_take, length_drop. lia. Qed.

Lemma prefix_bytes l k : forallb (fun b => (0 <=? b) && (b <? 256)) l = true -> is_bytes 32 k -> Forall is_byte (l ++ k).
Proof.
  intros H [_ B]. apply Forall_app. split; [| done]. apply list.Forall_forall. intros b Hb.
  rewrite forallb_forall in H. apply list_elem_of_In in Hb. specialize (H b Hb). unfold is_byte. lia.
Qed.

(** The mask that sender and receiver derive from the shared secret. *)
Definition derived_mask (ss : key) : Z :=
  hs ([99; 111; 109; 109; 105; 116; 109; 101; 110; 116; 95; 109; 97; 115; 107] ++ ss).

Lemma genCommitmentMask_ok ss : is_bytes 32 ss -> genCommitmentMask ss = Some (sbytes (derived_mask ss)).
Proof. intros B. unfold genCommitmentMask. apply rct_hash_to_scalar_ok. by apply prefix_bytes. Qed.

Lemma ecdhHash_ok ss : is_bytes 32 ss -> exists h, ecdhHash ss = Some h /\ is_bytes 32 h.
Proof.
  intros B. unfold ecdhHash. rewrite rct_hash_ok. eexists. split; [reflexivity |]. apply keccak_bytes. by apply prefix_bytes.
Qed.

(** ** Properties *)

(** The masking of amounts. In the second version the masked amount, decoded
    with the same shared secret, is the amount, the mask is not sent and both sides
    derive it from the secret; in the first version the decoded pair is the pair
    that was encoded. *)
Theorem ecdh_roundtrip m a ss : 0 <= a < 2 ^ 64 -> is_bytes 32 ss ->
  (exists t, ecdhEncode (mk_ecdh (sbytes m) (d2h a)) ss true = Some t /\ ecdh_mask t = zero /\
    ecdhDecode t ss true = Some (mk_ecdh (sbytes (derived_mask ss)) (d2h a))) /\
  (exists t, ecdhEncode (mk_ecdh (sbytes m) (d2h a)) ss false = Some t /\
    ecdhDecode t ss false = Some (mk_ecdh (sbytes m) (d2h a))).
Proof.
  intros Ha B. destruct (ecdhHash_ok ss B) as (h & Eh & Lh & _). destruct (d2h_val a Ha) as [[La _] _]. unfold ecdhEncode, ecdhDecode. split.
  - rewrite Eh. bind. eexists. split; [reflexivity |]. split; [done |]. rewrite genCommitmentMask_ok by done. do 2 bind.
    cbn [ecdh_amount]. by rewrite xor8_involutive by lia.
  - rewrite rct_hash_to_scalar_ok by apply B. bind. rewrite rct_hash_to_scalar_ok by apply sbytes_bytes. bind.
    cbn [ecdh_mask ecdh_amount]. rewrite d2h_sbytes, !add_sbytes by done. do 2 bind. eexists. split; [reflexivity |].
    cbn [ecdh_mask ecdh_amount]. bind. rewrite rct_hash_to_scalar_ok by apply sbytes_bytes. bind. rewrite !sub_sbytes. do 2 bind.
    do 2 f_equal; apply sbytes_eq; f_equal; lia.
Qed.

Lemma ecdh_witness : exists t, ecdhEncode (mk_ecdh (sbytes 5) (d2h 7)) key_G true = Some t /\ ecdh_mask t = zero /\
    ecdhDecode t key_G true = Some (mk_ecdh (sbytes (derived_mask key_G)) (d2h 7)).
Proof.
  assert (B : is_bytes 32 key_G) by (rewrite key_G_enc; apply enc_bytes).
  exact (proj1 (ecdh_roundtrip 5 7 key_G ltac:(lia) B)).
Defined.

(** C27: commitments to amounts. Their sum is the commitment to the sum of the
    amounts with the sum of the masks, the commitment with mask one is the one that
    [zeroCommit] reads from its table or computes, and two openings of one
    commitment differ by a relation between the two generators. *)
Theorem commitments_homomorphic a b m n : 0 <= a -> 0 <= b -> a + b < 2 ^ 64 ->
  (exists C D, commit a (sbytes m) = ret C /\ commit b (sbytes n) = ret D /\ addKeys C D = commit (a + b) (sbytes (m + n))) /\
  zeroCommit a = commit a (sbytes 1) /\
  (commit a (sbytes m) = commit b (sbytes n) <-> smul (m - n) base_point ≃ smul (b - a) H_point).
Proof.
  intros Ha Hb Hs. unfold commit. rewrite !genC_sbytes, zeroCommit_ok by lia. split; [| split].
  - do 2 eexists. split; [reflexivity |]. split; [reflexivity |]. rewrite addKeys_ok.
    apply (f_equal Some), (f_equal Some), enc_eq, pedersen_add.
  - apply (f_equal Some), (f_equal Some), enc_eq. unfold pedersen. by rewrite smul_1.
  - transitivity (pedersen m a ≃ pedersen n b).
    { split; [intros E; by apply enc_eq, (inj Some), (inj Some) | intros E; by apply (f_equal Some), (f_equal Some), enc_eq]. }
    rewrite geq_sub, pedersen_opp, pedersen_add, (geq_sub (smul (m - n) base_point)). unfold pedersen. rewrite <- smul_opp.
    by replace (- (b - a)) with (a + - b) by lia.
Qed.

Lemma commitments_witness : zeroCommit 7 = commit 7 (sbytes 1) /\
  exists C D, commit 7 (sbytes 3) = ret C /\ commit 9 (sbytes 4) = ret D /\ addKeys C D = commit (7 + 9) (sbytes (3 + 4)).
Proof.
  destruct (commitments_homomorphic 7 9 3 4 ltac:(lia) ltac:(lia) ltac:(lia)) as (S & Z & _). exact (conj Z S).
Defined.

(** [isInMainSubgroup] returns true exactly on the encodings of points of the
    subgroup of prime order, and false on every other string of 32 bytes. *)
Theorem subgroup_check_exact s : is_bytes 32 s -> exists b, isInMainSubgroup s = Some b /\
  (b = true <-> exists P, s = enc P /\ prime_order P).
Proof. apply isInMainSubgroup_ok. Qed.

Lemma subgroup_check_witness : isInMainSubgroup key_H = Some true.
Proof.
  assert (B : is_bytes 32 key_H) by (rewrite key_H_enc; apply enc_bytes).
  destruct (subgroup_check_exact key_H B) as (b & -> & E). f_equal. apply E. exists H_point. split; [apply key_H_enc | apply H_prime].
Defined.
End RctOpsCorrect.
