(* ===== verification/RingLoop.v ===== *)
(** The loop that [CLSAG_Gen] and [MLSAG_Gen] of src/ringct/rctSigs.cpp have in common:
    starting after the signer, it goes once around the ring, draws a response for every
    other member and hashes the round into the next challenge, noting the challenge with
    which the first member of the ring starts.

    The theorems give the state after the loop from what one draw and one round do. *)
From S2P Require Import Prelude Crypto CryptoCorrect Exc RctOps.

Module RingLoop.
Import Exc RctOps.

(** What the loop updates: the challenge, the responses, the first challenge (unset at first) and the random source. *)
Record ring_state (S : Type) := mk_ring { r_c : key; r_s : list S; r_c1 : option key; r_tape : list key }.
Arguments mk_ring {_}.
Arguments r_c {_}.
Arguments r_s {_}.
Arguments r_c1 {_}.
Arguments r_tape {_}.

Section Loop.
Context {A : Type} (draw : list key -> exc (A * list key)) (round : nat -> key -> A -> exc key) (n l : nat).

Definition ring_step (i : nat) (st : ring_state A) : exc (nat * ring_state A) :=
  '(s, tape) <~ draw (r_tape st);
  c <~ round i (r_c st) s;
  let i' := ((i + 1) mod n)%nat in
  ret (i', mk_ring c (<[i := s]> (r_s st)) (if (i' =? 0)%nat then Some c else r_c1 st) tape).

(** [while (i != l)], at most once for every other member. *)
Fixpoint ring_loop (fuel i : nat) (st : ring_state A) : exc (ring_state A) :=
  if (i =? l)%nat then ret st else
  match fuel with
  | O => None
  | S fuel => '(i, st) <~ ring_step i st; ring_loop fuel i st
  end.
End Loop.

Section Proofs.
Context {A M R C : Type} (draw : list key -> exc (A * list key)) (round : nat -> key -> A -> exc key).
Context (ec : C -> key) (er : R -> A) (next : C -> M * R -> C) (okr : R -> Prop) (avail : nat -> list key -> Prop) (ms : list M) (l : nat).
Context (draw_ok : forall k tape, avail (S k) tape -> exists r tape', draw tape = ret (er r, tape') /\ okr r /\ avail k tape').
Context (round_ok : forall i m c r, ms !! i = Some m -> okr r -> round i (ec c) (er r) = ret (ec (next c (m, r)))).

Definition chain (c : C) (rounds : list (M * R)) : C := foldl next c rounds.

Abbreviation loop := (ring_loop draw round (length ms) l).

Lemma ring_step_ok pre m post s1 y s3 c c1 tape k : ms = pre ++ m :: post -> length s1 = length pre -> avail (S k) tape ->
  let i' := ((length pre + 1) mod length ms)%nat in
  exists r tape', ring_step draw round (length ms) (length pre) (mk_ring (ec c) (s1 ++ y :: s3) c1 tape) =
    ret (i', mk_ring (ec (next c (m, r))) (s1 ++ er r :: s3) (if (i' =? 0)%nat then Some (ec (next c (m, r))) else c1) tape') /\
    okr r /\ avail k tape'.
Proof.
  intros E L H i'. destruct (draw_ok k tape H) as (r & tape' & D & Hr & H'). exists r, tape'. split; [| done].
  unfold ring_step. cbn [r_tape r_c r_s r_c1]. rewrite D, ebind_ret. cbv beta iota.
  rewrite (round_ok _ m), ebind_ret by (by rewrite E, list_lookup_middle || done). by rewrite (CryptoCorrect.insert_at s1).
Qed.

Lemma ring_segment seg pre post s1 s2 s3 c c1 tape k fuel : ms = pre ++ seg ++ post -> post <> [] ->
  (l < length pre \/ length pre + length seg <= l)%nat -> length s1 = length pre -> length s2 = length seg -> avail (length seg + k) tape ->
  exists rs tape', length rs = length seg /\
    loop (length seg + fuel) (length pre) (mk_ring (ec c) (s1 ++ s2 ++ s3) c1 tape) =
    loop fuel (length pre + length seg) (mk_ring (ec (chain c (zip seg rs))) (s1 ++ map er rs ++ s3) c1 tape') /\ Forall okr rs /\ avail k tape'.
Proof.
  intros E Hp. revert pre s1 s2 c tape E.
  induction seg as [| m seg IH]; intros pre s1 s2 c tape E Hl L1 L2 H.
  { destruct s2; [| discriminate L2]. exists [], tape. cbn. by rewrite Nat.add_0_r. }
  destruct s2 as [| y s2]; [discriminate L2 |].
  destruct (ring_step_ok pre m (seg ++ post) s1 y (s2 ++ s3) c c1 tape (length seg + k) E L1 H) as (r & t & Et & Or & Ht).
  cbn [length Nat.add ring_loop]. rewrite (proj2 (Nat.eqb_neq _ _)) by (simpl in Hl; lia).
  cbn [app]. rewrite Et, ebind_ret. cbv beta iota.
  assert (N : ((length pre + 1) mod length ms = length (pre ++ [m]))%nat).
  { rewrite E, Nat.mod_small; rewrite !length_app; cbn [length]; rewrite ?length_app; destruct post; simpl; try done; lia. }
  rewrite N, (proj2 (Nat.eqb_neq _ 0)) by (rewrite length_app; simpl; lia).
  destruct (IH (pre ++ [m]) (s1 ++ [er r]) s2 (next c (m, r)) t) as (rs & t' & Lrs & E' & Ors & H').
  - by rewrite <- app_assoc.
  - rewrite length_app. simpl in *. lia.
  - rewrite !length_app. simpl. lia.
  - by injection L2.
  - done.
  - exists (r :: rs), t'. split; [simpl; lia |]. rewrite <- !app_assoc in E'. cbn [app] in E'. rewrite E'.
    split; [| split; [by constructor | done]]. cbn [zip_with chain foldl map app].
    by replace (length (pre ++ [m]) + length seg)%nat with (length pre + length (m :: seg))%nat by (rewrite length_app; simpl; lia).
Qed.

(** The part of the loop after the signer, up to the start of the ring. *)
Lemma ring_to_end pre seg q s1 s2 c tape k fuel : ms = pre ++ seg ++ [q] -> (l < length pre)%nat -> length s1 = length pre ->
  length s2 = length (seg ++ [q]) -> avail (length (seg ++ [q]) + k) tape ->
  exists rs tape', length rs = length (seg ++ [q]) /\ let c' := ec (chain c (zip (seg ++ [q]) rs)) in
    loop (length (seg ++ [q]) + fuel) (length pre) (mk_ring (ec c) (s1 ++ s2) None tape) =
    loop fuel 0 (mk_ring c' (s1 ++ map er rs) (Some c') tape') /\ Forall okr rs /\ avail k tape'.
Proof.
  intros E Hl L1 L2 H. rewrite length_app in *. cbn [length] in *.
  destruct (CryptoCorrect.split_at s2 (length seg) 0 ltac:(lia)) as (t1 & y & t2 & -> & Lt1 & Lt2). destruct t2; [| discriminate Lt2].
  rewrite <- !Nat.add_assoc in *.
  destruct (ring_segment seg pre [q] s1 t1 [y] c None tape (1 + k) (1 + fuel) E) as (rs & t & Lrs & E' & Ors & Ht); try done; [lia |].
  destruct (ring_step_ok (pre ++ seg) q [] (s1 ++ map er rs) y [] (chain c (zip seg rs)) None t k) as (r & t' & Et & Or & Ht');
    [by rewrite <- app_assoc | rewrite !length_app, length_map; lia | done |].
  exists (rs ++ [r]), t'. rewrite length_app, E'. split; [simpl; lia |]. split; [| split; [by apply Forall_app_2; [| constructor] | done]].
  cbn [Nat.add ring_loop]. rewrite (proj2 (Nat.eqb_neq _ _)) by lia. rewrite <- app_assoc, length_app in Et. rewrite Et, ebind_ret. cbv beta iota.
  replace (_ mod _)%nat with 0%nat by (rewrite E, !length_app; cbn [length]; rewrite Nat.add_assoc; symmetry; apply Nat.Div0.mod_same).
  cbn [Nat.eqb]. rewrite zip_with_app by done. unfold chain. rewrite foldl_app, map_app. cbn [zip_with foldl map].
  by rewrite (app_assoc s1).
Qed.

Lemma ring_after ms1 m ms2 s1 s2 c tape k fuel : ms = ms1 ++ m :: ms2 -> l = length ms1 -> length s1 = S (length ms1) ->
  length s2 = length ms2 -> avail (length ms2 + k) tape -> let i := ((l + 1) mod length ms)%nat in
  exists rs tape', length rs = length ms2 /\ let c' := ec (chain c (zip ms2 rs)) in
    loop (length ms2 + fuel) i (mk_ring (ec c) (s1 ++ s2) (if (i =? 0)%nat then Some (ec c) else None) tape) =
    loop fuel 0 (mk_ring c' (s1 ++ map er rs) (Some c') tape') /\ Forall okr rs /\ avail k tape'.
Proof.
  intros E Hl L1 L2 H i. destruct (decide (ms2 = [])) as [-> | Hn].
  - destruct s2; [| discriminate L2]. exists [], tape. split; [done |]. split; [| done].
    assert (Ei : i = 0%nat). { unfold i. rewrite Hl, E, length_app. apply Nat.Div0.mod_same. }
    by rewrite Ei.
  - destruct (exists_last Hn) as (seg & q & ->).
    assert (Ei : i = length (ms1 ++ [m])).
    { unfold i. rewrite Hl, E, Nat.mod_small; rewrite !length_app; cbn [length]; rewrite ?length_app; simpl; lia. }
    rewrite Ei, (proj2 (Nat.eqb_neq _ 0)) by (rewrite length_app; simpl; lia).
    apply ring_to_end; [by rewrite <- app_assoc | ..]; try done; rewrite length_app; simpl; lia.
Qed.

(** The whole loop: the challenges of the members after the signer and of those before it. *)
Lemma ring_loop_ok ms1 m ms2 s1 x s2 c tape k : ms = ms1 ++ m :: ms2 -> l = length ms1 -> length s1 = length ms1 -> length s2 = length ms2 ->
  avail (length ms1 + length ms2 + k) tape -> let i := ((l + 1) mod length ms)%nat in
  exists rs1 rs2 tape', length rs1 = length ms1 /\ length rs2 = length ms2 /\ Forall okr (rs1 ++ rs2) /\ avail k tape' /\ let c1 := chain c (zip ms2 rs2) in
    loop (length ms) i (mk_ring (ec c) (s1 ++ x :: s2) (if (i =? 0)%nat then Some (ec c) else None) tape) =
    ret (mk_ring (ec (chain c1 (zip ms1 rs1))) (map er rs1 ++ x :: map er rs2) (Some (ec c1)) tape').
Proof.
  intros E Hl L1 L2 H i.
  destruct (ring_after ms1 m ms2 (s1 ++ [x]) s2 c tape (length ms1 + k) (S (length ms1)) E Hl) as (rs2 & t & Lr2 & E2 & O2 & H2);
    [rewrite length_app; simpl; lia | done | by replace (length ms2 + _)%nat with (length ms1 + length ms2 + k)%nat by lia |].
  fold i in E2. rewrite <- !app_assoc in E2.
  destruct (ring_segment ms1 [] (m :: ms2) [] s1 (x :: map er rs2) (chain c (zip ms2 rs2)) (Some (ec (chain c (zip ms2 rs2)))) t k 1 E)
    as (rs1 & t' & Lr1 & E1 & O1 & H1); [discriminate | cbn; lia | done | done | done |].
  exists rs1, rs2, t'. split; [done |]. split; [done |]. split; [by apply Forall_app_2 |]. split; [done |].
  replace (length ms2 + S (length ms1))%nat with (length ms) in E2 by (rewrite E, length_app; simpl; lia).
  cbn [app] in E2, E1. cbn [length] in E1. rewrite E2.
  replace (S (length ms1)) with (length ms1 + 1)%nat by lia. rewrite E1. cbn [Nat.add ring_loop]. by rewrite Hl, Nat.eqb_refl.
Qed.
End Proofs.
End RingLoop.
