(* ===== verification/Clsag.v ===== *)
(** CLSAG signatures of src/ringct/rctSigs.cpp, with the steps that the default
    device of src/device/device_default.cpp performs: [CLSAG_Gen],
    [proveRctCLSAGSimple], [verRctCLSAGSimple] and [signMultisigCLSAG].

    The vectors that are hashed are built as lists: [c_to_hash] is its constant part
    followed by the two points of the round. *)
From S2P Require Import Prelude Pack Scalar Ge GeMult GeFromFe Keccak Crypto RctData Exc RctOps RingLoop.

Local Open Scope Z_scope.

Module Clsag.
Import Pack Scalar Ge GeMult GeFromFe Keccak Crypto RctData Exc RctOps RingLoop.

Record clsag := mk_clsag { cl_s : keyV; cl_c1 : key; cl_I : key; cl_D : key }.

Record multisig_kLRki := mk_kLRki { ms_k : key; ms_L : key; ms_R : key; ms_ki : key }.

(** The bytes of the strings CLSAG_round, CLSAG_agg_0 and CLSAG_agg_1. *)
Definition HASH_KEY_CLSAG_ROUND : list Z := [67; 76; 83; 65; 71; 95; 114; 111; 117; 110; 100].
Definition HASH_KEY_CLSAG_AGG_0 : list Z := [67; 76; 83; 65; 71; 95; 97; 103; 103; 95; 48].
Definition HASH_KEY_CLSAG_AGG_1 : list Z := [67; 76; 83; 65; 71; 95; 97; 103; 103; 95; 49].

(** [sc_0] with the string copied over its first bytes. *)
Definition domain (s : list Z) : key := s ++ drop (length s) sc_0.

(** [mu_P_to_hash] and [mu_C_to_hash]. *)
Definition mu_to_hash (s : list Z) (P C_nonzero : keyV) (KI D C_offset : key) : keyV :=
  domain s :: P ++ C_nonzero ++ [KI; D; C_offset].

(** The entries of [c_to_hash] before the last two. *)
Definition c_head (P C_nonzero : keyV) (C_offset message : key) : keyV :=
  domain HASH_KEY_CLSAG_ROUND :: P ++ C_nonzero ++ [C_offset; message].

(** ** The device *)

(** Returns the key image [KI], [D], [a], [aG] and [aH]. *)
Definition clsag_prepare (p z H : key) (tape : list key) : exc (key * key * key * key * key * list key) :=
  '(a, aG, tape) <~ call (skpkGen tape);
  aH <~ scalarmultKey H a;
  KI <~ scalarmultKey H p;
  D <~ scalarmultKey H z;
  ret (KI, D, a, aG, aH, tape).

Definition clsag_hash (data : keyV) : option key := hash_to_scalarV data.

Definition clsag_sign (c a p z mu_P mu_C : key) : option key :=
  s0_p_mu_P ← sc_mul mu_P p;
  s0_add_z_mu_C ← sc_muladd mu_C z s0_p_mu_P;
  sc_mulsub c s0_add_z_mu_C a.

(** ** One round *)

(** [L] and [R] for the scalar [s], the challenge [c] and a member of the ring. *)
Definition clsag_points (mu_P mu_C : key) (I_precomp D_precomp : list ge_cached) (c s : key)
    (P : key) (C_precomp : exc (list ge_cached)) : exc (key * key) :=
  c_p <~ call (sc_mul mu_P c);
  c_c <~ call (sc_mul mu_C c);
  P_precomp <~ precomp P;
  C_precomp <~ C_precomp;
  L <~ call (addKeys_aGbBcC s c_p P_precomp c_c C_precomp);
  R <~ call (
    Hi_p3 ← hash_to_p3 P;
    H_precomp ← ge_dsm_precomp Hi_p3;
    addKeys_aAbBcC s H_precomp c_p I_precomp c_c D_precomp);
  ret (L, R).

(** ** Generation *)

(** The round of the member [i] of the ring. *)
Definition clsag_round (P C : keyV) (mu_P mu_C : key) (I_precomp D_precomp : list ge_cached) (head : keyV) (i : nat) (c s : key) : exc key :=
  Pi <~ call (P !! i);
  Ci <~ call (C !! i);
  '(L, R) <~ clsag_points mu_P mu_C I_precomp D_precomp c s Pi (precomp Ci);
  call (clsag_hash (head ++ [L; R])).

(** The signature, [*mscout] and [*mspout]. *)
Definition CLSAG_Gen (message : key) (P : keyV) (p : key) (C : keyV) (z : key) (C_nonzero : keyV) (C_offset : key)
    (l : nat) (kLRki : option multisig_kLRki) (mscout mspout : bool) (tape : list key)
  : exc (clsag * key * key * list key) :=
  let n := length P in
  let multisig := match kLRki with Some _ => true | None => false end in
  _ <~ check (n =? length C)%nat;
  _ <~ check (n =? length C_nonzero)%nat;
  _ <~ check (l <? n)%nat;
  _ <~ check ((multisig && mscout) || (negb multisig && negb mscout));
  _ <~ check ((mscout && mspout) || negb multisig);
  Pl <~ call (P !! l);
  H_p3 <~ call (hash_to_p3 Pl);
  H <~ call (ge_p3_tobytes H_p3);
  '(KI, D, a, aG, aH, tape) <~ (match kLRki with
    | Some ms => D <~ scalarmultKey H z; ret (ms_ki ms, D, ms_k ms, ms_L ms, ms_R ms, tape)
    | None => clsag_prepare p z H tape
    end);
  I_precomp <~ precomp KI;
  D_precomp <~ precomp D;
  sig_D <~ scalarmultKey D INV_EIGHT;
  mu_P <~ call (hash_to_scalarV (mu_to_hash HASH_KEY_CLSAG_AGG_0 P C_nonzero KI sig_D C_offset));
  mu_C <~ call (hash_to_scalarV (mu_to_hash HASH_KEY_CLSAG_AGG_1 P C_nonzero KI sig_D C_offset));
  let head := c_head P C_nonzero C_offset message in
  c <~ call (clsag_hash (head ++ [aG; aH]));
  let i := ((l + 1) mod n)%nat in
  st <~ ring_loop (fun tape => call (skGen tape)) (clsag_round P C mu_P mu_C I_precomp D_precomp head) n l n i
    (mk_ring c (replicate n zero) (if (i =? 0)%nat then Some c else None) tape);
  s <~ call (clsag_sign (r_c st) a p z mu_P mu_C);
  c1 <~ call (r_c1 st);
  ret (mk_clsag (<[l := s]> (r_s st)) c1 KI sig_D, r_c st, mu_P, r_tape st).

(** [C] from the commitments of the ring: [subKeys(tmp, k.mask, Cout)]. *)
Fixpoint sub_all (masks : keyV) (Cout : key) : exc keyV :=
  match masks with
  | [] => ret []
  | m :: masks => tmp <~ subKeys m Cout; C <~ sub_all masks Cout; ret (tmp :: C)
  end.

Definition proveRctCLSAGSimple (message : key) (pubs : list ctkey) (inSk : ctkey) (a Cout : key)
    (kLRki : option multisig_kLRki) (mscout mspout : bool) (index : nat) (tape : list key)
  : exc (clsag * key * key * list key) :=
  let multisig := match kLRki with Some _ => true | None => false end in
  _ <~ check (1 <=? length pubs)%nat;
  _ <~ check ((multisig && mscout) || (negb multisig && negb mscout));
  C <~ sub_all (map mask pubs) Cout;
  sk1 <~ call (sc_sub (mask inSk) a);
  CLSAG_Gen message (map dest pubs) (dest inSk) C sk1 (map mask pubs) Cout index kLRki mscout mspout tape.

(** ** Verification *)

(** The precomputed [pubs[i].mask - C_offset]; [Some None] when the point is refused. *)
Definition offset_precomp (C_offset_cached : ge_cached) (mask : key) : exc (list ge_cached) :=
  temp_p3 <~ ge_frombytes_vartime mask;
  call (temp_p1 ← ge_sub temp_p3 C_offset_cached; temp_p3 ← ge_p1p1_to_p3 temp_p1; ge_dsm_precomp temp_p3).

(** [while (i < n)]; the inner [None] is a refusal, by exception or by [return false]. *)
Fixpoint ver_loop (mu_P mu_C : key) (I_precomp D_precomp : list ge_cached) (C_offset_cached : ge_cached) (head : keyV)
    (pubs : list ctkey) (s : keyV) (c : key) : exc key :=
  match pubs with
  | [] => ret c
  | k :: pubs =>
      si <~ call (hd_error s);
      '(L, R) <~ clsag_points mu_P mu_C I_precomp D_precomp c si (dest k) (offset_precomp C_offset_cached (mask k));
      c_new <~ call (hash_to_scalarV (head ++ [L; R]));
      _ <~ check (negb (key_eq c_new zero));
      ver_loop mu_P mu_C I_precomp D_precomp C_offset_cached head pubs (tail s) c_new
  end.

Definition verRctCLSAGSimple (message : key) (sig : clsag) (pubs : list ctkey) (C_offset : key) : option bool :=
  let n := length pubs in
  catch (
    _ <~ check (1 <=? n)%nat;
    _ <~ check (n =? length (cl_s sig))%nat;
    _ <~ check (forallb (fun s => sc_check s =? 0) (cl_s sig));
    _ <~ check (sc_check (cl_c1 sig) =? 0);
    _ <~ check (negb (key_eq (cl_I sig) identity));
    C_offset_p3 <~ ge_frombytes_vartime C_offset;
    C_offset_cached <~ call (ge_p3_to_cached C_offset_p3);
    D_8 <~ scalarmult8 (cl_D sig);
    _ <~ check (negb (key_eq D_8 identity));
    I_precomp <~ precomp (cl_I sig);
    D_precomp <~ precomp D_8;
    let P := map dest pubs in
    let masks := map mask pubs in
    mu_P <~ call (hash_to_scalarV (mu_to_hash HASH_KEY_CLSAG_AGG_0 P masks (cl_I sig) (cl_D sig) C_offset));
    mu_C <~ call (hash_to_scalarV (mu_to_hash HASH_KEY_CLSAG_AGG_1 P masks (cl_I sig) (cl_D sig) C_offset));
    c <~ ver_loop mu_P mu_C I_precomp D_precomp C_offset_cached (c_head P masks C_offset message) pubs (cl_s sig) (cl_c1 sig);
    call (c_new ← sc_sub c (cl_c1 sig); Some (sc_isnonzero c_new =? 0))) false.

(** ** Multisig *)

(** The share that a player adds to the response at the secret index. *)
Definition multisig_share (c mu_p secret_key k : key) : option key :=
  sk ← sc_mul mu_p secret_key;
  sc_mulsub c sk k.

(** The loop of [signMultisigCLSAG] for one signature. *)
Definition sign_share (sig : clsag) (index : nat) (c mu_p secret_key k : key) : option clsag :=
  diff ← multisig_share c mu_p secret_key k;
  old ← cl_s sig !! index;
  s ← sc_add old diff;
  Some (mk_clsag (<[index := s]> (cl_s sig)) (cl_c1 sig) (cl_I sig) (cl_D sig)).
End Clsag.
