(* ===== verification/ClsagCorrect.v ===== *)
(** What CLSAG signing and verification compute: the chain of challenges around the
    ring, its closure for a generated signature, and the equation that an accepted
    signature satisfies. *)
From S2P Require Import Prelude Limbs Pack Scalar ScalarCorrect Group Fe Curve Ge GeCorrect GeEncode GeMult GeMultCorrect.
From S2P Require Import GeTables GeScalarmult GeFromFe GeTheorems CurveOrder Keccak KeccakCorrect Varint Encoding Crypto CryptoCorrect.
From S2P Require Import RctData RctTables Exc RctOps RctOpsCorrect RingLoop Clsag.

Local Open Scope Z_scope.

Module ClsagCorrect.
Import Limbs Pack Scalar ScalarCorrect Group Fe Curve Ge GeCorrect GeEncode GeMult GeMultCorrect.
Import GeTables GeScalarmult GeFromFe GeTheorems Finite CurveOrder Keccak KeccakCorrect Varint Encoding Crypto CryptoCorrect.
Import RctData RctTables Exc RctOps RctOpsCorrect RingLoop Clsag.
Local Open Scope group_scope.

(** A member of the ring: its key, its commitment and the point its key hashes to. *)
Record ring_member := mk_member { mP : point; mC : point; mH : point }.

Definition hashed (m : ring_member) : Prop := hashes_to (enc (mP m)) (mH m).

Definition pubkey (m : ring_member) : ctkey := mk_ctkey (enc (mP m)) (enc (mC m)).

Lemma key_eq_identity P : key_eq (enc P) identity = bool_decide (enc P = enc gzero).
Proof. reflexivity. Qed.

Section Ring.
Context (Off KI D : point) (mp mc : Z) (head : keyV) (head_bytes : Forall (Forall is_byte) head).

Definition offset (m : ring_member) : point := mC m ⊕ gopp Off.

Definition round_L (c s : Z) (m : ring_member) : point :=
  smul (s mod ell) base_point ⊕ (smul ((mp * c) mod ell) (mP m) ⊕ smul ((mc * c) mod ell) (offset m)).

Definition round_R (c s : Z) (m : ring_member) : point :=
  smul (s mod ell) (mH m) ⊕ (smul ((mp * c) mod ell) KI ⊕ smul ((mc * c) mod ell) D).

(** The challenge that follows [c]. *)
Definition next (c : Z) (ms : ring_member * Z) : Z :=
  hs (concat (head ++ [enc (round_L c ms.2 ms.1); enc (round_R c ms.2 ms.1)])).

Fixpoint usable (c : Z) (l : list (ring_member * Z)) : bool :=
  match l with
  | [] => true
  | ms :: l => negb (next c ms mod ell =? 0) && usable (next c ms) l
  end.

Lemma clsag_points_ok ipre dpre cpre c s m : table_ok ipre KI -> table_ok dpre D -> table_ok cpre (offset m) -> hashed m ->
  clsag_points (sbytes mp) (sbytes mc) ipre dpre (sbytes c) (sbytes s) (enc (mP m)) (ret cpre) =
  ret (enc (round_L c s m), enc (round_R c s m)).
Proof.
  intros HI HD HC Hm. unfold clsag_points. rewrite !mul_sbytes. do 2 ebind.
  destruct (precomp_ok (mP m)) as (ppre & -> & HP). do 2 ebind.
  rewrite (addKeys_aGbBcC_ok _ _ _ _ _ _ _ (sbytes_ok s) (sbytes_ok _) (sbytes_ok _) HP HC). ebind.
  run (hash_to_p3_ok (enc (mP m)) (proj2 (enc_bytes _))) as h (Q & HQ & EQ).
  apply (p3_rep_proper h _ _ (hashes_to_unique _ _ _ EQ Hm)) in HQ. run (ge_dsm_precomp_ok _ _ HQ) as hpre Hh.
  rewrite (addKeys_aAbBcC_ok _ _ _ _ _ _ _ _ _ (sbytes_ok s) (sbytes_ok _) (sbytes_ok _) Hh HI HD). ebind.
  by rewrite !sbytes_val.
Qed.

Lemma round_hash c s m : hash_to_scalarV (head ++ [enc (round_L c s m); enc (round_R c s m)]) = Some (sbytes (next c (m, s))).
Proof.
  apply hash_to_scalarV_ok. apply Forall_app. split; [done |]. constructor; [apply enc_bytes |]. constructor; [apply enc_bytes | constructor].
Qed.

Lemma offset_precomp_ok oc m : cached_rep oc Off -> exists t, offset_precomp oc (enc (mC m)) = ret t /\ table_ok t (offset m).
Proof.
  intros HO. unfold offset_precomp. decode (mC m) as h Hh. run (sub_rep _ _ _ _ Hh HO) as p Hp. run (ge_p1p1_to_p3_ok _ _ Hp) as q Hq.
  destruct (ge_dsm_precomp_ok _ _ Hq) as (t & -> & Ht). by exists t.
Qed.

Lemma ver_loop_ok ipre dpre oc ms ss c : table_ok ipre KI -> table_ok dpre D -> cached_rep oc Off ->
  Forall hashed ms -> length ms = length ss ->
  ver_loop (sbytes mp) (sbytes mc) ipre dpre oc head (map pubkey ms) (map sbytes ss) (sbytes c) =
  if usable c (zip ms ss) then ret (sbytes (chain next c (zip ms ss))) else throw.
Proof.
  intros HI HD HO Hms. revert ss c. induction Hms as [| m ms Hm _ IH]; intros [| s ss] c L; try discriminate L; [done |].
  cbn [map ver_loop hd_error tail zip_with]. ebind. 
  destruct (offset_precomp_ok oc m HO) as (t & Et & Ht). cbn [pubkey dest mask]. rewrite Et, (clsag_points_ok _ _ _ _ _ _ HI HD Ht Hm). ebind.
  rewrite round_hash. ebind. rewrite key_eq_zero. cbn [usable chain foldl fst snd].
  destruct (next c (m, s) mod ell =? 0); cbn [negb andb]; [rewrite check_false; apply ebind_throw |].
  rewrite check_true. ebind. apply IH. by injection L.
Qed.

(** ** The rounds of the generation *)

Section Loop.
Context (ipre dpre : list ge_cached) (HI : table_ok ipre KI) (HD : table_ok dpre D).

Definition keysP (ms : list ring_member) : keyV := map (fun m => enc (mP m)) ms.
Definition keysC (ms : list ring_member) : keyV := map (fun m => enc (offset m)) ms.

Lemma clsag_round_ok ms i m c r : Forall hashed ms -> ms !! i = Some m ->
  clsag_round (keysP ms) (keysC ms) (sbytes mp) (sbytes mc) ipre dpre head i (sbytes c) (sbytes r) = ret (sbytes (next c (m, r))).
Proof.
  intros Hms Em. assert (Hm : hashed m) by by eapply list.Forall_lookup in Em.
  unfold clsag_round, keysP, keysC. rewrite !list_lookup_fmap, Em. cbn [fmap option_fmap option_map]. do 2 ebind.
  destruct (precomp_ok (offset m)) as (cpre & -> & HC). rewrite (clsag_points_ok ipre dpre cpre c r m HI HD HC Hm). ebind.
  unfold clsag_hash. by rewrite round_hash.
Qed.
End Loop.

(** The signer's response makes the round of the signer the one of its nonce. *)
Lemma blinded_equation c x z a B : prime_order B -> smul ((a - c * (mp * x + mc * z)) mod ell) B ⊕
  (smul ((mp * c) mod ell) (smul x B) ⊕ smul ((mc * c) mod ell) (smul z B)) ≃ smul a B.
Proof.
  intros H. rewrite !smul_mod by (done || by apply smul_prime). rewrite <- !smul_mul, <- !smul_add.
  by replace (a - c * (mp * x + mc * z) + (mp * c * x + mc * c * z)) with a by ring.
Qed.

Lemma next_own c x z a m : hashed m -> mP m ≃ smul x base_point -> offset m ≃ smul z base_point ->
  KI ≃ smul x (mH m) -> D ≃ smul z (mH m) ->
  next c (m, a - c * (mp * x + mc * z)) = hs (concat (head ++ [enc (smul a base_point); enc (smul a (mH m))])).
Proof.
  intros Hm HP HC HK HD. unfold next, round_L, round_R. cbn [fst snd].
  assert (E1 := blinded_equation c x z a base_point base_prime). assert (E2 := blinded_equation c x z a (mH m) (hashes_to_prime _ _ Hm)).
  rewrite <- HP, <- HC in E1. rewrite <- HK, <- HD in E2. by rewrite (proj2 (enc_eq _ _) E1), (proj2 (enc_eq _ _) E2).
Qed.
End Ring.

Lemma next_proper Off KI D KI' D' mp mc head c ms : KI ≃ KI' -> D ≃ D' -> next Off KI D mp mc head c ms = next Off KI' D' mp mc head c ms.
Proof.
  intros EK ED. unfold next. assert (E : round_R KI D mp mc c ms.2 ms.1 ≃ round_R KI' D' mp mc c ms.2 ms.1).
  { unfold round_R. by rewrite EK, ED. }
  by rewrite (proj2 (enc_eq _ _) E).
Qed.

Lemma chain_proper Off KI D KI' D' mp mc head l c : KI ≃ KI' -> D ≃ D' ->
  chain (next Off KI D mp mc head) c l = chain (next Off KI' D' mp mc head) c l /\ usable Off KI D mp mc head c l = usable Off KI' D' mp mc head c l.
Proof.
  intros EK ED. revert c. induction l as [| ms l IH]; intros c; [unfold chain; cbn [foldl usable]; split; reflexivity |].
  cbn [chain foldl usable]. rewrite (next_proper Off KI D KI' D') by done. destruct (IH (next Off KI' D' mp mc head c ms)) as [E1 E2].
  split; [exact E1 | by rewrite E2].
Qed.

(** ** Signing and verification *)

Section Signature.
Context (message : key) (message_bytes : is_bytes 32 message).

Definition mu (d : list Z) (ms : list ring_member) (KI D8 Off : point) : Z :=
  hs (concat (mu_to_hash d (keysP ms) (map (fun m => enc (mC m)) ms) (enc KI) (enc D8) (enc Off))).

Definition head_of (ms : list ring_member) (Off : point) : keyV := c_head (keysP ms) (map (fun m => enc (mC m)) ms) (enc Off) message.

Lemma keys_bytes (f : ring_member -> point) ms : Forall (Forall is_byte) (map (fun m => enc (f m)) ms).
Proof. apply Forall_map, Forall_true. intros m. apply enc_bytes. Qed.

Lemma domain_bytes d : d = HASH_KEY_CLSAG_ROUND \/ d = HASH_KEY_CLSAG_AGG_0 \/ d = HASH_KEY_CLSAG_AGG_1 -> is_bytes 32 (domain d).
Proof. intros [-> | [-> | ->]]; (split; [reflexivity |]; repeat constructor; unfold is_byte; lia). Qed.

Lemma head_bytes ms Off : Forall (Forall is_byte) (head_of ms Off).
Proof.
  constructor; [apply domain_bytes; tauto |]. apply Forall_app. split; [apply keys_bytes |].
  apply Forall_app. split; [apply keys_bytes |]. constructor; [apply enc_bytes |]. constructor; [apply message_bytes | constructor].
Qed.

Lemma app_bytes ms Off A B : Forall (Forall is_byte) (head_of ms Off ++ [enc A; enc B]).
Proof.
  apply Forall_app. split; [apply head_bytes |]. constructor; [apply enc_bytes |]. constructor; [apply enc_bytes | constructor].
Qed.

Lemma mu_ok d ms KI D8 Off : d = HASH_KEY_CLSAG_AGG_0 \/ d = HASH_KEY_CLSAG_AGG_1 ->
  hash_to_scalarV (mu_to_hash d (keysP ms) (map (fun m => enc (mC m)) ms) (enc KI) (enc D8) (enc Off)) = Some (sbytes (mu d ms KI D8 Off)).
Proof.
  intros Hd. apply hash_to_scalarV_ok. constructor; [apply domain_bytes; tauto |]. apply Forall_app. split; [apply keys_bytes |].
  apply Forall_app. split; [apply keys_bytes |]. repeat (constructor; [apply enc_bytes |]). constructor.
Qed.

(** The verdict on a ring, responses, a first challenge, a key image and the point [D]. *)
Definition accepts (ms : list ring_member) (ss : list Z) (c1 : Z) (KI D8 Off : point) : bool :=
  let mp := mu HASH_KEY_CLSAG_AGG_0 ms KI D8 Off in
  let mc := mu HASH_KEY_CLSAG_AGG_1 ms KI D8 Off in
  negb (key_eq (enc KI) identity) && negb (key_eq (enc (smul 8 D8)) identity) &&
  usable Off KI (smul 8 D8) mp mc (head_of ms Off) c1 (zip ms ss) &&
  (chain (next Off KI (smul 8 D8) mp mc (head_of ms Off)) c1 (zip ms ss) mod ell =? c1 mod ell).

Lemma sc_check_all ss : forallb (fun s => sc_check s =? 0) (map sbytes ss) = true.
Proof. induction ss as [| s ss IH]; [done |]. cbn [map forallb]. by rewrite sc_check_sbytes, IH. Qed.

Lemma verRctCLSAGSimple_ok ms ss c1 KI D8 Off : ms <> [] -> Forall hashed ms -> length ms = length ss ->
  verRctCLSAGSimple message (mk_clsag (map sbytes ss) (sbytes c1) (enc KI) (enc D8)) (map pubkey ms) (enc Off) =
  Some (accepts ms ss c1 KI D8 Off).
Proof.
  intros Hn Hms L. unfold verRctCLSAGSimple, accepts. cbv zeta. cbn [cl_s cl_c1 cl_I cl_D]. rewrite !length_map, !map_map.
  cbn [pubkey dest mask]. rewrite (proj2 (Nat.leb_le _ _)) by (destruct ms; [done | simpl; lia]). rewrite check_true. ebind.
  rewrite (proj2 (Nat.eqb_eq _ _)) by done. rewrite check_true. ebind. rewrite sc_check_all, check_true. ebind.
  rewrite sc_check_sbytes. cbn [Z.eqb]. rewrite check_true. ebind.
  destruct (key_eq (enc KI) identity); cbn [negb andb]; [by rewrite check_false, ebind_throw |]. rewrite check_true. ebind.
  decode Off as o Ho. destruct (ge_p3_to_cached_ok _ _ Ho) as (oc & -> & Hoc). ebind. rewrite scalarmult8_ok. ebind.
  destruct (key_eq (enc (smul 8 D8)) identity); cbn [negb andb]; [by rewrite check_false, ebind_throw |]. rewrite check_true. ebind.
  destruct (precomp_ok KI) as (ip & -> & HI). ebind. destruct (precomp_ok (smul 8 D8)) as (dp & -> & HD). ebind.
  rewrite (mu_ok HASH_KEY_CLSAG_AGG_0) by tauto. ebind. rewrite (mu_ok HASH_KEY_CLSAG_AGG_1) by tauto. ebind.
  fold (keysP ms) (head_of ms Off). rewrite (ver_loop_ok Off KI _ _ _ _ (head_bytes ms Off) ip dp oc ms ss c1 HI HD Hoc Hms L).
  destruct (usable _ _ _ _ _ _ _ _); cbn [andb]; [| by rewrite ebind_throw]. ebind. rewrite sub_sbytes. bind.
  rewrite isnonzero_sbytes, call_Some, catch_ret. apply (f_equal Some), eq_true_iff_eq. rewrite !Z.eqb_eq. apply mod_sub_0.
Qed.

(** [D / 8], as it is published. *)
Definition eighth (D : point) : point := smul (le_combine INV_EIGHT) D.

Lemma INV_EIGHT_scalar : scalar_ok INV_EIGHT.
Proof. destruct INV_EIGHT_sbytes as (n & -> & _). apply sbytes_ok. Qed.

Lemma eighth_8 D : prime_order D -> smul 8 (eighth D) ≃ D.
Proof.
  intros H. unfold eighth. destruct INV_EIGHT_sbytes as (n & -> & E). rewrite <- smul_mul, sbytes_val.
  rewrite (smul_mod_eq _ 1 D H), smul_1; [done |]. rewrite Zmult_mod_idemp_r, E. by rewrite Z.mod_small by (unfold ell; lia).
Qed.

Section Generated.
Context (ms1 ms2 : list ring_member) (m : ring_member) (Off : point).
Context (hms1 : Forall hashed ms1) (hm : hashed m) (hms2 : Forall hashed ms2).

Abbreviation ms := (ms1 ++ m :: ms2).

(** [c_1] and the challenge of the signer, from the commitments [A1] and [A2] of the signer and the other responses. *)
Definition first_challenge (KI D A1 A2 : point) (ss2 : list Z) : Z :=
  let mp := mu HASH_KEY_CLSAG_AGG_0 ms KI (eighth D) Off in let mc := mu HASH_KEY_CLSAG_AGG_1 ms KI (eighth D) Off in
  chain (next Off KI D mp mc (head_of ms Off)) (hs (concat (head_of ms Off ++ [enc A1; enc A2]))) (zip ms2 ss2).

Definition own_challenge (KI D A1 A2 : point) (ss1 ss2 : list Z) : Z :=
  let mp := mu HASH_KEY_CLSAG_AGG_0 ms KI (eighth D) Off in let mc := mu HASH_KEY_CLSAG_AGG_1 ms KI (eighth D) Off in
  chain (next Off KI D mp mc (head_of ms Off)) (first_challenge KI D A1 A2 ss2) (zip ms1 ss1).

Lemma flags_ok (kLRki : option multisig_kLRki) mscout mspout :
  (match kLRki with Some _ => mscout && mspout | None => negb mscout end = true) ->
  let multisig := match kLRki with Some _ => true | None => false end in
  check ((multisig && mscout) || (negb multisig && negb mscout)) = ret tt /\ check ((mscout && mspout) || negb multisig) = ret tt.
Proof. by destruct kLRki, mscout, mspout. Qed.

Lemma CLSAG_Gen_ok p z a KI D A1 A2 kLRki mscout mspout tape tape0 extra :
  (match kLRki with Some _ => mscout && mspout | None => negb mscout end = true) ->
  (match kLRki with
   | Some ms => D <~ scalarmultKey (enc (mH m)) (sbytes z); ret (ms_ki ms, D, ms_k ms, ms_L ms, ms_R ms, tape)
   | None => clsag_prepare (sbytes p) (sbytes z) (enc (mH m)) tape
   end = ret (enc KI, enc D, sbytes a, enc A1, enc A2, tape0)) ->
  has_scalars (length ms1 + length ms2 + extra) tape0 ->
  let mp := mu HASH_KEY_CLSAG_AGG_0 ms KI (eighth D) Off in let mc := mu HASH_KEY_CLSAG_AGG_1 ms KI (eighth D) Off in
  exists ss1 ss2 rest, length ss1 = length ms1 /\ length ss2 = length ms2 /\ has_scalars extra rest /\
    let c := own_challenge KI D A1 A2 ss1 ss2 in
    CLSAG_Gen message (keysP ms) (sbytes p) (keysC Off ms) (sbytes z) (map (fun m => enc (mC m)) ms) (enc Off)
      (length ms1) kLRki mscout mspout tape =
    ret (mk_clsag (map sbytes (ss1 ++ (a - c * (mp * p + mc * z)) :: ss2)) (sbytes (first_challenge KI D A1 A2 ss2)) (enc KI) (enc (eighth D)),
      sbytes c, sbytes mp, rest).
Proof.
  intros Hk Hp Ht mp mc.
  destruct (precomp_ok KI) as (ip & EI & HI). destruct (precomp_ok D) as (dp & ED & HD).
  destruct (ring_loop_ok _ _ sbytes sbytes _ _ has_scalars ms (length ms1) draw_scalar
    (fun i q c r Em _ => clsag_round_ok Off KI D mp mc (head_of ms Off) (head_bytes ms Off) ip dp HI HD ms i q c r
      (Forall_app_2 _ _ _ hms1 (Forall_cons_2 _ _ _ hm hms2)) Em)
    ms1 m ms2 (replicate (length ms1) zero) zero (replicate (length ms2) zero) (hs (concat (head_of ms Off ++ [enc A1; enc A2]))) tape0 extra)
    as (ss1 & ss2 & rest & L1 & L2 & _ & Hr & E); [done | done | apply length_replicate .. | done |].
  exists ss1, ss2, rest. split; [done |]. split; [done |]. split; [exact Hr |]. cbv zeta in E |- *.
  change (zero :: replicate (length ms2) zero) with (replicate (length (m :: ms2)) zero) in E. rewrite <- replicate_add, <- length_app in E.
  unfold CLSAG_Gen. cbv zeta. replace (length (keysP ms)) with (length ms) by (symmetry; apply length_map).
  unfold keysC at 1. rewrite !length_map, Nat.eqb_refl, check_true. do 2 ebind.
  rewrite (proj2 (Nat.ltb_lt _ _)) by (rewrite length_app; simpl; lia). rewrite check_true. ebind.
  destruct (flags_ok kLRki mscout mspout Hk) as [-> ->]. do 2 ebind.
  unfold keysP at 1. rewrite map_app. cbn [map]. rewrite list_lookup_middle by by rewrite length_map. ebind.
  destruct (hash_to_p3_ok (enc (mP m)) (proj2 (enc_bytes _))) as (h & -> & Q & HQ & EQ). ebind.
  rewrite (to_enc3 _ _ HQ), (proj2 (enc_eq _ _) (hashes_to_unique _ _ _ EQ hm)). ebind. rewrite Hp. ebind.
  rewrite EI. ebind. rewrite ED. ebind. rewrite scalarmultKey_ok by apply INV_EIGHT_scalar. ebind. fold (eighth D).
  rewrite (mu_ok HASH_KEY_CLSAG_AGG_0) by tauto. ebind. rewrite (mu_ok HASH_KEY_CLSAG_AGG_1) by tauto. ebind. fold mp mc.
  fold (head_of ms Off). unfold clsag_hash. rewrite hash_to_scalarV_ok; [ebind | by apply app_bytes].
  rewrite E. ebind. cbn [r_c r_c1 r_s r_tape]. fold (first_challenge KI D A1 A2 ss2). fold (own_challenge KI D A1 A2 ss1 ss2).
  unfold clsag_sign. rewrite mul_sbytes. bind. rewrite muladd_sbytes. bind. rewrite mulsub_sbytes. do 2 ebind.
  by rewrite insert_at, map_app by by rewrite length_map.
Qed.

Section Closing.
Context (x z a : Z) (KI D : point) (ss1 ss2 : list Z) (L1 : length ss1 = length ms1) (L2 : length ss2 = length ms2).
Context (HP : mP m ≃ smul x base_point) (HC : offset Off m ≃ smul z base_point) (HK : KI ≃ smul x (mH m)) (HD : D ≃ smul z (mH m)).

Let mp := mu HASH_KEY_CLSAG_AGG_0 ms KI (eighth D) Off.
Let mc := mu HASH_KEY_CLSAG_AGG_1 ms KI (eighth D) Off.
Let c1 := first_challenge KI D (smul a base_point) (smul a (mH m)) ss2.
Let c := own_challenge KI D (smul a base_point) (smul a (mH m)) ss1 ss2.
Let ss := ss1 ++ (a - c * (mp * x + mc * z)) :: ss2.

Lemma ring_closes : chain (next Off KI D mp mc (head_of ms Off)) c1 (zip ms ss) = c1.
Proof.
  unfold ss. rewrite zip_with_app by done. cbn [zip_with]. unfold chain. rewrite foldl_app. cbn [foldl].
  change (foldl _ c1 (zip ms1 ss1)) with c. by rewrite (next_own Off KI D mp mc (head_of ms Off) c x z a m hm HP HC HK HD).
Qed.

Lemma D_8 : smul 8 (eighth D) ≃ D.
Proof. apply eighth_8. unfold prime_order. rewrite HD. apply smul_prime, (hashes_to_prime _ _ hm). Qed.

Lemma accepts_own : accepts ms ss c1 KI (eighth D) Off =
  negb (key_eq (enc KI) identity) && negb (key_eq (enc (smul 8 (eighth D))) identity) &&
  usable Off KI (smul 8 (eighth D)) mp mc (head_of ms Off) c1 (zip ms ss).
Proof.
  unfold accepts. fold mp mc.
  rewrite (proj1 (chain_proper Off KI (smul 8 (eighth D)) KI D mp mc (head_of ms Off) (zip ms ss) c1 (reflexivity _) D_8)).
  by rewrite ring_closes, Z.eqb_refl, andb_true_r.
Qed.
End Closing.
End Generated.
End Signature.
End ClsagCorrect.
