(* ===== verification/ClsagTheorems.v ===== *)
(** The theorems on CLSAG: a generated signature closes the ring and is accepted,
    so is the one that several holders of shares of the key complete, and an
    accepted signature satisfies the ring equations. *)
From S2P Require Import Prelude Limbs Pack Scalar ScalarCorrect Group Fe Curve Ge GeCorrect GeEncode GeMult GeMultCorrect.
From S2P Require Import GeTables GeScalarmult GeFromFe GeTheorems CurveOrder Keccak KeccakCorrect Varint Encoding Crypto CryptoCorrect CryptoTheorems.
From S2P Require Import RctData RctTables Exc RctOps RctOpsCorrect RingLoop Clsag ClsagCorrect.

Local Open Scope Z_scope.

Module ClsagTheorems.
Import Limbs Pack Scalar ScalarCorrect Group Fe Curve Ge GeCorrect GeEncode GeMult GeMultCorrect.
Import GeTables GeScalarmult GeFromFe GeTheorems Finite CurveOrder Keccak KeccakCorrect Varint Encoding Crypto CryptoCorrect CryptoTheorems.
Import RctData RctTables Exc RctOps RctOpsCorrect RingLoop Clsag ClsagCorrect.
Local Open Scope group_scope.

Lemma sub_all_ok ms Off : sub_all (map mask (map pubkey ms)) (enc Off) = ret (keysC Off ms).
Proof.
  induction ms as [| m ms IH]; [done |]. cbn [map sub_all pubkey mask]. rewrite subKeys_ok. ebind. rewrite IH. by ebind.
Qed.

Lemma prove_Gen message ms Off x y w l kLRki mscout mspout tape : ms <> [] ->
  (match kLRki with Some _ => mscout && mspout | None => negb mscout end = true) ->
  proveRctCLSAGSimple message (map pubkey ms) (mk_ctkey (sbytes x) (sbytes y)) (sbytes w) (enc Off) kLRki mscout mspout l tape =
  CLSAG_Gen message (keysP ms) (sbytes x) (keysC Off ms) (sbytes (y - w)) (map (fun m => enc (mC m)) ms) (enc Off) l kLRki mscout mspout tape.
Proof.
  intros Hn Hk. unfold proveRctCLSAGSimple. rewrite length_map, (proj2 (Nat.leb_le _ _)) by (destruct ms; [done | simpl; lia]).
  rewrite check_true. ebind. destruct (flags_ok kLRki mscout mspout Hk) as [-> _]. ebind. rewrite sub_all_ok. ebind.
  cbn [mask dest]. rewrite sub_sbytes. ebind. by rewrite !map_map.
Qed.

Lemma clsag_prepare_ok p z H tape k ks : Forall (is_bytes 32) tape -> scalars tape = k :: ks -> exists tape',
  clsag_prepare (sbytes p) (sbytes z) (enc H) tape =
  ret (enc (smul (p mod ell) H), enc (smul (z mod ell) H), sbytes k, enc (smul k base_point), enc (smul k H), tape') /\
  scalars tape' = ks /\ Forall (is_bytes 32) tape'.
Proof.
  intros Ht E. destruct (next_scalar_some _ _ _ Ht E) as (t & Er & St & Bt & Rk). exists t. split; [| done].
  unfold clsag_prepare, skpkGen. change (skGen tape) with (random_scalar tape). rewrite Er. bind. rewrite scalarmultBase_sbytes. bind. ebind.
  rewrite !scalarmultKey_ok by apply sbytes_ok. do 3 ebind. by rewrite !sbytes_val, (nonce_range tape k ks E).
Qed.

Section Statement.
Context (message : key) (message_bytes : is_bytes 32 message) (ms1 ms2 : list ring_member) (m : ring_member) (Off : point).
Context (hms : Forall hashed (ms1 ++ m :: ms2)).

(** A nondegenerate signature: the key image and [8 D] are not the identity and no challenge of the ring is zero. *)
Definition regular (ss : list Z) (c1 : Z) (KI D8 : point) : bool :=
  negb (key_eq (enc KI) identity) && negb (key_eq (enc (smul 8 D8)) identity) &&
  usable Off KI (smul 8 D8) (mu HASH_KEY_CLSAG_AGG_0 (ms1 ++ m :: ms2) KI D8 Off) (mu HASH_KEY_CLSAG_AGG_1 (ms1 ++ m :: ms2) KI D8 Off)
    (head_of message (ms1 ++ m :: ms2) Off) c1 (zip (ms1 ++ m :: ms2) ss).

Lemma offset_own y w v : mC m ≃ pedersen y v -> Off ≃ pedersen w v -> offset Off m ≃ smul (y - w) base_point.
Proof.
  intros HC HO. unfold offset. rewrite HC, HO, pedersen_opp, pedersen_add. unfold pedersen.
  rewrite Z.add_opp_diag_r. apply gadd_0_r.
Qed.
End Statement.

Lemma member_of P C : exists m, mP m = P /\ mC m = C /\ hashed m.
Proof.
  destruct (hash_to_p3_ok (enc P) (proj2 (enc_bytes P))) as (_ & _ & Q & _ & HQ). by exists (mk_member P C Q).
Qed.

Lemma own_accepted message ms1 m ms2 Off x y w v tape extra :
  is_bytes 32 message -> Forall hashed (ms1 ++ m :: ms2) -> mP m ≃ smul x base_point -> mC m ≃ pedersen y v -> Off ≃ pedersen w v ->
  has_scalars (length (ms1 ++ m :: ms2) + extra) tape ->
  let pubs := map pubkey (ms1 ++ m :: ms2) in
  exists ss c1 KI D8 c mu_p rest, let sig := mk_clsag (map sbytes ss) (sbytes c1) (enc KI) (enc D8) in
    proveRctCLSAGSimple message pubs (mk_ctkey (sbytes x) (sbytes y)) (sbytes w) (enc Off) None false false (length ms1) tape =
      ret (sig, c, mu_p, rest) /\
    KI ≃ smul x (mH m) /\ smul 8 D8 ≃ smul (y - w) (mH m) /\
    verRctCLSAGSimple message sig pubs (enc Off) = Some (regular message ms1 ms2 m Off ss c1 KI D8) /\ has_scalars extra rest.
Proof.
  intros Hm Hms HP HC HO [Ht Hl] pubs. pose proof Hms as (H1 & [H2 H3]%Forall_cons_iff)%Forall_app.
  rewrite length_app in Hl. destruct (scalars tape) as [| k ks] eqn:Ek; [simpl in Hl; lia |].
  destruct (clsag_prepare_ok x (y - w) (mH m) tape k ks Ht Ek) as (t & Ep & St & Bt).
  set (KI := smul (x mod ell) (mH m)) in *. set (D := smul ((y - w) mod ell) (mH m)) in *.
  destruct (CLSAG_Gen_ok message Hm ms1 ms2 m Off H1 H2 H3 x (y - w) k KI D _ _ None false false tape t extra eq_refl Ep) as (ss1 & ss2 & rest & L1 & L2 & Hr & E).
  { split; [done |]. rewrite St. simpl in Hl. lia. }
  exists (ss1 ++ (k - own_challenge message ms1 ms2 m Off KI D (smul k base_point) (smul k (mH m)) ss1 ss2 * (mu HASH_KEY_CLSAG_AGG_0 (ms1 ++ m :: ms2) KI (eighth D) Off * x
    + mu HASH_KEY_CLSAG_AGG_1 (ms1 ++ m :: ms2) KI (eighth D) Off * (y - w))) :: ss2).
  cbv zeta in E. eexists _, KI, (eighth D), _, _, _. cbv zeta. unfold pubs. rewrite prove_Gen by (try done; by destruct ms1).
  split; [exact E |]. assert (HK : KI ≃ smul x (mH m)) by apply smul_mod, (hashes_to_prime _ _ H2).
  assert (HD : D ≃ smul (y - w) (mH m)) by apply smul_mod, (hashes_to_prime _ _ H2).
  split; [done |]. split; [rewrite (D_8 m H2 (y - w)); done |]. split; [| exact Hr].
  rewrite verRctCLSAGSimple_ok; [| done | by destruct ms1 | done | rewrite !length_app; simpl; lia].
  apply (f_equal Some), accepts_own; try done. by apply (offset_own m Off y w v).
Qed.

(** C3: signing with [proveRctCLSAGSimple], for a ring that contains the key [x G] and
    a commitment to the amount of the pseudo output, gives a signature with the key image
    [x Hp(P)], which [verRctCLSAGSimple] accepts exactly when it is not degenerate: the
    key image and [8 D] are not the identity and no challenge is zero. *)
Theorem clsag_complete message ms1 m ms2 Off x y w v tape :
  is_bytes 32 message -> Forall hashed (ms1 ++ m :: ms2) -> mP m ≃ smul x base_point -> mC m ≃ pedersen y v -> Off ≃ pedersen w v ->
  Forall (is_bytes 32) tape -> (length (ms1 ++ m :: ms2) <= length (scalars tape))%nat ->
  let pubs := map pubkey (ms1 ++ m :: ms2) in
  exists ss c1 KI D8 c mu_p rest, let sig := mk_clsag (map sbytes ss) (sbytes c1) (enc KI) (enc D8) in
    proveRctCLSAGSimple message pubs (mk_ctkey (sbytes x) (sbytes y)) (sbytes w) (enc Off) None false false (length ms1) tape =
      ret (sig, c, mu_p, rest) /\
    KI ≃ smul x (mH m) /\ smul 8 D8 ≃ smul (y - w) (mH m) /\
    verRctCLSAGSimple message sig pubs (enc Off) = Some (regular message ms1 ms2 m Off ss c1 KI D8).
Proof.
  intros Hm Hms HP HC HO Ht Hl pubs. destruct (own_accepted message ms1 m ms2 Off x y w v tape 0 Hm Hms HP HC HO) as (ss & c1 & KI & D8 & c & mu_p & rest & E & HK & HD & V & _).
  - split; [done | lia].
  - by exists ss, c1, KI, D8, c, mu_p, rest.
Qed.

Lemma clsag_witness : exists m1 m, mP m = smul 5 base_point /\ mC m = pedersen 11 7 /\ exists ss c1 KI D8 c mu_p rest,
  let sig := mk_clsag (map sbytes ss) (sbytes c1) (enc KI) (enc D8) in
  proveRctCLSAGSimple zero_point (map pubkey [m1; m]) (mk_ctkey (sbytes 5) (sbytes 11)) (sbytes 4) (enc (pedersen 4 7)) None false false 1
    (small_tape [1; 2; 3]) = ret (sig, c, mu_p, rest) /\
  KI ≃ smul 5 (mH m) /\ smul 8 D8 ≃ smul (11 - 4) (mH m) /\
  verRctCLSAGSimple zero_point sig (map pubkey [m1; m]) (enc (pedersen 4 7)) = Some (regular zero_point [m1] [] m (pedersen 4 7) ss c1 KI D8).
Proof.
  destruct (member_of (smul 3 base_point) (pedersen 1 2)) as (m1 & _ & _ & H1).
  destruct (member_of (smul 5 base_point) (pedersen 11 7)) as (m & EP & EC & H2). exists m1, m. split; [exact EP |]. split; [exact EC |].
  apply (clsag_complete zero_point [m1] m [] (pedersen 4 7) 5 11 4 7 (small_tape [1; 2; 3])).
  - exact zero_point_bytes.
  - constructor; [exact H1 |]. constructor; [exact H2 | constructor].
  - rewrite EP. reflexivity.
  - rewrite EC. reflexivity.
  - reflexivity.
  - apply small_tape_bytes.
  - change (2 <= length (scalars (small_tape [1; 2; 3]%Z)))%nat. vm_compute. lia.
Defined.

(** ** Verification of arbitrary input *)

(** A public key that is not a pair of points. *)
Definition undecodable (k : ctkey) : Prop := (forall P, dest k <> enc P) \/ (forall P, mask k <> enc P).

Lemma precomp_bad s : is_bytes 32 s -> (forall P, s <> enc P) -> precomp s = throw.
Proof. intros Hs N. destruct (from_cases s Hs) as [[P ->] | [E _]]; [by destruct (N P) |]. unfold precomp. by rewrite E, ebind_throw. Qed.

Lemma scalarmult8_bad s : is_bytes 32 s -> (forall P, s <> enc P) -> scalarmult8 s = throw.
Proof. intros Hs N. destruct (from_cases s Hs) as [[P ->] | [E _]]; [by destruct (N P) |]. unfold scalarmult8. by rewrite E, ebind_throw. Qed.

Lemma pubs_cases pubs : Forall (fun k => is_bytes 32 (dest k) /\ is_bytes 32 (mask k)) pubs ->
  (exists ms, pubs = map pubkey ms /\ Forall hashed ms) \/ Exists undecodable pubs.
Proof.
  intros H. induction H as [| [d k] pubs [Hd Hk] _ IH]; [left; by exists [] |]. cbn [dest mask] in *.
  destruct (from_cases d Hd) as [[P ->] | [_ N]]; [| right; left; by left].
  destruct (from_cases k Hk) as [[C ->] | [_ N]]; [| right; left; by right].
  destruct IH as [(ms & -> & Hms) | E]; [left | by right; right].
  destruct (hash_to_p3_ok (enc P) (proj2 (enc_bytes P))) as (_ & _ & Q & _ & HQ).
  exists (mk_member P C Q :: ms). split; [done |]. by constructor.
Qed.

Lemma ver_loop_bad Off KI D mp mc head ipre dpre oc pubs ss c : Forall (Forall is_byte) head ->
  table_ok ipre KI -> table_ok dpre D -> cached_rep oc Off ->
  Forall (fun k => is_bytes 32 (dest k) /\ is_bytes 32 (mask k)) pubs -> Exists undecodable pubs -> length pubs = length ss ->
  ver_loop (sbytes mp) (sbytes mc) ipre dpre oc head pubs (map sbytes ss) (sbytes c) = throw.
Proof.
  intros Hh HI HD HO Hp Hb. revert ss c. induction Hp as [| [d k] pubs [Hd Hk] Hp IH]; [inversion Hb |].
  intros [| s ss] c L; [discriminate L |]. cbn [map ver_loop hd_error tail dest mask] in *. ebind.
  unfold clsag_points at 1. rewrite !mul_sbytes. do 2 ebind.
  destruct (from_cases d Hd) as [[P ->] | [_ N]]; [| by rewrite (precomp_bad d Hd N), !ebind_throw].
  destruct (precomp_ok P) as (pp & Ep & _). rewrite Ep. ebind.
  destruct (from_cases k Hk) as [[C ->] | [E N]]; [| unfold offset_precomp; by rewrite E, !ebind_throw].
  apply Exists_cons in Hb as [[N | N] | Hb]; [by destruct (N P) | by destruct (N C) |].
  destruct (hash_to_p3_ok (enc P) (proj2 (enc_bytes P))) as (_ & _ & Q & _ & HQ).
  destruct (offset_precomp_ok Off oc (mk_member P C Q) HO) as (t & Et & Ht). cbn [mC] in Et.
  pose proof (clsag_points_ok Off KI D mp mc ipre dpre t c s (mk_member P C Q) HI HD Ht HQ) as E.
  unfold clsag_points in E. rewrite !mul_sbytes in E. do 2 (rewrite call_Some, ebind_ret in E). cbn [mP] in E. rewrite Ep in E.
  rewrite !ebind_ret in E. rewrite Et. ebind. rewrite E. ebind.
  rewrite (round_hash Off KI D mp mc head Hh). ebind. destruct (key_eq _ _); cbn [negb]; [by rewrite check_false, ebind_throw |].
  rewrite check_true. ebind. apply IH; [done | by injection L].
Qed.

Lemma sc_check_reduced ss : Forall (is_bytes 32) ss -> forallb (fun s => sc_check s =? 0) ss = true -> exists zs, ss = map sbytes zs.
Proof.
  intros H. induction H as [| s ss Hs _ IH]; [by exists [] |]. cbn [forallb]. intros [E F]%andb_true_iff.
  destruct (IH F) as (zs & ->). rewrite sc_check_ok in E by done. destruct (Z.ltb_spec (le_combine s) ell); [| done].
  exists (le_combine s :: zs). cbn [map]. by rewrite <- sbytes_of.
Qed.

Lemma hashed_bytes d pubs rest : d = HASH_KEY_CLSAG_ROUND \/ d = HASH_KEY_CLSAG_AGG_0 \/ d = HASH_KEY_CLSAG_AGG_1 ->
  Forall (fun k => is_bytes 32 (dest k) /\ is_bytes 32 (mask k)) pubs -> Forall (Forall is_byte) rest ->
  Forall (Forall is_byte) (domain d :: map dest pubs ++ map mask pubs ++ rest).
Proof.
  intros Hd Hp Hr. constructor; [by apply domain_bytes |]. apply Forall_app. split; [| apply Forall_app; split; [| done]].
  - apply Forall_map. refine (list.Forall_impl _ _ _ Hp _). intros k [H _]. apply H.
  - apply Forall_map. refine (list.Forall_impl _ _ _ Hp _). intros k [_ H]. apply H.
Qed.

Lemma clsag_cases message sig pubs C_offset :
  is_bytes 32 message -> Forall (is_bytes 32) (cl_s sig) -> is_bytes 32 (cl_c1 sig) -> is_bytes 32 (cl_I sig) -> is_bytes 32 (cl_D sig) ->
  Forall (fun k => is_bytes 32 (dest k) /\ is_bytes 32 (mask k)) pubs -> is_bytes 32 C_offset ->
  verRctCLSAGSimple message sig pubs C_offset = Some false \/ exists ms ss c1 KI D8 Off,
    sig = mk_clsag (map sbytes ss) (sbytes c1) (enc KI) (enc D8) /\ pubs = map pubkey ms /\ C_offset = enc Off /\
    ms <> [] /\ Forall hashed ms /\ length ms = length ss.
Proof.
  intros Hm Hs Hc HI HD Hp HO. unfold verRctCLSAGSimple. destruct sig as [s c1 KI D]. cbn [cl_s cl_c1 cl_I cl_D] in *.
  destruct (Nat.leb_spec 1 (length pubs)) as [Hn |]; [| by left]. rewrite check_true. ebind.
  destruct (Nat.eqb_spec (length pubs) (length s)) as [L |]; [| by left]. rewrite check_true. ebind.
  destruct (forallb _ s) eqn:R; [| by left]. destruct (sc_check_reduced _ Hs R) as (ss & ->). rewrite length_map in L. rewrite check_true. ebind.
  rewrite sc_check_ok by done. destruct (Z.ltb_spec (le_combine c1) ell) as [Lc |]; [| by left].
  apply sbytes_of in Lc; [| done]. rewrite Lc. set (c := le_combine c1). cbn [Z.eqb]. rewrite check_true. ebind.
  destruct (key_eq KI identity); cbn [negb]; [by left |]. rewrite check_true. ebind.
  destruct (from_cases _ HO) as [[Off ->] | [-> _]]; [| by left]. decode Off as o Ho.
  destruct (ge_p3_to_cached_ok _ _ Ho) as (oc & -> & Hoc). ebind.
  destruct (from_cases _ HD) as [[D8 ->] | [_ N]]; [| rewrite (scalarmult8_bad _ HD N); by left]. rewrite scalarmult8_ok. ebind.
  destruct (key_eq (enc _) identity); cbn [negb]; [by left |]. rewrite check_true. ebind.
  destruct (from_cases _ HI) as [[I ->] | [_ N]]; [| rewrite (precomp_bad _ HI N); by left].
  destruct (pubs_cases pubs Hp) as [(ms & -> & Hms) | Hb].
  { right. exists ms, ss, c, I, D8, Off. rewrite length_map in *. split_and!; try done. intros ->. cbn [length] in Hn. lia. }
  left. destruct (precomp_ok I) as (ip & -> & HI'). ebind. destruct (precomp_ok (smul 8 D8)) as (dp & -> & HD'). ebind.
  rewrite hash_to_scalarV_ok by by apply hashed_bytes; [tauto | | repeat (constructor; [apply enc_bytes |])]. ebind.
  rewrite hash_to_scalarV_ok by by apply hashed_bytes; [tauto | | repeat (constructor; [apply enc_bytes |])]. ebind.
  rewrite (ver_loop_bad Off I (smul 8 D8) _ _ _ ip dp oc pubs ss c); try done. apply hashed_bytes; [tauto | done |].
  constructor; [apply enc_bytes |]. by constructor; [apply Hm |].
Qed.

(** C15: [verRctCLSAGSimple] never aborts, and accepts exactly the signatures whose
    scalars are reduced, whose points and whose ring decode, that are not degenerate and
    whose challenges close around the ring. *)
Theorem clsag_exact message sig pubs C_offset :
  is_bytes 32 message -> Forall (is_bytes 32) (cl_s sig) -> is_bytes 32 (cl_c1 sig) -> is_bytes 32 (cl_I sig) -> is_bytes 32 (cl_D sig) ->
  Forall (fun k => is_bytes 32 (dest k) /\ is_bytes 32 (mask k)) pubs -> is_bytes 32 C_offset ->
  exists b, verRctCLSAGSimple message sig pubs C_offset = Some b /\
  (b = true <-> exists ms ss c1 KI D8 Off, sig = mk_clsag (map sbytes ss) (sbytes c1) (enc KI) (enc D8) /\
     pubs = map pubkey ms /\ C_offset = enc Off /\ ms <> [] /\ Forall hashed ms /\ length ms = length ss /\
     accepts message ms ss c1 KI D8 Off = true).
Proof.
  intros Hm Hs Hc HI HD Hp HO.
  assert (F : verRctCLSAGSimple message sig pubs C_offset = Some false \/ exists ms ss c1 KI D8 Off,
    sig = mk_clsag (map sbytes ss) (sbytes c1) (enc KI) (enc D8) /\ pubs = map pubkey ms /\ C_offset = enc Off /\
    ms <> [] /\ Forall hashed ms /\ length ms = length ss) by by apply clsag_cases.
  destruct F as [F | (ms & ss & c1 & KI & D8 & Off & -> & -> & -> & Hn & Hms & L)].
  - exists false. split; [done |]. split; [done |]. intros (ms & ss & c1 & KI & D8 & Off & -> & -> & -> & Hn & Hms & L & A).
    rewrite verRctCLSAGSimple_ok, A in F by done. by injection F.
  - exists (accepts message ms ss c1 KI D8 Off). rewrite verRctCLSAGSimple_ok by done. split; [done |]. split; [intros A; by do 6 eexists |].
    intros (ms' & ss' & c1' & KI' & D8' & Off' & Es & Ep & EO & Hn' & Hms' & L' & A).
    pose proof (verRctCLSAGSimple_ok message Hm ms' ss' c1' KI' D8' Off' Hn' Hms' L') as V.
    rewrite <- Es, <- Ep, <- EO, verRctCLSAGSimple_ok, A in V by done. by injection V.
Qed.

Lemma clsag_exact_witness : exists b, let sig := mk_clsag [sbytes 5] (sbytes 6) (pub 7) (pub 8) in
  verRctCLSAGSimple zero_point sig [mk_ctkey (pub 3) (pub 4)] (pub 9) = Some b /\
  (b = true <-> exists ms ss c1 KI D8 Off, sig = mk_clsag (map sbytes ss) (sbytes c1) (enc KI) (enc D8) /\
     [mk_ctkey (pub 3) (pub 4)] = map pubkey ms /\ pub 9 = enc Off /\ ms <> [] /\ Forall hashed ms /\ length ms = length ss /\
     accepts zero_point ms ss c1 KI D8 Off = true).
Proof.
  apply (clsag_exact zero_point (mk_clsag [sbytes 5] (sbytes 6) (pub 7) (pub 8)) [mk_ctkey (pub 3) (pub 4)] (pub 9)).
  - exact zero_point_bytes.
  - constructor; [apply sbytes_bytes | constructor].
  - apply sbytes_bytes.
  - apply enc_bytes.
  - apply enc_bytes.
  - constructor; [split; apply enc_bytes | constructor].
  - apply enc_bytes.
Defined.

(** ** Multisig *)

Lemma sign_share_ok ss1 s ss2 c1 KI D8 c mp x k :
  sign_share (mk_clsag (map sbytes (ss1 ++ s :: ss2)) c1 KI D8) (length ss1) (sbytes c) (sbytes mp) (sbytes x) (sbytes k) =
  Some (mk_clsag (map sbytes (ss1 ++ (s + (k - c * (mp * x))) :: ss2)) c1 KI D8).
Proof.
  unfold sign_share, multisig_share. cbn [cl_s cl_c1 cl_I cl_D]. rewrite mul_sbytes. bind. rewrite mulsub_sbytes. bind.
  rewrite !map_app. cbn [map]. rewrite list_lookup_middle by by rewrite length_map. bind. rewrite add_sbytes. bind.
  by rewrite insert_at by by rewrite length_map.
Qed.

(** The shares of the other signers, a key and a nonce each, added in turn. *)
Definition sign_all (sig : clsag) (index : nat) (c mu_p : key) (shares : list (Z * Z)) : option clsag :=
  foldl (fun acc s => sig ← acc; sign_share sig index c mu_p (sbytes s.1) (sbytes s.2)) (Some sig) shares.

Definition keys_sum (shares : list (Z * Z)) : Z := foldr (fun s acc => s.1 + acc) 0 shares.
Definition nonces_sum (shares : list (Z * Z)) : Z := foldr (fun s acc => s.2 + acc) 0 shares.

Lemma sign_all_ok ss1 s ss2 c1 KI D8 c mp shares :
  sign_all (mk_clsag (map sbytes (ss1 ++ s :: ss2)) c1 KI D8) (length ss1) (sbytes c) (sbytes mp) shares =
  Some (mk_clsag (map sbytes (ss1 ++ (s + (nonces_sum shares - c * (mp * keys_sum shares))) :: ss2)) c1 KI D8).
Proof.
  revert s. induction shares as [| [x k] shares IH]; intros s; unfold sign_all; cbn [foldl nonces_sum keys_sum foldr fst snd].
  - by replace (s + (0 - c * (mp * 0))) with s by ring.
  - bind. rewrite sign_share_ok. etransitivity; [apply IH |].
    fold (nonces_sum shares) (keys_sum shares).
    by replace (s + (k - c * (mp * x)) + (nonces_sum shares - c * (mp * keys_sum shares)))
      with (s + (k + nonces_sum shares - c * (mp * (x + keys_sum shares)))) by ring.
Qed.

(** C26: when the holders of shares of the key [x G] sign together, the first with
    [proveRctCLSAGSimple] from the sums of the commitments of all and the full key image,
    the others with the share of [signMultisigCLSAG], the result is accepted exactly when
    it is not degenerate, as a signature made with the whole key is. *)
Theorem clsag_multisig_complete message ms1 m ms2 Off x0 k0 shares y w v tape :
  is_bytes 32 message -> Forall hashed (ms1 ++ m :: ms2) ->
  let x := x0 + keys_sum shares in let a := k0 + nonces_sum shares in
  mP m ≃ smul x base_point -> mC m ≃ pedersen y v -> Off ≃ pedersen w v ->
  Forall (is_bytes 32) tape -> (length (ms1 ++ ms2) <= length (scalars tape))%nat ->
  let pubs := map pubkey (ms1 ++ m :: ms2) in
  let kLRki := mk_kLRki (sbytes k0) (enc (smul a base_point)) (enc (smul a (mH m))) (enc (smul x (mH m))) in
  exists sig0 ss c1 D8 c mu_p rest, let sig := mk_clsag (map sbytes ss) (sbytes c1) (enc (smul x (mH m))) (enc D8) in
    proveRctCLSAGSimple message pubs (mk_ctkey (sbytes x0) (sbytes y)) (sbytes w) (enc Off) (Some kLRki) true true (length ms1) tape =
      ret (sig0, c, mu_p, rest) /\
    sign_all sig0 (length ms1) c mu_p shares = Some sig /\
    verRctCLSAGSimple message sig pubs (enc Off) = Some (regular message ms1 ms2 m Off ss c1 (smul x (mH m)) D8).
Proof.
  intros Hm Hms x a HP HC HO Ht Hl pubs kLRki. pose proof Hms as (H1 & [H2 H3]%Forall_cons_iff)%Forall_app. rewrite length_app in Hl.
  set (KI := smul x (mH m)) in *. set (D := smul ((y - w) mod ell) (mH m)).
  assert (HD : D ≃ smul (y - w) (mH m)) by apply smul_mod, (hashes_to_prime _ _ H2).
  destruct (CLSAG_Gen_ok message Hm ms1 ms2 m Off H1 H2 H3 x0 (y - w) k0 KI D (smul a base_point) (smul a (mH m))
    (Some kLRki) true true tape tape 0 eq_refl) as (ss1 & ss2 & rest & L1 & L2 & _ & E); [| by rewrite Nat.add_0_r |].
  { cbn [kLRki ms_ki ms_k ms_L ms_R]. rewrite scalarmultKey_ok by apply sbytes_ok. ebind. by rewrite sbytes_val. }
  cbv zeta in E. set (c := own_challenge _ _ _ _ _ _ _ _ _ _ _) in E. set (mp := mu HASH_KEY_CLSAG_AGG_0 _ _ _ _) in E. set (mc := mu _ _ _ _ _) in E.
  eexists _, (ss1 ++ (a - c * (mp * x + mc * (y - w))) :: ss2), _, (eighth D), (sbytes c), (sbytes mp), rest.
  cbv zeta. unfold pubs. rewrite prove_Gen by (try done; by destruct ms1). split; [exact E |]. rewrite <- L1, sign_all_ok. split.
  - by replace (k0 - c * (mp * x0 + mc * (y - w)) + (nonces_sum shares - c * (mp * keys_sum shares)))
      with (a - c * (mp * x + mc * (y - w))) by (unfold a, x; ring).
  - rewrite verRctCLSAGSimple_ok; [| done | by destruct ms1 | done | rewrite !length_app; simpl; lia].
    apply (f_equal Some), accepts_own; try done. by apply (offset_own m Off y w v).
Qed.

Lemma clsag_multisig_witness : exists m1 m, mP m = smul 5 base_point /\ mC m = pedersen 11 7 /\
  let kLRki := mk_kLRki (sbytes 6) (enc (smul 14 base_point)) (enc (smul 14 (mH m))) (enc (smul 5 (mH m))) in
  exists sig0 ss c1 D8 c mu_p rest, let sig := mk_clsag (map sbytes ss) (sbytes c1) (enc (smul 5 (mH m))) (enc D8) in
    proveRctCLSAGSimple zero_point (map pubkey [m1; m]) (mk_ctkey (sbytes 3) (sbytes 11)) (sbytes 4) (enc (pedersen 4 7)) (Some kLRki) true true 1
      (small_tape [1; 2; 3]) = ret (sig0, c, mu_p, rest) /\
    sign_all sig0 1 c mu_p [(2, 8)] = Some sig /\
    verRctCLSAGSimple zero_point sig (map pubkey [m1; m]) (enc (pedersen 4 7)) =
      Some (regular zero_point [m1] [] m (pedersen 4 7) ss c1 (smul 5 (mH m)) D8).
Proof.
  destruct (member_of (smul 3 base_point) (pedersen 1 2)) as (m1 & _ & _ & H1).
  destruct (member_of (smul 5 base_point) (pedersen 11 7)) as (m & EP & EC & H2). exists m1, m. split; [exact EP |]. split; [exact EC |].
  apply (clsag_multisig_complete zero_point [m1] m [] (pedersen 4 7) 3 6 [(2, 8)] 11 4 7 (small_tape [1; 2; 3])).
  - exact zero_point_bytes.
  - constructor; [exact H1 |]. constructor; [exact H2 | constructor].
  - rewrite EP. reflexivity.
  - rewrite EC. reflexivity.
  - reflexivity.
  - apply small_tape_bytes.
  - change (1 <= length (scalars (small_tape [1; 2; 3]%Z)))%nat. vm_compute. lia.
Defined.
End ClsagTheorems.
