(* ===== verification/Borromean.v ===== *)
(** The range proofs of src/ringct/rctSigs.cpp: the Borromean ring signature over the
    bits of an amount ([genBorromean], [verifyBorromean]) and the proof that a commitment
    is the sum of commitments to [0] or [2^i] ([proveRange], [verRange]).

    The arrays of 64 keys are lists, and a loop over them is a recursion over the lists
    that runs in step with it. *)
From S2P Require Import Prelude Pack Scalar Ge GeMult Crypto RctData Exc RctOps.

Local Open Scope Z_scope.

Module Borromean.
Import Pack Scalar Ge GeMult Crypto RctData Exc RctOps.

Record boroSig := mk_boro { b_s0 : keyV; b_s1 : keyV; b_ee : key }.

Record rangeSig := mk_range { r_asig : boroSig; r_Ci : keyV }.

(** ** The ring signature *)

(** One iteration of the first loop: [alpha[ii]], [L[1][ii]] and [bb.s1[ii]], which for the bit 1 is set later. *)
Definition boro_first (index : Z) (P2 : key) (tape : list key) : exc (key * key * key * list key) :=
  '(alpha, tape) <~ call (skGen tape);
  L <~ call (scalarmultBase alpha);
  if index =? 0 then
    '(s1, tape) <~ call (skGen tape);
    c <~ call (rct_hash_to_scalar L);
    L1 <~ addKeys2 s1 c P2;
    ret (alpha, L1, s1, tape)
  else ret (alpha, L, zero, tape).

Fixpoint boro_firsts (indices : list Z) (P2 : keyV) (tape : list key) : exc (keyV * keyV * keyV * list key) :=
  match indices, P2 with
  | index :: indices, P :: P2 =>
      '(alpha, L1, s1, tape) <~ boro_first index P tape;
      '(alphas, L1s, s1s, tape) <~ boro_firsts indices P2 tape;
      ret (alpha :: alphas, L1 :: L1s, s1 :: s1s, tape)
  | _, _ => ret ([], [], [], tape)
  end.

(** One iteration of the second loop: [bb.s0[jj]] and [bb.s1[jj]]. *)
Definition boro_second (ee : key) (index : Z) (x P1 alpha s1 : key) (tape : list key) : exc (key * key * list key) :=
  if index =? 0 then
    s0 <~ call (sc_mulsub x ee alpha);
    ret (s0, s1, tape)
  else
    '(s0, tape) <~ call (skGen tape);
    LL <~ addKeys2 s0 ee P1;
    cc <~ call (rct_hash_to_scalar LL);
    s1 <~ call (sc_mulsub x cc alpha);
    ret (s0, s1, tape).

Fixpoint boro_seconds (ee : key) (indices : list Z) (x P1 alpha s1 : keyV) (tape : list key) : exc (keyV * keyV * list key) :=
  match indices, x, P1, alpha, s1 with
  | index :: indices, x :: xs, P :: P1, a :: alpha, s :: s1 =>
      '(s0, s1j, tape) <~ boro_second ee index x P a s tape;
      '(s0s, s1s, tape) <~ boro_seconds ee indices xs P1 alpha s1 tape;
      ret (s0 :: s0s, s1j :: s1s, tape)
  | _, _, _, _, _ => ret ([], [], tape)
  end.

Definition genBorromean (x P1 P2 : keyV) (indices : list Z) (tape : list key) : exc (boroSig * list key) :=
  '(alpha, L1, s1, tape) <~ boro_firsts indices P2 tape;
  ee <~ call (hash_to_scalarV L1);
  '(s0, s1, tape) <~ boro_seconds ee indices x P1 alpha s1 tape;
  ret (mk_boro s0 s1 ee, tape).

(** [Lv1[ii]]. *)
Definition boro_round (ee s0 s1 : key) (P1 P2 : ge_p3) : option key :=
  p2 ← ge_double_scalarmult_base_vartime ee P1 s0;
  LL ← ge_tobytes p2;
  chash ← rct_hash_to_scalar LL;
  p2 ← ge_double_scalarmult_base_vartime chash P2 s1;
  ge_tobytes p2.

Fixpoint boro_rounds (ee : key) (s0 s1 : keyV) (P1 P2 : list ge_p3) : option keyV :=
  match s0, s1, P1, P2 with
  | s :: s0, t :: s1, P :: P1, Q :: P2 =>
      L ← boro_round ee s t P Q;
      Ls ← boro_rounds ee s0 s1 P1 P2;
      Some (L :: Ls)
  | _, _, _, _ => Some []
  end.

Definition verifyBorromean (bb : boroSig) (P1 P2 : list ge_p3) : option bool :=
  Lv1 ← boro_rounds (b_ee bb) (b_s0 bb) (b_s1 bb) P1 P2;
  eeComputed ← hash_to_scalarV Lv1;
  Some (equalKeys eeComputed (b_ee bb)).

(** The points of both arrays; [Some None] for a key that is not a point. *)
Fixpoint decode_pairs (P1 P2 : keyV) : exc (list ge_p3 * list ge_p3) :=
  match P1, P2 with
  | P :: P1, Q :: P2 =>
      p <~ ge_frombytes_vartime P;
      q <~ ge_frombytes_vartime Q;
      '(ps, qs) <~ decode_pairs P1 P2;
      ret (p :: ps, q :: qs)
  | _, _ => ret ([], [])
  end.

Definition verifyBorromean_keys (bb : boroSig) (P1 P2 : keyV) : option bool :=
  catch ('(p1, p2) <~ decode_pairs P1 P2; call (verifyBorromean bb p1 p2)) false.

(** ** The range proof *)

(** [ai[i]], [sig.Ci[i]] and [CiH[i]]. *)
Definition range_bit (b : Z) (H2 : key) (tape : list key) : exc (key * key * key * list key) :=
  '(a, tape) <~ call (skGen tape);
  Ci <~ (if b =? 0 then call (scalarmultBase a) else addKeys1 a H2);
  CiH <~ subKeys Ci H2;
  ret (a, Ci, CiH, tape).

(** The loop of [proveRange] from the current [mask] and [C]. *)
Fixpoint range_bits (bs : list Z) (H2 : keyV) (mask C : key) (tape : list key) : exc (keyV * keyV * keyV * key * key * list key) :=
  match bs, H2 with
  | b :: bs, H :: H2 =>
      '(a, Ci, CiH, tape) <~ range_bit b H tape;
      mask <~ call (sc_add mask a);
      C <~ addKeys C Ci;
      '(ai, Cis, CiHs, mask, C, tape) <~ range_bits bs H2 mask C tape;
      ret (a :: ai, Ci :: Cis, CiH :: CiHs, mask, C, tape)
  | _, _ => ret ([], [], [], mask, C, tape)
  end.

(** The proof, [C] and [mask]. *)
Definition proveRange (amount : Z) (tape : list key) : exc (rangeSig * key * key * list key) :=
  let b := d2b amount in
  '(ai, Ci, CiH, mask, C, tape) <~ range_bits b key_H2 sc_0 identity tape;
  '(asig, tape) <~ genBorromean ai Ci CiH b tape;
  ret (mk_range asig Ci, C, mask, tape).

(** The loop of [verRange] from the current [Ctmp_p3]: [asCi], [CiH] and the sum. *)
Fixpoint range_points (Ci H2 : keyV) (Ctmp_p3 : ge_p3) : exc (list ge_p3 * list ge_p3 * ge_p3) :=
  match Ci, H2 with
  | C :: Ci, H :: H2 =>
      p3 <~ ge_frombytes_vartime H;
      cached <~ call (ge_p3_to_cached p3);
      asC <~ ge_frombytes_vartime C;
      '(CH, Ctmp_p3) <~ call (
        p1 ← ge_sub asC cached;
        cached ← ge_p3_to_cached asC;
        CH ← ge_p1p1_to_p3 p1;
        p1 ← ge_add Ctmp_p3 cached;
        Ctmp_p3 ← ge_p1p1_to_p3 p1;
        Some (CH, Ctmp_p3));
      '(asCi, CiH, Ctmp_p3) <~ range_points Ci H2 Ctmp_p3;
      ret (asC :: asCi, CH :: CiH, Ctmp_p3)
  | _, _ => ret ([], [], Ctmp_p3)
  end.

Definition verRange (C : key) (proof : rangeSig) : option bool :=
  catch (
    '(asCi, CiH, Ctmp_p3) <~ range_points (r_Ci proof) key_H2 ge_p3_identity;
    Ctmp <~ call (ge_p3_tobytes Ctmp_p3);
    if negb (equalKeys C Ctmp) then ret false else
    call (verifyBorromean (r_asig proof) asCi CiH)) false.
End Borromean.
