(* ===== verification/BorromeanCorrect.v ===== *)
(** The range proofs: what the Borromean signature of a bit computes, that a generated
    signature verifies, and that [proveRange] commits to the amount with a proof that
    [verRange] accepts. *)
From S2P Require Import Prelude Limbs Pack Scalar ScalarCorrect Group Fe Curve Ge GeCorrect GeEncode GeMult GeMultCorrect.
From S2P Require Import GeTables GeScalarmult GeFromFe GeTheorems CurveOrder Keccak KeccakCorrect Varint Encoding Crypto CryptoCorrect CryptoTheorems.
From S2P Require Import RctData RctTables Exc RctOps RctOpsCorrect Borromean RingLoop Clsag ClsagCorrect.

Local Open Scope Z_scope.

Module BorromeanCorrect.
Import Limbs Pack Scalar ScalarCorrect Group Fe Curve Ge GeCorrect GeEncode GeMult GeMultCorrect.
Import GeTables GeScalarmult GeFromFe GeTheorems Finite CurveOrder Keccak KeccakCorrect Varint Encoding Crypto CryptoCorrect CryptoTheorems.
Import RctData RctTables Exc RctOps RctOpsCorrect Borromean ClsagCorrect.
Local Open Scope group_scope.

(** [a G + b P], the scalars reduced. *)
Definition comb (a b : Z) (P : point) : point := smul (b mod ell) P ⊕ smul (a mod ell) base_point.

Lemma addKeys2_sbytes a b P : addKeys2 (sbytes a) (sbytes b) (enc P) = ret (enc (comb a b P)).
Proof. rewrite addKeys2_ok by apply sbytes_ok. by rewrite !sbytes_val. Qed.

Lemma comb_own k c x P : P ≃ smul x base_point -> comb (k - x * c) c P ≃ smul k base_point.
Proof. intros H. unfold comb. rewrite H, (Z.mul_comm x c). apply schnorr_equation, base_prime. Qed.

(** A bit: its value, the secret key and the two points, one of which the key opens. *)
Record bit := mk_bit { i_b : Z; i_x : Z; i_P : point; i_Q : point }.

Definition opens (i : bit) : Prop := is_bit (i_b i) /\ (if i_b i =? 0 then i_P i else i_Q i) ≃ smul (i_x i) base_point.

(** The point [L[1]] of a bit from its nonce and, for the bit 0, its response. *)
Definition first_L (i : bit) (a s1 : Z) : point :=
  if i_b i =? 0 then comb s1 (hs (pub a)) (i_Q i) else smul a base_point.

(** The point that verification computes from the responses. *)
Definition round_point (e s0 s1 : Z) (i : bit) : point := comb s1 (hs (enc (comb s0 e (i_P i)))) (i_Q i).

Definition need1 (i : bit) : nat := if i_b i =? 0 then 2 else 1.
Definition need2 (i : bit) : nat := if i_b i =? 0 then 0 else 1.
Definition needs (f : bit -> nat) (l : list bit) : nat := foldr (fun i n => f i + n)%nat 0%nat l.

Lemma boro_first_ok i tape k : has_scalars (need1 i + k) tape -> exists a s1 tape',
  boro_first (i_b i) (enc (i_Q i)) tape = ret (sbytes a, enc (first_L i a s1), sbytes s1, tape') /\ has_scalars k tape'.
Proof.
  unfold need1, boro_first, first_L. intros H. destruct (i_b i =? 0).
  - destruct (draw_scalar (1 + k) tape H) as (a & t & E & _ & H1). destruct (draw_scalar k t H1) as (s & t' & E' & _ & H2). exists a, s, t'.
    split; [| done]. rewrite E. ebind. rewrite scalarmultBase_sbytes. ebind. rewrite E'. ebind.
    rewrite rct_hash_to_scalar_ok by apply enc_bytes. ebind. rewrite addKeys2_sbytes. by ebind.
  - destruct (draw_scalar k tape H) as (a & t & E & _ & H1). exists a, 0, t. split; [| done]. rewrite E. ebind. rewrite scalarmultBase_sbytes. ebind.
    unfold zero. by rewrite key_Z_sbytes.
Qed.

Lemma boro_firsts_ok bl tape k : has_scalars (needs need1 bl + k) tape -> exists l tape', length l = length bl /\
  boro_firsts (map i_b bl) (map (fun i => enc (i_Q i)) bl) tape =
  ret (map (fun p => sbytes p.1) l, zip_with (fun i p => enc (first_L i p.1 p.2)) bl l, map (fun p => sbytes p.2) l, tape') /\ has_scalars k tape'.
Proof.
  revert tape. induction bl as [| i bl IH]; intros tape H; [by exists [], tape |].
  destruct (boro_first_ok i tape (needs need1 bl + k)) as (a & s & t & E & H1). { by rewrite Nat.add_assoc. }
  destruct (IH t H1) as (l & t' & L & E' & H2). exists ((a, s) :: l), t'. split; [simpl; lia |]. split; [| done].
  cbn [map boro_firsts]. rewrite E. ebind. rewrite E'. by ebind.
Qed.

Lemma boro_second_ok e i a s1 tape k : opens i -> has_scalars (need2 i + k) tape -> exists s0 s1' tape',
  boro_second (sbytes e) (i_b i) (sbytes (i_x i)) (enc (i_P i)) (sbytes a) (sbytes s1) tape = ret (sbytes s0, sbytes s1', tape') /\
  has_scalars k tape' /\ round_point e s0 s1' i ≃ first_L i a s1.
Proof.
  intros [_ Hx] H. unfold need2, boro_second, first_L, round_point in *. destruct (i_b i =? 0).
  - exists (a - i_x i * e), s1, tape. rewrite mulsub_sbytes. ebind. split; [done |]. split; [done |].
    by rewrite (proj2 (enc_eq _ _) (comb_own a e _ _ Hx)).
  - destruct (draw_scalar k tape H) as (s0 & t & E & _ & H1). exists s0, (a - i_x i * hs (enc (comb s0 e (i_P i)))), t.
    rewrite E. ebind. rewrite addKeys2_sbytes. ebind. rewrite rct_hash_to_scalar_ok by apply enc_bytes. ebind.
    rewrite mulsub_sbytes. ebind. split; [done |]. split; [done |]. by apply comb_own.
Qed.

Definition round_points (e : Z) (ss : list (Z * Z)) (bl : list bit) : keyV := zip_with (fun s i => enc (round_point e s.1 s.2 i)) ss bl.

Lemma boro_seconds_ok e bl l tape k : Forall opens bl -> length l = length bl -> has_scalars (needs need2 bl + k) tape ->
  exists ss tape', length ss = length bl /\
  boro_seconds (sbytes e) (map i_b bl) (map (fun i => sbytes (i_x i)) bl) (map (fun i => enc (i_P i)) bl)
    (map (fun p : Z * Z => sbytes p.1) l) (map (fun p => sbytes p.2) l) tape =
  ret (map (fun s => sbytes s.1) ss, map (fun s => sbytes s.2) ss, tape') /\ has_scalars k tape' /\
  round_points e ss bl = zip_with (fun i p => enc (first_L i p.1 p.2)) bl l.
Proof.
  intros Hi. revert l tape. induction Hi as [| i bl Hi _ IH]; intros [| [a s] l] tape L H; try discriminate L; [by exists [], tape |].
  destruct (boro_second_ok e i a s tape (needs need2 bl + k) Hi) as (s0 & s1 & t & E & H1 & R). { by rewrite Nat.add_assoc. }
  destruct (IH l t) as (ss & t' & L' & E' & H2 & R'); [by injection L | done |]. exists ((s0, s1) :: ss), t'.
  split; [simpl; lia |]. cbn [map boro_seconds fst snd]. rewrite E. ebind. rewrite E'. ebind. split; [done |]. split; [done |].
  unfold round_points in *. cbn [zip_with fst snd]. by rewrite R', (proj2 (enc_eq _ _) R).
Qed.

Lemma needs_total bl : (needs need1 bl + needs need2 bl = 2 * length bl)%nat.
Proof.
  induction bl as [| i bl IH]; [done |]. cbn [needs foldr length]. fold (needs need1 bl) (needs need2 bl).
  unfold need1 at 1, need2 at 1. destruct (i_b i =? 0); lia.
Qed.

Lemma zip_bytes {A B} (f : A -> B -> point) l m : Forall (Forall is_byte) (zip_with (fun x y => enc (f x y)) l m).
Proof. revert m. induction l as [| x l IH]; intros [| y m]; constructor; [apply enc_bytes | apply IH]. Qed.

Lemma genBorromean_ok bl tape k : Forall opens bl -> has_scalars (2 * length bl + k) tape -> exists ss e tape', length ss = length bl /\
  genBorromean (map (fun i => sbytes (i_x i)) bl) (map (fun i => enc (i_P i)) bl) (map (fun i => enc (i_Q i)) bl) (map i_b bl) tape =
  ret (mk_boro (map (fun s => sbytes s.1) ss) (map (fun s => sbytes s.2) ss) (sbytes e), tape') /\ has_scalars k tape' /\
  e = hs (concat (round_points e ss bl)).
Proof.
  intros Hi H. rewrite <- needs_total, <- Nat.add_assoc in H.
  destruct (boro_firsts_ok bl tape (needs need2 bl + k) H) as (l & t & L & E & H1).
  set (e := hs (concat (zip_with (fun i p => enc (first_L i p.1 p.2)) bl l))).
  destruct (boro_seconds_ok e bl l t k Hi L H1) as (ss & t' & L' & E' & H2 & R). exists ss, e, t'. split; [done |].
  unfold genBorromean. rewrite E. ebind. rewrite hash_to_scalarV_ok by apply zip_bytes. ebind. fold e. rewrite E'. ebind.
  split; [done |]. split; [done |]. by rewrite R.
Qed.

Lemma boro_round_ok e s0 s1 i p q : p3_rep p (i_P i) -> p3_rep q (i_Q i) ->
  boro_round (sbytes e) (sbytes s0) (sbytes s1) p q = Some (enc (round_point e s0 s1 i)).
Proof.
  intros Hp Hq. unfold boro_round, round_point. run (ge_double_base_ok _ _ (sbytes_ok e) (sbytes_ok s0) _ _ Hp) as r Hr.
  rewrite !sbytes_val in Hr. rewrite (to_enc2 _ _ Hr : _ = Some (enc (comb s0 e (i_P i)))). bind.
  rewrite rct_hash_to_scalar_ok by apply enc_bytes. bind.
  run (ge_double_base_ok _ _ (sbytes_ok (hs (enc (comb s0 e (i_P i))))) (sbytes_ok s1) _ _ Hq) as r' Hr'. rewrite !sbytes_val in Hr'.
  by rewrite (to_enc2 _ _ Hr').
Qed.

Lemma verifyBorromean_ok e ss bl ps qs : length ss = length bl -> Forall2 (fun p i => p3_rep p (i_P i)) ps bl ->
  Forall2 (fun q i => p3_rep q (i_Q i)) qs bl ->
  verifyBorromean (mk_boro (map (fun s => sbytes s.1) ss) (map (fun s => sbytes s.2) ss) (sbytes e)) ps qs =
  Some (bool_decide (sbytes (hs (concat (round_points e ss bl))) = sbytes e)).
Proof.
  intros L Hp Hq. unfold verifyBorromean. cbn [b_ee b_s0 b_s1].
  assert (E : boro_rounds (sbytes e) (map (fun s => sbytes s.1) ss) (map (fun s => sbytes s.2) ss) ps qs = Some (round_points e ss bl)).
  { revert ss qs L Hq. induction Hp as [| p i ps bl Hp _ IH]; intros [| s ss] qs L Hq; try discriminate L; [done |].
    inversion Hq as [| q ? qs' ? Hqi Hq']; subst. cbn [map boro_rounds]. rewrite (boro_round_ok e s.1 s.2 i p q Hp Hqi). bind.
    rewrite IH by (done || by injection L). by bind. }
  rewrite E. bind. rewrite hash_to_scalarV_ok by apply zip_bytes. bind. by rewrite equalKeys_ok by apply sbytes_bytes.
Qed.

(** ** Range proofs *)

Definition H2_points (n j : nat) : list point := map (fun i => smul (2 ^ Z.of_nat i) H_point) (seq j n).

Lemma key_H2_points : key_H2 = map enc (H2_points 64 0).
Proof.
  apply list_eq. intros i. unfold H2_points. rewrite map_map. destruct (decide (i < 64)%nat) as [Hi | Hi].
  - rewrite key_H2_ok by done. rewrite list_lookup_fmap, lookup_seq_lt by done. reflexivity.
  - rewrite !lookup_ge_None_2; [done | rewrite length_map, length_seq; lia |]. transitivity 64%nat; [| lia]. apply Nat.eq_le_incl. reflexivity.
Qed.

(** The commitments of a bit: [C_i = a G + b Q] and [C_i - Q]. *)
Definition commits (i : bit) (Q : point) : Prop := i_P i ≃ smul (i_x i) base_point ⊕ smul (i_b i) Q /\ i_Q i = i_P i ⊕ gopp Q.

Lemma commits_opens i Q : is_bit (i_b i) -> commits i Q -> opens i.
Proof.
  intros Hb [HP HQ]. split; [done |]. destruct Hb as [E | E]; rewrite E in *; cbn [Z.eqb].
  - rewrite HP. apply gadd_0_r.
  - rewrite HQ, HP, smul_1, <- gadd_assoc, gadd_opp_r. apply gadd_0_r.
Qed.

Lemma range_bit_ok b Q tape k : is_bit b -> has_scalars (S k) tape -> exists i tape', i_b i = b /\ commits i Q /\
  range_bit b (enc Q) tape = ret (sbytes (i_x i), enc (i_P i), enc (i_Q i), tape') /\ has_scalars k tape'.
Proof.
  intros Hb H. destruct (draw_scalar k tape H) as (a & t & E & _ & H1).
  exists (mk_bit b a (smul (a mod ell) base_point ⊕ smul b Q) (smul (a mod ell) base_point ⊕ smul b Q ⊕ gopp Q)), t. cbn [i_b i_x i_P i_Q].
  split; [done |]. split; [split; [cbn [i_b i_x i_P]; by rewrite (smul_mod a base_point base_prime) | done] |]. split; [| done].
  unfold range_bit. rewrite E. ebind.
  assert (EC : (if b =? 0 then call (scalarmultBase (sbytes a)) else addKeys1 (sbytes a) (enc Q)) = ret (enc (smul (a mod ell) base_point ⊕ smul b Q))).
  { destruct Hb as [-> | ->]; cbn [Z.eqb].
    - rewrite scalarmultBase_sbytes, call_Some. apply (f_equal Some), (f_equal Some). unfold pub. apply enc_eq.
      rewrite (smul_mod a base_point base_prime). symmetry. apply gadd_0_r.
    - rewrite addKeys1_ok by apply sbytes_bytes. by rewrite sbytes_val. }
  rewrite EC. ebind. rewrite subKeys_ok. by ebind.
Qed.

Definition secrets (bl : list bit) : Z := foldr (fun i acc => i_x i + acc) 0 bl.

Lemma range_bits_ok bs Qs m C tape k : Forall is_bit bs -> length bs = length Qs -> has_scalars (length bs + k) tape ->
  exists bl C' tape', map i_b bl = bs /\ Forall2 commits bl Qs /\ C' ≃ C ⊕ psum (map i_P bl) /\ has_scalars k tape' /\
  range_bits bs (map enc Qs) (sbytes m) (enc C) tape =
  ret (map (fun i => sbytes (i_x i)) bl, map (fun i => enc (i_P i)) bl, map (fun i => enc (i_Q i)) bl, sbytes (m + secrets bl), enc C', tape').
Proof.
  intros Hb. revert Qs m C tape. induction Hb as [| b bs Hb _ IH]; intros [| Q Qs] m C tape L H; try discriminate L.
  { exists [], C, tape. split; [done |]. split; [constructor |]. split; [symmetry; exact (gadd_0_r C) |]. split; [done |].
    cbn [map range_bits secrets foldr]. by rewrite Z.add_0_r. }
  destruct (range_bit_ok b Q tape _ Hb H) as (i & t & Ei & Hc & E & H1).
  destruct (IH Qs (m + i_x i) (C ⊕ i_P i) t) as (bl & C' & t' & Eb & HF & HC & H2 & E'); [by injection L | done |].
  exists (i :: bl), C', t'. split; [by rewrite <- Ei, <- Eb |]. split; [by constructor |]. split; [| split; [done |]].
  - rewrite HC. cbn [map psum foldr]. by rewrite gadd_assoc.
  - cbn [map range_bits]. rewrite E. ebind. rewrite add_sbytes. ebind. rewrite addKeys_ok. ebind. rewrite E'. ebind.
    cbn [secrets foldr]. by rewrite Z.add_assoc.
Qed.

Lemma commits_sum bl n j : Forall2 commits bl (H2_points n j) ->
  psum (map i_P bl) ≃ pedersen (secrets bl) (2 ^ Z.of_nat j * bits_val (map i_b bl)).
Proof.
  unfold H2_points. revert j bl. induction n as [| n IH]; intros j bl H; inversion H as [| i Q bl' ? [HP _] HF]; subst.
  - cbn. rewrite Z.mul_0_r. symmetry. exact pedersen_0.
  - cbn [map psum foldr secrets bits_val]. fold (psum (map i_P bl')) (secrets bl'). rewrite (IH (S j) bl' HF), HP.
    replace (2 ^ Z.of_nat j * (i_b i + 2 * bits_val (map i_b bl'))) with (i_b i * 2 ^ Z.of_nat j + 2 ^ Z.of_nat (S j) * bits_val (map i_b bl'))
      by (rewrite Nat2Z.inj_succ, Z.pow_succ_r by lia; ring).
    rewrite <- smul_mul. apply pedersen_add.
Qed.

Lemma range_points_ok bl Qs r0 C0 : Forall2 commits bl Qs -> p3_rep r0 C0 -> exists ps qs r,
  range_points (map (fun i => enc (i_P i)) bl) (map enc Qs) r0 = ret (ps, qs, r) /\ p3_rep r (C0 ⊕ psum (map i_P bl)) /\
  Forall2 (fun p i => p3_rep p (i_P i)) ps bl /\ Forall2 (fun q i => p3_rep q (i_Q i)) qs bl.
Proof.
  intros H. revert r0 C0. induction H as [| i Q bl Qs [_ HQ] _ IH]; intros r0 C0 H0.
  { exists [], [], r0. split; [done |]. split; [| by split]. apply (p3_rep_proper r0 C0); [symmetry; exact (gadd_0_r C0) | done]. }
  cbn [map range_points]. decode Q as q Hq. destruct (ge_p3_to_cached_ok _ _ Hq) as (c & -> & Hc). ebind. decode (i_P i) as p Hp.
  run (sub_rep _ _ _ _ Hp Hc) as d Hd. run (ge_p3_to_cached_ok _ _ Hp) as c' Hc'. run (ge_p1p1_to_p3_ok _ _ Hd) as h Hh.
  run (add_rep _ _ _ _ H0 Hc') as t Ht. run (ge_p1p1_to_p3_ok _ _ Ht) as r1 Hr1. ebind.
  destruct (IH r1 _ Hr1) as (ps & qs & r & -> & Hr & Fp & Fq). ebind. exists (p :: ps), (h :: qs), r. split; [done |].
  split; [| split; constructor; try done; by rewrite HQ].
  eapply p3_rep_proper; [| exact Hr]. cbn [map psum foldr]. by rewrite gadd_assoc.
Qed.

(** C21: for every amount below [2^64], [proveRange] returns the commitment to the amount
    under the mask that it also returns, with a proof that [verRange] accepts for it. *)
Theorem range_proof_complete amount tape : 0 <= amount < 2 ^ 64 -> Forall (is_bytes 32) tape -> (192 <= length (scalars tape))%nat ->
  exists sig m rest, proveRange amount tape = ret (sig, enc (pedersen m amount), sbytes m, rest) /\
    verRange (enc (pedersen m amount)) sig = Some true.
Proof.
  intros Ha Ht Hl. destruct (d2b_ok amount Ha) as (Lb & Hb & Vb).
  destruct (range_bits_ok (d2b amount) (H2_points 64 0) 0 gzero tape 128) as (bl & C & t & Eb & HF & HC & H1 & E);
    [done | by rewrite Lb | rewrite Lb; by split |].
  assert (Ho : Forall opens bl).
  { clear -HF Hb Eb. rewrite <- Eb in Hb. clear Eb. revert Hb. induction HF; intros Hb; [constructor |]. apply Forall_cons_iff in Hb as [? ?].
    constructor; [by eapply commits_opens | by apply IHHF]. }
  assert (Ll : length bl = 64%nat) by (rewrite <- Lb, <- Eb, length_map; done).
  destruct (genBorromean_ok bl t 0 Ho) as (ss & e & t' & Ls & Eg & _ & Ee). { by rewrite Ll. }
  assert (EC : C ≃ pedersen (secrets bl) amount).
  { rewrite HC, gadd_0_l, (commits_sum bl 64 0 HF), Eb, Vb. cbn [Z.of_nat]. by rewrite Z.pow_0_r, Z.mul_1_l. }
  eexists _, (secrets bl), t'. rewrite <- (proj2 (enc_eq _ _) EC). split.
  - unfold proveRange. rewrite key_H2_points, sc_0_sbytes, identity_enc. change pzero with (gzero : point). rewrite E. ebind. rewrite <- Eb, Eg. by ebind.
  - unfold verRange. cbn [r_Ci r_asig]. rewrite key_H2_points.
    destruct (range_points_ok bl _ _ _ HF identity_rep) as (ps & qs & r & -> & Hr & Fp & Fq). ebind. rewrite (to_enc3 _ _ Hr). ebind.
    rewrite equalKeys_ok by apply enc_bytes. rewrite (proj2 (key_eq_enc _ _)) by (by rewrite HC). cbn [negb].
    rewrite (verifyBorromean_ok e ss bl ps qs Ls Fp Fq), <- Ee, bool_decide_eq_true_2 by done. done.
Qed.

Lemma range_proof_witness : exists sig m rest, proveRange 1000 (small_tape (replicate 192 5)) = ret (sig, enc (pedersen m 1000), sbytes m, rest) /\
  verRange (enc (pedersen m 1000)) sig = Some true.
Proof.
  apply (range_proof_complete 1000 (small_tape (replicate 192 5))).
  - lia.
  - apply small_tape_bytes.
  - assert (E : length (scalars (small_tape (replicate 192 5))) = 192%nat) by (vm_compute; reflexivity). rewrite E. lia.
Defined.
End BorromeanCorrect.
