(* ===== verification/Mlsag.v ===== *)
(** MLSAG signatures of src/ringct/rctSigs.cpp: [MLSAG_Gen], [MLSAG_Ver], the matrices
    that [proveRctMG], [proveRctMGSimple], [verRctMG] and [verRctMGSimple] build for them
    and the share that [signMultisigMLSAG] adds, with the steps of the default device of
    src/device/device_default.cpp.

    [pk] is the matrix by columns, one column for every member of the ring. The first
    [dsRows] rows have a key image. The vector [toHash] is written anew in every round,
    so it is built as a list: the message and the entries of the rows in their order. *)
From S2P Require Import Prelude Pack Scalar Ge GeMult Crypto RctData Exc RctOps RingLoop Clsag.

Local Open Scope Z_scope.

Module Mlsag.
Import Pack Scalar Ge GeMult Crypto RctData Exc RctOps RingLoop Clsag.

Record mgSig := mk_mg { mg_ss : keyM; mg_cc : key; mg_II : keyV }.

(** ** The device *)

(** [a], [aG], [aHP] and [II]. *)
Definition mlsag_prepare (H xx : key) (tape : list key) : exc (key * key * key * key * list key) :=
  '(a, aG, tape) <~ call (skpkGen tape);
  aHP <~ scalarmultKey H a;
  II <~ scalarmultKey H xx;
  ret (a, aG, aHP, II, tape).

Definition mlsag_hash (toHash : keyV) : option key := hash_to_scalarV toHash.

Fixpoint mulsub_all (c : key) (xx alpha : keyV) : option keyV :=
  match xx, alpha with
  | x :: xx, a :: alpha => s ← sc_mulsub c x a; ss ← mulsub_all c xx alpha; Some (s :: ss)
  | _, _ => Some []
  end.

Definition mlsag_sign (c : key) (xx alpha : keyV) (rows dsRows : nat) (ss : keyV) : exc keyV :=
  _ <~ check (dsRows <=? rows)%nat;
  _ <~ check (length xx =? rows)%nat;
  _ <~ check (length alpha =? rows)%nat;
  _ <~ check (length ss =? rows)%nat;
  call (mulsub_all c xx alpha).

(** ** One round *)

Section Round.
Context (point_R : key -> key -> key -> list ge_cached -> exc key).

(** The entries of [toHash] for the rows of [Ip], with [R], and for the others, without. *)
Fixpoint free_entries (c_old : key) (pk ss : keyV) : exc keyV :=
  match pk, ss with
  | p :: pk, s :: ss =>
      L <~ addKeys2 s c_old p;
      rest <~ free_entries c_old pk ss;
      ret (p :: L :: rest)
  | _, _ => ret []
  end.

Fixpoint column_entries (c_old : key) (Ip : list (list ge_cached)) (pk ss : keyV) : exc keyV :=
  match Ip with
  | Ij :: Ip =>
      p <~ call (hd_error pk);
      s <~ call (hd_error ss);
      L <~ addKeys2 s c_old p;
      R <~ point_R s c_old p Ij;
      rest <~ column_entries c_old Ip (tail pk) (tail ss);
      ret (p :: L :: R :: rest)
  | [] => free_entries c_old pk ss
  end.
End Round.

(** [R] as [MLSAG_Gen] computes it, through the bytes of the hash point, and as [MLSAG_Ver] does. *)
Definition gen_R (s c_old p : key) (Ij : list ge_cached) : exc key :=
  Hi_p3 <~ call (hash_to_p3 p);
  Hi <~ call (ge_p3_tobytes Hi_p3);
  addKeys3 s Hi c_old Ij.

Definition ver_R (s c_old p : key) (Ij : list ge_cached) : exc key :=
  call (
    hash8_p3 ← hash_to_p3 p;
    R_p2 ← ge_double_scalarmult_precomp_vartime s hash8_p3 c_old Ij;
    ge_tobytes R_p2).

(** ** Generation *)

(** The rows of the signer with a key image: [alpha], the entries of [toHash], [rv.II] and [Ip]. *)
Fixpoint first_linked (kLRki : option multisig_kLRki) (dsRows : nat) (pk xx : keyV) (tape : list key)
  : exc (keyV * keyV * keyV * list (list ge_cached) * list key) :=
  match dsRows with
  | O => ret ([], [], [], [], tape)
  | S dsRows =>
      p <~ call (hd_error pk);
      x <~ call (hd_error xx);
      '(a, aG, aHP, II, tape) <~ (match kLRki with
        | Some ms => ret (ms_k ms, ms_L ms, ms_R ms, ms_ki ms, tape)
        | None =>
            Hi_p3 <~ call (hash_to_p3 p);
            Hi <~ call (ge_p3_tobytes Hi_p3);
            mlsag_prepare Hi x tape
        end);
      Ij <~ precomp II;
      '(alpha, th, IIs, Ip, tape) <~ first_linked kLRki dsRows (tail pk) (tail xx) tape;
      ret (a :: alpha, p :: aG :: aHP :: th, II :: IIs, Ij :: Ip, tape)
  end.

(** The other rows of the signer. *)
Fixpoint first_free (pk : keyV) (tape : list key) : exc (keyV * keyV * list key) :=
  match pk with
  | [] => ret ([], [], tape)
  | p :: pk =>
      '(a, aG, tape) <~ call (skpkGen tape);
      '(alpha, th, tape) <~ first_free pk tape;
      ret (a :: alpha, p :: aG :: th, tape)
  end.

Definition mlsag_round (message : key) (pk : keyM) (Ip : list (list ge_cached)) (i : nat) (c_old : key) (ss : keyV) : exc key :=
  col <~ call (pk !! i);
  entries <~ column_entries gen_R c_old Ip col ss;
  call (mlsag_hash (message :: entries)).

(** The signature and [*mscout]. *)
Definition MLSAG_Gen (message : key) (pk : keyM) (xx : keyV) (kLRki : option multisig_kLRki) (mscout : bool)
    (index dsRows : nat) (tape : list key) : exc (mgSig * key * list key) :=
  let cols := length pk in
  let multisig := match kLRki with Some _ => true | None => false end in
  _ <~ check (2 <=? cols)%nat;
  _ <~ check (index <? cols)%nat;
  pk0 <~ call (hd_error pk);
  let rows := length pk0 in
  _ <~ check (1 <=? rows)%nat;
  _ <~ check (forallb (fun col => length col =? rows)%nat (tail pk));
  _ <~ check (length xx =? rows)%nat;
  _ <~ check (dsRows <=? rows)%nat;
  _ <~ check ((multisig && mscout) || (negb multisig && negb mscout));
  _ <~ check (negb multisig || (dsRows =? 1)%nat);
  own <~ call (pk !! index);
  '(alpha, th, II, Ip, tape) <~ first_linked kLRki dsRows own xx tape;
  '(alpha', th', tape) <~ first_free (drop dsRows own) tape;
  c_old <~ call (mlsag_hash (message :: th ++ th'));
  let i := ((index + 1) mod cols)%nat in
  st <~ ring_loop (skvGen rows) (mlsag_round message pk Ip) cols index cols i
    (mk_ring c_old (replicate cols (replicate rows zero)) (if (i =? 0)%nat then Some c_old else None) tape);
  ss <~ call (r_s st !! index);
  ss <~ mlsag_sign (r_c st) xx (alpha ++ alpha') rows dsRows ss;
  cc <~ call (r_c1 st);
  ret (mk_mg (<[index := ss]> (r_s st)) cc II, r_c st, r_tape st).

(** ** Verification *)

(** [CHECK_AND_ASSERT_MES(c, false, ...)]. *)
Definition require (c : bool) (k : exc bool) : exc bool := if c then k else ret false.

(** The inner [None] of the result is a key image that is refused. *)
Fixpoint image_precomp (II : keyV) : exc (option (list (list ge_cached))) :=
  match II with
  | [] => ret (Some [])
  | ki :: II =>
      if key_eq ki identity then ret None else
      p <~ precomp ki;
      Ip <~ image_precomp II;
      ret (option_map (cons p) Ip)
  end.

(** [while (i < cols)], [None] when a challenge is zero. *)
Fixpoint mlsag_loop (message : key) (Ip : list (list ge_cached)) (pk ss : keyM) (c_old : key) : exc (option key) :=
  match pk with
  | [] => ret (Some c_old)
  | col :: pk =>
      s <~ call (hd_error ss);
      entries <~ column_entries ver_R c_old Ip col s;
      c <~ call (hash_to_scalarV (message :: entries));
      if key_eq c zero then ret None else
      mlsag_loop message Ip pk (tail ss) c
  end.

Definition MLSAG_Ver (message : key) (pk : keyM) (rv : mgSig) (dsRows : nat) : exc bool :=
  let cols := length pk in
  require (2 <=? cols)%nat (
  pk0 <~ call (hd_error pk);
  let rows := length pk0 in
  require (1 <=? rows)%nat (
  require (forallb (fun col => length col =? rows)%nat (tail pk)) (
  require (length (mg_II rv) =? dsRows)%nat (
  require (length (mg_ss rv) =? cols)%nat (
  require (forallb (fun col => length col =? rows)%nat (mg_ss rv)) (
  require (dsRows <=? rows)%nat (
  require (forallb (forallb (fun s => sc_check s =? 0)) (mg_ss rv)) (
  require (sc_check (mg_cc rv) =? 0) (
  o <~ image_precomp (mg_II rv);
  match o with
  | None => ret false
  | Some Ip =>
      o <~ mlsag_loop message Ip pk (mg_ss rv) (mg_cc rv);
      match o with
      | None => ret false
      | Some c => call (c ← sc_sub c (mg_cc rv); Some (sc_isnonzero c =? 0))
      end
  end))))))))).

(** ** The matrices of the RingCT signatures *)

(** The last entry of a column: the commitments of the inputs, less those of the outputs and the fee. *)
Fixpoint add_masks (acc : key) (ks : list ctkey) : exc key :=
  match ks with
  | [] => ret acc
  | k :: ks => acc <~ addKeys acc (mask k); add_masks acc ks
  end.

Fixpoint sub_masks (acc : key) (ks : list ctkey) : exc key :=
  match ks with
  | [] => ret acc
  | k :: ks => acc <~ subKeys acc (mask k); sub_masks acc ks
  end.

Definition full_column (outPk : list ctkey) (txnFeeKey : key) (col : list ctkey) : exc keyV :=
  last <~ add_masks identity col;
  last <~ sub_masks last outPk;
  last <~ subKeys last txnFeeKey;
  ret (map dest col ++ [last]).

Fixpoint full_matrix (outPk : list ctkey) (txnFeeKey : key) (pubs : list (list ctkey)) : exc keyM :=
  match pubs with
  | [] => ret []
  | col :: pubs => c <~ full_column outPk txnFeeKey col; M <~ full_matrix outPk txnFeeKey pubs; ret (c :: M)
  end.

Fixpoint sc_add_all (acc : key) (ks : list ctkey) : option key :=
  match ks with
  | [] => Some acc
  | k :: ks => acc ← sc_add acc (mask k); sc_add_all acc ks
  end.

Fixpoint sc_sub_all (acc : key) (ks : list ctkey) : option key :=
  match ks with
  | [] => Some acc
  | k :: ks => acc ← sc_sub acc (mask k); sc_sub_all acc ks
  end.

Definition proveRctMG (message : key) (pubs : list (list ctkey)) (inSk outSk outPk : list ctkey) (kLRki : option multisig_kLRki)
    (mscout : bool) (index : nat) (txnFeeKey : key) (tape : list key) : exc (mgSig * key * list key) :=
  let multisig := match kLRki with Some _ => true | None => false end in
  _ <~ check (1 <=? length pubs)%nat;
  pubs0 <~ call (hd_error pubs);
  let rows := length pubs0 in
  _ <~ check (1 <=? rows)%nat;
  _ <~ check (forallb (fun col => length col =? rows)%nat (tail pubs));
  _ <~ check (length inSk =? rows)%nat;
  _ <~ check (length outSk =? length outPk)%nat;
  _ <~ check ((multisig && mscout) || (negb multisig && negb mscout));
  M <~ full_matrix outPk txnFeeKey pubs;
  sk <~ call (s ← sc_add_all sc_0 inSk; sc_sub_all s outSk);
  MLSAG_Gen message M (map dest inSk ++ [sk]) kLRki mscout index rows tape.

Fixpoint simple_matrix (Cout : key) (pubs : list ctkey) : exc keyM :=
  match pubs with
  | [] => ret []
  | k :: pubs => c <~ subKeys (mask k) Cout; M <~ simple_matrix Cout pubs; ret ([dest k; c] :: M)
  end.

Definition proveRctMGSimple (message : key) (pubs : list ctkey) (inSk : ctkey) (a Cout : key) (kLRki : option multisig_kLRki)
    (mscout : bool) (index : nat) (tape : list key) : exc (mgSig * key * list key) :=
  let multisig := match kLRki with Some _ => true | None => false end in
  _ <~ check (1 <=? length pubs)%nat;
  _ <~ check ((multisig && mscout) || (negb multisig && negb mscout));
  sk1 <~ call (sc_sub (mask inSk) a);
  M <~ simple_matrix Cout pubs;
  MLSAG_Gen message M [dest inSk; sk1] kLRki mscout index 1 tape.

Definition verRctMG (mg : mgSig) (pubs : list (list ctkey)) (outPk : list ctkey) (txnFeeKey message : key) : exc bool :=
  require (1 <=? length pubs)%nat (
  pubs0 <~ call (hd_error pubs);
  let rows := length pubs0 in
  require (1 <=? rows)%nat (
  require (forallb (fun col => length col =? rows)%nat (tail pubs)) (
  M <~ full_matrix outPk txnFeeKey pubs;
  MLSAG_Ver message M mg rows))).

Fixpoint ver_simple_matrix (Ccached : ge_cached) (pubs : list ctkey) : exc keyM :=
  match pubs with
  | [] => ret []
  | k :: pubs =>
      p3 <~ ge_frombytes_vartime (mask k);
      c <~ call (p1 ← ge_sub p3 Ccached; p3 ← ge_p1p1_to_p3 p1; ge_p3_tobytes p3);
      M <~ ver_simple_matrix Ccached pubs;
      ret ([dest k; c] :: M)
  end.

Definition verRctMGSimple (message : key) (mg : mgSig) (pubs : list ctkey) (C : key) : option bool :=
  catch (require (1 <=? length pubs)%nat (
    Cp3 <~ ge_frombytes_vartime C;
    Ccached <~ call (ge_p3_to_cached Cp3);
    M <~ ver_simple_matrix Ccached pubs;
    MLSAG_Ver message M mg 1)) false.

(** ** Multisig *)

(** The loop of [signMultisigMLSAG] for one signature. *)
Definition mg_share (mg : mgSig) (index : nat) (c secret_key k : key) : option mgSig :=
  diff ← sc_mulsub c secret_key k;
  col ← mg_ss mg !! index;
  old ← hd_error col;
  s ← sc_add old diff;
  Some (mk_mg (<[index := s :: tail col]> (mg_ss mg)) (mg_cc mg) (mg_II mg)).
End Mlsag.
