(* ===== verification/MlsagCorrect.v ===== *)
(** What MLSAG signing and verification compute on a matrix of points: the challenges
    around the ring, their closure for a generated signature and the verdict of
    [MLSAG_Ver]; and that the signatures of [proveRctMG] and [proveRctMGSimple] verify
    when the amounts of the inputs and outputs balance. *)
From S2P Require Import Prelude Limbs Pack Scalar ScalarCorrect Group Fe Curve Ge GeCorrect GeEncode GeMult GeMultCorrect.
From S2P Require Import GeTables GeScalarmult GeFromFe GeTheorems CurveOrder Keccak KeccakCorrect Varint Encoding Crypto CryptoCorrect CryptoTheorems.
From S2P Require Import RctData RctTables Exc RctOps RctOpsCorrect Borromean BorromeanCorrect RingLoop Clsag ClsagCorrect Mlsag.

Local Open Scope Z_scope.

Module MlsagCorrect.
Import Limbs Pack Scalar ScalarCorrect Group Fe Curve Ge GeCorrect GeEncode GeMult GeMultCorrect.
Import GeTables GeScalarmult GeFromFe GeTheorems Finite CurveOrder Keccak KeccakCorrect Varint Encoding Crypto CryptoCorrect CryptoTheorems.
Import RctData RctTables Exc RctOps RctOpsCorrect BorromeanCorrect RingLoop Clsag ClsagCorrect Mlsag.
Local Open Scope group_scope.

(** A column: its points, each with the point that it hashes to. *)
Abbreviation column := (list (point * point)).

Definition col_keys (col : column) : keyV := map (fun m => enc m.1) col.

Lemma length_keys col : length (col_keys col) = length col.
Proof. apply length_map. Qed.

(** The entries that a column contributes to the hash, for the responses [ss] and the challenge [c]. *)
Definition linked (c s : Z) (m : point * point) (ki : point) : point := smul (s mod ell) m.2 ⊕ smul (c mod ell) ki.

Fixpoint entries (c : Z) (KIs : list point) (col : column) (ss : list Z) : keyV :=
  match col, ss with
  | m :: col, s :: ss =>
      match KIs with
      | ki :: KIs => enc m.1 :: enc (comb s c m.1) :: enc (linked c s m ki) :: entries c KIs col ss
      | [] => enc m.1 :: enc (comb s c m.1) :: entries c [] col ss
      end
  | _, _ => []
  end.

Lemma entries_bytes c KIs col ss : Forall (Forall is_byte) (entries c KIs col ss).
Proof.
  revert KIs ss. induction col as [| m col IH]; intros KIs [| s ss]; [constructor .. |].
  destruct KIs; cbn [entries]; repeat (constructor; [apply enc_bytes |]); apply IH.
Qed.

Lemma free_entries_ok c col ss : length col = length ss ->
  free_entries (sbytes c) (col_keys col) (map sbytes ss) = ret (entries c [] col ss).
Proof.
  revert ss. induction col as [| m col IH]; intros [| s ss] L; try discriminate L; [done |].
  cbn [col_keys map free_entries entries]. rewrite addKeys2_sbytes. ebind. unfold col_keys in IH. rewrite IH by by injection L. by ebind.
Qed.

(** What the computation of [R] must give. *)
Definition computes_R (point_R : key -> key -> key -> list ge_cached -> exc key) : Prop := forall s c m t ki, member m -> table_ok t ki ->
  point_R (sbytes s) (sbytes c) (enc m.1) t = ret (enc (linked c s m ki)).

Lemma gen_R_ok : computes_R gen_R.
Proof.
  intros s c m t ki Hm Ht. unfold gen_R. destruct (hash_to_p3_ok (enc m.1) (proj2 (enc_bytes _))) as (h & -> & Q & HQ & EQ). ebind.
  rewrite (to_enc3 _ _ HQ), (proj2 (enc_eq _ _) (hashes_to_unique _ _ _ EQ Hm)). ebind.
  rewrite (addKeys3_ok _ _ _ _ _ (sbytes_ok s) (sbytes_ok c) Ht). by rewrite !sbytes_val.
Qed.

Lemma ver_R_ok : computes_R ver_R.
Proof.
  intros s c m t ki Hm Ht. unfold ver_R. run (hash_to_p3_ok (enc m.1) (proj2 (enc_bytes _))) as h (Q & HQ & EQ).
  apply (p3_rep_proper h _ _ (hashes_to_unique _ _ _ EQ Hm)) in HQ.
  run (ge_double_precomp_ok _ _ (sbytes_ok s) (sbytes_ok c) _ _ _ _ HQ Ht) as r Hr. rewrite !sbytes_val in Hr. by rewrite (to_enc2 _ _ Hr).
Qed.

Lemma column_entries_ok point_R c Ip KIs col ss : computes_R point_R -> Forall member col -> Forall2 table_ok Ip KIs ->
  length col = length ss -> (length KIs <= length col)%nat ->
  column_entries point_R (sbytes c) Ip (col_keys col) (map sbytes ss) = ret (entries c KIs col ss).
Proof.
  intros HR Hc HF. revert col ss Hc. induction HF as [| t ki Ip KIs Ht _ IH]; intros col ss Hc L Lk.
  { cbn [column_entries]. rewrite free_entries_ok by done. by destruct col, ss. }
  destruct col as [| m col]; [simpl in Lk; lia |]. destruct ss as [| s ss]; [discriminate L |]. apply Forall_cons_iff in Hc as [Hm Hc].
  cbn [col_keys map column_entries hd_error tail entries]. do 2 ebind. rewrite addKeys2_sbytes. ebind. rewrite (HR s c m t ki Hm Ht). ebind.
  fold (col_keys col). rewrite IH; [by ebind | done | by injection L | simpl in Lk; lia].
Qed.

Section Ring.
Context (message : key) (message_bytes : is_bytes 32 message) (KIs : list point).

Definition next (c : Z) (r : column * list Z) : Z := hs (concat (message :: entries c KIs r.1 r.2)).

Lemma next_hash c col ss : hash_to_scalarV (message :: entries c KIs col ss) = Some (sbytes (next c (col, ss))).
Proof. apply hash_to_scalarV_ok. constructor; [apply message_bytes | apply entries_bytes]. Qed.

Fixpoint usable (c : Z) (l : list (column * list Z)) : bool :=
  match l with
  | [] => true
  | r :: l => negb (next c r mod ell =? 0) && usable (next c r) l
  end.

(** A column of the matrix: [rows] points, the first of which have the key images. *)
Definition good_column (rows : nat) (col : column) : Prop := Forall member col /\ length col = rows.

Lemma mlsag_loop_ok rows Ip cols sss c : Forall2 table_ok Ip KIs -> (length KIs <= rows)%nat -> Forall (good_column rows) cols ->
  length cols = length sss -> Forall (fun ss => length ss = rows) sss ->
  mlsag_loop message Ip (map col_keys cols) (map (map sbytes) sss) (sbytes c) =
  ret (if usable c (zip cols sss) then Some (sbytes (chain next c (zip cols sss))) else None).
Proof.
  intros HF Hk Hc. revert sss c. induction Hc as [| col cols [Hm Lc] _ IH]; intros [| ss sss] c L Hs; try discriminate L; [done |].
  apply Forall_cons_iff in Hs as [Ls Hs]. cbn [map mlsag_loop hd_error tail zip_with]. ebind.
  rewrite (column_entries_ok _ c Ip KIs col ss ver_R_ok Hm HF) by lia. ebind. rewrite next_hash. ebind. rewrite key_eq_zero.
  cbn [usable]. destruct (next c (col, ss) mod ell =? 0); cbn [negb andb]; [done |]. apply IH; [by injection L | done].
Qed.

(** ** The verdict *)

Definition accepts (cols : list column) (sss : list (list Z)) (cc : Z) : bool :=
  forallb (fun ki => negb (key_eq (enc ki) identity)) KIs && usable cc (zip cols sss) && (chain next cc (zip cols sss) mod ell =? cc mod ell).

Lemma image_precomp_ok : exists Ip, Forall2 table_ok Ip KIs /\
  image_precomp (map enc KIs) = ret (if forallb (fun ki => negb (key_eq (enc ki) identity)) KIs then Some Ip else None).
Proof.
  induction KIs as [| ki kis (Ip & HF & E)]; [by exists [] |]. destruct (precomp_ok ki) as (t & Et & Ht). exists (t :: Ip).
  split; [by constructor |]. cbn [map image_precomp forallb]. destruct (key_eq (enc ki) identity); cbn [negb andb]; [done |].
  rewrite Et. ebind. rewrite E. ebind. by destruct (forallb _ kis).
Qed.

Lemma rectangular rows cols : Forall (good_column rows) cols -> forallb (fun col => length col =? rows)%nat (map col_keys cols) = true.
Proof.
  intros H. induction H as [| col cols [_ L] _ IH]; [done |]. cbn [map forallb].
  by rewrite length_keys, L, Nat.eqb_refl.
Qed.

Lemma matrix_shape rows cols : Forall (good_column rows) cols -> (0 < length cols)%nat -> exists k, hd_error (map col_keys cols) = Some k /\
  length k = rows /\ forallb (fun col => length col =? rows)%nat (tail (map col_keys cols)) = true.
Proof.
  intros [| col cols' [_ L] H]; [simpl; lia |]. intros _. exists (col_keys col). split; [done |].
  split; [by rewrite length_keys | by apply rectangular].
Qed.

Lemma responses_ok rows sss : Forall (fun ss : list Z => length ss = rows) sss ->
  forallb (fun col => length col =? rows)%nat (map (map sbytes) sss) = true /\
  forallb (forallb (fun s => sc_check s =? 0)) (map (map sbytes) sss) = true.
Proof.
  intros H. induction H as [| ss sss L _ [E1 E2]]; [done |]. cbn [map forallb].
  by rewrite length_map, L, Nat.eqb_refl, sc_check_all, E1, E2.
Qed.

Lemma require_true k : require true k = k.
Proof. reflexivity. Qed.

Lemma MLSAG_Ver_ok rows cols sss cc : (2 <= length cols)%nat -> (1 <= rows)%nat -> Forall (good_column rows) cols ->
  (length KIs <= rows)%nat -> length sss = length cols -> Forall (fun ss => length ss = rows) sss ->
  MLSAG_Ver message (map col_keys cols) (mk_mg (map (map sbytes) sss) (sbytes cc) (map enc KIs)) (length KIs) = ret (accepts cols sss cc).
Proof.
  intros Hn Hr Hc Hk L Hs. unfold MLSAG_Ver. cbn [mg_ss mg_cc mg_II]. rewrite !length_map.
  rewrite (proj2 (Nat.leb_le _ _)) by done. rewrite require_true.
  destruct cols as [| col cols]; [simpl in Hn; lia |]. pose proof Hc as [[_ Lc] Hc']%Forall_cons_iff. cbn [map hd_error tail]. ebind.
  rewrite !length_keys, Lc. rewrite (proj2 (Nat.leb_le _ _)) by done. rewrite require_true.
  rewrite (rectangular rows cols Hc'), !Nat.eqb_refl, L, Nat.eqb_refl, !require_true.
  destruct (responses_ok rows sss Hs) as [-> ->]. rewrite (proj2 (Nat.leb_le _ _)) by done. rewrite sc_check_sbytes, Z.eqb_refl, !require_true.
  destruct image_precomp_ok as (Ip & HF & ->). ebind. unfold accepts.
  destruct (forallb _ KIs); cbn [andb]; [| done].
  change (col_keys col :: map col_keys cols) with (map col_keys (col :: cols)).
  rewrite (mlsag_loop_ok rows Ip (col :: cols) sss cc HF Hk Hc (eq_sym L) Hs). ebind.
  destruct (usable cc _); cbn [andb]; [| done]. rewrite sub_sbytes. bind. rewrite isnonzero_sbytes, call_Some.
  apply (f_equal Some), (f_equal Some), eq_true_iff_eq. rewrite !Z.eqb_eq. apply mod_sub_0.
Qed.

(** ** Generation *)

Lemma mlsag_round_ok rows Ip cols i col c ss : Forall2 table_ok Ip KIs -> (length KIs <= rows)%nat -> Forall (good_column rows) cols ->
  cols !! i = Some col -> length ss = rows ->
  mlsag_round message (map col_keys cols) Ip i (sbytes c) (map sbytes ss) = ret (sbytes (next c (col, ss))).
Proof.
  intros HF Hk Hc Ec Ls. assert (Hg : good_column rows col) by by eapply list.Forall_lookup in Ec. destruct Hg as [Hm Lc].
  unfold mlsag_round. rewrite list_lookup_fmap, Ec. cbn [fmap option_fmap option_map]. ebind.
  rewrite (column_entries_ok _ c Ip KIs col ss gen_R_ok Hm HF) by lia. ebind. unfold mlsag_hash. by rewrite next_hash.
Qed.
End Ring.

(** The entries of the signer: the commitments to the nonces. *)
Definition linked_commits (col : column) (al : list Z) : keyV :=
  concat (zip_with (fun m a => [enc m.1; enc (smul a base_point); enc (smul a m.2)]) col al).

Definition free_commits (col : column) (al : list Z) : keyV :=
  concat (zip_with (fun m a => [enc m.1; enc (smul a base_point)]) col al).

Lemma commits_bytes col1 al1 col2 al2 : Forall (Forall is_byte) (linked_commits col1 al1 ++ free_commits col2 al2).
Proof.
  apply Forall_app. split; apply Forall_concat, list.Forall_forall; intros x (m & a & -> & _ & _)%elem_of_zip_with;
    repeat (constructor; [apply enc_bytes |]); constructor.
Qed.

Definition responses (c : Z) (al xs : list Z) : list Z := zip_with (fun a x => a - c * x) al xs.

Lemma linked_own c a x m ki : prime_order m.2 -> ki ≃ smul x m.2 -> linked c (a - c * x) m ki ≃ smul a m.2.
Proof. intros Hp Hk. unfold linked. rewrite Hk, gadd_comm. by apply schnorr_equation. Qed.

Lemma free_own c col al xs : Forall2 (fun m x => m.1 ≃ smul x base_point) col xs -> length al = length xs ->
  entries c [] col (responses c al xs) = free_commits col al.
Proof.
  intros H. revert al. induction H as [| m x col xs Hx _ IH]; intros [| a al] L; try discriminate L; [done |].
  unfold responses, free_commits. cbn [zip_with entries concat app]. fold (responses c al xs) (free_commits col al). rewrite IH by by injection L.
  by rewrite (Z.mul_comm c x), (proj2 (enc_eq _ _) (comb_own a c x _ Hx)).
Qed.

Lemma entries_own c KIs col1 col2 al1 al2 xs1 xs2 : Forall member col1 -> Forall2 (fun m x => m.1 ≃ smul x base_point) col1 xs1 ->
  Forall2 (fun m x => m.1 ≃ smul x base_point) col2 xs2 -> Forall2 (fun ki mx => ki ≃ smul mx.2 mx.1.2) KIs (zip col1 xs1) ->
  length al1 = length xs1 -> length al2 = length xs2 ->
  entries c KIs (col1 ++ col2) (responses c (al1 ++ al2) (xs1 ++ xs2)) = linked_commits col1 al1 ++ free_commits col2 al2.
Proof.
  intros Hm H1 H2. revert KIs al1 Hm. induction H1 as [| m x col1 xs1 Hx _ IH]; intros KIs [| a al1] Hm HK L1 L2; try discriminate L1.
  - inversion HK. subst. by apply free_own.
  - inversion HK as [| ki ? KIs' ? Hki HK']; subst. apply Forall_cons_iff in Hm as [Hm Hms]. cbn [fst snd] in Hki.
    unfold responses, linked_commits. cbn [app zip_with entries concat]. fold (responses c (al1 ++ al2) (xs1 ++ xs2)) (linked_commits col1 al1).
    rewrite IH by (done || by injection L1). rewrite (proj2 (enc_eq _ _) (linked_own c a x m ki (hashes_to_prime _ _ Hm) Hki)).
    by rewrite (Z.mul_comm c x), (proj2 (enc_eq _ _) (comb_own a c x _ Hx)).
Qed.

(** A nonce and its commitment. *)
Lemma draw_pair k tape : has_scalars (S k) tape ->
  exists a tape', skpkGen tape = Some (sbytes a, enc (smul a base_point), tape') /\ has_scalars k tape'.
Proof.
  intros H. destruct (draw_scalar k tape H) as (a & t & E & _ & H1). exists a, t. split; [| done]. unfold skpkGen.
  destruct (skGen tape) as [[r t'] |]; [| discriminate E]. rewrite call_Some in E. apply (inj Some), (inj Some) in E. rewrite E. bind.
  rewrite scalarmultBase_sbytes. by bind.
Qed.

Lemma first_linked_ok col rest xs xrest tape k : Forall member col -> length xs = length col -> has_scalars (length col + k) tape ->
  exists al KIs Ip tape', length al = length col /\ Forall2 table_ok Ip KIs /\ Forall2 (fun ki mx => ki ≃ smul mx.2 mx.1.2) KIs (zip col xs) /\
  has_scalars k tape' /\ first_linked None (length col) (col_keys (col ++ rest)) (map sbytes (xs ++ xrest)) tape =
    ret (map sbytes al, linked_commits col al, map enc KIs, Ip, tape').
Proof.
  intros Hm. revert xs tape. induction Hm as [| m col Hm _ IH]; intros [| x xs] tape L H; try discriminate L.
  { exists [], [], [], tape. split; [done |]. split; [constructor |]. split; [constructor |]. by split. }
  destruct (draw_pair _ tape H) as (a & t & Ea & H1). pose proof (hashes_to_prime _ _ Hm) as Hp.
  destruct (IH xs t) as (al & KIs & Ip & t' & La & HF & HK & H2 & E); [by injection L | done |].
  set (ki := smul (x mod ell) m.2). destruct (precomp_ok ki) as (tk & Ek & Hk). exists (a :: al), (ki :: KIs), (tk :: Ip), t'.
  split; [simpl; lia |]. split; [by constructor |]. split; [constructor; [by apply smul_mod | done] |]. split; [done |].
  cbn [length first_linked app col_keys map hd_error tail]. do 2 ebind.
  destruct (hash_to_p3_ok (enc m.1) (proj2 (enc_bytes _))) as (h & -> & Q & HQ & EQ). ebind.
  rewrite (to_enc3 _ _ HQ), (proj2 (enc_eq _ _) (hashes_to_unique _ _ _ EQ Hm)). ebind. unfold mlsag_prepare. rewrite Ea. ebind.
  rewrite !scalarmultKey_ok by apply sbytes_ok. do 3 ebind. rewrite !sbytes_val. fold ki. rewrite Ek. ebind.
  unfold col_keys in E. rewrite E. ebind. unfold linked_commits. cbn [zip_with concat app].
  by rewrite (proj2 (enc_eq _ _) (smul_mod a m.2 Hp)).
Qed.

Lemma first_free_ok col tape k : has_scalars (length col + k) tape -> exists al tape', length al = length col /\
  first_free (col_keys col) tape = ret (map sbytes al, free_commits col al, tape') /\ has_scalars k tape'.
Proof.
  revert tape. induction col as [| m col IH]; intros tape H; [by exists [], tape |].
  destruct (draw_pair _ tape H) as (a & t & Ea & H1). destruct (IH t H1) as (al & t' & La & E & H2). exists (a :: al), t'.
  split; [simpl; lia |]. split; [| done]. cbn [col_keys map first_free]. rewrite Ea. ebind. unfold col_keys in E. rewrite E. by ebind.
Qed.

Lemma skv_loop_ok rows tape k : has_scalars (rows + k) tape -> exists ss tape', length ss = rows /\
  skv_loop rows tape = Some (map sbytes ss, tape') /\ has_scalars k tape'.
Proof.
  revert tape. induction rows as [| rows IH]; intros tape H; [by exists [], tape |].
  destruct (draw_scalar _ tape H) as (a & t & E & _ & H1). destruct (IH t H1) as (ss & t' & Ls & E' & H2). exists (a :: ss), t'.
  split; [simpl; lia |]. split; [| done]. cbn [skv_loop]. destruct (skGen tape) as [[r t2] |]; [| discriminate E].
  rewrite call_Some in E. apply (inj Some), (inj Some) in E. injection E as -> ->. bind. rewrite E'. by bind.
Qed.

Lemma draw_column rows k tape : (1 <= rows)%nat -> has_scalars (rows * S k) tape ->
  exists ss tape', skvGen rows tape = ret (map sbytes ss, tape') /\ length ss = rows /\ has_scalars (rows * k) tape'.
Proof.
  intros Hr H. replace (rows * S k)%nat with (rows + rows * k)%nat in H by lia. destruct (skv_loop_ok rows tape _ H) as (ss & t & L & E & H1).
  exists ss, t. split; [| done]. unfold skvGen. rewrite (proj2 (Nat.ltb_lt _ _)) by lia. rewrite check_true. ebind. by rewrite E.
Qed.

Lemma mulsub_all_ok c xs al : length al = length xs -> mulsub_all (sbytes c) (map sbytes xs) (map sbytes al) = Some (map sbytes (responses c al xs)).
Proof.
  revert al. induction xs as [| x xs IH]; intros [| a al] L; try discriminate L; [done |].
  cbn [map mulsub_all]. rewrite mulsub_sbytes. bind. rewrite IH by by injection L. by bind.
Qed.

Lemma mlsag_sign_ok c xs al rows ds ss : length xs = rows -> length al = rows -> length ss = rows -> (ds <= rows)%nat ->
  mlsag_sign (sbytes c) (map sbytes xs) (map sbytes al) rows ds ss = ret (map sbytes (responses c al xs)).
Proof.
  intros L1 L2 L3 Hd. unfold mlsag_sign. rewrite !length_map, L1, L2, L3, Nat.eqb_refl, (proj2 (Nat.leb_le _ _)), check_true by done.
  do 4 ebind. by rewrite mulsub_all_ok by congruence.
Qed.

(** ** A generated signature *)

Section Generated.
Context (message : key) (message_bytes : is_bytes 32 message) (cols1 cols2 : list column) (col1 col2 : column) (xs1 xs2 : list Z).
Let own := col1 ++ col2.
Let rows := length own.
Let cols := cols1 ++ own :: cols2.
Context (hrows : (1 <= rows)%nat) (hcols : (2 <= length cols)%nat) (hgood : Forall (good_column rows) cols).
Context (hx1 : Forall2 (fun m x => m.1 ≃ smul x base_point) col1 xs1) (hx2 : Forall2 (fun m x => m.1 ≃ smul x base_point) col2 xs2).

Lemma own_members : Forall member col1 /\ Forall member col2.
Proof. pose proof hgood as [_ [[H _] _]%Forall_cons_iff]%Forall_app. by apply Forall_app in H. Qed.

(** What a signature of the owner of [xs] is. *)
Definition signature_for (KIs : list point) (sss : list (list Z)) (cc : Z) : Prop :=
  Forall2 (fun ki mx => ki ≃ smul mx.2 mx.1.2) KIs (zip col1 xs1) /\ length sss = length cols /\
  Forall (fun ss => length ss = rows) sss /\ chain (next message KIs) cc (zip cols sss) = cc.

Lemma mlsag_ring_closes KIs al1 al2 sss1 sss2 : length al1 = length col1 -> length al2 = length col2 ->
  Forall2 (fun ki mx => ki ≃ smul mx.2 mx.1.2) KIs (zip col1 xs1) ->
  length sss1 = length cols1 -> length sss2 = length cols2 -> Forall (fun ss => length ss = rows) (sss1 ++ sss2) ->
  let c0 := hs (concat (message :: linked_commits col1 al1 ++ free_commits col2 al2)) in
  let cc := chain (next message KIs) c0 (zip cols2 sss2) in let c := chain (next message KIs) cc (zip cols1 sss1) in
  signature_for KIs (sss1 ++ responses c (al1 ++ al2) (xs1 ++ xs2) :: sss2) cc.
Proof.
  intros L1 L2 HK Ls1 Ls2 Hs c0 cc c. pose proof (Forall2_length hx1) as Lx1. pose proof (Forall2_length hx2) as Lx2.
  apply Forall_app in Hs as [Hs1 Hs2]. split; [done |]. split; [unfold cols; rewrite !length_app; simpl; lia |]. split.
  - apply Forall_app_2; [done |]. constructor; [| done]. unfold responses, rows, own. rewrite length_zip_with, !length_app. lia.
  - unfold cols. rewrite zip_with_app by done. cbn [zip_with]. unfold chain. rewrite foldl_app. cbn [foldl].
    change (foldl _ cc (zip cols1 sss1)) with c. unfold next at 2. cbn [fst snd]. unfold own.
    rewrite (entries_own c KIs col1 col2 al1 al2 xs1 xs2) by (try done; try apply own_members; lia). done.
Qed.

Lemma MLSAG_Gen_ok tape : has_scalars (rows * length cols) tape -> exists KIs sss cc c rest, signature_for KIs sss cc /\
  MLSAG_Gen message (map col_keys cols) (map sbytes (xs1 ++ xs2)) None false (length cols1) (length col1) tape =
  ret (mk_mg (map (map sbytes) sss) (sbytes cc) (map enc KIs), c, rest).
Proof.
  intros H. pose proof (Forall2_length hx1) as Lx1. pose proof (Forall2_length hx2) as Lx2.
  assert (Lr : rows = (length col1 + length col2)%nat) by apply length_app.
  assert (Lc : length cols = S (length cols1 + length cols2)) by (unfold cols; rewrite length_app; simpl; lia).
  replace (rows * length cols)%nat with (length col1 + (length col2 + rows * (length cols1 + length cols2 + 0)))%nat in H by (rewrite Lc; lia).
  destruct (first_linked_ok col1 col2 xs1 xs2 tape _ (proj1 own_members) (eq_sym Lx1) H) as (al1 & KIs & Ip & t1 & La1 & HF & HK & H1 & E1).
  destruct (first_free_ok col2 t1 _ H1) as (al2 & t2 & La2 & E2 & H2).
  set (c0 := hs (concat (message :: linked_commits col1 al1 ++ free_commits col2 al2))).
  assert (Lk : length KIs = length col1) by (apply Forall2_length in HK; rewrite HK, length_zip_with; lia).
  destruct (ring_loop_ok (skvGen rows) _ sbytes (map sbytes) _ (fun ss => length ss = rows) (fun k => has_scalars (rows * k)) cols (length cols1)
    (fun k t => draw_column rows k t hrows)
    (fun i q c r Em Lr' => mlsag_round_ok message message_bytes KIs rows Ip cols i q c r HF ltac:(lia) hgood Em Lr')
    cols1 own cols2 (replicate (length cols1) (replicate rows zero)) (replicate rows zero) (replicate (length cols2) (replicate rows zero)) c0 t2 0)
    as (sss1 & sss2 & rest & L1 & L2 & Os & _ & E); [done | done | apply length_replicate .. | done |].
  cbv zeta in E. change (?z :: replicate ?n ?z) with (replicate (S n) z) in E. rewrite <- replicate_add in E.
  replace (length cols1 + S (length cols2))%nat with (length cols) in E by lia.
  eexists KIs, (sss1 ++ responses _ (al1 ++ al2) (xs1 ++ xs2) :: sss2), _, _, rest. split; [by apply mlsag_ring_closes |].
  unfold MLSAG_Gen. cbv zeta. rewrite !length_map. rewrite (proj2 (Nat.leb_le _ _)) by done. rewrite check_true. ebind.
  rewrite (proj2 (Nat.ltb_lt _ _)) by lia. rewrite check_true. ebind.
  destruct (matrix_shape rows cols hgood ltac:(lia)) as (k & -> & Lk0 & Et). ebind. rewrite Lk0, Et, (proj2 (Nat.leb_le _ _)) by done. rewrite !check_true. do 2 ebind.
  rewrite length_app, <- Lx1, <- Lx2, <- Lr, Nat.eqb_refl, (proj2 (Nat.leb_le _ _)) by lia. rewrite !check_true. do 2 ebind.
  cbn [andb orb negb]. rewrite check_true. do 2 ebind.
  unfold cols at 1. rewrite map_app. cbn [map]. rewrite list_lookup_middle by by rewrite length_map. ebind.
  unfold own at 1 2. rewrite E1. ebind. unfold col_keys at 1. rewrite map_app, drop_app_length' by by rewrite length_map.
  fold (col_keys col2). rewrite E2. ebind. unfold mlsag_hash at 1.
  rewrite hash_to_scalarV_ok by (constructor; [apply message_bytes | apply commits_bytes]). ebind. fold c0. rewrite E. ebind.
  cbn [r_c r_s r_c1 r_tape]. rewrite list_lookup_middle by by rewrite length_map. ebind.
  rewrite <- map_app, mlsag_sign_ok by (rewrite ?length_app, ?length_replicate; lia). do 2 ebind. rewrite insert_at by by rewrite length_map. by rewrite map_app.
Qed.

(** A signature of the owner is accepted exactly when no key image is the identity and no challenge is zero. *)
Lemma signature_accepted KIs sss cc : signature_for KIs sss cc ->
  MLSAG_Ver message (map col_keys cols) (mk_mg (map (map sbytes) sss) (sbytes cc) (map enc KIs)) (length col1) =
  ret (forallb (fun ki => negb (key_eq (enc ki) identity)) KIs && usable message KIs cc (zip cols sss)).
Proof.
  intros (HK & Ls & Hs & E). pose proof (Forall2_length hx1) as Lx1.
  assert (Lk : length KIs = length col1) by (apply Forall2_length in HK; rewrite HK, length_zip_with; lia).
  rewrite <- Lk, (MLSAG_Ver_ok message message_bytes KIs rows) by (try done; unfold rows, own; rewrite length_app; lia).
  unfold accepts. by rewrite E, Z.eqb_refl, andb_true_r.
Qed.
End Generated.
End MlsagCorrect.
