(* ===== verification/Multiexp.v ===== *)
(** Sums of multiples of points, src/ringct/multiexp.cc: Straus' method with windows of
    four bits and a table of multiples for every point, and Pippenger's method, which
    collects the points by the digits of their scalars.

    The block of memory with the multiples is a list of tables, one for every point. A
    bucket, the pail and the result of Pippenger's method are [None] until they are set,
    which is what the flags [buckets_init], [pail_init] and [result_init] record. *)
From S2P Require Import Prelude Pack Ge Crypto RctData Exc RctOps.

Local Open Scope Z_scope.

Module Multiexp.
Import Pack Ge Crypto RctData Exc RctOps.

Record MultiexpData := mk_me { me_scalar : key; me_point : ge_p3 }.

(** The constructor that takes the bytes of the point. *)
Definition MultiexpData_key (s p : key) : exc MultiexpData :=
  point <~ ge_frombytes_vartime p;
  ret (mk_me s point).

(** ** Scalars *)

(** The loop is the one of [less32]: from the last byte down, the first difference decides. *)
Definition key_lt (k0 k1 : key) : bool := less_from 32 k0 k1.

Definition pow2 (n : nat) : exc key :=
  _ <~ check (n <? 256)%nat;
  ret (<[n / 8 := Z.lor (at_ zero (n / 8)) (Z.shiftl 1 (Z.of_nat (n mod 8)))]> zero)%nat.

Definition test (k : key) (n : nat) : Z :=
  if (256 <=? n)%nat then 0 else Z.land (at_ k (n / 8)) (Z.shiftl 1 (Z.of_nat (n mod 8))).

Definition max_scalar (data : list MultiexpData) : key :=
  foldl (fun m d => if key_lt m (me_scalar d) then me_scalar d else m) zero data.

(** [while (n < 256 && !(maxscalar < pow2(n))) n += step]. *)
Fixpoint bit_bound (fuel : nat) (maxscalar : key) (step n : nat) : exc nat :=
  match fuel with
  | O => None
  | S fuel =>
      if negb (n <? 256)%nat then ret n else
      p <~ pow2 n;
      if key_lt maxscalar p then ret n else bit_bound fuel maxscalar step (n + step)
  end.

(** ** Points *)

Definition add_cached (p3 : ge_p3) (other : ge_cached) : option ge_p3 :=
  p1 ← ge_add p3 other; ge_p1p1_to_p3 p1.

Definition add_p3 (p3 other : ge_p3) : option ge_p3 :=
  cached ← ge_p3_to_cached other; add_cached p3 cached.

(** [n] doublings, the last into [p3]. *)
Fixpoint double_p2 (n : nat) (p2 : ge_p2) : option ge_p3 :=
  match n with
  | O => None
  | S n =>
      p1 ← ge_p2_dbl p2;
      match n with
      | O => ge_p1p1_to_p3 p1
      | S _ => p2 ← ge_p1p1_to_p2 p1; double_p2 n p2
      end
  end.

Definition doubles (n : nat) (p3 : ge_p3) : option ge_p3 := double_p2 n (ge_p3_to_p2 p3).

(** ** Straus *)

Definition STRAUS_C : nat := 4.

(** The multiples of a point from the last one on, [n] more of them. *)
Fixpoint more_multiples (n : nat) (point : ge_p3) (last : ge_cached) : option (list ge_cached) :=
  match n with
  | O => Some []
  | S n =>
      p1 ← ge_add point last;
      p3 ← ge_p1p1_to_p3 p1;
      c ← ge_p3_to_cached p3;
      rest ← more_multiples n point c;
      Some (c :: rest)
  end.

Definition multiples (point : ge_p3) : option (list ge_cached) :=
  c ← ge_p3_to_cached point;
  rest ← more_multiples 14 point c;
  Some (c :: rest).

Definition straus_init_cache (data : list MultiexpData) (N : nat) : exc (list (list ge_cached)) :=
  let N := if (N =? 0)%nat then length data else N in
  _ <~ check (N <=? length data)%nat;
  call (mapM (fun d => multiples (me_point d)) (take N data)).

Definition digits (scalar : key) : list Z := concat (map (fun b => [Z.land b 15; Z.shiftr b 4]) scalar).

(** The points of a band, each with its digits and multiples, added for the digit [k]. *)
Fixpoint add_digits (k : nat) (points : list (list Z * list ge_cached)) (band : ge_p3) : option ge_p3 :=
  match points with
  | [] => Some band
  | (ds, cache) :: points =>
      digit ← ds !! k;
      band ← (if digit =? 0 then Some band else c ← cache !! Z.to_nat (digit - 1); add_cached band c);
      add_digits k points band
  end.

(** The windows from [k - 1] down; the doublings are skipped at the first. *)
Fixpoint windows (k : nat) (first : bool) (points : list (list Z * list ge_cached)) (band : ge_p3) : option ge_p3 :=
  match k with
  | O => Some band
  | S k =>
      band ← (if first then Some band else doubles STRAUS_C band);
      band ← add_digits k points band;
      windows k false points band
  end.

(** The bands of [STEP] points. *)
Fixpoint bands (fuel STEP k : nat) (points : list (list Z * list ge_cached)) (res_p3 : ge_p3) : option ge_p3 :=
  match points with
  | [] => Some res_p3
  | _ =>
      match fuel with
      | O => None
      | S fuel =>
          band ← windows k true (take STEP points) ge_p3_identity;
          res_p3 ← add_p3 res_p3 band;
          bands fuel STEP k (drop STEP points) res_p3
      end
  end.

Definition straus (data : list MultiexpData) (cache : option (list (list ge_cached))) (STEP : nat) : exc key :=
  _ <~ check (match cache with None => true | Some c => (length data <=? length c)%nat end);
  let STEP := if (STEP =? 0)%nat then 192%nat else STEP in
  local_cache <~ (match cache with None => straus_init_cache data 0 | Some c => ret c end);
  start_i <~ bit_bound 65 (max_scalar data) STRAUS_C 0;
  call (
    res_p3 ← bands (length data) STEP (start_i / STRAUS_C) (zip (map (fun d => digits (me_scalar d)) data) local_cache) ge_p3_identity;
    ge_p3_tobytes res_p3).

(** ** Pippenger *)

Definition get_pippenger_c (N : nat) : nat :=
  if (N <=? 13)%nat then 2 else if (N <=? 29)%nat then 3 else if (N <=? 83)%nat then 4 else if (N <=? 185)%nat then 5 else
  if (N <=? 465)%nat then 6 else if (N <=? 1180)%nat then 7 else if (N <=? 2295)%nat then 8 else 9.

Definition pippenger_init_cache (data : list MultiexpData) (start_offset N : nat) : exc (list ge_cached) :=
  _ <~ check (start_offset <=? length data)%nat;
  let N := if (N =? 0)%nat then (length data - start_offset)%nat else N in
  _ <~ check (N <=? length data - start_offset)%nat;
  call (mapM (fun d => ge_p3_to_cached (me_point d)) (take N (drop start_offset data))).

(** The digit [k] of a scalar, [c] bits wide. *)
Definition bucket_of (scalar : key) (k c : nat) : Z :=
  foldl (fun bucket j => if test scalar (k * c + j) =? 0 then bucket else Z.lor bucket (Z.shiftl 1 (Z.of_nat j))) 0 (seq 0 c).

(** The points put into their buckets, with their cached forms in [cached]. *)
Fixpoint fill_buckets (k c : nat) (data : list MultiexpData) (cached : list ge_cached) (buckets : list (option ge_p3))
  : exc (list (option ge_p3)) :=
  match data, cached with
  | d :: data, q :: cached =>
      let bucket := bucket_of (me_scalar d) k c in
      if bucket =? 0 then fill_buckets k c data cached buckets else
      _ <~ check (bucket <? 2 ^ Z.of_nat c);
      b <~ call (buckets !! Z.to_nat bucket);
      b <~ (match b with Some p => call (add_cached p q) | None => ret (me_point d) end);
      fill_buckets k c data cached (<[Z.to_nat bucket := Some b]> buckets)
  | _, _ => ret buckets
  end.

Definition add_to (acc : option ge_p3) (p : option ge_p3) : option (option ge_p3) :=
  match p with
  | None => Some acc
  | Some p => match acc with None => Some (Some p) | Some a => r ← add_p3 a p; Some (Some r) end
  end.

(** The buckets from [n] down to 1: the pail collects them, the result the pails. *)
Fixpoint sum_buckets (n : nat) (buckets : list (option ge_p3)) (pail result : option ge_p3) : option (option ge_p3) :=
  match n with
  | O => Some result
  | S m =>
      b ← buckets !! n;
      pail ← add_to pail b;
      result ← add_to result pail;
      sum_buckets m buckets pail result
  end.

Fixpoint groups_loop (k c : nat) (data : list MultiexpData) (cached : list ge_cached) (result : option ge_p3) : exc (option ge_p3) :=
  match k with
  | O => ret result
  | S k =>
      result <~ call (match result with None => Some None | Some r => r ← doubles c r; Some (Some r) end);
      buckets <~ fill_buckets k c data cached (replicate (2 ^ c) None);
      result <~ call (sum_buckets (2 ^ c - 1) buckets None result);
      groups_loop k c data cached result
  end.

Definition pippenger (data : list MultiexpData) (cache : option (list ge_cached)) (cache_size c : nat) : exc key :=
  let cache_size := match cache with Some l => if (cache_size =? 0)%nat then length l else cache_size | None => cache_size end in
  _ <~ check (match cache with None => true | Some l => (cache_size <=? length l)%nat end);
  let c := if (c =? 0)%nat then get_pippenger_c (length data) else c in
  _ <~ check (c <=? 9)%nat;
  local_cache <~ (match cache with None => pippenger_init_cache data 0 0 | Some l => ret l end);
  local_cache_2 <~ (if (cache_size <? length data)%nat then pippenger_init_cache data cache_size 0 else ret []);
  groups <~ bit_bound 257 (max_scalar data) 1 0;
  let groups := ((groups + c - 1) / c)%nat in
  result <~ groups_loop groups c data (take cache_size local_cache ++ local_cache_2) None;
  call (ge_p3_tobytes (default ge_p3_identity result)).
End Multiexp.
