(* ===== verification/MultiexpCorrect.v ===== *)
(** Straus' and Pippenger's methods compute the sum of the multiples of the points, for
    scalars of 32 bytes that need not be reduced. *)
From S2P Require Import Prelude Limbs Pack Scalar ScalarCorrect Group GroupSolve Fe Curve Ge GeCorrect GeEncode GeMult GeMultCorrect.
From S2P Require Import GeTables GeScalarmult GeFromFe GeTheorems CurveOrder Encoding Crypto CryptoCorrect.
From S2P Require Import RctData RctTables Exc RctOps RctOpsCorrect Multiexp.

Local Open Scope Z_scope.

Module MultiexpCorrect.
Import Limbs Pack Scalar ScalarCorrect Group GroupSolve Fe Curve Ge GeCorrect GeEncode GeMult GeMultCorrect.
Import GeTables GeScalarmult GeFromFe GeTheorems Finite CurveOrder Encoding Crypto CryptoCorrect.
Import RctData RctTables Exc RctOps RctOpsCorrect Multiexp.
Local Open Scope group_scope.

Lemma p3_eq h P Q : P ≃ Q -> p3_rep h P -> p3_rep h Q.
Proof. intros E. exact (proj1 (p3_rep_proper h _ _ E)). Qed.

(** ** Bytes, bits and digits of a scalar *)

Lemma byte_at s i : Forall is_byte s -> at_ s i = (le_combine s / 256 ^ Z.of_nat i) mod 256.
Proof.
  intros H. revert i. induction H as [| b s Hb Hs IH]; intros i.
  { unfold at_. cbn [le_combine]. by rewrite Z.div_0_l by (apply Z.pow_nonzero; lia). }
  pose proof (le_combine_bounds s Hs) as [L _]. unfold is_byte in Hb. destruct i as [| i].
  - change (at_ (b :: s) 0) with b. cbn [le_combine Z.of_nat]. rewrite Z.pow_0_r, Z.div_1_r, Z.mul_comm, Z_mod_plus_full, Z.mod_small; lia.
  - change (at_ (b :: s) (S i)) with (at_ s i). rewrite IH. cbn [le_combine].
    rewrite Nat2Z.inj_succ, Z.pow_succ_r, <- Z.div_div by lia. do 2 f_equal. rewrite Z.mul_comm, Z.div_add, Z.div_small; lia.
Qed.

Lemma testbit_at s n : Forall is_byte s -> Z.testbit (at_ s (n / 8)) (Z.of_nat (n mod 8)) = Z.testbit (le_combine s) (Z.of_nat n).
Proof.
  intros H. rewrite byte_at by done. pose proof (Nat.mod_upper_bound n 8 ltac:(lia)) as B.
  change 256 with (2 ^ 8) at 2. rewrite Z.mod_pow2_bits_low by lia.
  replace (256 ^ Z.of_nat (n / 8)) with (2 ^ (8 * Z.of_nat (n / 8))) by (rewrite Z.pow_mul_r by lia; done).
  rewrite <- Z.shiftr_div_pow2, Z.shiftr_spec by lia. f_equal. rewrite (Nat.div_mod_eq n 8) at 3. lia.
Qed.

Lemma land_bit b j : 0 <= j -> (Z.land b (Z.shiftl 1 j) =? 0) = negb (Z.testbit b j).
Proof.
  intros Hj. rewrite Z.shiftl_1_l. destruct (Z.testbit b j) eqn:T; cbn [negb].
  - apply Z.eqb_neq. intros E. apply (f_equal (fun x => Z.testbit x j)) in E. rewrite Z.land_spec, Z.pow2_bits_true, T, Z.bits_0 in E by done. done.
  - apply Z.eqb_eq. apply Z.bits_inj'. intros i Hi. rewrite Z.land_spec, Z.bits_0. destruct (decide (i = j)) as [-> | Hn]; [by rewrite T |].
    rewrite Z.pow2_bits_false by done. apply andb_false_r.
Qed.

Lemma test_ok k n : is_bytes 32 k -> (test k n =? 0) = negb (Z.testbit (le_combine k) (Z.of_nat n)).
Proof.
  intros [L B]. unfold test. destruct (Nat.leb_spec 256 n) as [H | H].
  - pose proof (le_combine_bounds k B) as R. rewrite L in R. rewrite (proj2 (Z.testbit_false (le_combine k) (Z.of_nat n) ltac:(lia))); [done |].
    rewrite Z.div_small; [done |]. split; [lia |]. eapply Z.lt_le_trans; [apply R |].
    change (256 ^ Z.of_nat 32) with (2 ^ 256). apply Z.pow_le_mono_r; lia.
  - rewrite land_bit by lia. by rewrite testbit_at.
Qed.

Lemma mod_pow2_succ x n : 0 <= n -> x mod 2 ^ (n + 1) = Z.lor (x mod 2 ^ n) (if Z.testbit x n then Z.shiftl 1 n else 0).
Proof.
  intros Hn. apply Z.bits_inj'. intros i Hi. rewrite Z.lor_spec, !Z.testbit_mod_pow2 by lia.
  destruct (decide (i = n)) as [-> | Hne].
  - rewrite Z.ltb_irrefl, (proj2 (Z.ltb_lt n (n + 1))) by lia. cbn [andb orb].
    destruct (Z.testbit x n); [by rewrite Z.shiftl_1_l, Z.pow2_bits_true | by rewrite Z.bits_0].
  - replace (i <? n + 1) with (i <? n) by (destruct (Z.ltb_spec i n), (Z.ltb_spec i (n + 1)); lia).
    assert (F : Z.testbit (if Z.testbit x n then Z.shiftl 1 n else 0) i = false).
    { destruct (Z.testbit x n); [by rewrite Z.shiftl_1_l, Z.pow2_bits_false | by rewrite Z.bits_0]. }
    by rewrite F, orb_false_r.
Qed.

Lemma bucket_of_ok s k c : is_bytes 32 s -> bucket_of s k c = (le_combine s / 2 ^ Z.of_nat (k * c)) mod 2 ^ Z.of_nat c.
Proof.
  intros Hs. unfold bucket_of. generalize c at 2 4. intros n. induction n as [| n IH]; [by rewrite Z.mod_1_r |].
  rewrite seq_S, foldl_app, IH. cbn [foldl Nat.add]. rewrite test_ok by done.
  replace (Z.of_nat (S n)) with (Z.of_nat n + 1) by lia. rewrite mod_pow2_succ by lia.
  rewrite <- Z.shiftr_div_pow2, Z.shiftr_spec by lia. replace (Z.of_nat n + Z.of_nat (k * c)) with (Z.of_nat (k * c + n)) by lia.
  destruct (Z.testbit _ _); cbn [negb]; [done | by rewrite Z.lor_0_r].
Qed.

Lemma digits_ok s k : is_bytes 32 s -> (k < 64)%nat -> digits s !! k = Some ((le_combine s / 16 ^ Z.of_nat k) mod 16).
Proof.
  intros [L B] Hk. replace 64%nat with (2 * length s)%nat in Hk by lia. clear L. revert k Hk.
  induction B as [| b s Hb Hs IH]; intros k Hk; [simpl in Hk; lia |]. unfold is_byte in Hb. pose proof (le_combine_bounds s Hs) as [R _].
  unfold digits. cbn [map concat app]. fold (digits s). destruct k as [| [| k]]; cbn [lookup list_lookup le_combine].
  - rewrite Z.pow_0_r, Z.div_1_r. f_equal. change 15 with (Z.ones 4). rewrite Z.land_ones by lia. change (2 ^ 4) with 16.
    replace (b + 256 * le_combine s) with (b + 16 * le_combine s * 16) by ring. by rewrite Z_mod_plus_full.
  - f_equal. rewrite Z.shiftr_div_pow2 by lia. change (2 ^ 4) with (16 ^ Z.of_nat 1).
    replace (b + 256 * le_combine s) with (b + 16 * le_combine s * 16 ^ Z.of_nat 1) by (change (16 ^ Z.of_nat 1) with 16; ring).
    rewrite Z.div_add by done. rewrite (Z.mul_comm 16), Z_mod_plus_full. symmetry. apply Z.mod_small. change (16 ^ Z.of_nat 1) with 16.
    split; [apply Z.div_pos; lia | apply Z.div_lt_upper_bound; lia].
  - rewrite IH by (simpl in Hk; lia). do 2 f_equal. replace (Z.of_nat (S (S k))) with (2 + Z.of_nat k) by lia.
    rewrite Z.pow_add_r, <- Z.div_div by lia. f_equal. change (16 ^ 2) with 256. rewrite Z.mul_comm, Z.div_add, Z.div_small; lia.
Qed.

Lemma le_combine_insert s i b : (i < length s)%nat -> le_combine (<[i := b]> s) = le_combine s + (b - at_ s i) * 256 ^ Z.of_nat i.
Proof.
  revert i. induction s as [| x s IH]; intros i Hi; [simpl in Hi; lia |]. destruct i as [| i]; cbn [insert list_insert le_combine].
  - change (at_ (x :: s) 0) with x. cbn [Z.of_nat]. rewrite Z.pow_0_r. ring.
  - change (at_ (x :: s) (S i)) with (at_ s i). fold (<[i := b]> s). rewrite IH by (simpl in Hi; lia).
    rewrite Nat2Z.inj_succ, Z.pow_succ_r by lia. ring.
Qed.

Lemma zero_replicate : zero = replicate 32 0.
Proof. reflexivity. Qed.

Lemma pow2_ok n : (n < 256)%nat -> exists k, pow2 n = ret k /\ is_bytes 32 k /\ le_combine k = 2 ^ Z.of_nat n.
Proof.
  intros Hn. unfold pow2. rewrite (proj2 (Nat.ltb_lt _ _)), check_true by done. ebind. eexists. split; [reflexivity |].
  pose proof (Nat.mod_upper_bound n 8 ltac:(lia)) as B. assert (D : (n / 8 < 32)%nat) by (apply Nat.Div0.div_lt_upper_bound; lia).
  assert (Z0 : at_ zero (n / 8) = 0). { unfold at_. rewrite zero_replicate. by rewrite lookup_replicate_2. }
  rewrite Z0, Z.lor_0_l, Z.shiftl_1_l. split; [split |].
  - by rewrite length_insert.
  - apply Forall_insert; [rewrite zero_replicate; apply Forall_replicate; unfold is_byte; lia |]. unfold is_byte. split; [apply Z.pow_nonneg; lia |].
    change 256 with (2 ^ 8). apply Z.pow_lt_mono_r; lia.
  - rewrite le_combine_insert by done. rewrite Z0. unfold zero. rewrite key_Z_sbytes, sbytes_val, Z.mod_0_l by (unfold ell; lia).
    change 256 with (2 ^ 8). rewrite <- Z.pow_mul_r by lia. rewrite Z.sub_0_r, <- Z.pow_add_r by lia. rewrite Z.add_0_l. f_equal.
    rewrite (Nat.div_mod_eq n 8) at 3. lia.
Qed.

Lemma key_lt_ok a b : is_bytes 32 a -> is_bytes 32 b -> key_lt a b = (le_combine a <? le_combine b).
Proof. exact (less32_ok a b). Qed.

Lemma bit_bound_S fuel m step n : bit_bound (S fuel) m step n =
  if negb (n <? 256)%nat then ret n else (p <~ pow2 n; if key_lt m p then ret n else bit_bound fuel m step (n + step)).
Proof. reflexivity. Qed.

Lemma bit_bound_ok fuel m step n : is_bytes 32 m -> (0 < step)%nat -> (256 <= n + fuel * step)%nat -> exists j, bit_bound (S fuel) m step n = ret (n + j * step)%nat /\
  le_combine m < 2 ^ Z.of_nat (n + j * step) /\ (n + j * step < Nat.max (S n) (256 + step))%nat.
Proof.
  intros Hm Hs. pose proof (le_combine_bounds m (proj2 Hm)) as R. rewrite (proj1 Hm) in R. change (256 ^ Z.of_nat 32) with (2 ^ 256) in R.
  assert (T : forall n, (256 <= n)%nat -> le_combine m < 2 ^ Z.of_nat n).
  { intros k Hk. eapply Z.lt_le_trans; [apply R |]. apply Z.pow_le_mono_r; lia. }
  revert n. induction fuel as [| fuel IH]; intros n Hf; rewrite bit_bound_S.
  - exists 0%nat. rewrite (proj2 (Nat.ltb_ge _ _)) by lia. cbn [negb]. rewrite Nat.mul_0_l, Nat.add_0_r. split; [done |]. split; [apply T; lia | lia].
  - destruct (Nat.ltb_spec n 256) as [H | H]; cbn [negb].
    2: { exists 0%nat. rewrite Nat.mul_0_l, Nat.add_0_r. split; [done |]. split; [by apply T | lia]. }
    destruct (pow2_ok n H) as (p & -> & Hp & Vp). ebind. rewrite key_lt_ok, Vp by done.
    destruct (Z.ltb_spec (le_combine m) (2 ^ Z.of_nat n)) as [L | L].
    { exists 0%nat. rewrite Nat.mul_0_l, Nat.add_0_r. split; [done |]. split; [done | lia]. }
    destruct (IH (n + step)%nat) as (j & E & B & U); [simpl in Hf; lia |]. exists (S j). rewrite E.
    replace (n + S j * step)%nat with (n + step + j * step)%nat by lia. split; [done |]. split; [done |]. lia.
Qed.

(** ** Data *)

(** The datum holds the scalar and the point. *)
Definition holds (d : MultiexpData) (sp : Z * point) : Prop :=
  is_bytes 32 (me_scalar d) /\ le_combine (me_scalar d) = sp.1 /\ p3_rep (me_point d) sp.2.

(** The sum of the multiples. *)
Definition msum (l : list (Z * point)) : point := foldr (fun sp acc => smul sp.1 sp.2 ⊕ acc) gzero l.

Lemma msum_app l m : msum (l ++ m) ≃ msum l ⊕ msum m.
Proof. induction l as [| sp l IH]; cbn [app msum foldr]; [symmetry; apply gadd_0_l |]. fold (msum (l ++ m)). by rewrite IH, gadd_assoc. Qed.

Lemma max_fold data l m : Forall2 holds data l -> is_bytes 32 m ->
  let r := foldl (fun m d => if key_lt m (me_scalar d) then me_scalar d else m) m data in
  is_bytes 32 r /\ le_combine m <= le_combine r /\ Forall (fun sp => 0 <= sp.1 <= le_combine r) l.
Proof.
  intros H. revert m. induction H as [| d [s P] data l [Hb [Hs _]] _ IH]; intros m Hm; [split; [done | by split] |]. cbn [fst] in Hs. cbn [foldl].
  rewrite (key_lt_ok m) by done.
  destruct (IH (if le_combine m <? le_combine (me_scalar d) then me_scalar d else m)) as (H1 & H2 & H3); [by destruct (_ <? _) |].
  split; [done |]. pose proof (le_combine_bounds _ (proj2 Hb)) as R.
  assert (le_combine m <= le_combine (if le_combine m <? le_combine (me_scalar d) then me_scalar d else m) /\
    s <= le_combine (if le_combine m <? le_combine (me_scalar d) then me_scalar d else m)) as [U1 U2].
  { destruct (Z.ltb_spec (le_combine m) (le_combine (me_scalar d))); lia. }
  split; [lia |]. constructor; [cbn [fst]; lia | done].
Qed.

Lemma max_scalar_ok data l : Forall2 holds data l -> is_bytes 32 (max_scalar data) /\ Forall (fun sp => 0 <= sp.1 <= le_combine (max_scalar data)) l.
Proof.
  intros H. assert (Z0 : is_bytes 32 zero) by (unfold zero; rewrite key_Z_sbytes; apply sbytes_bytes).
  destruct (max_fold data l zero H Z0) as (H1 & _ & H3). by split.
Qed.

(** The same points with other scalars. *)
Definition rescale (f : Z -> Z) (l : list (Z * point)) : list (Z * point) := map (fun sp => (f sp.1, sp.2)) l.

Lemma msum_add f g l : msum (rescale f l) ⊕ msum (rescale g l) ≃ msum (rescale (fun s => f s + g s) l).
Proof.
  induction l as [| [s P] l IH]; cbn [rescale map msum foldr fst snd]; [apply gadd_0_l |].
  fold (rescale f l) (rescale g l) (rescale (fun s => f s + g s) l) (msum (rescale f l)) (msum (rescale g l)) (msum (rescale (fun s => f s + g s) l)).
  rewrite <- IH, smul_add. apply gadd_swap.
Qed.

Lemma msum_scale n f l : smul n (msum (rescale f l)) ≃ msum (rescale (fun s => n * f s) l).
Proof.
  induction l as [| [s P] l IH]; cbn [rescale map msum foldr fst snd]; [apply smul_0 |].
  fold (rescale f l) (rescale (fun s => n * f s) l) (msum (rescale f l)) (msum (rescale (fun s => n * f s) l)).
  by rewrite smul_gadd, IH, smul_mul.
Qed.

Lemma rescale_ext f g l : Forall (fun sp => f sp.1 = g sp.1) l -> rescale f l = rescale g l.
Proof. intros H. induction H as [| sp l E _ IH]; [done |]. cbn [rescale map]. by rewrite E; f_equal. Qed.

Lemma rescale_id l : rescale (fun s => s) l = l.
Proof. induction l as [| [s P] l IH]; [done |]. cbn [rescale map fst snd]. by f_equal. Qed.

Lemma msum_zero f l : Forall (fun sp => f sp.1 = 0) l -> msum (rescale f l) ≃ gzero.
Proof.
  intros H. induction H as [| [s P] l E _ IH]; [reflexivity |]. cbn [rescale map msum foldr fst snd] in *. rewrite E.
  etransitivity; [| exact IH]. apply gadd_0_l.
Qed.

(** ** Additions and doublings *)

Lemma add_cached_ok p c P Q : p3_rep p P -> cached_rep c Q -> yields (add_cached p c) (fun r => p3_rep r (P ⊕ Q)).
Proof. intros Hp Hc. unfold add_cached. run (add_rep _ _ _ _ Hp Hc) as t Ht. apply (ge_p1p1_to_p3_ok _ _ Ht). Qed.

Lemma add_p3_ok p q P Q : p3_rep p P -> p3_rep q Q -> yields (add_p3 p q) (fun r => p3_rep r (P ⊕ Q)).
Proof. intros Hp Hq. unfold add_p3. run (ge_p3_to_cached_ok _ _ Hq) as c Hc. by apply add_cached_ok. Qed.

Lemma smul_2 P : smul 2 P ≃ P ⊕ P.
Proof. exact (smul_double 1 P). Qed.

Lemma double_p2_ok n p P : p2_rep p P -> yields (double_p2 (S n) p) (fun r => p3_rep r (smul (2 ^ Z.of_nat (S n)) P)).
Proof.
  revert p P. induction n as [| n IH]; intros p P Hp; cbn [double_p2]; run (ge_p2_dbl_ok _ _ Hp) as d Hd.
  - eapply yields_impl; [apply (ge_p1p1_to_p3_ok _ _ Hd) |]. cbv beta. intros r Hr. exact (proj2 (p3_rep_proper r _ _ (smul_2 P)) Hr).
  - run (ge_p1p1_to_p2_ok _ _ Hd) as q Hq. eapply yields_impl; [apply (IH _ _ Hq) |]. cbv beta. intros r Hr.
    assert (F : smul (2 ^ Z.of_nat (S (S n))) P ≃ smul (2 ^ Z.of_nat (S n)) (P ⊕ P)).
    { rewrite (Nat2Z.inj_succ (S n)), Z.pow_succ_r, Z.mul_comm, smul_mul by lia. by rewrite smul_2. }
    exact (proj2 (p3_rep_proper r _ _ F) Hr).
Qed.

Lemma doubles_ok n p P : p3_rep p P -> yields (doubles (S n) p) (fun r => p3_rep r (smul (2 ^ Z.of_nat (S n)) P)).
Proof. intros Hp. apply double_p2_ok. by apply p3_p2. Qed.

(** ** Straus *)

Definition table (t : list ge_cached) (P : point) : Prop :=
  length t = 15%nat /\ forall i c, t !! i = Some c -> cached_rep c (smul (Z.of_nat i + 1) P).

Lemma more_multiples_ok n p P c j : p3_rep p P -> cached_rep c (smul j P) -> yields (more_multiples n p c)
  (fun t => length t = n /\ forall i c, t !! i = Some c -> cached_rep c (smul (j + 1 + Z.of_nat i) P)).
Proof.
  intros Hp. revert c j. induction n as [| n IH]; intros c j Hc; cbn [more_multiples]; [by exists [] |].
  run (add_rep _ _ _ _ Hp Hc) as t Ht. run (ge_p1p1_to_p3_ok _ _ Ht) as q Hq. run (ge_p3_to_cached_ok _ _ Hq) as c' Hc'.
  assert (Hc2 : cached_rep c' (smul (j + 1) P)).
  { refine (proj2 (cached_rep_proper c' _ _ _) Hc'). by rewrite smul_add, smul_1, gadd_comm. }
  run (IH c' (j + 1) Hc2) as rest [L HF]. eexists. split; [reflexivity |]. split; [simpl; lia |].
  intros [| i] x E; cbn [lookup list_lookup] in E.
  - apply (inj Some) in E. subst x. by rewrite Z.add_0_r.
  - apply HF in E. by replace (j + 1 + Z.of_nat (S i)) with (j + 1 + 1 + Z.of_nat i) by lia.
Qed.

Lemma point_multiples_ok p P : p3_rep p P -> yields (multiples p) (fun t => table t P).
Proof.
  intros Hp. unfold multiples. run (ge_p3_to_cached_ok _ _ Hp) as c Hc. run (more_multiples_ok 14 p P c 1 Hp Hc) as rest [L HF].
  eexists. split; [reflexivity |]. split; [simpl; lia |]. intros [| i] x E; cbn [lookup list_lookup] in E.
  - apply (inj Some) in E. by subst x.
  - apply HF in E. by replace (Z.of_nat (S i) + 1) with (1 + 1 + Z.of_nat i) by lia.
Qed.

(** The digits and the table of a point. *)
Definition prepared (dt : list Z * list ge_cached) (sp : Z * point) : Prop :=
  (forall k, (k < 64)%nat -> dt.1 !! k = Some ((sp.1 / 16 ^ Z.of_nat k) mod 16)) /\ table dt.2 sp.2.

Lemma add_digits_ok k points l band B : (k < 64)%nat -> Forall2 prepared points l -> p3_rep band B ->
  yields (add_digits k points band) (fun r => p3_rep r (B ⊕ msum (rescale (fun s => (s / 16 ^ Z.of_nat k) mod 16) l))).
Proof.
  intros Hk H. revert band B. induction H as [| [ds t] [s P] points l [Hd [Lt Ht]] _ IH]; intros band B HB.
  { exists band. split; [done |]. exact (proj2 (p3_rep_proper band _ _ (gadd_0_r B)) HB). }
  cbn [add_digits fst snd] in *. rewrite (Hd k Hk). bind. set (d := (s / 16 ^ Z.of_nat k) mod 16).
  pose proof (Z.mod_pos_bound (s / 16 ^ Z.of_nat k) 16 ltac:(lia)) as R. fold d in R.
  assert (S1 : yields (if d =? 0 then Some band else c ← t !! Z.to_nat (d - 1); add_cached band c) (fun r => p3_rep r (B ⊕ smul d P))).
  { destruct (Z.eqb_spec d 0) as [-> | Hd0]; [exists band; split; [done | exact (proj2 (p3_rep_proper band _ _ (gadd_0_r B)) HB)] |].
    destruct (lookup_lt_is_Some_2 t (Z.to_nat (d - 1))) as [c Ec]; [rewrite Lt; lia |]. rewrite Ec. bind. apply Ht in Ec.
    rewrite Z2Nat.id, Z.sub_add in Ec by lia. by apply add_cached_ok. }
  run S1 as b Hb. eapply yields_impl; [apply (IH _ _ Hb) |]. cbv beta. intros r Hr.
  refine (proj2 (p3_rep_proper r _ _ _) Hr). cbn [rescale map msum foldr fst snd]. fold d. by rewrite gadd_assoc.
Qed.

Lemma quot_step s k : s / 16 ^ Z.of_nat k = 16 * (s / 16 ^ Z.of_nat (S k)) + (s / 16 ^ Z.of_nat k) mod 16.
Proof.
  rewrite Nat2Z.inj_succ, Z.pow_succ_r, (Z.mul_comm 16 (16 ^ Z.of_nat k)) by lia. rewrite <- Z.div_div by (lia || apply Z.pow_nonzero; lia).
  apply Z.div_mod. lia.
Qed.

Abbreviation quots k := (rescale (fun s => s / 16 ^ Z.of_nat k)).

Lemma windows_ok k points l (first : bool) band : (k <= 64)%nat -> Forall2 prepared points l -> p3_rep band (msum (quots k l)) ->
  (if first then Forall (fun sp => sp.1 / 16 ^ Z.of_nat k = 0) l else True) ->
  yields (windows k first points band) (fun r => p3_rep r (msum l)).
Proof.
  intros Hk H. revert first band. induction k as [| k IH]; intros first band HB Hf.
  { exists band. split; [done |]. rewrite <- (rescale_id l). rewrite (rescale_ext _ (fun s => s / 16 ^ Z.of_nat 0)); [done |].
    apply Forall_true. intros sp. by rewrite Z.pow_0_r, Z.div_1_r. }
  cbn [windows].
  assert (D : yields (if first then Some band else doubles STRAUS_C band) (fun r => p3_rep r (smul 16 (msum (quots (S k) l))))).
  { destruct first; [| by apply (doubles_ok 3)]. exists band. split; [done |].
    assert (E : smul 16 (msum (quots (S k) l)) ≃ msum (quots (S k) l)) by (rewrite msum_zero by done; apply smul_0).
    exact (proj2 (p3_rep_proper band _ _ E) HB). }
  run D as b Hb. run (add_digits_ok k points l b _ ltac:(lia) H Hb) as b' Hb'. apply IH; [lia | | done].
  refine (proj2 (p3_rep_proper b' _ _ _) Hb'). rewrite msum_scale, msum_add. erewrite rescale_ext; [reflexivity |].
  apply Forall_true. intros sp. apply quot_step.
Qed.

Lemma bands_ok fuel STEP k points l res R : (length points <= fuel)%nat -> (0 < STEP)%nat -> (k <= 64)%nat -> Forall2 prepared points l ->
  Forall (fun sp => sp.1 / 16 ^ Z.of_nat k = 0) l -> p3_rep res R -> yields (bands fuel STEP k points res) (fun r => p3_rep r (R ⊕ msum l)).
Proof.
  intros Lf Hs Hk. revert points l res R Lf. induction fuel as [| fuel IH]; intros points l res R Lf H Hz HR.
  { destruct points; [| simpl in Lf; lia]. inversion H; subst. exists res. split; [done |]. exact (proj2 (p3_rep_proper res _ _ (gadd_0_r R)) HR). }
  destruct points as [| p points].
  { inversion H; subst. exists res. split; [done |]. exact (proj2 (p3_rep_proper res _ _ (gadd_0_r R)) HR). }
  change (bands (S fuel) STEP k (p :: points) res) with (band ← windows k true (take STEP (p :: points)) ge_p3_identity;
    res_p3 ← add_p3 res band; bands fuel STEP k (drop STEP (p :: points)) res_p3).
  set (ps := p :: points) in *. rewrite <- (take_drop STEP l) in Hz. apply Forall_app in Hz as [Hz1 Hz2].
  assert (I0 : p3_rep ge_p3_identity (msum (quots k (take STEP l)))).
  { refine (proj2 (p3_rep_proper _ _ _ _) identity_rep). by apply msum_zero. }
  run (windows_ok k _ _ true ge_p3_identity Hk (Forall2_take _ _ _ STEP H) I0 Hz1) as b Hb.
  run (add_p3_ok _ _ _ _ HR Hb) as r1 Hr1.
  eapply yields_impl; [apply (IH (drop STEP ps) (drop STEP l) r1 (R ⊕ msum (take STEP l))); [rewrite length_drop; simpl in *; lia | by apply Forall2_drop | done | done] |].
  cbv beta. intros r Hr. refine (proj2 (p3_rep_proper r _ _ _) Hr). rewrite <- gadd_assoc, <- msum_app. by rewrite take_drop.
Qed.

Lemma mapM_yields {A B C} (f : A -> option B) (R : A -> C -> Prop) (Q : C -> B -> Prop) data l :
  (forall d x, R d x -> yields (f d) (Q x)) -> Forall2 R data l -> exists ts, mapM f data = Some ts /\ Forall2 Q l ts.
Proof.
  intros Hf H. induction H as [| d x data l HR _ (ts & E & HF)]; [by exists [] |]. destruct (Hf d x HR) as (t & Et & Ht).
  exists (t :: ts). split; [| by constructor]. cbn [mapM]. rewrite Et. bind. rewrite E. by bind.
Qed.

Lemma zip_prepared data l cache : Forall2 holds data l -> Forall2 (fun sp t => table t sp.2) l (take (length data) cache) ->
  Forall2 prepared (zip (map (fun d => digits (me_scalar d)) data) cache) l.
Proof.
  intros H. revert cache. induction H as [| d [s P] data l (Hb & Hs & _) _ IH]; intros cache HT.
  { destruct cache; constructor. }
  destruct cache as [| t cache]; cbn [length take] in HT; inversion HT as [| ? ? ? ? Ht HT']; subst. cbn [fst snd] in *.
  cbn [map zip_with]. constructor; [| by apply IH]. split; [| done]. cbn [fst snd]. intros k Hk. rewrite <- Hs. by apply digits_ok.
Qed.

(** A table of multiples for every point, or none. *)
Definition straus_cache (cache : option (list (list ge_cached))) (n : nat) (l : list (Z * point)) : Prop :=
  match cache with
  | None => True
  | Some c => (n <= length c)%nat /\ Forall2 (fun sp t => table t sp.2) l (take n c)
  end.

Lemma straus_init_ok data l : Forall2 holds data l ->
  exists ts, straus_init_cache data 0 = ret ts /\ Forall2 (fun sp t => table t sp.2) l ts.
Proof.
  intros H. unfold straus_init_cache. cbn [Nat.eqb]. rewrite Nat.leb_refl, check_true. ebind. rewrite take_ge by done.
  destruct (mapM_yields (fun d => multiples (me_point d)) holds (fun sp t => table t sp.2) data l) as (ts & -> & HF); [| done |].
  - intros d sp (_ & _ & Hp). by apply point_multiples_ok.
  - by exists ts.
Qed.

Lemma straus_ok data l cache STEP : Forall2 holds data l -> straus_cache cache (length data) l ->
  straus data cache STEP = ret (enc (msum l)).
Proof.
  intros H Hc. unfold straus.
  assert (C : check (match cache with None => true | Some c => (length data <=? length c)%nat end) = ret tt).
  { destruct cache; [| done]. destruct Hc as [Hc _]. by rewrite (proj2 (Nat.leb_le _ _)). }
  rewrite C. ebind. set (ST := if (STEP =? 0)%nat then 192%nat else STEP).
  assert (HS : (0 < ST)%nat) by (unfold ST; destruct (Nat.eqb_spec STEP 0); lia).
  assert (T : exists ts, (match cache with None => straus_init_cache data 0 | Some c => ret c end) = ret ts /\
    Forall2 (fun sp t => table t sp.2) l (take (length data) ts)).
  { destruct cache as [c |]; [exists c; split; [done | apply Hc] |]. destruct (straus_init_ok data l H) as (ts & E & HF). exists ts.
    split; [done |]. rewrite take_ge; [done |]. by rewrite <- (Forall2_length HF), (Forall2_length H). }
  destruct T as (ts & -> & HT). ebind. destruct (max_scalar_ok data l H) as [Hm Hl].
  destruct (bit_bound_ok 64 (max_scalar data) STRAUS_C 0 Hm) as (j & -> & B & U); [unfold STRAUS_C; lia | unfold STRAUS_C; lia |].
  ebind. cbn [Nat.add] in *. rewrite Nat.div_mul by done. unfold STRAUS_C in *.
  assert (Y : yields (bands (length data) ST j (zip (map (fun d => digits (me_scalar d)) data) ts) ge_p3_identity) (fun r => p3_rep r (gzero ⊕ msum l))).
  { apply bands_ok; [rewrite length_zip_with, length_map; lia | done | lia | by apply zip_prepared | | exact identity_rep].
    refine (list.Forall_impl _ _ _ Hl _). intros sp R. apply Z.div_small. replace (16 ^ Z.of_nat j) with (2 ^ Z.of_nat (j * 4)); [lia |].
    rewrite Nat.mul_comm, Nat2Z.inj_mul, Z.pow_mul_r by lia. done. }
  run Y as r Hr. rewrite (to_enc3 _ _ Hr), call_Some. apply (f_equal Some), (f_equal Some), enc_eq, gadd_0_l.
Qed.

(** ** Pippenger *)

(** A point that is the identity until it is set. *)
Definition orep (o : option ge_p3) (P : point) : Prop := match o with None => P ≃ gzero | Some p => p3_rep p P end.

Lemma orep_proper o P Q : P ≃ Q -> orep o P -> orep o Q.
Proof. intros E. destruct o as [p |]; cbn [orep]; [exact (proj1 (p3_rep_proper p _ _ E)) | by rewrite E]. Qed.

Lemma add_to_ok a p A P : orep a A -> orep p P -> yields (add_to a p) (fun r => orep r (A ⊕ P)).
Proof.
  intros Ha Hp. destruct p as [p |]; cbn [add_to orep] in *.
  - destruct a as [a |]; cbn [orep] in Ha.
    + run (add_p3_ok _ _ _ _ Ha Hp) as r Hr. eexists. split; [reflexivity | exact Hr].
    + eexists. split; [reflexivity |]. apply (orep_proper _ P); [| exact Hp]. by rewrite Ha, gadd_0_l.
  - eexists. split; [reflexivity |]. apply (orep_proper _ A); [| exact Ha]. by rewrite Hp, gadd_0_r.
Qed.

(** [1 B_1 + ... + n B_n]. *)
Fixpoint dsum (n : nat) (B : nat -> point) : point :=
  match n with O => gzero | S m => smul (Z.of_nat n) (B n) ⊕ dsum m B end.

Lemma dsum_add n A B : dsum n (fun i => A i ⊕ B i) ≃ dsum n A ⊕ dsum n B.
Proof.
  induction n as [| n IH]; cbn [dsum]; [symmetry; apply gadd_0_l |]. rewrite IH, smul_gadd. apply gadd_swap.
Qed.

Lemma dsum_ext n A B : (forall i, (1 <= i <= n)%nat -> A i ≃ B i) -> dsum n A ≃ dsum n B.
Proof.
  induction n as [| n IH]; intros H; cbn [dsum]; [done |]. rewrite (H (S n)) by lia. rewrite IH; [done |]. intros i Hi. apply H. lia.
Qed.

Lemma dsum_zero n : dsum n (fun _ => gzero) ≃ gzero.
Proof. induction n as [| n IH]; cbn [dsum]; [done |]. rewrite IH, smul_0. apply gadd_0_l. Qed.

Lemma dsum_single n d P : (d <= n)%nat -> dsum n (fun i => if (i =? d)%nat then P else gzero) ≃ smul (Z.of_nat d) P.
Proof.
  induction n as [| n IH]; intros Hd.
  { replace d with 0%nat by lia. done. }
  cbn [dsum]. destruct (Nat.eqb_spec (S n) d) as [E | E].
  - subst d. rewrite (dsum_ext n _ (fun _ => gzero)), dsum_zero; [apply gadd_0_r |].
    intros i Hi. by rewrite (proj2 (Nat.eqb_neq _ _)) by lia.
  - rewrite smul_0, IH by lia. apply gadd_0_l.
Qed.

Section Digit.
Context (digit : Z -> nat).

(** The points of the bucket [i]. *)
Definition bsum (l : list (Z * point)) (i : nat) : point := foldr (fun sp acc => (if (i =? digit sp.1)%nat then sp.2 else gzero) ⊕ acc) gzero l.

Lemma dsum_bsum n l : Forall (fun sp => (digit sp.1 <= n)%nat) l -> dsum n (bsum l) ≃ msum (rescale (fun s => Z.of_nat (digit s)) l).
Proof.
  intros H. induction H as [| [s P] l Hs _ IH]; cbn [rescale map msum foldr fst snd]; [apply dsum_zero |].
  cbn [bsum foldr fst snd]. fold (rescale (fun s => Z.of_nat (digit s)) l) (msum (rescale (fun s => Z.of_nat (digit s)) l)).
  rewrite <- IH, <- (dsum_single n (digit s) P Hs), <- dsum_add. done.
Qed.
End Digit.

(** The buckets hold the points [B]. *)
Definition brep (c : nat) (buckets : list (option ge_p3)) (B : nat -> point) : Prop :=
  length buckets = (2 ^ c)%nat /\ forall i o, (0 < i)%nat -> buckets !! i = Some o -> orep o (B i).

Definition digit_of (k c : nat) (s : Z) : nat := Z.to_nat ((s / 2 ^ Z.of_nat (k * c)) mod 2 ^ Z.of_nat c).

Lemma digit_bound k c s : (digit_of k c s < 2 ^ c)%nat.
Proof.
  unfold digit_of. pose proof (Z.mod_pos_bound (s / 2 ^ Z.of_nat (k * c)) (2 ^ Z.of_nat c) ltac:(lia)) as R.
  apply Nat2Z.inj_lt. rewrite Z2Nat.id, Nat2Z.inj_pow by lia. apply R.
Qed.

Lemma brep_ext c bs A B : brep c bs A -> (forall i, (0 < i)%nat -> A i ≃ B i) -> brep c bs B.
Proof. intros [L H] E. split; [done |]. intros i o Hi Eo. eapply orep_proper, H; [by apply E | done | done]. Qed.

(** A point that is put into its bucket. *)
Lemma put_bucket c buckets B i d q P : brep c buckets B -> (0 < i < 2 ^ c)%nat -> p3_rep (me_point d) P -> cached_rep q P ->
  exists o b, buckets !! i = Some o /\ (match o with Some p => call (add_cached p q) | None => ret (me_point d) end) = ret b /\
  brep c (<[i := Some b]> buckets) (fun j => B j ⊕ (if (j =? i)%nat then P else gzero)).
Proof.
  intros [L H] Hi Hp Hq. destruct (lookup_lt_is_Some_2 buckets i) as [o Eo]; [lia |]. exists o. pose proof (H i o ltac:(lia) Eo) as Ho.
  assert (Y : exists b, (match o with Some p => call (add_cached p q) | None => ret (me_point d) end) = ret b /\ p3_rep b (B i ⊕ P)).
  { destruct o as [p |]; cbn [orep] in Ho.
    - destruct (add_cached_ok _ _ _ _ Ho Hq) as (r & -> & Hr). by exists r.
    - exists (me_point d). split; [done |]. apply (p3_eq _ P); [| done]. rewrite Ho. glin. }
  destruct Y as (b & Eb & Hb). exists b. split; [done |]. split; [done |]. split; [by rewrite length_insert |]. intros j x Hj Ex.
  destruct (Nat.eqb_spec j i) as [-> | Hn].
  - rewrite list_lookup_insert_eq in Ex by lia. apply (inj Some) in Ex. by subst x.
  - rewrite list_lookup_insert_ne in Ex by done. eapply orep_proper, H; [symmetry; apply gadd_0_r | done | done].
Qed.

Lemma fill_buckets_ok k c data l cached buckets B : Forall2 holds data l -> Forall2 (fun sp q => cached_rep q sp.2) l cached -> brep c buckets B ->
  exists bs, fill_buckets k c data cached buckets = ret bs /\ brep c bs (fun i => B i ⊕ bsum (digit_of k c) l i).
Proof.
  intros H. revert cached buckets B. induction H as [| d [s P] data l (Hb & Hs & Hp) _ IH]; intros cached buckets B Hc HB.
  { inversion Hc; subst. exists buckets. split; [done |]. eapply brep_ext; [exact HB |]. intros i _. symmetry. apply gadd_0_r. }
  inversion Hc as [| ? q ? cs Hq Hc']; subst. cbn [fst snd] in *. cbn [fill_buckets]. rewrite bucket_of_ok by done.
  set (b := (_ / _) mod _). pose proof (Z.mod_pos_bound (le_combine (me_scalar d) / 2 ^ Z.of_nat (k * c)) (2 ^ Z.of_nat c) ltac:(lia)) as R. fold b in R.
  pose proof (digit_bound k c (le_combine (me_scalar d))) as Rd.
  assert (Ed : digit_of k c (le_combine (me_scalar d)) = Z.to_nat b) by done. rewrite Ed in Rd. destruct (Z.eqb_spec b 0) as [Eb | Nb].
  - destruct (IH cs buckets B Hc' HB) as (bs & E & Hbs). exists bs. split; [done |]. eapply brep_ext; [exact Hbs |]. intros i Hi.
    cbn [bsum foldr fst snd]. rewrite <- Hs, Ed, Eb, (proj2 (Nat.eqb_neq _ _)), gadd_0_l by lia. done.
  - rewrite (proj2 (Z.ltb_lt _ _)), check_true by lia. ebind.
    destruct (put_bucket c buckets B (Z.to_nat b) d q P HB ltac:(lia) Hp Hq) as (o & x & -> & Ex & Hx). ebind. rewrite Ex. ebind.
    destruct (IH cs _ _ Hc' Hx) as (bs & E & Hbs). exists bs. split; [done |]. eapply brep_ext; [exact Hbs |]. intros i Hi. cbv beta.
    cbn [bsum foldr fst snd]. rewrite <- Hs, Ed. by rewrite gadd_assoc.
Qed.

Lemma sum_buckets_ok c n buckets B pail result A R : brep c buckets B -> (n < 2 ^ c)%nat -> orep pail A -> orep result R ->
  yields (sum_buckets n buckets pail result) (fun r => orep r (R ⊕ smul (Z.of_nat n) A ⊕ dsum n B)).
Proof.
  intros [L H]. revert pail result A R. induction n as [| n IH]; intros pail result A R Hn HA HR; cbn [sum_buckets dsum].
  { exists result. split; [done |]. eapply orep_proper; [| exact HR]. by rewrite !gadd_0_r. }
  destruct (lookup_lt_is_Some_2 buckets (S n)) as [o Eo]; [lia |]. rewrite Eo. bind.
  run (add_to_ok _ _ _ _ HA (H (S n) o ltac:(lia) Eo)) as p Hp. run (add_to_ok _ _ _ _ HR Hp) as r Hr.
  eapply yields_impl; [apply (IH p r _ _ ltac:(lia) Hp Hr) |]. cbv beta. intros x Hx. eapply orep_proper; [| exact Hx].
  replace (Z.of_nat (S n)) with (1 + Z.of_nat n) by lia. glin.
Qed.

Abbreviation quotb c k := (rescale (fun s => s / 2 ^ Z.of_nat (k * c))).

Lemma quotb_step s k c : s / 2 ^ Z.of_nat (k * c) = 2 ^ Z.of_nat c * (s / 2 ^ Z.of_nat (S k * c)) + Z.of_nat (digit_of k c s).
Proof.
  unfold digit_of. rewrite Z2Nat.id by (apply Z.mod_pos_bound; lia).
  replace (Z.of_nat (S k * c)) with (Z.of_nat (k * c) + Z.of_nat c) by lia. rewrite Z.pow_add_r by lia.
  rewrite <- Z.div_div by lia. apply Z.div_mod. lia.
Qed.

Lemma groups_loop_ok k c data l cached result : (0 < c)%nat -> Forall2 holds data l -> Forall2 (fun sp q => cached_rep q sp.2) l cached ->
  orep result (msum (quotb c k l)) -> exists r, groups_loop k c data cached result = ret r /\ orep r (msum l).
Proof.
  intros Hc H Hq. revert result. induction k as [| k IH]; intros result HR.
  { exists result. split; [done |]. rewrite <- (rescale_id l), (rescale_ext _ (fun s => s / 2 ^ Z.of_nat (0 * c))); [done |].
    apply Forall_true. intros sp. by rewrite Z.pow_0_r, Z.div_1_r. }
  cbn [groups_loop].
  assert (D : yields (match result with None => Some None | Some r => r ← doubles c r; Some (Some r) end)
    (fun r => orep r (smul (2 ^ Z.of_nat c) (msum (quotb c (S k) l))))).
  { destruct result as [r |]; cbn [orep] in HR.
    - destruct c as [| c']; [lia |]. run (doubles_ok c' _ _ HR) as x Hx. eexists. split; [reflexivity | exact Hx].
    - eexists. split; [reflexivity |]. cbn [orep]. rewrite HR. apply smul_0. }
  destruct D as (r & -> & Hr). ebind.
  assert (B0 : brep c (replicate (2 ^ c) None) (fun _ => gzero)).
  { split; [apply length_replicate |]. intros i o _ E. by apply lookup_replicate in E as [-> _]. }
  destruct (fill_buckets_ok k c data l cached _ _ H Hq B0) as (bs & -> & Hbs). ebind.
  destruct (sum_buckets_ok c (2 ^ c - 1) bs _ None r gzero _ Hbs ltac:(pose proof (Nat.pow_nonzero 2 c); lia) (reflexivity _) Hr) as (r' & -> & Hr').
  ebind. apply IH. eapply orep_proper; [| exact Hr'].
  rewrite smul_0, dsum_add, dsum_zero, dsum_bsum, msum_scale, gadd_0_r, gadd_0_l, msum_add.
  - erewrite rescale_ext; [reflexivity |]. apply Forall_true. intros sp. symmetry. apply quotb_step.
  - apply Forall_true. intros sp. pose proof (digit_bound k c sp.1). lia.
Qed.

Lemma pippenger_init_ok data l off : Forall2 holds data l -> (off <= length data)%nat ->
  exists qs, pippenger_init_cache data off 0 = ret qs /\ Forall2 (fun sp q => cached_rep q sp.2) (drop off l) qs.
Proof.
  intros H Ho. unfold pippenger_init_cache. cbn [Nat.eqb]. rewrite (proj2 (Nat.leb_le _ _)) by done. rewrite Nat.leb_refl, !check_true.
  do 2 ebind. rewrite take_ge by (rewrite length_drop; lia).
  destruct (mapM_yields (fun d => ge_p3_to_cached (me_point d)) holds (fun sp q => cached_rep q sp.2) (drop off data) (drop off l)) as (ts & -> & HF).
  - intros d sp (_ & _ & Hp). by apply ge_p3_to_cached_ok.
  - by apply Forall2_drop.
  - by exists ts.
Qed.

Lemma pippenger_c_range n : (1 <= get_pippenger_c n <= 9)%nat.
Proof. unfold get_pippenger_c. repeat (destruct (_ <=? _)%nat; [lia |]). lia. Qed.

(** A cached form of the first [n] points, or none. *)
Definition pippenger_cache (cache : option (list ge_cached)) (n : nat) (l : list (Z * point)) : Prop :=
  match cache with
  | None => n = 0%nat
  | Some c => (0 < n <= length l)%nat /\ (n <= length c)%nat /\ Forall2 (fun sp q => cached_rep q sp.2) (take n l) (take n c)
  end.

Lemma pippenger_caches_ok data l cache n : Forall2 holds data l -> pippenger_cache cache n l ->
  exists c1 c2, (match cache with None => pippenger_init_cache data 0 0 | Some l => ret l end) = ret c1 /\
    (if (n <? length data)%nat then pippenger_init_cache data n 0 else ret []) = ret c2 /\
    Forall2 (fun sp q => cached_rep q sp.2) l (take n c1 ++ c2).
Proof.
  intros H Hc. pose proof (Forall2_length H) as Ll. destruct cache as [ca |]; cbn [pippenger_cache] in Hc.
  - destruct Hc as (Hn & Hl & HF). exists ca. destruct (Nat.ltb_spec n (length data)) as [Hlt | Hge].
    + destruct (pippenger_init_ok data l n H ltac:(lia)) as (c2 & E & H2). exists c2. split; [done |]. split; [done |].
      rewrite <- (take_drop n l). by apply Forall2_app.
    + exists []. split; [done |]. split; [done |]. rewrite app_nil_r. rewrite take_ge in HF by lia. done.
  - subst n. destruct (pippenger_init_ok data l 0 H ltac:(lia)) as (c1 & E & H1). exists c1. rewrite E. cbn [take app].
    destruct (Nat.ltb_spec 0 (length data)) as [Hlt | Hge].
    + exists c1. by split.
    + exists []. split; [done |]. split; [done |]. destruct l; [done |]. cbn [length] in Ll. lia.
Qed.

Lemma pippenger_ok data l cache n c : Forall2 holds data l -> pippenger_cache cache n l -> (c <= 9)%nat ->
  pippenger data cache n c = ret (enc (msum l)).
Proof.
  intros H Hc Hb. pose proof (Forall2_length H) as Ll. unfold pippenger.
  assert (N : match cache with Some l => if (n =? 0)%nat then length l else n | None => n end = n).
  { destruct cache; [| done]. destruct Hc as [Hc _]. by rewrite (proj2 (Nat.eqb_neq _ _)) by lia. }
  rewrite N. clear N.
  assert (C : check (match cache with None => true | Some l => (n <=? length l)%nat end) = ret tt).
  { destruct cache; [| done]. destruct Hc as (_ & Hc & _). by rewrite (proj2 (Nat.leb_le _ _)). }
  rewrite C. ebind. set (c' := if (c =? 0)%nat then get_pippenger_c (length data) else c).
  assert (Rc : (1 <= c' <= 9)%nat) by (unfold c'; destruct (Nat.eqb_spec c 0); [apply pippenger_c_range | lia]).
  rewrite (proj2 (Nat.leb_le _ _)), check_true by lia. ebind.
  assert (T : exists c1 c2, (match cache with None => pippenger_init_cache data 0 0 | Some l => ret l end) = ret c1 /\
    (if (n <? length data)%nat then pippenger_init_cache data n 0 else ret []) = ret c2 /\
    Forall2 (fun sp q => cached_rep q sp.2) l (take n c1 ++ c2)) by (by apply pippenger_caches_ok).
  destruct T as (c1 & c2 & -> & -> & HT). do 2 ebind. destruct (max_scalar_ok data l H) as [Hm Hl].
  destruct (bit_bound_ok 256 (max_scalar data) 1 0 Hm) as (j & -> & B & U); [lia | lia |]. ebind.
  rewrite Nat.mul_1_r in *. cbn [Nat.add] in *.
  destruct (groups_loop_ok ((j + c' - 1) / c') c' data l (take n c1 ++ c2) None) as (r & -> & Hr); [lia | done | done | |].
  { cbn [orep]. apply msum_zero. refine (list.Forall_impl _ _ _ Hl _). intros sp R.
    apply Z.div_small. split; [lia |]. eapply Z.le_lt_trans; [apply R |]. eapply Z.lt_le_trans; [exact B |]. apply Z.pow_le_mono_r; [lia |].
    apply inj_le. pose proof (Nat.div_mod (j + c' - 1) c' ltac:(lia)). pose proof (Nat.mod_upper_bound (j + c' - 1) c' ltac:(lia)). nia. }
  ebind. assert (P3 : p3_rep (default ge_p3_identity r) (msum l)).
  { destruct r as [r |]; [exact Hr |]. cbn [orep] in Hr. cbn [default from_option]. refine (p3_eq _ gzero _ _ _); [by symmetry | exact identity_rep]. }
  by rewrite (to_enc3 _ _ P3), call_Some.
Qed.

(** C14: both methods return the encoding of the sum of the multiples of the points, for
    every list of scalars of 32 bytes, reduced or not, with or without prepared multiples,
    for every size of a band and every width of a digit up to nine bits: the windows, the
    buckets and the bound on the bits lose nothing, and the two methods agree. *)
Theorem multiexp_correct data l scache STEP pcache n c : Forall2 holds data l -> straus_cache scache (length data) l ->
  pippenger_cache pcache n l -> (c <= 9)%nat ->
  straus data scache STEP = ret (enc (msum l)) /\ pippenger data pcache n c = ret (enc (msum l)).
Proof. intros H Hs Hp Hc. split; [by apply straus_ok | by apply pippenger_ok]. Qed.

Lemma multiexp_witness :
  straus [mk_me (replicate 32 255) ge_p3_H; mk_me (sbytes 300) ge_p3_H] None 1 =
    ret (enc (msum [(2 ^ 256 - 1, H_point); (300, H_point)])) /\
  pippenger [mk_me (replicate 32 255) ge_p3_H; mk_me (sbytes 300) ge_p3_H] None 0 0 =
    ret (enc (msum [(2 ^ 256 - 1, H_point); (300, H_point)])).
Proof.
  apply (multiexp_correct _ _ None 1 None 0 0).
  - constructor; [| constructor; [| constructor]]; (split; [| split; [| exact H_rep]]).
    + split; [done | apply Forall_replicate; unfold is_byte; lia].
    + vm_compute. reflexivity.
    + apply sbytes_bytes.
    + vm_compute. reflexivity.
  - exact I.
  - reflexivity.
  - lia.
Defined.
End MultiexpCorrect.
