(* ===== verification/Bulletproofs.v ===== *)
(** Bulletproofs of src/ringct/bulletproofs.cc: range proofs of logarithmic size for up to
    16 amounts at once, and the verification of a batch of them.

    The generators, which the first call computes and keeps with their caches, are the
    state [option exponents]: [None] before [init_done]. A challenge that is zero makes the
    prover start again with the random values that follow. *)
From S2P Require Import Prelude Pack Scalar Ge GeMult GeFromFe Keccak Varint Crypto RctData Exc RctOps Multiexp.

Local Open Scope Z_scope.

Module Bulletproofs.
Import Pack Scalar Ge GeMult GeFromFe Keccak Varint Crypto RctData Exc RctOps Multiexp.

Record Bulletproof := mk_bp {
  bp_V : keyV; bp_A : key; bp_S : key; bp_T1 : key; bp_T2 : key; bp_taux : key; bp_mu : key;
  bp_L : keyV; bp_R : keyV; bp_a : key; bp_b : key; bp_t : key }.

Definition STRAUS_SIZE_LIMIT : nat := 232.
Definition PIPPENGER_SIZE_LIMIT : nat := 0.
Definition maxN : nat := 64.
Definition maxM : nat := 16.

Definition TWO : key := 2 :: replicate 31 0.

Definition MINUS_ONE : key :=
  [0xec; 0xd3; 0xf5; 0x5c; 0x1a; 0x63; 0x12; 0x58; 0xd6; 0x9c; 0xf7; 0xa2; 0xde; 0xf9; 0xde; 0x14;
   0; 0; 0; 0; 0; 0; 0; 0; 0; 0; 0; 0; 0; 0; 0; 0x10].

Definition MINUS_INV_EIGHT : key :=
  [0x74; 0xa4; 0x19; 0x7a; 0xf0; 0x7d; 0x0b; 0xf7; 0x05; 0xc2; 0xda; 0x25; 0x2b; 0x5c; 0x0b; 0x0d;
   0; 0; 0; 0; 0; 0; 0; 0; 0; 0; 0; 0; 0; 0; 0; 0x0a].

(** ** The generators *)

Record exponents := mk_exps {
  Hi_p3 : list ge_p3; Gi_p3 : list ge_p3;
  straus_HiGi_cache : list (list ge_cached); pippenger_HiGi_cache : list ge_cached }.

(** The bytes of the string bulletproof. *)
Definition HASH_KEY_BULLETPROOF_EXPONENT : list Z := [98; 117; 108; 108; 101; 116; 112; 114; 111; 111; 102].

Definition get_exponent (base : key) (idx : nat) : exc key :=
  v <~ call (write_varint (Z.of_nat idx));
  h <~ call (cn_fast_hash (base ++ HASH_KEY_BULLETPROOF_EXPONENT ++ v));
  e_p3 <~ call (hash_to_p3 h);
  e <~ call (ge_p3_tobytes e_p3);
  _ <~ check (negb (key_eq e identity));
  ret e.

(** The generators from the index [i] on, [n] of each kind. *)
Fixpoint exponents_from (n i : nat) : exc (list ge_p3 * list ge_p3) :=
  match n with
  | O => ret ([], [])
  | S n =>
      Hi <~ get_exponent key_H (i * 2);
      h <~ ge_frombytes_vartime Hi;
      Gi <~ get_exponent key_H (i * 2 + 1);
      g <~ ge_frombytes_vartime Gi;
      '(hs, gs) <~ exponents_from n (S i);
      ret (h :: hs, g :: gs)
  end.

(** The points [G] and [H] in turn, with a scalar for each. *)
Definition interleave (a b : keyV) (G H : list ge_p3) : list MultiexpData :=
  concat (zip_with (fun s p => [mk_me s.1 p.1; mk_me s.2 p.2]) (zip a b) (zip G H)).

Definition init_exponents (st : option exponents) : exc exponents :=
  match st with
  | Some e => ret e
  | None =>
      '(hs, gs) <~ exponents_from (maxN * maxM) 0;
      let data := interleave (replicate (maxN * maxM) zero) (replicate (maxN * maxM) zero) gs hs in
      straus <~ straus_init_cache data STRAUS_SIZE_LIMIT;
      pippenger <~ pippenger_init_cache data 0 PIPPENGER_SIZE_LIMIT;
      ret (mk_exps hs gs straus pippenger)
  end.

Definition multiexp (e : exponents) (data : list MultiexpData) (HiGi_size : nat) : exc key :=
  if (0 <? HiGi_size)%nat then
    if (HiGi_size <=? 232)%nat && (length data =? HiGi_size)%nat then straus data (Some (straus_HiGi_cache e)) 0
    else pippenger data (Some (pippenger_HiGi_cache e)) HiGi_size (get_pippenger_c (length data))
  else
    if (length data <=? 95)%nat then straus data None 0 else pippenger data None 0 (get_pippenger_c (length data)).

Definition is_reduced (scalar : key) : bool := sc_check scalar =? 0.

Definition vector_exponent (e : exponents) (a b : keyV) : exc key :=
  _ <~ check (length a =? length b)%nat;
  _ <~ check (length a <=? maxN * maxM)%nat;
  multiexp e (interleave a b (Gi_p3 e) (Hi_p3 e)) (2 * length a).

(** The terms of a cross product; the scale is applied to the second scalar. *)
Fixpoint cross_terms (A B : list ge_p3) (a b : keyV) (scale : option keyV) : option (list MultiexpData) :=
  match A, B, a, b with
  | P :: A, Q :: B, x :: a, y :: b =>
      x ← sc_mul x INV_EIGHT;
      y ← sc_mul y INV_EIGHT;
      y ← match scale with None => Some y | Some s => f ← head s; sc_mul y f end;
      rest ← cross_terms A B a b (option_map tail scale);
      Some (mk_me x P :: mk_me y Q :: rest)
  | _, _, _, _ => Some []
  end.

Abbreviation sub l o n := (take n (drop o l)).

Definition cross_vector_exponent8 (e : exponents) (size : nat) (A : list ge_p3) (Ao : nat) (B : list ge_p3) (Bo : nat)
    (a : keyV) (ao : nat) (b : keyV) (bo : nat) (scale : option keyV) (extra_point : option ge_p3) (extra_scalar : option key) : exc key :=
  _ <~ check (size + Ao <=? length A)%nat;
  _ <~ check (size + Bo <=? length B)%nat;
  _ <~ check (size + ao <=? length a)%nat;
  _ <~ check (size + bo <=? length b)%nat;
  _ <~ check (size <=? maxN * maxM)%nat;
  _ <~ check (match scale with None => true | Some s => (size =? length s / 2)%nat end);
  _ <~ check (Bool.eqb (bool_decide (is_Some extra_point)) (bool_decide (is_Some extra_scalar)));
  terms <~ call (cross_terms (sub A Ao size) (sub B Bo size) (sub a ao size) (sub b bo size) (option_map (drop Bo) scale));
  extra <~ call (match extra_point, extra_scalar with
                 | Some p, Some s => s ← sc_mul s INV_EIGHT; Some [mk_me s p]
                 | _, _ => Some []
                 end);
  multiexp e (terms ++ extra) 0.

(** ** Vectors of scalars *)

Fixpoint more_powers (n : nat) (last x : key) : option keyV :=
  match n with
  | O => Some []
  | S n => p ← sc_mul last x; rest ← more_powers n p x; Some (p :: rest)
  end.

Definition vector_powers (x : key) (n : nat) : option keyV :=
  match n with
  | O => Some []
  | 1%nat => Some [identity]
  | S (S n) => rest ← more_powers n x x; Some (identity :: x :: rest)
  end.

(** [while (n > 2)]. *)
Fixpoint sum_doubling (fuel n : nat) (x res : key) : option key :=
  match fuel with
  | O => None
  | S fuel =>
      if (2 <? n)%nat then x ← sc_mul x x; res ← sc_muladd x res res; sum_doubling fuel (n / 2) x res
      else Some res
  end.

(** The powers from the index [i] on, [n] of them. *)
Fixpoint sum_powers (n i : nat) (x prev res : key) : option key :=
  match n with
  | O => Some res
  | S n =>
      prev ← (if (1 <? i)%nat then sc_mul prev x else Some prev);
      res ← sc_add res prev;
      sum_powers n (S i) x prev res
  end.

Definition vector_power_sum (x : key) (n : nat) : option key :=
  if (n =? 0)%nat then Some zero else if (n =? 1)%nat then Some identity else
  if (Nat.land n (n - 1) =? 0)%nat then res ← sc_add identity x; sum_doubling n n x res
  else sum_powers (n - 1) 1 x x identity.

Fixpoint product_loop (a b : keyV) (res : key) : option key :=
  match a, b with
  | x :: a, y :: b => res ← sc_muladd x y res; product_loop a b res
  | _, _ => Some res
  end.

Definition inner_product (a b : keyV) : exc key :=
  _ <~ check (length a =? length b)%nat;
  call (product_loop a b zero).

Fixpoint zip_keys (f : key -> key -> option key) (a b : keyV) : option keyV :=
  match a, b with
  | x :: a, y :: b => z ← f x y; rest ← zip_keys f a b; Some (z :: rest)
  | _, _ => Some []
  end.

Definition hadamard (a b : keyV) : exc keyV :=
  _ <~ check (length a =? length b)%nat;
  call (zip_keys sc_mul a b).

Definition vector_add (a b : keyV) : exc keyV :=
  _ <~ check (length a =? length b)%nat;
  call (zip_keys sc_add a b).

Definition vector_add_scalar (a : keyV) (b : key) : option keyV := mapM (fun x => sc_add x b) a.

Definition vector_subtract (a : keyV) (b : key) : option keyV := mapM (fun x => sc_sub x b) a.

Definition vector_scalar (a : keyV) (x : key) : option keyV := mapM (fun y => sc_mul y x) a.

Definition vector_dup (x : key) (N : nat) : keyV := replicate N x.

(** The first half of [v] folded with the second. *)
Fixpoint fold_points (v w : list ge_p3) (scale : option (keyV * keyV)) (a b : key) : option (list ge_p3) :=
  match v, w with
  | p :: v, q :: w =>
      c0 ← ge_dsm_precomp p;
      c1 ← ge_dsm_precomp q;
      sa ← match scale with None => Some a | Some s => f ← head s.1; sc_mul a f end;
      sb ← match scale with None => Some b | Some s => f ← head s.2; sc_mul b f end;
      r ← ge_double_scalarmult_precomp_vartime2_p3 p sa c0 sb c1;
      rest ← fold_points v w (option_map (fun s => (tail s.1, tail s.2)) scale) a b;
      Some (r :: rest)
  | _, _ => Some []
  end.

Definition hadamard_fold (v : list ge_p3) (scale : option keyV) (a b : key) : exc (list ge_p3) :=
  _ <~ check (Nat.even (length v));
  let sz := (length v / 2)%nat in
  call (fold_points (take sz v) (drop sz v) (option_map (fun s => (s, drop sz s)) scale) a b).

(** ** Inverses *)

Fixpoint square_times (n : nat) (y : key) : option key :=
  match n with O => Some y | S n => y ← sc_mul y y; square_times n y end.

Definition sm (y : key) (n : nat) (x : key) : option key :=
  y ← square_times n y; sc_mul y x.

Definition invert (x : key) : option key :=
  _10 ← sc_mul x x;
  _100 ← sc_mul _10 _10;
  _11 ← sc_mul _10 x;
  _101 ← sc_mul _10 _11;
  _111 ← sc_mul _10 _101;
  _1001 ← sc_mul _10 _111;
  _1011 ← sc_mul _10 _1001;
  _1111 ← sc_mul _100 _1011;
  inv ← sc_mul _1111 x;
  inv ← sm inv (123 + 3) _101;
  inv ← sm inv (2 + 2) _11;
  inv ← sm inv (1 + 4) _1111;
  inv ← sm inv (1 + 4) _1111;
  inv ← sm inv 4 _1001;
  inv ← sm inv 2 _11;
  inv ← sm inv (1 + 4) _1111;
  inv ← sm inv (1 + 3) _101;
  inv ← sm inv (3 + 3) _101;
  inv ← sm inv 3 _111;
  inv ← sm inv (1 + 4) _1111;
  inv ← sm inv (2 + 3) _111;
  inv ← sm inv (2 + 2) _11;
  inv ← sm inv (1 + 4) _1011;
  inv ← sm inv (2 + 4) _1011;
  inv ← sm inv (6 + 4) _1001;
  inv ← sm inv (2 + 2) _11;
  inv ← sm inv (3 + 2) _11;
  inv ← sm inv (3 + 2) _11;
  inv ← sm inv (1 + 4) _1001;
  inv ← sm inv (1 + 3) _111;
  inv ← sm inv (2 + 4) _1111;
  inv ← sm inv (1 + 4) _1011;
  inv ← sm inv 3 _101;
  inv ← sm inv (2 + 4) _1111;
  inv ← sm inv 3 _101;
  sm inv (1 + 2) _11.

(** The products of the entries before each one, and the product of all. *)
Fixpoint partial_products (first : bool) (acc : key) (x : keyV) : option (keyV * key) :=
  match x with
  | [] => Some ([], acc)
  | k :: x =>
      acc' ← (if first then Some k else sc_mul acc k);
      '(scratch, last) ← partial_products false acc' x;
      Some (acc :: scratch, last)
  end.

(** From the last entry down; the lists are reversed. *)
Fixpoint invert_down (x scratch : keyV) (acc : key) : option keyV :=
  match x, scratch with
  | k :: x, s :: scratch =>
      tmp ← sc_mul acc k;
      inv ← sc_mul acc s;
      rest ← invert_down x scratch tmp;
      Some (inv :: rest)
  | _, _ => Some []
  end.

Definition invertV (x : keyV) : option keyV :=
  '(scratch, acc) ← partial_products true identity x;
  acc ← invert acc;
  r ← invert_down (rev x) (rev scratch) acc;
  Some (rev r).

Definition slice (a : keyV) (start stop : nat) : exc keyV :=
  _ <~ check (start <? length a)%nat;
  _ <~ check (stop <=? length a)%nat;
  _ <~ check (start <? stop)%nat;
  ret (take (stop - start) (drop start a)).

(** The overloads take two, three or four keys. *)
Definition hash_cache_mash (hash_cache : key) (mash : keyV) : option key := rct_hash_to_scalar (concat (hash_cache :: mash)).

(** ** The prover *)

Definition oneN : keyV := vector_dup identity maxN.
Definition twoN : option keyV := vector_powers TWO maxN.
Definition ip12 : exc key := t <~ call twoN; inner_product oneN t.

(** [for (logM = 0; (M = 1<<logM) <= maxM && M < n; ++logM);]. *)
Fixpoint find_logM (fuel logM n : nat) : option nat :=
  match fuel with
  | O => None
  | S fuel => if (2 ^ logM <=? maxM)%nat && (2 ^ logM <? n)%nat then find_logM fuel (S logM) n else Some logM
  end.

Definition commit8 (sv gamma : key) : exc key :=
  gamma8 <~ call (sc_mul gamma INV_EIGHT);
  sv8 <~ call (sc_mul sv INV_EIGHT);
  addKeys2 gamma8 sv8 key_H.

Fixpoint commitments (sv gamma : keyV) : exc keyV :=
  match sv, gamma with
  | s :: sv, g :: gamma => v <~ commit8 s g; rest <~ commitments sv gamma; ret (v :: rest)
  | _, _ => ret []
  end.

Definition value_bit (sv : keyV) (n : nat) : bool :=
  match sv !! (n / maxN)%nat with
  | Some k => negb (Z.land (at_ k (n mod maxN / 8)%nat) (Z.shiftl 1 (Z.of_nat (n mod maxN mod 8))) =? 0)
  | None => false
  end.

Definition bit_keys (sv : keyV) (MN : nat) (one nought : key) : keyV :=
  map (fun n => if value_bit sv n then one else nought) (seq 0 MN).

(** [zero_twos]: [z^(j+2) 2^i] at the index [j * N + i]. *)
Definition scaled_twos (zpow : keyV) (MN : nat) : exc keyV :=
  t <~ call twoN;
  call (mapM (fun n => z ← zpow !! (n / maxN + 2)%nat; w ← t !! (n mod maxN)%nat; sc_mul z w) (seq 0 MN)).

(** The coefficients [l0], [l1], [r0], [r1] of the two polynomials. *)
Definition polynomials (aL aR sL sR zpow : keyV) (y z : key) : exc (keyV * keyV * keyV * keyV) :=
  let MN := length aL in
  l0 <~ call (vector_subtract aL z);
  zero_twos <~ scaled_twos zpow MN;
  r0 <~ call (vector_add_scalar aR z);
  yMN <~ call (vector_powers y MN);
  r0 <~ hadamard r0 yMN;
  r0 <~ vector_add r0 zero_twos;
  r1 <~ hadamard yMN sR;
  ret (l0, sL, r0, r1).

(** The point [b G + a H], both scalars divided by eight; [p3] is the variable that receives it. *)
Definition commit_coefficient (p3 : ge_p3) (a b : key) : option (ge_p3 * key) :=
  tmp ← sc_mul a INV_EIGHT;
  tmp2 ← sc_mul b INV_EIGHT;
  p3 ← ge_double_scalarmult_base_vartime_p3 p3 tmp ge_p3_H tmp2;
  T ← ge_p3_tobytes p3;
  Some (p3, T).

(** The powers of [z] are those from the second on. *)
Fixpoint mask_sum (zpow gamma : keyV) (taux : key) : exc key :=
  match gamma, zpow with
  | [], _ => ret taux
  | _ :: _, [] => throw
  | g :: gamma, z :: zpow => taux <~ call (sc_muladd z g taux); mask_sum zpow gamma taux
  end.

(** Lines 43 to 47 of the paper: [alpha], [sL], [sR], [rho], [A] and [S]. *)
Definition prove_AS (e : exponents) (aL8 aR8 : keyV) (tape : list key) : exc (key * keyV * keyV * key * key * key * list key) :=
  '(alpha, tape) <~ call (skGen tape);
  ve <~ vector_exponent e aL8 aR8;
  tmp <~ call (sc_mul alpha INV_EIGHT);
  aG <~ call (scalarmultBase tmp);
  A <~ addKeys ve aG;
  '(sL, tape) <~ skvGen (length aL8) tape;
  '(sR, tape) <~ skvGen (length aL8) tape;
  '(rho, tape) <~ call (skGen tape);
  ve <~ vector_exponent e sL sR;
  rG <~ call (scalarmultBase rho);
  S_ <~ addKeys ve rG;
  S_ <~ scalarmultKey S_ INV_EIGHT;
  ret (alpha, sL, sR, rho, A, S_, tape).

(** The rounds of the inner product; [None] when a challenge is zero. *)
Fixpoint inner_rounds (fuel : nat) (e : exponents) (x_ip : key) (Gprime Hprime : list ge_p3) (aprime bprime : keyV)
    (scale : option keyV) (hash_cache : key) (nprime : nat) : exc (option (keyV * keyV * key * key)) :=
  if (nprime <=? 1)%nat then a0 <~ call (head aprime); b0 <~ call (head bprime); ret (Some ([], [], a0, b0)) else
  match fuel with
  | O => None
  | S fuel =>
      let nprime := (nprime / 2)%nat in
      a0 <~ slice aprime 0 nprime; b1 <~ slice bprime nprime (length bprime);
      cL <~ inner_product a0 b1;
      a1 <~ slice aprime nprime (length aprime); b0 <~ slice bprime 0 nprime;
      cR <~ inner_product a1 b0;
      tmp <~ call (sc_mul cL x_ip);
      L <~ cross_vector_exponent8 e nprime Gprime nprime Hprime 0 aprime 0 bprime nprime scale (Some ge_p3_H) (Some tmp);
      tmp <~ call (sc_mul cR x_ip);
      R <~ cross_vector_exponent8 e nprime Gprime 0 Hprime nprime aprime nprime bprime 0 scale (Some ge_p3_H) (Some tmp);
      w <~ call (hash_cache_mash hash_cache [L; R]);
      if key_eq w zero then ret None else
      winv <~ call (invert w);
      '(Gprime, Hprime) <~ (if (1 <? nprime)%nat then
          Gprime <~ hadamard_fold Gprime None winv w;
          Hprime <~ hadamard_fold Hprime scale w winv;
          ret (Gprime, Hprime)
        else ret (Gprime, Hprime));
      wa <~ call (vector_scalar a0 w); wa' <~ call (vector_scalar a1 winv);
      aprime <~ vector_add wa wa';
      wb <~ call (vector_scalar b0 winv); wb' <~ call (vector_scalar b1 w);
      bprime <~ vector_add wb wb';
      rest <~ inner_rounds fuel e x_ip Gprime Hprime aprime bprime None w nprime;
      ret (match rest with Some (Ls, Rs, a, b) => Some (L :: Ls, R :: Rs, a, b) | None => None end)
  end.

(** From line 58 on, with the challenges [y] and [x]: the vectors at [x] and the inner product argument. *)
Definition prove_inner (e : exponents) (logMN : nat) (l0 l1 r0 r1 : keyV) (y x taux mu : key)
    : exc (option (key * (keyV * keyV * key * key))) :=
  let MN := length l0 in
  l1x <~ call (vector_scalar l1 x);
  l <~ vector_add l0 l1x;
  r1x <~ call (vector_scalar r1 x);
  r <~ vector_add r0 r1x;
  t <~ inner_product l r;
  x_ip <~ call (hash_cache_mash x [x; taux; mu; t]);
  if key_eq x_ip zero then ret None else
  yinv <~ call (invert y);
  yinvpow <~ call (vector_powers yinv MN);
  rest <~ inner_rounds logMN e x_ip (take MN (Gi_p3 e)) (take MN (Hi_p3 e)) l r (Some yinvpow) x_ip MN;
  ret (match rest with Some p => Some (t, p) | None => None end).

(** One pass from [try_again] on; [None] is another [goto try_again]. *)
Definition prove_try (e : exponents) (p3 : ge_p3) (logM : nat) (V gamma aL aR aL8 aR8 : keyV) (tape : list key)
    : exc (option Bulletproof * list key) :=
  hash_cache <~ call (hash_to_scalarV V);
  '(alpha, sL, sR, rho, A, S_, tape) <~ prove_AS e aL8 aR8 tape;
  y <~ call (hash_cache_mash hash_cache [A; S_]);
  if key_eq y zero then ret (None, tape) else
  z <~ call (rct_hash_to_scalar y);
  if key_eq z zero then ret (None, tape) else
  zpow <~ call (vector_powers z (2 ^ logM + 2));
  '(l0, l1, r0, r1) <~ polynomials aL aR sL sR zpow y z;
  t1_1 <~ inner_product l0 r1;
  t1_2 <~ inner_product l1 r0;
  t1 <~ call (sc_add t1_1 t1_2);
  t2 <~ inner_product l1 r1;
  '(tau1, tape) <~ call (skGen tape);
  '(tau2, tape) <~ call (skGen tape);
  '(p3, T1) <~ call (commit_coefficient p3 t1 tau1);
  '(_, T2) <~ call (commit_coefficient p3 t2 tau2);
  x <~ call (hash_cache_mash z [z; T1; T2]);
  if key_eq x zero then ret (None, tape) else
  taux <~ call (sc_mul tau1 x);
  xsq <~ call (sc_mul x x);
  taux <~ call (sc_muladd tau2 xsq taux);
  taux <~ mask_sum (drop 2 zpow) gamma taux;
  mu <~ call (sc_muladd x rho alpha);
  o <~ prove_inner e (logM + 6) l0 l1 r0 r1 y x taux mu;
  ret (match o with
       | Some (t, (L, R, a, b)) => Some (mk_bp V A S_ T1 T2 taux mu L R a b t)
       | None => None
       end, tape).

Fixpoint prove_loop (fuel : nat) (e : exponents) (p3 : ge_p3) (logM : nat) (V gamma aL aR aL8 aR8 : keyV) (tape : list key)
    : exc (Bulletproof * list key) :=
  match fuel with
  | O => None
  | S fuel =>
      '(o, tape) <~ prove_try e p3 logM V gamma aL aR aL8 aR8 tape;
      match o with Some proof => ret (proof, tape) | None => prove_loop fuel e p3 logM V gamma aL aR aL8 aR8 tape end
  end.

(** [p3] is the indeterminate value of the local variable that receives [T1]. *)
Definition bulletproof_PROVE (st : option exponents) (p3 : ge_p3) (sv gamma : keyV) (tape : list key)
    : exc (Bulletproof * exponents * list key) :=
  _ <~ check (length sv =? length gamma)%nat;
  _ <~ check (negb (length sv =? 0)%nat);
  _ <~ check (forallb is_reduced sv);
  _ <~ check (forallb is_reduced gamma);
  e <~ init_exponents st;
  logM <~ call (find_logM 6 0 (length sv));
  _ <~ check (2 ^ logM <=? maxM)%nat;
  let MN := (2 ^ logM * maxN)%nat in
  V <~ commitments sv gamma;
  let aL := bit_keys sv MN identity zero in
  let aL8 := bit_keys sv MN INV_EIGHT zero in
  let aR := bit_keys sv MN zero MINUS_ONE in
  let aR8 := bit_keys sv MN zero MINUS_INV_EIGHT in
  '(proof, tape) <~ prove_loop (length tape) e p3 logM V gamma aL aR aL8 aR8 tape;
  ret (proof, e, tape).

(** The overload that takes the amounts. *)
Definition bulletproof_PROVE_amounts (st : option exponents) (p3 : ge_p3) (v : list Z) (gamma : keyV) (tape : list key)
    : exc (Bulletproof * exponents * list key) :=
  _ <~ check (length v =? length gamma)%nat;
  bulletproof_PROVE st p3
    (map (fun a => map (fun i => Z.land (Z.shiftr a (8 * Z.of_nat i)) 255) (seq 0 8) ++ drop 8 zero) v) gamma tape.

(** ** The verifier *)

Record proof_data := mk_pd { pd_x : key; pd_y : key; pd_z : key; pd_x_ip : key; pd_w : keyV; pd_logM : nat }.

(** The challenges of the rounds; [None] when one is zero. *)
Fixpoint round_challenges (hash_cache : key) (L R : keyV) : option (option keyV) :=
  match L, R with
  | l :: L, r :: R =>
      w ← hash_cache_mash hash_cache [l; r];
      if key_eq w zero then Some None else
      rest ← round_challenges w L R;
      Some (match rest with Some ws => Some (w :: ws) | None => None end)
  | _, _ => Some (Some [])
  end.

(** The checks of a proof and its challenges; [None] when the verifier returns false. *)
Definition read_proof (proof : Bulletproof) : option (option proof_data) :=
  if negb (forallb is_reduced [bp_taux proof; bp_mu proof; bp_a proof; bp_b proof; bp_t proof]) then Some None else
  if negb (1 <=? length (bp_V proof))%nat then Some None else
  if negb (length (bp_L proof) =? length (bp_R proof))%nat then Some None else
  if negb (0 <? length (bp_L proof))%nat then Some None else
  hash_cache ← hash_to_scalarV (bp_V proof);
  y ← hash_cache_mash hash_cache [bp_A proof; bp_S proof];
  if key_eq y zero then Some None else
  z ← rct_hash_to_scalar y;
  if key_eq z zero then Some None else
  x ← hash_cache_mash z [z; bp_T1 proof; bp_T2 proof];
  if key_eq x zero then Some None else
  x_ip ← hash_cache_mash x [x; bp_taux proof; bp_mu proof; bp_t proof];
  if key_eq x_ip zero then Some None else
  logM ← find_logM 6 0 (length (bp_V proof));
  if negb (length (bp_L proof) =? 6 + logM)%nat then Some None else
  ws ← round_challenges x_ip (bp_L proof) (bp_R proof);
  Some (match ws with Some ws => Some (mk_pd x y z x_ip ws logM) | None => None end).

Fixpoint read_proofs (proofs : list Bulletproof) : option (option (list proof_data)) :=
  match proofs with
  | [] => Some (Some [])
  | p :: proofs =>
      d ← read_proof p;
      match d with
      | None => Some None
      | Some d =>
          rest ← read_proofs proofs;
          Some (match rest with Some ds => Some (d :: ds) | None => None end)
      end
  end.

(** The entries below [n] doubled, from the last down. *)
Fixpoint cache_pass (n : nat) (w winv : key) (w_cache : keyV) : option keyV :=
  match n with
  | O => Some w_cache
  | S h =>
      c ← w_cache !! h;
      hi ← sc_mul c w;
      let w_cache := <[(2 * h + 1)%nat := hi]> w_cache in
      c ← w_cache !! h;
      lo ← sc_mul c winv;
      cache_pass h w winv (<[(2 * h)%nat := lo]> w_cache)
  end.

Fixpoint cache_passes (slots : nat) (w winv : keyV) (w_cache : keyV) : option keyV :=
  match w, winv with
  | k :: w, kinv :: winv =>
      w_cache ← cache_pass slots k kinv w_cache;
      cache_passes (2 * slots) w winv w_cache
  | _, _ => Some w_cache
  end.

Definition challenge_products (w winv : keyV) : option keyV :=
  match w, winv with
  | k :: w', kinv :: winv' =>
      cache_passes 2 w' winv' (<[1%nat := k]> (<[0%nat := kinv]> (replicate (2 ^ length w) zero)))
  | _, _ => None
  end.

(** The scalars of the generators. The source checks that the indices of [zpow] and [twoN] are
    in range, here an index out of range is a failure. *)
Record generator_state := mk_gs { gs_z4 : keyV; gs_z5 : keyV; gs_yinvpow : key; gs_ypow : key }.

Section Verify.
Context (proof : Bulletproof) (pd : proof_data) (zpow two w_cache : keyV) (weight_z yinv : key) (MN : nat).

Definition generator_step (i : nat) (st : generator_state) : option generator_state :=
  h_scalar ← (if (i =? 0)%nat then Some (bp_b proof) else sc_mul (bp_b proof) (gs_yinvpow st));
  c ← w_cache !! i;
  g_scalar ← sc_mul (bp_a proof) c;
  c ← w_cache !! Z.to_nat (Z.land (Z.lnot (Z.of_nat i)) (Z.of_nat MN - 1));
  h_scalar ← sc_mul h_scalar c;
  g_scalar ← sc_add g_scalar (pd_z pd);
  zp ← zpow !! (2 + i / maxN)%nat;
  tw ← two !! (i mod maxN)%nat;
  tmp ← sc_mul zp tw;
  h_scalar ← (if (i =? 0)%nat then tmp ← sc_add tmp (pd_z pd); sc_sub h_scalar tmp
              else tmp ← sc_muladd (pd_z pd) (gs_ypow st) tmp; sc_mulsub tmp (gs_yinvpow st) h_scalar);
  m4 ← gs_z4 st !! i;
  m4 ← sc_mulsub g_scalar weight_z m4;
  m5 ← gs_z5 st !! i;
  m5 ← sc_mulsub h_scalar weight_z m5;
  yinvpow ← (if (i =? 0)%nat then Some yinv else if (i =? MN - 1)%nat then Some (gs_yinvpow st) else sc_mul (gs_yinvpow st) yinv);
  ypow ← (if (i =? 0)%nat then Some (pd_y pd) else if (i =? MN - 1)%nat then Some (gs_ypow st) else sc_mul (gs_ypow st) (pd_y pd));
  Some (mk_gs (<[i := m4]> (gs_z4 st)) (<[i := m5]> (gs_z5 st)) yinvpow ypow).

(** The indices from [i] on, [n] of them. *)
Fixpoint generator_loop (n i : nat) (st : generator_state) : option generator_state :=
  match n with
  | O => Some st
  | S n => st ← generator_step i st; generator_loop n (S i) st
  end.
End Verify.

(** [sc_mulsub(k, zpow[j+2], ip12, k)] for [j] from 1 to [M]; the list starts at [zpow[3]]. *)
Fixpoint subtract_powers (M : nat) (zpow : keyV) (ip12 k : key) : option key :=
  match M with
  | O => Some k
  | S M => z ← head zpow; k ← sc_mulsub z ip12 k; subtract_powers M (tail zpow) ip12 k
  end.

(** The points with the powers of [z] from the second on, weighted. *)
Fixpoint weighted (weight : key) (scalars : keyV) (points : list ge_p3) : option (list MultiexpData) :=
  match points with
  | [] => Some []
  | p :: points =>
      z ← head scalars;
      tmp ← sc_mul z weight;
      rest ← weighted weight (tail scalars) points;
      Some (mk_me tmp p :: rest)
  end.

(** The points [L] and [R] with the squares of the challenges and of their inverses, weighted. *)
Fixpoint round_terms (weight_z : key) (w winv : keyV) (L R : list ge_p3) : option (list MultiexpData) :=
  match w, winv, L, R with
  | k :: w, kinv :: winv, l :: L, r :: R =>
      tmp ← sc_mul k k;
      sl ← sc_mul tmp weight_z;
      tmp ← sc_mul kinv kinv;
      sr ← sc_mul tmp weight_z;
      rest ← round_terms weight_z w winv L R;
      Some (mk_me sl l :: mk_me sr r :: rest)
  | _, _, _, _ => Some []
  end.

Fixpoint points8 (keys : keyV) : exc (list ge_p3) :=
  match keys with
  | [] => ret []
  | k :: keys => p <~ scalarmult8_p3 k; rest <~ points8 keys; ret (p :: rest)
  end.

(** The weighted aggregates; [v_data] are the entries of [multiexp_data] after those of the generators. *)
Record aggregates := mk_agg { v_m_y0 : key; v_y1 : key; v_z1 : key; v_z3 : key; v_m_z4 : keyV; v_m_z5 : keyV; v_data : list MultiexpData }.

(** The scalars of [G] and [H] that one proof contributes to [m_y0] and [y1]. *)
Definition verify_line_61 (proof : Bulletproof) (pd : proof_data) (zpow : keyV) (weight_y m_y0 y1 : key) : exc (key * key) :=
  let M := (2 ^ pd_logM pd)%nat in
  m_y0 <~ call (sc_mulsub (bp_taux proof) weight_y m_y0);
  ip1y <~ call (vector_power_sum (pd_y pd) (M * maxN));
  z2 <~ call (zpow !! 2%nat);
  k <~ call (sc_mulsub z2 ip1y zero);
  ip <~ ip12;
  k <~ call (subtract_powers M (drop 3 zpow) ip k);
  tmp <~ call (sc_muladd (pd_z pd) ip1y k);
  tmp <~ call (sc_sub (bp_t proof) tmp);
  y1 <~ call (sc_muladd tmp weight_y y1);
  ret (m_y0, y1).

(** One proof of the second loop: [winv] and [yinv] are its inverses. *)
Definition verify_proof (proof : Bulletproof) (pd : proof_data) (winv : keyV) (yinv : key) (ag : aggregates) (tape : list key)
    : exc (aggregates * list key) :=
  let M := (2 ^ pd_logM pd)%nat in
  '(weight_y, tape) <~ call (skGen tape);
  '(weight_z, tape) <~ call (skGen tape);
  proof8_V <~ points8 (bp_V proof);
  proof8_L <~ points8 (bp_L proof);
  proof8_R <~ points8 (bp_R proof);
  proof8_T1 <~ scalarmult8_p3 (bp_T1 proof);
  proof8_T2 <~ scalarmult8_p3 (bp_T2 proof);
  proof8_S <~ scalarmult8_p3 (bp_S proof);
  proof8_A <~ scalarmult8_p3 (bp_A proof);
  zpow <~ call (vector_powers (pd_z pd) (M + 3));
  '(m_y0, y1) <~ verify_line_61 proof pd zpow weight_y (v_m_y0 ag) (v_y1 ag);
  data_V <~ call (weighted weight_y (drop 2 zpow) proof8_V);
  sT1 <~ call (sc_mul (pd_x pd) weight_y);
  xsq <~ call (sc_mul (pd_x pd) (pd_x pd));
  sT2 <~ call (sc_mul xsq weight_y);
  sS <~ call (sc_mul (pd_x pd) weight_z);
  w_cache <~ call (challenge_products (pd_w pd) winv);
  two <~ call twoN;
  gs <~ call (generator_loop proof pd zpow two w_cache weight_z yinv (M * maxN) (M * maxN) 0
                (mk_gs (v_m_z4 ag) (v_m_z5 ag) identity identity));
  z1 <~ call (sc_muladd (bp_mu proof) weight_z (v_z1 ag));
  data_LR <~ call (round_terms weight_z (pd_w pd) winv proof8_L proof8_R);
  tmp <~ call (sc_mulsub (bp_a proof) (bp_b proof) (bp_t proof));
  tmp <~ call (sc_mul tmp (pd_x_ip pd));
  z3 <~ call (sc_muladd tmp weight_z (v_z3 ag));
  ret (mk_agg m_y0 y1 z1 z3 (gs_z4 gs) (gs_z5 gs)
         (v_data ag ++ data_V ++ [mk_me sT1 proof8_T1; mk_me sT2 proof8_T2; mk_me weight_z proof8_A; mk_me sS proof8_S] ++ data_LR),
       tape).

(** The inverses are taken in order, those of the rounds and the one of [y]. *)
Fixpoint verify_proofs (proofs : list Bulletproof) (pds : list proof_data) (inverses : keyV) (ag : aggregates) (tape : list key)
    : exc (aggregates * list key) :=
  match proofs, pds with
  | p :: proofs, pd :: pds =>
      let rounds := (pd_logM pd + 6)%nat in
      yinv <~ call (inverses !! rounds);
      '(ag, tape) <~ verify_proof p pd (take rounds inverses) yinv ag tape;
      verify_proofs proofs pds (drop (rounds + 1) inverses) ag tape
  | _, _ => ret (ag, tape)
  end.

(** The first [n] entries of an array of [size] entries can be read. *)
Definition in_range (n size : nat) : option unit := if (n <=? size)%nat then Some tt else None.

Definition bulletproof_VERIFY (st : option exponents) (proofs : list Bulletproof) (tape : list key) : exc (bool * exponents * list key) :=
  e <~ init_exponents st;
  o <~ call (read_proofs proofs);
  match o with
  | None => ret (false, e, tape)
  | Some pds =>
      let max_length := foldl (fun m p => Nat.max m (length (bp_L p))) 0%nat proofs in
      if negb (max_length <? 32)%nat then ret (false, e, tape) else
      let maxMN := (2 ^ max_length)%nat in
      inverses <~ call (invertV (concat (map (fun pd => pd_w pd ++ [pd_y pd]) pds)));
      '(ag, tape) <~ verify_proofs proofs pds inverses
          (mk_agg zero zero zero zero (replicate maxMN zero) (replicate maxMN zero) []) tape;
      tmp <~ call (sc_sub (v_m_y0 ag) (v_z1 ag));
      data_G <~ MultiexpData_key tmp key_G;
      tmp <~ call (sc_sub (v_z3 ag) (v_y1 ag));
      data_H <~ MultiexpData_key tmp key_H;
      _ <~ call (in_range maxMN (length (Gi_p3 e)));
      _ <~ call (in_range maxMN (length (Hi_p3 e)));
      r <~ multiexp e (interleave (v_m_z4 ag) (v_m_z5 ag) (Gi_p3 e) (Hi_p3 e) ++ v_data ag ++ [data_G; data_H]) (2 * maxMN);
      ret (key_eq r identity, e, tape)
  end.
End Bulletproofs.
