(* ===== verification/RctTypes.v ===== *)
(** The signature of a RingCT transaction: the structures of src/ringct/rctTypes.h, the
    predicates on its type and the counts of the amounts that a Bulletproof covers
    (src/ringct/rctTypes.cpp). *)
From S2P Require Import Prelude RctOps Clsag Borromean Mlsag Bulletproofs.

Local Open Scope Z_scope.

Module RctTypes.
Import RctOps Clsag Borromean Mlsag Bulletproofs.

Definition RCTTypeNull : Z := 0.
Definition RCTTypeFull : Z := 1.
Definition RCTTypeSimple : Z := 2.
Definition RCTTypeBulletproof : Z := 3.
Definition RCTTypeBulletproof2 : Z := 4.
Definition RCTTypeCLSAG : Z := 5.

Inductive RangeProofType := RangeProofBorromean | RangeProofBulletproof | RangeProofMultiOutputBulletproof | RangeProofPaddedBulletproof.

Record RCTConfig := mk_config { range_proof_type : RangeProofType; bp_version : Z }.

Record rctSigBase := mk_base {
  type : Z; message : key; mixRing : list (list ctkey); pseudoOuts : keyV; ecdhInfo : list ecdhTuple; outPk : list ctkey; txnFee : Z }.

Record rctSigPrunable := mk_prunable {
  rangeSigs : list rangeSig; bulletproofs : list Bulletproof; MGs : list mgSig; CLSAGs : list clsag; p_pseudoOuts : keyV }.

Record rctSig := mk_rctSig { base :> rctSigBase; p : rctSigPrunable }.

Record multisig_out := mk_msout { ms_c : keyV; ms_mu_p : keyV; ms_c0 : keyV }.

Definition is_rct_simple (ty : Z) : bool :=
  (ty =? RCTTypeSimple) || (ty =? RCTTypeBulletproof) || (ty =? RCTTypeBulletproof2) || (ty =? RCTTypeCLSAG).

Definition is_rct_bulletproof (ty : Z) : bool :=
  (ty =? RCTTypeBulletproof) || (ty =? RCTTypeBulletproof2) || (ty =? RCTTypeCLSAG).

Definition is_rct_borromean (ty : Z) : bool := (ty =? RCTTypeSimple) || (ty =? RCTTypeFull).

(** The amounts of the outputs are masked by eight bytes and their masks are derived. *)
Definition short_amounts (ty : Z) : bool := (ty =? RCTTypeBulletproof2) || (ty =? RCTTypeCLSAG).

Definition get_pseudo_outs (rv : rctSig) : keyV :=
  if is_rct_bulletproof (type rv) then p_pseudoOuts (p rv) else pseudoOuts rv.

Definition BULLETPROOF_MAX_OUTPUTS : nat := 16.
Definition extra_bits : nat := 4.

(** The checks that both counts make; they return 0 when one fails. *)
Definition rounds_ok (proof : Bulletproof) : bool :=
  (6 <=? length (bp_L proof))%nat && (length (bp_L proof) =? length (bp_R proof))%nat && (length (bp_L proof) <=? 6 + extra_bits)%nat.

Definition n_bulletproof_amounts (proof : Bulletproof) : nat :=
  let slots := (2 ^ (length (bp_L proof) - 6))%nat in
  let V := length (bp_V proof) in
  if rounds_ok proof && (V <=? slots)%nat && (slots <? V * 2)%nat && (0 <? V)%nat then V else 0%nat.

Definition n_bulletproof_max_amounts (proof : Bulletproof) : nat :=
  if rounds_ok proof then (2 ^ (length (bp_L proof) - 6))%nat else 0%nat.

(** [numeric_limits<uint32_t>::max() - n] is a difference of unsigned 64-bit integers. *)
Fixpoint sum_amounts (count : Bulletproof -> nat) (n : Z) (proofs : list Bulletproof) : Z :=
  match proofs with
  | [] => n
  | proof :: proofs =>
      let n2 := Z.of_nat (count proof) in
      if negb (n2 <? u64 (0xffffffff - n)) then 0 else
      if n2 =? 0 then 0 else
      sum_amounts count (u64 (n + n2)) proofs
  end.

Definition n_bulletproof_amountsV (proofs : list Bulletproof) : Z := sum_amounts n_bulletproof_amounts 0 proofs.

Definition n_bulletproof_max_amountsV (proofs : list Bulletproof) : Z := sum_amounts n_bulletproof_max_amounts 0 proofs.
End RctTypes.
