(* ===== verification/RctSerial.v ===== *)
(** The binary form of a RingCT signature: the serializers of src/ringct/rctTypes.h.

    Fields that can be reconstructed are not saved: the message, the ring, the key images,
    the commitments of a Bulletproof and the destinations of the outputs. Loading leaves
    them as they are in the object that is loaded. A new element of a vector is zero. *)
From S2P Require Import Prelude Varint Archive RctData RctOps Clsag Borromean Mlsag Bulletproofs RctTypes.

Local Open Scope Z_scope.

Module RctSerial.
Import Varint Archive RctData RctOps Clsag Borromean Mlsag Bulletproofs RctTypes.

Definition serialize_key : ser key := serialize_blob 32.

(** A vector of keys with its size in front. *)
Definition serialize_keyV : ser keyV := container serialize_key zero.

(** Keys whose number is known. *)
Definition serialize_keys (n : nat) : ser keyV := custom_vector serialize_key zero n.

Definition serialize_ecdhTuple : ser ecdhTuple := fun v ar =>
  '(mask, ar) ← serialize_key (ecdh_mask v) ar;
  '(amount, ar) ← serialize_key (ecdh_amount v) ar;
  Some (mk_ecdh mask amount, ar).

(** The first eight bytes of the amount, the others zero. *)
Definition serialize_hash8 : ser ecdhTuple := fun v ar =>
  '(amount, ar) ← serialize_blob 8 (take 8 (ecdh_amount v)) ar;
  Some (mk_ecdh (ecdh_mask v) (match ar with saving _ => ecdh_amount v | loading _ => amount ++ replicate 24 0 end), ar).

Definition serialize_outPk_mask : ser ctkey := fun v ar =>
  '(m, ar) ← serialize_key (mask v) ar;
  Some (mk_ctkey (dest v) m, ar).

(** A blob of two arrays of 64 keys and a key. *)
Definition serialize_boroSig : ser boroSig := fun v ar =>
  '(s0, ar) ← serialize_keys 64 (b_s0 v) ar;
  '(s1, ar) ← serialize_keys 64 (b_s1 v) ar;
  '(ee, ar) ← serialize_key (b_ee v) ar;
  Some (mk_boro s0 s1 ee, ar).

Definition serialize_rangeSig : ser rangeSig := fun v ar =>
  '(asig, ar) ← serialize_boroSig (r_asig v) ar;
  '(Ci, ar) ← serialize_keys 64 (r_Ci v) ar;
  Some (mk_range asig Ci, ar).

Definition serialize_Bulletproof : ser Bulletproof := fun v ar =>
  '(A, ar) ← serialize_key (bp_A v) ar;
  '(S', ar) ← serialize_key (bp_S v) ar;
  '(T1, ar) ← serialize_key (bp_T1 v) ar;
  '(T2, ar) ← serialize_key (bp_T2 v) ar;
  '(taux, ar) ← serialize_key (bp_taux v) ar;
  '(mu, ar) ← serialize_key (bp_mu v) ar;
  '(L, ar) ← serialize_keyV (bp_L v) ar;
  '(R, ar) ← serialize_keyV (bp_R v) ar;
  '(a, ar) ← serialize_key (bp_a v) ar;
  '(b, ar) ← serialize_key (bp_b v) ar;
  '(t, ar) ← serialize_key (bp_t v) ar;
  if (length L =? 0)%nat || negb (length L =? length R)%nat then None else
  Some (mk_bp (bp_V v) A S' T1 T2 taux mu L R a b t, ar).

(** The content of a CLSAG of a ring of [n] members. *)
Definition serialize_clsag (n : nat) : ser clsag := fun v ar =>
  '(s, ar) ← serialize_keys n (cl_s v) ar;
  '(c1, ar) ← serialize_key (cl_c1 v) ar;
  '(D, ar) ← serialize_key (cl_D v) ar;
  Some (mk_clsag s c1 (cl_I v) D, ar).

(** The content of an MLSAG of a ring of [n] members and of [rows] keys each. *)
Definition serialize_mgSig (n rows : nat) : ser mgSig := fun v ar =>
  '(ss, ar) ← custom_vector (serialize_keys rows) [] n (mg_ss v) ar;
  '(cc, ar) ← serialize_key (mg_cc v) ar;
  Some (mk_mg ss cc (mg_II v), ar).

(** New elements. *)
Definition fresh_ecdh : ecdhTuple := mk_ecdh zero zero.
Definition fresh_ctkey : ctkey := mk_ctkey zero zero.
Definition fresh_range : rangeSig := mk_range (mk_boro (replicate 64 zero) (replicate 64 zero) zero) (replicate 64 zero).
Definition fresh_bp : Bulletproof := mk_bp [] zero zero zero zero zero zero [] [] zero zero zero.
Definition fresh_mg : mgSig := mk_mg [] zero [].
Definition fresh_clsag : clsag := mk_clsag [] zero zero zero.

Definition known_type (ty : Z) : bool :=
  (ty =? RCTTypeFull) || (ty =? RCTTypeSimple) || (ty =? RCTTypeBulletproof) || (ty =? RCTTypeBulletproof2) || (ty =? RCTTypeCLSAG).

Definition serialize_rctsig_base (inputs outputs : nat) : ser rctSigBase := fun v ar =>
  '(ty, ar) ← serialize_uint 1 (type v) ar;
  if ty =? RCTTypeNull then Some (mk_base ty (message v) (mixRing v) (pseudoOuts v) (ecdhInfo v) (outPk v) (txnFee v), ar) else
  if negb (known_type ty) then None else
  '(fee, ar) ← serialize_varint 64 (txnFee v) ar;
  '(pseudo, ar) ← when (ty =? RCTTypeSimple) (serialize_keys inputs) (pseudoOuts v) ar;
  '(ecdh, ar) ← custom_vector (if short_amounts ty then serialize_hash8 else serialize_ecdhTuple) fresh_ecdh outputs (ecdhInfo v) ar;
  '(outs, ar) ← custom_vector serialize_outPk_mask fresh_ctkey outputs (outPk v) ar;
  Some (mk_base ty (message v) (mixRing v) pseudo ecdh outs fee, ar).

(** The number of proofs, as a variable-length integer or as one of 32 bits. *)
Definition serialize_count (short : bool) : ser Z := if short then serialize_varint 32 else serialize_uint 4.

(** The number of proofs, which are at most as many as the outputs, and the proofs, which
    have room for the amounts of all outputs. *)
Definition serialize_bulletproofs (ty : Z) (outputs : nat) : ser (list Bulletproof) := fun v ar =>
  '(nbp, ar) ← serialize_count (short_amounts ty) (u32 (Z.of_nat (length v))) ar;
  if Z.of_nat outputs <? nbp then None else
  let n := Z.to_nat nbp in
  let v := prepare_custom_vector fresh_bp n v ar in
  '(l, ar) ← each serialize_Bulletproof (take n v) ar;
  let v := l ++ drop n v in
  if n_bulletproof_max_amountsV v <? Z.of_nat outputs then None else Some (v, ar).

Definition serialize_rctsig_prunable (ty : Z) (inputs outputs : nat) (mixin : Z) : ser rctSigPrunable := fun v ar =>
  if (0xffffffff <=? Z.of_nat inputs) || (0xffffffff <=? Z.of_nat outputs) || (0xffffffff <=? mixin) then None else
  if ty =? RCTTypeNull then Some (v, ar) else
  if negb (known_type ty) then None else
  let bulletproof := is_rct_bulletproof ty in
  let one_each := (ty =? RCTTypeSimple) || (ty =? RCTTypeBulletproof) || (ty =? RCTTypeBulletproof2) in
  let ring := Z.to_nat (mixin + 1) in
  '(bps, ar) ← when bulletproof (serialize_bulletproofs ty outputs) (bulletproofs v) ar;
  '(ranges, ar) ← when (negb bulletproof) (custom_vector serialize_rangeSig fresh_range outputs) (rangeSigs v) ar;
  '(cls, ar) ← when (ty =? RCTTypeCLSAG) (custom_vector (serialize_clsag ring) fresh_clsag inputs) (CLSAGs v) ar;
  '(mgs, ar) ← when (negb (ty =? RCTTypeCLSAG))
    (custom_vector (serialize_mgSig ring ((if one_each then 1 else inputs) + 1)) fresh_mg (if one_each then inputs else 1)) (MGs v) ar;
  '(pseudo, ar) ← when bulletproof (serialize_keys inputs) (p_pseudoOuts v) ar;
  Some (mk_prunable ranges bps mgs cls pseudo, ar).

(** ** Round trips of the parts *)

#[export] Instance key_codec : Codec serialize_key (is_bytes 32) overwrite.
Proof. exact (blob_codec 31). Qed.

#[export] Instance ecdh_codec : Codec serialize_ecdhTuple (fun v => is_bytes 32 (ecdh_mask v) /\ is_bytes 32 (ecdh_amount v)) overwrite.
Proof.
  intros v [Hm Ha]. part Hm as b N T. part Ha as c N' T'. unfold serialize_ecdhTuple. composite (b ++ c). by destruct v.
Qed.

Definition short_ok (v : ecdhTuple) : Prop := is_bytes 32 (ecdh_amount v).
Definition merge_short (old x : ecdhTuple) : ecdhTuple := mk_ecdh (ecdh_mask old) (take 8 (ecdh_amount x) ++ replicate 24 0).

#[export] Instance hash8_codec : Codec serialize_hash8 short_ok merge_short.
Proof.
  intros v [L B]. assert (H : is_bytes 8 (take 8 (ecdh_amount v))) by (split; [rewrite length_take; lia | by apply Forall_take]).
  part H as b N T. unfold serialize_hash8. composite b. done.
Qed.

Definition merge_out (old x : ctkey) : ctkey := mk_ctkey (dest old) (mask x).

#[export] Instance out_codec : Codec serialize_outPk_mask (fun v => is_bytes 32 (mask v)) merge_out.
Proof. intros v H. part H as b N T. unfold serialize_outPk_mask. composite b. done. Qed.

Definition keys_ok (n : nat) (l : keyV) : Prop := length l = n /\ Forall (is_bytes 32) l.

Lemma zip_overwrite {A} (olds l : list A) : length olds = length l -> zip_with overwrite olds l = l.
Proof. revert olds. induction l as [| x l IH]; intros [| o olds] L; [done.. |]. injection L as L. cbn [zip_with]. by rewrite IH. Qed.

Lemma keys_trip n l : keys_ok n l -> exists b, (n <= length b)%nat /\ trip (serialize_keys n) l b (fun _ => l).
Proof.
  intros [E H]. destruct (custom_vector_trip serialize_key zero (is_bytes 32) overwrite n l E H) as (b & Lb & [S L B]). exists b. split; [done |]. split; [done | | done].
  intros old rest. unfold serialize_keys. rewrite L. by rewrite zip_overwrite by (by rewrite resize_length).
Qed.

#[export] Instance keys_codec n : Codec (serialize_keys (S n)) (keys_ok (S n)) overwrite.
Proof. intros l H. destruct (keys_trip (S n) l H) as (b & Lb & T). exists b. split; [by destruct b; [simpl in Lb; lia |] | exact T]. Qed.

Lemma map_overwrite {A} (d : A) l : map (overwrite d) l = l.
Proof. induction l as [| x l IH]; [done |]. cbn [map]. by rewrite IH. Qed.

Definition keyV_ok (l : keyV) : Prop := Forall (is_bytes 32) l /\ Z.of_nat (length l) < 2 ^ 64.

#[export] Instance keyV_codec : Codec serialize_keyV keyV_ok overwrite.
Proof.
  intros l H. destruct (container_codec serialize_key zero (is_bytes 32) overwrite l H) as (b & N & [S L B]). exists b. split; [done |].
  split; [done | | done]. intros old rest. unfold serialize_keyV. by rewrite L, map_overwrite.
Qed.

Definition boro_ok (v : boroSig) : Prop := keys_ok 64 (b_s0 v) /\ keys_ok 64 (b_s1 v) /\ is_bytes 32 (b_ee v).

#[export] Instance boro_codec : Codec serialize_boroSig boro_ok overwrite.
Proof.
  intros v (H0 & H1 & He). part H0 as b0 N0 T0. part H1 as b1 N1 T1. part He as b2 N2 T2. unfold serialize_boroSig.
  composite (b0 ++ b1 ++ b2). by destruct v.
Qed.

Definition range_ok (v : rangeSig) : Prop := boro_ok (r_asig v) /\ keys_ok 64 (r_Ci v).

#[export] Instance range_codec : Codec serialize_rangeSig range_ok overwrite.
Proof. intros v (H0 & H1). part H0 as b0 N0 T0. part H1 as b1 N1 T1. unfold serialize_rangeSig. composite (b0 ++ b1). by destruct v. Qed.

Record bp_ok (v : Bulletproof) : Prop := {
  ok_points : Forall (is_bytes 32) [bp_A v; bp_S v; bp_T1 v; bp_T2 v];
  ok_scalars : Forall (is_bytes 32) [bp_taux v; bp_mu v; bp_a v; bp_b v; bp_t v];
  ok_rounds : keyV_ok (bp_L v) /\ keyV_ok (bp_R v);
  ok_sizes : bp_L v <> [] /\ length (bp_L v) = length (bp_R v) }.

Definition merge_bp (old x : Bulletproof) : Bulletproof :=
  mk_bp (bp_V old) (bp_A x) (bp_S x) (bp_T1 x) (bp_T2 x) (bp_taux x) (bp_mu x) (bp_L x) (bp_R x) (bp_a x) (bp_b x) (bp_t x).

#[export] Instance bp_codec : Codec serialize_Bulletproof bp_ok merge_bp.
Proof.
  intros v [HP HS [H7 H8] [NL E]]. apply Forall_cons_iff in HP as [H1 HP], HS as [H5 HS].
  apply Forall_cons_iff in HP as [H2 HP], HS as [H6 HS]. apply Forall_cons_iff in HP as [H3 HP], HS as [H9 HS].
  apply Forall_cons_iff in HP as [H4 HP], HS as [H10 HS]. apply Forall_cons_iff in HS as [H11 _]. clear HP.
  part H1 as b1 N1 T1. part H2 as b2 N2 T2. part H3 as b3 N3 T3. part H4 as b4 N4 T4. part H5 as b5 N5 T5. part H6 as b6 N6 T6.
  part H7 as b7 N7 T7. part H8 as b8 N8 T8. part H9 as b9 N9 T9. part H10 as b10 N10 T10. part H11 as b11 N11 T11.
  assert (C : (length (bp_L v) =? 0)%nat || negb (length (bp_L v) =? length (bp_R v))%nat = false).
  { rewrite E, Nat.eqb_refl, <- E. by destruct (bp_L v). }
  unfold serialize_Bulletproof, overwrite in *. composite (b1 ++ b2 ++ b3 ++ b4 ++ b5 ++ b6 ++ b7 ++ b8 ++ b9 ++ b10 ++ b11); rewrite C; [by destruct v | done].
Qed.

Record clsag_ok (n : nat) (v : clsag) : Prop := { cl_keys : keys_ok n (cl_s v); cl_points : is_bytes 32 (cl_c1 v) /\ is_bytes 32 (cl_D v) }.

Definition merge_clsag (old x : clsag) : clsag := mk_clsag (cl_s x) (cl_c1 x) (cl_I old) (cl_D x).

#[export] Instance clsag_codec n : Codec (serialize_clsag n) (clsag_ok n) merge_clsag.
Proof.
  intros v [Hs [H1 H2]]. destruct (keys_trip n _ Hs) as (b0 & _ & T0). part H1 as b1 N1 T1. part H2 as b2 N2 T2. unfold serialize_clsag.
  composite (b0 ++ b1 ++ b2). done.
Qed.

Record mg_ok (n rows : nat) (v : mgSig) : Prop := { mg_size : length (mg_ss v) = n; mg_keys : Forall (keys_ok (S rows)) (mg_ss v); mg_cc_ok : is_bytes 32 (mg_cc v) }.

Definition merge_mg (old x : mgSig) : mgSig := mk_mg (mg_ss x) (mg_cc x) (mg_II old).

#[export] Instance mg_codec n rows : Codec (serialize_mgSig n (S rows)) (mg_ok n rows) merge_mg.
Proof.
  intros v [L Hs Hc]. destruct (custom_vector_trip (serialize_keys (S rows)) [] _ _ n _ L Hs) as (b0 & _ & T0). part Hc as b1 N1 T1. unfold serialize_mgSig.
  composite (b0 ++ b1). by rewrite zip_overwrite by (by rewrite resize_length).
Qed.

(** ** Round trip of the base *)

Definition known (ty : Z) : Prop := ty = RCTTypeFull \/ ty = RCTTypeSimple \/ ty = RCTTypeBulletproof \/ ty = RCTTypeBulletproof2 \/ ty = RCTTypeCLSAG.

Lemma known_type_ok ty : known_type ty = true <-> known ty.
Proof.
  unfold known_type, known. rewrite !orb_true_iff, !Z.eqb_eq. tauto.
Qed.

Lemma known_byte ty : known ty -> 0 <= ty < 256 ^ Z.of_nat 1 /\ (ty =? RCTTypeNull) = false.
Proof. intros [-> | [-> | [-> | [-> | ->]]]]; split; try reflexivity; vm_compute; split; congruence. Qed.

(** The amounts of the outputs in the form the type asks for. *)
Definition ecdh_ok (ty : Z) (v : ecdhTuple) : Prop := is_bytes 32 (ecdh_amount v) /\ (short_amounts ty = false -> is_bytes 32 (ecdh_mask v)).
Definition merge_ecdh (ty : Z) (old x : ecdhTuple) : ecdhTuple := if short_amounts ty then merge_short old x else x.

Record base_ok (inputs outputs : nat) (v : rctSigBase) : Prop := {
  base_type : known (type v);
  base_fee : 0 <= txnFee v < 2 ^ 64;
  base_pseudo : type v = RCTTypeSimple -> keys_ok inputs (pseudoOuts v);
  base_ecdh : length (ecdhInfo v) = outputs /\ Forall (ecdh_ok (type v)) (ecdhInfo v);
  base_outs : length (outPk v) = outputs /\ Forall (fun k => is_bytes 32 (mask k)) (outPk v) }.

Definition merge_base (outputs : nat) (old x : rctSigBase) : rctSigBase :=
  mk_base (type x) (message old) (mixRing old) (if type x =? RCTTypeSimple then pseudoOuts x else pseudoOuts old)
    (zip_with (merge_ecdh (type x)) (resize fresh_ecdh outputs (ecdhInfo old)) (ecdhInfo x))
    (zip_with merge_out (resize fresh_ctkey outputs (outPk old)) (outPk x)) (txnFee x).

#[export] Instance ecdh_either ty : Codec (if short_amounts ty then serialize_hash8 else serialize_ecdhTuple) (ecdh_ok ty) (merge_ecdh ty).
Proof.
  intros v [Ha Hm]. unfold merge_ecdh. destruct (short_amounts ty); [exact (hash8_codec v Ha) | exact (ecdh_codec v (conj (Hm eq_refl) Ha))].
Qed.

#[export] Instance base_codec inputs outputs : Codec (serialize_rctsig_base inputs outputs) (base_ok inputs outputs) (merge_base outputs).
Proof.
  intros v [Ht Hf Hp [Le He] [Lo Ho]]. destruct (known_byte _ Ht) as [Hb Hn]. apply known_type_ok in Ht.
  destruct (uint_codec 0 _ Hb) as (b0 & N0 & T0). destruct (varint64_codec _ Hf) as (b1 & N1 & T1).
  destruct (when_trip (type v =? RCTTypeSimple) (serialize_keys inputs) (pseudoOuts v) (fun _ => pseudoOuts v)) as (b2 & T2).
  { intros E%Z.eqb_eq. destruct (keys_trip _ _ (Hp E)) as (b & _ & T). by exists b. }
  destruct (custom_vector_trip _ fresh_ecdh _ _ outputs _ Le He) as (b3 & _ & T3).
  destruct (custom_vector_trip _ fresh_ctkey _ _ outputs _ Lo Ho) as (b4 & _ & T4).
  unfold serialize_rctsig_base, overwrite in *. composite (b0 ++ b1 ++ b2 ++ b3 ++ b4); rewrite Hn, Ht; cbn [negb].
  - saves. rewrite <- ?app_assoc. by destruct v.
  - loads. done.
Qed.

(** ** Round trip of the prunable part *)

Lemma max_amounts_merge olds l n : length olds = length l ->
  sum_amounts n_bulletproof_max_amounts n (zip_with merge_bp olds l) = sum_amounts n_bulletproof_max_amounts n l.
Proof.
  revert olds n. induction l as [| x l IH]; intros [| o olds] n L; [done.. |]. injection L as L. cbn [zip_with sum_amounts].
  change (n_bulletproof_max_amounts (merge_bp o x)) with (n_bulletproof_max_amounts x). by rewrite IH.
Qed.

Record proofs_ok (outputs : nat) (l : list Bulletproof) : Prop := {
  proofs_each : Forall bp_ok l;
  proofs_size : (length l <= outputs)%nat;
  proofs_room : Z.of_nat outputs <= n_bulletproof_max_amountsV l }.

Lemma count_trip (short : bool) n : 0 <= n < 2 ^ 32 -> exists b, trip (serialize_count short) n b (fun _ => n).
Proof.
  intros H. destruct short.
  - destruct (varint_trip 32 n ltac:(lia) H) as (b & _ & T). by exists b.
  - destruct (uint_codec 3 n H) as (b & _ & T). by exists b.
Qed.

Lemma proofs_trip ty outputs l : Z.of_nat outputs < 0xffffffff -> proofs_ok outputs l -> exists b,
  trip (serialize_bulletproofs ty outputs) l b (fun old => zip_with merge_bp (resize fresh_bp (length l) old) l).
Proof.
  intros Ho [He Hs Hr]. destruct (count_trip (short_amounts ty) (Z.of_nat (length l)) ltac:(lia)) as (b0 & T0).
  destruct (each_trip _ _ _ l He) as (b1 & _ & B1 & S1 & L1). exists (b0 ++ b1). unfold serialize_bulletproofs.
  assert (E : (Z.of_nat outputs <? Z.of_nat (length l)) = false) by lia. split.
  - intros out. rewrite (wrap_small 32) by lia. saves. rewrite E, Nat2Z.id. cbn [prepare_custom_vector]. rewrite take_ge, drop_ge, S1 by lia. bind.
    rewrite app_nil_r, (proj2 (Z.ltb_ge _ _)) by done. by rewrite app_assoc.
  - intros old rest. rewrite <- app_assoc. loads. rewrite E, Nat2Z.id. cbn [prepare_custom_vector].
    rewrite take_ge, drop_ge, L1 by (rewrite resize_length; done). bind. unfold n_bulletproof_max_amountsV.
    rewrite app_nil_r, max_amounts_merge by apply resize_length. by rewrite (proj2 (Z.ltb_ge _ _)).
  - apply Forall_app_2; [by eapply trip_bytes | done].
Qed.

Definition one_each (ty : Z) : bool := (ty =? RCTTypeSimple) || (ty =? RCTTypeBulletproof) || (ty =? RCTTypeBulletproof2).
Definition mg_count (ty : Z) (inputs : nat) : nat := if one_each ty then inputs else 1.
Definition mg_rows (ty : Z) (inputs : nat) : nat := if one_each ty then 1 else inputs.

(** What a signature of the type [ty] has, for rings of [ring] members. *)
Record prunable_ok (ty : Z) (inputs outputs ring : nat) (v : rctSigPrunable) : Prop := {
  pr_type : known ty;
  pr_small : Z.of_nat inputs < 0xffffffff /\ Z.of_nat outputs < 0xffffffff /\ 0 < Z.of_nat ring <= 0xffffffff;
  pr_proofs : is_rct_bulletproof ty = true -> proofs_ok outputs (bulletproofs v);
  pr_ranges : is_rct_bulletproof ty = false -> length (rangeSigs v) = outputs /\ Forall range_ok (rangeSigs v);
  pr_clsags : ty = RCTTypeCLSAG -> length (CLSAGs v) = inputs /\ Forall (clsag_ok ring) (CLSAGs v);
  pr_mgs : ty <> RCTTypeCLSAG -> length (MGs v) = mg_count ty inputs /\ Forall (mg_ok ring (mg_rows ty inputs)) (MGs v);
  pr_pseudo : is_rct_bulletproof ty = true -> keys_ok inputs (p_pseudoOuts v) }.

(** The loaded value: the parts that the type has are those of [x], with the fields that are not saved of [old]. *)
Definition merge_prunable (ty : Z) (inputs outputs : nat) (old x : rctSigPrunable) : rctSigPrunable :=
  mk_prunable
    (if is_rct_bulletproof ty then rangeSigs old else rangeSigs x)
    (if is_rct_bulletproof ty then zip_with merge_bp (resize fresh_bp (length (bulletproofs x)) (bulletproofs old)) (bulletproofs x) else bulletproofs old)
    (if ty =? RCTTypeCLSAG then MGs old else zip_with merge_mg (resize fresh_mg (mg_count ty inputs) (MGs old)) (MGs x))
    (if ty =? RCTTypeCLSAG then zip_with merge_clsag (resize fresh_clsag inputs (CLSAGs old)) (CLSAGs x) else CLSAGs old)
    (if is_rct_bulletproof ty then p_pseudoOuts x else p_pseudoOuts old).

Lemma prunable_trip ty inputs outputs ring v : prunable_ok ty inputs outputs ring v -> exists b,
  trip (serialize_rctsig_prunable ty inputs outputs (Z.of_nat ring - 1)) v b (fun old => merge_prunable ty inputs outputs old v).
Proof.
  intros [Ht (Hi & Ho & Hr) Hb Hg Hc Hm Hp]. destruct (known_byte _ Ht) as [_ Hn]. apply known_type_ok in Ht.
  destruct (when_trip (is_rct_bulletproof ty) _ (bulletproofs v) _ (fun E => proofs_trip ty outputs _ Ho (Hb E))) as (b0 & T0).
  destruct (when_trip (negb (is_rct_bulletproof ty)) (custom_vector serialize_rangeSig fresh_range outputs) (rangeSigs v) (fun _ => rangeSigs v)) as (b1 & T1).
  { intros E%negb_true_iff. destruct (Hg E) as [L F]. destruct (custom_vector_trip _ fresh_range _ _ outputs _ L F) as (b & _ & [S1 L1 B1]). exists b.
    split; [done | | done]. intros old rest. by rewrite L1, zip_overwrite by (by rewrite resize_length). }
  destruct (when_trip (ty =? RCTTypeCLSAG) (custom_vector (serialize_clsag ring) fresh_clsag inputs) (CLSAGs v)
    (fun old => zip_with merge_clsag (resize fresh_clsag inputs old) (CLSAGs v))) as (b2 & T2).
  { intros E%Z.eqb_eq. destruct (Hc E) as [L F]. destruct (custom_vector_trip _ fresh_clsag _ _ inputs _ L F) as (b & _ & T). by exists b. }
  destruct (when_trip (negb (ty =? RCTTypeCLSAG)) (custom_vector (serialize_mgSig ring (S (mg_rows ty inputs))) fresh_mg (mg_count ty inputs)) (MGs v)
    (fun old => zip_with merge_mg (resize fresh_mg (mg_count ty inputs) old) (MGs v))) as (b3 & T3).
  { intros E%negb_true_iff%Z.eqb_neq. destruct (Hm E) as [L F]. destruct (custom_vector_trip _ fresh_mg _ _ (mg_count ty inputs) _ L F) as (b & _ & T). by exists b. }
  destruct (when_trip (is_rct_bulletproof ty) (serialize_keys inputs) (p_pseudoOuts v) (fun _ => p_pseudoOuts v)) as (b4 & T4).
  { intros E. destruct (keys_trip _ _ (Hp E)) as (b & _ & T). by exists b. }
  exists (b0 ++ b1 ++ b2 ++ b3 ++ b4). unfold serialize_rctsig_prunable. rewrite Hn, Ht. cbn [negb].
  rewrite !(proj2 (Z.leb_gt _ _)) by lia. cbn [orb]. fold (one_each ty). replace (Z.of_nat ring - 1 + 1) with (Z.of_nat ring) by ring. rewrite Nat2Z.id.
  fold (mg_count ty inputs) (mg_rows ty inputs). rewrite (Nat.add_1_r (mg_rows ty inputs)). split.
  - intros out. saves. rewrite <- ?app_assoc. by destruct v.
  - intros old rest. rewrite <- ?app_assoc. loads. unfold merge_prunable. by destruct (is_rct_bulletproof ty), (ty =? RCTTypeCLSAG).
  - repeat (apply Forall_app_2; [by eapply trip_bytes |]). by eapply trip_bytes.
Qed.
End RctSerial.
