(* ===== verification/RctCanon.v ===== *)
(** The binary form of a RingCT signature is canonical: what the serializers of
    RctSerial.v load is what they save. *)
From S2P Require Import Prelude Varint Archive RctData RctOps Clsag Borromean Mlsag Bulletproofs RctTypes RctSerial.

Local Open Scope Z_scope.

Module RctCanon.
Import Varint Archive RctData RctOps Clsag Borromean Mlsag Bulletproofs RctTypes RctSerial.

#[export] Instance key_canonical : Canonical false false serialize_key.
Proof. exact (blob_canonical 31). Qed.

#[export] Instance keys_canonical n : Canonical false true (serialize_keys n).
Proof. apply (custom_vector_canonical false false). exact key_canonical. Qed.

#[export] Instance keyV_canonical : Canonical true false serialize_keyV.
Proof. exact (container_canonical false false serialize_key zero eq_refl). Qed.

#[export] Instance ecdh_canonical : Canonical false false serialize_ecdhTuple.
Proof.
  intros old inp y ar B H. unfold serialize_ecdhTuple in H. took H B as m B1 C1. took H B1 as a B2 C2. injection H as <- <-.
  whole C1 as b1 N1 S1. whole C2 as b2 N2 S2. read_as (b1 ++ b2). unfold serialize_ecdhTuple. split; intros o; cbn [ecdh_mask ecdh_amount]; finish.
Qed.

#[export] Instance hash8_canonical : Canonical false false serialize_hash8.
Proof.
  intros old inp y ar B H. unfold serialize_hash8 in H. took H B as a B1 C1. injection H as <- <-. whole C1 as b1 N1 S1.
  assert (E : take 8 (a ++ replicate 24 0) = a /\ a = b1).
  { pose proof (again_load _ _ _ _ S1 []) as L. unfold serialize_blob in L. destruct (Nat.leb_spec 8 (length (b1 ++ []))) as [L8 |]; [| done].
    injection L as <- L. rewrite app_nil_r in *. split; [apply take_app_length'; rewrite length_take; lia |]. rewrite <- (take_drop 8 b1) at 2. by rewrite L, app_nil_r. }
  destruct E as [E ->]. read_as b1. unfold serialize_hash8. split.
  - intros out. cbn [ecdh_amount ecdh_mask]. cbn [replicate] in E. by rewrite E, (again_save _ _ _ _ S1).
  - intros rest. by reloads.
Qed.

#[export] Instance out_canonical : Canonical false false serialize_outPk_mask.
Proof.
  intros old inp y ar B H. unfold serialize_outPk_mask in H. took H B as m B1 C1. injection H as <- <-. whole C1 as b1 N1 S1.
  read_as b1. unfold serialize_outPk_mask. split; intros o; cbn [mask dest]; finish.
Qed.

#[export] Instance boro_canonical : Canonical false false serialize_boroSig.
Proof.
  intros old inp y ar B H. unfold serialize_boroSig in H. took H B as s0 B1 C1. took H B1 as s1 B2 C2. took H B2 as ee B3 C3. injection H as <- <-.
  whole C1 as b1 N1 S1. whole C2 as b2 N2 S2. whole C3 as b3 N3 S3. read_as ((b1 ++ b2) ++ b3). unfold serialize_boroSig.
  split; intros o; cbn [b_s0 b_s1 b_ee]; finish.
Qed.

#[export] Instance range_canonical : Canonical false false serialize_rangeSig.
Proof.
  intros old inp y ar B H. unfold serialize_rangeSig in H. took H B as asig B1 C1. took H B1 as Ci B2 C2. injection H as <- <-.
  whole C1 as b1 N1 S1. whole C2 as b2 N2 S2. read_as (b1 ++ b2). unfold serialize_rangeSig. split; intros o; cbn [r_asig r_Ci]; finish.
Qed.

#[export] Instance clsag_canonical n : Canonical false false (serialize_clsag n).
Proof.
  intros old inp y ar B H. unfold serialize_clsag in H. took H B as s B1 C1. took H B1 as c1 B2 C2. took H B2 as D B3 C3. injection H as <- <-.
  whole C1 as b1 N1 S1. whole C2 as b2 N2 S2. whole C3 as b3 N3 S3. read_as ((b1 ++ b2) ++ b3). unfold serialize_clsag.
  split; intros o; cbn [cl_s cl_c1 cl_D cl_I]; finish.
Qed.

#[export] Instance mg_canonical n rows : Canonical false false (serialize_mgSig n rows).
Proof.
  intros old inp y ar B H. unfold serialize_mgSig in H. took H B as ss B1 C1. took H B1 as cc B2 C2. injection H as <- <-.
  whole C1 as b1 N1 S1. whole C2 as b2 N2 S2. read_as (b1 ++ b2). unfold serialize_mgSig. split; intros o; cbn [mg_ss mg_cc mg_II]; finish.
Qed.

#[export] Instance bp_canonical : Canonical false false serialize_Bulletproof.
Proof.
  intros old inp y ar B H. unfold serialize_Bulletproof in H. took H B as A B1 C1. took H B1 as S' B2 C2. took H B2 as T1 B3 C3. took H B3 as T2 B4 C4.
  took H B4 as taux B5 C5. took H B5 as mu B6 C6. took H B6 as L B7 C7. took H B7 as R B8 C8. took H B8 as a B9 C9. took H B9 as b B10 C10.
  took H B10 as t B11 C11. destruct ((length L =? 0)%nat || negb (length L =? length R)%nat) eqn:Sz; [done |]. injection H as <- <-.
  whole C1 as b1 N1 S1. whole C2 as b2 N2 S2. whole C3 as b3 N3 S3. whole C4 as b4 N4 S4. whole C5 as b5 N5 S5. whole C6 as b6 N6 S6.
  whole C9 as b9 N9 S9. whole C10 as b10 N10 S10. whole C11 as b11 N11 S11.
  destruct C8 as [(b8 & _ & -> & S8) | [_ E8]]; [| ended]. destruct C7 as [(b7 & _ & -> & S7) | [_ E7]]; [| ended].
  read_as (b1 ++ b2 ++ b3 ++ b4 ++ b5 ++ b6 ++ b7 ++ b8 ++ b9 ++ b10 ++ b11). unfold serialize_Bulletproof.
  split; intros o; cbn [bp_A bp_S bp_T1 bp_T2 bp_taux bp_mu bp_L bp_R bp_a bp_b bp_t bp_V]; finish.
Qed.

(** ** The whole signature *)

#[export] Instance either_canonical lax void (c : bool) {A} (s t : ser A) :
  Canonical lax void s -> Canonical lax void t -> Canonical lax void (if c then s else t).
Proof. by destruct c. Qed.

#[export] Instance when_exact c {A} (s : ser A) : Canonical false true s -> Canonical false true (when c s).
Proof. apply when_canonical. Qed.

(** The base may end the input inside the fee, when nothing follows it. *)
Lemma base_loaded inputs outputs old inp y ar : Forall is_byte inp -> serialize_rctsig_base inputs outputs old (loading inp) = Some (y, ar) ->
  loaded (negb (type y =? RCTTypeNull)) false (serialize_rctsig_base inputs outputs) old inp y ar.
Proof.
  intros B H. unfold serialize_rctsig_base in H. took H B as ty B1 C1. whole C1 as b1 N1 S1. destruct (ty =? RCTTypeNull) eqn:Hn.
  { injection H as <- <-. read_as b1. unfold serialize_rctsig_base. split; intros o; cbn [type message mixRing pseudoOuts ecdhInfo outPk txnFee]; finish. }
  destruct (negb (known_type ty)) eqn:Hk; [done |]. took H B1 as fee B2 C2. took H B2 as pseudo B3 C3. took H B3 as ecdh B4 C4. took H B4 as outs B5 C5.
  injection H as <- <-. whole C3 as b3 N3 S3. whole C4 as b4 N4 S4. whole C5 as b5 N5 S5. destruct C2 as [(b2 & _ & -> & S2) | [_ E]].
  - read_as (b1 ++ b2 ++ b3 ++ b4 ++ b5). unfold serialize_rctsig_base. split; intros o; cbn [type txnFee pseudoOuts ecdhInfo outPk message mixRing]; finish.
  - eexists. split; [reflexivity |]. split; [done |]. right. cbn [type]. rewrite Hn. split; [done |]. ended.
Qed.

Lemma u32_size (n : nat) v : n = Z.to_nat v -> 0 <= v < 2 ^ 32 -> u32 (Z.of_nat n) = v.
Proof. intros -> H. rewrite Z2Nat.id by lia. by apply wrap_small. Qed.

#[export] Instance count_canonical short : Canonical true false (serialize_count short).
Proof.
  destruct short; [apply varint_canonical_load; lia |]. intros old inp y ar B H. exact (loaded_lax _ _ _ _ _ _ _ (uint_canonical 3 old inp y ar B H)).
Qed.

Lemma count_range short old inp n ar : Forall is_byte inp -> serialize_count short old (loading inp) = Some (n, ar) -> 0 <= n < 2 ^ 32.
Proof.
  intros B H. destruct short; [by apply (varint_nonneg 32 old inp n ar) |].
  unfold serialize_count, serialize_uint in H. destruct (4 <=? length inp)%nat eqn:L; [| done]. injection H as <- _. apply Nat.leb_le in L.
  pose proof (le_combine_bounds (take 4 inp) ltac:(by apply Forall_take)) as R. by rewrite length_take_le in R.
Qed.

Lemma reload_count short old m y b : again (serialize_count short) old y b -> forall rest, serialize_count short m (loading (b ++ rest)) = Some (y, loading rest).
Proof. intros [_ L] rest. rewrite <- (L rest). by destruct short. Qed.

#[export] Instance proofs_canonical ty outputs : Canonical true true (serialize_bulletproofs ty outputs).
Proof.
  intros old inp y ar B H. unfold serialize_bulletproofs in H. apply bind_Some in H as ([n ar1] & E & H).
  pose proof (count_range _ _ _ _ _ B E) as Rn. destruct (count_canonical _ _ _ _ _ B E) as (r1 & -> & B1 & C1). clear E. cbn beta iota zeta in H.
  destruct (Z.of_nat outputs <? n) eqn:Hn; [done |].
  cbn [prepare_custom_vector] in H. rewrite take_ge, drop_ge in H by (rewrite resize_length; lia). apply bind_Some in H as ([l ar2] & E & H).
  destruct (each_canonical false false _ _ _ _ _ B1 E) as (r2 & -> & B2 & L & C2). clear E. rewrite app_nil_r in H. rewrite resize_length in L.
  destruct (n_bulletproof_max_amountsV l <? Z.of_nat outputs) eqn:Hm; [done |]. injection H as <- <-.
  destruct C2 as [(b2 & -> & _ & S2) | [? ?]]; [| done]. destruct C1 as [(b1 & _ & -> & S1) | [_ E]].
  - read_as (b1 ++ b2). unfold serialize_bulletproofs. split.
    + intros out. rewrite (u32_size _ n L Rn). rewrite (again_save _ _ _ _ S1). bind. rewrite Hn. cbn [prepare_custom_vector].
      rewrite take_ge, drop_ge by lia. rewrite (again_save _ _ _ _ S2). bind. rewrite app_nil_r, Hm. by rewrite <- app_assoc.
    + intros rest. rewrite <- app_assoc, (reload_count _ _ _ _ _ S1). bind. rewrite Hn. cbn [prepare_custom_vector].
      rewrite take_ge, drop_ge by (rewrite resize_length; lia). rewrite (again_load _ _ _ _ S2). bind. by rewrite app_nil_r, Hm.
  - cut_off.
Qed.

#[export] Instance when_proofs c ty outputs : Canonical true true (when c (serialize_bulletproofs ty outputs)).
Proof. apply (when_canonical c true true), proofs_canonical. Qed.

Lemma pseudo_strict ty inputs : inputs <> O -> Canonical false (negb (is_rct_bulletproof ty)) (when (is_rct_bulletproof ty) (serialize_keys inputs)).
Proof.
  intros Hi. destruct (is_rct_bulletproof ty); cbn [negb]; [| by apply (when_canonical false false true), keys_canonical].
  exact (custom_vector_strict false false serialize_key zero inputs eq_refl Hi).
Qed.

Lemma mgs_strict ty inputs ring rows : inputs <> O -> Canonical false (is_rct_bulletproof ty)
  (when (negb (ty =? RCTTypeCLSAG)) (custom_vector (serialize_mgSig ring rows) fresh_mg (mg_count ty inputs))).
Proof.
  intros Hi. assert (Hm : mg_count ty inputs <> O) by (unfold mg_count; by destruct (one_each ty)).
  destruct (is_rct_bulletproof ty) eqn:E; [by apply (when_canonical _ false true), (custom_vector_canonical false false), mg_canonical |].
  unfold is_rct_bulletproof in E. apply orb_false_iff in E as [_ ->]. exact (custom_vector_strict false false _ fresh_mg _ eq_refl Hm).
Qed.

(** The prunable part of a signature with inputs ends in keys. *)
Lemma prunable_loaded ty inputs outputs mixin old inp y ar : inputs <> O -> (ty =? RCTTypeNull) = false -> Forall is_byte inp ->
  serialize_rctsig_prunable ty inputs outputs mixin old (loading inp) = Some (y, ar) ->
  loaded false false (serialize_rctsig_prunable ty inputs outputs mixin) old inp y ar.
Proof.
  intros Hi Hn B H. unfold serialize_rctsig_prunable in H.
  destruct ((0xffffffff <=? Z.of_nat inputs) || (0xffffffff <=? Z.of_nat outputs) || (0xffffffff <=? mixin)) eqn:Hs; [done |]. rewrite Hn in H.
  destruct (negb (known_type ty)) eqn:Hk; [done |]. cbn zeta in H. fold (one_each ty) in H. fold (mg_count ty inputs) in H.
  pose proof (mgs_strict ty inputs (Z.to_nat (mixin + 1)) ((if one_each ty then 1 else inputs) + 1) Hi) as K4. pose proof (pseudo_strict ty inputs Hi) as K5.
  took H B as bps B1 C1. took H B1 as ranges B2 C2. took H B2 as cls B3 C3. took H B3 as mgs B4 C4. took H B4 as pseudo B5 C5. injection H as <- <-.
  whole C2 as b2 N2 S2. whole C3 as b3 N3 S3. whole C4 as b4 N4 S4. whole C5 as b5 N5 S5. clear K4 K5.
  assert (N : b4 ++ b5 <> []) by (destruct (is_rct_bulletproof ty); [apply app_nonempty_r | apply app_nonempty]; auto).
  destruct C1 as [(b1 & _ & -> & S1) | [_ E]].
  - eexists. split; [reflexivity |]. split; [done |]. left. exists (b1 ++ b2 ++ b3 ++ b4 ++ b5). split; [intros _; by do 3 apply app_nonempty_r |].
    split; [by rewrite <- ?app_assoc |]. unfold serialize_rctsig_prunable. split; intros o; rewrite Hs, Hn, Hk; cbn zeta; fold (one_each ty);
      fold (mg_count ty inputs); cbn [bulletproofs rangeSigs CLSAGs MGs p_pseudoOuts]; finish.
  - destruct N. rewrite !app_assoc in E. apply app_eq_nil in E as [E _]. rewrite <- !app_assoc in E. by do 2 apply app_eq_nil in E as [_ E].
Qed.
End RctCanon.
