(* ===== verification/Transaction.v ===== *)
(** Transactions: their binary form (src/cryptonote_basic/cryptonote_basic.h), and of
    src/cryptonote_basic/cryptonote_format_utils.cpp the parsing of a blob, the hash of
    a transaction, of its parts and of a pruned one, and its weight.

    The mutable fields of a transaction that hold its hash, the hash of its prunable part
    and its size are [None] when their flag says that they are not valid. Saving a
    transaction writes its fields [prefix_size] and [unprunable_size], so the routines that
    save one also return it. A transaction that cannot be saved has no blob. *)
From S2P Require Import Prelude Varint Archive Keccak RctData Exc RctOps Clsag Borromean Mlsag Bulletproofs RctTypes RctSerial.

Local Open Scope Z_scope.

Module Transaction.
Import Varint Archive Keccak RctData Exc RctOps Clsag Borromean Mlsag Bulletproofs RctTypes RctSerial.

Record txout_to_script := mk_script { keys : keyV; script : list Z }.

Inductive txout_target_v :=
| to_script (s : txout_to_script)
| to_scripthash (h : key)
| to_key (k : key).

Inductive txin_v :=
| txin_gen (height : Z)
| txin_to_script (prev : key) (prevout : Z) (sigset : list Z)
| txin_to_scripthash (prev : key) (prevout : Z) (s : txout_to_script) (sigset : list Z)
| txin_to_key (amount : Z) (key_offsets : list Z) (k_image : key).

Record tx_out := mk_out { amount : Z; target : txout_target_v }.

Record transaction_prefix := mk_prefix { version : Z; unlock_time : Z; vin : list txin_v; vout : list tx_out; extra : list Z }.

Record transaction := mk_tx {
  prefix :> transaction_prefix; signatures : list keyV; rct_signatures : rctSig; pruned : bool; unprunable_size : Z; prefix_size : Z;
  hash : option key; prunable_hash : option key; blob_size : option nat }.

Definition CURRENT_TRANSACTION_VERSION : Z := 2.

Definition invalidate_hashes (t : transaction) : transaction :=
  mk_tx (prefix t) (signatures t) (rct_signatures t) (pruned t) (unprunable_size t) (prefix_size t) None None None.

Definition set_hash (h : key) (t : transaction) : transaction :=
  mk_tx (prefix t) (signatures t) (rct_signatures t) (pruned t) (unprunable_size t) (prefix_size t) (Some h) (prunable_hash t) (blob_size t).

Definition set_prunable_hash (h : key) (t : transaction) : transaction :=
  mk_tx (prefix t) (signatures t) (rct_signatures t) (pruned t) (unprunable_size t) (prefix_size t) (hash t) (Some h) (blob_size t).

Definition set_blob_size (n : nat) (t : transaction) : transaction :=
  mk_tx (prefix t) (signatures t) (rct_signatures t) (pruned t) (unprunable_size t) (prefix_size t) (hash t) (prunable_hash t) (Some n).

Definition set_rct (rv : rctSig) (t : transaction) : transaction :=
  mk_tx (prefix t) (signatures t) rv (pruned t) (unprunable_size t) (prefix_size t) (hash t) (prunable_hash t) (blob_size t).

(** ** Inputs and outputs *)

Definition serialize_bytes : ser (list Z) := container (serialize_uint 1) 0.

Definition serialize_script : ser txout_to_script := fun v ar =>
  '(ks, ar) ← serialize_keyV (keys v) ar;
  '(sc, ar) ← serialize_bytes (script v) ar;
  Some (mk_script ks sc, ar).

Definition fresh_script : txout_to_script := mk_script [] [].

Definition txin_tag (v : txin_v) : Z :=
  match v with txin_gen _ => 0xff | txin_to_script _ _ _ => 0 | txin_to_scripthash _ _ _ _ => 1 | txin_to_key _ _ _ => 2 end.

(** [variant_reader]: a new value of the type with the tag. *)
Definition fresh_txin (t : Z) : option txin_v :=
  if t =? 0xff then Some (txin_gen 0) else
  if t =? 0 then Some (txin_to_script zero 0 []) else
  if t =? 1 then Some (txin_to_scripthash zero 0 fresh_script []) else
  if t =? 2 then Some (txin_to_key 0 [] zero) else None.

Definition serialize_txin_fields : ser txin_v := fun v ar =>
  match v with
  | txin_gen height =>
      '(height, ar) ← serialize_varint 64 height ar;
      Some (txin_gen height, ar)
  | txin_to_script prev prevout sigset =>
      '(prev, ar) ← serialize_key prev ar;
      '(prevout, ar) ← serialize_varint 64 prevout ar;
      '(sigset, ar) ← serialize_bytes sigset ar;
      Some (txin_to_script prev prevout sigset, ar)
  | txin_to_scripthash prev prevout s sigset =>
      '(prev, ar) ← serialize_key prev ar;
      '(prevout, ar) ← serialize_varint 64 prevout ar;
      '(s, ar) ← serialize_script s ar;
      '(sigset, ar) ← serialize_bytes sigset ar;
      Some (txin_to_scripthash prev prevout s sigset, ar)
  | txin_to_key amount key_offsets k_image =>
      '(amount, ar) ← serialize_varint 64 amount ar;
      '(key_offsets, ar) ← container (serialize_varint 64) 0 key_offsets ar;
      '(k_image, ar) ← serialize_key k_image ar;
      Some (txin_to_key amount key_offsets k_image, ar)
  end.

Definition serialize_txin : ser txin_v := fun v ar =>
  '(t, ar) ← serialize_uint 1 (txin_tag v) ar;
  v ← (match ar with saving _ => Some v | loading _ => fresh_txin t end);
  serialize_txin_fields v ar.

Definition target_tag (v : txout_target_v) : Z := match v with to_script _ => 0 | to_scripthash _ => 1 | to_key _ => 2 end.

Definition fresh_target (t : Z) : option txout_target_v :=
  if t =? 0 then Some (to_script fresh_script) else
  if t =? 1 then Some (to_scripthash zero) else
  if t =? 2 then Some (to_key zero) else None.

Definition serialize_target : ser txout_target_v := fun v ar =>
  '(t, ar) ← serialize_uint 1 (target_tag v) ar;
  v ← (match ar with saving _ => Some v | loading _ => fresh_target t end);
  match v with
  | to_script s => '(s, ar) ← serialize_script s ar; Some (to_script s, ar)
  | to_scripthash h => '(h, ar) ← serialize_key h ar; Some (to_scripthash h, ar)
  | to_key k => '(k, ar) ← serialize_key k ar; Some (to_key k, ar)
  end.

Definition serialize_tx_out : ser tx_out := fun v ar =>
  '(a, ar) ← serialize_varint 64 (amount v) ar;
  '(t, ar) ← serialize_target (target v) ar;
  Some (mk_out a t, ar).

(** ** Transactions *)

Definition serialize_prefix : ser transaction_prefix := fun v ar =>
  '(ver, ar) ← serialize_varint 64 (version v) ar;
  if (ver =? 0) || (CURRENT_TRANSACTION_VERSION <? ver) then None else
  '(time, ar) ← serialize_varint 64 (unlock_time v) ar;
  '(ins, ar) ← container serialize_txin (txin_gen 0) (vin v) ar;
  '(outs, ar) ← container serialize_tx_out (mk_out 0 (to_key zero)) (vout v) ar;
  '(ex, ar) ← serialize_bytes (extra v) ar;
  Some (mk_prefix ver time ins outs ex, ar).

Definition get_signature_size (i : txin_v) : nat := match i with txin_to_key _ offsets _ => length offsets | _ => 0 end.

(** A signature is a blob of 64 bytes; their number is not part of the data. *)
Fixpoint signature_loop (ins : list txin_v) (sigs : list keyV) (ar : archive) : option (list keyV * archive) :=
  match ins, sigs with
  | i :: ins, s :: sigs =>
      '(s, ar) ← custom_vector (serialize_blob 64) (replicate 64 0) (get_signature_size i) s ar;
      '(sigs, ar) ← signature_loop ins sigs ar;
      Some (s :: sigs, ar)
  | _, _ => Some ([], ar)
  end.

Definition serialize_signatures (ins : list txin_v) (pruned : bool) : ser (list keyV) := fun sigs ar =>
  let sigs := prepare_custom_vector [] (length ins) sigs ar in
  let signatures_not_expected := (length sigs =? 0)%nat in
  if negb signatures_not_expected && negb (length ins =? length sigs)%nat then None else
  if pruned then Some (sigs, ar) else
  if signatures_not_expected then if forallb (fun i => get_signature_size i =? 0)%nat ins then Some (sigs, ar) else None
  else signature_loop ins sigs ar.

(** The size of the ring of the first input, less one. *)
Definition mixin (ins : list txin_v) : Z :=
  match ins with txin_to_key _ offsets _ :: _ => u64 (Z.of_nat (length offsets) - 1) | _ => 0 end.

Definition serialize_transaction : ser transaction := fun v start =>
  let v := match start with saving _ => v | loading _ => invalidate_hashes v end in
  '(pre, ar) ← serialize_prefix (prefix v) start;
  let p_size := u32 (Z.of_nat (between start ar)) in
  let still_pruned := match start with saving _ => pruned v | loading _ => false end in
  if version pre =? 1 then
    '(sigs, ar) ← serialize_signatures (vin pre) (pruned v) (signatures v) ar;
    Some (mk_tx pre sigs (rct_signatures v) still_pruned p_size p_size (hash v) (prunable_hash v) (blob_size v), ar)
  else if (length (vin pre) =? 0)%nat then
    Some (mk_tx pre (signatures v) (rct_signatures v) still_pruned (unprunable_size v) p_size (hash v) (prunable_hash v) (blob_size v), ar)
  else
    '(b, ar) ← serialize_rctsig_base (length (vin pre)) (length (vout pre)) (base (rct_signatures v)) ar;
    let u_size := u32 (Z.of_nat (between start ar)) in
    '(q, ar) ← when (negb (pruned v) && negb (type b =? RCTTypeNull))
      (serialize_rctsig_prunable (type b) (length (vin pre)) (length (vout pre)) (mixin (vin pre))) (p (rct_signatures v)) ar;
    Some (mk_tx pre (signatures v) (mk_rctSig b q) still_pruned u_size p_size (hash v) (prunable_hash v) (blob_size v), ar).

Definition serialize_base : ser transaction := fun v start =>
  '(pre, ar) ← serialize_prefix (prefix v) start;
  '(b, ar) ← when (negb (version pre =? 1) && negb (length (vin pre) =? 0)%nat)
    (serialize_rctsig_base (length (vin pre)) (length (vout pre))) (base (rct_signatures v)) ar;
  let now_pruned := match start with saving _ => pruned v | loading _ => true end in
  Some (mk_tx pre (signatures v) (mk_rctSig b (p (rct_signatures v))) now_pruned (unprunable_size v) (prefix_size v)
    (hash v) (prunable_hash v) (blob_size v), ar).

(** ** Parsing *)

Definition is_coinbase (t : transaction_prefix) : bool := match vin t with [txin_gen _] => true | _ => false end.

(** [rv.outPk[n].dest] from the keys of the outputs; [None] for an output of another type. *)
Fixpoint expand_outs (outs : list tx_out) (pk : list ctkey) : option (list ctkey) :=
  match outs, pk with
  | mk_out _ (to_key k) :: outs, o :: pk => l ← expand_outs outs pk; Some (mk_ctkey k (mask o) :: l)
  | _, [] => Some []
  | _, _ => None
  end.

Fixpoint eighths (masks : keyV) : exc keyV :=
  match masks with
  | [] => ret []
  | m :: masks => v <~ scalarmultKey m INV_EIGHT; l <~ eighths masks; ret (v :: l)
  end.

(** The commitments of the only proof. [1 << (L.size() - 6)] is a shift of an [int]. *)
Definition expand_proof (n_outputs : nat) (pk : list ctkey) (proofs : list Bulletproof) : exc (option (list Bulletproof)) :=
  match proofs with
  | [bp] =>
      if (length (bp_L bp) <? 6)%nat then ret None else
      if (37 <=? length (bp_L bp))%nat then None else
      if (2 ^ (length (bp_L bp) - 6) <? n_outputs)%nat then ret None else
      if negb (n_outputs =? length pk)%nat then ret None else
      V <~ eighths (map mask pk);
      ret (Some [mk_bp V (bp_A bp) (bp_S bp) (bp_T1 bp) (bp_T2 bp) (bp_taux bp) (bp_mu bp) (bp_L bp) (bp_R bp) (bp_a bp) (bp_b bp) (bp_t bp)])
  | _ => ret None
  end.

Definition expand_transaction_1 (t : transaction) (base_only : bool) : exc (option transaction) :=
  if (version t <? 2) || is_coinbase t then ret (Some t) else
  let rv := rct_signatures t in
  if type rv =? RCTTypeNull then ret (Some t) else
  if negb (length (outPk rv) =? length (vout t))%nat then ret None else
  match expand_outs (vout t) (outPk rv) with
  | None => ret None
  | Some pk =>
      let b := mk_base (type rv) (message rv) (mixRing rv) (pseudoOuts rv) (ecdhInfo rv) pk (txnFee rv) in
      let q := p rv in
      if base_only || negb (is_rct_bulletproof (type rv)) then ret (Some (set_rct (mk_rctSig b q) t)) else
      o <~ expand_proof (length (vout t)) pk (bulletproofs q);
      ret (bps ← o; Some (set_rct (mk_rctSig b (mk_prunable (rangeSigs q) bps (MGs q) (CLSAGs q) (p_pseudoOuts q))) t))
  end.

(** The inner [None] is [false]. *)
Definition parse_and_validate_tx_from_blob (tx_blob : list Z) (t : transaction) : exc (option transaction) :=
  match serialize serialize_transaction t (loading tx_blob) with
  | None => ret None
  | Some (t, _) =>
      o <~ expand_transaction_1 t false;
      ret (t ← o; Some (set_blob_size (length tx_blob) (invalidate_hashes t)))
  end.

Definition parse_and_validate_tx_base_from_blob (tx_blob : list Z) (t : transaction) : exc (option transaction) :=
  match serialize_base t (loading tx_blob) with
  | None => ret None
  | Some (t, _) =>
      o <~ expand_transaction_1 t true;
      ret (t ← o; Some (invalidate_hashes t))
  end.

Definition is_v1_tx (tx_blob : list Z) : exc bool :=
  match read_varint 64 64 tx_blob with
  | varint_read read ver _ => if (read =? 0)%nat then throw else ret (ver <=? 1)
  | _ => throw
  end.

(** ** Hashes *)

(** [t_serializable_object_to_blob]: the bytes and the object. *)
Definition to_blob {A} (s : ser A) (v : A) : option (list Z * A) :=
  match serialize s v (saving []) with Some (v, saving out) => Some (out, v) | _ => None end.

Definition tx_to_blob (t : transaction) : option (list Z * transaction) := to_blob serialize_transaction t.

Definition get_blob_hash (blob : list Z) : option key := cn_fast_hash blob.

Definition get_transaction_prefix_hash (t : transaction_prefix) : option key :=
  '(blob, _) ← to_blob serialize_prefix t; get_blob_hash blob.

Definition null_hash : key := replicate 32 0.

(** The inner [None] is [false]. *)
Definition calculate_transaction_prunable_hash (t : transaction) (blob : option (list Z)) : option (option key) :=
  if version t =? 1 then Some None else
  let serialized :=
    match serialize_rctsig_prunable (type (rct_signatures t)) (length (vin t)) (length (vout t)) (mixin (vin t)) (p (rct_signatures t)) (saving []) with
    | Some (_, saving out) => h ← get_blob_hash out; Some (Some h)
    | _ => Some None
    end in
  match blob with
  | Some blob =>
      if unprunable_size t =? 0 then serialized else
      if Z.of_nat (length blob) <? unprunable_size t then Some None else
      h ← get_blob_hash (drop (Z.to_nat (unprunable_size t)) blob); Some (Some h)
  | None => serialized
  end.

Definition get_transaction_prunable_hash (t : transaction) (blob : option (list Z)) : exc (key * transaction) :=
  match prunable_hash t with
  | Some h => ret (h, t)
  | None =>
      o ← calculate_transaction_prunable_hash t blob;
      match o with Some h => ret (h, set_prunable_hash h t) | None => throw end
  end.

Definition get_pruned_transaction_hash (t : transaction) (pruned_data_hash : key) : exc (key * transaction) :=
  _ <~ check (1 <? version t);
  h0 <~ call (get_transaction_prefix_hash t);
  match serialize_rctsig_base (length (vin t)) (length (vout t)) (base (rct_signatures t)) (saving []) with
  | Some (_, saving out) =>
      h1 <~ call (get_blob_hash out);
      res <~ call (cn_fast_hash (h0 ++ h1 ++ (if type (rct_signatures t) =? RCTTypeNull then null_hash else pruned_data_hash)));
      ret (res, set_hash res t)
  | _ => throw
  end.

(** Returns the hash ([None] for [false]) and, when [want_size], the size. *)
Definition calculate_transaction_hash (t : transaction) (want_size : bool) : option (option (key * nat) * transaction) :=
  if pruned t then Some (None, t) else
  if version t =? 1 then
    '(blob, t) ← tx_to_blob t;
    res ← get_blob_hash blob;
    Some (Some (res, length blob), t)
  else
    h0 ← get_transaction_prefix_hash t;
    '(blob, t) ← tx_to_blob t;
    let u := unprunable_size t in
    let q := prefix_size t in
    if negb ((q <=? u) && (u <=? Z.of_nat (length blob))) then Some (None, t) else
    h1 ← get_blob_hash (take (Z.to_nat (u - q)) (drop (Z.to_nat q) blob));
    h2 ← (if type (rct_signatures t) =? RCTTypeNull then Some (Some null_hash) else calculate_transaction_prunable_hash t (Some blob));
    match h2 with
    | None => Some (None, t)
    | Some h2 =>
        res ← cn_fast_hash (h0 ++ h1 ++ h2);
        let t := if want_size then set_blob_size (default (length blob) (blob_size t)) t else t in
        Some (Some (res, default (length blob) (blob_size t)), t)
    end.

Definition get_transaction_hash (t : transaction) (want_size : bool) : option (option (key * nat) * transaction) :=
  match hash t with
  | Some res =>
      if want_size then
        match blob_size t with
        | Some n => Some (Some (res, n), t)
        | None => '(blob, t) ← tx_to_blob t; let t := set_blob_size (length blob) t in Some (Some (res, length blob), t)
        end
      else Some (Some (res, 0%nat), t)
  | None =>
      '(o, t) ← calculate_transaction_hash t want_size;
      match o with
      | None => Some (None, t)
      | Some (res, n) => let t := set_hash res t in Some (Some (res, n), if want_size then set_blob_size n t else t)
      end
  end.

(** The overload that also returns the hash; the inner [None] is [false]. *)
Definition parse_and_validate_tx_hash (tx_blob : list Z) (t : transaction) : exc (option (key * transaction)) :=
  match serialize serialize_transaction t (loading tx_blob) with
  | None => ret None
  | Some (t, _) =>
      o <~ expand_transaction_1 t false;
      match o with
      | None => ret None
      | Some t => '(h, t) <~ call (get_transaction_hash (invalidate_hashes t) false); ret ('(h, _) ← h; Some (h, t))
      end
  end.

(** ** Weights *)

(** [while ((1u << nlr) < n) ++nlr], from [nlr]; a shift by 32 is undefined. *)
Fixpoint log2_from (fuel nlr : nat) (n : Z) : option nat :=
  if 2 ^ Z.of_nat nlr <? n then match fuel with O => None | S fuel => log2_from fuel (S nlr) n end else Some nlr.

Definition padded_log2 (n : Z) : option nat := log2_from 31 0 n.

Definition get_transaction_weight_clawback (n_outputs : nat) (n_padded_outputs : Z) : exc Z :=
  let bp_base := 368 in
  if n_padded_outputs <=? 2 then ret 0 else
  nlr <~ call (padded_log2 n_padded_outputs);
  let nlr := Z.of_nat nlr + 6 in
  let bp_size := u64 (32 * (9 + 2 * nlr)) in
  _ <~ check (n_outputs <=? BULLETPROOF_MAX_OUTPUTS)%nat;
  _ <~ check (bp_size <=? u64 (bp_base * n_padded_outputs));
  ret (u64 (u64 (u64 (bp_base * n_padded_outputs) - bp_size) * 4) / 5).

Definition UINT64_MAX : Z := 2 ^ 64 - 1.

(** [get_transaction_weight(tx, blob_size)]. *)
Definition get_transaction_weight_sized (t : transaction) (size : nat) : exc Z :=
  if pruned t then ret UINT64_MAX else
  if version t <? 2 then ret (Z.of_nat size) else
  if negb (is_rct_bulletproof (type (rct_signatures t))) then ret (Z.of_nat size) else
  let n_padded_outputs := n_bulletproof_max_amountsV (bulletproofs (p (rct_signatures t))) in
  bp_clawback <~ get_transaction_weight_clawback (length (vout t)) n_padded_outputs;
  _ <~ check (bp_clawback <=? u64 (UINT64_MAX - Z.of_nat size));
  ret (u64 (Z.of_nat size + bp_clawback)).

Definition get_transaction_weight (t : transaction) : exc Z :=
  match blob_size t with
  | Some n => get_transaction_weight_sized t n
  | None => '(blob, t) <~ call (tx_to_blob t); get_transaction_weight_sized t (length blob)
  end.

Definition get_pruned_transaction_weight (t : transaction) : exc Z :=
  if negb (pruned t) then ret UINT64_MAX else
  if version t <? 2 then ret UINT64_MAX else
  if negb ((RCTTypeBulletproof2 <=? type (rct_signatures t)) || (type (rct_signatures t) =? RCTTypeCLSAG)) then ret UINT64_MAX else
  match vin t with
  | txin_to_key _ key_offsets _ :: _ =>
      '(blob, t) <~ call (tx_to_blob t);
      let weight := Z.of_nat (length blob) + 1 in
      nrl <~ call (padded_log2 (Z.of_nat (length (vout t))));
      let n_padded_outputs := 2 ^ Z.of_nat nrl in
      let weight := u64 (weight + (32 * (9 + 2 * (Z.of_nat nrl + 6)) + 2)) in
      let ring_size := Z.of_nat (length key_offsets) in
      let ins := Z.of_nat (length (vin t)) in
      let sigs := if type (rct_signatures t) =? RCTTypeCLSAG then ins * (ring_size + 2) * 32 else ins * (ring_size * (1 + 1) * 32 + 32) in
      let weight := u64 (weight + sigs) in
      let weight := u64 (weight + 32 * ins) in
      bp_clawback <~ get_transaction_weight_clawback (length (vout t)) n_padded_outputs;
      _ <~ check (bp_clawback <=? u64 (UINT64_MAX - weight));
      ret (u64 (weight + bp_clawback))
  | _ => ret UINT64_MAX
  end.
End Transaction.
