(* ===== verification/TransactionCorrect.v ===== *)
(** The binary form of transactions: round trips and canonical encodings of the parts of
    a transaction, from the ones of RctSerial.v and RctCanon.v. *)
From S2P Require Import Prelude Varint Archive Keccak KeccakCorrect RctData Exc RctOps Clsag Borromean Mlsag Bulletproofs RctTypes RctSerial RctCanon Transaction.

Local Open Scope Z_scope.

Module TransactionCorrect.
Import Varint Archive Keccak KeccakCorrect RctData Exc RctOps Clsag Borromean Mlsag Bulletproofs RctTypes RctSerial RctCanon Transaction.

Definition u64_ok (v : Z) : Prop := 0 <= v < 2 ^ 64.

#[export] Instance u64_codec : Codec (serialize_varint 64) u64_ok overwrite.
Proof. exact varint64_codec. Qed.

Lemma container_overwrite {A} (e : ser A) fresh ok {He : Codec e ok overwrite} l : Forall ok l -> Z.of_nat (length l) < 2 ^ 64 ->
  exists b, b <> [] /\ trip (container e fresh) l b (fun _ => l).
Proof.
  intros H L. destruct (container_codec e fresh ok overwrite l (conj H L)) as (b & N & [S T B]). exists b. split; [done |]. split; [done | | done].
  intros old rest. by rewrite T, map_overwrite.
Qed.

Definition bytes_ok (l : list Z) : Prop := Forall is_byte l /\ Z.of_nat (length l) < 2 ^ 64.

#[export] Instance bytes_codec : Codec serialize_bytes bytes_ok overwrite.
Proof. intros l [H L]. exact (container_overwrite (serialize_uint 1) 0 _ l H L). Qed.

Definition offsets_ok (l : list Z) : Prop := Forall u64_ok l /\ Z.of_nat (length l) < 2 ^ 64.

#[export] Instance offsets_codec : Codec (container (serialize_varint 64) 0) offsets_ok overwrite.
Proof. intros l [H L]. exact (container_overwrite (serialize_varint 64) 0 _ l H L). Qed.

Definition script_ok (s : txout_to_script) : Prop := keyV_ok (keys s) /\ bytes_ok (script s).

#[export] Instance script_codec : Codec serialize_script script_ok overwrite.
Proof. intros v [H1 H2]. part H1 as b1 N1 T1. part H2 as b2 N2 T2. unfold serialize_script. composite (b1 ++ b2). by destruct v. Qed.

Definition txin_ok (v : txin_v) : Prop :=
  match v with
  | txin_gen height => u64_ok height
  | txin_to_script prev prevout sigset => is_bytes 32 prev /\ u64_ok prevout /\ bytes_ok sigset
  | txin_to_scripthash prev prevout s sigset => is_bytes 32 prev /\ u64_ok prevout /\ script_ok s /\ bytes_ok sigset
  | txin_to_key amount key_offsets k_image => u64_ok amount /\ offsets_ok key_offsets /\ is_bytes 32 k_image
  end.

Lemma tag_trip (t : Z) : 0 <= t < 256 -> exists b, b <> [] /\ trip (serialize_uint 1) t b (fun _ => t).
Proof. exact (uint_codec 0 t). Qed.

(** A variant: its tag [b0], and the fields of its type. *)
Ltac variant b := exists b; split; [by apply app_nonempty |]; split;
  [intros out; cbn [txin_tag target_tag]; saves; bind; saves; by rewrite <- ?app_assoc |
   intros old rest; rewrite <- ?app_assoc; loads; cbv [fresh_txin fresh_target Z.eqb Pos.eqb]; bind; loads; done |
   repeat (apply Forall_app_2; [by eapply trip_bytes |]); by eapply trip_bytes].

#[export] Instance txin_codec : Codec serialize_txin txin_ok overwrite.
Proof.
  intros v H. destruct (tag_trip (txin_tag v)) as (b0 & N0 & T0); [by destruct v |].
  destruct v as [h | prev po ss | prev po s ss | a ko ki]; cbn [txin_ok txin_tag] in *; unfold serialize_txin, serialize_txin_fields.
  - part H as b1 N1 T1. variant (b0 ++ b1).
  - destruct H as (H1 & H2 & H3). part H1 as b1 N1 T1. part H2 as b2 N2 T2. part H3 as b3 N3 T3. variant (b0 ++ b1 ++ b2 ++ b3).
  - destruct H as (H1 & H2 & H3 & H4). part H1 as b1 N1 T1. part H2 as b2 N2 T2. part H3 as b3 N3 T3. part H4 as b4 N4 T4.
    variant (b0 ++ b1 ++ b2 ++ b3 ++ b4).
  - destruct H as (H1 & H2 & H3). part H1 as b1 N1 T1. part H2 as b2 N2 T2. part H3 as b3 N3 T3. variant (b0 ++ b1 ++ b2 ++ b3).
Qed.

Definition target_ok (v : txout_target_v) : Prop := match v with to_script s => script_ok s | to_scripthash k | to_key k => is_bytes 32 k end.

#[export] Instance target_codec : Codec serialize_target target_ok overwrite.
Proof.
  intros v H. destruct (tag_trip (target_tag v)) as (b0 & N0 & T0); [by destruct v |].
  destruct v; cbn [target_ok target_tag] in *; unfold serialize_target; part H as b1 N1 T1; variant (b0 ++ b1).
Qed.

Definition out_ok (v : tx_out) : Prop := u64_ok (amount v) /\ target_ok (target v).

#[export] Instance tx_out_codec : Codec serialize_tx_out out_ok overwrite.
Proof. intros v [H1 H2]. part H1 as b1 N1 T1. part H2 as b2 N2 T2. unfold serialize_tx_out. composite (b1 ++ b2). by destruct v. Qed.

Record prefix_ok (v : transaction_prefix) : Prop := {
  ok_version : version v = 1 \/ version v = 2;
  ok_unlock : u64_ok (unlock_time v);
  ok_vin : Forall txin_ok (vin v) /\ Z.of_nat (length (vin v)) < 2 ^ 64;
  ok_vout : Forall out_ok (vout v) /\ Z.of_nat (length (vout v)) < 2 ^ 64;
  ok_extra : bytes_ok (extra v) }.

#[export] Instance prefix_codec : Codec serialize_prefix prefix_ok overwrite.
Proof.
  intros v [Hv Hu [Hi Li] [Ho Lo] He]. assert (Vu : u64_ok (version v)) by (unfold u64_ok; lia). part Vu as b1 N1 T1. part Hu as b2 N2 T2.
  destruct (container_overwrite serialize_txin (txin_gen 0) _ _ Hi Li) as (b3 & N3 & T3).
  destruct (container_overwrite serialize_tx_out (mk_out 0 (to_key zero)) _ _ Ho Lo) as (b4 & N4 & T4). part He as b5 N5 T5.
  assert (C : (version v =? 0) || (CURRENT_TRANSACTION_VERSION <? version v) = false) by (unfold CURRENT_TRANSACTION_VERSION; lia).
  unfold serialize_prefix, overwrite in *. composite (b1 ++ b2 ++ b3 ++ b4 ++ b5); rewrite C; [saves; rewrite <- ?app_assoc; by destruct v | loads; by destruct v].
Qed.

(** ** Canonical encodings *)

#[export] Instance bytes_canonical : Canonical true false serialize_bytes.
Proof. exact (container_canonical false false (serialize_uint 1) 0 eq_refl). Qed.

#[export] Instance offsets_canonical : Canonical true false (container (serialize_varint 64) 0).
Proof. exact (container_canonical true false (serialize_varint 64) 0 eq_refl). Qed.

#[export] Instance script_canonical : Canonical true false serialize_script.
Proof.
  intros old inp y ar B H. unfold serialize_script in H. took H B as ks B1 C1. took H B1 as sc B2 C2. injection H as <- <-.
  cases C1 as b1 N1 S1; cases C2 as b2 N2 S2; [| cut_off..]. read_as (b1 ++ b2). unfold serialize_script. split; intros o; cbn [keys script]; finish.
Qed.

#[export] Instance target_canonical : Canonical true false serialize_target.
Proof.
  intros old inp y ar B H. unfold serialize_target in H. took H B as t B1 C0. whole C0 as b0 N0 S0. apply bind_Some in H as (v & Ev & H).
  pose proof Ev as Ef. unfold fresh_target in Ev.
  destruct (Z.eqb_spec t 0) as [-> |]; [| destruct (Z.eqb_spec t 1) as [-> |]; [| destruct (Z.eqb_spec t 2) as [-> |]; [| done]]]; injection Ev as <-;
    took H B1 as x B2 C1; injection H as <- <-; cases C1 as b1 N1 S1; try done; try cut_off;
    read_as (b0 ++ b1); unfold serialize_target; (split; intros o; cbn [target_tag]; rewrite <- ?app_assoc;
      [resaves; bind; resaves; by rewrite <- app_assoc | reloads; rewrite Ef; bind; by reloads]).
Qed.

#[export] Instance tx_out_canonical : Canonical true false serialize_tx_out.
Proof.
  intros old inp y ar B H. unfold serialize_tx_out in H. took H B as a B1 C1. took H B1 as t B2 C2. injection H as <- <-.
  cases C1 as b1 N1 S1; cases C2 as b2 N2 S2; [| cut_off..]. read_as (b1 ++ b2). unfold serialize_tx_out. split; intros o; cbn [amount target]; finish.
Qed.

(** The fields of an input of a given type. *)
Lemma txin_fields_loaded old inp y ar : Forall is_byte inp -> serialize_txin_fields old (loading inp) = Some (y, ar) ->
  txin_tag y = txin_tag old /\ loaded true false serialize_txin_fields old inp y ar.
Proof.
  intros B H. unfold serialize_txin_fields in H. destruct old as [h | prev po ss | prev po s ss | a ko ki].
  - took H B as x1 B1 C1. injection H as <- <-. split; [done |]. cases C1 as b1 N1 S1; [| cut_off]. read_as b1.
    unfold serialize_txin_fields. split; intros o; finish.
  - took H B as x1 B1 C1. took H B1 as x2 B2 C2. took H B2 as x3 B3 C3. injection H as <- <-. split; [done |].
    whole C1 as b1 N1 S1; cases C2 as b2 N2 S2; cases C3 as b3 N3 S3; [| cut_off..]. read_as (b1 ++ b2 ++ b3). unfold serialize_txin_fields. split; intros o; finish.
  - took H B as x1 B1 C1. took H B1 as x2 B2 C2. took H B2 as x3 B3 C3. took H B3 as x4 B4 C4. injection H as <- <-. split; [done |]. whole C1 as b1 N1 S1;
    cases C2 as b2 N2 S2; cases C3 as b3 N3 S3; cases C4 as b4 N4 S4; [| cut_off..]. read_as (b1 ++ b2 ++ b3 ++ b4). unfold serialize_txin_fields. split; intros o; finish.
  - took H B as x1 B1 C1. took H B1 as x2 B2 C2. took H B2 as x3 B3 C3. injection H as <- <-. split; [done |]. whole C3 as b3 N3 S3.
    cases C1 as b1 N1 S1; cases C2 as b2 N2 S2; [| cut_off..]. read_as (b1 ++ b2 ++ b3). unfold serialize_txin_fields. split; intros o; finish.
Qed.

Lemma fresh_txin_tag t v : fresh_txin t = Some v -> txin_tag v = t.
Proof.
  unfold fresh_txin. destruct (Z.eqb_spec t 255) as [-> |]; [by intros [= <-] |]. destruct (Z.eqb_spec t 0) as [-> |]; [by intros [= <-] |].
  destruct (Z.eqb_spec t 1) as [-> |]; [by intros [= <-] |]. destruct (Z.eqb_spec t 2) as [-> |]; [by intros [= <-] | done].
Qed.

#[export] Instance txin_canonical : Canonical true false serialize_txin.
Proof.
  intros old inp y ar B H. unfold serialize_txin in H. took H B as t B1 C0. whole C0 as b0 N0 S0. apply bind_Some in H as (v & Ev & H).
  destruct (txin_fields_loaded v _ y ar B1 H) as (Et & rest & -> & Br & C). rewrite (fresh_txin_tag t v Ev) in Et. cases C as b1 N1 S1; [| cut_off].
  read_as (b0 ++ b1). unfold serialize_txin. split; intros o.
  - resaves. bind. by rewrite (again_save _ _ _ _ S1), <- app_assoc.
  - rewrite <- app_assoc. reloads. rewrite Ev. bind. apply S1.
Qed.

#[export] Instance vin_canonical : Canonical true false (container serialize_txin (txin_gen 0)).
Proof. exact (container_canonical true false serialize_txin (txin_gen 0) eq_refl). Qed.

#[export] Instance vout_canonical : Canonical true false (container serialize_tx_out (mk_out 0 (to_key zero))).
Proof. exact (container_canonical true false serialize_tx_out (mk_out 0 (to_key zero)) eq_refl). Qed.

#[export] Instance prefix_canonical : Canonical true false serialize_prefix.
Proof.
  intros old inp y ar B H. unfold serialize_prefix in H. took H B as ver B1 C1.
  destruct ((ver =? 0) || (CURRENT_TRANSACTION_VERSION <? ver)) eqn:Hv; [done |].
  took H B1 as time B2 C2. took H B2 as ins B3 C3. took H B3 as outs B4 C4. took H B4 as ex B5 C5. injection H as <- <-.
  cases C1 as b1 N1 S1; cases C2 as b2 N2 S2; cases C3 as b3 N3 S3; cases C4 as b4 N4 S4; cases C5 as b5 N5 S5; [| cut_off..].
  read_as (b1 ++ b2 ++ b3 ++ b4 ++ b5). unfold serialize_prefix. split; intros o; cbn [version unlock_time vin vout extra]; finish.
Qed.
End TransactionCorrect.
