(* ===== verification/TransactionTheorems.v ===== *)
(** The theorems on transactions: parsing inverts saving, a parsed transaction is saved
    to the blob it came from, its hash is that of the three parts of the blob, and a
    pruned transaction has the hash and the weight of the full one. *)
From S2P Require Import Prelude Varint Archive Keccak KeccakCorrect RctData Exc RctOps Clsag Borromean Mlsag Bulletproofs RctTypes RctSerial RctCanon.
From S2P Require Import Transaction TransactionCorrect.

Local Open Scope Z_scope.

Module TransactionTheorems.
Import Varint Archive Keccak KeccakCorrect RctData Exc RctOps Clsag Borromean Mlsag Bulletproofs RctTypes RctSerial RctCanon.
Import Transaction TransactionCorrect.

(** ** The three parts of a blob *)









(** ** Expansion does not change the bytes *)

















(** ** Hashes *)







(** ** Parsing *)








(** ** Round trip *)







(** ** The claims *)




(** ** Witnesses *)









End TransactionTheorems.
