(* ===== verification/TxWeight.v ===== *)
(** The weight of a pruned transaction, which get_pruned_transaction_weight of
    src/cryptonote_basic/cryptonote_format_utils.cpp computes without the data that was
    pruned, is the weight of the full one. *)
From S2P Require Import Prelude Varint Archive Keccak KeccakCorrect RctData Exc RctOps RctOpsCorrect Clsag Borromean Mlsag Bulletproofs RctTypes RctSerial RctCanon.
From S2P Require Import Encoding Transaction TransactionCorrect TransactionTheorems.

Local Open Scope Z_scope.

Module TxWeight.
Import Varint Archive Keccak KeccakCorrect RctData Exc RctOps RctOpsCorrect Clsag Borromean Mlsag Bulletproofs RctTypes RctSerial RctCanon.
Import Encoding Transaction TransactionCorrect TransactionTheorems.

(** ** Sizes *)

(** Loading takes [n] bytes. *)
Definition takes (n : nat) (inp : list Z) (ar : archive) : Prop := exists rest, ar = loading rest /\ length inp = (n + length rest)%nat.

Class Sized {A} (s : ser A) (n : nat) : Prop := sized_load old inp y ar : s old (loading inp) = Some (y, ar) -> takes n inp ar.

#[export] Instance key_sized : Sized serialize_key 32.
Proof.
  intros old inp y ar H. unfold serialize_key, serialize_blob in H. destruct (32 <=? length inp)%nat eqn:L; [| done]. apply Nat.leb_le in L. injection H as _ <-.
  eexists. split; [reflexivity |]. rewrite length_drop. lia.
Qed.

Section SizedLists.
Context {A : Type} (e : ser A) (fresh : A) (n : nat) {He : Sized e n}.

Lemma each_sized l inp ys ar : each e l (loading inp) = Some (ys, ar) -> takes (n * length l) inp ar.
Proof.
  revert inp ys. induction l as [| x l IH]; intros inp ys H; cbn [each] in H.
  - injection H as _ <-. exists inp. split; [done |]. simpl. lia.
  - apply bind_Some in H as ([y ar1] & E1 & H). apply bind_Some in H as ([ys' ar2] & E2 & H). injection H as _ <-.
    destruct (He _ _ _ _ E1) as (r1 & -> & L1). destruct (IH _ _ E2) as (r2 & -> & L2). exists r2. split; [done |]. simpl. lia.
Qed.

#[export] Instance custom_vector_sized k : Sized (custom_vector e fresh k) (n * k).
Proof.
  intros old inp y ar H. unfold custom_vector in H. cbn [prepare_custom_vector] in H. rewrite resize_length, Nat.eqb_refl in H. cbn [negb] in H.
  apply each_sized in H. by rewrite resize_length in H.
Qed.
End SizedLists.

(** A step of a composite. *)
Tactic Notation "sized" hyp(H) "as" ident(y) ident(r) ident(L) :=
  let ar := fresh "ar" in let E := fresh "E" in
  apply bind_Some in H as ([y ar] & E & H); destruct (sized_load _ _ _ _ E) as (r & -> & L); clear E; cbn beta iota in H.

#[export] Instance keys_sized n : Sized (serialize_keys n) (32 * n).
Proof. apply custom_vector_sized, _. Qed.

#[export] Instance clsag_sized n : Sized (serialize_clsag n) (32 * (n + 2)).
Proof.
  intros old inp y ar H. unfold serialize_clsag in H. sized H as s r1 L1. sized H as c1 r2 L2. sized H as D r3 L3. injection H as _ <-. exists r3. split; [done | lia].
Qed.

#[export] Instance mg_sized n rows : Sized (serialize_mgSig n rows) (32 * rows * n + 32).
Proof. intros old inp y ar H. unfold serialize_mgSig in H. sized H as ss r1 L1. sized H as cc r2 L2. injection H as _ <-. exists r2. split; [done | lia]. Qed.



Lemma key_step v i x a : Forall is_byte i -> serialize_key v (loading i) = Some (x, a) -> exists r, a = loading r /\ Forall is_byte r /\ length i = (32 + length r)%nat.
Proof. intros B E. destruct (key_canonical _ _ _ _ B E) as (r & -> & Br & _). exists r. by destruct (key_sized _ _ _ _ E) as (r' & [= <-] & L). Qed.

Tactic Notation "key" hyp(H) hyp(B) "as" ident(x) ident(r) ident(B') ident(L) :=
  let ar := fresh "ar" in let E := fresh "E" in
  apply bind_Some in H as ([x ar] & E & H); destruct (key_step _ _ _ _ B E) as (r & -> & B' & L); clear E; cbn beta iota in H.





(** ** Weights *)











(** ** Witness *)







End TxWeight.
