(* ===== verification/RctSigs.v ===== *)
(** The RingCT protocol of src/ringct/rctSigs.cpp: the message that is signed, the
    generation, the verification and the decoding of the signature of a transaction, and
    the shares of its multisig signers.

    The random generator is the tape of Crypto.v. The static state of the Bulletproofs is
    the [option exponents] of Bulletproofs.v, and [p3] the uninitialised point of their
    prover. A device in the mode TRANSACTION_CREATE_FAKE is the flag [fake]. An output
    parameter is a component of the result. *)
From S2P Require Import Prelude Scalar Ge Keccak Varint Archive RctData Exc RctOps Clsag Borromean Mlsag Bulletproofs RctTypes RctSerial.

Local Open Scope Z_scope.

Module RctSigs.
Import Scalar Ge Keccak Varint Archive RctData Exc RctOps Clsag Borromean Mlsag Bulletproofs RctTypes RctSerial.

(** ** Range proofs *)

(** [while ((1u << nrl) < n_outs)]: a shift by 32 is undefined. *)
Fixpoint nrl_loop (fuel nrl : nat) (n_outs : nat) : option nat :=
  match fuel with
  | O => None
  | S fuel => if Z.shiftl 1 (Z.of_nat nrl) <? Z.of_nat n_outs then nrl_loop fuel (S nrl) n_outs else Some nrl
  end.

(** The commitment of the dummy proof to one amount, whose mask is one. *)
Definition dummy_commitment (amount : Z) : exc key :=
  let sv := map (fun i => Z.land (Z.shiftr amount (8 * Z.of_nat i)) 255) (seq 0 8) ++ drop 8 zero in
  sv8 <~ call (sc_mul sv INV_EIGHT);
  addKeys2 INV_EIGHT sv8 key_H.

Fixpoint dummy_commitments (outamounts : list Z) : exc keyV :=
  match outamounts with
  | [] => ret []
  | a :: outamounts => c <~ dummy_commitment a; C <~ dummy_commitments outamounts; ret (c :: C)
  end.

(** The proof, [C] and [masks]. *)
Definition make_dummy_bulletproof (outamounts : list Z) : exc (Bulletproof * keyV * keyV) :=
  let n_outs := length outamounts in
  let I := identity in
  nrl <~ call (nrl_loop 32 0 n_outs);
  let nrl := (nrl + 6)%nat in
  C <~ dummy_commitments outamounts;
  ret (mk_bp (replicate n_outs I) I I I I I I (replicate nrl I) (replicate nrl I) I I I, C, replicate n_outs I).

(** The proof, [C] and [masks]. *)
Definition proveRangeBulletproof (st : option exponents) (p3 : ge_p3) (amounts : list Z) (sk : keyV) (tape : list key)
    : exc (Bulletproof * keyV * keyV * exponents * list key) :=
  _ <~ check (length amounts =? length sk)%nat;
  masks <~ call (mapM genCommitmentMask sk);
  '(proof, e, tape) <~ bulletproof_PROVE_amounts st p3 amounts masks tape;
  _ <~ check (length (bp_V proof) =? length amounts)%nat;
  ret (proof, bp_V proof, masks, e, tape).

Definition verBulletproof (st : option exponents) (proofs : list Bulletproof) (tape : list key) : option bool :=
  catch ('(b, _, _) <~ bulletproof_VERIFY st proofs tape; ret b) false.

(** ** The message *)

Definition bulletproof_keys (q : Bulletproof) : keyV :=
  [bp_A q; bp_S q; bp_T1 q; bp_T2 q; bp_taux q; bp_mu q] ++ bp_L q ++ bp_R q ++ [bp_a q; bp_b q; bp_t q].

Definition range_keys (r : rangeSig) : keyV := b_s0 (r_asig r) ++ b_s1 (r_asig r) ++ [b_ee (r_asig r)] ++ r_Ci r.

Definition mlsag_prehash (hashes : keyV) : option key := cn_fast_hashV hashes.

Definition get_pre_mlsag_hash (rv : rctSig) : exc key :=
  match mixRing rv with
  | [] => throw
  | ring0 :: _ =>
      let inputs := if is_rct_simple (type rv) then length (mixRing rv) else length ring0 in
      let outputs := length (ecdhInfo rv) in
      match serialize_rctsig_base inputs outputs (base rv) (saving []) with
      | Some (_, saving ss) =>
          h <~ call (cn_fast_hash ss);
          let kv := if is_rct_bulletproof (type rv) then concat (map bulletproof_keys (bulletproofs (p rv)))
                    else concat (map range_keys (rangeSigs (p rv))) in
          h2 <~ call (cn_fast_hashV kv);
          call (mlsag_prehash [message rv; h; h2])
      | _ => throw
      end
  end.

(** ** Rings *)

Definition getKeyFromBlockchain (tape : list key) : option (ctkey * list key) :=
  '(m, tape) ← pkGen tape;
  '(d, tape) ← pkGen tape;
  Some (mk_ctkey d m, tape).

Fixpoint keysFromBlockchain (rows : nat) (tape : list key) : option (list ctkey * list key) :=
  match rows with
  | O => Some ([], tape)
  | S rows => '(k, tape) ← getKeyFromBlockchain tape; '(col, tape) ← keysFromBlockchain rows tape; Some (k :: col, tape)
  end.

(** The loop of [populateFromBlockchain] over the columns [i], ... *)
Fixpoint populate_columns (n i index : nat) (inPk : list ctkey) (tape : list key) : option (list (list ctkey) * list key) :=
  match n with
  | O => Some ([], tape)
  | S n =>
      '(col, tape) ← (if (i =? index)%nat then Some (inPk, tape) else keysFromBlockchain (length inPk) tape);
      '(cols, tape) ← populate_columns n (S i) index inPk tape;
      Some (col :: cols, tape)
  end.

(** The matrix and the index of the column [inPk]. *)
Definition populateFromBlockchain (inPk : list ctkey) (mixin : nat) (tape : list key) : option (list (list ctkey) * nat * list key) :=
  '(index, tape) ← randXmrAmount (Z.of_nat mixin) tape;
  let index := Z.to_nat index in
  '(rv, tape) ← populate_columns (mixin + 1) 0 index inPk tape;
  Some (rv, index, tape).

(** The loop of [populateFromBlockchainSimple]; each key draws an index that is not used. *)
Fixpoint populate_ring (n i index : nat) (inPk : ctkey) (tape : list key) : option (list ctkey * list key) :=
  match n with
  | O => Some ([], tape)
  | S n =>
      '(k, tape) ← (if (i =? index)%nat then Some (inPk, tape) else '(_, tape) ← randXmrAmount 1000 tape; getKeyFromBlockchain tape);
      '(ring, tape) ← populate_ring n (S i) index inPk tape;
      Some (k :: ring, tape)
  end.

Definition populateFromBlockchainSimple (inPk : ctkey) (mixin : nat) (tape : list key) : option (list ctkey * nat * list key) :=
  '(index, tape) ← randXmrAmount (Z.of_nat mixin) tape;
  let index := Z.to_nat index in
  '(ring, tape) ← populate_ring (mixin + 1) 0 index inPk tape;
  Some (ring, index, tape).

(** ** Generation *)

(** A range proof per amount: the proofs, the commitments and the masks. *)
Fixpoint prove_ranges (amounts : list Z) (tape : list key) : exc (list rangeSig * keyV * keyV * list key) :=
  match amounts with
  | [] => ret ([], [], [], tape)
  | a :: amounts =>
      '(r, C, m, tape) <~ proveRange a tape;
      '(rs, Cs, ms, tape) <~ prove_ranges amounts tape;
      ret (r :: rs, C :: Cs, m :: ms, tape)
  end.

Fixpoint encode_amounts (v2 : bool) (masks : keyV) (amounts : list Z) (amount_keys : keyV) : option (list ecdhTuple) :=
  match masks, amounts, amount_keys with
  | m :: masks, a :: amounts, k :: amount_keys =>
      t ← ecdhEncode (mk_ecdh m (d2h a)) k v2;
      l ← encode_amounts v2 masks amounts amount_keys;
      Some (t :: l)
  | _, _, _ => Some []
  end.

(** The secret keys of the outputs after the call: only the masks are written. *)
Definition put_masks (outSk : list ctkey) (masks : keyV) : list ctkey :=
  zip_with (fun o m => mk_ctkey (dest o) m) (resize fresh_ctkey (length masks) outSk) masks.

Definition genRct (message : key) (inSk : list ctkey) (destinations : keyV) (amounts : list Z) (mixRing : list (list ctkey))
    (amount_keys : keyV) (kLRki : option multisig_kLRki) (msout : option multisig_out) (index : nat) (outSk : list ctkey) (tape : list key)
    : exc (rctSig * option multisig_out * list ctkey * list key) :=
  let n := length destinations in
  let ms := match msout with Some _ => true | None => false end in
  _ <~ check ((length amounts =? n)%nat || (length amounts =? n + 1)%nat);
  _ <~ check (length amount_keys =? n)%nat;
  _ <~ check (index <? length mixRing)%nat;
  _ <~ check (forallb (fun col => length col =? length inSk)%nat mixRing);
  _ <~ check (match kLRki with Some _ => ms | None => negb ms end);
  _ <~ check (length inSk <? 2)%nat;
  '(ranges, Cs, masks, tape) <~ prove_ranges (take n amounts) tape;
  ecdh <~ call (encode_amounts (short_amounts RCTTypeFull) masks (take n amounts) amount_keys);
  let outSk := put_masks outSk masks in
  let fee := default 0 (amounts !! n) in
  txnFeeKey <~ call (scalarmultH (d2h fee));
  let b := mk_base RCTTypeFull message mixRing [] ecdh (zip_with mk_ctkey destinations Cs) fee in
  full_message <~ get_pre_mlsag_hash (mk_rctSig b (mk_prunable ranges [] [] [] []));
  '(mg, c, tape) <~ proveRctMG full_message mixRing inSk outSk (outPk b) kLRki ms index txnFeeKey tape;
  ret (mk_rctSig b (mk_prunable ranges [] [mg] [] []),
    (m ← msout; Some (mk_msout [c] (ms_mu_p m) (ms_c0 m))), outSk, tape).

(** The overload that fills the ring. *)
Definition genRct_populated (message : key) (inSk inPk : list ctkey) (destinations : keyV) (amounts : list Z) (amount_keys : keyV)
    (kLRki : option multisig_kLRki) (msout : option multisig_out) (mixin : nat) (tape : list key)
    : exc (rctSig * option multisig_out * list ctkey * list key) :=
  '(mixRing, index, tape) <~ call (populateFromBlockchain inPk mixin tape);
  genRct message inSk destinations amounts mixRing amount_keys kLRki msout index [] tape.

(** The type of the signature; an unsupported version throws. *)
Definition simple_type (c : RCTConfig) : exc Z :=
  match range_proof_type c with
  | RangeProofBorromean => ret RCTTypeSimple
  | _ =>
      if (bp_version c =? 0) || (bp_version c =? 3) then ret RCTTypeCLSAG else
      if bp_version c =? 2 then ret RCTTypeBulletproof2 else
      if bp_version c =? 1 then ret RCTTypeBulletproof else throw
  end.

(** A proof of a batch of amounts, and [scalarmult8] of its commitments. *)
Fixpoint scalarmult8_all (C : keyV) : exc keyV :=
  match C with
  | [] => ret []
  | c :: C => d <~ scalarmult8 c; l <~ scalarmult8_all C; ret (d :: l)
  end.

Definition prove_batch (fake : bool) (st : option exponents) (p3 : ge_p3) (amounts : list Z) (keys : keyV) (tape : list key)
    : exc (Bulletproof * keyV * keyV * option exponents * list key) :=
  '(proof, C, masks, st, tape) <~ (if fake then '(proof, C, masks) <~ make_dummy_bulletproof amounts; ret (proof, C, masks, st, tape)
    else '(proof, C, masks, e, tape) <~ proveRangeBulletproof st p3 amounts keys tape; ret (proof, C, masks, Some e, tape));
  out <~ scalarmult8_all C;
  ret (proof, out, masks, st, tape).

(** [while (batch_size * 2 + amounts_proved <= n_amounts && ...)] with [left] amounts to prove. *)
Fixpoint batch_loop (fuel batch_size left : nat) : option nat :=
  match fuel with
  | O => None
  | S fuel => if (batch_size * 2 <=? left)%nat && (batch_size * 2 <=? BULLETPROOF_MAX_OUTPUTS)%nat then batch_loop fuel (batch_size * 2) left
              else Some batch_size
  end.

Fixpoint prove_batches (fuel : nat) (multi fake : bool) (st : option exponents) (p3 : ge_p3) (amounts : list Z) (keys : keyV) (tape : list key)
    : exc (list Bulletproof * keyV * keyV * option exponents * list key) :=
  match amounts, fuel with
  | [], _ => ret ([], [], [], st, tape)
  | _ :: _, O => None
  | _ :: _, S fuel =>
      batch_size <~ call (if multi then batch_loop 5 1 (length amounts) else Some 1%nat);
      '(proof, out, masks, st, tape) <~ prove_batch fake st p3 (take batch_size amounts) (take batch_size keys) tape;
      '(proofs, outs, masks', st, tape) <~ prove_batches fuel multi fake st p3 (drop batch_size amounts) (drop batch_size keys) tape;
      ret (proof :: proofs, out ++ outs, masks ++ masks', st, tape)
  end.

(** The range proofs of the outputs, their commitments and masks. [&amount_keys[0]] of an
    empty vector is undefined. *)
Definition prove_outputs (c : RCTConfig) (fake : bool) (st : option exponents) (p3 : ge_p3) (amounts : list Z) (keys : keyV) (tape : list key)
    : exc (list rangeSig * list Bulletproof * keyV * keyV * option exponents * list key) :=
  match range_proof_type c with
  | RangeProofBorromean => '(ranges, C, masks, tape) <~ prove_ranges amounts tape; ret (ranges, [], C, masks, st, tape)
  | RangeProofPaddedBulletproof =>
      if negb fake && (length keys =? 0)%nat then None else
      '(proof, out, masks, st, tape) <~ prove_batch fake st p3 amounts keys tape;
      ret ([], [proof], out, masks, st, tape)
  | RangeProofBulletproof =>
      '(proofs, out, masks, st, tape) <~ prove_batches (length amounts) false fake st p3 amounts keys tape; ret ([], proofs, out, masks, st, tape)
  | RangeProofMultiOutputBulletproof =>
      '(proofs, out, masks, st, tape) <~ prove_batches (length amounts) true fake st p3 amounts keys tape; ret ([], proofs, out, masks, st, tape)
  end.

Fixpoint sum_scalars (acc : key) (l : keyV) : option key :=
  match l with
  | [] => Some acc
  | a :: l => s ← sc_add a acc; sum_scalars s l
  end.

(** The pseudo outputs and their masks [a]: random ones, and a last one that balances. *)
Fixpoint pseudo_loop (inamounts : list Z) (sumout sumpouts : key) (tape : list key) : exc (keyV * keyV * list key) :=
  match inamounts with
  | [] => None
  | [v] => a <~ call (sc_sub sumout sumpouts); P <~ genC a v; ret ([a], [P], tape)
  | v :: inamounts =>
      '(a, tape) <~ call (skGen tape);
      s <~ call (sc_add a sumpouts);
      P <~ genC a v;
      '(l, Ps, tape) <~ pseudo_loop inamounts sumout s tape;
      ret (a :: l, P :: Ps, tape)
  end.

(** What is signed for one input. *)
Record input := mk_input { in_ring : list ctkey; in_sk : ctkey; in_a : key; in_pseudo : key; in_kLRki : option multisig_kLRki; in_index : nat }.

Fixpoint inputs_of (rings : list (list ctkey)) (inSk : list ctkey) (a pseudo : keyV) (kLRki : option (list multisig_kLRki)) (index : list nat) : list input :=
  match rings, inSk, a, pseudo, index with
  | r :: rings, sk :: inSk, x :: a, P :: pseudo, i :: index =>
      mk_input r sk x P (l ← kLRki; hd_error l) i :: inputs_of rings inSk a pseudo (l ← kLRki; Some (tail l)) index
  | _, _, _, _, _ => []
  end.

Fixpoint sign_clsags (message : key) (ms : bool) (l : list input) (tape : list key) : exc (list clsag * keyV * keyV * list key) :=
  match l with
  | [] => ret ([], [], [], tape)
  | i :: l =>
      '(s, c, mu_p, tape) <~ proveRctCLSAGSimple message (in_ring i) (in_sk i) (in_a i) (in_pseudo i) (in_kLRki i) ms ms (in_index i) tape;
      '(ss, cs, mus, tape) <~ sign_clsags message ms l tape;
      ret (s :: ss, c :: cs, mu_p :: mus, tape)
  end.

Fixpoint sign_mgs (message : key) (ms : bool) (l : list input) (tape : list key) : exc (list mgSig * keyV * list key) :=
  match l with
  | [] => ret ([], [], tape)
  | i :: l =>
      '(s, c, tape) <~ proveRctMGSimple message (in_ring i) (in_sk i) (in_a i) (in_pseudo i) (in_kLRki i) ms (in_index i) tape;
      '(ss, cs, tape) <~ sign_mgs message ms l tape;
      ret (s :: ss, c :: cs, tape)
  end.

Definition genRctSimple (message : key) (inSk : list ctkey) (destinations : keyV) (inamounts outamounts : list Z) (txnFee : Z)
    (mixRing : list (list ctkey)) (amount_keys : keyV) (kLRki : option (list multisig_kLRki)) (msout : option multisig_out) (index : list nat)
    (outSk : list ctkey) (rct_config : RCTConfig) (fake : bool) (st : option exponents) (p3 : ge_p3) (tape : list key)
    : exc (rctSig * option multisig_out * list ctkey * option exponents * list key) :=
  let n := length destinations in
  let ms := match msout with Some _ => true | None => false end in
  _ <~ check (0 <? length inamounts)%nat;
  _ <~ check (length inamounts =? length inSk)%nat;
  _ <~ check (length outamounts =? n)%nat;
  _ <~ check (length amount_keys =? n)%nat;
  _ <~ check (length index =? length inSk)%nat;
  _ <~ check (length mixRing =? length inSk)%nat;
  _ <~ check (forallb (fun '(i, ring) => i <? length ring)%nat (zip index mixRing));
  _ <~ check (match kLRki with Some _ => ms | None => negb ms end);
  _ <~ check (match kLRki with Some l => length l =? length inamounts | None => true end)%nat;
  ty <~ simple_type rct_config;
  let bulletproof := is_rct_bulletproof ty in
  '(ranges, proofs, C, masks, st, tape) <~ prove_outputs rct_config fake st p3 outamounts amount_keys tape;
  let outSk := put_masks outSk masks in
  sumout <~ call (sum_scalars zero masks);
  ecdh <~ call (encode_amounts (short_amounts ty) masks outamounts amount_keys);
  '(a, pseudo, tape) <~ pseudo_loop inamounts sumout zero tape;
  let b := mk_base ty message mixRing (if bulletproof then [] else pseudo) ecdh (zip_with mk_ctkey destinations C) txnFee in
  let q := mk_prunable ranges proofs [] [] (if bulletproof then pseudo else []) in
  full_message <~ get_pre_mlsag_hash (mk_rctSig b q);
  let ins := inputs_of mixRing inSk a pseudo kLRki index in
  '(mgs, cls, c, mu_p, tape) <~ (if ty =? RCTTypeCLSAG
    then '(s, c, mu_p, tape) <~ sign_clsags full_message ms ins tape; ret ([], s, c, mu_p, tape)
    else '(s, c, tape) <~ sign_mgs full_message ms ins tape; ret (s, [], c, [], tape));
  ret (mk_rctSig b (mk_prunable ranges proofs mgs cls (p_pseudoOuts q)),
    (m ← msout; Some (mk_msout c mu_p (ms_c0 m))), outSk, st, tape).

Fixpoint populate_rings (inPk : list ctkey) (mixin : nat) (tape : list key) : option (list (list ctkey) * list nat * list key) :=
  match inPk with
  | [] => Some ([], [], tape)
  | k :: inPk =>
      '(ring, i, tape) ← populateFromBlockchainSimple k mixin tape;
      '(rings, l, tape) ← populate_rings inPk mixin tape;
      Some (ring :: rings, i :: l, tape)
  end.

(** The overload that fills the rings. *)
Definition genRctSimple_populated (message : key) (inSk inPk : list ctkey) (destinations : keyV) (inamounts outamounts : list Z) (amount_keys : keyV)
    (kLRki : option (list multisig_kLRki)) (msout : option multisig_out) (txnFee : Z) (mixin : nat) (rct_config : RCTConfig)
    (fake : bool) (st : option exponents) (p3 : ge_p3) (tape : list key)
    : exc (rctSig * option multisig_out * list ctkey * option exponents * list key) :=
  '(mixRing, index, tape) <~ call (populate_rings inPk mixin tape);
  genRctSimple message inSk destinations inamounts outamounts txnFee mixRing amount_keys kLRki msout index [] rct_config fake st p3 tape.

(** ** Verification *)

(** Tasks of the thread pool whose results must all be true. *)
Fixpoint all_true {A} (f : A -> option bool) (l : list A) : option bool :=
  match l with
  | [] => Some true
  | x :: l => b ← f x; bs ← all_true f l; Some (b && bs)
  end.

Definition ver_ranges (rv : rctSig) : option bool := all_true (fun '(o, r) => verRange (mask o) r) (zip (outPk rv) (rangeSigs (p rv))).

Definition verRct (rv : rctSig) (semantics : bool) : option bool :=
  if negb (type rv =? RCTTypeFull) then Some false else
  if semantics && negb ((length (outPk rv) =? length (rangeSigs (p rv)))%nat && (length (outPk rv) =? length (ecdhInfo rv))%nat
      && (length (MGs (p rv)) =? 1)%nat) then Some false else
  catch (
    if semantics then call (ver_ranges rv) else
    txnFeeKey <~ call (scalarmultH (d2h (txnFee rv)));
    mg <~ call (hd_error (MGs (p rv)));
    message <~ get_pre_mlsag_hash rv;
    verRctMG mg (mixRing rv) (outPk rv) txnFeeKey message) false.

(** The sizes that [verRctSemanticsSimple] checks first. *)
Definition semantics_sizes (rv : rctSig) : bool :=
  is_rct_simple (type rv) &&
  (if is_rct_bulletproof (type rv) then
    (Z.of_nat (length (outPk rv)) =? n_bulletproof_amountsV (bulletproofs (p rv))) &&
    (if type rv =? RCTTypeCLSAG
     then (length (MGs (p rv)) =? 0)%nat && (length (p_pseudoOuts (p rv)) =? length (CLSAGs (p rv)))%nat
     else (length (CLSAGs (p rv)) =? 0)%nat && (length (p_pseudoOuts (p rv)) =? length (MGs (p rv)))%nat) &&
    (length (pseudoOuts rv) =? 0)%nat
   else
    (length (outPk rv) =? length (rangeSigs (p rv)))%nat && (length (pseudoOuts rv) =? length (MGs (p rv)))%nat &&
    (length (p_pseudoOuts (p rv)) =? 0)%nat) &&
  (length (outPk rv) =? length (ecdhInfo rv))%nat.

(** The pseudo outputs and the outputs with the fee have the same sum. *)
Definition sum_check (rv : rctSig) : exc bool :=
  sumOutpks <~ addKeysV (map mask (outPk rv));
  txnFeeKey <~ call (scalarmultH (d2h (txnFee rv)));
  sumOutpks <~ addKeys txnFeeKey sumOutpks;
  sumPseudoOuts <~ addKeysV (get_pseudo_outs rv);
  ret (equalKeys sumPseudoOuts sumOutpks).

Fixpoint sum_checks (rvv : list rctSig) : exc bool :=
  match rvv with
  | [] => ret true
  | rv :: rvv => b <~ sum_check rv; if negb b then ret false else sum_checks rvv
  end.

Definition verRctSemanticsSimple (st : option exponents) (rvv : list rctSig) (tape : list key) : option bool :=
  catch (
    require (forallb semantics_sizes rvv) (
    sums <~ sum_checks rvv;
    require sums (
    let proofs := concat (map (fun rv : rctSig => if is_rct_bulletproof (type rv) then bulletproofs (p rv) else []) rvv) in
    bps <~ call (match proofs with [] => Some true | _ => verBulletproof st proofs tape end);
    require bps (
    call (all_true ver_ranges (filter (fun rv : rctSig => is_rct_bulletproof (type rv) = false) rvv)))))) false.

(** The signature of input [i]; there must be one for each ring. *)
Definition ver_input (rv : rctSig) (message : key) (i : nat) : option bool :=
  ring ← mixRing rv !! i;
  pseudo ← get_pseudo_outs rv !! i;
  if type rv =? RCTTypeCLSAG then s ← CLSAGs (p rv) !! i; verRctCLSAGSimple message s ring pseudo
  else s ← MGs (p rv) !! i; verRctMGSimple message s ring pseudo.

Definition verRctNonSemanticsSimple (rv : rctSig) : option bool :=
  catch (
    require (is_rct_simple (type rv)) (
    require (length (get_pseudo_outs rv) =? length (mixRing rv))%nat (
    message <~ get_pre_mlsag_hash rv;
    call (all_true (ver_input rv message) (seq 0 (length (mixRing rv))))))) false.

(** ** Decoding *)

(** The amount and the mask of output [i]. *)
Definition decode_output (rv : rctSig) (sk : key) (i : nat) : exc (Z * key) :=
  _ <~ check (i <? length (ecdhInfo rv))%nat;
  _ <~ check (length (outPk rv) =? length (ecdhInfo rv))%nat;
  info <~ call (ecdhInfo rv !! i);
  o <~ call (outPk rv !! i);
  ecdh_info <~ call (ecdhDecode info sk (short_amounts (type rv)));
  let m := ecdh_mask ecdh_info in
  let amount := ecdh_amount ecdh_info in
  _ <~ check (sc_check m =? 0);
  _ <~ check (sc_check amount =? 0);
  Ctmp <~ addKeys2 m amount key_H;
  _ <~ check (equalKeys (mask o) Ctmp);
  ret (h2d amount, m).

(** A signature of another type has the amount [false], and the mask is left as it was. *)
Definition decodeRct (rv : rctSig) (sk : key) (i : nat) (mask : key) : exc (Z * key) :=
  if negb (type rv =? RCTTypeFull) then ret (0, mask) else decode_output rv sk i.

Definition decodeRctSimple (rv : rctSig) (sk : key) (i : nat) (mask : key) : exc (Z * key) :=
  if negb (is_rct_simple (type rv)) then ret (0, mask) else decode_output rv sk i.

(** ** Multisig *)

Fixpoint add_mg_shares (mgs : list mgSig) (indices : list nat) (k c : keyV) (secret_key : key) : option (list mgSig) :=
  match mgs, indices, k, c with
  | mg :: mgs, i :: indices, x :: k, d :: c =>
      mg ← mg_share mg i d secret_key x; mgs ← add_mg_shares mgs indices k c secret_key; Some (mg :: mgs)
  | _, _, _, _ => Some mgs
  end.

Definition set_p (q : rctSigPrunable) (rv : rctSig) : rctSig := mk_rctSig (base rv) q.
Definition set_MGs (l : list mgSig) (q : rctSigPrunable) : rctSigPrunable := mk_prunable (rangeSigs q) (bulletproofs q) l (CLSAGs q) (p_pseudoOuts q).
Definition set_CLSAGs (l : list clsag) (q : rctSigPrunable) : rctSigPrunable := mk_prunable (rangeSigs q) (bulletproofs q) (MGs q) l (p_pseudoOuts q).

(** The inner [None] is [false]. *)
Definition signMultisigMLSAG (rv : rctSig) (indices : list nat) (k : keyV) (msout : multisig_out) (secret_key : key) : option (option rctSig) :=
  let mgs := MGs (p rv) in
  if negb ((type rv =? RCTTypeFull) || (type rv =? RCTTypeSimple) || (type rv =? RCTTypeBulletproof) || (type rv =? RCTTypeBulletproof2)) then Some None else
  if negb ((length indices =? length k)%nat && (length k =? length mgs)%nat && (length k =? length (ms_c msout))%nat && (length (CLSAGs (p rv)) =? 0)%nat)
  then Some None else
  if (type rv =? RCTTypeFull) && negb (length mgs =? 1)%nat then Some None else
  if negb (forallb (fun '(i, mg) => match mg_ss mg !! i with Some (_ :: _) => true | _ => false end) (zip indices mgs)) then Some None else
  l ← add_mg_shares mgs indices k (ms_c msout) secret_key;
  Some (Some (set_p (set_MGs l (p rv)) rv)).

Fixpoint add_shares (sigs : list clsag) (indices : list nat) (k c mu_p : keyV) (secret_key : key) : option (list clsag) :=
  match sigs, indices, k, c, mu_p with
  | s :: sigs, i :: indices, x :: k, d :: c, m :: mu_p =>
      s ← sign_share s i d m secret_key x; sigs ← add_shares sigs indices k c mu_p secret_key; Some (s :: sigs)
  | _, _, _, _, _ => Some sigs
  end.

Definition signMultisigCLSAG (rv : rctSig) (indices : list nat) (k : keyV) (msout : multisig_out) (secret_key : key) : option (option rctSig) :=
  let sigs := CLSAGs (p rv) in
  if negb (type rv =? RCTTypeCLSAG) then Some None else
  if negb ((length indices =? length k)%nat && (length k =? length sigs)%nat && (length k =? length (ms_c msout))%nat &&
    (length (MGs (p rv)) =? 0)%nat && (length (ms_c msout) =? length (ms_mu_p msout))%nat) then Some None else
  if negb (forallb (fun '(i, s) => i <? length (cl_s s))%nat (zip indices sigs)) then Some None else
  l ← add_shares sigs indices k (ms_c msout) (ms_mu_p msout) secret_key;
  Some (Some (set_p (set_CLSAGs l (p rv)) rv)).

Definition signMultisig (rv : rctSig) (indices : list nat) (k : keyV) (msout : multisig_out) (secret_key : key) : option (option rctSig) :=
  if type rv =? RCTTypeCLSAG then signMultisigCLSAG rv indices k msout secret_key else signMultisigMLSAG rv indices k msout secret_key.
End RctSigs.
