(* ===== verification/BulletproofScalars.v ===== *)
(** What the routines of src/ringct/bulletproofs.cc on vectors of scalars compute: sums,
    products, powers and inverses modulo the order of the group. *)
From S2P Require Import Prelude Pack Scalar ScalarCorrect Primes CurveOrder Encoding Crypto RctData Exc RctOps RctOpsCorrect Multiexp Bulletproofs.
From Stdlib Require Import Zmod.ZmodInv.

Local Open Scope Z_scope.

Module BulletproofScalars.
Import Pack Scalar ScalarCorrect Primes CurveOrder Encoding Crypto RctData Exc RctOps RctOpsCorrect Multiexp Bulletproofs.

(** ** Congruences *)

Lemma mod_ell a b : a ≡⟨ ell ⟩ b <-> a mod ell = b mod ell.
Proof. by apply eqm_mod. Qed.

Lemma sbytes_eqm a b : a ≡⟨ ell ⟩ b -> sbytes a = sbytes b.
Proof. intros H. by apply sbytes_eq, mod_ell. Qed.

#[global] Instance sbytes_proper : Proper (eqm ell ==> eq) sbytes.
Proof. intros a b. apply sbytes_eqm. Qed.

Lemma one_sbytes : identity = sbytes 1.
Proof. reflexivity. Qed.

Lemma zero_sbytes : zero = sbytes 0.
Proof. exact key_Z_sbytes. Qed.

(** ** Sums of integers *)

Fixpoint zsum (n : nat) (f : nat -> Z) : Z := match n with O => 0 | S n => zsum n f + f n end.

Lemma zsum_ext n f g : (forall i, (i < n)%nat -> f i = g i) -> zsum n f = zsum n g.
Proof. induction n as [| n IH]; intros H; cbn [zsum]; [done |]. rewrite IH, H by auto. done. Qed.

Lemma zsum_eqm n f g : (forall i, (i < n)%nat -> f i ≡⟨ ell ⟩ g i) -> zsum n f ≡⟨ ell ⟩ zsum n g.
Proof. induction n as [| n IH]; intros H; cbn [zsum]; [reflexivity |]. rewrite IH, H by auto. reflexivity. Qed.

Lemma zsum_add n f g : zsum n (fun i => f i + g i) = zsum n f + zsum n g.
Proof. induction n as [| n IH]; cbn [zsum]; [done |]. rewrite IH. ring. Qed.

Lemma zsum_scale n c f : zsum n (fun i => c * f i) = c * zsum n f.
Proof. induction n as [| n IH]; cbn [zsum]; [ring |]. rewrite IH. ring. Qed.

Lemma zsum_first n f : zsum (S n) f = f 0%nat + zsum n (fun i => f (S i)).
Proof. induction n as [| n IH]; [cbn [zsum]; ring |]. cbn [zsum] in *. rewrite IH. ring. Qed.

Lemma zsum_split n m f : zsum (n + m) f = zsum n f + zsum m (fun i => f (n + i)%nat).
Proof. induction m as [| m IH]; cbn [zsum]; [rewrite Nat.add_0_r; ring |]. rewrite Nat.add_succ_r. cbn [zsum]. rewrite IH. ring. Qed.

(** ** Vectors *)

(** The keys of the values of [f] below [n]. *)
Definition vec (n : nat) (f : nat -> Z) : keyV := map (fun i => sbytes (f i)) (seq 0 n).

Lemma vec_length n f : length (vec n f) = n.
Proof. unfold vec. by rewrite length_map, length_seq. Qed.

Lemma vec_lookup n f i : (i < n)%nat -> vec n f !! i = Some (sbytes (f i)).
Proof. intros H. unfold vec. by rewrite list_lookup_fmap, lookup_seq_lt. Qed.

Lemma vec_ext n f g : (forall i, (i < n)%nat -> f i ≡⟨ ell ⟩ g i) -> vec n f = vec n g.
Proof. intros H. unfold vec. apply map_ext_in. intros i [_ Hi]%in_seq. apply sbytes_eqm, H. lia. Qed.

Lemma vec_S n f : vec (S n) f = sbytes (f 0%nat) :: vec n (fun i => f (S i)).
Proof. unfold vec. cbn [seq map]. by rewrite <- seq_shift, map_map. Qed.

Lemma vec_take n m f : (m <= n)%nat -> take m (vec n f) = vec m f.
Proof. intros H. unfold vec. by rewrite firstn_map, take_seq, Nat.min_l. Qed.

Lemma vec_drop n m f : drop m (vec n f) = vec (n - m) (fun i => f (m + i)%nat).
Proof.
  revert n f. induction m as [| m IH]; intros n f; [by rewrite Nat.sub_0_r |]. destruct n as [| n]; [done |].
  rewrite vec_S. cbn [drop Nat.sub]. apply IH.
Qed.

Lemma vec_of l : Forall (fun k => exists x, k = sbytes x) l -> exists f, l = vec (length l) f.
Proof.
  intros H. induction H as [| k l [x ->] _ [f IH]]; [by exists (fun _ => 0) |].
  exists (fun i => match i with O => x | S i => f i end). cbn [length]. rewrite vec_S. by rewrite IH at 1.
Qed.

Lemma zip_keys_ok op fop n f g : (forall x y, op (sbytes x) (sbytes y) = Some (sbytes (fop x y))) ->
  zip_keys op (vec n f) (vec n g) = Some (vec n (fun i => fop (f i) (g i))).
Proof.
  intros H. revert f g. induction n as [| n IH]; intros f g; [done |]. rewrite !vec_S. cbn [zip_keys]. rewrite H. bind. rewrite IH. by bind.
Qed.

Lemma mapM_vec op fop n f : (forall x, op (sbytes x) = Some (sbytes (fop x))) -> mapM op (vec n f) = Some (vec n (fun i => fop (f i))).
Proof.
  intros H. revert f. induction n as [| n IH]; intros f; [done |]. rewrite !vec_S. cbn [mapM]. rewrite H. bind. rewrite IH. by bind.
Qed.

Lemma hadamard_ok n f g : hadamard (vec n f) (vec n g) = ret (vec n (fun i => f i * g i)).
Proof. unfold hadamard. rewrite !vec_length, Nat.eqb_refl, check_true. ebind. by rewrite (zip_keys_ok _ _ _ _ _ mul_sbytes). Qed.

Lemma vector_add_ok n f g : vector_add (vec n f) (vec n g) = ret (vec n (fun i => f i + g i)).
Proof. unfold vector_add. rewrite !vec_length, Nat.eqb_refl, check_true. ebind. by rewrite (zip_keys_ok _ _ _ _ _ add_sbytes). Qed.

Lemma vector_add_scalar_ok n f b : vector_add_scalar (vec n f) (sbytes b) = Some (vec n (fun i => f i + b)).
Proof. apply (mapM_vec _ (fun x => x + b)). intros x. apply add_sbytes. Qed.

Lemma vector_subtract_ok n f b : vector_subtract (vec n f) (sbytes b) = Some (vec n (fun i => f i - b)).
Proof. apply (mapM_vec _ (fun x => x - b)). intros x. apply sub_sbytes. Qed.

Lemma vector_scalar_ok n f b : vector_scalar (vec n f) (sbytes b) = Some (vec n (fun i => f i * b)).
Proof. apply (mapM_vec _ (fun x => x * b)). intros x. apply mul_sbytes. Qed.

Lemma product_loop_ok n f g r : product_loop (vec n f) (vec n g) (sbytes r) = Some (sbytes (r + zsum n (fun i => f i * g i))).
Proof.
  revert f g r. induction n as [| n IH]; intros f g r; [by rewrite Z.add_0_r |]. rewrite !vec_S. cbn [product_loop]. rewrite muladd_sbytes.
  bind. rewrite IH, zsum_first. do 2 f_equal. ring.
Qed.

Lemma inner_product_ok n f g : inner_product (vec n f) (vec n g) = ret (sbytes (zsum n (fun i => f i * g i))).
Proof. unfold inner_product. rewrite !vec_length, Nat.eqb_refl, check_true. ebind. rewrite zero_sbytes. by rewrite product_loop_ok. Qed.

Lemma slice_ok n f s t : (s < t)%nat -> (t <= n)%nat -> slice (vec n f) s t = ret (vec (t - s) (fun i => f (s + i)%nat)).
Proof.
  intros H1 H2. unfold slice. rewrite vec_length. rewrite !(proj2 (Nat.ltb_lt _ _)), (proj2 (Nat.leb_le _ _)), !check_true by lia.
  do 3 ebind. by rewrite vec_drop, vec_take by lia.
Qed.

(** ** Powers *)

Lemma more_powers_ok n p x : more_powers n (sbytes p) (sbytes x) = Some (vec n (fun i => p * x ^ (Z.of_nat i + 1))).
Proof.
  revert p. induction n as [| n IH]; intros p; [done |]. cbn [more_powers]. rewrite mul_sbytes. bind. rewrite IH. bind. rewrite vec_S.
  rewrite Z.pow_1_r. do 2 f_equal. apply vec_ext. intros i _. rewrite Nat2Z.inj_succ.
  replace (Z.succ (Z.of_nat i) + 1) with (Z.of_nat i + 1 + 1) by lia. rewrite (Z.pow_add_r x (Z.of_nat i + 1) 1), Z.pow_1_r by lia.
  by replace (p * x * x ^ (Z.of_nat i + 1)) with (p * (x ^ (Z.of_nat i + 1) * x)) by ring.
Qed.

Lemma vector_powers_ok x n : vector_powers (sbytes x) n = Some (vec n (fun i => x ^ Z.of_nat i)).
Proof.
  destruct n as [| [| n]]; [done | done |]. cbn [vector_powers]. rewrite more_powers_ok. bind. rewrite !vec_S, one_sbytes.
  cbn [Z.of_nat Pos.of_succ_nat]. rewrite Z.pow_0_r, Z.pow_1_r. do 3 f_equal. apply vec_ext. intros i _.
  replace (Z.of_nat (S (S i))) with (1 + (Z.of_nat i + 1)) by lia. rewrite (Z.pow_add_r x 1), Z.pow_1_r by lia. done.
Qed.

Abbreviation power_sum x n := (zsum n (fun i => x ^ Z.of_nat i)).

Lemma power_sum_double x n : power_sum x (2 * n) = (1 + x ^ Z.of_nat n) * power_sum x n.
Proof.
  replace (2 * n)%nat with (n + n)%nat by lia. rewrite zsum_split. rewrite (zsum_ext n (fun i => x ^ Z.of_nat (n + i)) (fun i => x ^ Z.of_nat n * x ^ Z.of_nat i)).
  - rewrite zsum_scale. ring.
  - intros i _. by rewrite Nat2Z.inj_add, Z.pow_add_r by lia.
Qed.

(** With [2^(k+1)] terms left and [x] squared [j] times. *)
Lemma sum_doubling_ok fuel k m x : (k < fuel)%nat ->
  sum_doubling fuel (2 ^ S k) (sbytes (x ^ Z.of_nat m)) (sbytes (power_sum x (2 * m))) = Some (sbytes (power_sum x (2 ^ S k * m))).
Proof.
  revert k m. induction fuel as [| fuel IH]; intros k m Hf; [lia |]. cbn [sum_doubling]. destruct k as [| k]; [done |].
  assert (P : (2 <= 2 ^ S k)%nat) by (cbn [Nat.pow]; pose proof (Nat.pow_nonzero 2 k); lia).
  assert (D : (2 ^ S (S k) = 2 * 2 ^ S k)%nat) by done. rewrite (proj2 (Nat.ltb_lt _ _)) by lia. rewrite mul_sbytes. bind. rewrite muladd_sbytes. bind.
  replace (x ^ Z.of_nat m * x ^ Z.of_nat m) with (x ^ Z.of_nat (2 * m)) by (rewrite <- Z.pow_add_r by lia; f_equal; lia).
  replace (power_sum x (2 * m) + x ^ Z.of_nat (2 * m) * power_sum x (2 * m)) with (power_sum x (2 * (2 * m)))
    by (rewrite (power_sum_double x (2 * m)); ring).
  rewrite D, Nat.mul_comm, Nat.div_mul, IH by lia. do 3 f_equal. lia.
Qed.

Lemma sum_powers_ok n i x r : (1 <= i)%nat ->
  sum_powers n i (sbytes x) (sbytes (x ^ Z.of_nat (Nat.max 1 (i - 1)))) (sbytes r) = Some (sbytes (r + zsum n (fun j => x ^ Z.of_nat (i + j)))).
Proof.
  revert i r. induction n as [| n IH]; intros i r Hi; cbn [sum_powers]; [by rewrite Z.add_0_r |].
  assert (E : (if (1 <? i)%nat then sc_mul (sbytes (x ^ Z.of_nat (Nat.max 1 (i - 1)))) (sbytes x) else Some (sbytes (x ^ Z.of_nat (Nat.max 1 (i - 1))))) =
    Some (sbytes (x ^ Z.of_nat i))).
  { destruct (Nat.ltb_spec 1 i).
    - rewrite mul_sbytes. do 2 f_equal. rewrite <- (Z.pow_1_r x) at 2. rewrite <- Z.pow_add_r by lia. f_equal. lia.
    - by replace i with 1%nat by lia. }
  rewrite E. bind. rewrite add_sbytes. bind. replace i with (Nat.max 1 (S i - 1)) at 2 by lia. rewrite IH by lia. do 2 f_equal.
  rewrite zsum_first, Nat.add_0_r. rewrite (zsum_ext n _ (fun j => x ^ Z.of_nat (i + S j))); [ring |]. intros j _. f_equal. lia.
Qed.

Lemma land_power n : (0 < n)%nat -> Nat.land n (n - 1) = 0%nat -> exists k, n = (2 ^ k)%nat.
Proof.
  induction n as [n IH] using lt_wf_ind. intros Hn E. destruct (Nat.Even_or_Odd n) as [[m ->] | [m ->]].
  - replace (2 * m - 1)%nat with (S (2 * (m - 1))) in E by lia.
    destruct (IH m) as [k ->]; [lia | lia | | by exists (S k)].
    apply Nat.bits_inj. intros b. assert (T := f_equal (fun x => Nat.testbit x (S b)) E). cbv beta in T.
    rewrite Nat.land_spec, Nat.testbit_even_succ', Nat.bits_0 in T.
    replace (S (2 * (m - 1))) with (2 * (m - 1) + 1)%nat in T by lia. rewrite Nat.testbit_odd_succ' in T.
    by rewrite Nat.land_spec, Nat.bits_0.
  - replace (2 * m + 1 - 1)%nat with (2 * m)%nat in E by lia. exists 0%nat.
    assert (L : m = 0%nat); [| by subst m]. apply Nat.bits_inj. intros b. assert (T := f_equal (fun x => Nat.testbit x (S b)) E). cbv beta in T.
    rewrite Nat.land_spec, Nat.testbit_odd_succ', Nat.testbit_even_succ', andb_diag, Nat.bits_0 in T. by rewrite T, Nat.bits_0.
Qed.

(** Both ways of adding the powers give their sum. *)
Lemma vector_power_sum_ok x n : vector_power_sum (sbytes x) n = Some (sbytes (power_sum x n)).
Proof.
  unfold vector_power_sum. destruct (Nat.eqb_spec n 0) as [-> | N0]; [exact (f_equal Some zero_sbytes) |].
  destruct (Nat.eqb_spec n 1) as [-> | N1]; [exact (f_equal Some one_sbytes) |].
  destruct (Nat.eqb_spec (Nat.land n (n - 1)) 0) as [E | _].
  - destruct (land_power n ltac:(lia) E) as [[| k] ->]; [done |]. rewrite one_sbytes, add_sbytes. bind.
    pose proof (sum_doubling_ok (2 ^ S k) k 1 x) as R. rewrite !Nat.mul_1_r in R.
    replace (power_sum x 2) with (1 + x) in R by (cbn [zsum]; rewrite Z.pow_0_r, Z.pow_1_r; ring).
    rewrite Z.pow_1_r in R. apply R.
    pose proof (Nat.pow_gt_lin_r 2 (S k)). lia.
  - pose proof (sum_powers_ok (n - 1) 1 x 1 ltac:(lia)) as R. cbn [Nat.sub Nat.max Z.of_nat Pos.of_succ_nat] in R. rewrite Z.pow_1_r in R.
    rewrite one_sbytes, R. do 2 f_equal. destruct n as [| n]; [done |]. rewrite zsum_first. cbn [Nat.sub]. by rewrite Nat.sub_0_r, Z.pow_0_r.
Qed.

(** ** Inverses *)

(** The inverse modulo [ell], by Fermat's theorem. *)
Definition einv (x : Z) : Z := x ^ (ell - 2).

Lemma einv_ok x : x mod ell <> 0 -> x * einv x ≡⟨ ell ⟩ 1.
Proof.
  intros H. apply mod_ell. unfold einv. rewrite <- Z.pow_succ_r by done. replace (Z.succ (ell - 2)) with (ell - 1) by done.
  rewrite (Z.fermat_nz ell x prime_ell); [done |]. intros E. by apply H.
Qed.

Lemma einv_unique x y : x mod ell <> 0 -> x * y ≡⟨ ell ⟩ 1 -> y ≡⟨ ell ⟩ einv x.
Proof.
  intros H E. transitivity ((x * einv x) * y); [rewrite (einv_ok x H); by rewrite Z.mul_1_l |].
  replace (x * einv x * y) with (einv x * (x * y)) by ring. rewrite E. by rewrite Z.mul_1_r.
Qed.

Section Chain.
Context (x : Z).
Local Abbreviation pow a := (sbytes (x ^ a)).

Lemma power_mul a b : 0 <= a -> 0 <= b -> sc_mul (pow a) (pow b) = Some (pow (a + b)).
Proof. intros Ha Hb. by rewrite mul_sbytes, Z.pow_add_r. Qed.

Lemma square_times_ok n a : 0 <= a -> square_times n (pow a) = Some (pow (a * 2 ^ Z.of_nat n)).
Proof.
  revert a. induction n as [| n IH]; intros a Ha; cbn [square_times]; [by rewrite Z.mul_1_r |].
  rewrite power_mul by done. bind. rewrite IH by lia. do 3 f_equal. rewrite Nat2Z.inj_succ, Z.pow_succ_r by lia. lia.
Qed.

Lemma sm_ok n a b c : 0 <= a -> 0 <= b -> a * 2 ^ Z.of_nat n + b = c -> sm (pow a) n (pow b) = Some (pow c).
Proof. intros Ha Hb <-. unfold sm. rewrite square_times_ok by done. bind. apply power_mul; [lia | done]. Qed.

Ltac step := lazymatch goal with |- sc_mul (pow ?a) (pow ?b) ≫= _ = _ => rewrite (power_mul a b) by done; bind end.
Ltac chain := lazymatch goal with |- sm (pow ?a) ?n (pow ?b) ≫= _ = _ =>
  let c := eval vm_compute in (a * 2 ^ Z.of_nat n + b) in rewrite (sm_ok n a b c) by done; bind end.

(** The chain of additions computes the exponent [ell - 2]. *)
Lemma invert_ok : invert (sbytes x) = Some (sbytes (einv x)).
Proof.
  unfold invert. replace (sbytes x) with (pow 1) by (by rewrite Z.pow_1_r). do 9 step. do 26 chain. unfold einv. apply sm_ok; [done | done |]. vm_compute. reflexivity.
Qed.
End Chain.
#[global] Opaque einv.

Definition prod (xs : list Z) : Z := foldr Z.mul 1 xs.

Lemma prod_snoc xs x : prod (xs ++ [x]) = prod xs * x.
Proof. induction xs as [| y xs IH]; cbn [prod foldr app]; [ring |]. fold (prod (xs ++ [x])) (prod xs). rewrite IH. ring. Qed.

(** The products of the entries before each one, times [p]. *)
Definition prefixes (p : Z) (xs : list Z) : keyV := map (fun i => sbytes (p * prod (take i xs))) (seq 0 (length xs)).

Lemma partial_products_ok first p xs : ((first : bool) = true -> p = 1) ->
  partial_products first (sbytes p) (map sbytes xs) = Some (prefixes p xs, sbytes (p * prod xs)).
Proof.
  revert first p. induction xs as [| x xs IH]; intros first p Hp; cbn [map partial_products]; [by rewrite Z.mul_1_r |].
  assert (E : (if first then Some (sbytes x) else sc_mul (sbytes p) (sbytes x)) = Some (sbytes (p * x))).
  { destruct first; [rewrite Hp by done; by rewrite Z.mul_1_l | apply mul_sbytes]. }
  rewrite E. bind. rewrite IH by done. bind. unfold prefixes. cbn [length seq map take prod foldr]. rewrite Z.mul_1_r.
  do 2 f_equal; [| by rewrite Z.mul_assoc]. f_equal. rewrite <- seq_shift, map_map. apply map_ext. intros i. cbn [take prod foldr]. by rewrite Z.mul_assoc.
Qed.

Lemma prefixes_snoc xs x : prefixes 1 (xs ++ [x]) = prefixes 1 xs ++ [sbytes (prod xs)].
Proof.
  unfold prefixes. rewrite length_app, Nat.add_1_r, seq_S, map_app. cbn [map Nat.add]. rewrite take_app_length, Z.mul_1_l. f_equal.
  apply map_ext_in. intros i [_ Hi]%in_seq. by rewrite take_app_le by lia.
Qed.

Lemma invert_down_ok xs a : Forall (fun x => x mod ell <> 0) xs -> a * prod xs ≡⟨ ell ⟩ 1 ->
  invert_down (rev (map sbytes xs)) (rev (prefixes 1 xs)) (sbytes a) = Some (rev (map (fun x => sbytes (einv x)) xs)).
Proof.
  revert a. induction xs as [| x xs IH] using rev_ind; intros a H E; [done |]. apply Forall_app in H as [H Hx]. apply Forall_cons_iff in Hx as [Hx _].
  rewrite prod_snoc in E. rewrite prefixes_snoc, !map_app, !rev_app_distr. cbn [map rev app invert_down].
  rewrite !mul_sbytes. do 2 bind. rewrite IH; [bind | done | by rewrite <- Z.mul_assoc, (Z.mul_comm x)].
  do 2 f_equal. apply sbytes_eqm, einv_unique; [done |]. by replace (x * (a * prod xs)) with (a * (prod xs * x)) by ring.
Qed.

Lemma ell_nonzero a b : a mod ell <> 0 -> b mod ell <> 0 -> (a * b) mod ell <> 0.
Proof.
  rewrite !Z.mod_divide by done. intros Ha Hb H. by apply (Z.divide_prime_mul _ _ _ prime_ell) in H as [H | H].
Qed.

Lemma prod_nonzero xs : Forall (fun x => x mod ell <> 0) xs -> prod xs mod ell <> 0.
Proof. intros H. induction H as [| x xs Hx _ IH]; [done |]. cbn [prod foldr]. by apply ell_nonzero. Qed.

(** The inverses of all entries at once. *)
Lemma invertV_ok xs : Forall (fun x => x mod ell <> 0) xs -> invertV (map sbytes xs) = Some (map (fun x => sbytes (einv x)) xs).
Proof.
  intros H. unfold invertV. rewrite one_sbytes, partial_products_ok by done. bind. rewrite Z.mul_1_l, invert_ok. bind.
  rewrite invert_down_ok; [bind | done | rewrite Z.mul_comm; by apply einv_ok, prod_nonzero]. by rewrite rev_involutive.
Qed.

(** ** Constants *)

Definition inv8 : Z := le_combine INV_EIGHT.

Lemma inv8_sbytes : INV_EIGHT = sbytes inv8.
Proof. vm_compute. reflexivity. Qed.

Lemma inv8_ok : 8 * inv8 ≡⟨ ell ⟩ 1.
Proof. apply mod_ell. vm_compute. reflexivity. Qed.

Lemma minus_one_sbytes : MINUS_ONE = sbytes (-1).
Proof. vm_compute. reflexivity. Qed.

Lemma minus_inv8_sbytes : MINUS_INV_EIGHT = sbytes (- inv8).
Proof. vm_compute. reflexivity. Qed.
#[global] Opaque inv8.

Lemma twoN_ok : twoN = Some (vec maxN (fun i => 2 ^ Z.of_nat i)).
Proof. unfold twoN. replace TWO with (sbytes 2) by (vm_compute; reflexivity). apply vector_powers_ok. Qed.

Lemma oneN_vec : oneN = vec maxN (fun _ => 1).
Proof. reflexivity. Qed.

Lemma ip12_ok : ip12 = ret (sbytes (2 ^ 64 - 1)).
Proof. unfold ip12. rewrite twoN_ok. ebind. rewrite oneN_vec, inner_product_ok. do 3 f_equal. Qed.
End BulletproofScalars.
