(* ===== verification/BulletproofPoints.v ===== *)
(** The generators of src/ringct/bulletproofs.cc and the sums of their multiples: the
    vector commitments, the cross products of the inner product argument and the folding
    of the generators. *)
From S2P Require Import Prelude Limbs Pack Scalar ScalarCorrect Group GroupSolve GroupSum Fe Curve Ge GeCorrect GeEncode GeMult GeMultCorrect.
From S2P Require Import GeTables GeScalarmult GeFromFe GeTheorems CurveOrder Keccak KeccakCorrect Varint Encoding Crypto CryptoCorrect.
From S2P Require Import RctData RctTables Exc RctOps RctOpsCorrect Multiexp MultiexpCorrect Bulletproofs BulletproofScalars.

Local Open Scope Z_scope.

Module BulletproofPoints.
Import Limbs Pack Scalar ScalarCorrect Group GroupSolve GroupSum Fe Curve Ge GeCorrect GeEncode GeMult GeMultCorrect.
Import GeTables GeScalarmult GeFromFe GeTheorems Finite CurveOrder Keccak KeccakCorrect Varint Encoding Crypto CryptoCorrect.
Import RctData RctTables Exc RctOps RctOpsCorrect Multiexp MultiexpCorrect Bulletproofs BulletproofScalars.
Local Open Scope group_scope.

(** ** Lists of points and terms *)

(** The list holds the first [n] points of the family. *)
Definition pts (n : nat) (l : list ge_p3) (P : nat -> point) : Prop :=
  length l = n /\ forall i h, l !! i = Some h -> p3_rep h (P i).

Lemma pts_cons n p l P : pts (S n) (p :: l) P -> p3_rep p (P 0%nat) /\ pts n l (fun i => P (S i)).
Proof.
  intros [L H]. split; [by apply (H 0%nat) |]. split; [by injection L |]. intros i h E. by apply (H (S i)).
Qed.

Lemma pts_inv n l P : pts (S n) l P -> exists p l', l = p :: l' /\ p3_rep p (P 0%nat) /\ pts n l' (fun i => P (S i)).
Proof. destruct l as [| p l]; intros H; [by destruct H |]. exists p, l. split; [done |]. by apply pts_cons. Qed.

Lemma pts_nil l P : pts 0 l P -> l = [].
Proof. intros [L _]. by apply nil_length_inv. Qed.

Lemma pts_take n m l P : pts n l P -> (m <= n)%nat -> pts m (take m l) P.
Proof.
  intros [L H] Hm. split; [rewrite length_take; lia |]. intros i h E. apply H. by apply lookup_take_Some in E as [E _].
Qed.

Lemma pts_drop n m l P : pts n l P -> pts (n - m) (drop m l) (fun i => P (m + i)%nat).
Proof. intros [L H]. split; [rewrite length_drop; lia |]. intros i h E. rewrite lookup_drop in E. by apply H. Qed.

Lemma pts_ext n l P Q : pts n l P -> (forall i, (i < n)%nat -> P i ≃ Q i) -> pts n l Q.
Proof.
  intros [L H] E. split; [done |]. intros i h Ei. eapply p3_eq; [apply E | by apply H].
  apply lookup_lt_Some in Ei. lia.
Qed.

(** A term: the scalar is reduced, the point of prime order. *)
Lemma holds_term x p P : p3_rep p P -> holds (mk_me (sbytes x) p) (x mod ell, P).
Proof. intros H. split; [apply sbytes_bytes |]. split; [apply sbytes_val | exact H]. Qed.

Definition primes (n : nat) (P : nat -> point) : Prop := forall i, (i < n)%nat -> prime_order (P i).

(** The pairs of terms of two families. *)
Definition gh_terms (n : nat) (a b : nat -> Z) (G H : nat -> point) : list (Z * point) :=
  concat (map (fun i => [(a i mod ell, G i); (b i mod ell, H i)]) (seq 0 n)).

Lemma gh_terms_S n a b G H : gh_terms (S n) a b G H = (a 0%nat mod ell, G 0%nat) :: (b 0%nat mod ell, H 0%nat) ::
  gh_terms n (fun i => a (S i)) (fun i => b (S i)) (fun i => G (S i)) (fun i => H (S i)).
Proof. unfold gh_terms. cbn [seq map concat app]. by rewrite <- seq_shift, map_map. Qed.

Lemma gh_terms_sum n a b G H : primes n G -> primes n H ->
  msum (gh_terms n a b G H) ≃ sumg n (fun i => smul (a i) (G i) ⊕ smul (b i) (H i)).
Proof.
  revert a b G H. induction n as [| n IH]; intros a b G H HG HH; [done |]. rewrite gh_terms_S, sumg_first. cbn [msum foldr fst snd].
  fold (msum (gh_terms n (fun i => a (S i)) (fun i => b (S i)) (fun i => G (S i)) (fun i => H (S i)))).
  rewrite IH; [| intros i Hi; apply HG; lia | intros i Hi; apply HH; lia].
  rewrite (smul_mod (a 0%nat)), (smul_mod (b 0%nat)); [| apply HH; lia | apply HG; lia]. glin.
Qed.

Lemma gh_terms_length n a b G H : length (gh_terms n a b G H) = (2 * n)%nat.
Proof. revert a b G H. induction n as [| n IH]; intros a b G H; [done |]. rewrite gh_terms_S. cbn [length]. rewrite IH. lia. Qed.

Lemma interleave_ok n a b g h G H : pts n g G -> pts n h H -> Forall2 holds (interleave (vec n a) (vec n b) g h) (gh_terms n a b G H).
Proof.
  revert a b g h G H. induction n as [| n IH]; intros a b g h G H Hg Hh; [constructor |].
  apply pts_inv in Hg as (p & g' & -> & Hp & Hg), Hh as (q & h' & -> & Hq & Hh). rewrite !vec_S, gh_terms_S. unfold interleave.
  cbn [zip zip_with concat app fst snd]. constructor; [by apply holds_term |]. constructor; [by apply holds_term |].
  exact (IH _ _ _ _ _ _ Hg Hh).
Qed.

Lemma interleave_take a b g h n : length a = n -> length b = n -> interleave a b g h = interleave a b (take n g) (take n h).
Proof.
  revert b g h n. induction a as [| x a IH]; intros [| y b] [| p g] [| q h] [| n] Ha Hb; try done.
  unfold interleave in *. cbn [take zip zip_with concat app fst snd]. do 2 f_equal. apply IH; [by injection Ha | by injection Hb].
Qed.

(** ** The generators *)

(** The points [G] and [H] in turn. *)
Definition turns (G H : nat -> point) (k : nat) : point := if Nat.even k then G (k / 2)%nat else H (k / 2)%nat.

(** The state after initialisation: the points are of prime order, the caches hold them. *)
Record initialised (e : exponents) (G H : nat -> point) : Prop := {
  init_G : pts (maxN * maxM) (Gi_p3 e) G;
  init_H : pts (maxN * maxM) (Hi_p3 e) H;
  init_GP : forall i, prime_order (G i);
  init_HP : forall i, prime_order (H i);
  init_straus : length (straus_HiGi_cache e) = STRAUS_SIZE_LIMIT /\
    forall k t, straus_HiGi_cache e !! k = Some t -> table t (turns G H k);
  init_pippenger : length (pippenger_HiGi_cache e) = (2 * (maxN * maxM))%nat /\
    forall k q, pippenger_HiGi_cache e !! k = Some q -> cached_rep q (turns G H k) }.

Lemma gh_terms_lookup n a b G H k sp : gh_terms n a b G H !! k = Some sp -> sp.2 = turns G H k.
Proof.
  revert a b G H k. induction n as [| n IH]; intros a b G H k; [done |]. rewrite gh_terms_S.
  destruct k as [| [| k]]; cbn [lookup list_lookup]; [by intros [= <-] | by intros [= <-] |]. intros E%IH. rewrite E. unfold turns. cbn [Nat.even].
  replace (S (S k)) with (k + 1 * 2)%nat by lia. rewrite Nat.div_add by done. by rewrite Nat.add_1_r.
Qed.

Lemma Forall2_by_lookup {A B} (R : A -> B -> Prop) l k : length l = length k ->
  (forall i x y, l !! i = Some x -> k !! i = Some y -> R x y) -> Forall2 R l k.
Proof. intros L H. apply Forall2_same_length_lookup. split; [exact L | exact H]. Qed.

Lemma multiexp_ok e data l : Forall2 holds data l -> multiexp e data 0 = ret (enc (msum l)).
Proof.
  intros H. unfold multiexp. cbn [Nat.ltb Nat.leb]. destruct (length data <=? 95)%nat; [by apply straus_ok |].
  apply pippenger_ok; [done | done |]. pose proof (pippenger_c_range (length data)). lia.
Qed.

Section Generators.
Context (e : exponents) (G H : nat -> point) (He : initialised e G H).

Lemma straus_cached n a b : (2 * n <= STRAUS_SIZE_LIMIT)%nat -> straus_cache (Some (straus_HiGi_cache e)) (2 * n) (gh_terms n a b G H).
Proof.
  intros Hn. destruct (init_straus _ _ _ He) as [L T]. split; [lia |]. apply Forall2_by_lookup.
  - rewrite gh_terms_length, length_take. lia.
  - intros i sp t Es Et. rewrite (gh_terms_lookup _ _ _ _ _ _ _ Es). apply T. by apply lookup_take_Some in Et as [Et _].
Qed.

Lemma pippenger_cached n a b l : (0 < n <= maxN * maxM)%nat ->
  pippenger_cache (Some (pippenger_HiGi_cache e)) (2 * n) (gh_terms n a b G H ++ l).
Proof.
  intros Hn. destruct (init_pippenger _ _ _ He) as [L T]. split; [rewrite length_app, gh_terms_length; lia |]. split; [lia |].
  rewrite take_app_le, take_ge by (rewrite gh_terms_length; lia). apply Forall2_by_lookup.
  - rewrite gh_terms_length, length_take. lia.
  - intros i sp t Es Et. rewrite (gh_terms_lookup _ _ _ _ _ _ _ Es). apply T. by apply lookup_take_Some in Et as [Et _].
Qed.

Abbreviation commit_sum n a b := (sumg n (fun i => smul (a i) (G i) ⊕ smul (b i) (H i))).

(** A sum over the first generators and other points. *)
Lemma multiexp_generators_ok n a b data l : (0 < n <= maxN * maxM)%nat -> Forall2 holds data l ->
  multiexp e (interleave (vec n a) (vec n b) (Gi_p3 e) (Hi_p3 e) ++ data) (2 * n) = ret (enc (commit_sum n a b ⊕ msum l)).
Proof.
  intros Hn Hd. assert (HI : Forall2 holds (interleave (vec n a) (vec n b) (Gi_p3 e) (Hi_p3 e)) (gh_terms n a b G H)).
  { rewrite (interleave_take _ _ _ _ n) by apply vec_length.
    apply interleave_ok; eapply pts_take; [apply (init_G _ _ _ He) | lia | apply (init_H _ _ _ He) | lia]. }
  assert (HA := Forall2_app HI Hd). pose proof (Forall2_length HI) as LI. rewrite gh_terms_length in LI.
  assert (E : enc (commit_sum n a b ⊕ msum l) = enc (msum (gh_terms n a b G H ++ l))).
  { apply enc_eq. rewrite msum_app, gh_terms_sum; [done | intros i _; apply (init_GP _ _ _ He) | intros i _; apply (init_HP _ _ _ He)]. }
  rewrite E. unfold multiexp. rewrite (proj2 (Nat.ltb_lt _ _)) by lia.
  destruct (_ && _) eqn:C.
  - apply andb_prop in C as [C1%Nat.leb_le C2%Nat.eqb_eq]. rewrite length_app, LI in C2.
    assert (L0 : length data = 0%nat) by lia. apply nil_length_inv in L0. subst data. inversion Hd; subst l.
    apply straus_ok; [done |]. rewrite length_app, LI, app_nil_r, Nat.add_0_r. by apply straus_cached.
  - apply pippenger_ok; [done | by apply pippenger_cached |]. pose proof (pippenger_c_range (length (interleave (vec n a) (vec n b) (Gi_p3 e) (Hi_p3 e) ++ data))). lia.
Qed.

Lemma vector_exponent_ok n a b : (0 < n <= maxN * maxM)%nat -> vector_exponent e (vec n a) (vec n b) = ret (enc (commit_sum n a b)).
Proof.
  intros Hn. unfold vector_exponent. rewrite !vec_length, Nat.eqb_refl, (proj2 (Nat.leb_le _ _)), !check_true by lia. do 2 ebind.
  rewrite <- (app_nil_r (interleave _ _ _ _)), (multiexp_generators_ok n a b [] []) by done.
  do 2 apply f_equal. apply enc_eq. exact (gadd_0_r _).
Qed.
End Generators.

(** ** Initialisation *)

(** A call that throws or returns a value with the property. *)
Definition safe {A} (m : exc A) (P : A -> Prop) : Prop := exists o, m = Some o /\ match o with Some x => P x | None => True end.

Lemma safe_ret {A} (x : A) (P : A -> Prop) : P x -> safe (ret x) P.
Proof. intros H. by exists (Some x). Qed.

Lemma safe_bind {A B} (m : exc A) (f : A -> exc B) (P : A -> Prop) (Q : B -> Prop) :
  safe m P -> (forall x, P x -> safe (f x) Q) -> safe (ebind m f) Q.
Proof. intros ([x |] & -> & H) Hf; [by apply Hf | by exists None]. Qed.

Lemma get_exponent_ok idx : Z.of_nat idx < 2 ^ 64 -> safe (get_exponent key_H idx) (fun k => exists P, k = enc P /\ prime_order P).
Proof.
  intros Hi. unfold get_exponent. destruct (write_varint_ok (Z.of_nat idx)) as (v & -> & _ & Bv); [lia |]. ebind.
  assert (B : Forall is_byte (key_H ++ HASH_KEY_BULLETPROOF_EXPONENT ++ v)).
  { rewrite key_H_enc. apply Forall_app_2; [apply enc_bytes |]. apply Forall_app_2; [| done]. repeat constructor; unfold is_byte; lia. }
  destruct (cn_fast_hash_ok _ B) as [-> Bh]. ebind. destruct (hash_to_p3_ok _ (proj2 Bh)) as (h & -> & Q & HQ & HP). ebind.
  rewrite (to_enc3 _ _ HQ). ebind. destruct (negb _); [| by exists None]. rewrite check_true. ebind. apply safe_ret.
  exists Q. split; [done |]. by eapply hashes_to_prime.
Qed.

Lemma exponents_from_ok n i : Z.of_nat (2 * (i + n)) < 2 ^ 64 -> safe (exponents_from n i) (fun r => exists Hs Gs,
  Forall2 p3_rep r.1 Hs /\ Forall2 p3_rep r.2 Gs /\ length Hs = n /\ length Gs = n /\ Forall prime_order Hs /\ Forall prime_order Gs).
Proof.
  revert i. induction n as [| n IH]; intros i Hi; cbn [exponents_from].
  { apply safe_ret. exists [], []. repeat split; constructor. }
  eapply safe_bind; [apply get_exponent_ok; lia |]. intros ? (P & -> & HP). decode P as p Hp.
  eapply safe_bind; [apply get_exponent_ok; lia |]. intros ? (Q & -> & HQ). decode Q as q Hq.
  eapply safe_bind; [apply IH; lia |]. intros [hs gs] (Hs & Gs & H1 & H2 & H3 & H4 & H5 & H6). apply safe_ret. exists (P :: Hs), (Q :: Gs).
  cbn [fst snd length] in *. rewrite H3, H4. do 4 (split; [by constructor |]). split; by constructor.
Qed.

Lemma straus_init_part data l N : Forall2 holds data l -> (0 < N <= length data)%nat ->
  exists ts, straus_init_cache data N = ret ts /\ Forall2 (fun sp t => table t sp.2) (take N l) ts.
Proof.
  intros H HN. unfold straus_init_cache. rewrite (proj2 (Nat.eqb_neq _ _)), (proj2 (Nat.leb_le _ _)), check_true by lia. ebind.
  destruct (mapM_yields (fun d => multiples (me_point d)) holds (fun sp t => table t sp.2) (take N data) (take N l)) as (ts & -> & HF).
  - intros d sp (_ & _ & Hp). by apply point_multiples_ok.
  - by apply Forall2_take.
  - by exists ts.
Qed.

(** The points of a list, and the identity after them. *)
Definition family (Ps : list point) (i : nat) : point := nth i Ps gzero.

Lemma family_pts n l Ps : Forall2 p3_rep l Ps -> length Ps = n -> pts n l (family Ps).
Proof.
  intros H L. split; [by rewrite (Forall2_length H) |]. intros i h E. destruct (Forall2_lookup_l _ _ _ _ _ H E) as (P & EP & HP).
  unfold family. by rewrite (nth_lookup_Some _ _ _ _ EP).
Qed.

Lemma family_prime Ps i : Forall prime_order Ps -> prime_order (family Ps i).
Proof.
  intros H. unfold family. destruct (nth_in_or_default i Ps gzero) as [Hi | ->]; [by eapply List.Forall_forall in Hi |]. exact (smul_0 ell).
Qed.

(** The caches of lists of generators. *)
Definition caches (hs gs : list ge_p3) : exc exponents :=
  let data := interleave (replicate (maxN * maxM) zero) (replicate (maxN * maxM) zero) gs hs in
  straus <~ straus_init_cache data STRAUS_SIZE_LIMIT;
  pippenger <~ pippenger_init_cache data 0 PIPPENGER_SIZE_LIMIT;
  ret (mk_exps hs gs straus pippenger).

Lemma caches_ok hs gs Hs Gs : Forall2 p3_rep hs Hs -> Forall2 p3_rep gs Gs -> length Hs = (maxN * maxM)%nat -> length Gs = (maxN * maxM)%nat ->
  Forall prime_order Hs -> Forall prime_order Gs -> exists e, caches hs gs = ret e /\ initialised e (family Gs) (family Hs).
Proof.
  intros H1 H2 H3 H4 H5 H6. unfold caches. set (G := family Gs). set (H := family Hs).
  assert (Z : replicate (maxN * maxM) zero = vec (maxN * maxM) (fun _ => 0)) by (rewrite zero_sbytes; reflexivity). rewrite !Z.
  assert (HI := interleave_ok _ (fun _ => 0) (fun _ => 0) _ _ G H (family_pts _ _ _ H2 H4) (family_pts _ _ _ H1 H3)).
  pose proof (Forall2_length HI) as L. rewrite gh_terms_length in L.
  destruct (straus_init_part _ _ STRAUS_SIZE_LIMIT HI) as (ts & -> & HT); [rewrite L; unfold STRAUS_SIZE_LIMIT, maxN, maxM; lia |]. ebind.
  destruct (pippenger_init_ok _ _ 0 HI ltac:(lia)) as (qs & E & HQ). unfold PIPPENGER_SIZE_LIMIT. rewrite E. ebind. eexists. split; [reflexivity |].
  pose proof (Forall2_length HT) as LT. pose proof (Forall2_length HQ) as LQ. rewrite length_take, gh_terms_length in LT. rewrite length_drop, gh_terms_length in LQ.
  split; cbn [Gi_p3 Hi_p3 straus_HiGi_cache pippenger_HiGi_cache].
  - by apply family_pts.
  - by apply family_pts.
  - intros i. by apply family_prime.
  - intros i. by apply family_prime.
  - split; [rewrite <- LT; reflexivity |]. intros k t Ek. destruct (Forall2_lookup_r _ _ _ _ _ HT Ek) as (sp & Es & Ht).
    apply lookup_take_Some in Es as [Es _]. by rewrite <- (gh_terms_lookup _ _ _ _ _ _ _ Es).
  - split; [rewrite <- LQ; reflexivity |]. intros k t Ek. destruct (Forall2_lookup_r _ _ _ _ _ HQ Ek) as (sp & Es & Ht).
    by rewrite <- (gh_terms_lookup _ _ _ _ _ _ _ Es).
Qed.

Lemma init_exponents_ok : safe (init_exponents None) (fun e => exists G H, initialised e G H).
Proof.
  unfold init_exponents. eapply safe_bind; [apply exponents_from_ok; vm_compute; reflexivity |].
  intros [hs gs] (Hs & Gs & H1 & H2 & H3 & H4 & H5 & H6). cbn [fst snd] in *.
  destruct (caches_ok hs gs Hs Gs H1 H2 H3 H4 H5 H6) as (e & E & He). unfold caches in E. rewrite E. apply safe_ret. by exists (family Gs), (family Hs).
Qed.

(** ** Cross products *)

(** The factors of a scale, all one when there is none. *)
Definition scaled (n : nat) (scale : option keyV) (s : nat -> Z) : Prop :=
  match scale with None => forall i, s i = 1 | Some k => k = vec n s end.

Lemma scaled_drop n m scale s : scaled n scale s -> scaled (n - m) (option_map (drop m) scale) (fun i => s (m + i)%nat).
Proof. destruct scale as [k |]; cbn [scaled option_map]; [intros ->; apply vec_drop | done]. Qed.

Lemma scaled_tail n scale s : scaled (S n) scale s -> scaled n (option_map tail scale) (fun i => s (S i)).
Proof. destruct scale as [k |]; cbn [scaled option_map]; [intros ->; by rewrite vec_S | done]. Qed.

(** A factor of the scale, applied when there is one. *)
Lemma scaled_head n scale s y : scaled (S n) scale s ->
  match scale with None => Some (sbytes y) | Some k => f ← head k; sc_mul (sbytes y) f end = Some (sbytes (y * s 0%nat)).
Proof.
  destruct scale as [k |]; cbn [scaled]; [intros ->; rewrite vec_S; apply mul_sbytes |]. intros ->. by rewrite Z.mul_1_r.
Qed.

Lemma cross_terms_ok n m A B P Q a b scale s : pts n A P -> pts n B Q -> scaled m scale s -> (n <= m)%nat ->
  exists data, cross_terms A B (vec n a) (vec n b) scale = Some data /\
    Forall2 holds data (gh_terms n (fun i => a i * inv8) (fun i => b i * inv8 * s i) P Q).
Proof.
  revert m A B P Q a b scale s. induction n as [| n IH]; intros m A B P Q a b scale s HA HB HS Hm.
  { apply pts_nil in HA as ->. exists []. split; [done | constructor]. }
  apply pts_inv in HA as (p & A' & -> & Hp & HA), HB as (q & B' & -> & Hq & HB). destruct m as [| m]; [lia |].
  rewrite !vec_S, gh_terms_S. cbn [cross_terms]. rewrite !inv8_sbytes, !mul_sbytes. do 2 bind. rewrite (scaled_head _ _ _ _ HS). bind.
  destruct (IH m A' B' _ _ (fun i => a (S i)) (fun i => b (S i)) _ _ HA HB (scaled_tail _ _ _ HS) ltac:(lia)) as (data & -> & HD). bind.
  eexists. split; [reflexivity |]. constructor; [by apply holds_term |]. constructor; [by apply holds_term | exact HD].
Qed.

(** The sum of a cross product, with the scaled points. *)
Definition cross (n : nat) (a b : nat -> Z) (P Q : nat -> point) : point := sumg n (fun i => smul (a i) (P i) ⊕ smul (b i) (Q i)).

Lemma cross_terms_sum n a b P Q s t : primes n P -> primes n Q ->
  msum (gh_terms n (fun i => a i * inv8) (fun i => b i * inv8 * s i) P Q ++ [((t * inv8) mod ell, H_point)]) ≃
  smul inv8 (cross n a b P (fun i => smul (s i) (Q i)) ⊕ smul t H_point).
Proof.
  intros HP HQ. rewrite msum_app, gh_terms_sum by done. unfold cross. rewrite smul_gadd, <- sumg_smul. cbn [msum foldr fst snd].
  rewrite smul_mod by exact H_prime.
  rewrite (sumg_ext n _ (fun i => smul inv8 (smul (a i) (P i) ⊕ smul (b i) (smul (s i) (Q i))))); [glin |]. intros i _. glin.
Qed.

Section Cross.
Context (e : exponents) (n : nat) (A B : list ge_p3) (P Q : nat -> point) (scale : option keyV) (s : nat -> Z).
Context (Hn : (n <= maxN * maxM)%nat) (HA : pts (2 * n) A P) (HB : pts (2 * n) B Q) (HS : scaled (2 * n) scale s).
Context (PP : primes (2 * n) P) (PQ : primes (2 * n) Q).

Lemma cross_exponent_ok Ao Bo a ao b bo t : (Ao <= n)%nat -> (Bo <= n)%nat -> (ao <= n)%nat -> (bo <= n)%nat ->
  cross_vector_exponent8 e n A Ao B Bo (vec (2 * n) a) ao (vec (2 * n) b) bo scale (Some ge_p3_H) (Some (sbytes t)) =
  ret (enc (smul inv8 (cross n (fun i => a (ao + i)%nat) (fun i => b (bo + i)%nat) (fun i => P (Ao + i)%nat)
      (fun i => smul (s (Bo + i)%nat) (Q (Bo + i)%nat)) ⊕ smul t H_point))).
Proof.
  intros H1 H2 H3 H4. unfold cross_vector_exponent8. rewrite !vec_length, (proj1 HA), (proj1 HB).
  rewrite !(proj2 (Nat.leb_le _ _)) by lia. rewrite !check_true. do 5 ebind.
  assert (C : check (match scale with None => true | Some k => (n =? length k / 2)%nat end) = ret tt).
  { destruct scale as [k |]; [| done]. cbn [scaled] in HS. rewrite HS, vec_length, Nat.mul_comm, Nat.div_mul by done. by rewrite Nat.eqb_refl. }
  rewrite C. ebind. rewrite !bool_decide_eq_true_2 by done. cbn [Bool.eqb]. rewrite check_true. ebind.
  rewrite !vec_drop, !vec_take by lia.
  destruct (cross_terms_ok n (2 * n - Bo) _ _ (fun i => P (Ao + i)%nat) (fun i => Q (Bo + i)%nat) (fun i => a (ao + i)%nat) (fun i => b (bo + i)%nat) _ _
    (pts_take _ n _ _ (pts_drop _ Ao _ _ HA) ltac:(lia)) (pts_take _ n _ _ (pts_drop _ Bo _ _ HB) ltac:(lia)) (scaled_drop _ Bo _ _ HS) ltac:(lia))
    as (data & -> & HD). ebind. rewrite inv8_sbytes, mul_sbytes. bind. ebind.
  rewrite (multiexp_ok e _ _ (Forall2_app HD (Forall2_cons _ _ (holds_term (t * inv8) _ _ H_rep) (Forall2_nil _)))).
  do 2 apply f_equal. apply enc_eq, cross_terms_sum; intros i Hi; [apply PP | apply PQ]; lia.
Qed.
End Cross.

(** ** Folding *)

(** The points folded with the factors [a] and [b]. *)
Definition folded (n : nat) (a b : Z) (P : nat -> point) (i : nat) : point := smul a (P i) ⊕ smul b (P (n + i)%nat).

Lemma double_p3_ok x y p cp cq P Q : table_ok cp P -> table_ok cq Q -> prime_order P -> prime_order Q -> x mod ell <> 0 ->
  yields (ge_double_scalarmult_precomp_vartime2_p3 p (sbytes x) cp (sbytes y) cq) (fun r => p3_rep r (smul x P ⊕ smul y Q)).
Proof.
  intros HP HQ OP OQ Hx. eapply yields_impl.
  - eapply ge_double_precomp2_p3_ok; [apply sbytes_ok | apply sbytes_ok | exact HP | exact HQ | left; by rewrite sbytes_val].
  - cbv beta. intros r Hr. eapply p3_eq; [| exact Hr]. by rewrite !sbytes_val, !smul_mod.
Qed.

Definition scaled_pair (n m : nat) (scale : option (keyV * keyV)) (s t : nat -> Z) : Prop :=
  scaled n (option_map fst scale) s /\ scaled m (option_map snd scale) t.

Lemma fold_points_ok n m k v w P Q scale s t a b : pts n v P -> pts n w Q -> primes n P -> primes n Q -> scaled_pair m k scale s t -> (n <= m)%nat -> (n <= k)%nat ->
  (forall i, (i < n)%nat -> (a * s i) mod ell <> 0) ->
  exists r, fold_points v w scale (sbytes a) (sbytes b) = Some r /\ pts n r (fun i => smul (a * s i) (P i) ⊕ smul (b * t i) (Q i)).
Proof.
  revert m k v w P Q scale s t. induction n as [| n IH]; intros m k v w P Q scale s t Hv Hw PP PQ HS Hm Hk Hnz.
  { apply pts_nil in Hv as ->. exists []. split; [done |]. split; [done |]. intros i h. by rewrite lookup_nil. }
  apply pts_inv in Hv as (p & v' & -> & Hp & Hv), Hw as (q & w' & -> & Hq & Hw). destruct m as [| m]; [lia |]. destruct k as [| k]; [lia |]. cbn [fold_points].
  run (ge_dsm_precomp_ok _ _ Hp) as cp Hcp. run (ge_dsm_precomp_ok _ _ Hq) as cq Hcq. destruct HS as [HS HT].
  assert (E1 : match scale with None => Some (sbytes a) | Some c => f ← head c.1; sc_mul (sbytes a) f end = Some (sbytes (a * s 0%nat))).
  { rewrite <- (scaled_head _ _ _ a HS). by destruct scale. }
  assert (E2 : match scale with None => Some (sbytes b) | Some c => f ← head c.2; sc_mul (sbytes b) f end = Some (sbytes (b * t 0%nat))).
  { rewrite <- (scaled_head _ _ _ b HT). by destruct scale. }
  rewrite E1, E2. do 2 bind.
  run (double_p3_ok (a * s 0%nat) (b * t 0%nat) p cp cq _ _ Hcp Hcq (PP 0%nat ltac:(lia)) (PQ 0%nat ltac:(lia)) (Hnz 0%nat ltac:(lia))) as r Hr.
  assert (HST : scaled_pair m k (option_map (fun c => (tail c.1, tail c.2)) scale) (fun i => s (S i)) (fun i => t (S i))).
  { split; [apply scaled_tail in HS | apply scaled_tail in HT]; by destruct scale. }
  destruct (IH m k v' w' _ _ _ _ _ Hv Hw (fun i Hi => PP (S i) ltac:(lia)) (fun i Hi => PQ (S i) ltac:(lia)) HST ltac:(lia) ltac:(lia) (fun i Hi => Hnz (S i) ltac:(lia)))
    as (rest & -> & Lr & Hrest). bind.
  eexists. split; [reflexivity |]. split; [cbn [length]; by rewrite Lr |]. intros [| i] h; cbn [lookup list_lookup]; [by intros [= <-] | apply Hrest].
Qed.

Lemma hadamard_fold_ok n v P scale s a b : pts (2 * n) v P -> primes (2 * n) P -> scaled (2 * n) scale s ->
  (forall i, (i < n)%nat -> (a * s i) mod ell <> 0) ->
  exists r, hadamard_fold v scale (sbytes a) (sbytes b) = ret r /\ pts n r (folded n a b (fun i => smul (s i) (P i))).
Proof.
  intros Hv PP HS Hnz. unfold hadamard_fold. rewrite (proj1 Hv). rewrite Nat.even_even, check_true. ebind.
  rewrite Nat.mul_comm, Nat.div_mul by done.
  assert (HSP : scaled_pair (2 * n) (2 * n - n) (option_map (fun k => (k, drop n k)) scale) s (fun i => s (n + i)%nat)).
  { split; [by destruct scale |]. pose proof (scaled_drop _ n _ _ HS). by destruct scale. }
  destruct (fold_points_ok n _ _ _ _ _ _ _ _ _ a b (pts_take _ n _ _ Hv ltac:(lia)) (pts_take _ n _ _ (pts_drop _ n _ _ Hv) ltac:(lia))
    (fun i Hi => PP i ltac:(lia)) (fun i Hi => PP (n + i)%nat ltac:(lia)) HSP ltac:(lia) ltac:(lia) Hnz) as (r & E & Hr).
  rewrite (take_ge (drop n v)) in E by (rewrite length_drop, (proj1 Hv); lia). rewrite E. exists r. split; [done |].
  eapply pts_ext; [exact Hr |]. intros i _. unfold folded. glin.
Qed.
End BulletproofPoints.
