(* ===== verification/BulletproofSpec.v ===== *)
(** The protocol behind src/ringct/bulletproofs.cc, on integers and points, over any hash
    function that yields the challenges: the transcript of a proof, the two equations that
    the verifier combines, and the rounds of the inner product argument, with the proof that
    the rounds keep the relation of the argument. *)
From S2P Require Import Prelude Pack ScalarCorrect Scalar Group GroupSolve GroupSum Curve CurveOrder Encoding Crypto.
From S2P Require Import RctData RctTables Exc RctOps RctOpsCorrect Bulletproofs BulletproofScalars BulletproofPoints.

Local Open Scope Z_scope.

Module BulletproofSpec.
Import Pack Scalar ScalarCorrect Group GroupSolve GroupSum Curve Finite CurveOrder Encoding Crypto.
Import RctData RctTables Exc RctOps RctOpsCorrect Bulletproofs BulletproofScalars BulletproofPoints.
Local Open Scope group_scope.

(** ** Decoded proofs *)

Record dproof := mk_dp {
  dV : list point; dA : point; dS : point; dT1 : point; dT2 : point; dtaux : Z; dmu : Z;
  dL : list point; dR : list point; da : Z; db : Z; dt : Z }.

Definition wire (d : dproof) : Bulletproof :=
  mk_bp (map enc (dV d)) (enc (dA d)) (enc (dS d)) (enc (dT1 d)) (enc (dT2 d)) (sbytes (dtaux d)) (sbytes (dmu d))
    (map enc (dL d)) (map enc (dR d)) (sbytes (da d)) (sbytes (db d)) (sbytes (dt d)).

(** ** Challenges *)

Section Oracle.
Context (hash : list Z -> Z).

Definition mash (c : Z) (m : keyV) : Z := hash (concat (sbytes c :: m)).

Definition chal_y (d : dproof) : Z := mash (hash (concat (map enc (dV d)))) [enc (dA d); enc (dS d)].
Definition chal_z (d : dproof) : Z := hash (sbytes (chal_y d)).
Definition chal_x (d : dproof) : Z := mash (chal_z d) [sbytes (chal_z d); enc (dT1 d); enc (dT2 d)].
Definition chal_x_ip (d : dproof) : Z := mash (chal_x d) [sbytes (chal_x d); sbytes (dtaux d); sbytes (dmu d); sbytes (dt d)].

Fixpoint chal_rounds (c : Z) (L R : list point) {struct L} : list Z :=
  match L, R with
  | P :: L, Q :: R => let w := mash c [enc P; enc Q] in w :: chal_rounds w L R
  | _, _ => []
  end.

Definition chal_w (d : dproof) : list Z := chal_rounds (chal_x_ip d) (dL d) (dR d).

Definition challenges (d : dproof) : list Z := chal_y d :: chal_z d :: chal_x d :: chal_x_ip d :: chal_w d.

Definition good (d : dproof) : Prop := Forall (fun c => c mod ell <> 0) (challenges d).

(** ** The equations *)

(** The factor of the generator [i] after all rounds: [f] for the lower half, [g] for the upper. *)
Fixpoint wprod (f g : Z -> Z) (ws : list Z) (i : nat) : Z :=
  match ws with
  | [] => 1
  | w :: ws => let n := (2 ^ length ws)%nat in if (i <? n)%nat then f w * wprod f g ws i else g w * wprod f g ws (i - n)
  end.

Abbreviation sG := (wprod einv (fun w => w)).
Abbreviation sH := (wprod (fun w => w) einv).

(** The sum over the rounds. *)
Fixpoint round_sum (ws : list Z) (L R : list point) : point :=
  match ws, L, R with
  | w :: ws, P :: L, Q :: R => (smul (w * w) P ⊕ smul (einv w * einv w) Q) ⊕ round_sum ws L R
  | _, _, _ => gzero
  end.

Section Equations.
Context (G H : nat -> point) (d : dproof) (MN : nat).
Let y := chal_y d.
Let z := chal_z d.
Let x := chal_x d.
Let x_ip := chal_x_ip d.

Definition delta : Z := (z - z * z) * zsum MN (fun i => y ^ Z.of_nat i) - (2 ^ 64 - 1) * zsum (MN / maxN) (fun j => z ^ (Z.of_nat j + 3)).

(** The commitments open to the value of the polynomial (line 61 of the paper). *)
Definition line_61 : point :=
  sumg (length (dV d)) (fun j => smul (z ^ (Z.of_nat j + 2)) (smul 8 (nth j (dV d) gzero))) ⊕ smul x (smul 8 (dT1 d)) ⊕ smul (x * x) (smul 8 (dT2 d)) ⊕
  gopp (pedersen (dtaux d) (dt d - delta)).

(** The scalars of the generators. *)
Definition g_scalar (i : nat) : Z := da d * sG (chal_w d) i + z.
Definition h_scalar (i : nat) : Z :=
  einv y ^ Z.of_nat i * (db d * sH (chal_w d) i - (z * y ^ Z.of_nat i + z ^ (Z.of_nat (i / maxN) + 2) * 2 ^ Z.of_nat (i mod maxN))).

(** The inner product argument (lines 62 and 105). *)
Definition line_62 : point :=
  smul 8 (dA d) ⊕ smul x (smul 8 (dS d)) ⊕ round_sum (chal_w d) (map (smul 8) (dL d)) (map (smul 8) (dR d)) ⊕
  gopp (pedersen (dmu d) (- ((dt d - da d * db d) * x_ip))) ⊕ gopp (cross MN g_scalar h_scalar G H).
End Equations.

(** ** The inner product argument *)

Record argument := mk_arg { ar_L : list point; ar_R : list point; ar_w : list Z; ar_a : Z; ar_b : Z }.

(** A step that is taken only if its challenge is not zero. *)
Definition unless_zero {A} (w : Z) (m : option A) : option A := if w mod ell =? 0 then None else m.

Lemma unless_zero_Some {A} w (m : option A) x : unless_zero w m = Some x -> w mod ell <> 0 /\ m = Some x.
Proof. unfold unless_zero. destruct (Z.eqb_spec (w mod ell) 0) as [_ | Hw]; [discriminate | done]. Qed.

(** The rounds from [2^k] entries on; [None] when a challenge is zero. *)
Fixpoint argue (k : nat) (x_ip : Z) (G H : nat -> point) (a b : nat -> Z) (c : Z) {struct k} : option argument :=
  match k with
  | O => Some (mk_arg [] [] [] (a 0%nat) (b 0%nat))
  | S k =>
      let n := (2 ^ k)%nat in
      let L := smul inv8 (cross n a (fun i => b (n + i)%nat) (fun i => G (n + i)%nat) H ⊕
                          smul (zsum n (fun i => a i * b (n + i)%nat) * x_ip) H_point) in
      let R := smul inv8 (cross n (fun i => a (n + i)%nat) b G (fun i => H (n + i)%nat) ⊕
                          smul (zsum n (fun i => a (n + i)%nat * b i) * x_ip) H_point) in
      let w := mash c [enc L; enc R] in
      unless_zero w (
      r ← argue k x_ip (folded n (einv w) w G) (folded n w (einv w) H)
            (fun i => a i * w + a (n + i)%nat * einv w) (fun i => b i * einv w + b (n + i)%nat * w) w;
      Some (mk_arg (L :: ar_L r) (R :: ar_R r) (w :: ar_w r) (ar_a r) (ar_b r)))
  end.

(** ** Points of prime order *)

Lemma order_add P Q : prime_order P -> prime_order Q -> prime_order (P ⊕ Q).
Proof. unfold prime_order. intros HP HQ. rewrite smul_gadd, HP, HQ. apply gadd_0_l. Qed.

Lemma order_sumg n F : primes n F -> prime_order (sumg n F).
Proof.
  induction n as [| n IH]; intros HF; cbn [sumg]; [exact (smul_0 ell) |].
  apply order_add; [apply IH; intros i Hi; apply HF; lia | apply HF; lia].
Qed.

Lemma order_cross n a b P Q : primes n P -> primes n Q -> prime_order (cross n a b P Q).
Proof.
  intros HP HQ. apply order_sumg. intros i Hi. apply order_add; apply smul_prime; [by apply HP | by apply HQ].
Qed.

Lemma order_folded n a b P : primes (2 * n) P -> primes n (folded n a b P).
Proof. intros HP i Hi. apply order_add; apply smul_prime, HP; lia. Qed.

Lemma smul_eqm x y P : prime_order P -> x ≡⟨ ell ⟩ y -> smul x P ≃ smul y P.
Proof. intros HP E. apply smul_mod_eq; [done |]. by apply mod_ell. Qed.

Lemma eight_inv8 P : prime_order P -> smul 8 (smul inv8 P) ≃ P.
Proof. intros HP. rewrite <- smul_mul, (smul_eqm _ 1 P HP inv8_ok). apply smul_1. Qed.

(** ** The relation of the argument *)

Definition relation (n : nat) (x_ip : Z) (a b : nat -> Z) (G H : nat -> point) : point :=
  cross n a b G H ⊕ smul (zsum n (fun i => a i * b i) * x_ip) H_point.

(** A congruence that holds by [w v = 1]. *)
Lemma eqm_by w v q x y : w * v ≡⟨ ell ⟩ 1 -> x - y = (w * v - 1) * q -> x mod ell = y mod ell.
Proof. intros [k E] Eq. apply mod_ell. exists (k * q). rewrite Eq, E. ring. Qed.

Section Fold.
Context (n : nat) (w v : Z) (Hw : w * v ≡⟨ ell ⟩ 1).

Lemma fold_cross a b G H : primes (2 * n) G -> primes (2 * n) H ->
  smul (w * w) (cross n a (fun i => b (n + i)%nat) (fun i => G (n + i)%nat) H) ⊕
  smul (v * v) (cross n (fun i => a (n + i)%nat) b G (fun i => H (n + i)%nat)) ⊕ cross (2 * n) a b G H ≃
  cross n (fun i => a i * w + a (n + i)%nat * v) (fun i => b i * v + b (n + i)%nat * w) (folded n v w G) (folded n w v H).
Proof.
  intros HG HH. unfold cross. replace (2 * n)%nat with (n + n)%nat by lia. rewrite sumg_split, <- !sumg_smul, <- !sumg_add.
  apply sumg_ext. intros i Hi. unfold folded. glin_mod ell.
  - exact (Forall_cons_2 _ _ _ (HG (n + i)%nat ltac:(lia)) (Forall_cons_2 _ _ _ (HH i ltac:(lia))
      (Forall_cons_2 _ _ _ (HG i ltac:(lia)) (Forall_cons_2 _ _ _ (HH (n + i)%nat ltac:(lia)) (Forall_nil_2 _))))).
  - apply Forall2_cons_2; [apply (eqm_by w v (- a (n + i)%nat) _ _ Hw); ring |].
    apply Forall2_cons_2; [apply (eqm_by w v (- b i) _ _ Hw); ring |].
    apply Forall2_cons_2; [apply (eqm_by w v (- a i) _ _ Hw); ring |].
    apply Forall2_cons_2; [apply (eqm_by w v (- b (n + i)%nat) _ _ Hw); ring | constructor].
Qed.

Lemma fold_product a b : w * w * zsum n (fun i => a i * b (n + i)%nat) + v * v * zsum n (fun i => a (n + i)%nat * b i) + zsum (2 * n) (fun i => a i * b i) ≡⟨ ell ⟩
  zsum n (fun i => (a i * w + a (n + i)%nat * v) * (b i * v + b (n + i)%nat * w)).
Proof.
  replace (2 * n)%nat with (n + n)%nat by lia. rewrite zsum_split, <- !zsum_scale, <- !zsum_add. apply zsum_eqm. intros i _.
  apply mod_ell, (eqm_by w v (- (a i * b i + a (n + i)%nat * b (n + i)%nat)) _ _ Hw). ring.
Qed.

(** A round keeps the relation. *)
Lemma fold_relation x_ip a b G H : primes (2 * n) G -> primes (2 * n) H ->
  smul (w * w) (cross n a (fun i => b (n + i)%nat) (fun i => G (n + i)%nat) H ⊕ smul (zsum n (fun i => a i * b (n + i)%nat) * x_ip) H_point) ⊕
  smul (v * v) (cross n (fun i => a (n + i)%nat) b G (fun i => H (n + i)%nat) ⊕ smul (zsum n (fun i => a (n + i)%nat * b i) * x_ip) H_point) ⊕
  relation (2 * n) x_ip a b G H ≃
  relation n x_ip (fun i => a i * w + a (n + i)%nat * v) (fun i => b i * v + b (n + i)%nat * w) (folded n v w G) (folded n w v H).
Proof.
  intros HG HH. unfold relation. rewrite <- fold_cross by done.
  rewrite <- (smul_eqm _ _ H_point H_prime (eqm_mul _ _ _ (fold_product a b) x_ip x_ip (reflexivity _))). glin.
Qed.
End Fold.

Lemma bind_Some_inv {A B} (m : option A) (f : A -> option B) y : (m ≫= f) = Some y -> exists x, m = Some x /\ f x = Some y.
Proof. destruct m as [x |]; [by exists x | discriminate]. Qed.

Lemma argue_step k x_ip G H a b c : argue (S k) x_ip G H a b c =
  let n := (2 ^ k)%nat in
  let L := smul inv8 (cross n a (fun i => b (n + i)%nat) (fun i => G (n + i)%nat) H ⊕ smul (zsum n (fun i => a i * b (n + i)%nat) * x_ip) H_point) in
  let R := smul inv8 (cross n (fun i => a (n + i)%nat) b G (fun i => H (n + i)%nat) ⊕ smul (zsum n (fun i => a (n + i)%nat * b i) * x_ip) H_point) in
  let w := mash c [enc L; enc R] in
  unless_zero w (
    r ← argue k x_ip (folded n (einv w) w G) (folded n w (einv w) H)
          (fun i => a i * w + a (n + i)%nat * einv w) (fun i => b i * einv w + b (n + i)%nat * w) w;
    Some (mk_arg (L :: ar_L r) (R :: ar_R r) (w :: ar_w r) (ar_a r) (ar_b r))).
Proof. reflexivity. Qed.

(** The case analysis of a round. *)
Lemma argue_S k x_ip G H a b c r : argue (S k) x_ip G H a b c = Some r -> let n := (2 ^ k)%nat in
  let L := smul inv8 (cross n a (fun i => b (n + i)%nat) (fun i => G (n + i)%nat) H ⊕ smul (zsum n (fun i => a i * b (n + i)%nat) * x_ip) H_point) in
  let R := smul inv8 (cross n (fun i => a (n + i)%nat) b G (fun i => H (n + i)%nat) ⊕ smul (zsum n (fun i => a (n + i)%nat * b i) * x_ip) H_point) in
  let w := mash c [enc L; enc R] in
  w mod ell <> 0 /\ exists r', argue k x_ip (folded n (einv w) w G) (folded n w (einv w) H)
    (fun i => a i * w + a (n + i)%nat * einv w) (fun i => b i * einv w + b (n + i)%nat * w) w = Some r' /\
    r = mk_arg (L :: ar_L r') (R :: ar_R r') (w :: ar_w r') (ar_a r') (ar_b r').
Proof.
  intros E n L R w. rewrite argue_step in E. cbv zeta in E.
  apply unless_zero_Some in E as [Hw E]. split; [exact Hw |]. apply bind_Some_inv in E as (r' & E & Er). exists r'. split; [exact E |].
  symmetry. exact (inj Some _ _ Er).
Qed.

Lemma argue_lengths k x_ip G H a b c r : argue k x_ip G H a b c = Some r ->
  length (ar_w r) = k /\ length (ar_L r) = k /\ length (ar_R r) = k.
Proof.
  revert G H a b c r. induction k as [| k IH]; intros G H a b c r E; [apply (inj Some) in E; by subst r |].
  apply argue_S in E as (_ & r' & E & ->). destruct (IH _ _ _ _ _ _ E) as (E1 & E2 & E3). cbn [ar_w ar_L ar_R length]. by rewrite E1, E2, E3.
Qed.

(** The challenges are those of the transcript, and none is zero. *)
Lemma argue_challenges k x_ip G H a b c r : argue k x_ip G H a b c = Some r ->
  ar_w r = chal_rounds c (ar_L r) (ar_R r) /\ Forall (fun w => w mod ell <> 0) (ar_w r).
Proof.
  revert G H a b c r. induction k as [| k IH]; intros G H a b c r E; [apply (inj Some) in E; subst r; split; [done | constructor] |].
  apply argue_S in E as (Hw & r' & E & ->). destruct (IH _ _ _ _ _ _ E) as [E1 E2]. cbn [ar_w ar_L ar_R chal_rounds].
  split; [by rewrite E1 at 1 | by constructor].
Qed.

(** The factors of one more round. *)
Lemma wprod_folded f g w ws n P : length ws = n -> primes (2 * 2 ^ n) P ->
  sumg (2 ^ n) (fun i => smul (wprod f g ws i) (folded (2 ^ n) (f w) (g w) P i)) ≃ sumg (2 ^ S n) (fun i => smul (wprod f g (w :: ws) i) (P i)).
Proof.
  intros L HP. replace (2 ^ S n)%nat with (2 ^ n + 2 ^ n)%nat by (cbn [Nat.pow]; lia). rewrite sumg_split, <- sumg_add. apply sumg_ext. intros i Hi.
  unfold folded. cbn [wprod]. rewrite L. rewrite (proj2 (Nat.ltb_lt _ _)), (proj2 (Nat.ltb_ge _ _)) by lia.
  replace (2 ^ n + i - 2 ^ n)%nat with i by lia. glin.
Qed.

(** What the rounds prove: the relation at the start is the one of the last values, with the
    generators folded together. *)
Lemma argue_relation k x_ip G H a b c r : argue k x_ip G H a b c = Some r -> primes (2 ^ k) G -> primes (2 ^ k) H ->
  round_sum (ar_w r) (map (smul 8) (ar_L r)) (map (smul 8) (ar_R r)) ⊕ relation (2 ^ k) x_ip a b G H ≃
  smul (ar_a r) (sumg (2 ^ k) (fun i => smul (sG (ar_w r) i) (G i))) ⊕ smul (ar_b r) (sumg (2 ^ k) (fun i => smul (sH (ar_w r) i) (H i))) ⊕
  smul (ar_a r * ar_b r * x_ip) H_point.
Proof.
  revert G H a b c r. induction k as [| k IH]; intros G H a b c r E HG HH.
  { apply (inj Some) in E. subst r. unfold relation, cross. cbn [Nat.pow sumg zsum round_sum ar_w ar_L ar_R ar_a ar_b map wprod]. glin. }
  replace (2 ^ S k)%nat with (2 * 2 ^ k)%nat in * by done. pose proof (argue_lengths _ _ _ _ _ _ _ _ E) as (Lw & _).
  apply argue_S in E as (Hw & r' & E & ->). cbn [ar_w ar_L ar_R ar_a ar_b map round_sum length] in *. injection Lw as Lw.
  set (w := mash c _) in *. specialize (IH _ _ _ _ _ _ E (order_folded _ _ _ _ HG) (order_folded _ _ _ _ HH)).
  rewrite !eight_inv8; [| apply order_add; [apply order_cross | apply smul_prime, H_prime] ..].
  - rewrite <- (fold_relation _ w (einv w) (einv_ok w Hw)) in IH by done.
    rewrite (wprod_folded einv (fun w => w)), (wprod_folded (fun w => w) einv) in IH by done. rewrite <- IH. glin.
  - intros i Hi. apply HG. lia.
  - intros i Hi. apply HH. lia.
  - intros i Hi. apply HG. lia.
  - intros i Hi. apply HH. lia.
Qed.
End Oracle.
End BulletproofSpec.
