(* ===== verification/BulletproofComplete.v ===== *)
(** The prover of the protocol and its completeness: a proof made from amounts below 2^64
    satisfies both equations of the verifier. *)
From S2P Require Import Prelude Pack ScalarCorrect Scalar Group GroupSolve GroupSum Curve GeTables CurveOrder Encoding Crypto.
From S2P Require Import RctData RctTables Exc RctOps RctOpsCorrect Bulletproofs BulletproofScalars BulletproofPoints BulletproofSpec.

Local Open Scope Z_scope.

Module BulletproofComplete.
Import Pack Scalar ScalarCorrect Group GroupSolve GroupSum Curve GeTables Finite CurveOrder Encoding Crypto.
Import RctData RctTables Exc RctOps RctOpsCorrect Bulletproofs BulletproofScalars BulletproofPoints BulletproofSpec.
Local Open Scope group_scope.

(** ** Sums over blocks and bits *)

Lemma zsum_blocks M N f : zsum (M * N) f = zsum M (fun j => zsum N (fun i => f (j * N + i)%nat)).
Proof. induction M as [| M IH]; [done |]. replace (S M * N)%nat with (M * N + N)%nat by lia. rewrite zsum_split, IH. done. Qed.

Lemma block_index N j i : (i < N)%nat -> ((j * N + i) / N = j /\ (j * N + i) mod N = i)%nat.
Proof.
  intros Hi. rewrite Nat.div_add_l, Nat.div_small, Nat.add_0_r by lia. split; [done |].
  by rewrite Nat.add_comm, Nat.Div0.mod_add, Nat.mod_small.
Qed.

(** A sum of products of a factor of the block and one of the index in it. *)
Lemma zsum_factors M N f g : zsum (M * N) (fun i => f (i / N)%nat * g (i / N)%nat (i mod N)%nat) = zsum M (fun j => f j * zsum N (g j)).
Proof.
  rewrite zsum_blocks. apply zsum_ext. intros j _. rewrite <- zsum_scale. apply zsum_ext. intros i Hi.
  by destruct (block_index N j i Hi) as [-> ->].
Qed.

Lemma zsum_restrict n m f : (n <= m)%nat -> (forall i, (n <= i)%nat -> f i = 0) -> zsum m f = zsum n f.
Proof.
  intros Hn H. replace m with (n + (m - n))%nat by lia. rewrite zsum_split, (zsum_ext (m - n) _ (fun _ => 0 * 0)).
  - rewrite zsum_scale. lia.
  - intros i _. apply H. lia.
Qed.

(** The bit [i mod 64] of the amount [i / 64]. *)
Definition amount_bit (v : nat -> Z) (i : nat) : Z := Z.b2z (Z.testbit (v (i / maxN)%nat) (Z.of_nat (i mod maxN))).

Lemma amount_bit_square v i : amount_bit v i * (amount_bit v i - 1) = 0.
Proof. unfold amount_bit. by destruct (Z.testbit _ _). Qed.

Lemma bits_sum n x : 0 <= x -> zsum n (fun i => 2 ^ Z.of_nat i * Z.b2z (Z.testbit x (Z.of_nat i))) = x mod 2 ^ Z.of_nat n.
Proof.
  intros Hx. induction n as [| n IH]; cbn [zsum]; [by rewrite Z.mod_1_r |]. rewrite IH, Z.testbit_spec' by lia.
  rewrite Nat2Z.inj_succ, Z.pow_succ_r by lia. rewrite (Z.mul_comm 2), Z.rem_mul_r by lia. ring.
Qed.

Lemma amount_bits x : 0 <= x < 2 ^ 64 -> zsum maxN (fun i => 2 ^ Z.of_nat i * Z.b2z (Z.testbit x (Z.of_nat i))) = x.
Proof. intros Hx. rewrite bits_sum by lia. by apply Z.mod_small. Qed.

Section Prover.
Context (hash : list Z -> Z) (G H : nat -> point) (logM : nat) (m : nat) (v gamma : nat -> Z).
Context (alpha rho tau1 tau2 : Z) (sL sR : nat -> Z).
Abbreviation MN := (2 ^ logM * maxN)%nat.

Abbreviation aL := (amount_bit v).
Abbreviation aR := (fun i => amount_bit v i - 1).

Definition p_V : list point := map (fun j => smul inv8 (pedersen (gamma j) (v j))) (seq 0 m).
Definition p_A : point := smul inv8 (cross MN aL aR G H ⊕ smul alpha base_point).
Definition p_S : point := smul inv8 (cross MN sL sR G H ⊕ smul rho base_point).
Definition p_y : Z := mash hash (hash (concat (map enc p_V))) [enc p_A; enc p_S].
Definition p_z : Z := hash (sbytes p_y).

(** [z^(j+2) 2^i] at the index [64 j + i]. *)
Definition z_two (z : Z) (i : nat) : Z := z ^ (Z.of_nat (i / maxN) + 2) * 2 ^ Z.of_nat (i mod maxN).

Definition p_l0 (i : nat) : Z := aL i - p_z.
Definition p_r0 (i : nat) : Z := (aR i + p_z) * p_y ^ Z.of_nat i + z_two p_z i.
Definition p_r1 (i : nat) : Z := p_y ^ Z.of_nat i * sR i.
Definition p_t1 : Z := zsum MN (fun i => p_l0 i * p_r1 i) + zsum MN (fun i => sL i * p_r0 i).
Definition p_t2 : Z := zsum MN (fun i => sL i * p_r1 i).
Definition p_T1 : point := smul inv8 (pedersen tau1 p_t1).
Definition p_T2 : point := smul inv8 (pedersen tau2 p_t2).
Definition p_x : Z := mash hash p_z [sbytes p_z; enc p_T1; enc p_T2].
Definition p_taux : Z := tau1 * p_x + tau2 * (p_x * p_x) + zsum m (fun j => p_z ^ (Z.of_nat j + 2) * gamma j).
Definition p_mu : Z := alpha + p_x * rho.
Definition p_l (i : nat) : Z := p_l0 i + sL i * p_x.
Definition p_r (i : nat) : Z := p_r0 i + p_r1 i * p_x.
Definition p_t : Z := zsum MN (fun i => p_l i * p_r i).
Definition p_x_ip : Z := mash hash p_x [sbytes p_x; sbytes p_taux; sbytes p_mu; sbytes p_t].
Definition p_H (i : nat) : point := smul (einv p_y ^ Z.of_nat i) (H i).

Definition p_proof (r : argument) : dproof :=
  mk_dp p_V p_A p_S p_T1 p_T2 p_taux p_mu (ar_L r) (ar_R r) (ar_a r) (ar_b r) p_t.

(** The proof, unless a challenge is zero. *)
Definition prove : option dproof :=
  unless_zero p_y (unless_zero p_z (unless_zero p_x (unless_zero p_x_ip (
    r ← argue hash (logM + 6) p_x_ip G p_H p_l p_r p_x_ip; Some (p_proof r))))).

(** ** Completeness *)

Context (GP : forall i, prime_order (G i)) (HP : forall i, prime_order (H i)).
Context (Hv : forall j, 0 <= v j < 2 ^ 64) (Hm : (m <= 2 ^ logM)%nat) (Hz : forall j, (m <= j)%nat -> v j = 0).

Lemma order_pedersen a b : prime_order (pedersen a b).
Proof. apply order_add; apply smul_prime; [exact base_prime | exact H_prime]. Qed.

Lemma pedersen_smul c a b : smul c (pedersen a b) ≃ pedersen (c * a) (c * b).
Proof. unfold pedersen. glin. Qed.

Lemma pedersen_sum n f g : sumg n (fun j => pedersen (f j) (g j)) ≃ pedersen (zsum n f) (zsum n g).
Proof. induction n as [| n IH]; cbn [sumg zsum]; [symmetry; exact pedersen_0 |]. by rewrite IH, pedersen_add. Qed.

(** The constant coefficient of the product of the two polynomials. *)
Lemma p_t0 d : chal_y hash d = p_y -> chal_z hash d = p_z ->
  zsum MN (fun i => p_l0 i * p_r0 i) = zsum m (fun j => p_z ^ (Z.of_nat j + 2) * v j) + delta hash d MN.
Proof.
  intros Ey Ez. unfold delta. rewrite Ey, Ez, Nat.div_mul by done.
  rewrite (zsum_ext MN _ (fun i => (p_z - p_z * p_z) * p_y ^ Z.of_nat i +
    (p_z ^ (Z.of_nat (i / maxN) + 2) * (2 ^ Z.of_nat (i mod maxN) * amount_bit v i) +
     - (p_z ^ (Z.of_nat (i / maxN) + 3) * 2 ^ Z.of_nat (i mod maxN))))).
  2: { intros i _. unfold p_l0, p_r0, z_two. pose proof (amount_bit_square v i) as B.
       replace (Z.of_nat (i / maxN) + 3) with (Z.succ (Z.of_nat (i / maxN) + 2)) by lia. rewrite Z.pow_succ_r by lia.
       replace ((aL i - p_z) * ((aR i + p_z) * p_y ^ Z.of_nat i + p_z ^ (Z.of_nat (i / maxN) + 2) * 2 ^ Z.of_nat (i mod maxN))) with
         (aL i * aR i * p_y ^ Z.of_nat i + ((p_z - p_z * p_z) * p_y ^ Z.of_nat i + (p_z ^ (Z.of_nat (i / maxN) + 2) * (2 ^ Z.of_nat (i mod maxN) * aL i) +
          - (p_z * p_z ^ (Z.of_nat (i / maxN) + 2) * 2 ^ Z.of_nat (i mod maxN))))) by ring. rewrite B. ring. }
  rewrite zsum_add, zsum_scale, zsum_add.
  pose proof (zsum_factors (2 ^ logM) maxN (fun j => p_z ^ (Z.of_nat j + 2)) (fun j i => 2 ^ Z.of_nat i * Z.b2z (Z.testbit (v j) (Z.of_nat i)))) as E1.
  pose proof (zsum_factors (2 ^ logM) maxN (fun j => - (p_z ^ (Z.of_nat j + 3))) (fun _ i => 2 ^ Z.of_nat i)) as E2. cbv beta in E1, E2.
  unfold amount_bit. rewrite E1. rewrite (zsum_ext MN (fun i => - (_ * _)) (fun i => - (p_z ^ (Z.of_nat (i / maxN) + 3)) * 2 ^ Z.of_nat (i mod maxN)))
    by (intros i _; ring). rewrite E2.
  change (zsum maxN (fun i => 2 ^ Z.of_nat i)) with (2 ^ 64 - 1).
  rewrite (zsum_ext (2 ^ logM) (fun j => - p_z ^ (Z.of_nat j + 3) * (2 ^ 64 - 1)) (fun j => - (2 ^ 64 - 1) * p_z ^ (Z.of_nat j + 3))) by (intros j _; ring).
  rewrite zsum_scale, (zsum_ext (2 ^ logM) _ (fun j => p_z ^ (Z.of_nat j + 2) * v j)) by (intros j _; by rewrite amount_bits).
  rewrite (zsum_restrict m (2 ^ logM)) by (done || (intros j Hj; rewrite Hz by done; ring)). ring.
Qed.

Lemma p_t_split : p_t = zsum MN (fun i => p_l0 i * p_r0 i) + p_x * p_t1 + p_x * p_x * p_t2.
Proof.
  unfold p_t, p_t1, p_t2. rewrite Z.mul_add_distr_l, <- !zsum_scale, <- !zsum_add. apply zsum_ext. intros i _. unfold p_l, p_r. ring.
Qed.

Section Made.
Context (r : argument) (Hr : argue hash (logM + 6) p_x_ip G p_H p_l p_r p_x_ip = Some r).
Abbreviation d := (p_proof r).

Lemma made_61 : line_61 hash d MN ≃ gzero.
Proof.
  unfold line_61. cbn [dV dT1 dT2 dtaux dt p_proof].
  change (chal_z hash d) with p_z. change (chal_x hash d) with p_x.
  assert (E : sumg (length p_V) (fun j => smul (p_z ^ (Z.of_nat j + 2)) (smul 8 (nth j p_V gzero))) ≃
    pedersen (zsum m (fun j => p_z ^ (Z.of_nat j + 2) * gamma j)) (zsum m (fun j => p_z ^ (Z.of_nat j + 2) * v j))).
  { unfold p_V. rewrite length_map, length_seq, <- pedersen_sum. apply sumg_ext. intros j Hj.
    rewrite (nth_lookup_Some _ _ _ (smul inv8 (pedersen (gamma j) (v j)))) by (rewrite list_lookup_fmap, lookup_seq_lt by done; done).
    rewrite eight_inv8 by apply order_pedersen. apply pedersen_smul. }
  rewrite E. unfold p_T1, p_T2. rewrite !eight_inv8 by apply order_pedersen. rewrite !pedersen_smul, pedersen_opp, !pedersen_add.
  rewrite p_t_split, (p_t0 d eq_refl eq_refl). unfold p_taux. rewrite <- pedersen_0. apply pedersen_mod; f_equal; ring.
Qed.

Lemma power_inverse i : p_y mod ell <> 0 -> p_y ^ Z.of_nat i * einv p_y ^ Z.of_nat i ≡⟨ ell ⟩ 1.
Proof. intros Hy. rewrite <- Z.pow_mul_l, (einv_ok p_y Hy). by rewrite Z.pow_1_l by lia. Qed.

(** The generators cancel: at every index the vectors at [x] are what [A], [S] and the
    scalars of the verifier leave. *)
Lemma generators_cancel (a b : Z) (s t : nat -> Z) : p_y mod ell <> 0 ->
  cross MN aL aR G H ⊕ smul p_x (cross MN sL sR G H) ⊕
  (smul a (sumg MN (fun i => smul (s i) (G i))) ⊕ smul b (sumg MN (fun i => smul (t i) (p_H i)))) ≃
  cross MN p_l p_r G p_H ⊕ cross MN (fun i => a * s i + p_z)
    (fun i => einv p_y ^ Z.of_nat i * (b * t i - (p_z * p_y ^ Z.of_nat i + z_two p_z i))) G H.
Proof.
  intros Hy. unfold cross. rewrite <- !sumg_smul, <- !sumg_add. apply sumg_ext. intros i Hi. unfold p_H, p_l, p_r, p_l0, p_r0, p_r1. glin_mod ell.
  - exact (Forall_cons_2 _ _ _ (GP i) (Forall_cons_2 _ _ _ (HP i) (Forall_nil_2 _))).
  - apply Forall2_cons_2; [f_equal; ring |]. apply Forall2_cons_2; [| constructor].
    apply (eqm_by _ _ (- (aR i + p_x * sR i)) _ _ (power_inverse i Hy)). ring.
Qed.

Lemma made_62 : p_y mod ell <> 0 -> line_62 hash G H d MN ≃ gzero.
Proof.
  intros Hy. unfold line_62, g_scalar, h_scalar. destruct (argue_challenges _ _ _ _ _ _ _ _ _ Hr) as [Ew _].
  assert (W : chal_w hash d = ar_w r) by (rewrite Ew; reflexivity). rewrite W.
  change (chal_y hash d) with p_y. change (chal_z hash d) with p_z. change (chal_x hash d) with p_x. change (chal_x_ip hash d) with p_x_ip.
  cbn [dA dS dL dR da db dt dmu p_proof]. unfold p_A, p_S. rewrite !eight_inv8.
  2, 3: apply order_add; [apply order_cross; intros i _; [apply GP | apply HP] | apply smul_prime, base_prime].
  assert (PH : forall i, prime_order (p_H i)) by (intros i; apply smul_prime, HP).
  pose proof (argue_relation _ _ _ _ _ _ _ _ _ Hr (fun i _ => GP i) (fun i _ => PH i)) as R.
  replace (2 ^ (logM + 6))%nat with MN in R by (rewrite Nat.pow_add_r; reflexivity). unfold relation in R. fold p_t in R.
  pose proof (generators_cancel (ar_a r) (ar_b r) (wprod einv (fun w => w) (ar_w r)) (wprod (fun w => w) einv (ar_w r)) Hy) as C. unfold pedersen, p_mu.
  set (RS := round_sum _ _ _) in *. set (SG := sumg MN (fun i => smul _ (G i))) in *. set (SH := sumg MN (fun i => smul _ (p_H i))) in *.
  set (CA := cross MN aL _ G H) in *. set (CS := cross MN sL sR G H) in *. set (CR := cross MN p_l p_r G p_H) in *.
  set (CG := cross MN (fun i => _ + p_z) _ G H) in *.
  assert (R' : RS ≃ smul (ar_a r) SG ⊕ smul (ar_b r) SH ⊕ smul (ar_a r * ar_b r * p_x_ip) H_point ⊕ gopp (CR ⊕ smul (p_t * p_x_ip) H_point)) by (rewrite <- R; glin).
  assert (C' : CA ≃ (CR ⊕ CG) ⊕ gopp (smul p_x CS ⊕ (smul (ar_a r) SG ⊕ smul (ar_b r) SH))) by (rewrite <- C; glin).
  rewrite R', C'. glin.
Qed.
End Made.

(** A proof that is made satisfies both equations, and no challenge is zero. *)
Lemma prove_ok d : prove = Some d -> good hash d /\ line_61 hash d MN ≃ gzero /\ line_62 hash G H d MN ≃ gzero /\
  length (dV d) = m /\ length (dL d) = (logM + 6)%nat /\ length (dR d) = (logM + 6)%nat.
Proof.
  unfold prove. intros [Hy [Hz' [Hx [Hip (r & Hr & E)%bind_Some_inv]%unless_zero_Some]%unless_zero_Some]%unless_zero_Some]%unless_zero_Some.
  apply (inj Some) in E. subst d. destruct (argue_challenges _ _ _ _ _ _ _ _ _ Hr) as [Ew Nw]. destruct (argue_lengths _ _ _ _ _ _ _ _ _ Hr) as (_ & L1 & L2).
  split; [| split; [exact (made_61 r) | split; [by apply made_62 |]]].
  - unfold good, challenges. do 4 (constructor; [done |]). unfold chal_w. change (chal_x_ip hash (p_proof r)) with p_x_ip. cbn [dL dR p_proof]. by rewrite <- Ew.
  - split; [| by split]. cbn [dV p_proof]. unfold p_V. by rewrite length_map, length_seq.
Qed.
End Prover.
End BulletproofComplete.
