(* ===== verification/BulletproofVerify.v ===== *)
(** The verifier of src/ringct/bulletproofs.cc refines the equations of the protocol: on a
    batch of proofs it accepts exactly when the sum of all equations, with random weights,
    is the identity. *)
From S2P Require Import Prelude Limbs Pack Scalar ScalarCorrect Group GroupSolve GroupSum Fe Curve Ge GeCorrect GeEncode GeMult GeMultCorrect.
From S2P Require Import GeTables GeScalarmult GeFromFe GeTheorems CurveOrder Keccak KeccakCorrect Varint Encoding Crypto CryptoCorrect.
From S2P Require Import RctData RctTables Exc RctOps RctOpsCorrect Multiexp MultiexpCorrect Bulletproofs BulletproofScalars BulletproofPoints BulletproofSpec.

Local Open Scope Z_scope.

Module BulletproofVerify.
Import Limbs Pack Scalar ScalarCorrect Group GroupSolve GroupSum Fe Curve Ge GeCorrect GeEncode GeMult GeMultCorrect.
Import GeTables GeScalarmult GeFromFe GeTheorems Finite CurveOrder Keccak KeccakCorrect Varint Encoding Crypto CryptoCorrect.
Import RctData RctTables Exc RctOps RctOpsCorrect Multiexp MultiexpCorrect Bulletproofs BulletproofScalars BulletproofPoints BulletproofSpec.
Local Open Scope group_scope.
#[local] Opaque hs.

(** ** The products of the challenges *)

(** The factors by the last round instead of the first. *)
Lemma wprod_snoc f g ws w i : (i < 2 ^ (length ws + 1))%nat ->
  wprod f g (ws ++ [w]) i = wprod f g ws (i / 2) * (if Nat.odd i then g w else f w).
Proof.
  revert i. induction ws as [| w0 ws IH]; intros i Hi.
  { cbn [app wprod length Nat.pow]. cbn [length Nat.add Nat.pow Nat.mul] in Hi. destruct i as [| [| i]]; [| | lia]; cbn; ring. }
  cbn [app wprod length]. rewrite length_app. cbn [length]. rewrite (Nat.add_comm (length ws) 1). cbn [length Nat.add Nat.pow] in *.
  rewrite Nat.add_1_r in Hi. cbn [Nat.pow] in Hi. set (n := (2 ^ length ws)%nat) in *. replace (n + (n + 0))%nat with (2 * n)%nat by lia.
  assert (P : (2 ^ (length ws + 1) = 2 * n)%nat) by (rewrite Nat.add_1_r; reflexivity).
  pose proof (Nat.div_mod i 2 ltac:(done)) as D. pose proof (Nat.mod_upper_bound i 2 ltac:(done)) as B.
  destruct (Nat.ltb_spec i (2 * n)) as [H | H].
  - rewrite (proj2 (Nat.ltb_lt _ _)) by lia. rewrite IH by lia. ring.
  - rewrite (proj2 (Nat.ltb_ge _ _)) by lia. rewrite IH by lia.
    replace ((i - 2 * n) / 2)%nat with (i / 2 - n)%nat by (replace (i - 2 * n)%nat with (i mod 2 + (i / 2 - n) * 2)%nat by lia;
      rewrite Nat.div_add, (Nat.div_small (i mod 2)) by lia; lia).
    replace (Nat.odd (i - 2 * n)) with (Nat.odd i); [ring |].
    replace i with ((i - 2 * n) + 2 * n)%nat at 1 by lia. by rewrite Nat.odd_add_mul_2.
Qed.

Lemma wprod_flip f g ws i : (i < 2 ^ length ws)%nat -> wprod f g ws (2 ^ length ws - 1 - i) = wprod g f ws i.
Proof.
  revert i. induction ws as [| w ws IH]; intros i Hi; [done |]. cbn [wprod length Nat.pow] in *. set (n := (2 ^ length ws)%nat) in *.
  destruct (Nat.ltb_spec i n) as [H | H].
  - rewrite (proj2 (Nat.ltb_ge _ _)) by lia. f_equal. rewrite <- IH by lia. f_equal. lia.
  - rewrite (proj2 (Nat.ltb_lt _ _)) by lia. f_equal. rewrite <- IH by lia. f_equal. lia.
Qed.

Lemma cache_pass_ok h w v f c : (2 * h <= length c)%nat -> (forall i, (i < h)%nat -> c !! i = Some (sbytes (f i))) ->
  exists c', cache_pass h (sbytes w) (sbytes v) c = Some c' /\ length c' = length c /\
    (forall i, (i < 2 * h)%nat -> c' !! i = Some (sbytes (f (i / 2)%nat * (if Nat.odd i then w else v)))) /\
    (forall i, (2 * h <= i)%nat -> c' !! i = c !! i).
Proof.
  revert c. induction h as [| h IH]; intros c Hl Hc; cbn [cache_pass].
  { exists c. do 2 (split; [done |]). split; [lia | done]. }
  rewrite (Hc h) by lia. bind. rewrite mul_sbytes. bind. rewrite list_lookup_insert_ne, (Hc h) by lia. bind. rewrite mul_sbytes. bind.
  destruct (IH (<[(2 * h)%nat := sbytes (f h * v)]> (<[(2 * h + 1)%nat := sbytes (f h * w)]> c))) as (c' & -> & L & H1 & H2).
  { rewrite !length_insert. lia. }
  { intros i Hi. rewrite !list_lookup_insert_ne by lia. apply Hc. lia. }
  exists c'. split; [done |]. split; [by rewrite L, !length_insert |]. split.
  - intros i Hi. destruct (Nat.lt_ge_cases i (2 * h)) as [Hlt | Hge]; [by apply H1 |]. rewrite H2 by done.
    assert (i = (2 * h)%nat \/ i = (2 * h + 1)%nat) as [-> | ->] by lia.
    + rewrite list_lookup_insert_eq by (rewrite length_insert; lia). rewrite (Nat.mul_comm 2), Nat.div_mul by done.
      by rewrite Nat.mul_comm, Nat.odd_mul.
    + rewrite list_lookup_insert_ne, list_lookup_insert_eq by lia.
      rewrite (Nat.mul_comm 2), Nat.div_add_l, Nat.div_small, Nat.add_0_r by lia. by rewrite Nat.odd_add, Nat.odd_mul, andb_false_r.
  - intros i Hi. rewrite H2, !list_lookup_insert_ne by lia. done.
Qed.

Lemma cache_passes_ok ws1 ws2 c : (2 ^ length (ws1 ++ ws2) <= length c)%nat ->
  (forall i, (i < 2 ^ length ws1)%nat -> c !! i = Some (sbytes (wprod einv (fun w => w) ws1 i))) ->
  exists c', cache_passes (2 ^ length ws1) (map sbytes ws2) (map (fun w => sbytes (einv w)) ws2) c = Some c' /\ length c' = length c /\
    forall i, (i < 2 ^ length (ws1 ++ ws2))%nat -> c' !! i = Some (sbytes (wprod einv (fun w => w) (ws1 ++ ws2) i)).
Proof.
  revert ws1 c. induction ws2 as [| w ws2 IH]; intros ws1 c Hl Hc; cbn [map cache_passes].
  { rewrite app_nil_r in *. by exists c. }
  assert (P : (2 ^ length (ws1 ++ [w]) = 2 * 2 ^ length ws1)%nat) by (rewrite length_app, Nat.add_1_r; reflexivity).
  assert (Hle : (2 * 2 ^ length ws1 <= length c)%nat).
  { rewrite <- P. eapply Nat.le_trans; [| exact Hl]. apply Nat.pow_le_mono_r; [done |]. rewrite !length_app. cbn [length]. lia. }
  destruct (cache_pass_ok _ w (einv w) _ c Hle Hc) as (c' & -> & L & H1 & _). bind. rewrite <- P.
  replace (ws1 ++ w :: ws2) with ((ws1 ++ [w]) ++ ws2) in * by (by rewrite <- app_assoc).
  destruct (IH (ws1 ++ [w]) c') as (c2 & -> & L2 & H2); [by rewrite L | | exists c2; split; [done |]; split; [by rewrite L2 | done]].
  intros i Hi. rewrite P in Hi. rewrite H1 by done. rewrite wprod_snoc by (rewrite Nat.add_1_r; exact Hi). done.
Qed.

Lemma challenge_products_ok ws : (0 < length ws)%nat ->
  exists c, challenge_products (map sbytes ws) (map (fun w => sbytes (einv w)) ws) = Some c /\
    forall i, (i < 2 ^ length ws)%nat -> c !! i = Some (sbytes (wprod einv (fun w => w) ws i)).
Proof.
  intros H. destruct ws as [| w ws]; [cbn [length] in H; lia |]. unfold challenge_products. cbn [map]. rewrite length_cons, length_map.
  assert (P : (2 ^ 1 <= 2 ^ S (length ws))%nat) by (apply Nat.pow_le_mono_r; lia). change (2 ^ 1)%nat with 2%nat in P.
  destruct (cache_passes_ok [w] ws (<[1%nat := sbytes w]> (<[0%nat := sbytes (einv w)]> (replicate (2 ^ S (length ws)) zero)))) as (c & E & _ & Hc).
  - cbn [app length]. by rewrite !length_insert, length_replicate.
  - intros i Hi. cbn [length Nat.pow Nat.mul Nat.add] in Hi. destruct i as [| [| i]]; [| | lia].
    + rewrite list_lookup_insert_ne, list_lookup_insert_eq by (rewrite ?length_replicate; lia). cbn. by rewrite Z.mul_1_r.
    + rewrite list_lookup_insert_eq by (rewrite length_insert, length_replicate; lia). cbn. by rewrite Z.mul_1_r.
  - cbn [length Nat.pow Nat.mul Nat.add app] in E, Hc. exists c. by split.
Qed.

(** ** The scalars of the generators *)

Lemma vec_insert n f i x : (i < n)%nat -> <[i := sbytes x]> (vec n f) = vec n (fun j => if (j =? i)%nat then x else f j).
Proof.
  intros Hi. apply list_eq. intros j. destruct (Nat.lt_ge_cases j n) as [Hj | Hj].
  - rewrite (vec_lookup _ _ j) by done. destruct (Nat.eqb_spec j i) as [-> | N].
    + by rewrite list_lookup_insert_eq by (by rewrite vec_length).
    + by rewrite list_lookup_insert_ne, vec_lookup by done.
  - rewrite !(proj2 (lookup_ge_None _ _)); [done | by rewrite vec_length | by rewrite length_insert, vec_length].
Qed.

Lemma flipped_index k i : (i < 2 ^ k)%nat -> Z.to_nat (Z.land (Z.lnot (Z.of_nat i)) (Z.of_nat (2 ^ k) - 1)) = (2 ^ k - 1 - i)%nat.
Proof.
  intros Hi. rewrite Nat2Z.inj_pow. change (Z.of_nat 2) with 2. rewrite Z.sub_1_r, <- Z.ones_equiv, Z.land_ones by lia.
  assert (B : Z.of_nat i < 2 ^ Z.of_nat k) by (change 2 with (Z.of_nat 2); rewrite <- Nat2Z.inj_pow; lia).
  unfold Z.lnot. replace (Z.pred (- Z.of_nat i)) with (2 ^ Z.of_nat k - 1 - Z.of_nat i + (-1) * 2 ^ Z.of_nat k) by lia.
  rewrite Z.mod_add, Z.mod_small by lia. apply Nat2Z.inj. rewrite Z2Nat.id by lia.
  rewrite !Nat2Z.inj_sub by (pose proof (Nat.pow_nonzero 2 k); lia). rewrite Nat2Z.inj_pow. reflexivity.
Qed.

Section Loop.
Context (d : dproof) (k maxMN : nat) (w_cache : keyV) (wz : Z) (pd : proof_data).
Let MN := (2 ^ k)%nat.
Context (Lw : length (chal_w hs d) = k) (Hk : (0 < k)%nat) (HM : (MN <= maxMN)%nat) (H64 : (maxN <= MN)%nat).
Context (Hc : forall i, (i < MN)%nat -> w_cache !! i = Some (sbytes (wprod einv (fun w => w) (chal_w hs d) i))).
Context (Ey : pd_y pd = sbytes (chal_y hs d)) (Ez : pd_z pd = sbytes (chal_z hs d)).
Context (n : nat) (Hn : (MN / maxN + 3 <= n)%nat).
Local Abbreviation y := (chal_y hs d).
Local Abbreviation z := (chal_z hs d).
Local Abbreviation gsc := (g_scalar hs d).
Local Abbreviation hsc := (h_scalar hs d).
Local Abbreviation zpow := (vec n (fun i => z ^ Z.of_nat i)).
Local Abbreviation two := (vec maxN (fun i => 2 ^ Z.of_nat i)).

(** The state before the index [i]. *)
Definition at_index (f4 f5 : nat -> Z) (i : nat) (yi yp : Z) : generator_state :=
  mk_gs (vec maxMN (fun j => if (j <? i)%nat then f4 j - gsc j * wz else f4 j))
        (vec maxMN (fun j => if (j <? i)%nat then f5 j - hsc j * wz else f5 j)) (sbytes yi) (sbytes yp).

Lemma insert_below f x i : (i < maxMN)%nat -> <[i := sbytes (f i - x i * wz)]> (vec maxMN (fun j => if (j <? i)%nat then f j - x j * wz else f j)) =
  vec maxMN (fun j => if (j <? S i)%nat then f j - x j * wz else f j).
Proof.
  intros Hi. rewrite vec_insert by done. apply vec_ext. intros j _.
  destruct (Nat.eqb_spec j i) as [E | N]; [subst j; by rewrite (proj2 (Nat.ltb_lt i (S i))) by lia |].
  by replace (j <? S i)%nat with (j <? i)%nat by (destruct (Nat.ltb_spec j i), (Nat.ltb_spec j (S i)); (done || lia)).
Qed.

Lemma generator_step_ok f4 f5 i : (i < MN)%nat -> exists yi yp,
  generator_step (wire d) pd zpow two w_cache (sbytes wz) (sbytes (einv y)) MN i (at_index f4 f5 i (einv y ^ Z.of_nat i) (y ^ Z.of_nat i)) =
    Some (at_index f4 f5 (S i) yi yp) /\ ((S i < MN)%nat -> yi = einv y ^ Z.of_nat (S i) /\ yp = y ^ Z.of_nat (S i)).
Proof.
  intros Hi. unfold generator_step. cbn [bp_a bp_b wire at_index gs_z4 gs_z5 gs_yinvpow gs_ypow]. rewrite Ez, Ey.
  assert (E1 : (if (i =? 0)%nat then Some (sbytes (db d)) else sc_mul (sbytes (db d)) (sbytes (einv y ^ Z.of_nat i))) = Some (sbytes (db d * einv y ^ Z.of_nat i))).
  { destruct (Nat.eqb_spec i 0) as [-> | _]; [by rewrite Z.pow_0_r, Z.mul_1_r | apply mul_sbytes]. }
  rewrite E1. bind. rewrite (Hc i) by exact Hi. bind. rewrite (mul_sbytes (da d)). bind.
  unfold MN. rewrite flipped_index by exact Hi. fold MN. rewrite (Hc (MN - 1 - i)%nat) by lia. bind. rewrite (mul_sbytes (db d * _)). bind. rewrite (add_sbytes (da d * _)). bind.
  assert (Hj : (i / maxN < MN / maxN + 1)%nat) by (pose proof (Nat.Div0.div_le_mono i MN maxN ltac:(lia)); lia).
  rewrite (vec_lookup n), (vec_lookup maxN) by (lia || (apply Nat.mod_upper_bound; done)). do 2 bind. rewrite (mul_sbytes (z ^ Z.of_nat (2 + i / maxN)) (2 ^ Z.of_nat (i mod maxN))). bind.
  replace (Z.of_nat (2 + i / maxN)) with (Z.of_nat (i / maxN) + 2) by lia.
  assert (F : wprod einv (fun w => w) (chal_w hs d) (MN - 1 - i) = wprod (fun w => w) einv (chal_w hs d) i).
  { unfold MN. rewrite <- Lw. apply wprod_flip. rewrite Lw. exact Hi. }
  rewrite F.
  set (sh := wprod (fun w => w) einv (chal_w hs d) i). set (tz := z ^ (Z.of_nat (i / maxN) + 2) * 2 ^ Z.of_nat (i mod maxN)).
  assert (E2 : (if (i =? 0)%nat then tmp ← sc_add (sbytes tz) (sbytes z); sc_sub (sbytes (db d * einv y ^ Z.of_nat i * sh)) tmp
    else tmp ← sc_muladd (sbytes z) (sbytes (y ^ Z.of_nat i)) (sbytes tz);
      sc_mulsub tmp (sbytes (einv y ^ Z.of_nat i)) (sbytes (db d * einv y ^ Z.of_nat i * sh))) = Some (sbytes (hsc i))).
  { unfold h_scalar. fold sh tz. destruct (Nat.eqb_spec i 0) as [-> | _].
    - rewrite add_sbytes. bind. rewrite sub_sbytes. do 2 f_equal. rewrite !Z.pow_0_r. ring.
    - rewrite muladd_sbytes. bind. rewrite mulsub_sbytes. do 2 f_equal. ring. }
  rewrite E2. bind. rewrite !vec_lookup by lia. rewrite !Nat.ltb_irrefl. bind. rewrite (mulsub_sbytes _ _ (f4 i)). bind. bind. rewrite (mulsub_sbytes _ _ (f5 i)). bind.
  assert (E3 : forall u : Z, exists x, (if (i =? 0)%nat then Some (sbytes u) else if (i =? MN - 1)%nat then Some (sbytes (u ^ Z.of_nat i))
    else sc_mul (sbytes (u ^ Z.of_nat i)) (sbytes u)) = Some (sbytes x) /\ ((S i < MN)%nat -> x = u ^ Z.of_nat (S i))).
  { intros u. destruct (Nat.eqb_spec i 0) as [-> | _]; [exists u; split; [done |]; intros _; by rewrite Z.pow_1_r |].
    destruct (Nat.eqb_spec i (MN - 1)) as [-> | _]; [eexists; split; [done | lia] |]. rewrite mul_sbytes. eexists. split; [done |]. intros _.
    rewrite Nat2Z.inj_succ, Z.pow_succ_r by lia. ring. }
  destruct (E3 (einv y)) as (yi & -> & Hyi), (E3 y) as (yp & -> & Hyp). do 2 bind. exists yi, yp. split; [| auto]. unfold at_index.
  rewrite <- (insert_below f5 hsc i), <- (insert_below f4 gsc i) by lia. reflexivity.
Qed.

Lemma generator_loop_ok f4 f5 m i : (i + m = MN)%nat -> exists yi yp,
  generator_loop (wire d) pd zpow two w_cache (sbytes wz) (sbytes (einv y)) MN m i (at_index f4 f5 i (einv y ^ Z.of_nat i) (y ^ Z.of_nat i)) =
    Some (at_index f4 f5 MN yi yp).
Proof.
  revert i. induction m as [| m IH]; intros i E; cbn [generator_loop].
  { replace i with MN by lia. by eexists _, _. }
  destruct (generator_step_ok f4 f5 i ltac:(lia)) as (yi & yp & -> & N). bind. destruct m as [| m].
  - cbn [generator_loop]. replace (S i) with MN by lia. by exists yi, yp.
  - destruct (N ltac:(lia)) as [-> ->]. apply IH. lia.
Qed.
End Loop.

(** ** Challenges *)

Abbreviation nonzero := (Forall (fun c => c mod ell <> 0)).

Lemma mash_ok c m : Forall (Forall is_byte) m -> hash_cache_mash (sbytes c) m = Some (sbytes (mash hs c m)).
Proof.
  intros Hm. unfold hash_cache_mash, mash. apply rct_hash_to_scalar_ok. apply Forall_concat. constructor; [apply sbytes_bytes | exact Hm].
Qed.

Lemma enc_keys Ps : Forall (Forall is_byte) (map enc Ps).
Proof. induction Ps as [| P Ps IH]; constructor; [apply enc_bytes | exact IH]. Qed.

Lemma key_eq_nonzero c : c mod ell <> 0 -> key_eq (sbytes c) zero = false.
Proof. intros H. rewrite key_eq_zero. by apply Z.eqb_neq. Qed.

Lemma key_eq_is_zero c : c mod ell = 0 -> key_eq (sbytes c) zero = true.
Proof. intros H. rewrite key_eq_zero. by apply Z.eqb_eq. Qed.

Lemma zero_cases c : {c mod ell <> 0} + {c mod ell = 0}.
Proof. destruct (Z.eq_dec (c mod ell) 0); auto. Qed.

Lemma round_challenges_ok c L R : length L = length R -> let ws := chal_rounds hs c L R in
  nonzero ws /\ round_challenges (sbytes c) (map enc L) (map enc R) = Some (Some (map sbytes ws)) \/
  ~ nonzero ws /\ round_challenges (sbytes c) (map enc L) (map enc R) = Some None.
Proof.
  revert c R. induction L as [| P L IH]; intros c [| Q R] E; try discriminate E; cbn [map round_challenges chal_rounds].
  { left. by split. }
  rewrite mash_ok by (do 2 (constructor; [apply enc_bytes |]); constructor). bind. set (w := mash hs c [enc P; enc Q]).
  destruct (zero_cases w) as [Hw | Hw].
  - rewrite key_eq_nonzero by done. destruct (IH w R ltac:(by injection E)) as [[N ->] | [N ->]]; bind; [left | right]; split; try done.
    + by constructor.
    + intros N'. apply N. exact (proj2 (Forall_cons_1 _ _ _ N')).
  - rewrite key_eq_is_zero by done. right. split; [| done]. intros N. exact (proj1 (Forall_cons_1 _ _ _ N) Hw).
Qed.

Lemma chal_rounds_length hash c L R : length L = length R -> length (chal_rounds hash c L R) = length L.
Proof.
  revert c R. induction L as [| P L IH]; intros c [| Q R] E; try discriminate E; [done |]. cbn [chal_rounds length]. by rewrite IH by (by injection E).
Qed.

(** What the verifier keeps of a proof. *)
Definition pd_of (logM : nat) (d : dproof) : proof_data :=
  mk_pd (sbytes (chal_x hs d)) (sbytes (chal_y hs d)) (sbytes (chal_z hs d)) (sbytes (chal_x_ip hs d)) (map sbytes (chal_w hs d)) logM.

Lemma find_logM_ok n : (1 <= n <= maxM)%nat -> exists k, find_logM 6 0 n = Some k /\ (n <= 2 ^ k <= maxM)%nat.
Proof.
  unfold maxM. intros H. do 17 (destruct n as [| n]; [first [lia | eexists; split; [reflexivity | cbn; lia]] |]). lia.
Qed.

(** The sizes that the verifier demands. *)
Definition sized (d : dproof) (logM : nat) : Prop :=
  find_logM 6 0 (length (dV d)) = Some logM /\ length (dL d) = (6 + logM)%nat /\ length (dR d) = (6 + logM)%nat.

Lemma reduced_sbytes x : is_reduced (sbytes x) = true.
Proof. unfold is_reduced. by rewrite sc_check_sbytes. Qed.

Ltac reject := right; split; [| reflexivity].

Lemma read_proof_ok d logM : (1 <= length (dV d))%nat -> find_logM 6 0 (length (dV d)) = Some logM ->
  (sized d logM /\ good hs d) /\ read_proof (wire d) = Some (Some (pd_of logM d)) \/
  ~ (sized d logM /\ good hs d) /\ read_proof (wire d) = Some None.
Proof.
  intros HV HM. unfold read_proof. cbn [bp_taux bp_mu bp_a bp_b bp_t bp_V bp_L bp_R bp_A bp_S bp_T1 bp_T2 wire forallb]. rewrite !length_map, !reduced_sbytes.
  cbn [andb negb]. rewrite (proj2 (Nat.leb_le _ _)) by done. cbn [negb].
  destruct (Nat.eqb_spec (length (dL d)) (length (dR d))) as [E | E]; cbn [negb]; [| reject; intros [(_ & E1 & E2) _]; congruence].
  destruct (Nat.ltb_spec 0 (length (dL d))) as [L0 | L0]; cbn [negb]; [| reject; intros [(_ & E1 & _) _]; lia].
  rewrite hash_to_scalarV_ok by apply enc_keys. bind. rewrite mash_ok by (do 2 (constructor; [apply enc_bytes |]); constructor). bind.
  fold (chal_y hs d). destruct (zero_cases (chal_y hs d)) as [Hy | Hy];
    [rewrite key_eq_nonzero by done | rewrite key_eq_is_zero by done; reject; intros [_ G]; exact (proj1 (Forall_cons_1 _ _ _ G) Hy)].
  rewrite rct_hash_to_scalar_ok by apply sbytes_bytes. bind. fold (chal_z hs d). destruct (zero_cases (chal_z hs d)) as [Hz | Hz];
    [rewrite key_eq_nonzero by done | rewrite key_eq_is_zero by done; reject; intros [_ G]; exact (proj1 (Forall_cons_1 _ _ _ (proj2 (Forall_cons_1 _ _ _ G))) Hz)].
  rewrite mash_ok by (constructor; [apply sbytes_bytes |]; do 2 (constructor; [apply enc_bytes |]); constructor). bind.
  fold (chal_x hs d). destruct (zero_cases (chal_x hs d)) as [Hx | Hx];
    [rewrite key_eq_nonzero by done | rewrite key_eq_is_zero by done; reject; intros [_ G];
      exact (proj1 (Forall_cons_1 _ _ _ (proj2 (Forall_cons_1 _ _ _ (proj2 (Forall_cons_1 _ _ _ G))))) Hx)].
  rewrite mash_ok by (do 4 (constructor; [apply sbytes_bytes |]); constructor). bind.
  fold (chal_x_ip hs d). destruct (zero_cases (chal_x_ip hs d)) as [Hi | Hi];
    [rewrite key_eq_nonzero by done | rewrite key_eq_is_zero by done; reject; intros [_ G];
      exact (proj1 (Forall_cons_1 _ _ _ (proj2 (Forall_cons_1 _ _ _ (proj2 (Forall_cons_1 _ _ _ (proj2 (Forall_cons_1 _ _ _ G))))))) Hi)].
  rewrite HM. bind. destruct (Nat.eqb_spec (length (dL d)) (6 + logM)) as [E6 | E6]; cbn [negb]; [| reject; by intros [(_ & E1 & _) _]].
  destruct (round_challenges_ok (chal_x_ip hs d) (dL d) (dR d) E) as [[N ->] | [N ->]]; bind; [left | right]; (split; [| reflexivity]).
  - split; [split; [exact HM | split; [exact E6 | by rewrite <- E]] |]. unfold good, challenges. by do 4 (constructor; [done |]).
  - intros [_ G]. apply N. do 4 (apply Forall_cons_1 in G as [_ G]). exact G.
Qed.

(** ** Terms *)

Lemma order8 P : prime_order (smul 8 P).
Proof. unfold prime_order. rewrite <- smul_mul, Z.mul_comm. apply curve_exponent. Qed.

Lemma points8_ok Ps : exists l, points8 (map enc Ps) = ret l /\ Forall2 p3_rep l (map (smul 8) Ps).
Proof.
  induction Ps as [| P Ps (l & E & H)]; cbn [map points8]; [exists []; split; [done | constructor] |].
  destruct (scalarmult8_p3_ok P) as (p & -> & Hp). ebind. rewrite E. ebind. exists (p :: l). split; [done | by constructor].
Qed.

(** The points of a list with factors by their index. *)
Definition indexed (s : nat -> Z) (Ps : list point) : point := sumg (length Ps) (fun j => smul (s j) (smul 8 (nth j Ps gzero))).

Lemma weighted_ok w n f l Ps : Forall2 p3_rep l (map (smul 8) Ps) -> (length Ps <= n)%nat ->
  exists data t, weighted (sbytes w) (vec n f) l = Some data /\ Forall2 holds data t /\ msum t ≃ smul w (indexed f Ps).
Proof.
  revert n f l. induction Ps as [| P Ps IH]; intros n f l H Hn; cbn [map] in H.
  { apply Forall2_nil_inv_r in H as ->. exists [], []. do 2 (split; [constructor |]). symmetry. exact (smul_0 w). }
  apply Forall2_cons_inv_r in H as (p & l' & Hp & H & ->). destruct n as [| n]; [cbn [length] in Hn; lia |].
  rewrite vec_S. cbn [weighted head tail]. bind. rewrite mul_sbytes. bind.
  destruct (IH n (fun i => f (S i)) l' H ltac:(cbn [length] in Hn; lia)) as (data & t & -> & HD & E). bind.
  exists (mk_me (sbytes (f 0%nat * w)) p :: data), (((f 0%nat * w) mod ell, smul 8 P) :: t). split; [done |].
  split; [constructor; [by apply holds_term | done] |]. cbn [msum foldr fst snd]. fold (msum t). rewrite E, smul_mod by apply order8.
  unfold indexed. cbn [length]. rewrite sumg_first. cbn [nth]. glin.
Qed.

Lemma round_terms_ok wz ws l r L R : Forall2 p3_rep l (map (smul 8) L) -> Forall2 p3_rep r (map (smul 8) R) -> length ws = length L -> length ws = length R ->
  exists data t, round_terms (sbytes wz) (map sbytes ws) (map (fun w => sbytes (einv w)) ws) l r = Some data /\ Forall2 holds data t /\
    msum t ≃ smul wz (round_sum ws (map (smul 8) L) (map (smul 8) R)).
Proof.
  revert ws l r R. induction L as [| P L IH]; intros [| w ws] l r [| Q R] HL HR E1 E2; try discriminate; cbn [map] in HL, HR.
  { exists [], []. split; [by destruct l |]. split; [constructor |]. symmetry. exact (smul_0 wz). }
  apply Forall2_cons_inv_r in HL as (p & l' & Hp & HL & ->), HR as (q & r' & Hq & HR & ->). cbn [map round_terms round_sum].
  rewrite (mul_sbytes w w). bind. rewrite (mul_sbytes (w * w)). bind. rewrite (mul_sbytes (einv w) (einv w)). bind. rewrite (mul_sbytes (einv w * einv w)). bind.
  destruct (IH ws l' r' R HL HR ltac:(by injection E1) ltac:(by injection E2)) as (data & t & -> & HD & E). bind.
  eexists _, (((w * w * wz) mod ell, smul 8 P) :: ((einv w * einv w * wz) mod ell, smul 8 Q) :: t). split; [reflexivity |].
  split; [do 2 (constructor; [by apply holds_term |]); done |]. cbn [msum foldr fst snd]. fold (msum t). rewrite E, !smul_mod by apply order8. glin.
Qed.

Lemma subtract_powers_ok M f c k : subtract_powers M (vec M f) (sbytes c) (sbytes k) = Some (sbytes (k - c * zsum M f)).
Proof.
  revert f k. induction M as [| M IH]; intros f k; cbn [subtract_powers]; [do 2 f_equal; cbn [zsum]; ring |].
  rewrite vec_S. cbn [head tail]. bind. rewrite mulsub_sbytes. bind. rewrite IH, zsum_first. do 2 f_equal. ring.
Qed.

(** ** One proof *)

Section Proof_.
Context (G H : nat -> point) (maxMN : nat) (d : dproof) (logM : nat).
Context (Sd : sized d logM) (Gd : good hs d) (HV : (length (dV d) <= 2 ^ logM)%nat).
Local Abbreviation MN := (2 ^ logM * maxN)%nat.
Local Abbreviation y := (chal_y hs d).
Local Abbreviation z := (chal_z hs d).
Local Abbreviation x := (chal_x hs d).

Lemma line_61_ok wy my0 y1 : verify_line_61 (wire d) (pd_of logM d) (vec (2 ^ logM + 3) (fun i => z ^ Z.of_nat i)) (sbytes wy) (sbytes my0) (sbytes y1) =
  ret (sbytes (my0 - dtaux d * wy), sbytes (y1 + (dt d - delta hs d MN) * wy)).
Proof.
  unfold verify_line_61. cbn [bp_taux bp_t wire pd_y pd_z pd_logM pd_of]. rewrite mulsub_sbytes. ebind. rewrite vector_power_sum_ok. ebind.
  rewrite vec_lookup by lia. ebind. rewrite zero_sbytes, mulsub_sbytes. ebind. rewrite ip12_ok. ebind.
  rewrite vec_drop. replace (2 ^ logM + 3 - 3)%nat with (2 ^ logM)%nat by lia. rewrite subtract_powers_ok. ebind.
  rewrite muladd_sbytes. ebind. rewrite sub_sbytes. ebind. rewrite muladd_sbytes. ebind. apply (f_equal Some), (f_equal Some), (f_equal (pair _)), (f_equal sbytes).
  unfold delta. rewrite Nat.div_mul by done.
  rewrite (zsum_ext (2 ^ logM) (fun i => z ^ Z.of_nat (3 + i)) (fun j => z ^ (Z.of_nat j + 3))) by (intros i _; f_equal; lia).
  change (Z.of_nat 2) with 2. ring.
Qed.

(** The aggregates stand for a point: the sum that remains to be tested. *)
Definition stands_for (ag : aggregates) (P : point) : Prop := exists my0 y1 z1 z3 f4 f5 data t,
  ag = mk_agg (sbytes my0) (sbytes y1) (sbytes z1) (sbytes z3) (vec maxMN f4) (vec maxMN f5) data /\ Forall2 holds data t /\
  P ≃ pedersen (my0 - z1) (z3 - y1) ⊕ cross maxMN f4 f5 G H ⊕ msum t.

Lemma cross_update n f4 f5 g h w : (n <= maxMN)%nat ->
  cross maxMN (fun j => if (j <? n)%nat then f4 j - g j * w else f4 j) (fun j => if (j <? n)%nat then f5 j - h j * w else f5 j) G H ≃
  cross maxMN f4 f5 G H ⊕ gopp (smul w (cross n g h G H)).
Proof.
  intros Hn. unfold cross. rewrite <- (sumg_restrict n maxMN (fun i => smul (g i) (G i) ⊕ smul (h i) (H i)) Hn).
  assert (E : forall P, gopp P ≃ smul (-1) P) by (intros P; glin). rewrite E, <- !sumg_smul, <- sumg_add. apply sumg_ext. intros i _.
  destruct (i <? n)%nat; glin.
Qed.

Lemma sum_V : indexed (fun i => z ^ Z.of_nat (2 + i)) (dV d) ≃ sumg (length (dV d)) (fun j => smul (z ^ (Z.of_nat j + 2)) (smul 8 (nth j (dV d) gzero))).
Proof. unfold indexed. apply sumg_ext. intros j _. by replace (Z.of_nat (2 + j)) with (Z.of_nat j + 2) by lia. Qed.

(** The terms of the points of a proof. *)
Lemma proof_terms x' wy wz t1 t2 t3 : msum (t1 ++ t2 ++ [((x' * wy) mod ell, smul 8 (dT1 d)); ((x' * x' * wy) mod ell, smul 8 (dT2 d));
    (wz mod ell, smul 8 (dA d)); ((x' * wz) mod ell, smul 8 (dS d))] ++ t3) ≃
  msum t1 ⊕ msum t2 ⊕ smul wy (smul x' (smul 8 (dT1 d)) ⊕ smul (x' * x') (smul 8 (dT2 d))) ⊕ smul wz (smul 8 (dA d) ⊕ smul x' (smul 8 (dS d))) ⊕ msum t3.
Proof. rewrite !msum_app. cbn [msum foldr fst snd]. rewrite !smul_mod by apply order8. glin. Qed.

Lemma generators_ok f4 f5 wz : (MN <= maxMN)%nat -> length (chal_w hs d) = (logM + 6)%nat -> exists w_cache gs,
  challenge_products (map sbytes (chal_w hs d)) (map (fun w => sbytes (einv w)) (chal_w hs d)) = Some w_cache /\
  generator_loop (wire d) (pd_of logM d) (vec (2 ^ logM + 3) (fun i => z ^ Z.of_nat i)) (vec maxN (fun i => 2 ^ Z.of_nat i)) w_cache (sbytes wz) (sbytes (einv y))
    MN MN 0 (mk_gs (vec maxMN f4) (vec maxMN f5) identity identity) = Some gs /\
  gs_z4 gs = vec maxMN (fun j => if (j <? MN)%nat then f4 j - g_scalar hs d j * wz else f4 j) /\
  gs_z5 gs = vec maxMN (fun j => if (j <? MN)%nat then f5 j - h_scalar hs d j * wz else f5 j).
Proof.
  intros HM LW. assert (PM : MN = (2 ^ (logM + 6))%nat) by (rewrite Nat.pow_add_r; reflexivity).
  destruct (challenge_products_ok (chal_w hs d) ltac:(lia)) as (w_cache & E & Hc). rewrite LW in Hc.
  assert (H64 : (maxN <= MN)%nat) by (pose proof (Nat.pow_nonzero 2 logM); unfold maxN; lia).
  assert (HD : (MN / maxN + 3 <= 2 ^ logM + 3)%nat) by (rewrite Nat.div_mul by done; lia). rewrite PM in HM, H64, HD.
  destruct (generator_loop_ok d (logM + 6) maxMN w_cache wz (pd_of logM d) LW ltac:(lia) HM H64 Hc eq_refl eq_refl _ HD f4 f5 (2 ^ (logM + 6)) 0 eq_refl)
    as (yi & yp & EL). rewrite <- PM in EL. exists w_cache. eexists. split; [exact E |]. split; [exact EL |]. by split.
Qed.

Lemma verify_proof_ok ag P wy wz rs tape : stands_for ag P -> yields_scalars tape (wy :: wz :: rs) -> (MN <= maxMN)%nat ->
  exists ag' tape', verify_proof (wire d) (pd_of logM d) (map (fun w => sbytes (einv w)) (chal_w hs d)) (sbytes (einv y)) ag tape = ret (ag', tape') /\
    yields_scalars tape' rs /\ stands_for ag' (P ⊕ (smul wy (line_61 hs d MN) ⊕ smul wz (line_62 hs G H d MN))).
Proof.
  intros (my0 & y1 & z1 & z3 & f4 & f5 & data & t & -> & HD & HP) Ht HM. destruct Sd as (_ & L1 & L2).
  assert (PM : MN = (2 ^ (logM + 6))%nat) by (rewrite Nat.pow_add_r; reflexivity).
  assert (LW : length (chal_w hs d) = (logM + 6)%nat) by (unfold chal_w; rewrite chal_rounds_length; lia).
  unfold verify_proof. destruct (draw_next _ _ _ Ht) as (tape1 & -> & Ht1). ebind. destruct (draw_next _ _ _ Ht1) as (tape2 & -> & Ht2). ebind.
  cbn [wire bp_V bp_L bp_R bp_T1 bp_T2 bp_S bp_A bp_mu bp_a bp_b bp_t].
  destruct (points8_ok (dV d)) as (lV & -> & HlV). ebind. destruct (points8_ok (dL d)) as (lL & -> & HlL). ebind. destruct (points8_ok (dR d)) as (lR & -> & HlR). ebind.
  destruct (scalarmult8_p3_ok (dT1 d)) as (pT1 & -> & HT1). ebind. destruct (scalarmult8_p3_ok (dT2 d)) as (pT2 & -> & HT2). ebind.
  destruct (scalarmult8_p3_ok (dS d)) as (pS & -> & HS). ebind. destruct (scalarmult8_p3_ok (dA d)) as (pA & -> & HA). ebind.
  cbn [pd_z pd_x pd_w pd_x_ip pd_logM pd_of v_m_y0 v_y1 v_z1 v_z3 v_m_z4 v_m_z5 v_data]. rewrite vector_powers_ok. ebind.
  change (mk_bp _ _ _ _ _ _ _ _ _ _ _ _) with (wire d). change (mk_pd _ _ _ _ _ logM) with (pd_of logM d).
  rewrite line_61_ok. ebind. rewrite vec_drop.
  destruct (weighted_ok wy (2 ^ logM + 3 - 2) (fun i => z ^ Z.of_nat (2 + i)) lV (dV d) HlV ltac:(lia)) as (data_V & tV & -> & HDV & EV). ebind.
  rewrite (mul_sbytes x wy). ebind. rewrite (mul_sbytes x x). ebind. rewrite (mul_sbytes (x * x) wy). ebind. rewrite (mul_sbytes x wz). ebind.
  destruct (generators_ok f4 f5 wz HM LW) as (w_cache & gs & -> & EG & G4 & G5). ebind. rewrite twoN_ok. ebind. rewrite EG. ebind.
  rewrite muladd_sbytes. ebind.
  destruct (round_terms_ok wz (chal_w hs d) lL lR (dL d) (dR d) HlL HlR ltac:(lia) ltac:(lia)) as (data_LR & tLR & -> & HDL & EL). ebind.
  rewrite mulsub_sbytes. ebind. rewrite mul_sbytes. ebind. rewrite muladd_sbytes. ebind. eexists _, tape2. split; [reflexivity |]. split; [exact Ht2 |].
  eexists _, _, _, _, _, _, _, _. rewrite G4, G5. split; [reflexivity |]. split.
  - apply Forall2_app; [exact HD |]. apply Forall2_app; [exact HDV |]. apply Forall2_app; [| exact HDL].
    repeat (constructor; [by apply holds_term |]). constructor.
  - rewrite proof_terms, cross_update, EV, EL, HP, sum_V by done. unfold line_61, line_62, pedersen. glin.
Qed.
End Proof_.

(** ** A batch *)

Definition logM_of (d : dproof) : nat := default 0%nat (find_logM 6 0 (length (dV d))).

(** The proof has the sizes of its number of commitments, and no challenge is zero. *)
Definition valid (d : dproof) : Prop := sized d (logM_of d) /\ good hs d.

Definition committed (d : dproof) : Prop := (1 <= length (dV d) <= maxM)%nat.

Lemma committed_logM d : committed d -> find_logM 6 0 (length (dV d)) = Some (logM_of d) /\ (length (dV d) <= 2 ^ logM_of d <= maxM)%nat.
Proof. intros Hd. destruct (find_logM_ok _ Hd) as (k & E & B). unfold logM_of. by rewrite E. Qed.

Section Batch.
Context (G H : nat -> point).

(** The equations of all proofs, weighted. *)
Fixpoint batch (ds : list dproof) (rs : list Z) : point :=
  match ds, rs with
  | d :: ds, wy :: wz :: rs =>
      (smul wy (line_61 hs d (2 ^ logM_of d * maxN)) ⊕ smul wz (line_62 hs G H d (2 ^ logM_of d * maxN))) ⊕ batch ds rs
  | _, _ => gzero
  end.

Definition data_of (d : dproof) : proof_data := pd_of (logM_of d) d.

Lemma read_proofs_ok ds : Forall committed ds ->
  Forall valid ds /\ read_proofs (map wire ds) = Some (Some (map data_of ds)) \/ ~ Forall valid ds /\ read_proofs (map wire ds) = Some None.
Proof.
  intros Hc. induction Hc as [| d ds Hd _ IH]; cbn [map read_proofs]; [by left |]. destruct (committed_logM d Hd) as [HM _].
  destruct (read_proof_ok d _ (proj1 Hd) HM) as [[V ->] | [V ->]]; bind.
  - destruct IH as [[F ->] | [F ->]]; bind; [left | right]; (split; [| reflexivity]); [by constructor |]. intros F'. exact (F (proj2 (Forall_cons_1 _ _ _ F'))).
  - right. split; [| reflexivity]. intros F'. exact (V (proj1 (Forall_cons_1 _ _ _ F'))).
Qed.

Definition to_invert (ds : list dproof) : list Z := concat (map (fun d => chal_w hs d ++ [chal_y hs d]) ds).

Lemma to_invert_nonzero ds : Forall valid ds -> nonzero (to_invert ds).
Proof.
  intros F. unfold to_invert. apply Forall_concat, Forall_map. refine (list.Forall_impl _ _ _ F _). intros d [_ Gd]. unfold good, challenges in Gd.
  apply Forall_cons_1 in Gd as [Gy Gd]. do 3 (apply Forall_cons_1 in Gd as [_ Gd]). apply Forall_app_2; [exact Gd | by constructor].
Qed.

Lemma verify_proofs_ok maxMN ds rs ag P tape : Forall committed ds -> Forall valid ds -> Forall (fun d => (2 ^ logM_of d * maxN <= maxMN)%nat) ds ->
  stands_for G H maxMN ag P -> yields_scalars tape rs -> (2 * length ds <= length rs)%nat ->
  exists ag' tape', verify_proofs (map wire ds) (map data_of ds) (map (fun x => sbytes (einv x)) (to_invert ds)) ag tape = ret (ag', tape') /\
    stands_for G H maxMN ag' (P ⊕ batch ds rs).
Proof.
  intros Hc. revert rs ag P tape. induction Hc as [| d ds Hd _ IH]; intros rs ag P tape Hv HM Hag Ht Hl.
  { exists ag, tape. split; [done |]. destruct Hag as (my0 & y1 & z1 & z3 & f4 & f5 & data & t & E1 & E2 & E3). exists my0, y1, z1, z3, f4, f5, data, t.
    split; [done |]. split; [done |]. cbn [batch]. by rewrite gadd_0_r. }
  destruct rs as [| wy [| wz rs]]; [cbn [length] in Hl; lia | cbn [length] in Hl; lia |].
  apply Forall_cons_1 in Hv as [[Sd Gd] Hv]. apply Forall_cons_1 in HM as [HMd HM]. destruct (committed_logM d Hd) as [_ [HV _]].
  pose proof Sd as (_ & L1 & L2). assert (LW : length (chal_w hs d) = (logM_of d + 6)%nat) by (unfold chal_w; rewrite chal_rounds_length; lia).
  assert (EI : map (fun x => sbytes (einv x)) (to_invert (d :: ds)) = map (fun x => sbytes (einv x)) (chal_w hs d) ++ sbytes (einv (chal_y hs d)) ::
    map (fun x => sbytes (einv x)) (to_invert ds)) by (unfold to_invert; cbn [map concat]; by rewrite !map_app, <- app_assoc).
  cbn [map verify_proofs]. change (pd_logM (data_of d)) with (logM_of d). rewrite EI.
  rewrite list_lookup_middle by (rewrite length_map; lia). ebind. rewrite take_app_length' by (rewrite length_map; lia).
  destruct (verify_proof_ok G H maxMN d (logM_of d) Sd HV ag P wy wz rs tape Hag Ht HMd) as (ag1 & tape1 & E & Ht1 & Hag1).
  change (data_of d) with (pd_of (logM_of d) d). rewrite E. ebind.
  replace (drop (logM_of d + 6 + 1) _) with (map (fun x => sbytes (einv x)) (to_invert ds)).
  2: { rewrite <- drop_drop, drop_app_length' by (rewrite length_map; lia). reflexivity. }
  destruct (IH rs ag1 _ tape1 Hv HM Hag1 Ht1 ltac:(cbn [length] in Hl; lia)) as (ag2 & tape2 & E2 & Hag2). exists ag2, tape2. split; [exact E2 |].
  destruct Hag2 as (my0 & y1 & z1 & z3 & f4 & f5 & data & t & E3 & E4 & E5). exists my0, y1, z1, z3, f4, f5, data, t.
  split; [done |]. split; [done |]. rewrite <- E5. cbn [batch]. glin.
Qed.

Lemma max_length_ok ds m : let r := foldl (fun m p => Nat.max m (length (bp_L p))) m (map wire ds) in
  (m <= r)%nat /\ Forall (fun d => (length (dL d) <= r)%nat) ds /\ ((m <= 10)%nat -> Forall (fun d => (length (dL d) <= 10)%nat) ds -> (r <= 10)%nat).
Proof.
  revert m. induction ds as [| d ds IH]; intros m; cbn [map foldl]; [cbv zeta; split; [lia |]; split; [constructor | lia] |].
  cbn [wire bp_L]. rewrite length_map. destruct (IH (Nat.max m (length (dL d)))) as (H1 & H2 & H3). cbv zeta in *. split; [lia |]. split; [constructor; [lia | done] |].
  intros Hm F. apply Forall_cons_1 in F as [Fd F]. apply H3; [lia | done].
Qed.

Lemma valid_lengths ds : Forall committed ds -> Forall valid ds -> Forall (fun d => (length (dL d) <= 10)%nat) ds.
Proof.
  intros Hc Hv. apply list.Forall_forall. intros d Hin. destruct (proj1 (list.Forall_forall _ _) Hv d Hin) as [(_ & L & _) _].
  destruct (committed_logM d (proj1 (list.Forall_forall _ _) Hc d Hin)) as [_ [_ B]]. rewrite L.
  assert (logM_of d < 5)%nat; [| lia]. apply (Nat.pow_lt_mono_r_iff 2); [lia |]. change (2 ^ 5)%nat with 32%nat. unfold maxM in B. lia.
Qed.

Lemma stands_for_start n : stands_for G H n (mk_agg zero zero zero zero (replicate n zero) (replicate n zero) []) gzero.
Proof.
  assert (Z : replicate n zero = vec n (fun _ => 0)).
  { rewrite zero_sbytes. apply list_eq. intros i. destruct (Nat.lt_ge_cases i n) as [Hi | Hi].
    - by rewrite vec_lookup, lookup_replicate_2 by done.
    - rewrite !(proj2 (lookup_ge_None _ _)); [done | by rewrite vec_length | by rewrite length_replicate]. }
  rewrite Z, zero_sbytes. exists 0, 0, 0, 0, (fun _ => 0), (fun _ => 0), [], []. split; [done |]. split; [constructor |].
  unfold cross. rewrite sumg_zero by (intros i _; glin). unfold pedersen. cbn [msum foldr]. glin.
Qed.

Lemma block_sizes ds ml : Forall valid ds -> Forall (fun d => (length (dL d) <= ml)%nat) ds -> Forall (fun d => (2 ^ logM_of d * maxN <= 2 ^ ml)%nat) ds.
Proof.
  intros Hv Hl. apply list.Forall_forall. intros d Hin. destruct (proj1 (list.Forall_forall _ _) Hv d Hin) as [(_ & L & _) _].
  pose proof (proj1 (list.Forall_forall _ _) Hl d Hin) as B. cbv beta in B. replace (2 ^ logM_of d * maxN)%nat with (2 ^ (logM_of d + 6))%nat by (by rewrite Nat.pow_add_r).
  apply Nat.pow_le_mono_r; lia.
Qed.

(** The verifier accepts exactly when the proofs have the right sizes, their challenges are
    not zero and the weighted sum of their equations is the identity. *)
Lemma VERIFY_ok st e ds rs tape : initialised e G H -> init_exponents st = ret e -> Forall committed ds -> yields_scalars tape rs ->
  (2 * length ds <= length rs)%nat ->
  exists b tape', bulletproof_VERIFY st (map wire ds) tape = ret (b, e, tape') /\ (b = true <-> Forall valid ds /\ batch ds rs ≃ gzero).
Proof.
  intros He Ei Hc Ht Hl. unfold bulletproof_VERIFY. rewrite Ei. ebind.
  destruct (read_proofs_ok ds Hc) as [[Hv ->] | [Hv ->]]; ebind; [| exists false, tape; split; [done |]; split; [discriminate | by intros [F _]]].
  destruct (max_length_ok ds 0) as (_ & M1 & M2). set (ml := foldl _ _ _) in *. specialize (M2 ltac:(lia) (valid_lengths _ Hc Hv)).
  rewrite (proj2 (Nat.ltb_lt _ _)) by lia. cbn [negb].
  assert (P10 : (0 < 2 ^ ml <= maxN * maxM)%nat).
  { pose proof (Nat.pow_le_mono_r 2 ml 10 ltac:(lia) M2). pose proof (Nat.pow_nonzero 2 ml ltac:(lia)). change (2 ^ 10)%nat with (maxN * maxM)%nat in *. lia. }
  assert (Ev : concat (map (fun pd => pd_w pd ++ [pd_y pd]) (map data_of ds)) = map sbytes (to_invert ds)).
  { unfold to_invert. rewrite concat_map, !map_map. f_equal. apply map_ext. intros d. cbn [data_of pd_of pd_w pd_y]. by rewrite map_app. }
  rewrite Ev, invertV_ok by (by apply to_invert_nonzero). ebind.
  assert (Hs : stands_for G H (2 ^ ml) (mk_agg zero zero zero zero (replicate (2 ^ ml) zero) (replicate (2 ^ ml) zero) []) gzero) by apply stands_for_start.
  destruct (verify_proofs_ok (2 ^ ml) ds rs _ _ tape Hc Hv (block_sizes ds ml Hv M1) Hs Ht Hl) as (ag & tape1 & -> & Hag). ebind.
  destruct Hag as (my0 & y1 & z1 & z3 & f4 & f5 & data & t & -> & HD & EP). cbn [v_m_y0 v_y1 v_z1 v_z3 v_m_z4 v_m_z5 v_data].
  rewrite sub_sbytes. ebind. unfold MultiexpData_key at 1. rewrite key_G_enc. decode base_point as hG HG. ebind.
  rewrite sub_sbytes. ebind. unfold MultiexpData_key. rewrite key_H_enc. decode H_point as hH HH. ebind.
  unfold in_range. rewrite (proj1 (init_G _ _ _ He)), (proj1 (init_H _ _ _ He)), (proj2 (Nat.leb_le _ _)) by lia. do 2 ebind.
  rewrite (multiexp_generators_ok e G H He (2 ^ ml) f4 f5 _ _ P10
    (Forall2_app HD (Forall2_cons _ _ (holds_term (my0 - z1) _ _ HG) (Forall2_cons _ _ (holds_term (z3 - y1) _ _ HH) (Forall2_nil _))))). ebind.
  eexists _, tape1. split; [reflexivity |]. rewrite identity_enc, key_eq_enc. change pzero with (gzero : point).
  assert (E : cross (2 ^ ml) f4 f5 G H ⊕ msum (t ++ [((my0 - z1) mod ell, base_point); ((z3 - y1) mod ell, H_point)]) ≃ batch ds rs).
  { rewrite gadd_0_l in EP. rewrite EP, msum_app. cbn [msum foldr fst snd]. rewrite (smul_mod _ base_point base_prime), (smul_mod _ H_point H_prime).
    unfold pedersen. glin. }
  unfold cross in E. rewrite E. split; [by split | by intros [_ HB]].
Qed.
End Batch.
End BulletproofVerify.
