(* ===== verification/BulletproofProve.v ===== *)
(** The prover of src/ringct/bulletproofs.cc refines the one of the protocol: it returns the
    proof that the protocol makes from the same random scalars, and starts again exactly when
    a challenge is zero. *)
From S2P Require Import Prelude Limbs Pack Scalar ScalarCorrect Group GroupSolve GroupSum Fe Curve Ge GeCorrect GeEncode GeMult GeMultCorrect.
From S2P Require Import GeTables GeScalarmult GeFromFe GeTheorems CurveOrder Keccak KeccakCorrect Varint Encoding Crypto CryptoCorrect.
From S2P Require Import RctData RctTables Exc RctOps RctOpsCorrect Multiexp MultiexpCorrect Bulletproofs BulletproofScalars BulletproofPoints BulletproofSpec.
From S2P Require Import BulletproofComplete BulletproofVerify.

Local Open Scope Z_scope.

Module BulletproofProve.
Import Limbs Pack Scalar ScalarCorrect Group GroupSolve GroupSum Fe Curve Ge GeCorrect GeEncode GeMult GeMultCorrect.
Import GeTables GeScalarmult GeFromFe GeTheorems Finite CurveOrder Keccak KeccakCorrect Varint Encoding Crypto CryptoCorrect.
Import RctData RctTables Exc RctOps RctOpsCorrect Multiexp MultiexpCorrect Bulletproofs BulletproofScalars BulletproofPoints BulletproofSpec.
Import BulletproofComplete BulletproofVerify.
Local Open Scope group_scope.
#[local] Opaque hs.

(** ** The rounds *)

Lemma cross_ext n a b P Q P' Q' : (forall i, (i < n)%nat -> P i ≃ P' i) -> (forall i, (i < n)%nat -> Q i ≃ Q' i) -> cross n a b P Q ≃ cross n a b P' Q'.
Proof. intros HP HQ. unfold cross. apply sumg_ext. intros i Hi. by rewrite HP, HQ. Qed.

Definition argument_bytes (r : argument) : keyV * keyV * key * key := (map enc (ar_L r), map enc (ar_R r), sbytes (ar_a r), sbytes (ar_b r)).

(** The lists of points and the scale before a round with [2^k] entries. *)
Definition round_points (k : nat) (gl hl : list ge_p3) (scale : option keyV) (G H : nat -> point) : Prop :=
  exists H0 s, pts (2 ^ k) gl G /\ pts (2 ^ k) hl H0 /\ primes (2 ^ k) G /\ primes (2 ^ k) H0 /\ scaled (2 ^ k) scale s /\
    (forall i, (i < 2 ^ k)%nat -> s i mod ell <> 0) /\ (forall i, (i < 2 ^ k)%nat -> H i ≃ smul (s i) (H0 i)).

Section Round.
Context (e : exponents) (k : nat) (gl hl : list ge_p3) (scale : option keyV) (G H : nat -> point).
Context (Hk : (2 ^ S k <= maxN * maxM)%nat) (HP : round_points (S k) gl hl scale G H).
Let n := (2 ^ k)%nat.

Lemma round_L a b t : cross_vector_exponent8 e n gl n hl 0 (vec (2 ^ S k) a) 0 (vec (2 ^ S k) b) n scale (Some ge_p3_H) (Some (sbytes t)) =
  ret (enc (smul inv8 (cross n a (fun i => b (n + i)%nat) (fun i => G (n + i)%nat) H ⊕ smul t H_point))).
Proof.
  destruct HP as (H0 & s & H1 & H2 & H3 & H4 & H5 & _ & H7). change (2 ^ S k)%nat with (2 * n)%nat in *.
  rewrite (cross_exponent_ok e n gl hl G H0 scale s ltac:(lia) H1 H2 H5 H3 H4) by lia. do 2 apply f_equal. apply enc_eq, smul_proper, gadd_proper; [| done].
  apply cross_ext; [done |]. intros i Hi. symmetry. apply H7. lia.
Qed.

Lemma round_R a b t : cross_vector_exponent8 e n gl 0 hl n (vec (2 ^ S k) a) n (vec (2 ^ S k) b) 0 scale (Some ge_p3_H) (Some (sbytes t)) =
  ret (enc (smul inv8 (cross n (fun i => a (n + i)%nat) b G (fun i => H (n + i)%nat) ⊕ smul t H_point))).
Proof.
  destruct HP as (H0 & s & H1 & H2 & H3 & H4 & H5 & _ & H7). change (2 ^ S k)%nat with (2 * n)%nat in *.
  rewrite (cross_exponent_ok e n gl hl G H0 scale s ltac:(lia) H1 H2 H5 H3 H4) by lia. do 2 apply f_equal. apply enc_eq, smul_proper, gadd_proper; [| done].
  apply cross_ext; [done |]. intros i Hi. symmetry. apply H7. lia.
Qed.

Lemma round_fold w : w mod ell <> 0 -> exists gl' hl',
  hadamard_fold gl None (sbytes (einv w)) (sbytes w) = ret gl' /\ hadamard_fold hl scale (sbytes w) (sbytes (einv w)) = ret hl' /\
  round_points k gl' hl' None (folded n (einv w) w G) (folded n w (einv w) H).
Proof.
  intros Hw. destruct HP as (H0 & s & H1 & H2 & H3 & H4 & H5 & H6 & H7). change (2 ^ S k)%nat with (2 * n)%nat in *.
  assert (Hi : einv w mod ell <> 0).
  { intros E. pose proof (einv_ok w Hw) as O. apply mod_ell in O. rewrite <- Z.mul_mod_idemp_r, E, Z.mul_0_r in O by done. discriminate O. }
  destruct (hadamard_fold_ok n gl G None (fun _ => 1) (einv w) w H1 H3 (fun _ => eq_refl)) as (gl' & E1 & P1); [intros i _; by rewrite Z.mul_1_r |].
  destruct (hadamard_fold_ok n hl H0 scale s w (einv w) H2 H4 H5) as (hl' & E2 & P2); [intros i Hn; apply ell_nonzero; [done | apply H6; lia] |].
  assert (PH : primes (2 * n) H) by (intros i Hn; unfold prime_order; rewrite (H7 i Hn); apply smul_prime, H4, Hn).
  exists gl', hl'. split; [done |]. split; [done |]. exists (folded n w (einv w) H), (fun _ => 1). split; [| split; [| split; [| split; [| split; [| split]]]]].
  - eapply pts_ext; [exact P1 |]. intros i _. unfold folded. by rewrite !smul_1.
  - eapply pts_ext; [exact P2 |]. intros i Hn. unfold folded. rewrite <- !H7 by lia. done.
  - by apply order_folded.
  - by apply order_folded.
  - intros i. reflexivity.
  - intros i _. done.
  - intros i _. by rewrite smul_1.
Qed.
End Round.

Lemma inner_rounds_step fuel e x_ip gl hl a b scale c nprime : (2 <= nprime)%nat ->
  inner_rounds (S fuel) e x_ip gl hl a b scale c nprime =
      let nprime := (nprime / 2)%nat in
      a0 <~ slice a 0 nprime; b1 <~ slice b nprime (length b);
      cL <~ inner_product a0 b1;
      a1 <~ slice a nprime (length a); b0 <~ slice b 0 nprime;
      cR <~ inner_product a1 b0;
      tmp <~ call (sc_mul cL x_ip);
      L <~ cross_vector_exponent8 e nprime gl nprime hl 0 a 0 b nprime scale (Some ge_p3_H) (Some tmp);
      tmp <~ call (sc_mul cR x_ip);
      R <~ cross_vector_exponent8 e nprime gl 0 hl nprime a nprime b 0 scale (Some ge_p3_H) (Some tmp);
      w <~ call (hash_cache_mash c [L; R]);
      if key_eq w zero then ret None else
      winv <~ call (invert w);
      '(gl, hl) <~ (if (1 <? nprime)%nat then
          gl <~ hadamard_fold gl None winv w;
          hl <~ hadamard_fold hl scale w winv;
          ret (gl, hl)
        else ret (gl, hl));
      wa <~ call (vector_scalar a0 w); wa' <~ call (vector_scalar a1 winv);
      a <~ vector_add wa wa';
      wb <~ call (vector_scalar b0 winv); wb' <~ call (vector_scalar b1 w);
      b <~ vector_add wb wb';
      rest <~ inner_rounds fuel e x_ip gl hl a b None w nprime;
      ret (match rest with Some (Ls, Rs, a, b) => Some (L :: Ls, R :: Rs, a, b) | None => None end).
Proof. intros Hn. cbn [inner_rounds]. by rewrite (proj2 (Nat.leb_gt _ _)) by lia. Qed.

Lemma unless_zero_true {A} w (m : option A) : w mod ell = 0 -> unless_zero w m = None.
Proof. intros E. unfold unless_zero. by rewrite (proj2 (Z.eqb_eq _ _)). Qed.

Lemma unless_zero_false {A} w (m : option A) : w mod ell <> 0 -> unless_zero w m = m.
Proof. intros E. unfold unless_zero. by rewrite (proj2 (Z.eqb_neq _ _)). Qed.

Lemma inner_rounds_ok k fuel e x_ip gl hl scale G H a b c : (k <= fuel)%nat -> (2 ^ k <= maxN * maxM)%nat ->
  ((0 < k)%nat -> round_points k gl hl scale G H) ->
  inner_rounds fuel e (sbytes x_ip) gl hl (vec (2 ^ k) a) (vec (2 ^ k) b) scale (sbytes c) (2 ^ k) =
  ret (option_map argument_bytes (argue hs k x_ip G H a b c)).
Proof.
  revert fuel gl hl scale G H a b c. induction k as [| k IH]; intros fuel gl hl scale G H a b c Hf Hk HP.
  { by destruct fuel. }
  destruct fuel as [| fuel]; [lia |]. specialize (HP ltac:(lia)). set (n := (2 ^ k)%nat).
  assert (P : (2 ^ S k)%nat = (2 * n)%nat) by done. assert (N0 : (0 < n)%nat) by (pose proof (Nat.pow_nonzero 2 k); lia).
  rewrite inner_rounds_step by lia. cbv zeta. replace (2 ^ S k / 2)%nat with n by (rewrite P, Nat.mul_comm, Nat.div_mul by done; done).
  rewrite !vec_length. rewrite (slice_ok _ a 0 n), (slice_ok _ b n) by lia. do 2 ebind. replace (2 ^ S k - n)%nat with n by lia. rewrite Nat.sub_0_r.
  rewrite inner_product_ok. ebind. rewrite (slice_ok _ a n), (slice_ok _ b 0 n) by lia. do 2 ebind. replace (2 ^ S k - n)%nat with n by lia. rewrite Nat.sub_0_r.
  rewrite inner_product_ok. ebind. rewrite mul_sbytes. ebind. rewrite (round_L e k gl hl scale G H Hk HP). ebind.
  rewrite mul_sbytes. ebind. rewrite (round_R e k gl hl scale G H Hk HP). ebind. cbn [Nat.add]. fold n.
  rewrite argue_step. cbv zeta. fold n.
  set (L := smul inv8 (cross n a _ _ H ⊕ _)). set (R := smul inv8 (cross n _ b G _ ⊕ _)).
  rewrite mash_ok by (do 2 (constructor; [apply enc_bytes |]); constructor). ebind. set (w := mash hs c [enc L; enc R]).
  destruct (zero_cases w) as [Hw | Hw]; [rewrite key_eq_nonzero, unless_zero_false by done | by rewrite key_eq_is_zero, unless_zero_true by done].
  rewrite invert_ok. ebind. destruct (round_fold k gl hl scale G H Hk HP w Hw) as (gl' & hl' & E1 & E2 & HP').
  assert (F : exists gl2 hl2, (if (1 <? n)%nat then gl <~ hadamard_fold gl None (sbytes (einv w)) (sbytes w); hl <~ hadamard_fold hl scale (sbytes w) (sbytes (einv w));
    ret (gl, hl) else ret (gl, hl)) = ret (gl2, hl2) /\ ((0 < k)%nat -> round_points k gl2 hl2 None (folded n (einv w) w G) (folded n w (einv w) H))).
  { destruct (Nat.ltb_spec 1 n) as [Hn | Hn].
    - rewrite E1, ebind_ret, E2, ebind_ret. exists gl', hl'. by split.
    - exists gl, hl. split; [done |]. intros K. pose proof (Nat.pow_gt_1 2 k ltac:(lia) ltac:(lia)). lia. }
  destruct F as (gl2 & hl2 & -> & HP2). ebind. rewrite (vector_scalar_ok n (fun i => a i) w). ebind. rewrite (vector_scalar_ok n (fun i => a (n + i)%nat)). ebind.
  rewrite vector_add_ok. ebind. rewrite (vector_scalar_ok n (fun i => b i) (einv w)). ebind. rewrite (vector_scalar_ok n (fun i => b (n + i)%nat)). ebind.
  rewrite vector_add_ok. ebind. unfold n at 1 2 3. rewrite (IH fuel gl2 hl2 None (folded n (einv w) w G) (folded n w (einv w) H)) by (lia || exact HP2). ebind.
  by destruct (argue hs k _ _ _ _ _ _) as [r |].
Qed.

(** ** Random vectors *)

Lemma vec_map l : map sbytes l = vec (length l) (fun i => nth i l 0).
Proof. induction l as [| x l IH]; [done |]. cbn [map length]. rewrite vec_S. cbn [nth]. by rewrite IH. Qed.

Lemma skv_loop_drawn n tape rs rest : yields_scalars tape (rs ++ rest) -> length rs = n ->
  exists tape', skv_loop n tape = Some (map sbytes rs, tape') /\ yields_scalars tape' rest.
Proof.
  revert tape rs. induction n as [| n IH]; intros tape [| r rs] Ht L; try discriminate L; cbn [skv_loop map]; [by exists tape |].
  destruct (draw_next _ _ _ Ht) as (t1 & E & Ht1). unfold call in E. destruct (skGen tape) as [[k1 t2] |]; [| discriminate E]. apply (inj Some), (inj Some) in E.
  injection E as -> ->. bind. destruct (IH t1 rs Ht1 ltac:(by injection L)) as (t3 & -> & Ht3). bind. by exists t3.
Qed.

Lemma skvGen_ok n tape rs rest : yields_scalars tape (rs ++ rest) -> length rs = n -> (0 < n)%nat ->
  exists tape', skvGen n tape = ret (vec n (fun i => nth i rs 0), tape') /\ yields_scalars tape' rest.
Proof.
  intros Ht L Hn. unfold skvGen. rewrite (proj2 (Nat.ltb_lt _ _)), check_true by lia. ebind.
  destruct (skv_loop_drawn n tape rs rest Ht L) as (t & -> & Ht'). exists t. by rewrite call_Some, vec_map, L.
Qed.

(** ** Commitments and bits *)

Lemma commit8_ok a g : commit8 (sbytes a) (sbytes g) = ret (enc (smul inv8 (pedersen g a))).
Proof.
  unfold commit8. rewrite !inv8_sbytes, !mul_sbytes. do 2 ebind. rewrite key_H_enc, addKeys2_ok by apply sbytes_ok. do 2 apply f_equal. apply enc_eq.
  rewrite !sbytes_val, (smul_mod _ base_point base_prime), (smul_mod _ H_point H_prime). unfold pedersen. glin.
Qed.

Lemma commitments_ok vs gs : length vs = length gs -> commitments (map sbytes vs) (map sbytes gs) =
  ret (map enc (p_V (length vs) (fun j => nth j vs 0) (fun j => nth j gs 0))).
Proof.
  revert gs. induction vs as [| a vs IH]; intros [| g gs] L; try discriminate L; [done |]. cbn [map commitments length]. rewrite commit8_ok. ebind.
  rewrite IH by (by injection L). ebind. unfold p_V. cbn [seq map nth]. by rewrite <- seq_shift, !map_map.
Qed.

Lemma value_bit_ok vs n : Forall (fun a => 0 <= a < 2 ^ 64) vs ->
  value_bit (map sbytes vs) n = Z.testbit (nth (n / maxN) vs 0) (Z.of_nat (n mod maxN)).
Proof.
  intros Hv. unfold value_bit. rewrite list_lookup_fmap. destruct (vs !! (n / maxN)%nat) as [a |] eqn:E; cbn [fmap option_fmap option_map].
  - pose proof (proj1 (Forall_lookup _ _) Hv _ _ E) as B. cbv beta in B. rewrite (nth_lookup_Some _ _ _ _ E).
    pose proof (test_ok (sbytes a) (n mod maxN) (sbytes_bytes a)) as T. unfold test in T.
    pose proof (Nat.mod_upper_bound n maxN ltac:(done)) as M. unfold maxN in M at 2. rewrite (proj2 (Nat.leb_gt _ _)) in T by lia. rewrite T, negb_involutive, sbytes_val.
    rewrite Z.mod_small; [done |]. split; [lia |]. eapply Z.lt_trans; [apply B | reflexivity].
  - rewrite nth_overflow by (by apply lookup_ge_None). by rewrite Z.testbit_0_l.
Qed.

Lemma bit_keys_ok vs MN x1 x0 : Forall (fun a => 0 <= a < 2 ^ 64) vs ->
  bit_keys (map sbytes vs) MN (sbytes x1) (sbytes x0) = vec MN (fun i => x0 + (x1 - x0) * amount_bit (fun j => nth j vs 0) i).
Proof.
  intros Hv. unfold bit_keys, vec. apply map_ext. intros i. rewrite value_bit_ok by done. unfold amount_bit. destruct (Z.testbit _ _); f_equal; cbn [Z.b2z]; ring.
Qed.

(** ** The steps of one attempt *)

Lemma cross_scale n c a b a' b' P Q : (forall i, (i < n)%nat -> a' i = c * a i) -> (forall i, (i < n)%nat -> b' i = c * b i) ->
  cross n a' b' P Q ≃ smul c (cross n a b P Q).
Proof.
  intros Ha Hb. unfold cross. rewrite <- sumg_smul. apply sumg_ext. intros i Hi. rewrite Ha, Hb by done. glin.
Qed.

Lemma drawn_range tape r rs : yields_scalars tape (r :: rs) -> 0 < r < ell.
Proof. intros [_ E]. pose proof (scalars_range tape) as B. rewrite E in B. exact (proj1 (Forall_cons_1 _ _ _ B)). Qed.

Lemma commit_coefficient_ok p3 t tau : 0 < tau < ell ->
  exists p3', commit_coefficient p3 (sbytes t) (sbytes tau) = Some (p3', enc (smul inv8 (pedersen tau t))).
Proof.
  intros Ht. unfold commit_coefficient. rewrite inv8_sbytes, !mul_sbytes. do 2 bind.
  assert (Hb : (tau * inv8) mod ell <> 0).
  { apply ell_nonzero; [rewrite Z.mod_small; lia |]. intros E. pose proof inv8_ok as O. apply mod_ell in O. rewrite <- Z.mul_mod_idemp_r, E in O by done. discriminate O. }
  destruct (ge_double_base_p3_ok (sbytes (t * inv8)) (sbytes (tau * inv8)) ltac:(apply sbytes_ok) ltac:(apply sbytes_ok) H_point ge_p3_H p3 H_rep) as (q & -> & Hq);
    [right; by rewrite sbytes_val |]. bind. rewrite (to_enc3 _ _ Hq). bind. exists q. apply (f_equal Some), (f_equal (pair q)), enc_eq.
  rewrite !sbytes_val, (smul_mod _ base_point base_prime), (smul_mod _ H_point H_prime). unfold pedersen. glin.
Qed.

Lemma mask_sum_ok n f gs taux : (length gs <= n)%nat -> mask_sum (vec n f) (map sbytes gs) (sbytes taux) =
  ret (sbytes (taux + zsum (length gs) (fun j => f j * nth j gs 0))).
Proof.
  revert n f taux. induction gs as [| g gs IH]; intros [| n] f taux L; cbn [length] in L; try lia; [cbn [zsum length]; by rewrite Z.add_0_r .. |].
  rewrite vec_S. cbn [map mask_sum length]. rewrite muladd_sbytes. ebind. rewrite IH by lia. rewrite zsum_first. cbn [nth]. by rewrite Z.add_assoc.
Qed.

Lemma scaled_twos_ok z m MN : (MN <= m * maxN)%nat -> scaled_twos (vec (m + 2) (fun i => z ^ Z.of_nat i)) MN = ret (vec MN (z_two z)).
Proof.
  intros HM. unfold scaled_twos. rewrite twoN_ok. ebind. rewrite <- call_Some. apply f_equal. unfold vec at 3. apply mapM_Some_2, Forall2_fmap_r, Forall2_same_length_lookup.
  split; [done |]. intros i x y Hx Hy. rewrite Hx in Hy. injection Hy as <-. apply lookup_seq in Hx as [-> Hi].
  assert ((i / maxN < m)%nat) by (apply Nat.Div0.div_lt_upper_bound; lia).
  cbv beta delta [compose]. rewrite Nat.add_0_l, (vec_lookup (m + 2)) by lia. bind. rewrite vec_lookup by (apply Nat.mod_upper_bound; done). bind. rewrite mul_sbytes. unfold z_two. by rewrite Nat2Z.inj_add.
Qed.

Lemma polynomials_ok m MN a r sl sr y z : (MN <= m * maxN)%nat ->
  polynomials (vec MN a) (vec MN r) (vec MN sl) (vec MN sr) (vec (m + 2) (fun i => z ^ Z.of_nat i)) (sbytes y) (sbytes z) =
  ret (vec MN (fun i => a i - z), vec MN sl, vec MN (fun i => (r i + z) * y ^ Z.of_nat i + z_two z i), vec MN (fun i => y ^ Z.of_nat i * sr i)).
Proof.
  intros HM. unfold polynomials. rewrite vector_subtract_ok, vec_length. ebind. rewrite scaled_twos_ok by done. ebind. rewrite vector_add_scalar_ok. ebind.
  rewrite vector_powers_ok. ebind. rewrite hadamard_ok. ebind. rewrite vector_add_ok. ebind. rewrite hadamard_ok. by ebind.
Qed.

Lemma power_nonzero y i : y mod ell <> 0 -> y ^ Z.of_nat i mod ell <> 0.
Proof.
  intros Hy. induction i as [| i IH]; [done |]. rewrite Nat2Z.inj_succ, Z.pow_succ_r by lia. by apply ell_nonzero.
Qed.

Lemma einv_nonzero y : y mod ell <> 0 -> einv y mod ell <> 0.
Proof.
  intros Hy E. pose proof (einv_ok y Hy) as O. apply mod_ell in O. rewrite <- Z.mul_mod_idemp_r, E, Z.mul_0_r in O by done. discriminate O.
Qed.

Section Attempt.
Context (e : exponents) (G H : nat -> point) (He : initialised e G H) (logM : nat) (HM : (2 ^ logM <= maxM)%nat).
Abbreviation MN := (2 ^ logM * maxN)%nat.

Lemma MN_power : MN = (2 ^ (logM + 6))%nat.
Proof. by rewrite Nat.pow_add_r. Qed.

Lemma MN_bounds : (0 < MN <= maxN * maxM)%nat.
Proof. pose proof (Nat.pow_nonzero 2 logM ltac:(done)). unfold maxM, maxN in *. lia. Qed.

Lemma first_points y : y mod ell <> 0 ->
  round_points (logM + 6) (take MN (Gi_p3 e)) (take MN (Hi_p3 e)) (Some (vec MN (fun i => einv y ^ Z.of_nat i))) G (fun i => smul (einv y ^ Z.of_nat i) (H i)).
Proof.
  intros Hy. pose proof MN_bounds. exists H, (fun i => einv y ^ Z.of_nat i). rewrite <- MN_power. split_and!.
  - eapply pts_take; [exact (init_G _ _ _ He) | lia].
  - eapply pts_take; [exact (init_H _ _ _ He) | lia].
  - intros i _. exact (init_GP _ _ _ He i).
  - intros i _. exact (init_HP _ _ _ He i).
  - done.
  - intros i _. by apply power_nonzero, einv_nonzero.
  - done.
Qed.

Lemma prove_inner_ok l0 l1 r0 r1 y x taux mu : y mod ell <> 0 ->
  let l i := l0 i + l1 i * x in let r i := r0 i + r1 i * x in let t := zsum MN (fun i => l i * r i) in
  let c := mash hs x [sbytes x; sbytes taux; sbytes mu; sbytes t] in
  prove_inner e (logM + 6) (vec MN l0) (vec MN l1) (vec MN r0) (vec MN r1) (sbytes y) (sbytes x) (sbytes taux) (sbytes mu) =
  ret (unless_zero c (option_map (fun p => (sbytes t, argument_bytes p)) (argue hs (logM + 6) c G (fun i => smul (einv y ^ Z.of_nat i) (H i)) l r c))).
Proof.
  intros Hy l r t c. unfold prove_inner. rewrite !vec_length, vector_scalar_ok. ebind. rewrite vector_add_ok. ebind. rewrite vector_scalar_ok. ebind.
  rewrite vector_add_ok. ebind. change (fun i => l0 i + l1 i * x) with l. change (fun i => r0 i + r1 i * x) with r.
  rewrite inner_product_ok. fold t. ebind. rewrite mash_ok by (repeat (constructor; [apply sbytes_bytes |]); constructor). fold c. ebind.
  destruct (zero_cases c) as [Hc | Hc]; [rewrite key_eq_nonzero, unless_zero_false by done | by rewrite key_eq_is_zero, unless_zero_true by done].
  rewrite invert_ok. ebind. rewrite vector_powers_ok. ebind.
  pose proof (inner_rounds_ok (logM + 6) (logM + 6) e c _ _ _ G (fun i => smul (einv y ^ Z.of_nat i) (H i)) l r c
    ltac:(lia) ltac:(rewrite <- MN_power; apply MN_bounds) (fun _ => first_points y Hy)) as E.
  rewrite <- MN_power in E. rewrite E. ebind. by destruct (argue hs _ _ _ _ _ _ _).
Qed.

Context (vs gs : list Z) (Hv : Forall (fun a => 0 <= a < 2 ^ 64) vs) (Hl : length vs = length gs) (Hm : (length vs <= 2 ^ logM)%nat).
Abbreviation v := (fun j => nth j vs 0).
Abbreviation gamma := (fun j => nth j gs 0).
Abbreviation aL8 := (bit_keys (map sbytes vs) MN INV_EIGHT zero).
Abbreviation aR8 := (bit_keys (map sbytes vs) MN zero MINUS_INV_EIGHT).

Lemma aL_ok : bit_keys (map sbytes vs) MN identity zero = vec MN (amount_bit v).
Proof. rewrite one_sbytes, zero_sbytes, bit_keys_ok by done. apply vec_ext. intros i _. exists 0. ring. Qed.

Lemma aR_ok : bit_keys (map sbytes vs) MN zero MINUS_ONE = vec MN (fun i => amount_bit v i - 1).
Proof. rewrite minus_one_sbytes, zero_sbytes, bit_keys_ok by done. apply vec_ext. intros i _. exists 0. ring. Qed.

Lemma AS_eq (a d : key) (b c : keyV) (t : list key) A A' S S' : A ≃ A' -> S ≃ S' -> ret (a, b, c, d, enc A, enc S, t) = ret (a, b, c, d, enc A', enc S', t).
Proof. intros EA ES. apply enc_eq in EA, ES. by rewrite EA, ES. Qed.

Lemma prove_AS_ok tape alpha sLs sRs rho rest : yields_scalars tape (alpha :: sLs ++ sRs ++ rho :: rest) -> length sLs = MN -> length sRs = MN ->
  let sL i := nth i sLs 0 in let sR i := nth i sRs 0 in
  exists tape', prove_AS e aL8 aR8 tape = ret (sbytes alpha, vec MN sL, vec MN sR, sbytes rho, enc (p_A G H logM v alpha), enc (p_S G H logM rho sL sR), tape') /\
    yields_scalars tape' rest.
Proof.
  intros Ht LL LR sL sR. pose proof MN_bounds as B. unfold prove_AS. destruct (draw_next _ _ _ Ht) as (t1 & -> & H1). ebind.
  rewrite inv8_sbytes, minus_inv8_sbytes, zero_sbytes, !bit_keys_ok, vec_length by done. rewrite (vector_exponent_ok e G H He) by done. ebind.
  rewrite mul_sbytes. ebind. rewrite scalarmultBase_sbytes. ebind. unfold pub. rewrite addKeys_ok. ebind.
  destruct (skvGen_ok MN t1 _ _ H1 LL ltac:(lia)) as (t2 & -> & H2). ebind. destruct (skvGen_ok MN t2 _ _ H2 LR ltac:(lia)) as (t3 & -> & H3). ebind.
  destruct (draw_next _ _ _ H3) as (t4 & -> & H4). ebind. rewrite (vector_exponent_ok e G H He) by done. ebind.
  rewrite scalarmultBase_sbytes. ebind. unfold pub. rewrite addKeys_ok. ebind. rewrite scalarmultKey_ok by apply sbytes_ok. ebind.
  exists t4. split; [| done]. apply AS_eq; unfold p_A, p_S.
  - rewrite smul_gadd. apply gadd_proper; [| glin]. apply cross_scale; intros i _; ring.
  - rewrite sbytes_val, smul_mod; [done |]. apply order_add; [| apply smul_prime, base_prime]. apply order_cross; intros i _; [exact (init_GP _ _ _ He i) | exact (init_HP _ _ _ He i)].
Qed.

(** ** One attempt *)

(** The proof of an attempt that draws from these scalars, and the scalars left. *)
Definition attempt (rs : list Z) : option dproof * list Z :=
  match rs with
  | alpha :: rs =>
      let sL i := nth i (take MN rs) 0 in
      let sR i := nth i (take MN (drop MN rs)) 0 in
      match drop MN (drop MN rs) with
      | rho :: tau1 :: tau2 :: rs =>
          let y := p_y hs G H logM (length vs) v gamma alpha rho sL sR in
          let z := hs (sbytes y) in
          (prove hs G H logM (length vs) v gamma alpha rho tau1 tau2 sL sR,
           if (y mod ell =? 0) || (z mod ell =? 0) then tau1 :: tau2 :: rs else rs)
      | _ => (None, [])
      end
  | [] => (None, [])
  end.

Abbreviation V := (map enc (p_V (length vs) v gamma)).
Abbreviation gammas := (map sbytes gs).
Abbreviation aL := (bit_keys (map sbytes vs) MN identity zero).
Abbreviation aR := (bit_keys (map sbytes vs) MN zero MINUS_ONE).

Lemma prove_try_ok p3 tape alpha sLs sRs rho tau1 tau2 rest : yields_scalars tape (alpha :: sLs ++ sRs ++ rho :: tau1 :: tau2 :: rest) ->
  length sLs = MN -> length sRs = MN ->
  let sL i := nth i sLs 0 in let sR i := nth i sRs 0 in let y := p_y hs G H logM (length vs) v gamma alpha rho sL sR in
  exists tape', prove_try e p3 logM V gammas aL aR aL8 aR8 tape = ret (option_map wire (prove hs G H logM (length vs) v gamma alpha rho tau1 tau2 sL sR), tape') /\
    yields_scalars tape' (if (y mod ell =? 0) || (hs (sbytes y) mod ell =? 0) then tau1 :: tau2 :: rest else rest).
Proof.
  intros Ht LL LR sL sR y. unfold prove_try, prove. rewrite hash_to_scalarV_ok by apply enc_keys. ebind.
  destruct (prove_AS_ok tape alpha sLs sRs rho _ Ht LL LR) as (t1 & -> & H1). ebind. fold sL. fold sR.
  rewrite mash_ok by (do 2 (constructor; [apply enc_bytes |]); constructor). ebind.
  change (mash hs _ _) with y. fold y. destruct (zero_cases y) as [Hy | Hy].
  2: { rewrite key_eq_is_zero, unless_zero_true by done. rewrite (proj2 (Z.eqb_eq _ _) Hy). cbn [orb option_map]. exists t1. split; [reflexivity | exact H1]. }
  rewrite key_eq_nonzero, unless_zero_false by done. rewrite (proj2 (Z.eqb_neq _ _) Hy). rewrite rct_hash_to_scalar_ok by apply sbytes_bytes. ebind.
  set (z := hs (sbytes y)). change (p_z hs G H logM (length vs) v gamma alpha rho sL sR) with z. destruct (zero_cases z) as [Hz | Hz].
  2: { rewrite key_eq_is_zero, unless_zero_true by done. rewrite (proj2 (Z.eqb_eq _ _) Hz). cbn [orb option_map]. exists t1. split; [reflexivity | exact H1]. }
  rewrite key_eq_nonzero, unless_zero_false by done. rewrite (proj2 (Z.eqb_neq _ _) Hz). cbn [orb].
  rewrite vector_powers_ok. ebind. rewrite aL_ok, aR_ok, polynomials_ok by done. ebind.
  set (l0 := p_l0 hs G H logM (length vs) v gamma alpha rho sL sR). set (r0 := p_r0 hs G H logM (length vs) v gamma alpha rho sL sR).
  set (r1 := p_r1 hs G H logM (length vs) v gamma alpha rho sL sR).
  change (fun i => amount_bit v i - z) with l0. change (fun i => (amount_bit v i - 1 + z) * y ^ Z.of_nat i + z_two z i) with r0.
  change (fun i => y ^ Z.of_nat i * sR i) with r1. rewrite !inner_product_ok. do 2 ebind. rewrite add_sbytes. ebind. ebind.
  destruct (draw_next _ _ _ H1) as (t2 & -> & H2). ebind. destruct (draw_next _ _ _ H2) as (t3 & -> & H3). ebind.
  destruct (commit_coefficient_ok p3 (zsum MN (fun i => l0 i * r1 i) + zsum MN (fun i => sL i * r0 i)) tau1 (drawn_range _ _ _ H1)) as (q1 & ->). ebind.
  destruct (commit_coefficient_ok q1 (zsum MN (fun i => sL i * r1 i)) tau2 (drawn_range _ _ _ H2)) as (q2 & ->). ebind.
  rewrite mash_ok by (constructor; [apply sbytes_bytes |]; do 2 (constructor; [apply enc_bytes |]); constructor). ebind.
  set (x := p_x hs G H logM (length vs) v gamma alpha rho tau1 tau2 sL sR). change (mash hs z _) with x.
  destruct (zero_cases x) as [Hx | Hx].
  2: { rewrite key_eq_is_zero, unless_zero_true by done. exists t3. split; [reflexivity | exact H3]. }
  rewrite key_eq_nonzero, unless_zero_false by done. rewrite !mul_sbytes. do 2 ebind. rewrite muladd_sbytes. ebind.
  rewrite vec_drop, Nat.add_sub, mask_sum_ok by lia. ebind. rewrite muladd_sbytes. ebind.
  rewrite <- Hl, (zsum_ext (length vs) _ (fun j => z ^ (Z.of_nat j + 2) * nth j gs 0)) by (intros j _; f_equal; f_equal; lia).
  set (taux := p_taux hs G H logM (length vs) v gamma alpha rho tau1 tau2 sL sR). change (tau1 * x + _ + _) with taux.
  rewrite (prove_inner_ok l0 sL r0 r1 y x taux (alpha + x * rho) Hy). ebind. exists t3. split; [| exact H3].
  set (c := p_x_ip hs G H logM (length vs) v gamma alpha rho tau1 tau2 sL sR). change (mash hs x _) with c.
  destruct (zero_cases c) as [Hc | Hc]; [rewrite !unless_zero_false by done | rewrite !unless_zero_true by done; reflexivity].
  change (argue hs (logM + 6) c G _ _ _ c) with (argue hs (logM + 6) c G (p_H hs G H logM (length vs) v gamma alpha rho sL sR)
    (p_l hs G H logM (length vs) v gamma alpha rho tau1 tau2 sL sR) (p_r hs G H logM (length vs) v gamma alpha rho tau1 tau2 sL sR) c) at 1.
  destruct (argue hs _ _ _ _ _ _ _) as [r |]; reflexivity.
Qed.

(** The scalars an attempt draws at most. *)
Abbreviation draws := (2 * MN + 4)%nat.

Lemma attempt_ok p3 tape rs : yields_scalars tape rs -> (draws <= length rs)%nat ->
  exists tape', prove_try e p3 logM V gammas aL aR aL8 aR8 tape = ret (option_map wire (attempt rs).1, tape') /\
    yields_scalars tape' (attempt rs).2 /\ (length rs <= length (attempt rs).2 + draws)%nat.
Proof.
  intros Ht Hn. destruct rs as [| alpha rs]; [cbn [length] in Hn; lia |]. unfold attempt. cbn [length] in Hn.
  assert (L2 : (length rs - MN - MN = length (drop MN (drop MN rs)))%nat) by (rewrite !length_drop; done).
  rewrite <- (take_drop MN rs), <- (take_drop MN (drop MN rs)) in Ht.
  destruct (drop MN (drop MN rs)) as [| rho [| tau1 [| tau2 rest]]]; cbn [length] in L2; try lia.
  destruct (prove_try_ok p3 tape alpha (take MN rs) (take MN (drop MN rs)) rho tau1 tau2 rest Ht) as (t & E & Ht');
    [rewrite length_take; lia | rewrite length_take, length_drop; lia |].
  exists t. cbn [fst snd]. split; [exact E |]. split; [exact Ht' |]. cbn [length]. destruct (_ || _); cbn [length]; lia.
Qed.

(** The first proof of at most [n] attempts. *)
Fixpoint attempts (n : nat) (rs : list Z) : option dproof :=
  match n with
  | O => None
  | S n => match (attempt rs).1 with Some d => Some d | None => attempts n (attempt rs).2 end
  end.

Lemma prove_loop_ok n fuel p3 tape rs d : yields_scalars tape rs -> (n * draws <= length rs)%nat -> (n <= fuel)%nat -> attempts n rs = Some d ->
  exists tape', prove_loop fuel e p3 logM V gammas aL aR aL8 aR8 tape = ret (wire d, tape') /\ has_scalars (length rs - n * draws) tape'.
Proof.
  revert fuel p3 tape rs. induction n as [| n IH]; intros fuel p3 tape rs Ht Hn Hf Ha; [discriminate Ha |].
  destruct fuel as [| fuel]; [lia |]. cbn [prove_loop]. destruct (attempt_ok p3 tape rs Ht ltac:(lia)) as (t & -> & Ht' & Hl'). ebind.
  cbn [attempts] in Ha. destruct (attempt rs) as [[d' |] rs']; cbn [fst snd option_map] in *.
  - apply (inj Some) in Ha. subst d'. exists t. split; [done |]. destruct Ht' as [Bt <-]. split; [done | lia].
  - destruct (IH fuel p3 t rs') as (t' & E & [B Hs]); [done | lia | lia | done |]. exists t'. split; [exact E |]. split; [exact B | lia].
Qed.

Lemma amounts_range j : 0 <= nth j vs 0 < 2 ^ 64.
Proof.
  destruct (vs !! j) as [a |] eqn:E.
  - rewrite (nth_lookup_Some _ _ _ _ E). exact (proj1 (Forall_lookup _ _) Hv _ _ E).
  - rewrite nth_overflow by (by apply lookup_ge_None). lia.
Qed.

(** What the verifier demands of a proof of [vs]. *)
Definition made (d : dproof) : Prop :=
  good hs d /\ line_61 hs d MN ≃ gzero /\ line_62 hs G H d MN ≃ gzero /\
  length (dV d) = length vs /\ length (dL d) = (logM + 6)%nat /\ length (dR d) = (logM + 6)%nat.

Lemma attempt_made rs d : (attempt rs).1 = Some d -> made d /\ dV d = p_V (length vs) v gamma.
Proof.
  unfold attempt. destruct rs as [| alpha rs]; [discriminate |]. destruct (drop MN (drop MN rs)) as [| rho [| tau1 [| tau2 rest]]]; [discriminate .. |].
  cbn [fst]. intros E. split.
  - exact (prove_ok hs G H logM (length vs) v gamma alpha rho tau1 tau2 _ _ (init_GP _ _ _ He) (init_HP _ _ _ He) amounts_range Hm
      (fun j Hj => nth_overflow vs 0 Hj) d E).
  - unfold prove in E. apply unless_zero_Some in E as [_ E]. apply unless_zero_Some in E as [_ E]. apply unless_zero_Some in E as [_ E].
    apply unless_zero_Some in E as [_ E]. apply bind_Some_inv in E as (r & _ & E). apply (inj Some) in E. by subst d.
Qed.

Lemma attempts_made n rs d : attempts n rs = Some d -> made d /\ dV d = p_V (length vs) v gamma.
Proof.
  revert rs. induction n as [| n IH]; intros rs E; [discriminate E |]. cbn [attempts] in E. pose proof (attempt_made rs) as M.
  destruct (attempt rs) as [[d' |] rs']; cbn [fst snd] in *; [| exact (IH _ E)]. apply (inj Some) in E. subst d'. by apply M.
Qed.
End Attempt.
End BulletproofProve.
