(* ===== verification/BulletproofTheorems.v ===== *)
(** What the Bulletproofs of src/ringct/bulletproofs.cc promise: the prover's proofs are
    accepted, the verifier computes the weighted sum of the equations of the paper and
    nothing else, and its random weights separate the equations. *)
From S2P Require Import Prelude Limbs Pack Scalar ScalarCorrect Group GroupSolve GroupSum Fe Curve Ge GeCorrect GeEncode GeMult GeMultCorrect.
From S2P Require Import GeTables GeScalarmult GeFromFe GeTheorems CurveOrder Keccak KeccakCorrect Varint Encoding Crypto CryptoCorrect CryptoTheorems.
From S2P Require Import RctData RctTables Exc RctOps RctOpsCorrect Multiexp MultiexpCorrect Bulletproofs BulletproofScalars BulletproofPoints BulletproofSpec.
From S2P Require Import BulletproofComplete BulletproofVerify BulletproofProve.

Local Open Scope Z_scope.

Module BulletproofTheorems.
Import Limbs Pack Scalar ScalarCorrect Group GroupSolve GroupSum Fe Curve Ge GeCorrect GeEncode GeMult GeMultCorrect.
Import GeTables GeScalarmult GeFromFe GeTheorems Finite CurveOrder Keccak KeccakCorrect Varint Encoding Crypto CryptoCorrect CryptoTheorems.
Import RctData RctTables Exc RctOps RctOpsCorrect Multiexp MultiexpCorrect Bulletproofs BulletproofScalars BulletproofPoints BulletproofSpec.
Import BulletproofComplete BulletproofVerify BulletproofProve.
Local Open Scope group_scope.
#[local] Opaque hs.

(** ** The prover *)

(** The bytes of an amount. *)
Lemma shifts_split n i a : 0 <= a ->
  map (fun j => Z.land (Z.shiftr a (8 * Z.of_nat j)) 255) (seq i n) = le_split n (a / 256 ^ Z.of_nat i).
Proof.
  intros Ha. revert i. induction n as [| n IH]; intros i; [done |]. cbn [seq map le_split]. rewrite IH. f_equal.
  - change 255 with (Z.ones 8). rewrite Z.land_ones, Z.shiftr_div_pow2, Z.pow_mul_r by lia. reflexivity.
  - rewrite Nat2Z.inj_succ, Z.pow_succ_r, (Z.mul_comm 256), Z.div_div by lia. reflexivity.
Qed.

Lemma amount_bytes a : 0 <= a < 2 ^ 64 -> map (fun i => Z.land (Z.shiftr a (8 * Z.of_nat i)) 255) (seq 0 8) ++ drop 8 zero = sbytes a.
Proof. intros Ha. rewrite shifts_split, Z.div_1_r by lia. exact (d2h_sbytes a Ha). Qed.

Section Prover.
Context (st : option exponents) (e : exponents) (G H : nat -> point) (Est : init_exponents st = ret e) (He : initialised e G H).
Context (vs gs : list Z) (Hv : Forall (fun a => 0 <= a < 2 ^ 64) vs) (Hl : length vs = length gs) (Hn : (1 <= length vs <= maxM)%nat).
Context (logM : nat) (HM : find_logM 6 0 (length vs) = Some logM).
Abbreviation MN := (2 ^ logM * maxN)%nat.

Lemma logM_bounds : (length vs <= 2 ^ logM <= maxM)%nat.
Proof. destruct (find_logM_ok _ Hn) as (k & E & B). rewrite HM in E. apply (inj Some) in E. by subst k. Qed.

Lemma forallb_reduced l : forallb is_reduced (map sbytes l) = true.
Proof. induction l as [| x l IH]; [done |]. cbn [map forallb]. by rewrite reduced_sbytes, IH. Qed.

Lemma scalars_fewer tape : (length (scalars tape) <= length tape)%nat.
Proof. unfold scalars. rewrite length_map. apply length_filter. Qed.

Lemma PROVE_ok n p3 tape rs d : yields_scalars tape rs -> (n * (2 * MN + 4) <= length rs)%nat -> attempts G H logM vs gs n rs = Some d ->
  exists tape', bulletproof_PROVE st p3 (map sbytes vs) (map sbytes gs) tape = ret (wire d, e, tape') /\ has_scalars (length rs - n * (2 * MN + 4)) tape'.
Proof.
  intros Ht HN Ha. pose proof logM_bounds as B. unfold bulletproof_PROVE. rewrite !length_map, Hl, Nat.eqb_refl, check_true. ebind.
  rewrite <- Hl, (proj2 (Nat.eqb_neq _ _)) by lia. cbn [negb]. rewrite check_true. ebind. rewrite !forallb_reduced, check_true. do 2 ebind.
  rewrite Est. ebind. rewrite HM. ebind. rewrite (proj2 (Nat.leb_le _ _)), check_true by lia. ebind. rewrite commitments_ok by done. ebind.
  destruct (prove_loop_ok e G H He logM ltac:(lia) vs gs Hv Hl ltac:(lia) n (length tape) p3 tape rs d Ht HN) as (t & -> & Hs); [| done | ebind; by exists t].
  destruct Ht as [_ <-]. pose proof (scalars_fewer tape). nia.
Qed.

Lemma PROVE_amounts_ok n p3 tape rs d : yields_scalars tape rs -> (n * (2 * MN + 4) <= length rs)%nat -> attempts G H logM vs gs n rs = Some d ->
  exists tape', bulletproof_PROVE_amounts st p3 vs (map sbytes gs) tape = ret (wire d, e, tape') /\ has_scalars (length rs - n * (2 * MN + 4)) tape'.
Proof.
  intros Ht HN Ha. unfold bulletproof_PROVE_amounts. rewrite length_map, Hl, Nat.eqb_refl, check_true. ebind.
  rewrite (map_ext_Forall _ _ (List.Forall_impl _ amount_bytes Hv)). exact (PROVE_ok n p3 tape rs d Ht HN Ha).
Qed.

Lemma made_logM d : length (dV d) = length vs -> logM_of d = logM.
Proof. intros L. unfold logM_of. by rewrite L, HM. Qed.
End Prover.

(** ** The verifier *)

(** A proof that the verifier is to accept. *)
Definition honest (G H : nat -> point) (d : dproof) : Prop :=
  committed d /\ valid d /\ line_61 hs d (2 ^ logM_of d * maxN) ≃ gzero /\ line_62 hs G H d (2 ^ logM_of d * maxN) ≃ gzero.

Lemma batch_honest G H ds rs : Forall (honest G H) ds -> batch G H ds rs ≃ gzero.
Proof.
  intros Hd. revert rs. induction Hd as [| d ds (_ & _ & E1 & E2) _ IH]; intros rs; [done |]. destruct rs as [| wy [| wz rs]]; [done.. |].
  cbn [batch]. rewrite E1, E2, IH. rewrite !smul_0. by rewrite !gadd_0_l.
Qed.

Lemma VERIFY_honest st e G H ds tape rs : init_exponents st = ret e -> initialised e G H -> Forall (honest G H) ds -> yields_scalars tape rs ->
  (2 * length ds <= length rs)%nat -> exists tape', bulletproof_VERIFY st (map wire ds) tape = ret (true, e, tape').
Proof.
  intros Est He Hd Ht HL. destruct (VERIFY_ok G H st e ds rs tape He Est) as (b & t & E & Hb); [| done.. |].
  - refine (List.Forall_impl _ _ Hd). by intros d [C _].
  - assert (B : b = true); [| subst b; by exists t]. apply Hb. split; [| by apply batch_honest]. refine (List.Forall_impl _ _ Hd). by intros d (_ & V & _).
Qed.

Lemma made_honest G H vs logM d : (1 <= length vs <= maxM)%nat -> find_logM 6 0 (length vs) = Some logM -> made G H logM vs d -> honest G H d.
Proof.
  intros Hn HM (Hg & E1 & E2 & L & L1 & L2). assert (EM : logM_of d = logM) by (by apply (made_logM vs)). unfold honest, committed, valid, sized.
  rewrite EM, L, L1, L2, (Nat.add_comm 6 logM). by rewrite HM.
Qed.

(** ** The weights of the verifier *)

(** The two equations of each proof, in the order of their weights. *)
Definition equations (G H : nat -> point) (ds : list dproof) : list point :=
  concat (map (fun d => [line_61 hs d (2 ^ logM_of d * maxN); line_62 hs G H d (2 ^ logM_of d * maxN)]) ds).

Lemma batch_change G H ds rs k w w' P : (2 * length ds <= length rs)%nat -> equations G H ds !! k = Some P -> rs !! k = Some w ->
  batch G H ds (<[k := w']> rs) ≃ batch G H ds rs ⊕ smul (w' - w) P.
Proof.
  revert rs k. induction ds as [| d ds IH]; intros rs k L EP Ew; [discriminate EP |].
  destruct rs as [| wy [| wz rs]]; cbn [length] in L; [lia.. |]. change (equations G H (d :: ds)) with
    (line_61 hs d (2 ^ logM_of d * maxN) :: line_62 hs G H d (2 ^ logM_of d * maxN) :: equations G H ds) in EP.
  destruct k as [| [| k]]; cbn [lookup list_lookup insert list_insert batch] in *.
  - apply (inj Some) in EP, Ew. subst P w. glin.
  - apply (inj Some) in EP, Ew. subst P w. glin.
  - rewrite (IH rs k) by (lia || done). glin.
Qed.

Lemma order_opp P : prime_order P -> prime_order (gopp P).
Proof. unfold prime_order. intros HP. generalize dependent ell. intros n HP. transitivity (gopp (smul n P)); [glin |]. rewrite HP. apply gopp_0. Qed.

Lemma order_line_61 d MN : prime_order (line_61 hs d MN).
Proof.
  unfold line_61. apply order_add; [apply order_add; [apply order_add |] |]; [| apply smul_prime, order8 .. |].
  - apply order_sumg. intros i _. apply smul_prime, order8.
  - apply order_opp, order_pedersen.
Qed.

Lemma order_rounds ws L R : prime_order (round_sum ws (map (smul 8) L) (map (smul 8) R)).
Proof.
  revert L R. induction ws as [| w ws IH]; intros L R; [exact (smul_0 ell) |].
  destruct L as [| P L]; [exact (smul_0 ell) |]. destruct R as [| Q R]; [exact (smul_0 ell) |].
  cbn [map round_sum]. apply order_add; [| apply IH]. apply order_add; apply smul_prime, order8.
Qed.

Lemma order_line_62 G H d MN : (forall i, prime_order (G i)) -> (forall i, prime_order (H i)) -> prime_order (line_62 hs G H d MN).
Proof.
  intros HG HH. unfold line_62. apply order_add; [apply order_add; [apply order_add; [apply order_add |] |] |].
  - apply order8.
  - apply smul_prime, order8.
  - apply order_rounds.
  - apply order_opp, order_pedersen.
  - apply order_opp, order_cross; intros i _; [exact (HG i) | exact (HH i)].
Qed.

Lemma equations_order G H ds k P : (forall i, prime_order (G i)) -> (forall i, prime_order (H i)) -> equations G H ds !! k = Some P -> prime_order P.
Proof.
  intros HG HH E. apply list_elem_of_lookup_2, list_elem_of_In, in_concat in E as (l & (d & <- & _)%in_map_iff & Hl).
  destruct Hl as [<- | [<- | []]]; [apply order_line_61 | by apply order_line_62].
Qed.

Lemma equations_length G H ds : length (equations G H ds) = (2 * length ds)%nat.
Proof. unfold equations. induction ds as [| d ds IH]; [done |]. cbn [map concat length app]. rewrite IH. lia. Qed.

Lemma cancel_scalar c P : c mod ell <> 0 -> prime_order P -> smul c P ≃ gzero -> P ≃ gzero.
Proof.
  intros Hc HP E. rewrite <- (smul_1 P), <- (smul_eqm (c * einv c) 1 P HP (einv_ok c Hc)), Z.mul_comm, smul_mul, E. apply smul_0.
Qed.

Lemma drawn_at tape rs k w : yields_scalars tape rs -> rs !! k = Some w -> 0 < w < ell.
Proof. intros [_ <-] E. exact (proj1 (Forall_lookup _ _) (scalars_range tape) _ _ E). Qed.

Lemma mod_eq_of_sub a b : (a - b) mod ell = 0 -> a mod ell = b mod ell.
Proof. intros E. apply mod_ell. exists ((a - b) / ell). rewrite Z.mul_comm. apply Z_div_exact_full_2; [done | exact E]. Qed.

(** ** The claims *)

(** Initialisation of the generators never gets stuck. It either throws, or leaves a state
    in which the 1024 pairs of generators are valid points of prime order and both
    multi-exponentiation caches hold exactly the tables of these points; on that state it is
    then the identity. *)
Theorem exponents_initialised : exists o, init_exponents None = Some o /\
  match o with
  | Some e => (exists G H, initialised e G H) /\ init_exponents (Some e) = ret e
  | None => True
  end.
Proof.
  destruct init_exponents_ok as ([e |] & E & He); [exists (Some e) | exists None]; (split; [exact E |]); [| exact I]. split; [exact He | reflexivity].
Qed.

(** C4: completeness. The prover, on amounts below 2^64 and masks, whenever one of the first
    [n] attempts its random scalars allow meets no zero challenge, returns the proof of that
    attempt. The proof commits to the given amounts and masks, and the verifier accepts it in
    a batch with any proofs that satisfy their equations, whatever its random weights. *)
Theorem bulletproof_complete st e G H vs gs logM n p3 tape rs ds vtape ws :
  init_exponents st = ret e -> initialised e G H ->
  Forall (fun a => 0 <= a < 2 ^ 64) vs -> length vs = length gs -> (1 <= length vs <= maxM)%nat -> find_logM 6 0 (length vs) = Some logM ->
  yields_scalars tape rs -> (n * (2 * (2 ^ logM * maxN) + 4) <= length rs)%nat ->
  Forall (honest G H) ds -> yields_scalars vtape ws -> (2 * S (length ds) <= length ws)%nat ->
  forall d, attempts G H logM vs gs n rs = Some d -> exists tape' vtape',
      bulletproof_PROVE_amounts st p3 vs (map sbytes gs) tape = ret (wire d, e, tape') /\
      bp_V (wire d) = map enc (p_V (length vs) (fun j => nth j vs 0) (fun j => nth j gs 0)) /\
      bulletproof_VERIFY (Some e) (wire d :: map wire ds) vtape = ret (true, e, vtape').
Proof.
  intros Est He Hv Hl Hn HM Ht HN Hds Hw Lw d Ed.
  destruct (PROVE_amounts_ok st e G H Est He vs gs Hv Hl Hn logM HM n p3 tape rs d Ht HN Ed) as (t & E & _).
  pose proof (logM_bounds vs Hn logM HM) as B.
  destruct (attempts_made e G H He logM (proj2 B) vs gs Hv Hl (proj1 B) n rs d Ed) as [Md EV].
  destruct (VERIFY_honest (Some e) e G H (d :: ds) vtape ws eq_refl He) as (t' & E'); [| done.. |].
  - constructor; [by apply (made_honest _ _ vs logM) | done].
  - exists t, t'. split; [exact E |]. split; [by rewrite <- EV | exact E'].
Qed.


(** C24: the random weights separate the equations. Of two runs of the verifier on the same
    batch, whose weights differ in one place only, both accept only if the equation of that
    place holds: a false equation is accepted for at most one value of its weight. *)
Theorem bulletproof_weights_separate st e G H ds rs k w tape1 tape2 :
  init_exponents st = ret e -> initialised e G H -> Forall committed ds -> (2 * length ds <= length rs)%nat -> (k < 2 * length ds)%nat ->
  rs !! k <> Some w -> yields_scalars tape1 rs -> yields_scalars tape2 (<[k := w]> rs) ->
  exists b1 t1 b2 t2 P, bulletproof_VERIFY st (map wire ds) tape1 = ret (b1, e, t1) /\ bulletproof_VERIFY st (map wire ds) tape2 = ret (b2, e, t2) /\
    equations G H ds !! k = Some P /\ (b1 && b2 = true -> P ≃ gzero).
Proof.
  intros Est He Hc HL Hk Hw H1 H2. destruct (lookup_lt_is_Some_2 (equations G H ds) k) as [P EP]; [by rewrite equations_length |].
  destruct (lookup_lt_is_Some_2 rs k) as [w0 Ew]; [lia |].
  destruct (VERIFY_ok G H st e ds rs tape1 He Est Hc H1 HL) as (b1 & t1 & E1 & B1).
  destruct (VERIFY_ok G H st e ds _ tape2 He Est Hc H2 ltac:(by rewrite length_insert)) as (b2 & t2 & E2 & B2).
  exists b1, t1, b2, t2, P. do 3 (split; [done |]). intros [[_ A1]%B1 [_ A2]%B2]%andb_prop.
  rewrite (batch_change G H ds rs k w0 w P HL EP Ew), A1, gadd_0_l in A2.
  apply (cancel_scalar (w - w0)); [| by apply (equations_order G H ds k P (init_GP _ _ _ He) (init_HP _ _ _ He)) | exact A2].
  pose proof (drawn_at _ _ _ _ H1 Ew). pose proof (drawn_at _ _ k w H2 ltac:(rewrite list_lookup_insert_eq by lia; done)).
  intros D. assert (w = w0); [| congruence]. apply mod_eq_of_sub in D. rewrite !Z.mod_small in D by lia. done.
Qed.

(** ** Witnesses *)

(** Generators that are all the same point. *)
Lemma sample_state : exists e G H, initialised e G H.
Proof.
  set (l := replicate (maxN * maxM) ge_p3_H). set (P := replicate (maxN * maxM) H_point).
  assert (R : Forall2 p3_rep l P) by (unfold l, P; generalize (maxN * maxM)%nat; intros n; induction n as [| n IH]; [done |]; constructor; [apply H_rep | done]).
  assert (O : Forall prime_order P) by (apply Forall_replicate, H_prime).
  destruct (caches_ok l l P P R R) as (e & _ & He); [apply length_replicate | apply length_replicate | done | done |]. by exists e, (family P), (family P).
Qed.

(** A proof of one commitment, with the sizes of an honest one. *)
Definition sample_proof : dproof :=
  mk_dp [base_point] H_point base_point H_point H_point 1 2 (replicate 6 base_point) (replicate 6 H_point) 3 4 5.

Lemma sample_scalars l : Forall (fun k => 0 < k < ell) l -> yields_scalars (small_tape l) l.
Proof.
  intros H. split; [apply small_tape_bytes |]. induction H as [| k l Hk _ IH]; [done |]. assert (B : ell < 2 ^ 256) by reflexivity.
  change (small_tape (k :: l)) with (le_split 32 k :: small_tape l). rewrite scalars_cons. unfold accept. rewrite le_combine_split by (change (256 ^ Z.of_nat 32) with (2 ^ 256); lia).
  rewrite (proj2 (Z.ltb_lt _ _)), Z.mod_small, (proj2 (Z.eqb_neq _ _)) by lia. cbn [andb negb]. by rewrite IH.
Qed.

Lemma bulletproof_complete_witness : exists e G H, forall d,
  attempts G H 0 [3] [4] 1 (replicate 132 5) = Some d -> exists tape' vtape',
      bulletproof_PROVE_amounts (Some e) ge_p3_H [3] (map sbytes [4]) (small_tape (replicate 132 5)) = ret (wire d, e, tape') /\
      bp_V (wire d) = map enc (p_V (length [3]) (fun j => nth j [3] 0) (fun j => nth j [4] 0)) /\
      bulletproof_VERIFY (Some e) (wire d :: map wire []) (small_tape [7; 8]) = ret (true, e, vtape').
Proof.
  destruct sample_state as (e & G & H & He). exists e, G, H.
  refine (bulletproof_complete (Some e) e G H [3] [4] 0 1 ge_p3_H (small_tape (replicate 132 5)) (replicate 132 5) [] (small_tape [7; 8]) [7; 8]
    eq_refl He _ eq_refl _ eq_refl _ _ _ _ _).
  - by repeat constructor.
  - unfold maxM. cbn [length]. lia.
  - apply sample_scalars, Forall_replicate. done.
  - rewrite length_replicate. unfold maxN. cbn. lia.
  - constructor.
  - apply sample_scalars. by repeat constructor.
  - cbn [length]. lia.
Defined.


Lemma bulletproof_weights_witness : exists e G H b1 t1 b2 t2 P,
  bulletproof_VERIFY (Some e) (map wire [sample_proof]) (small_tape [7; 8]) = ret (b1, e, t1) /\
  bulletproof_VERIFY (Some e) (map wire [sample_proof]) (small_tape [7; 9]) = ret (b2, e, t2) /\
  equations G H [sample_proof] !! 1%nat = Some P /\ (b1 && b2 = true -> P ≃ gzero).
Proof.
  destruct sample_state as (e & G & H & He). exists e, G, H.
  refine (bulletproof_weights_separate (Some e) e G H [sample_proof] [7; 8] 1 9 (small_tape [7; 8]) (small_tape [7; 9]) eq_refl He _ _ _ _ _ _).
  - constructor; [| constructor]. unfold committed, maxM. cbn [sample_proof dV length]. lia.
  - cbn [length]. lia.
  - cbn [length]. lia.
  - discriminate.
  - apply sample_scalars. by repeat constructor.
  - apply (sample_scalars [7; 9]). by repeat constructor.
Defined.
End BulletproofTheorems.
