(* ===== verification/RctSigsCorrect.v ===== *)
(** Lemmas on the RingCT protocol of RctSigs.v: the sum check on arbitrary input, and what
    each step of [genRctSimple] computes on honest input. *)
From S2P Require Import Prelude Limbs Pack Scalar ScalarCorrect Group GroupSolve GroupSum Fe Curve Ge GeCorrect GeEncode GeMult GeMultCorrect.
From S2P Require Import GeTables GeScalarmult GeFromFe GeTheorems CurveOrder Keccak KeccakCorrect Varint Archive Encoding Crypto CryptoCorrect CryptoTheorems.
From S2P Require Import RctData RctTables Exc RctOps RctOpsCorrect RingLoop Clsag ClsagCorrect ClsagTheorems Borromean Mlsag.
From S2P Require Import Multiexp MultiexpCorrect Bulletproofs BulletproofScalars BulletproofPoints BulletproofSpec.
From S2P Require Import BulletproofComplete BulletproofVerify BulletproofProve BulletproofTheorems RctTypes RctSerial RctSigs.

Local Open Scope Z_scope.

Module RctSigsCorrect.
Import Limbs Pack Scalar ScalarCorrect Group GroupSolve GroupSum Fe Curve Ge GeCorrect GeEncode GeMult GeMultCorrect.
Import GeTables GeScalarmult GeFromFe GeTheorems Finite CurveOrder Keccak KeccakCorrect Varint Archive Encoding Crypto CryptoCorrect CryptoTheorems.
Import RctData RctTables Exc RctOps RctOpsCorrect RingLoop Clsag ClsagCorrect ClsagTheorems Borromean Mlsag.
Import Multiexp MultiexpCorrect Bulletproofs BulletproofScalars BulletproofPoints BulletproofSpec.
Import BulletproofComplete BulletproofVerify BulletproofProve BulletproofTheorems RctTypes RctSerial RctSigs.
Local Open Scope group_scope.
#[local] Opaque hs.

(** ** Results *)

Lemma ebind_ret_inv {A B} (m : exc A) (f : A -> exc B) y : ebind m f = ret y -> exists x, m = ret x /\ f x = ret y.
Proof. destruct m as [[x |] |]; [| discriminate ..]. intros E. by exists x. Qed.

Lemma call_inv {A} (m : option A) x : call m = ret x -> m = Some x.
Proof. destruct m as [y |]; [| discriminate]. intros E. by injection E as ->. Qed.

Lemma catch_true m : catch m false = Some true -> m = ret true.
Proof. destruct m as [[[] |] |]; (discriminate || done). Qed.

Lemma require_inv c k : require c k = ret true -> c = true /\ k = ret true.
Proof. by destruct c. Qed.

(** ** The sum check *)

Lemma add_loop_inv p3 l r : Forall (is_bytes 32) l -> add_loop p3 l = ret r -> exists Ps, l = map enc Ps.
Proof.
  intros Hl. revert p3. induction Hl as [| k l Hk Hl IH]; intros p3 E; [by exists [] |]. cbn [add_loop] in E.
  destruct (from_cases k Hk) as [[P ->] | [D _]]; [| by rewrite D, ebind_throw in E].
  apply ebind_ret_inv in E as (t & _ & E). apply ebind_ret_inv in E as (q & _ & E). destruct (IH q E) as [Ps ->]. by exists (P :: Ps).
Qed.

Lemma addKeysV_inv l r : Forall (is_bytes 32) l -> addKeysV l = ret r -> exists Ps, l = map enc Ps.
Proof.
  intros Hl E. destruct Hl as [| k l Hk Hl]; [by exists [] |]. cbn [addKeysV] in E.
  destruct (from_cases k Hk) as [[P ->] | [D _]]; [| by rewrite D, ebind_throw in E].
  apply ebind_ret_inv in E as (t & _ & E). apply ebind_ret_inv in E as (q & E & _). destruct (add_loop_inv _ _ _ Hl E) as [Ps ->]. by exists (P :: Ps).
Qed.

Lemma equal_enc P Q : equalKeys (enc P) (enc Q) = true <-> P ≃ Q.
Proof. rewrite equalKeys_ok by apply enc_bytes. apply key_eq_enc. Qed.

(** The fields that the sum check reads. *)
Record sum_bytes (rv : rctSig) : Prop := {
  sb_outs : Forall (fun o => is_bytes 32 (mask o)) (outPk rv);
  sb_pseudo : Forall (is_bytes 32) (get_pseudo_outs rv);
  sb_fee : 0 <= txnFee rv < 2 ^ 64 }.

(** The outputs and the pseudo outputs are points whose sums differ by the fee. *)
Definition balanced (rv : rctSig) (Cs Ps : list point) : Prop :=
  map mask (outPk rv) = map enc Cs /\ get_pseudo_outs rv = map enc Ps /\ psum Ps ≃ smul (txnFee rv) H_point ⊕ psum Cs.

Lemma sum_check_points (rv : rctSig) Cs Ps : 0 <= txnFee rv < 2 ^ 64 -> map mask (outPk rv) = map enc Cs -> get_pseudo_outs rv = map enc Ps ->
  sum_check rv = ret (equalKeys (enc (psum Ps)) (enc (smul (txnFee rv) H_point ⊕ psum Cs))).
Proof.
  intros Hf EC EP. unfold sum_check. rewrite scalarmultH_amount, EC, addKeysV_ok by done. do 2 ebind. rewrite addKeys_ok. ebind.
  rewrite EP, addKeysV_ok. by ebind.
Qed.

Lemma sum_check_exact rv : sum_bytes rv -> sum_check rv = ret true <-> exists Cs Ps, balanced rv Cs Ps.
Proof.
  intros [Ho Hp Hf]. split.
  - intros E. pose proof E as E0. unfold sum_check in E. apply ebind_ret_inv in E as (s1 & E1 & E). apply ebind_ret_inv in E as (fk & _ & E).
    apply ebind_ret_inv in E as (s2 & _ & E). apply ebind_ret_inv in E as (s3 & E3 & _).
    apply addKeysV_inv in E1 as [Cs EC]; [| by apply Forall_map]. apply addKeysV_inv in E3 as [Ps EP]; [| done]. exists Cs, Ps.
    split; [done |]. split; [done |]. rewrite (sum_check_points rv Cs Ps) in E0 by done. apply equal_enc. by injection E0.
  - intros (Cs & Ps & EC & EP & E). rewrite (sum_check_points rv Cs Ps) by done. by rewrite (proj2 (equal_enc _ _) E).
Qed.

Lemma sum_checks_inv rvv rv : sum_checks rvv = ret true -> rv ∈ rvv -> sum_check rv = ret true.
Proof.
  induction rvv as [| r rvv IH]; intros E Hr; [by apply not_elem_of_nil in Hr |]. cbn [sum_checks] in E.
  apply ebind_ret_inv in E as ([] & E1 & E); [| discriminate]. cbn [negb] in E. apply elem_of_cons in Hr as [-> | Hr]; [done | by apply IH].
Qed.

Lemma semantics_inv st rvv tape : verRctSemanticsSimple st rvv tape = Some true -> forallb semantics_sizes rvv = true /\ sum_checks rvv = ret true.
Proof.
  intros E%catch_true. apply require_inv in E as [E1 E]. apply ebind_ret_inv in E as (b & E2 & E). apply require_inv in E as [-> _]. done.
Qed.

(** ** Openings *)

(** Sums of masks and of amounts. *)
Definition zsums (l : list Z) : Z := foldr Z.add 0 l.

Lemma psum_pedersen l : psum (map (fun o => pedersen o.1 o.2) l) ≃ pedersen (zsums (map fst l)) (zsums (map snd l)).
Proof.
  induction l as [| [a v] l IH]; [symmetry; exact pedersen_0 |]. cbn [map psum foldr fst snd zsums]. fold (psum (map (fun o => pedersen o.1 o.2) l)). 
  rewrite IH, pedersen_add. reflexivity.
Qed.

Lemma psum_opened l Ps : map (fun o => enc (pedersen o.1 o.2)) l = map enc Ps -> psum Ps ≃ pedersen (zsums (map fst l)) (zsums (map snd l)).
Proof.
  intros E. rewrite <- psum_pedersen. revert Ps E. induction l as [| o l IH]; intros [| P Ps] E; try discriminate E; [done |].
  cbn [map] in E. apply (inj2 cons) in E as [E1 E2]. cbn [map psum foldr]. fold (psum Ps) (psum (map (fun o : Z * Z => pedersen o.1 o.2) l)).
  rewrite (IH Ps E2). apply enc_eq in E1. by rewrite E1.
Qed.

Lemma zsums_bound l B : 0 <= B -> Forall (fun v => 0 <= v < B) l -> 0 <= zsums l <= Z.of_nat (length l) * B.
Proof. intros HB H. induction H as [| v l Hv _ IH]; [simpl; lia |]. cbn [zsums foldr length] in *. fold (zsums l) in *. lia. Qed.

Lemma fee_pedersen a fee b : smul fee H_point ⊕ pedersen a b ≃ pedersen a (b + fee).
Proof. unfold pedersen. glin. Qed.

(** Two openings of the same commitment, with different amounts, give the logarithm of [H]. *)
Lemma opening_log a v b w : pedersen a v ≃ pedersen b w -> (v - w) mod ell <> 0 -> H_point ≃ smul ((b - a) * einv (v - w)) base_point.
Proof.
  intros E Hn. assert (E1 : smul (v - w) H_point ≃ smul (b - a) base_point).
  { transitivity (pedersen a v ⊕ gopp (pedersen a w)); [unfold pedersen; glin |]. rewrite E. unfold pedersen. glin. }
  rewrite <- (smul_1 H_point), <- (smul_eqm ((v - w) * einv (v - w)) 1 H_point H_prime (einv_ok _ Hn)).
  rewrite Z.mul_comm, smul_mul, E1, <- smul_mul. by rewrite Z.mul_comm.
Qed.

(** ** The outputs *)

Lemma psum_zip ws vs : length ws = length vs -> psum (zip_with pedersen ws vs) ≃ pedersen (zsums ws) (zsums vs).
Proof.
  revert vs. induction ws as [| w ws IH]; intros [| v vs] L; try discriminate L; [symmetry; exact pedersen_0 |]. injection L as L.
  cbn [zip_with psum foldr zsums]. fold (psum (zip_with pedersen ws vs)) (zsums ws) (zsums vs). by rewrite (IH vs L), pedersen_add.
Qed.

Lemma masks_ok ks : Forall (is_bytes 32) ks -> mapM genCommitmentMask ks = Some (map sbytes (map derived_mask ks)).
Proof. intros H. induction H as [| k ks Hk _ IH]; [done |]. cbn [mapM map]. rewrite genCommitmentMask_ok by done. bind. rewrite IH. by bind. Qed.

Lemma scalarmult8_all_ok Ps : scalarmult8_all (map enc Ps) = ret (map enc (map (smul 8) Ps)).
Proof. induction Ps as [| P Ps IH]; [done |]. cbn [map scalarmult8_all]. rewrite scalarmult8_ok. ebind. rewrite IH. by ebind. Qed.

Lemma eight_V vs gs : length vs = length gs ->
  map enc (map (smul 8) (p_V (length vs) (fun j => nth j vs 0) (fun j => nth j gs 0))) = map enc (zip_with pedersen gs vs).
Proof.
  unfold p_V. revert gs. induction vs as [| v vs IH]; intros [| g gs] L; try discriminate L; [done |]. injection L as L.
  cbn [length seq map nth zip_with]. f_equal.
  - apply enc_eq. rewrite <- smul_mul, (smul_eqm _ 1 _ (order_pedersen _ _) inv8_ok). apply smul_1.
  - rewrite <- (IH gs L). by rewrite <- seq_shift, !map_map.
Qed.

Lemma lxor_byte a b : is_byte a -> is_byte b -> is_byte (Z.lxor a b).
Proof.
  unfold is_byte. change 256 with (2 ^ 8). intros [Ha Ha'] [Hb Hb']. split; [by apply Z.lxor_nonneg |].
  destruct (Z.eq_dec (Z.lxor a b) 0) as [-> | N]; [done |]. assert (0 <= Z.lxor a b) by (by apply Z.lxor_nonneg).
  apply Z.log2_lt_pow2; [lia |]. pose proof (Z.log2_lxor a b Ha Hb).
  assert (B : forall x, 0 <= x < 2 ^ 8 -> Z.log2 x < 8).
  { intros x Hx. destruct (Z.eq_dec x 0) as [-> | Nx]; [done |]. apply Z.log2_lt_pow2; lia. }
  pose proof (B a (conj Ha Ha')). pose proof (B b (conj Hb Hb')). lia.
Qed.

Lemma xor8_bytes v k : is_bytes 32 v -> is_bytes 32 k -> is_bytes 32 (xor8 v k).
Proof.
  intros [Lv Bv] [Lk Bk]. split; [rewrite xor8_length by lia; done |]. apply Forall_app. split; [| by apply Forall_drop].
  apply (Forall_take _ 8) in Bv, Bk. revert Bk. generalize (take 8 k). induction Bv as [| a l Ha _ IH]; intros m Hm; [constructor |].
  destruct Hm as [| b m Hb Hm]; [constructor |]. cbn [zip_with]. constructor; [by apply lxor_byte | by apply IH].
Qed.

(** A masked amount: it can be saved, and the holder of the secret recovers it. *)
Definition masks_amount (a : Z) (k : key) (t : ecdhTuple) : Prop :=
  is_bytes 32 (ecdh_amount t) /\ ecdhDecode t k true = Some (mk_ecdh (sbytes (derived_mask k)) (d2h a)).

Lemma encode_ok m a k : 0 <= a < 2 ^ 64 -> is_bytes 32 k -> exists t, ecdhEncode (mk_ecdh m (d2h a)) k true = Some t /\ masks_amount a k t.
Proof.
  intros Ha B. destruct (ecdhHash_ok k B) as (h & Eh & Hh). destruct (d2h_val a Ha) as [Hd _]. unfold ecdhEncode, masks_amount, ecdhDecode. rewrite Eh. bind.
  eexists. split; [reflexivity |]. cbn [ecdh_amount]. split; [by apply xor8_bytes |]. rewrite genCommitmentMask_ok by done. do 2 bind.
  rewrite xor8_involutive; [done | rewrite (proj1 Hd); lia | rewrite (proj1 Hh); lia].
Qed.

Lemma encode_amounts_ok ms vs ks : length ms = length vs -> length ks = length vs -> Forall (fun v => 0 <= v < 2 ^ 64) vs -> Forall (is_bytes 32) ks ->
  exists l, encode_amounts true ms vs ks = Some l /\ Forall2 (fun vk t => masks_amount vk.1 vk.2 t) (zip vs ks) l.
Proof.
  revert vs ks. induction ms as [| m ms IH]; intros [| v vs] [| k ks] L1 L2 Hv Hk; try discriminate; [by exists [] |].
  injection L1 as L1. injection L2 as L2. apply Forall_cons_iff in Hv as [Hv Hvs]. apply Forall_cons_iff in Hk as [Hk Hks].
  destruct (encode_ok m v k Hv Hk) as (t & Et & Ht). destruct (IH vs ks L1 L2 Hvs Hks) as (l & El & Hl).
  exists (t :: l). cbn [encode_amounts zip_with]. rewrite Et. bind. rewrite El. bind. split; [done |]. by constructor.
Qed.

Lemma sum_scalars_ok acc ws : exists r, sum_scalars (sbytes acc) (map sbytes ws) = Some (sbytes r) /\ r = acc + zsums ws.
Proof.
  revert acc. induction ws as [| w ws IH]; intros acc; [exists acc; split; [done | cbn; lia] |]. cbn [map sum_scalars]. rewrite add_sbytes. bind.
  destruct (IH (w + acc)) as (r & E & Er). exists r. split; [exact E |]. rewrite Er. cbn [zsums foldr]. fold (zsums ws). lia.
Qed.

Lemma opened_sbytes x y : addKeys2 (sbytes x) (sbytes y) key_H = ret (enc (pedersen x y)).
Proof.
  rewrite key_H_enc, addKeys2_ok by apply sbytes_ok. rewrite !sbytes_val. apply (f_equal Some), (f_equal Some), enc_eq. rewrite gadd_comm.
  apply (pedersen_mod (x mod ell) (y mod ell)); by rewrite Z.mod_mod.
Qed.

Lemma opened_H x v : 0 <= v < 2 ^ 64 -> addKeys2 (sbytes x) (d2h v) key_H = ret (enc (pedersen x v)).
Proof. intros Hv. rewrite d2h_sbytes by done. apply opened_sbytes. Qed.

Lemma decode_output_ok (rv : rctSig) i v k t o : short_amounts (type rv) = true -> 0 <= v < 2 ^ 64 -> length (outPk rv) = length (ecdhInfo rv) ->
  ecdhInfo rv !! i = Some t -> outPk rv !! i = Some o -> masks_amount v k t -> mask o = enc (pedersen (derived_mask k) v) ->
  decode_output rv k i = ret (v, sbytes (derived_mask k)).
Proof.
  intros Hs Hv L Et Eo [_ Ed] Em. unfold decode_output. rewrite Hs, L, Nat.eqb_refl, (proj2 (Nat.ltb_lt _ _)), check_true by exact (lookup_lt_Some _ _ _ Et).
  do 2 ebind. rewrite Et. ebind. rewrite Eo. ebind. rewrite Ed. ebind. cbn [ecdh_mask ecdh_amount].
  assert (Ca : sc_check (d2h v) = 0) by (rewrite d2h_sbytes by exact Hv; apply sc_check_sbytes). rewrite sc_check_sbytes, Ca, Z.eqb_refl, check_true. do 2 ebind.
  rewrite opened_H by done. ebind.
  rewrite Em, (proj2 (equal_enc (pedersen (derived_mask k) v) _) (reflexivity _)), check_true. ebind. by rewrite h2d_d2h.
Qed.

(** ** The pseudo outputs *)

Lemma pseudo_loop_ok v vs A B tape k : Forall (fun v => 0 <= v < 2 ^ 64) (v :: vs) -> has_scalars (length vs + k) tape ->
  exists ws tape', length ws = length (v :: vs) /\ zsums ws = A - B /\ has_scalars k tape' /\
    pseudo_loop (v :: vs) (sbytes A) (sbytes B) tape = ret (map sbytes ws, map enc (zip_with pedersen ws (v :: vs)), tape').
Proof.
  revert v B tape. induction vs as [| u vs IH]; intros v B tape Hv Ht.
  - exists [A - B], tape. split; [done |]. split; [cbn; lia |]. split; [done |]. cbn [pseudo_loop]. rewrite sub_sbytes. ebind.
    rewrite genC_sbytes by (by apply (proj1 (Forall_cons_iff _ _ _) Hv)). by ebind.
  - apply Forall_cons_iff in Hv as [Hv Hvs]. destruct (draw_scalar _ _ Ht) as (r & t & Er & _ & Hr).
    destruct (IH u (r + B) t Hvs Hr) as (ws & t' & L & S & H' & E). exists (r :: ws), t'. split; [cbn [length] in *; lia |].
    split; [cbn [zsums foldr]; fold (zsums ws); lia |]. split; [exact H' |].
    change (pseudo_loop (v :: u :: vs) (sbytes A) (sbytes B) tape) with ('(a, tape) <~ call (skGen tape); s <~ call (sc_add a (sbytes B));
      P <~ genC a v; '(l, Ps, tape) <~ pseudo_loop (u :: vs) (sbytes A) s tape; ret (a :: l, P :: Ps, tape)).
    rewrite Er. ebind. rewrite add_sbytes. ebind. rewrite genC_sbytes by done. ebind. rewrite E. by ebind.
Qed.

(** ** The message *)

Lemma wire_keys d : Forall (Forall is_byte) (bulletproof_keys (wire d)).
Proof.
  unfold bulletproof_keys, wire. cbn [bp_A bp_S bp_T1 bp_T2 bp_taux bp_mu bp_L bp_R bp_a bp_b bp_t]. rewrite !Forall_app. split; [| split; [| split]].
  - do 4 (constructor; [apply enc_bytes |]). do 2 (constructor; [apply sbytes_bytes |]). constructor.
  - apply Forall_map, Forall_true. intros P. apply enc_bytes.
  - apply Forall_map, Forall_true. intros P. apply enc_bytes.
  - do 3 (constructor; [apply sbytes_bytes |]). constructor.
Qed.

Lemma prehash_ok (rv : rctSig) ds : is_rct_simple (type rv) = true -> is_rct_bulletproof (type rv) = true -> mixRing rv <> [] -> is_bytes 32 (message rv) ->
  bulletproofs (p rv) = map wire ds -> base_ok (length (mixRing rv)) (length (ecdhInfo rv)) rv -> exists h, get_pre_mlsag_hash rv = ret h /\ is_bytes 32 h.
Proof.
  intros Hs Hb Hr Hm Hp Ho. unfold get_pre_mlsag_hash. destruct (mixRing rv) as [| r0 rs] eqn:Er; [done |]. rewrite Hs.
  destruct (base_codec _ _ (base rv) Ho) as (b & _ & [Ts _ Bb]). rewrite Ts. cbn [app]. rewrite (proj1 (cn_fast_hash_ok b Bb)). ebind. rewrite Hb, Hp.
  assert (K : Forall (Forall is_byte) (concat (map bulletproof_keys (map wire ds)))).
  { apply Forall_concat, Forall_map, Forall_map, Forall_true. intros d. apply wire_keys. }
  rewrite (cn_fast_hashV_ok _ K). ebind. unfold mlsag_prehash. eexists. split.
  - rewrite cn_fast_hashV_ok; [by rewrite call_Some |]. constructor; [apply Hm |]. constructor; [by apply keccak_bytes |].
    constructor; [| constructor]. apply keccak_bytes. by apply Forall_concat.
  - apply keccak_bytes. cbn [concat]. rewrite !Forall_app. split; [apply Hm |]. split; [by apply keccak_bytes |]. split; [| constructor].
    apply keccak_bytes. by apply Forall_concat.
Qed.

(** ** The inputs *)

(** An output that is spent: its place in a ring, its secret key, and the opening of its commitment. *)
Record spend := mk_spend {
  sp_before : list ring_member; sp_own : ring_member; sp_after : list ring_member; sp_x : Z; sp_y : Z; sp_v : Z }.

Definition sp_ring (s : spend) : list ring_member := sp_before s ++ sp_own s :: sp_after s.
Definition sp_pubs (s : spend) : list ctkey := map pubkey (sp_ring s).
Definition sp_sk (s : spend) : ctkey := mk_ctkey (sbytes (sp_x s)) (sbytes (sp_y s)).
Definition sp_index (s : spend) : nat := length (sp_before s).

Record spendable (s : spend) : Prop := {
  sp_hashed : Forall hashed (sp_ring s);
  sp_owned : mP (sp_own s) ≃ smul (sp_x s) base_point;
  sp_opened : mC (sp_own s) ≃ pedersen (sp_y s) (sp_v s);
  sp_amount : 0 <= sp_v s < 2 ^ 64 }.

Definition ring_sizes (l : list spend) : nat := foldr (fun s n => length (sp_ring s) + n)%nat 0%nat l.

(** The signature of a spend, whose pseudo output has the mask [sg_w]. *)
Record signed := mk_signed { sg_sp : spend; sg_w : Z; sg_ss : list Z; sg_c1 : Z; sg_KI : point; sg_D8 : point }.

Definition sig_of (g : signed) : clsag := mk_clsag (map sbytes (sg_ss g)) (sbytes (sg_c1 g)) (enc (sg_KI g)) (enc (sg_D8 g)).
Definition sg_pseudo (g : signed) : point := pedersen (sg_w g) (sp_v (sg_sp g)).

(** It is not degenerate. *)
Definition regular_input (message : key) (g : signed) : bool :=
  regular message (sp_before (sg_sp g)) (sp_after (sg_sp g)) (sp_own (sg_sp g)) (sg_pseudo g) (sg_ss g) (sg_c1 g) (sg_KI g) (sg_D8 g).

Definition signed_ok (message : key) (g : signed) : Prop :=
  sg_KI g ≃ smul (sp_x (sg_sp g)) (mH (sp_own (sg_sp g))) /\
  verRctCLSAGSimple message (sig_of g) (sp_pubs (sg_sp g)) (enc (sg_pseudo g)) = Some (regular_input message g).

Lemma sign_clsags_ok message sps ws tape k : is_bytes 32 message -> Forall spendable sps -> length ws = length sps -> has_scalars (ring_sizes sps + k) tape ->
  exists sigs cs mus tape', map sg_sp sigs = sps /\ map sg_w sigs = ws /\ Forall (signed_ok message) sigs /\
    sign_clsags message false (inputs_of (map sp_pubs sps) (map sp_sk sps) (map sbytes ws) (map enc (zip_with pedersen ws (map sp_v sps))) None (map sp_index sps)) tape =
    ret (map sig_of sigs, cs, mus, tape').
Proof.
  intros Hm Hs. revert ws tape. induction Hs as [| s sps [H1 H2 H3 H4] _ IH]; intros [| w ws] tape L Ht; try discriminate L; [by exists [], [], [], tape |].
  injection L as L. cbn [ring_sizes foldr] in Ht. fold (ring_sizes sps) in Ht. rewrite <- Nat.add_assoc in Ht.
  destruct (own_accepted message (sp_before s) (sp_own s) (sp_after s) (pedersen w (sp_v s)) (sp_x s) (sp_y s) w (sp_v s) tape _ Hm H1 H2 H3 (reflexivity _) Ht)
    as (ss & c1 & KI & D8 & c & mu_p & rest & E & HK & _ & V & Hr).
  destruct (IH ws rest L Hr) as (sigs & cs & mus & t' & <- & <- & Hg & Eg). exists (mk_signed s w ss c1 KI D8 :: sigs), (c :: cs), (mu_p :: mus), t'.
  split; [done |]. split; [done |]. split; [constructor; [by split | done] |].
  cbn [map zip_with inputs_of sign_clsags in_ring in_sk in_a in_pseudo in_kLRki in_index mbind option_bind]. unfold sp_pubs at 1, sp_sk at 1, sp_index at 1, sp_ring at 1.
  rewrite E. ebind. rewrite Eg. by ebind.
Qed.

Lemma all_true_seq {A} (f : nat -> option bool) (r : A -> bool) l k : (forall i x, l !! i = Some x -> f (k + i)%nat = Some (r x)) ->
  all_true f (seq k (length l)) = Some (forallb r l).
Proof.
  revert k. induction l as [| x l IH]; intros k H; [done |]. cbn [length seq all_true forallb].
  rewrite <- (Nat.add_0_r k) at 1. rewrite (H 0%nat x eq_refl). bind. rewrite (IH (S k)); [by bind |].
  intros i y Hi. rewrite Nat.add_succ_comm. by apply (H (S i)).
Qed.

(** ** The proofs *)

Lemma find_logM_tight n k : (1 <= n <= maxM)%nat -> find_logM 6 0 n = Some k -> (n <= 2 ^ k /\ 2 ^ k < n * 2 /\ k <= 4)%nat.
Proof.
  unfold maxM. intros H E. do 17 (destruct n as [| n]; [first [lia | vm_compute in E; injection E as <-; vm_compute; lia] |]). lia.
Qed.

Lemma n_amounts_made G H vs logM d : (1 <= length vs <= maxM)%nat -> find_logM 6 0 (length vs) = Some logM -> made G H logM vs d ->
  n_bulletproof_amountsV [wire d] = Z.of_nat (length vs).
Proof.
  intros Hn HM (_ & _ & _ & LV & LL & LR). destruct (find_logM_tight _ _ Hn HM) as (B1 & B2 & B3). unfold maxM in Hn.
  unfold n_bulletproof_amountsV, sum_amounts, n_bulletproof_amounts, rounds_ok, extra_bits, wire. cbn [bp_L bp_R bp_V].
  rewrite !length_map, LV, LL, LR, Nat.add_sub, Nat.eqb_refl. rewrite !(proj2 (Nat.leb_le _ _)), !(proj2 (Nat.ltb_lt _ _)) by lia. cbn [andb].
  change (u64 (0xffffffff - 0)) with 0xffffffff. rewrite (proj2 (Z.ltb_lt _ _)), (proj2 (Z.eqb_neq _ _)) by lia. cbn [negb]. apply wrap_small. lia.
Qed.

Lemma prove_batch_ok st e G H p3 vs ks logM n tape rs d : init_exponents st = ret e -> initialised e G H ->
  Forall (fun a => 0 <= a < 2 ^ 64) vs -> length ks = length vs -> Forall (is_bytes 32) ks -> (1 <= length vs <= maxM)%nat -> find_logM 6 0 (length vs) = Some logM ->
  yields_scalars tape rs -> (n * (2 * (2 ^ logM * maxN) + 4) <= length rs)%nat -> attempts G H logM vs (map derived_mask ks) n rs = Some d ->
  let gs := map derived_mask ks in
  exists tape', prove_batch false st p3 vs ks tape = ret (wire d, map enc (zip_with pedersen gs vs), map sbytes gs, Some e, tape') /\
    has_scalars (length rs - n * (2 * (2 ^ logM * maxN) + 4)) tape' /\ made G H logM vs d.
Proof.
  intros Est He Hv Lk Hk Hn HM Ht HN Ha gs. assert (Lg : length vs = length gs) by (unfold gs; by rewrite length_map).
  destruct (PROVE_amounts_ok st e G H Est He vs gs Hv Lg Hn logM HM n p3 tape rs d Ht HN Ha) as (t & E & Hs).
  pose proof (logM_bounds vs Hn logM HM) as B. destruct (attempts_made e G H He logM (proj2 B) vs gs Hv Lg (proj1 B) n rs d Ha) as [Md EV].
  exists t. split; [| by split]. unfold prove_batch, proveRangeBulletproof. rewrite Lk, Nat.eqb_refl, check_true. ebind. rewrite masks_ok by done. ebind. fold gs.
  rewrite E. ebind. cbn [wire bp_V]. rewrite length_map, EV. unfold p_V at 1. rewrite length_map, length_seq, Nat.eqb_refl, check_true. do 3 ebind.
  rewrite scalarmult8_all_ok. ebind. by rewrite eight_V.
Qed.

(** ** Batches *)

Lemma dummy_commitment_ok a : 0 <= a < 2 ^ 64 -> dummy_commitment a = ret (enc (pedersen inv8 (a * inv8))).
Proof. intros Ha. unfold dummy_commitment. rewrite amount_bytes by done. rewrite inv8_sbytes, mul_sbytes. ebind. apply opened_sbytes. Qed.

Lemma dummy_commitments_ok vs : Forall (fun a => 0 <= a < 2 ^ 64) vs -> dummy_commitments vs = ret (map enc (map (fun a => pedersen inv8 (a * inv8)) vs)).
Proof. intros H. induction H as [| a vs Ha _ IH]; [done |]. cbn [dummy_commitments map]. rewrite dummy_commitment_ok by done. ebind. rewrite IH. by ebind. Qed.

Lemma dummy_eight vs : map enc (map (smul 8) (map (fun a => pedersen inv8 (a * inv8)) vs)) = map (fun a => enc (pedersen 1 a)) vs.
Proof.
  induction vs as [| a vs IH]; [done |]. cbn [map]. rewrite IH. apply (f_equal2 cons); [| reflexivity]. apply enc_eq. transitivity (smul (8 * inv8) (pedersen 1 a)); [unfold pedersen; glin |].
  rewrite (smul_eqm _ 1 _ (order_pedersen _ _) inv8_ok). apply smul_1.
Qed.

(** A batch of [2 ^ k] amounts for a device that only simulates. *)
Lemma dummy_batch_ok st p3 vs keys tape k : Forall (fun a => 0 <= a < 2 ^ 64) vs -> length vs = (2 ^ k)%nat -> (k <= 4)%nat ->
  exists bp, prove_batch true st p3 vs keys tape = ret (bp, map (fun a => enc (pedersen 1 a)) vs, replicate (length vs) identity, st, tape) /\
    n_bulletproof_amounts bp = length vs.
Proof.
  intros Hv L Hk. unfold prove_batch, make_dummy_bulletproof. rewrite dummy_commitments_ok by done.
  assert (N : nrl_loop 32 0 (length vs) = Some k) by (rewrite L; do 5 (destruct k as [| k]; [reflexivity |]); lia). rewrite N. do 4 ebind.
  rewrite scalarmult8_all_ok. ebind. rewrite dummy_eight. eexists. split; [reflexivity |].
  unfold n_bulletproof_amounts, rounds_ok, extra_bits. cbn [bp_L bp_R bp_V]. rewrite !length_replicate, Nat.add_sub, L, Nat.eqb_refl.
  assert (0 < 2 ^ k)%nat by (pose proof (Nat.pow_nonzero 2 k); lia). by rewrite !(proj2 (Nat.leb_le _ _)), !(proj2 (Nat.ltb_lt _ _)) by lia.
Qed.

(** The size of the next batch. *)
Lemma batch_size_ok (multi : bool) n : (1 <= n)%nat -> exists k, (if multi then batch_loop 5 1 n else Some 1%nat) = Some (2 ^ k)%nat /\ (k <= 4 /\ 1 <= 2 ^ k <= n)%nat.
Proof.
  intros Hn. destruct multi; [| exists 0%nat; split; [done | cbn; lia]]. unfold BULLETPROOF_MAX_OUTPUTS. cbn [batch_loop Nat.mul Nat.add].
  destruct (2 <=? n)%nat eqn:E1; [| exists 0%nat; split; [done | cbn; lia]]. destruct (4 <=? n)%nat eqn:E2; [| exists 1%nat; apply Nat.leb_le in E1; split; [done | cbn; lia]].
  destruct (8 <=? n)%nat eqn:E3; [| exists 2%nat; apply Nat.leb_le in E2; split; [done | cbn; lia]].
  destruct (16 <=? n)%nat eqn:E4; [| exists 3%nat; apply Nat.leb_le in E3; split; [done | cbn; lia]].
  exists 4%nat. apply Nat.leb_le in E4. destruct (32 <=? n)%nat; (split; [done | cbn; lia]).
Qed.

Lemma batches_fuel multi fake p3 fuel st vs keys tape : (length vs <= fuel)%nat ->
  prove_batches fuel multi fake st p3 vs keys tape = prove_batches (length vs) multi fake st p3 vs keys tape.
Proof.
  assert (G : forall f g st vs keys tape, (length vs <= f)%nat -> (length vs <= g)%nat ->
    prove_batches f multi fake st p3 vs keys tape = prove_batches g multi fake st p3 vs keys tape); [| intros H; by apply G].
  clear. induction f as [| f IH]; intros g st vs keys tape Hf Hg; (destruct vs as [| v vs]; [by destruct g |]); [simpl in Hf; lia |].
  destruct g as [| g]; [simpl in Hg; lia |]. cbn [prove_batches]. destruct (batch_size_ok multi (length (v :: vs)) ltac:(simpl; lia)) as (k & -> & _ & B). do 2 ebind.
  destruct (prove_batch _ _ _ _ _ _) as [[[[[[bp out] ms] st'] t] |] |]; [| by rewrite !ebind_throw | reflexivity]. rewrite !ebind_ret. cbv beta iota.
  rewrite (IH g); [done | rewrite length_drop; lia ..].
Qed.

Lemma sum_amounts_app n proofs : 0 <= n -> Forall (fun q => (0 < n_bulletproof_amounts q)%nat) proofs ->
  n + zsums (map (fun q => Z.of_nat (n_bulletproof_amounts q)) proofs) < 0xffffffff ->
  sum_amounts n_bulletproof_amounts n proofs = n + zsums (map (fun q => Z.of_nat (n_bulletproof_amounts q)) proofs).
Proof.
  intros Hn H. revert n Hn. induction H as [| q proofs Hq H IH]; intros n Hn Hs; cbn [map zsums foldr sum_amounts] in *; [lia |].
  fold (zsums (map (fun q => Z.of_nat (n_bulletproof_amounts q)) proofs)) in *.
  assert (0 <= zsums (map (fun q => Z.of_nat (n_bulletproof_amounts q)) proofs)) by (clear; induction proofs; cbn [map zsums foldr]; [lia |]; fold zsums in *; unfold zsums in *; lia).
  rewrite (wrap_small 64 (_ - n)), (proj2 (Z.ltb_lt _ _)), (proj2 (Z.eqb_neq _ _)) by lia. cbn [negb]. rewrite wrap_small, IH by lia. lia.
Qed.

Lemma dummy_batches_ok multi p3 fuel st vs keys tape : Forall (fun a => 0 <= a < 2 ^ 64) vs -> (length vs <= fuel)%nat ->
  exists proofs, prove_batches fuel multi true st p3 vs keys tape = ret (proofs, map (fun a => enc (pedersen 1 a)) vs, replicate (length vs) identity, st, tape) /\
    Forall (fun q => (0 < n_bulletproof_amounts q)%nat) proofs /\ zsums (map (fun q => Z.of_nat (n_bulletproof_amounts q)) proofs) = Z.of_nat (length vs).
Proof.
  revert vs keys. induction fuel as [| fuel IH]; intros vs keys Hv Hf; (destruct vs as [| v vs]; [by exists [] |]); [simpl in Hf; lia |].
  cbn [prove_batches]. set (l := v :: vs) in *. assert (Hl : (1 <= length l)%nat) by (simpl; lia). destruct (batch_size_ok multi (length l) Hl) as (k & -> & Hk & B). ebind.
  assert (Lt : length (take (2 ^ k) l) = (2 ^ k)%nat) by (rewrite length_take; lia).
  destruct (dummy_batch_ok st p3 (take (2 ^ k) l) (take (2 ^ k) keys) tape k) as (bp & E & Nb); [by apply Forall_take | done | done |]. rewrite E. ebind.
  destruct (IH (drop (2 ^ k) l) (drop (2 ^ k) keys)) as (proofs & E' & Fp & Sp); [by apply Forall_drop | rewrite length_drop; lia |]. rewrite E'. ebind.
  exists (bp :: proofs). split; [| split].
  - rewrite <- map_app, <- replicate_add, <- length_app, take_drop. reflexivity.
  - constructor; [rewrite Nb; lia | done].
  - cbn [map zsums foldr]. fold (zsums (map (fun q => Z.of_nat (n_bulletproof_amounts q)) proofs)). rewrite Nb, Sp, Lt, length_drop. lia.
Qed.

(** ** A signature that is generated *)

Section Honest.
Context (msg : key) (msg_bytes : is_bytes 32 msg) (sps : list spend) (sps_nonempty : sps <> []) (sps_ok : Forall spendable sps).
Context (dests : keyV) (vs : list Z) (ks : keyV) (dests_length : length dests = length vs) (ks_length : length ks = length vs).
Context (vs_range : Forall (fun a => 0 <= a < 2 ^ 64) vs) (ks_bytes : Forall (is_bytes 32) ks) (fee : Z) (fee_range : 0 <= fee < 2 ^ 64).

Abbreviation gs := (map derived_mask ks).
Abbreviation out_points := (zip_with pedersen gs vs).

Lemma gs_length : length gs = length vs.
Proof. by rewrite length_map. Qed.

Definition made_base (ecdh : list ecdhTuple) : rctSigBase :=
  mk_base RCTTypeCLSAG msg (map sp_pubs sps) [] ecdh (zip_with mk_ctkey dests (map enc out_points)) fee.

Definition made_sig (ecdh : list ecdhTuple) (d : dproof) (ws : list Z) (sigs : list signed) : rctSig :=
  mk_rctSig (made_base ecdh) (mk_prunable [] [wire d] [] (map sig_of sigs) (map enc (zip_with pedersen ws (map sp_v sps)))).

(** The masked amounts. *)
Definition ecdh_for (ecdh : list ecdhTuple) : Prop := Forall2 (fun vk t => masks_amount vk.1 vk.2 t) (zip vs ks) ecdh.

Lemma ecdh_length ecdh : ecdh_for ecdh -> length ecdh = length vs.
Proof. intros E%Forall2_length. rewrite length_zip_with in E. lia. Qed.

Lemma out_masks : map mask (zip_with mk_ctkey dests (map enc out_points)) = map enc out_points.
Proof.
  assert (L : length dests = length (map enc out_points)) by (rewrite length_map, length_zip_with, gs_length; lia). revert L.
  generalize (map enc out_points). generalize dests as ds. induction ds as [| x ds IH]; intros [| k l] L; try discriminate L; [done |]. injection L as L.
  cbn [zip_with map mask]. by rewrite IH.
Qed.

Lemma outs_length : length (zip_with mk_ctkey dests (map enc out_points)) = length vs.
Proof. rewrite length_zip_with, length_map, length_zip_with, gs_length. lia. Qed.

Lemma made_base_ok ecdh : ecdh_for ecdh -> base_ok (length (map sp_pubs sps)) (length ecdh) (made_base ecdh).
Proof.
  intros He. split; cbn [made_base type txnFee pseudoOuts ecdhInfo outPk].
  - unfold known. tauto.
  - done.
  - discriminate.
  - split; [done |]. clear - He. unfold ecdh_for in He. induction He as [| vk t l ts [Ht _] _ IH]; constructor; [| done]. split; [done | discriminate].
  - split; [rewrite (ecdh_length ecdh He); exact outs_length |]. apply (Forall_map mask (is_bytes 32)). rewrite out_masks.
    apply Forall_map, Forall_true. intros P. apply enc_bytes.
Qed.

Lemma made_prehash ecdh d ws : ecdh_for ecdh -> exists h, is_bytes 32 h /\ forall sigs, get_pre_mlsag_hash (made_sig ecdh d ws sigs) = ret h.
Proof.
  intros He. destruct (prehash_ok (made_sig ecdh d ws []) [d] eq_refl eq_refl) as (h & E & B).
  - cbn [made_sig base made_base mixRing]. by destruct sps.
  - exact msg_bytes.
  - done.
  - exact (made_base_ok ecdh He).
  - exists h. split; [exact B |]. intros sigs. exact E.
Qed.

Lemma indices_ok : forallb (fun '(i, ring) => i <? length ring)%nat (zip (map sp_index sps) (map sp_pubs sps)) = true.
Proof.
  clear. induction sps as [| s l IH]; [done |]. cbn [map zip_with forallb]. rewrite IH, andb_true_r. apply Nat.ltb_lt.
  unfold sp_index, sp_pubs, sp_ring. rewrite length_map, length_app. simpl. lia.
Qed.

Lemma spent_range : Forall (fun a => 0 <= a < 2 ^ 64) (map sp_v sps).
Proof. apply Forall_map. refine (List.Forall_impl _ _ sps_ok). intros s Hs. exact (sp_amount s Hs). Qed.

(** What the generator returns. *)
Record generated (h : key) (d : dproof) (rv : rctSig) (ws : list Z) (sigs : list signed) : Prop := {
  g_sig : exists ecdh, ecdh_for ecdh /\ rv = made_sig ecdh d ws sigs;
  g_hash : get_pre_mlsag_hash rv = ret h;
  g_masks : zsums ws = zsums gs;
  g_spent : map sg_sp sigs = sps;
  g_pseudo : map sg_w sigs = ws;
  g_signed : Forall (signed_ok h) sigs }.

Lemma gen_ok bp st e G H p3 logM n tape rs d outSk : bp = 0 \/ bp = 3 ->
  init_exponents st = ret e -> initialised e G H -> (1 <= length vs <= maxM)%nat -> find_logM 6 0 (length vs) = Some logM ->
  yields_scalars tape rs -> (n * (2 * (2 ^ logM * maxN) + 4) + (length sps - 1 + ring_sizes sps) <= length rs)%nat -> attempts G H logM vs gs n rs = Some d ->
  made G H logM vs d /\ exists h rv ws sigs tape', generated h d rv ws sigs /\
    genRctSimple msg (map sp_sk sps) dests (map sp_v sps) vs fee (map sp_pubs sps) ks None None (map sp_index sps) outSk
      (mk_config RangeProofPaddedBulletproof bp) false st p3 tape = ret (rv, None, put_masks outSk (map sbytes gs), Some e, tape').
Proof.
  intros Hbp Est He Hn HM Ht HN Ha.
  destruct (prove_batch_ok st e G H p3 vs ks logM n tape rs d Est He vs_range ks_length ks_bytes Hn HM Ht ltac:(lia) Ha) as (t1 & E1 & Hs1 & Md). split; [exact Md |].
  destruct (encode_amounts_ok (map sbytes gs) vs ks ltac:(by rewrite length_map, gs_length) ks_length vs_range ks_bytes) as (ecdh & E2 & He2).
  destruct (sum_scalars_ok 0 gs) as (A & E3 & EA). pose proof spent_range as Rs.
  assert (Sv : exists v l, map sp_v sps = v :: l /\ length l = (length sps - 1)%nat).
  { destruct sps as [| s l]; [done |]. exists (sp_v s), (map sp_v l). split; [done |]. rewrite length_map. simpl. lia. }
  destruct Sv as (v & l & Ev & Ll). rewrite Ev in Rs.
  destruct (pseudo_loop_ok v l A 0 t1 (ring_sizes sps) Rs) as (ws & t2 & Lw & Sw & Hs2 & E4). { destruct Hs1 as [B Hs1]. split; [exact B | lia]. }
  rewrite <- Ev in Lw, E4. rewrite length_map in Lw.
  destruct (made_prehash ecdh d ws He2) as (h & Bh & Eh). rewrite <- (Nat.add_0_r (ring_sizes sps)) in Hs2.
  destruct (sign_clsags_ok h sps ws t2 0 Bh sps_ok Lw Hs2) as (sigs & cs & mus & t3 & G1 & G2 & G3 & E5).
  exists h, (made_sig ecdh d ws sigs), ws, sigs, t3. split; [split; [by exists ecdh | apply Eh | lia | done ..] |].
  unfold genRctSimple. rewrite !length_map, dests_length, ks_length, !Nat.eqb_refl, indices_ok. rewrite (proj2 (Nat.ltb_lt _ _)) by (destruct sps; [done | simpl; lia]).
  cbn [negb]. rewrite !check_true. do 9 ebind. assert (Et : simple_type (mk_config RangeProofPaddedBulletproof bp) = ret RCTTypeCLSAG) by (by destruct Hbp as [-> | ->]). rewrite Et. ebind.
  unfold prove_outputs. cbn [range_proof_type]. rewrite ks_length, (proj2 (Nat.eqb_neq _ _)) by lia. cbn [negb andb]. rewrite E1. do 2 ebind.
  change zero with (sbytes 0). rewrite E3. ebind. change (short_amounts RCTTypeCLSAG) with true. rewrite E2. ebind. rewrite E4. ebind.
  change (is_rct_bulletproof RCTTypeCLSAG) with true. cbv iota. pose proof (Eh []) as Eh0. unfold made_sig, made_base in Eh0. cbn [map] in Eh0. rewrite Eh0. ebind.
  change (RCTTypeCLSAG =? RCTTypeCLSAG) with true. cbv iota. rewrite E5. do 2 ebind. reflexivity.
Qed.

Section Accepted.
Context (h : key) (d : dproof) (rv : rctSig) (ws : list Z) (sigs : list signed) (gen : generated h d rv ws sigs).

Lemma sigs_length : length ws = length sps /\ length sigs = length sps.
Proof. rewrite <- (g_pseudo _ _ _ _ _ gen), <- (g_spent _ _ _ _ _ gen), !length_map. done. Qed.

Lemma accepted_sums : zsums (map sp_v sps) = zsums vs + fee -> sum_check rv = ret true.
Proof.
  intros Hs. destruct sigs_length as [Lw _]. pose proof (g_masks _ _ _ _ _ gen) as Em. destruct (g_sig _ _ _ _ _ gen) as (ecdh & _ & E). rewrite E.
  rewrite (sum_check_points _ out_points (zip_with pedersen ws (map sp_v sps))); [| done | exact out_masks | done].
  do 2 apply f_equal. apply equal_enc. rewrite psum_zip by (by rewrite length_map). rewrite psum_zip by apply gs_length.
  cbn [made_sig base made_base txnFee]. by rewrite fee_pedersen, Hs, Em.
Qed.

Lemma accepted_sizes G H logM : (1 <= length vs <= maxM)%nat -> find_logM 6 0 (length vs) = Some logM -> made G H logM vs d -> semantics_sizes rv = true.
Proof.
  intros Hn HM Md. destruct sigs_length as [Lw Lg]. destruct (g_sig _ _ _ _ _ gen) as (ecdh & He & E). rewrite E. unfold semantics_sizes.
  cbn [made_sig base made_base type outPk p bulletproofs CLSAGs MGs p_pseudoOuts pseudoOuts ecdhInfo]. rewrite outs_length, (n_amounts_made G H vs logM d Hn HM Md), (ecdh_length _ He).
  rewrite !length_map, length_zip_with, length_map, Lw, Lg, Nat.min_id, Z.eqb_refl, !Nat.eqb_refl. reflexivity.
Qed.

Lemma accepted_semantics e G H logM vtape rs : initialised e G H -> (1 <= length vs <= maxM)%nat -> find_logM 6 0 (length vs) = Some logM -> made G H logM vs d ->
  zsums (map sp_v sps) = zsums vs + fee -> yields_scalars vtape rs -> (2 <= length rs)%nat -> verRctSemanticsSimple (Some e) [rv] vtape = Some true.
Proof.
  intros He Hn HM Md Hs Ht Hr. unfold verRctSemanticsSimple. cbn [forallb sum_checks map concat]. rewrite (accepted_sizes G H logM Hn HM Md), (accepted_sums Hs).
  cbn [andb require]. ebind. cbn [negb]. ebind. cbn [require]. destruct (g_sig _ _ _ _ _ gen) as (ecdh & _ & Erv). rewrite Erv.
  change (is_rct_bulletproof (type (made_sig ecdh d ws sigs))) with true. cbn [made_sig p bulletproofs app]. unfold verBulletproof.
  destruct (VERIFY_honest (Some e) e G H [d] vtape rs eq_refl He) as (t & E); [| done | cbn [length]; lia |].
  { constructor; [by apply (made_honest _ _ vs logM) | constructor]. }
  cbn [map] in E. rewrite E. ebind. rewrite catch_ret. ebind. cbn [require]. reflexivity.
Qed.

Lemma accepted_inputs : verRctNonSemanticsSimple rv = Some (forallb (regular_input h) sigs).
Proof.
  unfold verRctNonSemanticsSimple. rewrite (g_hash _ _ _ _ _ gen). destruct (g_sig _ _ _ _ _ gen) as (ecdh & _ & Erv). destruct sigs_length as [Lw Lg].
  assert (Em : mixRing rv = map sp_pubs (map sg_sp sigs)) by (rewrite Erv, (g_spent _ _ _ _ _ gen); done).
  assert (Ep : get_pseudo_outs rv = map (fun g => enc (sg_pseudo g)) sigs).
  { rewrite Erv. change (get_pseudo_outs (made_sig ecdh d ws sigs)) with (map enc (zip_with pedersen ws (map sp_v sps))).
    rewrite <- (g_pseudo _ _ _ _ _ gen), <- (g_spent _ _ _ _ _ gen). clear. induction sigs as [| g l IH]; [done |]. cbn [map zip_with]. by rewrite IH. }
  assert (Et : type rv = RCTTypeCLSAG) by (by rewrite Erv). assert (Ec : CLSAGs (p rv) = map sig_of sigs) by (by rewrite Erv).
  rewrite Ep, Em, Et, !length_map, Nat.eqb_refl. cbn [require is_rct_simple]. change (is_rct_simple RCTTypeCLSAG) with true. cbn [require]. ebind.
  rewrite (all_true_seq _ (regular_input h)); [by rewrite call_Some, catch_ret |]. intros i g Hi. cbn [Nat.add]. unfold ver_input.
  rewrite Em, Ep, Et, Ec, !list_lookup_fmap, Hi. cbn [fmap option_fmap option_map]. do 2 bind. change (RCTTypeCLSAG =? RCTTypeCLSAG) with true. cbv iota. bind.
  exact (proj2 (proj1 (Forall_lookup _ _) (g_signed _ _ _ _ _ gen) _ _ Hi)).
Qed.

Lemma accepted_amounts i v k m : vs !! i = Some v -> ks !! i = Some k -> decodeRctSimple rv k i m = ret (v, sbytes (derived_mask k)).
Proof.
  intros Hv Hk. destruct (g_sig _ _ _ _ _ gen) as (ecdh & He & E). unfold decodeRctSimple.
  assert (Et : type rv = RCTTypeCLSAG) by (by rewrite E). rewrite Et. change (is_rct_simple RCTTypeCLSAG) with true. cbn [negb].
  assert (Ez : zip vs ks !! i = Some (v, k)) by (apply lookup_zip_with_Some; by exists v, k).
  destruct (Forall2_lookup_l _ _ _ _ _ He Ez) as (t & El & Ht). pose proof (lookup_lt_Some _ _ _ Hv) as Li. destruct (lookup_lt_is_Some_2 dests i) as [a Ea]; [lia |].
  apply (decode_output_ok rv i v k t (mk_ctkey a (enc (pedersen (derived_mask k) v)))); try done.
  - by rewrite Et.
  - exact (proj1 (Forall_lookup _ _) vs_range _ _ Hv).
  - rewrite E. cbn [made_sig base made_base ecdhInfo outPk]. by rewrite outs_length, (ecdh_length _ He).
  - rewrite E. exact El.
  - rewrite E. apply lookup_zip_with_Some. exists a, (enc (pedersen (derived_mask k) v)). split; [done |]. split; [done |]. rewrite list_lookup_fmap.
    assert (Ep : out_points !! i = Some (pedersen (derived_mask k) v)) by (apply lookup_zip_with_Some; exists (derived_mask k), v; by rewrite list_lookup_fmap, Hk).
    by rewrite Ep.
Qed.
End Accepted.
End Honest.
End RctSigsCorrect.
