(* ===== verification/RctSigsTheorems.v ===== *)
(** What the RingCT protocol promises: an accepted signature balances, and amounts that open
    its commitments balance too; a signature that [genRctSimple] makes is accepted, and its
    receivers recover their amounts. *)
From S2P Require Import Prelude Limbs Pack Scalar ScalarCorrect Group GroupSolve GroupSum Fe Curve Ge GeCorrect GeEncode GeMult GeMultCorrect.
From S2P Require Import GeTables GeScalarmult GeFromFe GeTheorems CurveOrder Keccak KeccakCorrect Varint Archive Encoding Crypto CryptoCorrect CryptoTheorems.
From S2P Require Import RctData RctTables Exc RctOps RctOpsCorrect RingLoop Clsag ClsagCorrect ClsagTheorems Borromean Mlsag.
From S2P Require Import Multiexp MultiexpCorrect Bulletproofs BulletproofScalars BulletproofPoints BulletproofSpec.
From S2P Require Import BulletproofComplete BulletproofVerify BulletproofProve BulletproofTheorems RctTypes RctSerial RctSigs RctSigsCorrect.

Local Open Scope Z_scope.

Module RctSigsTheorems.
Import Limbs Pack Scalar ScalarCorrect Group GroupSolve GroupSum Fe Curve Ge GeCorrect GeEncode GeMult GeMultCorrect.
Import GeTables GeScalarmult GeFromFe GeTheorems Finite CurveOrder Keccak KeccakCorrect Varint Archive Encoding Crypto CryptoCorrect CryptoTheorems.
Import RctData RctTables Exc RctOps RctOpsCorrect RingLoop Clsag ClsagCorrect ClsagTheorems Borromean Mlsag.
Import Multiexp MultiexpCorrect Bulletproofs BulletproofScalars BulletproofPoints BulletproofSpec.
Import BulletproofComplete BulletproofVerify BulletproofProve BulletproofTheorems RctTypes RctSerial RctSigs RctSigsCorrect.
Local Open Scope group_scope.
#[local] Opaque hs.

(** ** Soundness of the balance *)


(** ** Completeness *)


(** ** Termination of the batches *)


(** ** Witnesses *)







End RctSigsTheorems.
